(* ===== verification/_CoqProject ===== *)
-Q . S2P
Prelude.v
GoText.v
Float64.v
Lanes.v
Frame.v
Scheduler.v
SchedulerDRR.v
SchedulerSys.v
SchedulerCalls.v
SchedulerFair.v
Sha256.v
AesGcm.v
Noise.v
RelayChannel.v
Registry.v
Conc.v
Json.v
GoUrl.v
Base64.v
Http.v
Tokens.v
Hub.v
Db.v
Server.v
Accounting.v
RelayWS.v
RelaySafe.v
AgentWS.v
BrowserWS.v
ApiKeys.v
ApiKeysSpec.v
HandlerSpec.v
ClaimSpec.v
AttemptsSpec.v
RelayGrant.v
BrowserGate.v
ConcOwn.v
TransferState.v
Transfer.v
TransferInv.v
TransferSafe.v
Peer.v
PeerSafe.v
TimeText.v
Files.v
Config.v
Store.v
Backoff.v
SignalingClient.v
DaemonState.v
Daemon.v
DaemonShares.v
DaemonInv.v
DaemonSafe.v
DaemonSpec.v
WebDav.v
Immich.v
Clouds.v
CloudSafe.v
Web.v
WebSafe.v
Wire.v
ServerMain.v
Migrations.v
Shaper.v
Bench.v
AgentMain.v
