(* ===== verification/Prelude.v ===== *)
(** * ShareBridge, verified in Rocq

    ShareBridge shares files and photos from a machine behind a firewall.  An
    agent (src/agent) runs next to the storage; a signaling server
    (src/signaling-server) knows the agents, the shares and the accounts; a
    browser reaches a share through the server, over a direct connection when
    one can be made and otherwise over a relay on the server that only sees
    ciphertext.  This library translates the Go code of the core of both
    programs into definitions and proves what they promise.

    ** How the program is modelled

    - Pure code is a function; Go's (value, error) pairs are [result].  Integers
      are [Z], with [wrap w] where an unsigned one may wrap; bytes are
      [list Byte.byte]; floats are IEEE binary64 ([spec_float]).
    - Code that runs under a mutex is one function from the state to the state:
      a critical section.  A program that several goroutines run is a value of
      [proc] (Conc.v): a sequence of atomic actions (a critical section, a
      database call, one socket, channel or pipe operation), each with a list
      of possible outcomes, empty while it blocks; loops are [Iter], [go] is
      [Spawn].  A system runs a pool of programs, interleaved with new ones and
      with the environment, and the theorems hold in every interleaving.  The
      rely-guarantee logic of Conc.v proves invariants; the one of ConcOwn.v
      adds tokens for what only one goroutine changes.
    - The scheduler has its own event system (SchedulerSys.v), because its
      callers, its pump and Close meet in channels.
    - Third-party code is an interface (a class) with the laws the code relies
      on, and a concrete instance on which the witnesses run: the P-256 group
      (Noise.v), the JWT library (Tokens.v), PocketBase and bcrypt (Db.v,
      ApiKeys.v).  A save of the database sets the autodate fields of its schema,
      so that saved records have the same content only up to them ([kept]), and a
      deletion takes with it what the schema says ([dependents]); of bcrypt the
      laws only say that a password matches its own hash.  Further: the transfer manager's storage (TransferState.v) and the
      daemon's (DaemonState.v), which Clouds.v instantiates with the two real
      clients.  SHA-256, HMAC and AES-GCM are the algorithms themselves
      (Sha256.v, AesGcm.v); so are the parts of Go's library the code leans on:
      url.Parse and path.Clean (GoUrl.v, GoText.v), base64 (Base64.v), and
      http.Client's redirects (Http.v), over a server that may answer anything.

    ** The files

    Agent, transport:
    - Lanes.v: agent/internal/multilane/lane.go, lanes, classes, envelopes and
      the version handshake.
    - Frame.v: agent/internal/relaychannel/frame.go, the relay's frames.
    - Scheduler.v, SchedulerSys.v: agent/internal/multilane/scheduler.go, its
      critical sections and the system they run in; SchedulerDRR.v is the
      reference round robin both its levels refine, SchedulerCalls.v what an
      answer of Send means, SchedulerFair.v how the link is shared.
    - Noise.v, over Sha256.v and AesGcm.v: agent/internal/noise, the handshake
      and the ciphers.
    - RelayChannel.v: agent/internal/relaychannel/channel.go, the secure channel
      over a websocket.
    - Peer.v: agent/internal/peer/peer.go, the direct connection, with its lanes
      and callbacks; PeerSafe.v the theorems.
    Agent, transfers:
    - TransferState.v, Transfer.v: agent/internal/transfer/manager.go, the
      state and the operations; TransferInv.v the invariant and the rules,
      TransferSafe.v the theorems.
    Agent, the daemon and what it calls:
    - DaemonState.v, Daemon.v, DaemonShares.v: agent/internal/daemon/daemon.go,
      the state, the messages of the server with the callbacks, and the life of
      the shares; DaemonInv.v the system and its invariant, DaemonSafe.v that
      every program keeps it, DaemonSpec.v the theorems.
    - Store.v, over TimeText.v: agent/internal/store/store.go, the sessions in
      their file.
    - Config.v: agent/internal/config/config.go, the settings; Files.v has the
      file operations of both.
    - SignalingClient.v, Backoff.v: agent/internal/signaling, the connection to
      the server and the delays between attempts, with the start of a single
      session (runSession in agent/cmd/agent/main.go).
    - WebDav.v: agent/internal/cloudwebdav/client.go, the shared folders of a
      cloud; Immich.v: agent/internal/immich/client.go, the photo library;
      Clouds.v: both as the storages of transfers and the daemon, with the
      daemon's adapter; CloudSafe.v the theorems.
    - Web.v: agent/internal/web, the local web interface; WebSafe.v the theorems.
    - AgentMain.v: agent/cmd/agent/main.go, the command line.
    - Shaper.v, Bench.v: agent/cmd/benchdirect, the measuring program: its shaped
      link as a system with time, and the rest of its core.
    Server:
    - Registry.v, Tokens.v, Accounting.v: signaling-server/internal/relay,
      relay sessions, tokens and byte accounting.
    - Hub.v: signaling-server/internal/hub, who speaks for which key and share.
    - Db.v, Server.v: the database and the world the handlers share, with the
      hub operations that write to sockets.
    - RelayWS.v, AgentWS.v, BrowserWS.v, ApiKeys.v:
      signaling-server/internal/handler and internal/middleware, the handlers;
      RelaySafe.v, HandlerSpec.v, ClaimSpec.v, AttemptsSpec.v, RelayGrant.v,
      BrowserGate.v and ApiKeysSpec.v prove what they promise.
    - ServerMain.v: signaling-server/cmd/server/main.go and internal/config, the
      settings, the routes and what guards them, the clean-up of shares and the
      files that are served.
    - Migrations.v: signaling-server/migrations, the database's schema and its
      history.
    Both programs: Wire.v, what an agent and the server write to each other,
    decoded by the other side.
    Shared: this file (results, bytes, integers, lists), GoText.v (numbers,
    paths and letters in text), GoUrl.v, Base64.v, Float64.v (binary64 and its
    conversions), Json.v (JSON values, hexadecimal text, time), Http.v (HTTP
    requests), Conc.v and ConcOwn.v (goroutines).

    ** What the theorems show

    - The relay keeps sessions apart (relay_isolation), pairs the two sockets of
      a session (relay_pairing), waits soundly (relay_wait_sound), takes a
      browser token once (browser_token_single_use), keeps the two kinds of
      token apart (relay_tokens_kept_apart), and bills bytes once
      (bytes_billed_once).
    - Honest parties finish the handshake with the same keys, and it only moves
      forward (handshake_agreement, handshake_phase_machine); the ciphers accept
      the next message and no other and never seal twice under a nonce
      (cipher_state_safe, cipher_stream_roundtrip); the channel delivers exactly
      what the peer sent (relay_delivery, relay_read_authentic).
    - The scheduler's memory is bounded (scheduler_bounded), Send's answers mean
      what they say (send_result_meaning, class_order_once,
      terminal_answers_all), no call is stuck (send_never_stuck), and the link
      is shared fairly (fair_share, control_burst_bounded).
    - A direct connection announces its opening before its closing, each once
      (peer_callbacks_in_order), and a closing reaches everybody who asked for
      it (peer_close_reaches_all).
    - Transfers: a download reported complete was sent in full (bulk_complete),
      downloads never interleave (bulk_exclusive), and a superseded preview
      sends nothing more (media_no_stale); the download limit can be passed by
      one (download_limit_race).
    - The storages: the credentials of a share only go to the host its
      link names, one of the allowed ones, or to a subdomain (cloud_credentials_stay), a listed file is asked for
      as listed (listed_file_requested) unless its name has a question mark
      (question_mark_lost); the photo library's requests stay on its host
      (photos_stay_on_host), a search over its pages ends (photo_search_ends)
      and finds an album's photos whichever way it is read
      (album_whole_either_way); every call returns (cloud_calls_return).
    - The two programs together: the server does with each of an agent's
      messages what the agent means (agent_messages_understood); a browser's
      words reach the daemon only as its own connection's
      (browser_speaks_for_itself); and of two browsers of one share, the
      offer and the candidates meant for the first are sent to the one that
      paired last, while what names its connection reaches the first
      (offer_reaches_last_browser).
    - The daemon admits only proved connections (daemon_admits_proved), its
      sessions hold only what was made for them and a closing one nothing
      (daemon_holds_its_own), and revoking closes everything
      (revoke_closes_everything).  The store is a map that survives a crash
      between any two file operations (store_crash_safe).  Two negative
      results: the backoff becomes negative (backoff_doubles_then_vanishes) and
      a single session never gets ready (single_session_never_ready).
    - The settings come back as they were saved (config_survives_save), and are
      always complete (config_well_formed).
    - The web interface changes something only for a request that passed the
      guards (web_changes_guarded) and, with a password, discloses no share
      and no setting without it (web_needs_password).  The command
      line has it make the share its flags say when the interface has no password,
      and otherwise shares alone (cli_share_delegated).
    - The hub fences superseded agents, keeps browsers through reconnects and
      delivers only to a share's own agent (superseded_agent_fenced,
      reconnect_keeps_browser, browser_delivery_authorized).
    - The handlers: API keys work until revoked (api_key_lifecycle), revocation
      cuts off exactly the key's agent and browsers (revocation_disconnects),
      rotation is all or nothing (rotation_atomic), a claim never touches
      another account's share (claim_respects_owner), passwords guard shares and
      attempts are limited (password_gate, password_attempts_limited), and a
      good password yields usable relay tokens exactly when it may
      (relay_grant_works).
    - The routes of keys and accounts, and the agents' socket, let nobody in
      without a good token or key, the browsers' and the relay's sockets refuse
      who names no live share or has no token, and the rest changes nothing
      (server_asks_who).  The migrations end in the schema the handlers rely on,
      from any older one, and keep what it had (migrations_reach_schema), though a required number that may not be zero keeps an idle account's
      period from ending (idle_period_never_ends).
    - The server serves no file outside a directory it serves (served_inside),
      and its clean-up removes exactly the expired shares
      (expired_sessions_deleted).
    - The relay's frames: frame_roundtrip.
    - The measuring program: its link is a queue that loses no wake-up
      (shaper_is_fifo) but stops for good at a datagram bigger than its burst
      (big_datagram_never_sent); the shards sum to the whole (shards_sum), the
      pump sends exactly what it says (pump_exact), the candidates the browser
      sees are the link's (rewrite_exact), and no answer of the page makes the
      run panic (answers_never_panic).

    ** Bounds and fuel

    The scheduler's two round-robin loops have fuel, [inner_fuel] (66 turns) and
    [outer_fuel] (25), which SchedulerDRR.v proves enough in every reachable
    state; every other recursion is on data or an [Iter].  Results about
    transfers hold while fewer than 2^64 operations have begun, after which the
    code's ids would repeat.

    ** Not modelled

    The vendored congestion control (a patch of a third-party library), the
    administrator's command, which only makes a superuser in that library, starting
    the browser and the WebRTC connections of the measuring program and its
    printed report, the browser client and the extensions, which are not Go.  The message handler of a single session: its start never
    reaches it (single_session_never_ready).  Callers that wait for one another's
    request for the photo library's version: there is one caller.  Of what the
    code calls: pages are values instead of HTML, documents arrive decoded from
    XML and JSON, and ParseFloat, ParseDuration, the test for an IP address and
    the letters beyond ASCII are parameters or left out. *)

From Stdlib Require Export ZArith Lia.
From Stdlib Require Export Strings.Byte.
From stdpp Require Export base option gmap strings numbers.
From stdpp Require Export list.

#[local] Open Scope Z_scope.
#[export] Set Warnings "-clear-no-such-hyp".

(** * Results: Go's (value, error) pairs *)

Inductive result (A E : Type) : Type :=
| Ok (a : A)
| Err (e : E).
Arguments Ok {A E} a.
Arguments Err {A E} e.

Declare Scope go_scope.
Delimit Scope go_scope with go.

(** [let? x := c in k]: Go's [x, err := c; if err != nil { return err }; k]. *)
Definition rbind {A B E} (c : result A E) (k : A -> result B E) : result B E :=
  match c with Ok a => k a | Err e => Err e end.
Notation "'let?' x := c 'in' k" := (rbind c (fun x => k))
  (at level 10, x pattern, c at level 100, k at level 200) : go_scope.

Definition is_ok {A E} (r : result A E) : bool :=
  match r with Ok _ => true | Err _ => false end.

Definition rmap {A B E} (f : A -> B) (r : result A E) : result B E :=
  match r with Ok a => Ok (f a) | Err e => Err e end.
Definition rmap_err {A E F} (f : E -> F) (r : result A E) : result A F :=
  match r with Ok a => Ok a | Err e => Err (f e) end.

Lemma rbind_ok {A B E} (c : result A E) (k : A -> result B E) b :
  rbind c k = Ok b <-> exists a, c = Ok a /\ k a = Ok b.
Proof.
  destruct c; simpl; split; [eauto|intros (?&[= ->]&?); done|done|intros (?&[=]&?)].
Qed.

Lemma rbind_err {A B E} (c : result A E) (k : A -> result B E) e :
  rbind c k = Err e <-> c = Err e \/ exists a, c = Ok a /\ k a = Err e.
Proof.
  destruct c; simpl; split; [eauto|intros [[=]|(?&[= ->]&?)]; done|intros [= ->]; auto|].
  intros [[= ->]|(?&[=]&?)]; done.
Qed.

(** A stateful, fallible operation: the state is returned on the error path
    too, because a Go method that fails half way keeps what it had written. *)
Definition GoM (S E A : Type) : Type := S -> result A E * S.

Definition gret {S E A} (a : A) : GoM S E A := fun s => (Ok a, s).
Definition gfail {S E A} (e : E) : GoM S E A := fun s => (Err e, s).
Definition gbind {S E A B} (c : GoM S E A) (k : A -> GoM S E B) : GoM S E B :=
  fun s => match c s with
           | (Ok a, s') => k a s'
           | (Err e, s') => (Err e, s')
           end.
Definition gget {S E} : GoM S E S := fun s => (Ok s, s).
Definition gmod {S E} (f : S -> S) : GoM S E unit := fun s => (Ok tt, f s).
Definition glift {S E A} (r : result A E) : GoM S E A := fun s => (r, s).
(** [if bad { return err }]. *)
Definition gguard {S E} (bad : bool) (e : E) : GoM S E unit :=
  if bad then gfail e else gret tt.

Notation "'let!' x := c 'in' k" := (gbind c (fun x => k))
  (at level 10, x pattern, c at level 100, k at level 200) : go_scope.
Notation "'do!' c 'in' k" := (gbind c (fun _ => k))
  (at level 10, c at level 100, k at level 200) : go_scope.

#[export] Instance result_eq_dec {A E} `{EqDecision A, EqDecision E} :
  EqDecision (result A E).
Proof. solve_decision. Defined.

(** * Bytes *)

Abbreviation bytes := (list byte).

Definition byte_val (b : byte) : Z := Z.of_N (Byte.to_N b).

(** Go's conversion [byte(z)] of an integer: its low eight bits. *)
Definition byte_of_Z (z : Z) : byte :=
  match Byte.of_N (Z.to_N (z mod 256)) with
  | Some b => b
  | None => x00
  end.

#[export] Instance byte_eq_dec : EqDecision byte := Byte.byte_eq_dec.

Lemma byte_val_range b : 0 <= byte_val b < 256.
Proof.
  unfold byte_val. pose proof (Byte.to_N_bounded b). lia.
Qed.

Lemma byte_of_Z_val b : byte_of_Z (byte_val b) = b.
Proof.
  unfold byte_of_Z. rewrite Z.mod_small by apply byte_val_range.
  unfold byte_val. rewrite N2Z.id. by rewrite Byte.of_to_N.
Qed.

Lemma byte_val_of_Z z : byte_val (byte_of_Z z) = z mod 256.
Proof.
  unfold byte_of_Z, byte_val.
  assert (Hm : 0 <= z mod 256 < 256) by (apply Z.mod_pos_bound; lia).
  destruct (Byte.of_N (Z.to_N (z mod 256))) as [b|] eqn:Hb.
  - apply Byte.to_of_N in Hb. rewrite Hb. lia.
  - apply Byte.of_N_None_iff in Hb. lia.
Qed.

#[export] Instance byte_val_inj : Inj (=) (=) byte_val.
Proof. intros a b H. by rewrite <- (byte_of_Z_val a), <- (byte_of_Z_val b), H. Qed.

#[export] Instance byte_countable : Countable byte :=
  inj_countable' byte_val byte_of_Z byte_of_Z_val.

(** The length of a Go slice, an [int]. *)
Definition len {A} (l : list A) : Z := Z.of_nat (length l).

Lemma len_nonneg {A} (l : list A) : 0 <= len l.
Proof. unfold len. lia. Qed.
Lemma len_app {A} (l1 l2 : list A) : len (l1 ++ l2) = len l1 + len l2.
Proof. unfold len. rewrite length_app. lia. Qed.
Lemma len_cons {A} (x : A) l : len (x :: l) = 1 + len l.
Proof. unfold len. simpl. lia. Qed.
Lemma len_nil {A} : len (@nil A) = 0.
Proof. done. Qed.
Lemma len_zero_nil {A} (l : list A) : len l = 0 <-> l = [].
Proof. destruct l; unfold len; simpl; naive_solver lia. Qed.

(** * Big-endian integers (encoding/binary) *)

(** [binary.BigEndian.PutUintN]: [n] bytes, most significant first. *)
Fixpoint be_put (n : nat) (z : Z) : bytes :=
  match n with
  | O => []
  | S n' => byte_of_Z (Z.shiftr z (8 * Z.of_nat n')) :: be_put n' z
  end.

(** [binary.BigEndian.UintN]. *)
Definition be_get (l : bytes) : Z :=
  foldl (fun acc b => Z.lor (Z.shiftl acc 8) (byte_val b)) 0 l.

Lemma lor_shift8 acc b :
  0 <= acc -> Z.lor (Z.shiftl acc 8) (byte_val b) = 256 * acc + byte_val b.
Proof.
  intros Hacc. pose proof (byte_val_range b) as Hb.
  rewrite Z.shiftl_mul_pow2 by lia. change (2 ^ 8) with 256.
  enough (Z.land (acc * 256) (byte_val b) = 0) as Hland.
  { rewrite <- Z.lxor_lor by done. rewrite <- Z.add_nocarry_lxor by done. lia. }
  apply Z.bits_inj'. intros n Hn.
  rewrite Z.land_spec, Z.bits_0.
  destruct (decide (n < 8)).
  - rewrite Z.mul_pow2_bits_low with (n := 8) by lia. done.
  - rewrite (Z.testbit_eqb (byte_val b)) by lia.
    rewrite Z.div_small; [apply andb_false_r|].
    split; [lia|]. eapply Z.lt_le_trans; [apply Hb|].
    change 256 with (2 ^ 8). apply Z.pow_le_mono_r; lia.
Qed.

Lemma be_get_aux l acc :
  0 <= acc ->
  foldl (fun a b => Z.lor (Z.shiftl a 8) (byte_val b)) acc l
  = acc * 2 ^ (8 * len l) + be_get l
  /\ 0 <= be_get l.
Proof.
  unfold be_get. revert acc.
  induction l as [|b l IH]; intros acc Hacc; simpl.
  - rewrite (@len_nil byte). simpl. lia.
  - pose proof (byte_val_range b) as Hb.
    rewrite !lor_shift8 by lia.
    destruct (IH (256 * acc + byte_val b) ltac:(lia)) as [-> ?].
    destruct (IH (256 * 0 + byte_val b) ltac:(lia)) as [-> _].
    rewrite len_cons, Z.mul_add_distr_l, Z.pow_add_r by (pose proof (len_nonneg l); lia).
    change (2 ^ (8 * 1)) with 256. split; [lia|].
    assert (0 <= 2 ^ (8 * len l)) by (apply Z.pow_nonneg; lia). nia.
Qed.

Lemma be_get_cons b l : be_get (b :: l) = byte_val b * 2 ^ (8 * len l) + be_get l.
Proof.
  unfold be_get at 1. simpl. rewrite lor_shift8 by lia.
  pose proof (byte_val_range b).
  destruct (be_get_aux l (256 * 0 + byte_val b) ltac:(lia)) as [-> _]. lia.
Qed.

Lemma be_get_bound l : 0 <= be_get l < 2 ^ (8 * len l).
Proof.
  induction l as [|b l IH]; [done|].
  rewrite be_get_cons, len_cons, Z.mul_add_distr_l, Z.pow_add_r
    by (pose proof (len_nonneg l); lia).
  change (2 ^ (8 * 1)) with 256.
  pose proof (byte_val_range b). nia.
Qed.

Lemma length_be_put n z : length (be_put n z) = n.
Proof. induction n; simpl; congruence. Qed.
Lemma len_be_put n z : len (be_put n z) = Z.of_nat n.
Proof. unfold len. by rewrite length_be_put. Qed.

Lemma be_get_put n z : be_get (be_put n z) = z mod 2 ^ (8 * Z.of_nat n).
Proof.
  induction n as [|n IH].
  - simpl. by rewrite Z.mod_1_r.
  - cbn [be_put]. rewrite be_get_cons, len_be_put, IH, byte_val_of_Z.
    rewrite Z.shiftr_div_pow2 by lia.
    assert (2 ^ (8 * Z.of_nat (S n)) = 2 ^ (8 * Z.of_nat n) * 256) as ->.
    { rewrite Nat2Z.inj_succ, Z.mul_succ_r. by rewrite Z.pow_add_r by lia. }
    rewrite (Z.rem_mul_r z (2 ^ (8 * Z.of_nat n)) 256)
      by (try apply Z.pow_nonzero; lia). lia.
Qed.

Lemma be_put_get l : be_put (length l) (be_get l) = l.
Proof.
  induction l as [|b l IH]; [done|].
  cbn [length be_put]. rewrite be_get_cons. fold (len l).
  pose proof (len_nonneg l) as Hlen. pose proof (be_get_bound l) as Hl. pose proof (byte_val_range b) as Hb.
  rewrite Z.shiftr_div_pow2 by lia.
  rewrite Z.div_add_l by (apply Z.pow_nonzero; unfold len; lia).
  rewrite (Z.div_small (be_get l)) by done.
  rewrite Z.add_0_r, byte_of_Z_val. f_equal.
  assert (Hmod : forall n z k, (Z.of_nat n <= k) ->
    be_put n (z * 2 ^ (8 * k) + be_get l) = be_put n (be_get l)).
  { clear. induction n as [|n IH]; intros z k Hk; [done|]. cbn [be_put]. f_equal.
    - apply byte_val_inj. rewrite !byte_val_of_Z, !Z.shiftr_div_pow2 by lia.
      replace (8 * k) with (8 * (k - Z.of_nat n - 1) + 8 + 8 * Z.of_nat n) by lia.
      rewrite !Z.pow_add_r by lia.
      assert (0 < 2 ^ (8 * Z.of_nat n)) by (apply Z.pow_pos_nonneg; lia).
      rewrite !Z.mul_assoc, Z.div_add_l by lia.
      change (2 ^ 8) with 256.
      by rewrite Z.add_comm, Z_mod_plus_full.
    - apply IH. lia. }
  etransitivity; [apply Hmod; unfold len; lia|exact IH].
Qed.

Lemma be_put_inj n x y :
  0 <= x < 2 ^ (8 * Z.of_nat n) -> 0 <= y < 2 ^ (8 * Z.of_nat n) ->
  be_put n x = be_put n y -> x = y.
Proof.
  intros Hx Hy Heq. apply (f_equal be_get) in Heq.
  rewrite !be_get_put, !Z.mod_small in Heq by done. done.
Qed.

Arguments be_put : simpl never.
Arguments be_get : simpl never.
Arguments byte_of_Z : simpl never.
Arguments byte_val : simpl never.
Arguments len : simpl never.

(** * Unsigned machine integers *)

Definition wrap (w z : Z) : Z := z mod 2 ^ w.
Definition u64_max : Z := 2 ^ 64 - 1.
Definition u32_max : Z := 2 ^ 32 - 1.

Arguments wrap : simpl never.
Arguments u64_max : simpl never.
Arguments u32_max : simpl never.

Lemma wrap_range w z : 0 <= w -> 0 <= wrap w z < 2 ^ w.
Proof. intros. apply Z.mod_pos_bound. lia. Qed.
Lemma wrap_small w z : 0 <= z < 2 ^ w -> wrap w z = z.
Proof. apply Z.mod_small. Qed.

(** * Lists *)

(** Where an element of a list with one more at the end is. *)
Lemma snoc_split {A} (l : list A) x past e rest :
  l ++ [x] = past ++ e :: rest -> (past = l /\ e = x) \/ exists rest', l = past ++ e :: rest'.
Proof.
  intros Heq. destruct rest as [|y rest _] using rev_ind.
  - apply app_inj_tail in Heq as [-> ->]. by left.
  - rewrite app_comm_cons, app_assoc in Heq. apply app_inj_tail in Heq as [-> ->]. right. eauto.
Qed.

(** * Go maps: a missing key reads as the zero value *)

Definition mlookup {K A} `{Countable K} (d : A) (m : gmap K A) (k : K) : A :=
  default d (m !! k).

(** * Automation *)

Create HintDb go discriminated.
Create Rewrite HintDb go_len.
#[export] Hint Resolve len_nonneg byte_val_range be_get_bound : go.
#[export] Hint Rewrite @len_app @len_cons @len_nil len_be_put : go_len.

(** Case analysis on the [if decide] and [match] the code branches on. *)
Ltac go_case :=
  repeat (case_decide || case_match || simplify_eq/=).

(** Runs a [GoM] program as far as its branches are known. *)
Ltac go_run := unfold gguard, gbind, gget, glift, gmod, gret, gfail; cbn beta iota zeta.

Ltac go_len := autorewrite with go_len in *; lia.
