(* ===== verification/GoText.v ===== *)
(** Go's strings and strconv: decimal numbers, prefixes and suffixes. *)

From Stdlib Require Import Ascii.
From stdpp Require Import pretty.
From S2P Require Import Prelude.
#[local] Open Scope Z_scope.

(** * Numbers *)

Fixpoint parse_digits (acc : Z) (s : string) : option Z :=
  match s with
  | EmptyString => Some acc
  | String c s' =>
      let d := Z.of_nat (nat_of_ascii c) - 48 in
      if (0 <=? d) && (d <=? 9) then parse_digits (10 * acc + d) s' else None
  end.
(** [strconv.ParseUint(s, 10, 64)]. *)
Definition ParseUint (s : string) : option Z :=
  if bool_decide (s = ""%string) then None
  else n ← parse_digits 0 s; if n <? 2 ^ 64 then Some n else None.
(** [strconv.Atoi]: an optional sign and digits, of a 64-bit int. *)
Definition Atoi (s : string) : option Z :=
  let digits t := if bool_decide (t = ""%string) then None else parse_digits 0 t in
  n ← match s with
      | String "-" t => Z.opp <$> digits t
      | String "+" t => digits t
      | _ => digits s
      end;
  if (- 2 ^ 63 <=? n) && (n <? 2 ^ 63) then Some n else None.

(** * Strings *)

Fixpoint has_prefix (p s : string) : bool :=
  match p, s with
  | EmptyString, _ => true
  | String a p', String b s' => bool_decide (a = b) && has_prefix p' s'
  | _, EmptyString => false
  end.
(** [strings.Contains]. *)
Fixpoint contains (p s : string) : bool :=
  has_prefix p s || match s with EmptyString => false | String _ s' => contains p s' end.

Fixpoint str_drop (n : nat) (s : string) : string :=
  match n, s with S n', String _ s' => str_drop n' s' | _, _ => s end.
Definition has_suffix (p s : string) : bool := has_prefix (String.rev p) (String.rev s).
(** [strings.TrimPrefix] and [strings.TrimSuffix]. *)
Definition TrimPrefix (s p : string) : string := if has_prefix p s then str_drop (String.length p) s else s.
Definition TrimSuffix (s p : string) : string :=
  if has_suffix p s then String.substring 0 (String.length s - String.length p) s else s.

(** * Paths (path) *)

(** The elements between slashes. *)
Fixpoint split_slash (s : string) : list string :=
  match s with
  | EmptyString => [EmptyString]
  | String c s' =>
      if bool_decide (c = "/"%char) then EmptyString :: split_slash s'
      else match split_slash s' with e :: l => String c e :: l | [] => [String c EmptyString] end
  end.
Definition rooted (s : string) : bool := has_prefix "/" s.

(** The elements of a cleaned path, last first. *)
Fixpoint clean_elems (root : bool) (acc : list string) (l : list string) : list string :=
  match l with
  | [] => acc
  | e :: l' =>
      if bool_decide (e = ""%string) || bool_decide (e = "."%string) then clean_elems root acc l'
      else if bool_decide (e = ".."%string) then
        match acc with
        | a :: acc' => if bool_decide (a = ".."%string) then clean_elems root (e :: acc) l' else clean_elems root acc' l'
        | [] => if root then clean_elems root [] l' else clean_elems root [e] l'
        end
      else clean_elems root (e :: acc) l'
  end.
Definition join_slash (l : list string) : string := String.concat "/" l.

(** [path.Clean], [path.Dir], [path.Base] and [path.Join] of two parts. *)
Definition path_Clean (s : string) : string :=
  let es := join_slash (reverse (clean_elems (rooted s) [] (split_slash s))) in
  if rooted s then ("/" ++ es)%string else if bool_decide (es = ""%string) then "."%string else es.
Definition path_Dir (s : string) : string :=
  path_Clean (match reverse (split_slash s) with _ :: (_ :: _) as l => join_slash (reverse (""%string :: tail l)) | _ => "" end).
Definition path_Base (s : string) : string :=
  if bool_decide (s = ""%string) then "."%string
  else match last (filter (fun e => e <> ""%string) (split_slash s)) with Some e => e | None => "/"%string end.
Definition path_Join (a b : string) : string :=
  if bool_decide (a = ""%string) && bool_decide (b = ""%string) then ""%string
  else if bool_decide (a = ""%string) then path_Clean b
  else if bool_decide (b = ""%string) then path_Clean a else path_Clean (a ++ "/" ++ b).

(** * Hexadecimal digits *)

Definition hex_value (c : ascii) : option Z :=
  let n := Z.of_nat (nat_of_ascii c) in
  if (48 <=? n) && (n <=? 57) then Some (n - 48)
  else if (97 <=? n) && (n <=? 102) then Some (n - 87)
  else if (65 <=? n) && (n <=? 70) then Some (n - 55) else None.

(** * Characters *)

Definition code (c : ascii) : Z := Z.of_nat (nat_of_ascii c).
Definition in_range (lo hi : Z) (c : ascii) : bool := (lo <=? code c) && (code c <=? hi).
Definition is_letter (c : ascii) : bool := in_range 97 122 c || in_range 65 90 c.
Definition is_digit : ascii -> bool := in_range 48 57.
Definition one_of (l : list ascii) (c : ascii) : bool := bool_decide (c ∈ l).

Fixpoint str_map (f : ascii -> string) (s : string) : string :=
  match s with EmptyString => EmptyString | String c t => f c +:+ str_map f t end.
Fixpoint str_all (f : ascii -> bool) (s : string) : bool :=
  match s with EmptyString => true | String c t => f c && str_all f t end.

Definition is_space (c : ascii) : bool := one_of [" "; "009"; "010"; "011"; "012"; "013"]%char c.
Fixpoint drop_while (f : ascii -> bool) (s : string) : string :=
  match s with String c t => if f c then drop_while f t else s | EmptyString => EmptyString end.
(** [strings.TrimFunc]. *)
Definition trim_by (f : ascii -> bool) (s : string) : string := String.rev (drop_while f (String.rev (drop_while f s))).
Definition TrimSpace : string -> string := trim_by is_space.
Lemma Atoi_range s n : Atoi s = Some n -> - 2 ^ 63 <= n < 2 ^ 63.
Proof.
  unfold Atoi. destruct (match s with String _ _ => _ | _ => _ end) as [m|]; simpl; [|done].
  destruct ((- 2 ^ 63 <=? m) && (m <? 2 ^ 63)) eqn:Hm; [|done]. intros [= <-]. lia.
Qed.

Lemma has_prefix_app p s : has_prefix p (p +:+ s) = true.
Proof. induction p as [|c p IH]; [done|]. change (bool_decide (c = c) && has_prefix p (p +:+ s) = true). by rewrite IH, bool_decide_true. Qed.
Lemma str_drop_app p s : str_drop (String.length p) (p +:+ s) = s.
Proof. induction p as [|c p IH]; [by destruct s|exact IH]. Qed.
Lemma TrimPrefix_app p s : TrimPrefix (p +:+ s) p = s.
Proof. unfold TrimPrefix. by rewrite has_prefix_app, str_drop_app. Qed.

(** ** Numbers written out *)

Lemma parse_pretty_go (x : N) s : (0 < x)%N -> parse_digits 0 (pretty_N_go x s) = parse_digits (Z.of_N x) s.
Proof.
  revert s. induction (N.lt_wf_0 x) as [x _ IH]. intros s Hx. rewrite pretty_N_go_step by done.
  assert (parse_digits (Z.of_N (x / 10)) (String (pretty_N_char (x mod 10)) s) = parse_digits (Z.of_N x) s) as Hd.
  { assert (x mod 10 < 10)%N as Hr by (by apply N.mod_lt).
    assert (Z.of_N x = 10 * Z.of_N (x / 10) + Z.of_N (x mod 10)) as ->
      by (pose proof (N.div_mod x 10 ltac:(done)); lia).
    simpl parse_digits at 1. set (r := (x mod 10)%N) in *.
    assert (Z.of_nat (nat_of_ascii (pretty_N_char r)) - 48 = Z.of_N r) as ->.
    { clearbody r. destruct r as [|p]; [done|]. do 4 (destruct p as [p|p|]; try done; try lia). }
    by rewrite (proj2 (Z.leb_le 0 _)), (proj2 (Z.leb_le _ 9)) by lia. }
  destruct (N.eq_0_gt_0_cases (x / 10)) as [H0|H0].
  - rewrite <- Hd, H0. by rewrite pretty_N_go_0.
  - rewrite IH; [done| |done]. apply N.div_lt; lia.
Qed.

(** A positive number survives being written out and parsed. *)
Lemma parse_pretty n : 0 < n -> parse_digits 0 (pretty n) = Some n.
Proof.
  intros Hn. destruct n as [|p|p]; [lia| |lia]. change (pretty (Z.pos p)) with (pretty (N.pos p)). unfold pretty, pretty_N. rewrite decide_False by done.
  rewrite parse_pretty_go by done. done.
Qed.

Lemma Atoi_pretty n : 0 < n < 2 ^ 63 -> Atoi (pretty n) = Some n.
Proof.
  intros Hn. pose proof (parse_pretty n ltac:(lia)) as Hp. unfold Atoi.
  destruct (pretty n) as [|c s]; [simpl in Hp; injection Hp as ?; lia|].
  assert (c <> "-"%char /\ c <> "+"%char) as [H1 H2] by (split; intros ->; done).
  assert (forall o, o = Some n -> (m ← o; if (- 2 ^ 63 <=? m) && (m <? 2 ^ 63) then Some m else None) = Some n) as Hrange.
  { intros o ->. simpl. by rewrite (proj2 (Z.leb_le _ n)), (proj2 (Z.ltb_lt n _)) by lia. }
  apply Hrange. clear Hrange.
  destruct c as [[] [] [] [] [] [] [] []];
    first [by destruct H1|by destruct H2|rewrite bool_decide_false by done; exact Hp].
Qed.

(** [strconv.Atoi] of [strconv.Itoa]. *)
Lemma Atoi_Itoa n : - 2 ^ 63 <= n < 2 ^ 63 -> Atoi (pretty n) = Some n.
Proof.
  intros Hn. destruct n as [|p|p]; [reflexivity|apply Atoi_pretty; lia|].
  change (pretty (Z.neg p)) with (String "-" (pretty (Z.pos p))). unfold Atoi.
  rewrite bool_decide_false by (intros Hnil; pose proof (parse_pretty (Z.pos p) ltac:(done)) as Hp; rewrite Hnil in Hp; simpl in Hp; congruence).
  rewrite parse_pretty by done. change (Z.opp <$> Some (Z.pos p)) with (Some (Z.neg p)). cbn [mbind option_bind].
  by rewrite (proj2 (Z.leb_le _ (Z.neg p))), (proj2 (Z.ltb_lt (Z.neg p) _)) by lia.
Qed.
