(* ===== verification/Float64.v ===== *)
(** IEEE binary64, as Go's float64. *)

From Stdlib Require Import Floats.SpecFloat.
From S2P Require Import Prelude.
#[local] Open Scope Z_scope.

Abbreviation float64 := spec_float.
Definition f64_of_Z (z : Z) : float64 := binary_normalize 53 1024 z 0 false.
Definition f64_add : float64 -> float64 -> float64 := SFadd 53 1024.
Definition f64_sub : float64 -> float64 -> float64 := SFsub 53 1024.
Definition f64_mul : float64 -> float64 -> float64 := SFmul 53 1024.
Definition f64_div : float64 -> float64 -> float64 := SFdiv 53 1024.
(** [x >= y], [x < y], [x > y]: false on a NaN. *)
Definition f64_ge (x y : float64) : bool := SFleb y x.
Definition f64_lt (x y : float64) : bool := SFltb x y.
Definition f64_gt (x y : float64) : bool := SFltb y x.

(** The conversion to an integer truncates; a value out of the range of an
    [int64] (or a NaN) gives the smallest one, as on amd64. *)
Definition int64_of_f64 (x : float64) : Z :=
  let clip z := if (-(2 ^ 63) <=? z) && (z <? 2 ^ 63) then z else -(2 ^ 63) in
  match x with
  | S754_zero _ => 0
  | S754_finite s m e =>
      let v := if e <? 0 then Z.pos m / 2 ^ (- e) else Z.pos m * 2 ^ e in
      clip (if s then - v else v)
  | _ => -(2 ^ 63)
  end.

