(* ===== verification/Lanes.v ===== *)
(** The lane protocol shared by every transport (agent/internal/multilane/lane.go):
    lane and traffic-class codes, the lane envelope, and the responder of the
    transport_hello / transport_ready version handshake. *)

From S2P Require Import Prelude.
#[local] Open Scope Z_scope.
#[local] Open Scope go_scope.

(** [agent/internal/multilane/lane.go:10-10] ProtocolVersion *)
Definition ProtocolVersion : Z := 2.

(** * Lanes: the wire byte of a logical transport lane *)

(** Line 13 of lane.go: the type Lane is a byte. *)
Abbreviation Lane := byte.

(** [agent/internal/multilane/lane.go:16-16] LaneControl *)
Definition LaneControl : Lane := x00.
(** [agent/internal/multilane/lane.go:17-17] LaneMedia *)
Definition LaneMedia : Lane := x01.
(** [agent/internal/multilane/lane.go:18-18] LaneBulk *)
Definition LaneBulk : Lane := x02.

(** [agent/internal/multilane/lane.go:22-29] Lane.Valid *)
Definition Lane_Valid (lane : Lane) : bool :=
  if decide (lane = LaneControl) then true
  else if decide (lane = LaneMedia) then true
  else if decide (lane = LaneBulk) then true
  else false.

Inductive lane_error : Type :=
| ErrInvalidLane (lane : byte)
| ErrEmptyEnvelope
| ErrUnknownClass (class : byte).

#[export] Instance lane_error_eq_dec : EqDecision lane_error.
Proof. solve_decision. Defined.

(** [agent/internal/multilane/lane.go:32-41] EncodeEnvelope *)
Definition EncodeEnvelope (lane : Lane) (payload : bytes) : result bytes lane_error :=
  if negb (Lane_Valid lane) then Err (ErrInvalidLane lane)
  else Ok (lane :: payload).

(** [agent/internal/multilane/lane.go:44-57] DecodeEnvelope *)
Definition DecodeEnvelope (encoded : bytes) : result (Lane * bytes) lane_error :=
  match encoded with
  | [] => Err ErrEmptyEnvelope
  | b :: payload =>
      let lane : Lane := b in
      if negb (Lane_Valid lane) then Err (ErrInvalidLane lane)
      else Ok (lane, payload)
  end.

(** * Payload kinds and traffic classes *)

(** Line 60 of lane.go: the type Kind is a byte. *)
Abbreviation Kind := byte.
(** [agent/internal/multilane/lane.go:63-63] KindText *)
Definition KindText : Kind := x01.
(** [agent/internal/multilane/lane.go:64-64] KindBinary *)
Definition KindBinary : Kind := x02.

(** Line 68 of lane.go: the type TrafficClass is a byte. *)
Abbreviation TrafficClass := byte.
(** [agent/internal/multilane/lane.go:71-71] ClassControl *)
Definition ClassControl : TrafficClass := x00.
(** [agent/internal/multilane/lane.go:72-72] ClassInteractiveMedia *)
Definition ClassInteractiveMedia : TrafficClass := x01.
(** [agent/internal/multilane/lane.go:73-73] ClassThumbnail *)
Definition ClassThumbnail : TrafficClass := x02.
(** [agent/internal/multilane/lane.go:74-74] ClassBulk *)
Definition ClassBulk : TrafficClass := x03.

(** [agent/internal/multilane/lane.go:78-89] LaneForClass *)
Definition LaneForClass (class : TrafficClass) : result Lane lane_error :=
  if decide (class = ClassControl) then Ok LaneControl
  else if decide (class = ClassInteractiveMedia) then Ok LaneMedia
  else if decide (class = ClassThumbnail) then Ok LaneMedia
  else if decide (class = ClassBulk) then Ok LaneBulk
  else Err (ErrUnknownClass class).

(** * The transport handshake responder *)

(** The decoded [transport_hello] (JSON decoding is the standard library's; a
    message it refuses is [None]).
    [agent/internal/multilane/lane.go:117-120] transportHandshake *)
Record transportHandshake := { hs_type : string; hs_version : Z }.

#[export] Instance transportHandshake_eq_dec : EqDecision transportHandshake.
Proof. solve_decision. Defined.

(** The [message] field of a connection-scoped error reply.
    [agent/internal/multilane/lane.go:122-126] transportError *)
Inductive transportError : Type :=
| ExpectedTransportHello                       (* expected transport_hello version 2 *)
| IncompatibleVersion (version : Z).           (* incompatible transport version: %d *)

#[export] Instance transportError_eq_dec : EqDecision transportError.
Proof. solve_decision. Defined.

(** What the responder does to the channel set, in order. *)
Inductive hs_action : Type :=
| HsSendText (reply : transportHandshake)      (* the transport_ready reply *)
| HsSendError (e : transportError)             (* an error reply *)
| HsCloseSet                                   (* set.Close() *)
| HsClearHandler                               (* control.SetOnMessage(nil) *)
| HsOnReady.                                   (* onReady() *)

#[export] Instance hs_action_eq_dec : EqDecision hs_action.
Proof. solve_decision. Defined.

(** [agent/internal/multilane/lane.go:173-182] sendHandshakeError *)
Definition sendHandshakeError (e : transportError) : list hs_action := [HsSendError e].

(** The responder's own state: its [sync.Once] and whether its closure is
    still the control endpoint's handler. *)
Record responder := { fired : bool; installed : bool }.

Definition transport_ready : transportHandshake :=
  {| hs_type := "transport_ready"; hs_version := ProtocolVersion |}.

(** The body run by [first.Do] on the first control message; [send_ok] is the
    outcome of [control.SendText].
    [agent/internal/multilane/lane.go:143-169] first.Do *)
Definition handshake_first (has_onReady send_ok : bool)
    (data : option transportHandshake) : list hs_action :=
  match data with
  | None => sendHandshakeError ExpectedTransportHello ++ [HsCloseSet]
  | Some hello =>
      if negb (bool_decide (hs_type hello = "transport_hello"%string))
      then sendHandshakeError ExpectedTransportHello ++ [HsCloseSet]
      else if negb (hs_version hello =? ProtocolVersion)
      then sendHandshakeError (IncompatibleVersion (hs_version hello)) ++ [HsCloseSet]
      else if negb send_ok then [HsSendText transport_ready; HsCloseSet]
      else [HsSendText transport_ready; HsClearHandler]
           ++ (if has_onReady then [HsOnReady] else [])
  end.

(** [agent/internal/multilane/lane.go:131-142] InstallHandshakeResponder:
    [has_control] is whether [set.Endpoint(LaneControl)] is non-nil. *)
Definition InstallHandshakeResponder (has_control : bool) : responder * list hs_action :=
  if has_control then ({| fired := false; installed := true |}, [])
  else ({| fired := false; installed := false |}, [HsCloseSet]).

(** One control message delivered to the endpoint whose handler is (or no
    longer is) the responder's closure. *)
Definition responder_deliver (has_onReady : bool) (r : responder)
    (m : bool * option transportHandshake) : responder * list hs_action :=
  if negb (installed r) then (r, [])
  else if fired r then (r, [])
  else
    let acts := handshake_first has_onReady (fst m) (snd m) in
    ({| fired := true;
        installed := negb (bool_decide (HsClearHandler ∈ acts)) |}, acts).

Fixpoint responder_run (has_onReady : bool) (r : responder)
    (ms : list (bool * option transportHandshake)) : list hs_action :=
  match ms with
  | [] => []
  | m :: ms' =>
      let '(r', acts) := responder_deliver has_onReady r m in
      acts ++ responder_run has_onReady r' ms'
  end.

(** * Lemmas *)

Lemma Lane_Valid_spec lane :
  Lane_Valid lane = true <-> lane = LaneControl \/ lane = LaneMedia \/ lane = LaneBulk.
Proof. unfold Lane_Valid. repeat case_decide; naive_solver. Qed.

Lemma LaneForClass_valid class lane : LaneForClass class = Ok lane -> Lane_Valid lane = true.
Proof. unfold LaneForClass. intros. repeat case_decide; simplify_eq; done. Qed.

Lemma EncodeEnvelope_ok lane payload e :
  EncodeEnvelope lane payload = Ok e <-> Lane_Valid lane = true /\ e = lane :: payload.
Proof. unfold EncodeEnvelope. destruct (Lane_Valid lane); simpl; naive_solver. Qed.

Lemma DecodeEnvelope_ok e lane payload :
  DecodeEnvelope e = Ok (lane, payload) <-> Lane_Valid lane = true /\ e = lane :: payload.
Proof.
  unfold DecodeEnvelope. destruct e as [|b e]; [naive_solver|].
  destruct (Lane_Valid b) eqn:Hb; simpl;
    (split; [intros [=]; subst; done|intros [? [= -> ->]]; congruence]).
Qed.

#[export] Hint Resolve LaneForClass_valid : go.

Lemma responder_run_spent has_onReady r ms :
  fired r = true \/ installed r = false -> responder_run has_onReady r ms = [].
Proof.
  intros Hr. induction ms as [|m ms IH]; [done|]. simpl. unfold responder_deliver.
  destruct (installed r), (fired r); simpl; try done; naive_solver.
Qed.

(** * Properties *)

(** The lane envelope is a bijection between the payloads of
    the valid lanes and the envelopes the decoder accepts: encoding succeeds
    with [e] exactly when decoding [e] gives back the lane and the payload. *)
Theorem envelope_roundtrip lane payload e :
  EncodeEnvelope lane payload = Ok e <-> DecodeEnvelope e = Ok (lane, payload).
Proof. by rewrite EncodeEnvelope_ok, DecodeEnvelope_ok. Qed.

(** Whatever control messages arrive, and whatever
    [SendText] answers, the transport handshake reads only the first one: the
    session becomes ready exactly when that first message is a
    transport_hello of the protocol version and the acknowledgement was
    accepted by the endpoint, and then the acknowledgement and the removal of
    the handler precede [onReady]; every other first message closes the
    channel set, without [onReady]. *)
Theorem handshake_ready_once m ms :
  let acts := responder_run true (fst (InstallHandshakeResponder true)) (m :: ms) in
  (fst m = true /\ snd m = Some {| hs_type := "transport_hello"; hs_version := ProtocolVersion |}
   /\ acts = [HsSendText transport_ready; HsClearHandler; HsOnReady])
  \/ (~ (fst m = true
        /\ snd m = Some {| hs_type := "transport_hello"; hs_version := ProtocolVersion |})
      /\ exists reply, acts = [reply; HsCloseSet] /\ reply <> HsOnReady).
Proof.
  intros acts. subst acts. cbn [responder_run].
  destruct (responder_deliver _ _ m) as [r' acts] eqn:Hd.
  assert (fired r' = true) as Hf by (unfold responder_deliver in Hd; simplify_eq/=; done).
  rewrite responder_run_spent, app_nil_r by auto.
  unfold responder_deliver in Hd; simplify_eq/=.
  destruct m as [ok data]; simpl. unfold handshake_first.
  destruct data as [[ty v]|]; simpl; [|right; naive_solver].
  case_bool_decide; simpl; [|right; naive_solver].
  destruct (Z.eqb_spec v ProtocolVersion); simpl; [|right; naive_solver].
  subst. destruct ok; simpl; [left; done|right; naive_solver].
Qed.
