(* ===== verification/Frame.v ===== *)
(** The relay frame codec (agent/internal/relaychannel/frame.go): one kind
    byte, a 32-bit big-endian length and the payload, with a cap per kind. *)

From S2P Require Import Prelude.
#[local] Open Scope Z_scope.
#[local] Open Scope go_scope.

(** [agent/internal/relaychannel/frame.go:11-11] FrameHandshake *)
Definition FrameHandshake : byte := x00.
(** [agent/internal/relaychannel/frame.go:12-12] FrameText *)
Definition FrameText : byte := x01.
(** [agent/internal/relaychannel/frame.go:13-13] FrameBinary *)
Definition FrameBinary : byte := x02.
(** [agent/internal/relaychannel/frame.go:15-15] MaxHandshakePayload *)
Definition MaxHandshakePayload : Z := 4 * 1024.
(** [agent/internal/relaychannel/frame.go:16-16] MaxFramePayload *)
Definition MaxFramePayload : Z := 8 * 1024 * 1024.

(** [agent/internal/relaychannel/frame.go:19-22] Frame *)
Record Frame := { FrameKind : byte; FramePayload : bytes }.

Inductive frame_error : Type :=
| ErrUnknownFrameKind (kind : byte)
| ErrFrameTooLarge (length : Z)
| ErrIncompleteHeader
| ErrIncompletePayload.

#[export] Instance frame_error_eq_dec : EqDecision frame_error.
Proof. solve_decision. Defined.

(** [agent/internal/relaychannel/frame.go:58-67] capForKind *)
Definition capForKind (kind : byte) : result Z frame_error :=
  if decide (kind = FrameHandshake) then Ok MaxHandshakePayload
  else if decide (kind = FrameText) then Ok MaxFramePayload
  else if decide (kind = FrameBinary) then Ok MaxFramePayload
  else Err (ErrUnknownFrameKind kind).

(** The length is written as [uint32(len(payload))].
    [agent/internal/relaychannel/frame.go:24-37] WriteFrame *)
Definition WriteFrame (kind : byte) (payload : bytes) : result bytes frame_error :=
  let? cap := capForKind kind in
  if cap <? len payload then Err (ErrFrameTooLarge (len payload))
  else Ok (kind :: be_put 4 (wrap 32 (len payload)) ++ payload).

(** [agent/internal/relaychannel/frame.go:39-56] DecodeOneFrame *)
Definition DecodeOneFrame (buf : bytes) : result (Frame * bytes) frame_error :=
  if len buf <? 5 then Err ErrIncompleteHeader
  else
    let kind := default x00 (head buf) in
    let? cap := capForKind kind in
    let length := be_get (take 4 (drop 1 buf)) in
    if cap <? length then Err (ErrFrameTooLarge length)
    else if len buf <? 5 + length then Err ErrIncompletePayload
    else Ok ({| FrameKind := kind;
                FramePayload := take (Z.to_nat length) (drop 5 buf) |},
             drop (Z.to_nat (5 + length)) buf).

(** * Lemmas *)

Lemma capForKind_cases kind :
  (exists cap, capForKind kind = Ok cap /\ 0 <= cap <= MaxFramePayload)
  \/ capForKind kind = Err (ErrUnknownFrameKind kind).
Proof.
  unfold capForKind, MaxFramePayload, MaxHandshakePayload.
  repeat case_decide; eauto; left; eexists; (split; [done|lia]).
Qed.

Lemma capForKind_bound kind cap : capForKind kind = Ok cap -> 0 <= cap < 2 ^ 32.
Proof.
  intros Hc. destruct (capForKind_cases kind) as [(c&Hc'&Hb)|Hc'];
    rewrite Hc in Hc'; simplify_eq.
  unfold MaxFramePayload in Hb. lia.
Qed.

Lemma WriteFrame_ok kind payload f :
  WriteFrame kind payload = Ok f <->
  exists cap, capForKind kind = Ok cap /\ len payload <= cap
              /\ f = kind :: be_put 4 (len payload) ++ payload.
Proof.
  unfold WriteFrame. rewrite rbind_ok. f_equiv. intros cap.
  assert (capForKind kind = Ok cap -> len payload <= cap ->
          wrap 32 (len payload) = len payload) as Hw.
  { intros ?%capForKind_bound ?. apply wrap_small. pose proof (len_nonneg payload). lia. }
  destruct (Z.ltb_spec cap (len payload)); [naive_solver lia|].
  split.
  - intros (Hc&[= <-]). rewrite Hw by done. done.
  - intros (Hc&?&->). rewrite Hw by done. done.
Qed.

(** The header and the payload of a well-formed buffer. *)
Lemma DecodeOneFrame_split kind (hdr body : bytes) :
  length hdr = 4%nat ->
  DecodeOneFrame (kind :: hdr ++ body) =
  let? cap := capForKind kind in
  if cap <? be_get hdr then Err (ErrFrameTooLarge (be_get hdr))
  else if len body <? be_get hdr then Err ErrIncompletePayload
  else Ok ({| FrameKind := kind; FramePayload := take (Z.to_nat (be_get hdr)) body |},
           drop (Z.to_nat (be_get hdr)) body).
Proof.
  intros Hh. unfold DecodeOneFrame.
  destruct (Z.ltb_spec (len (kind :: hdr ++ body)) 5) as [Hs|_].
  { unfold len in Hs. cbn [length] in Hs. rewrite length_app in Hs. lia. }
  change (default x00 (head (kind :: hdr ++ body))) with kind.
  change (drop 1 (kind :: hdr ++ body)) with (hdr ++ body).
  change (drop 5 (kind :: hdr ++ body)) with (drop 4 (hdr ++ body)).
  rewrite (take_app_length' hdr body 4) by done.
  rewrite (drop_app_length' hdr body 4) by done.
  destruct (capForKind kind) as [cap|e]; [|done]. simpl.
  pose proof (be_get_bound hdr) as Hg.
  destruct (Z.ltb_spec cap (be_get hdr)); [done|].
  assert (len (kind :: hdr ++ body) = 5 + len body) as Hl.
  { rewrite len_cons, len_app. unfold len at 1. rewrite Hh. lia. }
  rewrite Hl.
  replace (5 + len body <? 5 + be_get hdr) with (len body <? be_get hdr)
    by (destruct (Z.ltb_spec (len body) (be_get hdr)),
          (Z.ltb_spec (5 + len body) (5 + be_get hdr)); done || lia).
  destruct (Z.ltb_spec (len body) (be_get hdr)); [done|].
  do 2 f_equal.
  replace (Z.to_nat (5 + be_get hdr)) with (5 + Z.to_nat (be_get hdr))%nat by lia.
  rewrite <- drop_drop.
  change (drop 5 (kind :: hdr ++ body)) with (drop 4 (hdr ++ body)).
  by rewrite (drop_app_length' hdr body 4).
Qed.

Lemma be_get_put_len (l : bytes) : len l < 2 ^ 32 -> be_get (be_put 4 (len l)) = len l.
Proof.
  intros. rewrite be_get_put. apply Z.mod_small. pose proof (len_nonneg l).
  change (8 * Z.of_nat 4) with 32. lia.
Qed.

Lemma decode_write kind payload f rest :
  WriteFrame kind payload = Ok f ->
  DecodeOneFrame (f ++ rest) = Ok ({| FrameKind := kind; FramePayload := payload |}, rest).
Proof.
  intros (cap&Hc&Hle&->)%WriteFrame_ok. pose proof (capForKind_bound _ _ Hc).
  cbn [app]. rewrite <- app_assoc, DecodeOneFrame_split by apply length_be_put.
  rewrite Hc. cbn [rbind]. rewrite be_get_put_len by lia.
  destruct (Z.ltb_spec cap (len payload)); [lia|].
  destruct (Z.ltb_spec (len (payload ++ rest)) (len payload)).
  { rewrite len_app in *. pose proof (len_nonneg rest). lia. }
  unfold len. rewrite (Nat2Z.id (length payload)).
  by rewrite (take_app_length' payload rest), (drop_app_length' payload rest).
Qed.

Lemma long_buffer_split (buf : bytes) :
  5 <= len buf -> exists kind hdr body, buf = kind :: hdr ++ body /\ length hdr = 4%nat.
Proof.
  intros Hl. destruct buf as [|kind tl]; [unfold len in Hl; simpl in Hl; lia|].
  exists kind, (take 4 tl), (drop 4 tl). rewrite take_drop. split; [done|].
  rewrite length_take. unfold len in Hl. simpl in Hl. lia.
Qed.

(** What the decoder accepts begins with the frame's encoding. *)
Lemma decode_is_write buf frame rest :
  DecodeOneFrame buf = Ok (frame, rest) ->
  exists f, WriteFrame (FrameKind frame) (FramePayload frame) = Ok f /\ buf = f ++ rest.
Proof.
  intros Hd. destruct (Z.ltb_spec (len buf) 5) as [Hs|Hl].
  { unfold DecodeOneFrame in Hd. by rewrite (proj2 (Z.ltb_lt _ _) Hs) in Hd. }
  destruct (long_buffer_split buf Hl) as (kind&hdr&body&->&Hh).
  rewrite DecodeOneFrame_split in Hd by done.
  apply rbind_ok in Hd as (cap&Hc&Hd).
  destruct (Z.ltb_spec cap (be_get hdr)); [done|].
  destruct (Z.ltb_spec (len body) (be_get hdr)); [done|]. simplify_eq/=.
  pose proof (be_get_bound hdr) as Hg.
  assert (len (take (Z.to_nat (be_get hdr)) body) = be_get hdr) as Ht.
  { unfold len in *. rewrite length_take. lia. }
  exists (kind :: hdr ++ take (Z.to_nat (be_get hdr)) body). split.
  - apply WriteFrame_ok. exists cap. split; [done|]. split; [lia|].
    rewrite Ht. f_equal. f_equal. rewrite <- Hh. by rewrite be_put_get.
  - cbn [app]. by rewrite <- app_assoc, take_drop.
Qed.

(** * Properties *)

(** The decoder accepts exactly the buffers that begin with an
    encoded frame: it returns a frame and a rest precisely when the buffer is
    the encoding of that frame followed by that rest. *)
Theorem frame_roundtrip buf frame rest :
  DecodeOneFrame buf = Ok (frame, rest) <->
  exists f, WriteFrame (FrameKind frame) (FramePayload frame) = Ok f /\ buf = f ++ rest.
Proof.
  split; [apply decode_is_write|]. intros (f&Hw&->). destruct frame. by apply decode_write.
Qed.

(** No proper prefix of an encoded frame is taken for a frame or
    rejected for good: the decoder answers that the header or the payload is
    incomplete. *)
Theorem frame_prefix_incomplete kind payload buf more :
  WriteFrame kind payload = Ok (buf ++ more) -> more <> [] ->
  DecodeOneFrame buf = Err (if len buf <? 5 then ErrIncompleteHeader else ErrIncompletePayload).
Proof.
  intros Hw Hm. destruct (Z.ltb_spec (len buf) 5) as [Hs|Hl].
  { unfold DecodeOneFrame. by rewrite (proj2 (Z.ltb_lt _ _) Hs). }
  destruct (long_buffer_split buf Hl) as (k&hdr&body&->&Hh).
  apply WriteFrame_ok in Hw as (cap&Hc&Hle&Heq). cbn [app] in Heq.
  rewrite <- app_assoc in Heq. 
  pose proof (f_equal head Heq) as [= ->]. apply (f_equal tail) in Heq. cbn [tail] in Heq.
  apply app_inj_1 in Heq as [-> Hbody]; [|by rewrite length_be_put].
  rewrite DecodeOneFrame_split by apply length_be_put.
  pose proof (capForKind_bound _ _ Hc).
  rewrite Hc. cbn [rbind]. rewrite be_get_put_len by lia.
  destruct (Z.ltb_spec cap (len payload)); [lia|].
  destruct (Z.ltb_spec (len body) (len payload)) as [|Hge]; [done|].
  rewrite <- Hbody, len_app in Hge. destruct more; [done|].
  rewrite len_cons in Hge. pose proof (len_nonneg more). lia.
Qed.

Lemma frame_prefix_incomplete_witness :
  DecodeOneFrame [x02; x00; x00; x00; x02; x2a] = Err ErrIncompletePayload.
Proof.
  apply (frame_prefix_incomplete x02 [x2a; x2b] [x02; x00; x00; x00; x02; x2a] [x2b]);
    [vm_compute; reflexivity|discriminate].
Defined.
