(* ===== verification/Scheduler.v ===== *)
(** The multi-lane scheduler (agent/internal/multilane/scheduler.go): bounded
    per-class queues served by a two-level byte-weighted deficit round robin,
    with admission control.  Every definition here is one critical section of
    the Go code, run with [s.mu] held; SchedulerSys.v interleaves them. *)

From S2P Require Import Prelude Lanes.
#[local] Open Scope Z_scope.
#[local] Open Scope go_scope.

(** * Constants *)

(** [agent/internal/multilane/scheduler.go:11-11] BaseQuantumBytes *)
Definition BaseQuantumBytes : Z := 64 * 1024.
(** [agent/internal/multilane/scheduler.go:12-12] ControlBurstLimit *)
Definition ControlBurstLimit : Z := 8.
(** [agent/internal/multilane/scheduler.go:13-13] ControlQueueCapBytes *)
Definition ControlQueueCapBytes : Z := 8 * 1024 * 1024.
(** [agent/internal/multilane/scheduler.go:14-14] InteractiveQueueCapBytes *)
Definition InteractiveQueueCapBytes : Z := 512 * 1024.
(** [agent/internal/multilane/scheduler.go:15-15] ThumbnailQueueCapBytes *)
Definition ThumbnailQueueCapBytes : Z := 2 * 1024 * 1024.
(** [agent/internal/multilane/scheduler.go:16-16] BulkQueueCapBytes *)
Definition BulkQueueCapBytes : Z := 256 * 1024.

(** The errors a caller can get; [CtxErr] is [ctx.Err()] and [WriterErr] the
    transport's own error.
    [agent/internal/multilane/scheduler.go:20-24] ErrRequestTooLarge *)
Inductive sched_error : Type :=
| ErrSchedUnknownClass (class : byte)
| ErrRequestTooLarge (class : byte) (size cap : Z)
| ErrSchedUnknownKind (kind : byte)
| ErrEmptyPayload
| ErrSchedulerClosed
| CtxErr
| WriterErr (code : Z).

#[export] Instance sched_error_eq_dec : EqDecision sched_error.
Proof. solve_decision. Defined.

(** * State *)

(** [rq_id] is the identity of the Go pointer; [done] is a channel of the
    scheduler state below.
    [agent/internal/multilane/scheduler.go:29-34] sendRequest *)
Record sendRequest := mkRequest {
  rq_id : nat; rq_class : TrafficClass; rq_kind : Kind; rq_payload : bytes }.

(** [agent/internal/multilane/scheduler.go:36-42] admissionWaiter *)
Record admissionWaiter := mkWaiter {
  aw_id : nat; aw_class : TrafficClass; aw_kind : Kind; aw_payload : bytes }.

#[export] Instance sendRequest_eq_dec : EqDecision sendRequest.
Proof. solve_decision. Defined.
#[export] Instance admissionWaiter_eq_dec : EqDecision admissionWaiter.
Proof. solve_decision. Defined.

(** The round-robin cursor fields of [Scheduler]. *)
Record drr := mkDrr {
  controlBurst : Z;
  outerCurrent : Z; outerDeficit : Z * Z; outerStarted : bool;
  innerCurrent : Z; innerDeficit : Z * Z; innerStarted : bool }.

(** [ready] and [done] hold what was sent on the one-place channels of the
    waiters and requests (a waiter is answered by an error, or by the request
    that replaced it); [notify] numbers the current notification channel and
    [fresh] the next pointer.
    [agent/internal/multilane/scheduler.go:45-62] Scheduler *)
Record Scheduler := mkScheduler {
  queues : gmap byte (list sendRequest);
  sbytes : gmap byte Z;
  admissionWaiters : gmap byte (list admissionWaiter);
  notify : nat;
  terminal : option sched_error;
  active : option sendRequest;
  cursor : drr;
  ready : gmap nat (sched_error + nat);
  done : gmap nat (option sched_error);
  fresh : nat }.

Definition set_queues q (s : Scheduler) :=
  mkScheduler q (sbytes s) (admissionWaiters s) (notify s) (terminal s) (active s)
    (cursor s) (ready s) (done s) (fresh s).
Definition set_sbytes b (s : Scheduler) :=
  mkScheduler (queues s) b (admissionWaiters s) (notify s) (terminal s) (active s)
    (cursor s) (ready s) (done s) (fresh s).
Definition set_waiters w (s : Scheduler) :=
  mkScheduler (queues s) (sbytes s) w (notify s) (terminal s) (active s)
    (cursor s) (ready s) (done s) (fresh s).
Definition set_notify n (s : Scheduler) :=
  mkScheduler (queues s) (sbytes s) (admissionWaiters s) n (terminal s) (active s)
    (cursor s) (ready s) (done s) (fresh s).
Definition set_terminal t (s : Scheduler) :=
  mkScheduler (queues s) (sbytes s) (admissionWaiters s) (notify s) t (active s)
    (cursor s) (ready s) (done s) (fresh s).
Definition set_active a (s : Scheduler) :=
  mkScheduler (queues s) (sbytes s) (admissionWaiters s) (notify s) (terminal s) a
    (cursor s) (ready s) (done s) (fresh s).
Definition set_cursor c (s : Scheduler) :=
  mkScheduler (queues s) (sbytes s) (admissionWaiters s) (notify s) (terminal s)
    (active s) c (ready s) (done s) (fresh s).
Definition set_ready r (s : Scheduler) :=
  mkScheduler (queues s) (sbytes s) (admissionWaiters s) (notify s) (terminal s)
    (active s) (cursor s) r (done s) (fresh s).
Definition set_done d (s : Scheduler) :=
  mkScheduler (queues s) (sbytes s) (admissionWaiters s) (notify s) (terminal s)
    (active s) (cursor s) (ready s) d (fresh s).
Definition set_fresh n (s : Scheduler) :=
  mkScheduler (queues s) (sbytes s) (admissionWaiters s) (notify s) (terminal s)
    (active s) (cursor s) (ready s) (done s) n.

Definition set_outer (cur : Z) (def : Z * Z) (c : drr) : drr :=
  mkDrr (controlBurst c) cur def (outerStarted c)
    (innerCurrent c) (innerDeficit c) (innerStarted c).
Definition set_inner (cur : Z) (def : Z * Z) (c : drr) : drr :=
  mkDrr (controlBurst c) (outerCurrent c) (outerDeficit c) (outerStarted c)
    cur def (innerStarted c).
Definition set_outerStarted b (c : drr) : drr :=
  mkDrr (controlBurst c) (outerCurrent c) (outerDeficit c) b
    (innerCurrent c) (innerDeficit c) (innerStarted c).
Definition set_innerStarted b (c : drr) : drr :=
  mkDrr (controlBurst c) (outerCurrent c) (outerDeficit c) (outerStarted c)
    (innerCurrent c) (innerDeficit c) b.
Definition set_controlBurst n (c : drr) : drr :=
  mkDrr n (outerCurrent c) (outerDeficit c) (outerStarted c)
    (innerCurrent c) (innerDeficit c) (innerStarted c).

Definition drr0 : drr := mkDrr 0 0 (0, 0) false 0 (0, 0) false.

(** [agent/internal/multilane/scheduler.go:64-74] NewScheduler *)
Definition NewScheduler : Scheduler :=
  mkScheduler empty empty empty 0 None None drr0 empty empty 0.

Definition queue (s : Scheduler) (c : TrafficClass) : list sendRequest :=
  mlookup [] (queues s) c.
Definition waiters (s : Scheduler) (c : TrafficClass) : list admissionWaiter :=
  mlookup [] (admissionWaiters s) c.
Definition admitted (s : Scheduler) (c : TrafficClass) : Z := mlookup 0 (sbytes s) c.

(** A Go array [[2]int] indexed by 0 or 1. *)
Definition arr_get (a : Z * Z) (i : Z) : Z := if i =? 0 then fst a else snd a.
Definition arr_set (a : Z * Z) (i v : Z) : Z * Z :=
  if i =? 0 then (v, snd a) else (fst a, v).

Definition rsize (r : sendRequest) : Z := len (rq_payload r).

(** * Demand *)

(** [agent/internal/multilane/scheduler.go:76-89] classCap *)
Definition classCap (class : TrafficClass) : option Z :=
  if decide (class = ClassControl) then Some ControlQueueCapBytes
  else if decide (class = ClassInteractiveMedia) then Some InteractiveQueueCapBytes
  else if decide (class = ClassThumbnail) then Some ThumbnailQueueCapBytes
  else if decide (class = ClassBulk) then Some BulkQueueCapBytes
  else None.

Definition nonempty {A} (l : list A) : bool := 0 <? len l.

(** [agent/internal/multilane/scheduler.go:341-343] hasMediaLocked *)
Definition hasMediaLocked (s : Scheduler) : bool :=
  nonempty (queue s ClassInteractiveMedia) || nonempty (queue s ClassThumbnail).

(** [agent/internal/multilane/scheduler.go:384-386] hasClassDemandLocked *)
Definition hasClassDemandLocked (s : Scheduler) (c : TrafficClass) : bool :=
  nonempty (queue s c) || nonempty (waiters s c).

(** [agent/internal/multilane/scheduler.go:388-390] hasMediaDemandLocked *)
Definition hasMediaDemandLocked (s : Scheduler) : bool :=
  hasClassDemandLocked s ClassInteractiveMedia || hasClassDemandLocked s ClassThumbnail.

(** * Deficit round robin *)

(** [agent/internal/multilane/scheduler.go:276-287] addOuterRoundLocked *)
Definition addOuterRoundLocked (s : Scheduler) : Scheduler :=
  let c := cursor s in
  let d0 := if hasMediaLocked s then fst (outerDeficit c) + 3 * BaseQuantumBytes else 0 in
  let d1 := if nonempty (queue s ClassBulk) then snd (outerDeficit c) + BaseQuantumBytes
            else 0 in
  set_cursor (set_outer (outerCurrent c) (d0, d1) c) s.

(** [agent/internal/multilane/scheduler.go:289-294] advanceOuterLocked *)
Definition advanceOuterLocked (s : Scheduler) : Scheduler :=
  let c := cursor s in
  let s := set_cursor (set_outer ((outerCurrent c + 1) mod 2) (outerDeficit c) c) s in
  if outerCurrent (cursor s) =? 0 then addOuterRoundLocked s else s.

(** [agent/internal/multilane/scheduler.go:321-332] addInnerRoundLocked *)
Definition addInnerRoundLocked (s : Scheduler) : Scheduler :=
  let c := cursor s in
  let d0 := if nonempty (queue s ClassInteractiveMedia)
            then fst (innerDeficit c) + 3 * BaseQuantumBytes else 0 in
  let d1 := if nonempty (queue s ClassThumbnail)
            then snd (innerDeficit c) + BaseQuantumBytes else 0 in
  set_cursor (set_inner (innerCurrent c) (d0, d1) c) s.

(** [agent/internal/multilane/scheduler.go:334-339] advanceInnerLocked *)
Definition advanceInnerLocked (s : Scheduler) : Scheduler :=
  let c := cursor s in
  let s := set_cursor (set_inner ((innerCurrent c + 1) mod 2) (innerDeficit c) c) s in
  if innerCurrent (cursor s) =? 0 then addInnerRoundLocked s else s.

(** The loop of [peekMediaLocked]; the outer [None] is running out of fuel.
    [agent/internal/multilane/scheduler.go:301-318] peekMediaLocked.for *)
Fixpoint peekMedia_loop (fuel : nat) (s : Scheduler) : option (option sendRequest * Scheduler) :=
  match fuel with
  | O => None
  | S fuel =>
      if negb (hasMediaLocked s) then Some (None, s)
      else
        let c := cursor s in
        let cur := innerCurrent c in
        let class := if cur =? 1 then ClassThumbnail else ClassInteractiveMedia in
        match queue s class with
        | [] =>
            peekMedia_loop fuel (advanceInnerLocked
              (set_cursor (set_inner cur (arr_set (innerDeficit c) cur 0) c) s))
        | request :: _ =>
            if rsize request <=? arr_get (innerDeficit c) cur
            then Some (Some request,
                   set_cursor (set_inner cur
                     (arr_set (innerDeficit c) cur
                        (arr_get (innerDeficit c) cur - rsize request)) c) s)
            else peekMedia_loop fuel (advanceInnerLocked s)
        end
  end.

(** Iterations [peekMediaLocked] needs at most: a thumbnail of 2 MiB is 32
    quanta, two iterations a round, and one more to return. *)
Definition inner_fuel : nat := 66.

(** [agent/internal/multilane/scheduler.go:296-319] peekMediaLocked *)
Definition peekMediaLocked (s : Scheduler) : option (option sendRequest * Scheduler) :=
  let s := if innerStarted (cursor s) then s
           else let s := addInnerRoundLocked s in
                set_cursor (set_innerStarted true (cursor s)) s in
  peekMedia_loop inner_fuel s.

(** [agent/internal/multilane/scheduler.go:360-382] resetEmptyLaneLocked *)
Definition resetEmptyLaneLocked (s : Scheduler) (class : TrafficClass) : Scheduler :=
  let s :=
    if negb (hasClassDemandLocked s class) then
      let c := cursor s in
      if decide (class = ClassInteractiveMedia)
      then set_cursor (set_inner (innerCurrent c) (arr_set (innerDeficit c) 0 0) c) s
      else if decide (class = ClassThumbnail)
      then set_cursor (set_inner (innerCurrent c) (arr_set (innerDeficit c) 1 0) c) s
      else if decide (class = ClassBulk)
      then set_cursor (set_outer (outerCurrent c) (arr_set (outerDeficit c) 1 0) c) s
      else s
    else s in
  let s :=
    if negb (hasMediaDemandLocked s) then
      let c := cursor s in
      set_cursor (set_innerStarted false (set_inner 0 (0, 0)
        (set_outer (outerCurrent c) (arr_set (outerDeficit c) 0 0) c))) s
    else s in
  if negb (hasMediaDemandLocked s) && negb (hasClassDemandLocked s ClassBulk) then
    set_cursor (set_outerStarted false (set_outer 0 (0, 0) (cursor s))) s
  else s.

(** [queue[0]] of an empty queue panics, which [None] stands for.
    [agent/internal/multilane/scheduler.go:345-358] popLocked *)
Definition popLocked (s : Scheduler) (class : TrafficClass) : option (sendRequest * Scheduler) :=
  match queue s class with
  | [] => None
  | request :: rest =>
      let s := set_queues (<[class := rest]> (queues s)) s in
      Some (request, if nonempty rest then s else resetEmptyLaneLocked s class)
  end.

(** The loop of [nextDataLocked].
    [agent/internal/multilane/scheduler.go:244-272] nextDataLocked.for *)
Fixpoint nextData_loop (fuel : nat) (s : Scheduler) : option (option sendRequest * Scheduler) :=
  match fuel with
  | O => None
  | S fuel =>
      if negb (hasMediaLocked s || nonempty (queue s ClassBulk)) then Some (None, s)
      else
        let c := cursor s in
        if outerCurrent c =? 0 then
          if negb (hasMediaLocked s) then
            nextData_loop fuel (advanceOuterLocked
              (set_cursor (set_outer 0 (arr_set (outerDeficit c) 0 0) c) s))
          else
            match peekMediaLocked s with
            | Some (Some request, s') =>
                let c' := cursor s' in
                if rsize request <=? fst (outerDeficit c') then
                  let s' := set_cursor (set_outer 0
                    (arr_set (outerDeficit c') 0 (fst (outerDeficit c') - rsize request)) c') s' in
                  match popLocked s' (rq_class request) with
                  | Some (r, s'') => Some (Some r, s'')
                  | None => None
                  end
                else
                  let c' := mkDrr (controlBurst c') (outerCurrent c') (outerDeficit c')
                    (outerStarted c') (innerCurrent c) (innerDeficit c) (innerStarted c) in
                  nextData_loop fuel (advanceOuterLocked (set_cursor c' s'))
            | _ => None
            end
        else
          match queue s ClassBulk with
          | [] =>
              nextData_loop fuel (advanceOuterLocked
                (set_cursor (set_outer (outerCurrent c) (arr_set (outerDeficit c) 1 0) c) s))
          | request :: _ =>
              if rsize request <=? snd (outerDeficit c) then
                let s := set_cursor (set_outer (outerCurrent c)
                  (arr_set (outerDeficit c) 1 (snd (outerDeficit c) - rsize request)) c) s in
                match popLocked s ClassBulk with
                | Some (r, s') => Some (Some r, s')
                | None => None
                end
              else nextData_loop fuel (advanceOuterLocked s)
          end
  end.

(** A media request of 2 MiB needs eleven outer rounds of 192 KiB. *)
Definition outer_fuel : nat := 25.

(** [agent/internal/multilane/scheduler.go:239-274] nextDataLocked *)
Definition nextDataLocked (s : Scheduler) : option (option sendRequest * Scheduler) :=
  let s := if outerStarted (cursor s) then s
           else let s := addOuterRoundLocked s in
                set_cursor (set_outerStarted true (cursor s)) s in
  nextData_loop outer_fuel s.

Definition popControl (s : Scheduler) : option (option sendRequest * Scheduler) :=
  let c := cursor s in
  match popLocked (set_cursor (set_controlBurst (controlBurst c + 1) c) s) ClassControl with
  | Some (r, s') => Some (Some r, s')
  | None => None
  end.

(** The outer [None] is a loop out of fuel or a panic.
    [agent/internal/multilane/scheduler.go:219-237] nextLocked *)
Definition nextLocked (s : Scheduler) : option (option sendRequest * Scheduler) :=
  let dataWaiting := hasMediaLocked s || nonempty (queue s ClassBulk) in
  let control := nonempty (queue s ClassControl) in
  if control && ((controlBurst (cursor s) <? ControlBurstLimit) || negb dataWaiting)
  then popControl s
  else
    let tail s := if control then popControl s else Some (None, s) in
    if dataWaiting then
      match nextDataLocked s with
      | Some (Some request, s') =>
          Some (Some request, set_cursor (set_controlBurst 0 (cursor s')) s')
      | Some (None, s') => tail s'
      | None => None
      end
    else tail s.

(** * Admission and completion *)

(** [close(s.notify); s.notify = make(chan struct{})].
    [agent/internal/multilane/scheduler.go:477-480] signalLocked *)
Definition signalLocked (s : Scheduler) : Scheduler := set_notify (S (notify s)) s.

(** [agent/internal/multilane/scheduler.go:392-398] enqueueLocked *)
Definition enqueueLocked (s : Scheduler) (class : TrafficClass) (kind : Kind)
    (payload : bytes) : sendRequest * Scheduler :=
  let request := mkRequest (fresh s) class kind payload in
  let s := set_fresh (S (fresh s)) s in
  let s := set_sbytes (<[class := admitted s class + rsize request]> (sbytes s)) s in
  let s := set_queues (<[class := queue s class ++ [request]]> (queues s)) s in
  (request, signalLocked s).

(** The loop of [admitWaitersLocked] over the class's waiters; returns the
    waiters left and the state.
    [agent/internal/multilane/scheduler.go:403-409] admitWaitersLocked.for *)
Fixpoint admit_loop (capBytes : Z) (class : TrafficClass) (ws : list admissionWaiter)
    (s : Scheduler) : list admissionWaiter * Scheduler :=
  match ws with
  | [] => ([], s)
  | waiter :: rest =>
      if admitted s class + len (aw_payload waiter) <=? capBytes then
        let '(request, s) := enqueueLocked s (aw_class waiter) (aw_kind waiter)
                               (aw_payload waiter) in
        admit_loop capBytes class rest
          (set_ready (<[aw_id waiter := inr (rq_id request)]> (ready s)) s)
      else (waiter :: rest, s)
  end.

(** [agent/internal/multilane/scheduler.go:400-414] admitWaitersLocked *)
Definition admitWaitersLocked (s : Scheduler) (class : TrafficClass) : Scheduler :=
  let capBytes := default 0 (classCap class) in
  let '(ws, s) := admit_loop capBytes class (waiters s class) s in
  set_waiters (<[class := ws]> (admissionWaiters s)) s.

(** Takes out the first element with the wanted identity, as the Go loops do. *)
Fixpoint remove_first {A} (p : A -> bool) (l : list A) : option (A * list A) :=
  match l with
  | [] => None
  | x :: l' =>
      if p x then Some (x, l') else '(y, l'') ← remove_first p l'; Some (y, x :: l'')
  end.

(** [agent/internal/multilane/scheduler.go:416-434] removeAdmissionWaiterLocked *)
Definition removeAdmissionWaiterLocked (s : Scheduler) (class : TrafficClass) (want : nat)
    : bool * Scheduler :=
  match remove_first (fun w => aw_id w =? want)%nat (waiters s class) with
  | None => (false, s)
  | Some (_, ws) =>
      let s := set_waiters (<[class := ws]> (admissionWaiters s)) s in
      (true, if nonempty (queue s class) then s else resetEmptyLaneLocked s class)
  end.

(** The request found is the caller's own.
    [agent/internal/multilane/scheduler.go:446-464] removeQueuedLocked *)
Definition removeQueuedLocked (s : Scheduler) (class : TrafficClass) (want : nat)
    : option sendRequest * Scheduler :=
  match remove_first (fun r => rq_id r =? want)%nat (queue s class) with
  | Some (request, q) =>
      let s := set_queues (<[class := q]> (queues s)) s in
      (Some request, if nonempty q then s else resetEmptyLaneLocked s class)
  | None => (None, s)
  end.

(** Every waiter is answered with the error, in the map's iteration order;
    the answers do not depend on that order, each being on its own channel.
    [agent/internal/multilane/scheduler.go:436-444] failAdmissionWaitersLocked *)
Definition failAdmissionWaitersLocked (s : Scheduler) (err : sched_error) : Scheduler :=
  let ws := concat (snd <$> map_to_list (admissionWaiters s)) in
  set_waiters ((fun _ => []) <$> admissionWaiters s)
    (set_ready (foldr (fun w m => <[aw_id w := inl err]> m) (ready s) ws) s).

(** [agent/internal/multilane/scheduler.go:466-475] failQueuedLocked *)
Definition failQueuedLocked (s : Scheduler) (err : sched_error) : Scheduler :=
  let rs := '(class, q) ← map_to_list (queues s); (class,.) <$> q in
  set_queues ((fun _ => []) <$> queues s)
    (set_sbytes (foldr (fun '(class, r) m => <[class := mlookup 0 m class - rsize r]> m)
                   (sbytes s) rs)
      (set_done (foldr (fun '(_, r) m => <[rq_id r := Some err]> m) (done s) rs) s)).

(** [agent/internal/multilane/scheduler.go:172-181] Close *)
Definition Close (s : Scheduler) : Scheduler :=
  match terminal s with
  | Some _ => s
  | None =>
      let s := set_terminal (Some ErrSchedulerClosed) s in
      let s := failAdmissionWaitersLocked s ErrSchedulerClosed in
      let s := failQueuedLocked s ErrSchedulerClosed in
      signalLocked s
  end.

(** * Send: its critical sections *)

(** What a call of [Send] waits for after its first critical section. *)
Inductive send_outcome : Type :=
| SendReturned (err : sched_error)   (* returned an error at once *)
| SendEnqueued (rq : nat)            (* waits on request.done *)
| SendWaiting (aw : nat).            (* waits on waiter.ready *)

(** Lines up to the first [select]; [ctx_err] is [ctx.Err() != nil].
    [agent/internal/multilane/scheduler.go:95-129] Send *)
Definition send_begin (s : Scheduler) (ctx_err : bool) (class : TrafficClass) (kind : Kind)
    (payload : bytes) : send_outcome * Scheduler :=
  match classCap class with
  | None => (SendReturned (ErrSchedUnknownClass class), s)
  | Some capBytes =>
      if capBytes <? len payload
      then (SendReturned (ErrRequestTooLarge class (len payload) capBytes), s)
      else if negb (bool_decide (kind = KindText)) && negb (bool_decide (kind = KindBinary))
      then (SendReturned (ErrSchedUnknownKind kind), s)
      else if len payload =? 0 then (SendReturned ErrEmptyPayload, s)
      else if ctx_err then (SendReturned CtxErr, s)
      else
        match terminal s with
        | Some err => (SendReturned err, s)
        | None =>
            if (len (waiters s class) =? 0)
               && (admitted s class + len payload <=? capBytes)
            then let '(request, s) := enqueueLocked s class kind payload in
                 (SendEnqueued (rq_id request), s)
            else
              let waiter := mkWaiter (fresh s) class kind payload in
              let s := set_fresh (S (fresh s)) s in
              (SendWaiting (aw_id waiter),
               set_waiters (<[class := waiters s class ++ [waiter]]> (admissionWaiters s)) s)
        end
  end.

(** The context ends while the call waits for admission: [true] when the
    waiter was still queued (the call then returns [ctx.Err()]).
    [agent/internal/multilane/scheduler.go:136-150] Send *)
Definition send_cancel_admission (s : Scheduler) (class : TrafficClass) (aw : nat)
    : bool * Scheduler :=
  let '(removed, s) := removeAdmissionWaiterLocked s class aw in
  (removed, if removed then admitWaitersLocked s class else s).

(** The context ends while the call waits for its request: [true] when the
    request was still queued.
    [agent/internal/multilane/scheduler.go:153-168] Send *)
Definition send_cancel_queued (s : Scheduler) (class : TrafficClass) (rq : nat)
    : bool * Scheduler :=
  match removeQueuedLocked s class rq with
  | (Some request, s) =>
      (true, admitWaitersLocked
               (set_sbytes (<[class := admitted s class - rsize request]> (sbytes s)) s) class)
  | (None, s) => (false, s)
  end.

(** * The pump: its critical sections *)

(** Up to the call of the writer; the first component is the request it takes.
    [agent/internal/multilane/scheduler.go:186-191] pump *)
Definition pump_take (s : Scheduler) : option (option sendRequest * Scheduler) :=
  match nextLocked s with
  | Some (Some request, s') => Some (Some request, set_active (Some request) s')
  | Some (None, s') => Some (None, s')
  | None => None
  end.

(** After the writer answered [err] for [request], up to the unlocking.
    [agent/internal/multilane/scheduler.go:193-204] pump *)
Definition pump_finish (s : Scheduler) (request : sendRequest) (err : option sched_error)
    : Scheduler :=
  let class := rq_class request in
  let s := set_active None s in
  let s := set_sbytes (<[class := admitted s class - rsize request]> (sbytes s)) s in
  let s :=
    match err, terminal s with
    | Some e, None =>
        let s := set_terminal (Some e) s in
        let s := failAdmissionWaitersLocked s e in
        failQueuedLocked s e
    | None, None => admitWaitersLocked s class
    | _, Some _ => s
    end in
  signalLocked s.

(** [request.done <- err], after the lock is released.
    [agent/internal/multilane/scheduler.go:205-205] pump *)
Definition pump_answer (s : Scheduler) (request : sendRequest) (err : option sched_error)
    : Scheduler := set_done (<[rq_id request := err]> (done s)) s.
