(* ===== verification/SchedulerDRR.v ===== *)
(** The deficit round robin of the scheduler: both its levels refine one
    two-slot reference routine, whose termination, deficit bounds and fairness
    are proved once. *)

From S2P Require Import Prelude Lanes Scheduler.
#[local] Open Scope Z_scope.

(** * The two-slot reference routine *)

(** One step of the cursor: when it comes back to slot 0 a new round starts,
    adding three quanta to a backlogged slot 0 and one to slot 1, and
    clearing the deficit of an idle slot. *)
Definition slot_round (h0 h1 : option Z) (d : Z * Z) : Z * Z :=
  (if h0 is Some _ then fst d + 3 * BaseQuantumBytes else 0,
   if h1 is Some _ then snd d + BaseQuantumBytes else 0).

Definition slot_advance (h0 h1 : option Z) (cur : Z) (d : Z * Z) : Z * (Z * Z) :=
  if cur =? 0 then (1, d) else (0, slot_round h0 h1 d).

(** [h0] and [h1] are the sizes of the first requests of the slots ([None]:
    the slot is idle).  The result is the slot granted, its cursor and the
    deficits with the grant already paid. *)
Fixpoint slot_pick (fuel : nat) (h0 h1 : option Z) (cur : Z) (d : Z * Z)
    : option (Z * (Z * Z)) :=
  match fuel with
  | O => None
  | S fuel =>
      match (if cur =? 0 then h0 else h1) with
      | None =>
          let '(cur, d) := slot_advance h0 h1 cur (arr_set d cur 0) in
          slot_pick fuel h0 h1 cur d
      | Some n =>
          if n <=? arr_get d cur then Some (cur, arr_set d cur (arr_get d cur - n))
          else let '(cur, d) := slot_advance h0 h1 cur d in slot_pick fuel h0 h1 cur d
      end
  end.

(** The deficits stay below one request plus one round's quantum. *)
Definition slot_wf (cap0 cap1 cur : Z) (d : Z * Z) : Prop :=
  (cur = 0 \/ cur = 1) /\ 0 <= fst d < cap0 + 3 * BaseQuantumBytes
  /\ 0 <= snd d < cap1 + BaseQuantumBytes /\ (cur = 1 -> fst d < cap0).

Definition head_ok (cap : Z) (h : option Z) : Prop :=
  match h with Some n => 1 <= n <= cap | None => True end.

(** Rounds of quantum [q] that cover [n] bytes. *)
Definition rounds (n q : Z) : Z := (Z.max 0 n + q - 1) / q.

Lemma rounds_nonneg n q : 0 < q -> 0 <= rounds n q.
Proof. intros. unfold rounds. apply Z.div_pos; lia. Qed.

Lemma rounds_step n q : 0 < q -> 0 < n -> rounds (n - q) q = rounds n q - 1.
Proof.
  intros Hq Hn. unfold rounds. rewrite (Z.max_r 0 n) by lia.
  destruct (Z.le_gt_cases n q).
  - rewrite Z.max_l by lia. rewrite Z.div_small by lia.
    replace (n + q - 1) with (1 * q + (n - 1)) by lia.
    rewrite Z.div_add_l, Z.div_small by lia. lia.
  - rewrite Z.max_r by lia. replace (n + q - 1) with (1 * q + (n - q + q - 1)) by lia.
    rewrite Z.div_add_l by lia. lia.
Qed.

Lemma rounds_pos n q : 0 < q -> 0 < n -> 1 <= rounds n q.
Proof. intros. pose proof (rounds_step n q). pose proof (rounds_nonneg (n - q) q). lia. Qed.

Lemma rounds_mono n m q : 0 < q -> n <= m -> rounds n q <= rounds m q.
Proof. intros. apply Z.div_le_mono; lia. Qed.

(** Cursor steps until the grant: towards slot 1 when it is backlogged,
    towards slot 0 otherwise. *)
Definition slot_steps (h0 h1 : option Z) (cur : Z) (d : Z * Z) : Z :=
  match h1, h0 with
  | Some n, _ => 2 * rounds (n - snd d) BaseQuantumBytes + (1 - cur)
  | None, Some n =>
      2 * rounds (n - fst d - 3 * BaseQuantumBytes * cur) (3 * BaseQuantumBytes) + cur
  | None, None => 0
  end.

Lemma slot_steps_nonneg h0 h1 cur d : cur = 0 \/ cur = 1 -> 0 <= slot_steps h0 h1 cur d.
Proof.
  intros Hcur. unfold slot_steps, BaseQuantumBytes.
  destruct h1 as [n|]; [|destruct h0 as [n|]]; [| |lia].
  - pose proof (rounds_nonneg (n - snd d) (64 * 1024)). lia.
  - pose proof (rounds_nonneg (n - fst d - 3 * (64 * 1024) * cur) (3 * (64 * 1024))). lia.
Qed.

Lemma slot_steps_bound h0 h1 cap0 cap1 cur d :
  slot_wf cap0 cap1 cur d -> head_ok cap0 h0 -> head_ok cap1 h1 ->
  slot_steps h0 h1 cur d <=
    2 * Z.max (rounds cap1 BaseQuantumBytes) (rounds cap0 (3 * BaseQuantumBytes)) + 1.
Proof.
  intros (Hcur&H0&H1&_) Hh0 Hh1. unfold slot_steps, BaseQuantumBytes in *.
  destruct h1 as [n|]; [|destruct h0 as [n|]]; simpl in *.
  - pose proof (rounds_mono (n - snd d) cap1 (64 * 1024)). lia.
  - pose proof (rounds_mono (n - fst d - 3 * (64 * 1024) * cur) cap0 (3 * (64 * 1024))).
    lia.
  - pose proof (rounds_nonneg cap1 (64 * 1024)).
    pose proof (rounds_nonneg cap0 (3 * (64 * 1024))). lia.
Qed.

(** What the reference routine guarantees of a grant. *)
Definition slot_post (h0 h1 : option Z) (cap0 cap1 : Z) (d : Z * Z)
    (cur' : Z) (d' : Z * Z) : Prop :=
  slot_wf cap0 cap1 cur' d'
  /\ exists n, (if cur' =? 0 then h0 else h1) = Some n
     /\ (is_Some h0 -> is_Some h1 ->
         fst d' - 3 * snd d' + (if cur' =? 0 then n else - 3 * n) = fst d - 3 * snd d).

Lemma slot_pick_spec fuel h0 h1 cap0 cap1 cur d :
  slot_wf cap0 cap1 cur d -> head_ok cap0 h0 -> head_ok cap1 h1 ->
  0 < cap0 -> 0 < cap1 -> is_Some h0 \/ is_Some h1 ->
  slot_steps h0 h1 cur d < Z.of_nat fuel ->
  exists cur' d', slot_pick fuel h0 h1 cur d = Some (cur', d')
                  /\ slot_post h0 h1 cap0 cap1 d cur' d'.
Proof.
  intros Hwf Hh0 Hh1 Hc0 Hc1 Hsome. revert cur d Hwf.
  assert (0 < BaseQuantumBytes) as HQ by (unfold BaseQuantumBytes; lia).
  assert (0 < 3 * BaseQuantumBytes) as HQ3 by lia.
  induction fuel as [|fuel IH]; intros cur d Hwf Hfuel.
  { pose proof (slot_steps_nonneg h0 h1 cur d (proj1 Hwf)). lia. }
  destruct d as [d0 d1]. destruct Hwf as (Hcur&H0&H1&H01). simpl in H0, H1, H01.
  destruct Hcur as [-> | ->]; simpl; unfold slot_advance, arr_get, arr_set; simpl.
  - (* slot 0 *)
    destruct h0 as [n0|]; simpl in *.
    + destruct (Z.leb_spec n0 d0).
      * do 2 eexists. split; [done|]. unfold slot_post, slot_wf; simpl.
        split; [lia|]. exists n0. split; [done|lia].
      * destruct (IH 1 (d0, d1)) as (cur'&d'&Hp&Hpost).
        { unfold slot_wf; simpl; lia. }
        { revert Hfuel. unfold slot_steps; simpl. destruct h1 as [n1|]; [lia|].
          rewrite Z.mul_0_r, Z.mul_1_r, Z.sub_0_r, rounds_step by lia. lia. }
        eauto.
    + destruct h1 as [n1|]; [|destruct Hsome as [[? [=]]|[? [=]]]].
      destruct (IH 1 (0, d1)) as (cur'&d'&Hp&Hwf'&n&Hn&_).
      { unfold slot_wf; simpl; lia. }
      { revert Hfuel. unfold slot_steps; simpl. lia. }
      do 2 eexists. split; [done|]. split; [done|]. exists n. split; [done|].
      intros [? [=]].
  - (* slot 1 *)
    destruct h1 as [n1|]; simpl in *.
    + destruct (Z.leb_spec n1 d1).
      * do 2 eexists. split; [done|]. unfold slot_post, slot_wf; simpl.
        split; [lia|]. exists n1. split; [done|lia].
      * destruct (IH 0 (slot_round h0 (Some n1) (d0, d1))) as (cur'&d'&Hp&Hwf'&n&Hn&Hphi).
        { unfold slot_wf, slot_round; destruct h0; simpl; lia. }
        { revert Hfuel. unfold slot_steps, slot_round; simpl.
          rewrite Z.sub_add_distr, rounds_step by lia. lia. }
        do 2 eexists. split; [done|]. split; [done|]. exists n. split; [done|].
        intros Hs0 Hs1. specialize (Hphi Hs0 Hs1). rewrite Hphi. unfold slot_round.
        destruct Hs0 as [? ->]. simpl. lia.
    + destruct h0 as [n0|]; [|destruct Hsome as [[? [=]]|[? [=]]]].
      destruct (IH 0 (slot_round (Some n0) None (d0, 0))) as (cur'&d'&Hp&Hwf'&n&Hn&_).
      { unfold slot_wf, slot_round; simpl; lia. }
      { revert Hfuel. unfold slot_steps, slot_round; simpl.
        rewrite Z.mul_1_r, Z.mul_0_r, Z.sub_0_r, Z.sub_add_distr. lia. }
      do 2 eexists. split; [done|]. split; [done|]. exists n. split; [done|].
      intros _ [? [=]].
Qed.

(** * The scheduler's loops refine the reference routine *)

Definition head_size (q : list sendRequest) : option Z := rsize <$> head q.

Definition with_inner (s : Scheduler) (cur : Z) (d : Z * Z) : Scheduler :=
  set_cursor (set_inner cur d (cursor s)) s.
Definition with_outer (s : Scheduler) (cur : Z) (d : Z * Z) : Scheduler :=
  set_cursor (set_outer cur d (cursor s)) s.

Lemma with_inner_id s : with_inner s (innerCurrent (cursor s)) (innerDeficit (cursor s)) = s.
Proof. destruct s as [???????? ??]; simpl. by destruct cursor. Qed.
Lemma with_outer_id s : with_outer s (outerCurrent (cursor s)) (outerDeficit (cursor s)) = s.
Proof. destruct s as [???????? ??]; simpl. by destruct cursor. Qed.

Lemma nonempty_head {A} (l : list A) : nonempty l = true <-> is_Some (head l).
Proof.
  destruct l; unfold nonempty.
  - split; [done|intros [? [=]]].
  - rewrite len_cons. pose proof (len_nonneg l). split; [eauto|].
    intros _. apply Z.ltb_lt. lia.
Qed.

Lemma nonempty_false {A} (l : list A) : nonempty l = false <-> l = [].
Proof.
  destruct l; unfold nonempty; [done|]. rewrite len_cons. pose proof (len_nonneg l).
  split; [|done]. intros ?%Z.ltb_ge. lia.
Qed.

Lemma nonempty_cons {A} (x : A) l : nonempty (x :: l) = true.
Proof. apply nonempty_head. eauto. Qed.

Lemma slot_round_nonempty (q0 q1 : list sendRequest) d :
  slot_round (head_size q0) (head_size q1) d =
  (if nonempty q0 then fst d + 3 * BaseQuantumBytes else 0,
   if nonempty q1 then snd d + BaseQuantumBytes else 0).
Proof.
  destruct q0 as [|x q0], q1 as [|y q1]; rewrite ?nonempty_cons; done.
Qed.

Definition inner_h0 s := head_size (queue s ClassInteractiveMedia).
Definition inner_h1 s := head_size (queue s ClassThumbnail).

Lemma advanceInner_slot s cur d :
  cur = 0 \/ cur = 1 ->
  advanceInnerLocked (with_inner s cur d) =
  let '(cur', d') := slot_advance (inner_h0 s) (inner_h1 s) cur d in with_inner s cur' d'.
Proof.
  intros [-> | ->]; unfold advanceInnerLocked, slot_advance; [done|].
  simpl. unfold inner_h0, inner_h1. by rewrite slot_round_nonempty.
Qed.

Definition media_class (cur : Z) : TrafficClass :=
  if cur =? 1 then ClassThumbnail else ClassInteractiveMedia.

Lemma slot_advance_cur h0 h1 cur d cur' d' :
  slot_advance h0 h1 cur d = (cur', d') -> cur' = 0 \/ cur' = 1.
Proof. unfold slot_advance. case_match; intros [= <- <-]; auto. Qed.

(** [peekMediaLocked]'s loop is the reference routine on the two media queues. *)
Lemma peekMedia_loop_slot fuel s cur d :
  hasMediaLocked s = true -> cur = 0 \/ cur = 1 ->
  peekMedia_loop fuel (with_inner s cur d) =
  '(cur', d') ← slot_pick fuel (inner_h0 s) (inner_h1 s) cur d;
  Some (head (queue s (media_class cur')), with_inner s cur' d').
Proof.
  intros Hm. revert cur d. induction fuel as [|fuel IH]; intros cur d Hcur; [done|].
  cbn [peekMedia_loop slot_pick]. change (hasMediaLocked (with_inner s cur d)) with (hasMediaLocked s).
  rewrite Hm. cbn [negb].
  change (innerCurrent (cursor (with_inner s cur d))) with cur.
  change (innerDeficit (cursor (with_inner s cur d))) with d.
  change (queue (with_inner s cur d)) with (queue s). fold (media_class cur).
  assert ((if cur =? 0 then inner_h0 s else inner_h1 s) = head_size (queue s (media_class cur))) as ->
    by (destruct Hcur as [-> | ->]; done).
  destruct (queue s (media_class cur)) as [|r q] eqn:Hq; cbn [head_size head fmap option_fmap option_map].
  - change (advanceInnerLocked _) with (advanceInnerLocked (with_inner s cur (arr_set d cur 0))).
    rewrite advanceInner_slot by done.
    destruct (slot_advance _ _ _ _) as [cur' d'] eqn:Hs.
    apply (IH cur' d' (slot_advance_cur _ _ _ _ _ _ Hs)).
  - destruct (rsize r <=? arr_get d cur); cbn [mbind option_bind].
    + by rewrite Hq.
    + change (advanceInnerLocked _) with (advanceInnerLocked (with_inner s cur d)).
      rewrite advanceInner_slot by done.
      destruct (slot_advance _ _ _ _) as [cur' d'] eqn:Hs.
      apply (IH cur' d' (slot_advance_cur _ _ _ _ _ _ Hs)).
Qed.

(** * Well-formed states *)

Definition request_ok (c : TrafficClass) (r : sendRequest) : Prop :=
  rq_class r = c /\ exists cap, classCap c = Some cap /\ 1 <= rsize r <= cap.

Definition queues_wf (s : Scheduler) : Prop := forall c, Forall (request_ok c) (queue s c).

Definition inner_wf (c : drr) : Prop :=
  slot_wf InteractiveQueueCapBytes ThumbnailQueueCapBytes (innerCurrent c) (innerDeficit c)
  /\ (innerStarted c = false -> innerCurrent c = 0 /\ innerDeficit c = (0, 0)).

Definition outer_wf (c : drr) : Prop :=
  slot_wf ThumbnailQueueCapBytes BulkQueueCapBytes (outerCurrent c) (outerDeficit c)
  /\ (outerStarted c = false -> outerCurrent c = 0 /\ outerDeficit c = (0, 0)).

Definition cursor_wf (c : drr) : Prop := inner_wf c /\ outer_wf c /\ 0 <= controlBurst c.

(** The starting position of a loop: a fresh round when it has not begun. *)
Definition slot_start (started : bool) (h0 h1 : option Z) (cur : Z) (d : Z * Z) : Z * (Z * Z) :=
  if started then (cur, d) else (cur, slot_round h0 h1 d).

Definition with_innerS (s : Scheduler) (cur : Z) (d : Z * Z) : Scheduler :=
  set_cursor (set_innerStarted true (set_inner cur d (cursor s))) s.
Definition with_outerS (s : Scheduler) (cur : Z) (d : Z * Z) : Scheduler :=
  set_cursor (set_outerStarted true (set_outer cur d (cursor s))) s.

Lemma peekMediaLocked_slot s :
  hasMediaLocked s = true -> inner_wf (cursor s) ->
  peekMediaLocked s =
  let '(cur, d) := slot_start (innerStarted (cursor s)) (inner_h0 s) (inner_h1 s)
                     (innerCurrent (cursor s)) (innerDeficit (cursor s)) in
  '(cur', d') ← slot_pick inner_fuel (inner_h0 s) (inner_h1 s) cur d;
  Some (head (queue s (media_class cur')), with_innerS s cur' d').
Proof.
  intros Hm [(Hcur&_) _]. unfold peekMediaLocked, slot_start.
  destruct (innerStarted (cursor s)) eqn:Hst.
  - rewrite <- (with_inner_id s) at 1. rewrite peekMedia_loop_slot by done.
    destruct (slot_pick _ _ _ _ _) as [[cur d]|]; [|done]. simpl. do 2 f_equal.
    unfold with_inner, with_innerS, set_innerStarted, set_inner; simpl. by rewrite Hst.
  - set (s1 := set_cursor _ _).
    assert (s1 = with_inner (set_cursor (set_innerStarted true (cursor s)) s)
                   (innerCurrent (cursor s))
                   (slot_round (inner_h0 s) (inner_h1 s) (innerDeficit (cursor s)))) as ->.
    { subst s1. unfold addInnerRoundLocked, inner_h0, inner_h1.
      by rewrite slot_round_nonempty. }
    by rewrite peekMedia_loop_slot.
Qed.

Lemma head_size_ok s c cap :
  queues_wf s -> classCap c = Some cap -> head_ok cap (head_size (queue s c)).
Proof.
  intros Hq Hc. specialize (Hq c). destruct Hq as [|r q (_&cap'&Hcap&Hr) _]; [done|].
  simpl. rewrite Hc in Hcap. by simplify_eq.
Qed.

Lemma slot_start_wf started h0 h1 cap0 cap1 cur d :
  slot_wf cap0 cap1 cur d -> (started = false -> cur = 0 /\ d = (0, 0)) ->
  0 < cap0 -> 0 < cap1 ->
  let '(cur', d') := slot_start started h0 h1 cur d in slot_wf cap0 cap1 cur' d'.
Proof.
  intros Hwf Hst ??. destruct started; [done|]. destruct (Hst eq_refl) as [-> ->].
  unfold slot_wf, slot_start, slot_round, BaseQuantumBytes. simpl.
  destruct h0, h1; simpl; lia.
Qed.

(** The media lane always offers a request, the first of its class. *)
Lemma peekMediaLocked_spec s :
  queues_wf s -> inner_wf (cursor s) -> hasMediaLocked s = true ->
  exists r cur d,
    peekMediaLocked s = Some (Some r, with_innerS s cur d)
    /\ (rq_class r = ClassInteractiveMedia \/ rq_class r = ClassThumbnail)
    /\ head (queue s (rq_class r)) = Some r
    /\ 1 <= rsize r <= ThumbnailQueueCapBytes
    /\ inner_wf (cursor (with_innerS s cur d)).
Proof.
  intros Hq Hwf Hm. rewrite peekMediaLocked_slot by done. destruct Hwf as [Hwf Hst].
  pose proof (slot_start_wf _ (inner_h0 s) (inner_h1 s) _ _ _ _ Hwf Hst
                ltac:(done) ltac:(done)) as Hwf1.
  destruct (slot_start _ _ _ _ _) as [cur d].
  assert (head_ok InteractiveQueueCapBytes (inner_h0 s)) as Hh0 by by apply head_size_ok.
  assert (head_ok ThumbnailQueueCapBytes (inner_h1 s)) as Hh1 by by apply head_size_ok.
  destruct (slot_pick_spec inner_fuel (inner_h0 s) (inner_h1 s) _ _ cur d Hwf1 Hh0 Hh1)
    as (cur'&d'&->&Hwf'&n&Hn&_); [done|done| | |].
  { unfold hasMediaLocked in Hm. apply orb_true_iff in Hm as [Hm|Hm];
      apply nonempty_head in Hm as [r Hr]; [left|right];
      unfold inner_h0, inner_h1, head_size; rewrite Hr; eauto. }
  { pose proof (slot_steps_bound (inner_h0 s) (inner_h1 s) _ _ cur d Hwf1 Hh0 Hh1) as Hb.
    eapply Z.le_lt_trans; [exact Hb|]. vm_compute. done. }
  assert (head_size (queue s (media_class cur')) = Some n) as Hhead.
  { rewrite <- Hn. destruct Hwf' as ([-> | ->]&_); done. }
  unfold head_size in Hhead. apply fmap_Some in Hhead as (r&Hr&->).
  assert (request_ok (media_class cur') r) as (Hcl&cap&Hcap&Hsz).
  { specialize (Hq (media_class cur')). rewrite Forall_forall in Hq. apply Hq.
    destruct (queue s (media_class cur')); [done|]. simplify_eq/=. set_solver. }
  assert (cap <= ThumbnailQueueCapBytes) as Hle.
  { destruct Hwf' as ([-> | ->]&_); vm_compute in Hcap; simplify_eq;
      by vm_compute. }
  assert (media_class cur' = ClassInteractiveMedia \/ media_class cur' = ClassThumbnail)
    by (destruct Hwf' as ([-> | ->]&_); auto).
  exists r, cur', d'. cbn [mbind option_bind]. rewrite Hr, Hcl.
  split_and!; try done; lia.
Qed.

(** * The outer loop *)

#[local] Arguments inner_fuel : simpl never.
#[local] Arguments outer_fuel : simpl never.
#[local] Arguments peekMediaLocked : simpl never.

Definition media_peek (s : Scheduler) : option sendRequest :=
  if hasMediaLocked s then
    match peekMediaLocked s with Some (Some r, _) => Some r | _ => None end
  else None.
Definition outer_h0 (s : Scheduler) : option Z := rsize <$> media_peek s.
Definition outer_h1 (s : Scheduler) : option Z := head_size (queue s ClassBulk).

(** Paying the grant of slot [cur] and popping the request. *)
Definition outer_grant (s : Scheduler) (cur : Z) (d : Z * Z)
    : option (option sendRequest * Scheduler) :=
  if cur =? 0 then
    match peekMediaLocked s with
    | Some (Some r, s') =>
        '(r, s'') ← popLocked (with_outer s' 0 d) (rq_class r); Some (Some r, s'')
    | _ => None
    end
  else '(r, s'') ← popLocked (with_outer s cur d) ClassBulk; Some (Some r, s'').

Lemma peekMediaLocked_with_outer s cur d :
  hasMediaLocked s = true -> inner_wf (cursor s) ->
  peekMediaLocked (with_outer s cur d) =
  '(r, s') ← peekMediaLocked s; Some (r, with_outer s' cur d).
Proof.
  intros Hm Hwf. rewrite !peekMediaLocked_slot by done.
  change (inner_h0 (with_outer s cur d)) with (inner_h0 s).
  change (inner_h1 (with_outer s cur d)) with (inner_h1 s).
  change (innerStarted (cursor (with_outer s cur d))) with (innerStarted (cursor s)).
  change (innerCurrent (cursor (with_outer s cur d))) with (innerCurrent (cursor s)).
  change (innerDeficit (cursor (with_outer s cur d))) with (innerDeficit (cursor s)).
  destruct (slot_start _ _ _ _ _) as [cur1 d1].
  by destruct (slot_pick _ _ _ _ _) as [[cur' d']|].
Qed.

Lemma slot_round_outer s d :
  is_Some (outer_h0 s) <-> hasMediaLocked s = true ->
  slot_round (outer_h0 s) (outer_h1 s) d =
  (if hasMediaLocked s then fst d + 3 * BaseQuantumBytes else 0,
   if nonempty (queue s ClassBulk) then snd d + BaseQuantumBytes else 0).
Proof.
  intros Hm. unfold slot_round, outer_h1.
  pose proof (nonempty_head (queue s ClassBulk)) as Hb.
  assert ((if outer_h0 s is Some _ then fst d + 3 * BaseQuantumBytes else 0)
          = (if hasMediaLocked s then fst d + 3 * BaseQuantumBytes else 0)) as ->.
  { destruct (hasMediaLocked s), (outer_h0 s) as [n|]; try done.
    - destruct Hm as [_ Hm]. by destruct (Hm eq_refl).
    - destruct Hm as [Hm _]. by discriminate Hm. }
  by destruct (queue s ClassBulk); rewrite ?nonempty_cons.
Qed.

Lemma media_peek_some s :
  queues_wf s -> inner_wf (cursor s) ->
  is_Some (outer_h0 s) <-> hasMediaLocked s = true.
Proof.
  intros Hq Hwf. unfold outer_h0, media_peek.
  destruct (hasMediaLocked s) eqn:Hm; [|by split; [intros [? [=]]|]].
  destruct (peekMediaLocked_spec s Hq Hwf Hm) as (r&?&?&->&_). split; [done|]. eauto.
Qed.

Lemma advanceOuter_slot s cur d :
  queues_wf s -> inner_wf (cursor s) -> cur = 0 \/ cur = 1 ->
  advanceOuterLocked (with_outer s cur d) =
  let '(cur', d') := slot_advance (outer_h0 s) (outer_h1 s) cur d in with_outer s cur' d'.
Proof.
  intros Hq Hwf [-> | ->]; unfold advanceOuterLocked, slot_advance; [done|].
  cbn. rewrite slot_round_outer by by apply media_peek_some. done.
Qed.

Lemma nextData_loop_slot fuel s cur d :
  queues_wf s -> inner_wf (cursor s) ->
  hasMediaLocked s || nonempty (queue s ClassBulk) = true -> cur = 0 \/ cur = 1 ->
  nextData_loop fuel (with_outer s cur d) =
  '(cur', d') ← slot_pick fuel (outer_h0 s) (outer_h1 s) cur d; outer_grant s cur' d'.
Proof.
  intros Hq Hwf Hdata. revert cur d.
  induction fuel as [|fuel IH]; intros cur d Hcur; [done|].
  assert (forall d', nextData_loop fuel (advanceOuterLocked (with_outer s cur d')) =
    '(cur', d') ← (let '(cur, d) := slot_advance (outer_h0 s) (outer_h1 s) cur d' in
                   slot_pick fuel (outer_h0 s) (outer_h1 s) cur d);
    outer_grant s cur' d') as Hadv.
  { intros d'. rewrite advanceOuter_slot by done.
    destruct (slot_advance _ _ _ _) as [cur1 d1] eqn:Hs.
    apply IH. by eapply slot_advance_cur. }
  cbn [nextData_loop slot_pick].
  change (hasMediaLocked (with_outer s cur d)) with (hasMediaLocked s).
  change (queue (with_outer s cur d)) with (queue s). rewrite Hdata. cbn [negb].
  change (outerCurrent (cursor (with_outer s cur d))) with cur.
  change (outerDeficit (cursor (with_outer s cur d))) with d.
  destruct Hcur as [-> | ->]; cbn [Z.eqb].
  - pose proof (media_peek_some s Hq Hwf) as Hsome.
    destruct (hasMediaLocked s) eqn:Hm; cbn [negb].
    + destruct (peekMediaLocked_spec s Hq Hwf Hm) as (r&c1&d1&Hp&_).
      rewrite peekMediaLocked_with_outer, Hp by done. cbn [mbind option_bind].
      assert (outer_h0 s = Some (rsize r)) as Hh by
        (unfold outer_h0, media_peek; by rewrite Hm, Hp).
      rewrite Hh. change (arr_get d 0) with (fst d).
      change (outerDeficit (cursor (with_outer (with_innerS s c1 d1) 0 d))) with d.
      destruct (rsize r <=? fst d); cbn [mbind option_bind].
      * unfold outer_grant. cbn [Z.eqb]. rewrite Hp.
        change (set_cursor _ (with_outer (with_innerS s c1 d1) 0 d))
          with (with_outer (with_innerS s c1 d1) 0 (arr_set d 0 (fst d - rsize r))).
        by destruct (popLocked _ _) as [[? ?]|].
      * rewrite <- Hh, <- Hadv. reflexivity.
    + destruct (outer_h0 s) as [n|] eqn:Hh; [by destruct Hsome as [Hs _]; discriminate Hs|].
      apply (Hadv (arr_set d 0 0)).
  - unfold outer_h1 at 1. destruct (queue s ClassBulk) as [|r q] eqn:Hb;
      cbn [head_size head fmap option_fmap option_map].
    + apply (Hadv (arr_set d 1 0)).
    + change (arr_get d 1) with (snd d).
      destruct (rsize r <=? snd d); cbn [mbind option_bind]; [|apply (Hadv d)].
      unfold outer_grant. cbn [Z.eqb].
      change (set_cursor _ (with_outer s 1 d))
        with (with_outer s 1 (arr_set d 1 (snd d - rsize r))).
      by destruct (popLocked _ _) as [[? ?]|].
Qed.

(** * Popping a request *)

Lemma queue_insert s c q c' :
  queue (set_queues (<[c := q]> (queues s)) s) c' = if decide (c = c') then q else queue s c'.
Proof.
  unfold queue, mlookup. simpl. rewrite lookup_insert. by case_decide.
Qed.

Lemma queue_set_cursor s k c : queue (set_cursor k s) c = queue s c.
Proof. done. Qed.

Lemma slot_wf_set0 cap0 cap1 cur d i :
  0 < cap0 -> 0 < cap1 -> slot_wf cap0 cap1 cur d -> slot_wf cap0 cap1 cur (arr_set d i 0).
Proof.
  unfold slot_wf, arr_set, BaseQuantumBytes. intros. destruct (i =? 0); simpl; lia.
Qed.

Lemma slot_wf_zero cap0 cap1 : 0 < cap0 -> 0 < cap1 -> slot_wf cap0 cap1 0 (0, 0).
Proof. unfold slot_wf, BaseQuantumBytes. simpl. lia. Qed.

(** Both lanes have work queued or waiting for admission. *)
Definition both_demand (s : Scheduler) : Prop :=
  hasMediaDemandLocked s = true /\ hasClassDemandLocked s ClassBulk = true.

(** Resetting an empty lane touches only the cursor, keeps it well formed,
    and keeps the outer deficits while both lanes have demand. *)
Definition reset_post (s : Scheduler) (k : drr) : Prop :=
  (cursor_wf (cursor s) -> cursor_wf k) /\ controlBurst k = controlBurst (cursor s)
  /\ (both_demand s -> outerDeficit k = outerDeficit (cursor s)).

Lemma arr_set_zero i : arr_set (0, 0) i 0 = (0, 0).
Proof. unfold arr_set. by case_match. Qed.

Lemma started_set0 (b : bool) (cur : Z) (d : Z * Z) i :
  (b = false -> cur = 0 /\ d = (0, 0)) -> (b = false -> cur = 0 /\ arr_set d i 0 = (0, 0)).
Proof. intros H Hb. destruct (H Hb) as [-> ->]. by rewrite arr_set_zero. Qed.

Lemma inner_wf_set0 k i :
  inner_wf k -> inner_wf (set_inner (innerCurrent k) (arr_set (innerDeficit k) i 0) k).
Proof.
  intros [Hs Hst]. split; simpl; [by apply slot_wf_set0|by apply started_set0].
Qed.

Lemma outer_wf_set0 k i :
  outer_wf k -> outer_wf (set_outer (outerCurrent k) (arr_set (outerDeficit k) i 0) k).
Proof.
  intros [Hs Hst]. split; simpl; [by apply slot_wf_set0|by apply started_set0].
Qed.

Lemma resetEmptyLane_post s c : exists k, resetEmptyLaneLocked s c = set_cursor k s /\ reset_post s k.
Proof.
  unfold resetEmptyLaneLocked.
  set (s1 := if negb (hasClassDemandLocked s c) then _ else s).
  assert (exists k, s1 = set_cursor k s /\ reset_post s k) as (k1&->&Hwf1&Hcb1&Hb1).
  { assert (exists k, s = set_cursor k s /\ reset_post s k).
    { exists (cursor s). split; [by destruct s|]. done. }
    subst s1. destruct (hasClassDemandLocked s c) eqn:Hd; cbn [negb]; [done|].
    repeat case_decide; [ | | |done]; eexists; (split; [reflexivity|]); split_and!; try done.
    1,2: intros (?&?&?); split_and!; [by apply inner_wf_set0|done|done].
    - intros (?&?&?); split_and!; [done|by apply outer_wf_set0|done].
    - subst c. intros [_ Hb]. congruence. }
  change (hasMediaDemandLocked (set_cursor k1 s)) with (hasMediaDemandLocked s).
  destruct (hasMediaDemandLocked s) eqn:Hm; cbn [negb andb].
  { change (hasMediaDemandLocked (set_cursor k1 s)) with (hasMediaDemandLocked s).
    rewrite Hm. cbn [negb andb]. exists k1. done. }
  match goal with |- context [hasMediaDemandLocked ?x] =>
    change (hasMediaDemandLocked x) with (hasMediaDemandLocked s);
    change (hasClassDemandLocked x ClassBulk) with (hasClassDemandLocked s ClassBulk) end.
  rewrite Hm. cbn [negb andb].
  destruct (hasClassDemandLocked s ClassBulk) eqn:Hb; cbn [negb];
    (eexists; split; [reflexivity|]); split_and!; try done.
  2,4: intros [Hx _]; congruence.
  - intros (?&Ho&?)%Hwf1. split_and!; [|by apply outer_wf_set0|done].
    split; simpl; [by apply slot_wf_zero|done].
  - intros (?&Ho&?)%Hwf1. split_and!; [| |done].
    all: split; simpl; [by apply slot_wf_zero|done].
Qed.

Definition pop_queues (s : Scheduler) (c : TrafficClass) : Scheduler :=
  set_queues (<[c := tail (queue s c)]> (queues s)) s.

Lemma popLocked_spec s c r :
  head (queue s c) = Some r ->
  exists k, popLocked s c = Some (r, set_cursor k (pop_queues s c))
            /\ (cursor_wf (cursor s) -> cursor_wf k) /\ controlBurst k = controlBurst (cursor s)
            /\ (both_demand (pop_queues s c) -> outerDeficit k = outerDeficit (cursor s)).
Proof.
  unfold popLocked, pop_queues. destruct (queue s c) as [|r' q] eqn:Hq; [done|].
  intros [= ->]. cbn [tail]. set (s1 := set_queues _ s).
  destruct (nonempty q).
  - exists (cursor s). split; [by destruct s|done].
  - destruct (resetEmptyLane_post s1 c) as (k&->&Hk). by exists k.
Qed.

(** * What the scheduler takes next *)

Definition data_class (c : TrafficClass) : Prop :=
  c = ClassInteractiveMedia \/ c = ClassThumbnail \/ c = ClassBulk.

Definition dataWaiting (s : Scheduler) : bool :=
  hasMediaLocked s || nonempty (queue s ClassBulk).

(** What a request of the class costs the balance between media and bulk. *)
Definition grant_weight (r : sendRequest) : Z :=
  if decide (rq_class r = ClassControl) then 0
  else if decide (rq_class r = ClassBulk) then - 3 * rsize r else rsize r.

Definition balance (k : drr) : Z := fst (outerDeficit k) - 3 * snd (outerDeficit k).

(** The request taken and the cursor left, against the state before. *)
Definition next_post (s : Scheduler) (r : sendRequest) (k : drr) : Prop :=
  head (queue s (rq_class r)) = Some r /\ cursor_wf k
  /\ (hasMediaLocked s = true -> nonempty (queue s ClassBulk) = true ->
      both_demand (pop_queues s (rq_class r)) ->
      balance k + grant_weight r = balance (cursor s)).

Lemma outer_grant_media s d r c1 d1 k0 :
  peekMediaLocked s = Some (Some r, with_innerS s c1 d1) ->
  cursor (with_outer (with_innerS s c1 d1) 0 d) = k0 -> cursor_wf k0 ->
  head (queue s (rq_class r)) = Some r ->
  exists k, outer_grant s 0 d = Some (Some r, set_cursor k (pop_queues s (rq_class r)))
    /\ cursor_wf k /\ controlBurst k = controlBurst (cursor s)
    /\ (both_demand (pop_queues s (rq_class r)) -> outerDeficit k = d).
Proof.
  intros Hp Hk0 Hwf Hh. unfold outer_grant. cbn [Z.eqb]. rewrite Hp.
  destruct (popLocked_spec (with_outer (with_innerS s c1 d1) 0 d) (rq_class r) r Hh)
    as (k&Hpop&Hk&Hcb&Hd).
  rewrite Hpop. exists k. rewrite Hk0 in Hk. split_and!; auto.
Qed.

Lemma outer_grant_bulk s d r :
  head (queue s ClassBulk) = Some r -> cursor_wf (cursor (with_outer s 1 d)) ->
  exists k, outer_grant s 1 d = Some (Some r, set_cursor k (pop_queues s ClassBulk))
    /\ cursor_wf k /\ controlBurst k = controlBurst (cursor s)
    /\ (both_demand (pop_queues s ClassBulk) -> outerDeficit k = d).
Proof.
  intros Hh Hwf. unfold outer_grant. cbn [Z.eqb].
  destruct (popLocked_spec (with_outer s 1 d) ClassBulk r Hh) as (k&Hpop&Hk&Hcb&Hd).
  rewrite Hpop. exists k. split_and!; auto.
Qed.

Lemma queues_head_ok s c r : queues_wf s -> head (queue s c) = Some r -> request_ok c r.
Proof.
  intros Hq Hh. specialize (Hq c). destruct Hq; [done|]. by simplify_eq/=.
Qed.

(** [nextDataLocked] from the outer loop's start: the reference routine picks
    the lane, and the lane's first request is popped. *)
Lemma nextData_loop_spec s cur d :
  queues_wf s -> inner_wf (cursor s) -> 0 <= controlBurst (cursor s) ->
  outerStarted (cursor s) = true -> dataWaiting s = true ->
  slot_wf ThumbnailQueueCapBytes BulkQueueCapBytes cur d ->
  exists r k, nextData_loop outer_fuel (with_outer s cur d)
              = Some (Some r, set_cursor k (pop_queues s (rq_class r)))
    /\ data_class (rq_class r) /\ head (queue s (rq_class r)) = Some r
    /\ cursor_wf k /\ controlBurst k = controlBurst (cursor s)
    /\ (hasMediaLocked s = true -> nonempty (queue s ClassBulk) = true ->
        both_demand (pop_queues s (rq_class r)) ->
        balance k + grant_weight r = fst d - 3 * snd d).
Proof.
  intros Hq Hin Hcb Hst Hdata Hwf. pose proof (proj1 Hwf) as Hcur.
  rewrite nextData_loop_slot by done.
  pose proof (media_peek_some s Hq Hin) as Hm.
  assert (head_ok ThumbnailQueueCapBytes (outer_h0 s)) as Hh0.
  { unfold outer_h0, media_peek. destruct (hasMediaLocked s) eqn:Hm'; [|done].
    destruct (peekMediaLocked_spec s Hq Hin Hm') as (r&?&?&->&_&_&?&_). done. }
  assert (head_ok BulkQueueCapBytes (outer_h1 s)) as Hh1 by by apply head_size_ok.
  assert (is_Some (outer_h1 s) <-> nonempty (queue s ClassBulk) = true) as Hb.
  { rewrite nonempty_head. unfold outer_h1, head_size. apply fmap_is_Some. }
  destruct (slot_pick_spec outer_fuel (outer_h0 s) (outer_h1 s) _ _ cur d Hwf Hh0 Hh1)
    as (cur'&d'&->&Hwf'&n&Hn&Hphi); [done|done| | |].
  { unfold dataWaiting in Hdata. apply orb_true_iff in Hdata. tauto. }
  { eapply Z.le_lt_trans; [by apply (slot_steps_bound _ _ _ _ _ _ Hwf)|]. by vm_compute. }
  cbn [mbind option_bind]. rewrite Hm, Hb in Hphi.
  destruct (proj1 Hwf') as [-> | ->]; cbn [Z.eqb] in Hn, Hphi.
  - assert (hasMediaLocked s = true) as Hm' by (apply Hm; eauto).
    destruct (peekMediaLocked_spec s Hq Hin Hm') as (r&c1&d1&Hp&Hcl&Hh&Hsz&Hin').
    unfold outer_h0, media_peek in Hn. rewrite Hm', Hp in Hn. simplify_eq/=.
    destruct (outer_grant_media s d' r c1 d1 _ Hp eq_refl) as (k&->&Hk&Hcb'&Hd); [|done|].
    { split_and!; [exact Hin'| |done]. split; [exact Hwf'|]. simpl. by rewrite Hst. }
    exists r, k. split_and!; try done.
    { destruct Hcl; [left|right; left]; done. }
    intros _ Hb' Hboth. unfold balance, grant_weight. rewrite (Hd Hboth).
    rewrite !decide_False by (destruct Hcl as [-> | ->]; done). by apply Hphi.
  - unfold outer_h1, head_size in Hn. apply fmap_Some in Hn as (r&Hh&->).
    destruct (queues_head_ok s _ _ Hq Hh) as [Hcl _].
    destruct (outer_grant_bulk s d' r Hh) as (k&->&Hk&Hcb'&Hd).
    { split_and!; [exact Hin| |done]. split; [exact Hwf'|]. simpl. by rewrite Hst. }
    exists r, k. rewrite Hcl. split_and!; try done; [right; by right|].
    intros Hm' Hb' Hboth. unfold balance, grant_weight. rewrite Hcl, (Hd Hboth).
    rewrite decide_False, decide_True by done. apply Hphi; [done|]. by rewrite Hb'.
Qed.

Lemma nextDataLocked_spec s :
  queues_wf s -> cursor_wf (cursor s) -> dataWaiting s = true ->
  exists r k, nextDataLocked s = Some (Some r, set_cursor k (pop_queues s (rq_class r)))
    /\ data_class (rq_class r) /\ head (queue s (rq_class r)) = Some r
    /\ cursor_wf k /\ controlBurst k = controlBurst (cursor s)
    /\ (hasMediaLocked s = true -> nonempty (queue s ClassBulk) = true ->
        both_demand (pop_queues s (rq_class r)) ->
        balance k + grant_weight r = balance (cursor s)).
Proof.
  intros Hq (Hin&[Hout Host]&Hcb) Hdata. unfold nextDataLocked.
  destruct (outerStarted (cursor s)) eqn:Hst.
  - pose proof (nextData_loop_spec s _ _ Hq Hin Hcb Hst Hdata Hout) as Hspec.
    by rewrite with_outer_id in Hspec.
  - destruct (Host eq_refl) as [Hc0 Hd0].
    set (s1 := set_cursor (set_outerStarted true (cursor s)) s).
    set (d1 := slot_round (outer_h0 s) (outer_h1 s) (0, 0)).
    match goal with |- context [nextData_loop _ ?x] =>
      assert (x = with_outer s1 0 d1) as Hx end.
    { unfold addOuterRoundLocked. rewrite Hd0, Hc0. subst d1.
      rewrite slot_round_outer by by apply media_peek_some. done. }
    rewrite Hx. clear Hx.
    destruct (nextData_loop_spec s1 0 d1) as (r&k&Hnext&Hcl&Hh&Hk&Hcb'&Hbal); try done.
    { subst d1. unfold slot_wf, slot_round, BaseQuantumBytes; simpl.
      destruct (outer_h0 s), (outer_h1 s); simpl; vm_compute; intuition congruence. }
    exists r, k. split; [exact Hnext|]. split_and!; try done.
    intros Hm Hb Hboth. rewrite (Hbal Hm Hb Hboth). subst d1.
    unfold slot_round, balance. rewrite Hd0.
    apply (media_peek_some s Hq Hin) in Hm as [? ->].
    apply nonempty_head in Hb as [? Hb]. unfold outer_h1, head_size. rewrite Hb.
    by vm_compute.
Qed.

Definition work_waiting (s : Scheduler) : bool :=
  dataWaiting s || nonempty (queue s ClassControl).

(** The control burst counts the control requests taken since the last data
    request; it gates a further one while data waits. *)
Definition burst_post (s : Scheduler) (r : sendRequest) (k : drr) : Prop :=
  if decide (rq_class r = ClassControl) then
    controlBurst k = controlBurst (cursor s) + 1
    /\ (dataWaiting s = true -> controlBurst (cursor s) < ControlBurstLimit)
  else data_class (rq_class r) /\ controlBurst k = 0.

Lemma popControl_spec s :
  queues_wf s -> cursor_wf (cursor s) -> nonempty (queue s ClassControl) = true ->
  (dataWaiting s = true -> controlBurst (cursor s) < ControlBurstLimit) ->
  exists r k, popControl s = Some (Some r, set_cursor k (pop_queues s (rq_class r)))
              /\ next_post s r k /\ burst_post s r k.
Proof.
  intros Hq Hwf Hne Hb. apply nonempty_head in Hne as [r Hr].
  destruct (queues_head_ok s _ _ Hq Hr) as [Hcl _]. unfold popControl.
  destruct (popLocked_spec (set_cursor (set_controlBurst (controlBurst (cursor s) + 1) (cursor s)) s)
              ClassControl r Hr) as (k&->&Hk&Hcb&Hd).
  exists r, k. rewrite Hcl. split; [done|]. unfold next_post, burst_post. rewrite Hcl.
  rewrite decide_True by done. split_and!; try done.
  - apply Hk. destruct Hwf as (?&?&?). split_and!; [done..|]. simpl. lia.
  - intros _ _ Hboth. unfold balance, grant_weight. rewrite (Hd Hboth), Hcl.
    rewrite decide_True by done. simpl. lia.
Qed.

Lemma data_branch_spec s tail :
  queues_wf s -> cursor_wf (cursor s) -> dataWaiting s = true ->
  exists r k, match nextDataLocked s with
              | Some (Some request, s') =>
                  Some (Some request, set_cursor (set_controlBurst 0 (cursor s')) s')
              | Some (None, s') => tail s'
              | None => None
              end = Some (Some r, set_cursor k (pop_queues s (rq_class r)))
              /\ next_post s r k /\ burst_post s r k.
Proof.
  intros Hq Hwf Hd.
  destruct (nextDataLocked_spec s Hq Hwf Hd) as (r&k&->&Hcl&Hh&(Hi&Ho&_)&Hcb&Hbal).
  exists r, (set_controlBurst 0 k). split; [reflexivity|]. unfold next_post, burst_post.
  rewrite decide_False by (destruct Hcl as [-> |[-> | ->]]; done).
  split_and!; done.
Qed.

(** The scheduler always finds a request when one is queued, takes the first
    of its class and changes nothing else but the cursor. *)
Lemma nextLocked_spec s :
  queues_wf s -> cursor_wf (cursor s) -> work_waiting s = true ->
  exists r k, nextLocked s = Some (Some r, set_cursor k (pop_queues s (rq_class r)))
              /\ next_post s r k /\ burst_post s r k.
Proof.
  intros Hq Hwf Hw. unfold nextLocked. fold (dataWaiting s).
  destruct (nonempty (queue s ClassControl)) eqn:Hctl; cbn [andb].
  - destruct (_ || _) eqn:Hgate.
    + apply popControl_spec; try done. intros Hd. rewrite Hd, orb_false_r in Hgate.
      by apply Z.ltb_lt.
    + apply orb_false_iff in Hgate as [_ Hd]. apply negb_false_iff in Hd. rewrite Hd.
      by apply data_branch_spec.
  - unfold work_waiting in Hw. rewrite Hctl, orb_false_r in Hw. rewrite Hw.
    by apply data_branch_spec.
Qed.

Lemma nextLocked_idle s : work_waiting s = false -> nextLocked s = Some (None, s).
Proof.
  unfold work_waiting, nextLocked, dataWaiting. intros [Hd Hc]%orb_false_iff.
  by rewrite Hd, Hc.
Qed.
