(* ===== verification/SchedulerSys.v ===== *)
(** The scheduler as a concurrent system: the callers of [Send], the pump
    goroutine and [Close] interleave the critical sections of Scheduler.v.
    The invariant gives the byte caps, the order of each class, the absence of
    lost wake-ups and what an answer of [Send] means. *)

From S2P Require Import Prelude Lanes Scheduler SchedulerDRR.
#[local] Open Scope Z_scope.

(** * The system *)

(** The pump between its critical sections.
    [agent/internal/multilane/scheduler.go:184-217] pump *)
Inductive pump_state : Type :=
| PRun                                        (* about to lock *)
| PWriting (r : sendRequest)                  (* inside s.writer *)
| PAnswer (r : sendRequest) (err : option sched_error)  (* about to send on done *)
| PWait (epoch : nat)                         (* blocked on a notify channel *)
| PExit.

(** A pending call of [Send]; [final] marks the receives that no longer watch
    the context.  A returned call keeps the request it had, if any.
    [agent/internal/multilane/scheduler.go:95-169] Send *)
Inductive call_state : Type :=
| CAdmit (final : bool)
| CQueued (rq : nat) (final : bool)
| CReturned (rq : option nat) (err : option sched_error).

Record call := mkCall {
  cl_class : TrafficClass; cl_kind : Kind; cl_payload : bytes; cl_state : call_state }.

(** [calls] is keyed by the pointer the first critical section allocated;
    [written] lists the requests handed to the writer and [accepted] those
    for which it returned nil, oldest first. *)
Record sys := mkSys {
  sch : Scheduler; pump : pump_state; calls : gmap nat call;
  written : list sendRequest; accepted : list sendRequest }.

Definition sys0 : sys := mkSys NewScheduler PRun empty [] [].

Inductive event : Type :=
| ECall (ctx_err : bool) (class : TrafficClass) (kind : Kind) (payload : bytes)
| EReady (k : nat)         (* receive on waiter.ready *)
| ECancelAdmit (k : nat)   (* ctx.Done() in the first select *)
| EDone (k : nat)          (* receive on request.done *)
| ECancelQueued (k : nat)  (* ctx.Done() in the second select *)
| EPumpLock                (* the pump's critical section before the writer *)
| EWriter (err : option Z) (* the writer returns *)
| EAnswer                  (* request.done <- err *)
| EWake                    (* <-changed *)
| EClose.

Definition set_sch s' (x : sys) : sys :=
  mkSys s' (pump x) (calls x) (written x) (accepted x).
Definition set_pump p (x : sys) : sys :=
  mkSys (sch x) p (calls x) (written x) (accepted x).
Definition set_call k (c : call) (st : call_state) (x : sys) : sys :=
  mkSys (sch x) (pump x)
    (<[k := mkCall (cl_class c) (cl_kind c) (cl_payload c) st]> (calls x))
    (written x) (accepted x).

(** One event, [None] when it is not enabled.
    [agent/internal/multilane/scheduler.go:95-217] Send *)
Definition exec (e : event) (x : sys) : option sys :=
  let s := sch x in
  match e with
  | ECall ctx_err class kind payload =>
      match send_begin s ctx_err class kind payload with
      | (SendReturned _, s') => Some (set_sch s' x)
      | (SendEnqueued rq, s') =>
          Some (set_call rq (mkCall class kind payload (CAdmit false)) (CQueued rq false)
                  (set_sch s' x))
      | (SendWaiting aw, s') =>
          Some (set_call aw (mkCall class kind payload (CAdmit false)) (CAdmit false)
                  (set_sch s' x))
      end
  | EReady k =>
      c ← calls x !! k;
      match cl_state c, ready s !! k with
      | CAdmit _, Some (inl err) => Some (set_call k c (CReturned None (Some err)) x)
      | CAdmit _, Some (inr rq) => Some (set_call k c (CQueued rq false) x)
      | _, _ => None
      end
  | ECancelAdmit k =>
      c ← calls x !! k;
      match cl_state c with
      | CAdmit false =>
          match send_cancel_admission s (cl_class c) k with
          | (true, s') => Some (set_call k c (CReturned None (Some CtxErr)) (set_sch s' x))
          | (false, s') => Some (set_call k c (CAdmit true) (set_sch s' x))
          end
      | _ => None
      end
  | EDone k =>
      c ← calls x !! k;
      match cl_state c with
      | CQueued rq _ =>
          err ← done s !! rq; Some (set_call k c (CReturned (Some rq) err) x)
      | _ => None
      end
  | ECancelQueued k =>
      c ← calls x !! k;
      match cl_state c with
      | CQueued rq false =>
          match send_cancel_queued s (cl_class c) rq with
          | (true, s') => Some (set_call k c (CReturned (Some rq) (Some CtxErr)) (set_sch s' x))
          | (false, s') => Some (set_call k c (CQueued rq true) (set_sch s' x))
          end
      | _ => None
      end
  | EPumpLock =>
      match pump x, terminal s with
      | PRun, Some _ => Some (set_pump PExit x)
      | PRun, None =>
          match pump_take s with
          | Some (Some r, s') =>
              Some (mkSys s' (PWriting r) (calls x) (written x ++ [r]) (accepted x))
          | Some (None, s') => Some (set_pump (PWait (notify s')) (set_sch s' x))
          | None => None
          end
      | _, _ => None
      end
  | EWriter err =>
      match pump x with
      | PWriting r =>
          let err' := WriterErr <$> err in
          Some (mkSys (pump_finish s r err') (PAnswer r err') (calls x) (written x)
                  (if err is None then accepted x ++ [r] else accepted x))
      | _ => None
      end
  | EAnswer =>
      match pump x with
      | PAnswer r err => Some (set_pump PRun (set_sch (pump_answer s r err) x))
      | _ => None
      end
  | EWake =>
      match pump x with
      | PWait n => if decide (n = notify s) then None else Some (set_pump PRun x)
      | _ => None
      end
  | EClose => Some (set_sch (Close s) x)
  end.

Fixpoint execs (es : list event) (x : sys) : option sys :=
  match es with
  | [] => Some x
  | e :: es => x' ← exec e x; execs es x'
  end.

Inductive reachable : sys -> Prop :=
| reach_init : reachable sys0
| reach_step e x x' : reachable x -> exec e x = Some x' -> reachable x'.

Lemma execs_reachable es x x' : reachable x -> execs es x = Some x' -> reachable x'.
Proof.
  revert x. induction es as [|e es IH]; simpl; intros x Hr Hx; [by simplify_eq|].
  apply bind_Some in Hx as (y&He&Hx). eapply IH; [|done]. by eapply reach_step.
Qed.

(** * Bytes, caps and cursors: the invariant of the scheduler's own state *)

Definition qsum (l : list sendRequest) : Z := foldr (fun r a => rsize r + a) 0 l.

Lemma qsum_app l1 l2 : qsum (l1 ++ l2) = qsum l1 + qsum l2.
Proof. induction l1; simpl; lia. Qed.

Definition active_size (s : Scheduler) (c : TrafficClass) : Z :=
  match active s with
  | Some r => if decide (rq_class r = c) then rsize r else 0
  | None => 0
  end.

Definition waiter_ok (c : TrafficClass) (w : admissionWaiter) : Prop :=
  aw_class w = c /\ exists cap, classCap c = Some cap /\ 1 <= len (aw_payload w) <= cap.

Record core (s : Scheduler) : Prop := {
  core_queues : queues_wf s;
  core_waiters : forall c, Forall (waiter_ok c) (waiters s c);
  core_cursor : cursor_wf (cursor s);
  core_active : forall r, active s = Some r -> request_ok (rq_class r) r;
  core_bytes : forall c, admitted s c = qsum (queue s c) + active_size s c;
  core_cap : forall c, admitted s c <= default 0 (classCap c);
  core_terminal : is_Some (terminal s) -> forall c, queue s c = [] /\ waiters s c = [] }.

(** The first waiter of a class does not fit: nobody waits in vain. *)
Definition blocked_at (s : Scheduler) (c : TrafficClass) : Prop :=
  forall w ws, waiters s c = w :: ws ->
    default 0 (classCap c) < admitted s c + len (aw_payload w).

Lemma mlookup_insert {A} (d : A) (m : gmap byte A) k v k' :
  mlookup d (<[k := v]> m) k' = if decide (k = k') then v else mlookup d m k'.
Proof. unfold mlookup. rewrite lookup_insert. by case_decide. Qed.

Lemma waiters_insert s c ws c' :
  waiters (set_waiters (<[c := ws]> (admissionWaiters s)) s) c' =
  if decide (c = c') then ws else waiters s c'.
Proof. apply mlookup_insert. Qed.

Lemma admitted_insert s c v c' :
  admitted (set_sbytes (<[c := v]> (sbytes s)) s) c' =
  if decide (c = c') then v else admitted s c'.
Proof. apply mlookup_insert. Qed.

(** The effect of [enqueueLocked], field by field. *)
Lemma enqueue_effect s c k p r s' :
  enqueueLocked s c k p = (r, s') ->
  r = mkRequest (fresh s) c k p
  /\ (forall c', queue s' c' = if decide (c = c') then queue s c ++ [r] else queue s c')
  /\ (forall c', admitted s' c' = if decide (c = c') then admitted s c + rsize r else admitted s c')
  /\ (forall c', waiters s' c' = waiters s c') /\ notify s' = S (notify s)
  /\ terminal s' = terminal s /\ active s' = active s /\ cursor s' = cursor s
  /\ ready s' = ready s /\ done s' = done s /\ fresh s' = S (fresh s).
Proof.
  unfold enqueueLocked. intros [= <- <-]. split_and!; try done.
  - intros c'. apply mlookup_insert.
  - intros c'. apply mlookup_insert.
Qed.

Lemma core_set_ready m s : core s -> core (set_ready m s).
Proof. intros []; constructor; done. Qed.
Lemma core_set_done m s : core s -> core (set_done m s).
Proof. intros []; constructor; done. Qed.
Lemma core_signal s : core s -> core (signalLocked s).
Proof. intros []; constructor; done. Qed.

Lemma core_enqueue s c k p r s' :
  enqueueLocked s c k p = (r, s') -> core s -> terminal s = None ->
  (exists cap, classCap c = Some cap /\ 1 <= len p /\ admitted s c + len p <= cap) -> core s'.
Proof.
  intros (->&Hq&Ha&Hw&Hn&Ht&Hact&Hcur&_)%enqueue_effect [] Hterm (cap&Hcap&Hlen&Hfit).
  assert (forall r, request_ok c r -> 0 <= rsize r) as Hpos.
  { intros r (_&?&_&?). lia. }
  assert (forall l, Forall (request_ok c) l -> 0 <= qsum l) as Hqs.
  { intros l. induction 1 as [|x l Hx _ IH]; simpl; [done|]. specialize (Hpos x Hx). lia. }
  assert (request_ok c (mkRequest (fresh s) c k p)) as Hok.
  { split; [done|]. exists cap. split; [done|]. unfold rsize; simpl.
    pose proof (core_bytes0 c) as Hb. specialize (Hqs _ (core_queues0 c)).
    assert (0 <= active_size s c); [|lia]. unfold active_size. case_match; [|done].
    case_decide; [subst|done]. eapply Hpos, core_active0. done. }
  constructor; try (by rewrite ?Hcur, ?Hterm, ?Ht).
  - intros c'. rewrite Hq. case_decide; [subst|done]. by apply Forall_app_2; [|constructor].
  - intros c'. rewrite Hw. done.
  - rewrite Hact. done.
  - intros c'. rewrite Hq, Ha. unfold active_size. rewrite Hact. fold (active_size s c').
    case_decide; [subst|done]. rewrite qsum_app, core_bytes0. simpl. lia.
  - intros c'. rewrite Ha. case_decide; [subst|done]. by rewrite Hcap.
  - rewrite Ht, Hterm. by intros [? [=]].
Qed.

Lemma core_set_waiters s c ws :
  core s -> terminal s = None -> Forall (waiter_ok c) ws ->
  core (set_waiters (<[c := ws]> (admissionWaiters s)) s).
Proof.
  intros [] Hterm Hws. constructor; try done.
  - intros c'. rewrite waiters_insert. case_decide; [by subst|done].
  - simpl. rewrite Hterm. by intros [? [=]].
Qed.

Lemma core_set_cursor s k : core s -> cursor_wf k -> core (set_cursor k s).
Proof. intros [] ?. constructor; done. Qed.

Lemma core_reset s c : core s -> core (resetEmptyLaneLocked s c).
Proof.
  intros Hs. destruct (resetEmptyLane_post s c) as (k&->&Hk&_).
  apply core_set_cursor; [done|]. apply Hk, Hs.
Qed.

(** ** Admission *)

Definition admit_one (s : Scheduler) (c : TrafficClass) (w : admissionWaiter)
    (ws : list admissionWaiter) : Scheduler :=
  let '(r, s) := enqueueLocked (set_waiters (<[c := ws]> (admissionWaiters s)) s)
                   (aw_class w) (aw_kind w) (aw_payload w) in
  set_ready (<[aw_id w := inr (rq_id r)]> (ready s)) s.

Lemma admit_loop_set_waiters cap c ws m s :
  admit_loop cap c ws (set_waiters m s) =
  let '(ws', s') := admit_loop cap c ws s in (ws', set_waiters m s').
Proof.
  revert s. induction ws as [|w ws IH]; intros s; [done|]. cbn [admit_loop].
  change (admitted (set_waiters m s) c) with (admitted s c).
  destruct (_ <=? _); [|done]. unfold enqueueLocked. rewrite <- IH. done.
Qed.

Lemma admit_loop_waiters cap c ws s :
  admissionWaiters (admit_loop cap c ws s).2 = admissionWaiters s.
Proof.
  revert s. induction ws as [|w ws IH]; intros s; [done|]. cbn [admit_loop].
  destruct (_ <=? _); [|done]. unfold enqueueLocked. by rewrite IH.
Qed.

Lemma admitWaiters_cons s c w ws :
  waiters s c = w :: ws ->
  admitted s c + len (aw_payload w) <= default 0 (classCap c) ->
  admitWaitersLocked s c = admitWaitersLocked (admit_one s c w ws) c.
Proof.
  intros Hw Hfit. unfold admitWaitersLocked. rewrite Hw. cbn [admit_loop].
  rewrite (proj2 (Z.leb_le _ _) Hfit).
  assert (waiters (admit_one s c w ws) c = ws) as ->.
  { unfold admit_one. simpl. unfold waiters; simpl. by rewrite mlookup_insert, decide_True. }
  unfold admit_one, enqueueLocked. simpl.
  set (s1 := set_ready _ _). set (m := <[c:=ws]> (admissionWaiters s)).
  match goal with |- context [admit_loop ?a ?b ?d ?e] => match e with
    | s1 => fail 1 | _ => change e with (set_waiters m s1) end end.
  rewrite admit_loop_set_waiters.
  pose proof (admit_loop_waiters (default 0 (classCap c)) c ws s1) as Hm.
  destruct (admit_loop _ _ _ _) as [ws' s']. simpl in *.
  unfold set_waiters; simpl. rewrite Hm. subst m. by rewrite insert_insert_eq.
Qed.

Lemma admitWaiters_stop s c :
  blocked_at s c ->
  admitWaitersLocked s c = set_waiters (<[c := waiters s c]> (admissionWaiters s)) s.
Proof.
  intros Hb. unfold admitWaitersLocked. destruct (waiters s c) as [|w ws] eqn:Hw; [done|].
  cbn [admit_loop]. specialize (Hb w ws Hw). by rewrite (proj2 (Z.leb_gt _ _) Hb).
Qed.

(** Induction over the admissions [admitWaitersLocked] makes. *)
Lemma admitWaiters_ind (P : Scheduler -> Prop) c :
  (forall s w ws, waiters s c = w :: ws ->
     admitted s c + len (aw_payload w) <= default 0 (classCap c) ->
     P s -> P (admit_one s c w ws)) ->
  forall s, P s ->
  exists s', admitWaitersLocked s c = set_waiters (<[c := waiters s' c]> (admissionWaiters s')) s'
             /\ P s' /\ blocked_at s' c.
Proof.
  intros Hstep s. remember (waiters s c) as ws eqn:Hws. revert s Hws.
  induction ws as [|w ws IH]; intros s Hws HP.
  { exists s. split; [apply admitWaiters_stop|split; [done|]]; intros w ws Hw; congruence. }
  destruct (decide (admitted s c + len (aw_payload w) <= default 0 (classCap c))) as [Hfit|Hno].
  - rewrite (admitWaiters_cons s c w ws) by done. apply IH; [|by apply Hstep].
    unfold admit_one, waiters; simpl. by rewrite mlookup_insert, decide_True.
  - assert (blocked_at s c) as Hb.
    { intros w' ws' Hw'. rewrite <- Hws in Hw'. simplify_eq. lia. }
    exists s. split; [by apply admitWaiters_stop|done].
Qed.

Lemma waiters_reinsert s c c' :
  waiters (set_waiters (<[c := waiters s c]> (admissionWaiters s)) s) c' = waiters s c'.
Proof. rewrite waiters_insert. by case_decide; subst. Qed.

Lemma core_admit_one s c w ws :
  waiters s c = w :: ws -> admitted s c + len (aw_payload w) <= default 0 (classCap c) ->
  core s -> core (admit_one s c w ws).
Proof.
  intros Hw Hfit Hs. pose proof (core_waiters _ Hs c) as Hok. rewrite Hw in Hok.
  apply Forall_cons_1 in Hok as [(Hcl&cap&Hcap&Hlen) Hws].
  assert (terminal s = None) as Ht.
  { apply eq_None_not_Some. intros Ht. destruct (core_terminal _ Hs Ht c). congruence. }
  unfold admit_one. destruct (enqueueLocked _ _ _ _) as [r s'] eqn:He.
  apply core_set_ready. eapply core_enqueue; [exact He|by apply core_set_waiters|done|].
  rewrite Hcl. exists cap. rewrite Hcap in Hfit. simpl in Hfit. split_and!; [done|lia|done].
Qed.

Lemma core_waiters_ext s m :
  core s -> (forall c, waiters (set_waiters m s) c = waiters s c) -> core (set_waiters m s).
Proof.
  intros [] Hw. constructor; try done; [intros c; by rewrite Hw|].
  intros Ht c. rewrite Hw. by apply core_terminal0.
Qed.

(** Admission ends with the first waiter of the class blocked again. *)
Lemma core_admitWaiters s c : core s -> core (admitWaitersLocked s c).
Proof.
  intros Hs.
  assert (exists s', admitWaitersLocked s c
    = set_waiters (<[c := waiters s' c]> (admissionWaiters s')) s' /\ core s' /\ blocked_at s' c)
    as (s'&->&Hs'&_) by (apply admitWaiters_ind; [|done]; intros; by apply core_admit_one).
  apply core_waiters_ext; [done|]. apply waiters_reinsert.
Qed.

(** ** Removal *)

Lemma remove_first_spec {A} (p : A -> bool) l x l' :
  remove_first p l = Some (x, l') ->
  exists l1 l2, l = l1 ++ x :: l2 /\ l' = l1 ++ l2 /\ p x = true.
Proof.
  revert l'. induction l as [|y l IH]; simpl; intros l'; [done|].
  destruct (p y) eqn:Hp.
  - intros [= <- <-]. by exists [], l.
  - intros ([z l'']&Hr&[= -> <-])%bind_Some.
    destruct (IH _ Hr) as (l1&l2&->&->&?). by exists (y :: l1), l2.
Qed.

Lemma remove_first_none {A} (p : A -> bool) l :
  remove_first p l = None -> Forall (fun x => p x = false) l.
Proof.
  induction l as [|y l IH]; simpl; [constructor|].
  destruct (p y) eqn:Hp; [done|]. intros Hr. constructor; [done|]. apply IH.
  destruct (remove_first p l) as [[??]|]; done.
Qed.

(** Removing the request [r] from its queue and its bytes from the account. *)
Definition drop_request (s : Scheduler) (c : TrafficClass) (q : list sendRequest)
    (r : sendRequest) (k : drr) : Scheduler :=
  set_sbytes (<[c := admitted s c - rsize r]> (sbytes s))
    (set_cursor k (set_queues (<[c := q]> (queues s)) s)).

Lemma core_drop_request s c l1 r l2 k :
  core s -> queue s c = l1 ++ r :: l2 -> cursor_wf k -> core (drop_request s c (l1 ++ l2) r k).
Proof.
  intros [] Hq Hk. pose proof (core_queues0 c) as Hall. rewrite Hq in Hall.
  apply Forall_app in Hall as [H1 H2]. apply Forall_cons_1 in H2 as [(_&?&_&?) H2].
  assert (forall c', queue (drop_request s c (l1 ++ l2) r k) c'
                     = if decide (c = c') then l1 ++ l2 else queue s c') as Hqs
    by (intros; apply mlookup_insert).
  assert (forall c', admitted (drop_request s c (l1 ++ l2) r k) c'
                     = if decide (c = c') then admitted s c - rsize r else admitted s c') as Has
    by (intros; apply mlookup_insert).
  constructor; try done.
  - intros c'. rewrite Hqs. case_decide; [subst; by apply Forall_app|done].
  - intros c'. rewrite Hqs, Has. change (active_size (drop_request _ _ _ _ _)) with (active_size s).
    rewrite !core_bytes0. case_decide; [subst|done].
    rewrite Hq, !qsum_app. simpl. lia.
  - intros c'. rewrite Has. specialize (core_cap0 c'). case_decide; [subst; lia|done].
  - intros Ht c'. rewrite Hqs. destruct (core_terminal0 Ht c') as [Hn ?].
    case_decide; [subst|done]. rewrite Hq in Hn. by destruct l1.
Qed.

(** What [send_cancel_queued] and [send_cancel_admission] do. *)
Lemma cancel_queued_spec s c rq b s' :
  send_cancel_queued s c rq = (b, s') -> core s ->
  (b = false /\ s' = s /\ Forall (fun r => rq_id r <> rq) (queue s c))
  \/ exists l1 r l2 k, b = true /\ rq_id r = rq /\ queue s c = l1 ++ r :: l2 /\ cursor_wf k
     /\ s' = admitWaitersLocked (drop_request s c (l1 ++ l2) r k) c
     /\ reset_post (set_queues (<[c := l1 ++ l2]> (queues s)) s) k.
Proof.
  unfold send_cancel_queued, removeQueuedLocked. intros Hc Hs.
  destruct (remove_first _ _) as [[r q]|] eqn:Hr; simplify_eq/=.
  - right. apply remove_first_spec in Hr as (l1&l2&Hq&->&Hid). apply Nat.eqb_eq in Hid.
    set (s1 := set_queues (<[c := l1 ++ l2]> (queues s)) s) in *.
    assert (exists k, (if nonempty (l1 ++ l2) then s1 else resetEmptyLaneLocked s1 c)
                      = set_cursor k s1 /\ cursor_wf k /\ reset_post s1 k) as (k&Hk&Hwf&Hpost).
    { destruct (nonempty _).
      - exists (cursor s). split; [by destruct s|]. split; [apply Hs|]. done.
      - destruct (resetEmptyLane_post s1 c) as (k&->&Hk). exists k.
        split; [done|]. split; [apply Hk, Hs|done]. }
    exists l1, r, l2, k. rewrite Hk. done.
  - left. split_and!; [done..|]. apply remove_first_none in Hr.
    eapply Forall_impl; [exact Hr|]. simpl. intros r Hr'. by apply Nat.eqb_neq.
Qed.

Definition drop_waiter (s : Scheduler) (c : TrafficClass) (ws : list admissionWaiter) (k : drr)
    : Scheduler := set_cursor k (set_waiters (<[c := ws]> (admissionWaiters s)) s).

Lemma cancel_admission_spec s c aw b s' :
  send_cancel_admission s c aw = (b, s') -> core s ->
  (b = false /\ s' = s /\ Forall (fun w => aw_id w <> aw) (waiters s c))
  \/ exists l1 w l2 k, b = true /\ aw_id w = aw /\ waiters s c = l1 ++ w :: l2 /\ cursor_wf k
     /\ s' = admitWaitersLocked (drop_waiter s c (l1 ++ l2) k) c
     /\ reset_post (set_waiters (<[c := l1 ++ l2]> (admissionWaiters s)) s) k.
Proof.
  unfold send_cancel_admission, removeAdmissionWaiterLocked. intros Hc Hs.
  destruct (remove_first _ _) as [[w ws]|] eqn:Hr; simplify_eq/=.
  - right. apply remove_first_spec in Hr as (l1&l2&Hq&->&Hid). apply Nat.eqb_eq in Hid.
    set (s1 := set_waiters (<[c := l1 ++ l2]> (admissionWaiters s)) s) in *.
    assert (exists k, (if nonempty (queue s1 c) then s1 else resetEmptyLaneLocked s1 c)
                      = set_cursor k s1 /\ cursor_wf k /\ reset_post s1 k) as (k&Hk&Hwf&Hpost).
    { destruct (nonempty _).
      - exists (cursor s). split; [by destruct s|]. split; [apply Hs|]. done.
      - destruct (resetEmptyLane_post s1 c) as (k&->&Hk). exists k.
        split; [done|]. split; [apply Hk, Hs|done]. }
    exists l1, w, l2, k. rewrite Hk. done.
  - left. split_and!; [done..|]. apply remove_first_none in Hr.
    eapply Forall_impl; [exact Hr|]. simpl. intros w Hr'. by apply Nat.eqb_neq.
Qed.

Lemma core_nonterminal_waiters s c : core s -> waiters s c <> [] -> terminal s = None.
Proof.
  intros Hs Hw. apply eq_None_not_Some. intros Ht. by destruct (core_terminal _ Hs Ht c).
Qed.

Lemma core_drop_waiter s c l1 w l2 k :
  core s -> waiters s c = l1 ++ w :: l2 -> cursor_wf k -> core (drop_waiter s c (l1 ++ l2) k).
Proof.
  intros Hs Hw Hk. apply core_set_cursor; [|done]. apply core_set_waiters; [done| |].
  - eapply core_nonterminal_waiters; [done|]. rewrite Hw. by destruct l1.
  - pose proof (core_waiters _ Hs c) as H. rewrite Hw in H.
    apply Forall_app in H as [? H]. apply Forall_cons_1 in H as [_ ?]. by apply Forall_app.
Qed.

(** ** The pump's sections *)

Lemma nonempty_true {A} (l : list A) : nonempty l = true <-> l <> [].
Proof. destruct (nonempty_false l) as [H1 H2]. destruct (nonempty l); naive_solver. Qed.

Definition idle (s : Scheduler) : Prop := forall c, is_Some (classCap c) -> queue s c = [].

Lemma work_waiting_false s : work_waiting s = false <-> idle s.
Proof.
  unfold work_waiting, dataWaiting, hasMediaLocked.
  rewrite !orb_false_iff, !nonempty_false. split.
  - intros [[[H1 H2] H3] H4] c [cap Hc]. unfold classCap in Hc.
    repeat case_decide; by subst.
  - intros H. split_and!; apply H; eauto.
Qed.

Lemma pump_take_spec s :
  core s ->
  (work_waiting s = false /\ pump_take s = Some (None, s))
  \/ exists r k, work_waiting s = true
     /\ pump_take s = Some (Some r, set_active (Some r) (set_cursor k (pop_queues s (rq_class r))))
     /\ next_post s r k /\ burst_post s r k.
Proof.
  intros Hs. unfold pump_take. destruct (work_waiting s) eqn:Hw.
  - right. destruct (nextLocked_spec s) as (r&k&->&?&?); [apply Hs|apply Hs|done|eauto 10].
  - left. by rewrite nextLocked_idle.
Qed.

Lemma core_take s r k :
  core s -> active s = None -> next_post s r k ->
  core (set_active (Some r) (set_cursor k (pop_queues s (rq_class r)))).
Proof.
  intros Hs Ha (Hh&Hk&_). pose proof (queues_head_ok _ _ _ (core_queues _ Hs) Hh) as Hr.
  destruct Hs. destruct (queue s (rq_class r)) as [|r' q] eqn:Hq; [done|]. simplify_eq/=.
  set (s' := set_active _ _).
  assert (forall c', queue s' c' = if decide (rq_class r = c') then q else queue s c') as Hqs.
  { intros c'. unfold s', pop_queues. rewrite Hq. apply mlookup_insert. }
  constructor; try done.
  - intros c'. rewrite Hqs. case_decide; [subst|done].
    specialize (core_queues0 (rq_class r)). rewrite Hq in core_queues0. by inversion core_queues0.
  - intros r' [= <-]. done.
  - intros c'. rewrite Hqs. change (admitted s' c') with (admitted s c').
    rewrite core_bytes0. unfold active_size. rewrite Ha. simpl.
    case_decide; [subst|done]. rewrite Hq. simpl. lia.
  - intros Ht c'. destruct (core_terminal0 Ht (rq_class r)). congruence.
Qed.

(** ** Failing everything *)

Lemma foldr_insert_lookup {A B} (f : A -> nat) (v : B) (m : gmap nat B) l i :
  foldr (fun x m => <[f x := v]> m) m l !! i
  = if decide (i ∈ f <$> l) then Some v else m !! i.
Proof.
  induction l as [|x l IH].
  { case_decide as Hi; [|done]. by apply elem_of_nil in Hi. }
  cbn [foldr]. rewrite lookup_insert, IH. destruct (decide (f x = i)) as [Hx|Hne].
  - by rewrite decide_True by (rewrite fmap_cons; set_solver).
  - apply decide_ext. rewrite fmap_cons. set_solver.
Qed.

Lemma elem_of_fail_waiters (m : gmap byte (list admissionWaiter)) w :
  w ∈ concat (snd <$> map_to_list m) <-> exists c, w ∈ mlookup [] m c.
Proof.
  rewrite list_elem_of_In, in_concat. setoid_rewrite <- list_elem_of_In. split.
  - intros (l&([c l']&->&Hl)%list_elem_of_fmap&Hw). apply elem_of_map_to_list in Hl.
    exists c. unfold mlookup. by rewrite Hl.
  - intros (c&Hw). unfold mlookup in Hw. destruct (m !! c) as [l|] eqn:Hl; [|by inversion Hw].
    exists l. split; [|done]. apply list_elem_of_fmap. exists (c, l). split; [done|].
    by apply elem_of_map_to_list.
Qed.

Lemma elem_of_fail_queued (m : gmap byte (list sendRequest)) c r :
  (c, r) ∈ ('(c, q) ← map_to_list m; (c,.) <$> q) <-> r ∈ mlookup [] m c.
Proof.
  rewrite list_elem_of_bind. split.
  - intros ([c' q]&Hr&Hq). apply list_elem_of_fmap in Hr as (r'&[= -> ->]&Hr).
    apply elem_of_map_to_list in Hq. unfold mlookup. by rewrite Hq.
  - intros Hr. unfold mlookup in Hr. destruct (m !! c) as [q|] eqn:Hq; [|by inversion Hr].
    exists (c, q). split; [|by apply elem_of_map_to_list].
    apply list_elem_of_fmap. by exists r.
Qed.

Lemma mlookup_fmap_nil {A} (m : gmap byte (list A)) c :
  mlookup [] ((fun _ => [] : list A) <$> m) c = [].
Proof. unfold mlookup. rewrite lookup_fmap. by destruct (m !! c). Qed.

Lemma failWaiters_ready s e i :
  ((exists c w, w ∈ waiters s c /\ aw_id w = i)
   /\ ready (failAdmissionWaitersLocked s e) !! i = Some (inl e))
  \/ ((forall c w, w ∈ waiters s c -> aw_id w <> i)
     /\ ready (failAdmissionWaitersLocked s e) !! i = ready s !! i).
Proof.
  simpl. rewrite foldr_insert_lookup. case_decide as Hi; [left|right]; (split; [|done]).
  - apply list_elem_of_fmap in Hi as (w&->&(c&?)%elem_of_fail_waiters). eauto.
  - intros c w Hw <-. apply Hi, list_elem_of_fmap. exists w. split; [done|].
    apply elem_of_fail_waiters. eauto.
Qed.

Lemma failQueued_done s e i :
  ((exists c r, r ∈ queue s c /\ rq_id r = i)
   /\ done (failQueuedLocked s e) !! i = Some (Some e))
  \/ ((forall c r, r ∈ queue s c -> rq_id r <> i)
     /\ done (failQueuedLocked s e) !! i = done s !! i).
Proof.
  simpl.
  assert (forall l, foldr (fun '(_, r) m => <[rq_id r := Some e]> m) (done s) l
                    = foldr (fun x m => <[rq_id x.2 := Some e]> m) (done s) l) as ->.
  { intros l. induction l as [|[? ?] l IH]; simpl; congruence. }
  rewrite foldr_insert_lookup. case_decide as Hi; [left|right]; (split; [|done]).
  - apply list_elem_of_fmap in Hi as ([c r]&->&?%elem_of_fail_queued). eauto.
  - intros c r Hr <-. apply Hi, list_elem_of_fmap. exists (c, r). split; [done|].
    by apply elem_of_fail_queued.
Qed.

Definition csum (c : TrafficClass) (rs : list (TrafficClass * sendRequest)) : Z :=
  foldr (fun '(c', r) a => if decide (c' = c) then rsize r + a else a) 0 rs.

Lemma csum_app c l1 l2 : csum c (l1 ++ l2) = csum c l1 + csum c l2.
Proof.
  induction l1 as [|[c' r] l1 IH]; [done|]. cbn [csum foldr app]. fold (csum c (l1 ++ l2)).
  fold (csum c l1). case_decide; lia.
Qed.

Lemma csum_fmap c c' q : csum c ((c',.) <$> q) = if decide (c' = c) then qsum q else 0.
Proof.
  induction q as [|r q IH]; [by simpl; case_decide|]. rewrite fmap_cons.
  change (csum c ((c', r) :: ((c',.) <$> q)))
    with (if decide (c' = c) then rsize r + csum c ((c',.) <$> q) else csum c ((c',.) <$> q)).
  rewrite IH. by case_decide.
Qed.

Lemma csum_flatten c (L : list (TrafficClass * list sendRequest)) :
  NoDup L.*1 ->
  (c ∉ L.*1 -> csum c ('(c, q) ← L; (c,.) <$> q) = 0)
  /\ forall q, (c, q) ∈ L -> csum c ('(c, q) ← L; (c,.) <$> q) = qsum q.
Proof.
  induction L as [|[c' q'] L IH]; csimpl.
  { intros _. split; [done|]. intros q Hq. inversion Hq. }
  intros [Hn Hd]%NoDup_cons. destruct (IH Hd) as [IH0 IH1]. rewrite csum_app, csum_fmap.
  split.
  - intros Hc. rewrite decide_False by set_solver. rewrite IH0 by set_solver. done.
  - intros q [[= <- <-]|Hq]%elem_of_cons.
    + rewrite decide_True, IH0 by done. lia.
    + rewrite decide_False, (IH1 q Hq); [done|]. intros ->. apply Hn.
      apply list_elem_of_fmap. by exists (c, q).
Qed.

Lemma failQueued_admitted s e c :
  admitted (failQueuedLocked s e) c = admitted s c - qsum (queue s c).
Proof.
  unfold admitted. simpl. set (rs := _ ≫= _).
  assert (forall l, mlookup 0 (foldr (fun '(class, r) m =>
     <[class := mlookup 0 m class - rsize r]> m) (sbytes s) l) c = mlookup 0 (sbytes s) c - csum c l)
    as ->.
  { intros l. induction l as [|[c' r] l IH]; simpl; [lia|]. fold (csum c l).
    rewrite mlookup_insert. case_decide; subst; lia. }
  f_equal. subst rs.
  destruct (csum_flatten c (map_to_list (queues s)) (NoDup_fst_map_to_list _)) as [H0 H1].
  unfold queue, mlookup. destruct (queues s !! c) as [q|] eqn:Hq; simpl.
  - apply H1. by apply elem_of_map_to_list.
  - apply H0. intros ([c' q]&->&Hin)%list_elem_of_fmap.
    apply elem_of_map_to_list in Hin. simpl in Hq. congruence.
Qed.

Definition fail_all (s : Scheduler) (e : sched_error) : Scheduler :=
  failQueuedLocked (failAdmissionWaitersLocked (set_terminal (Some e) s) e) e.

Lemma core_fail_all s e : core s -> core (fail_all s e).
Proof.
  intros []. set (s' := fail_all s e).
  assert (forall c, queue s' c = []) as Hq by (intros; apply mlookup_fmap_nil).
  assert (forall c, waiters s' c = []) as Hw by (intros; apply mlookup_fmap_nil).
  assert (forall c, admitted s' c = admitted s c - qsum (queue s c)) as Ha
    by (intros; etransitivity; [apply failQueued_admitted|done]).
  constructor; try done.
  - intros c. by rewrite Hq.
  - intros c. by rewrite Hw.
  - intros c. rewrite Ha, Hq, core_bytes0. change (active_size s') with (active_size s).
    simpl. lia.
  - intros c. rewrite Ha. specialize (core_cap0 c).
    assert (0 <= qsum (queue s c)); [|lia]. specialize (core_queues0 c).
    induction core_queues0 as [|r l (_&?&_&?) _ IH]; simpl; lia.
Qed.

(** The request leaves the writer: it is no longer active and gives its bytes back. *)
Definition finish_base (s : Scheduler) (r : sendRequest) : Scheduler :=
  set_sbytes (<[rq_class r := admitted s (rq_class r) - rsize r]> (sbytes s)) (set_active None s).

Lemma core_finish_base s r : core s -> active s = Some r -> core (finish_base s r).
Proof.
  intros [] Ha. set (s' := finish_base s r).
  assert (forall c, admitted s' c
            = if decide (rq_class r = c) then admitted s (rq_class r) - rsize r else admitted s c)
    as Has by (intros; apply mlookup_insert).
  destruct (core_active0 r Ha) as (_&?&_&?).
  constructor; try done.
  - intros c. rewrite Has. change (queue s' c) with (queue s c).
    change (active_size s' c) with 0. rewrite !core_bytes0. unfold active_size. rewrite Ha.
    case_decide; [subst; rewrite decide_True by done|]; lia.
  - intros c. rewrite Has. pose proof (core_cap0 c). case_decide; [subst; lia|done].
Qed.

Lemma pump_finish_eq s r err :
  pump_finish s r err = signalLocked
    match err, terminal s with
    | Some e, None => fail_all (finish_base s r) e
    | None, None => admitWaitersLocked (finish_base s r) (rq_class r)
    | _, Some _ => finish_base s r
    end.
Proof. done. Qed.

Lemma core_finish s r err : core s -> active s = Some r -> core (pump_finish s r err).
Proof.
  intros Hs Ha. rewrite pump_finish_eq. apply core_signal.
  pose proof (core_finish_base s r Hs Ha) as Hb.
  destruct err as [e|], (terminal s); try done; [by apply core_fail_all|].
  by apply core_admitWaiters.
Qed.

Lemma Close_eq s :
  Close s = match terminal s with
            | Some _ => s
            | None => signalLocked (fail_all s ErrSchedulerClosed)
            end.
Proof. done. Qed.

Lemma core_Close s : core s -> core (Close s).
Proof.
  intros Hs. rewrite Close_eq. destruct (terminal s); [done|].
  by apply core_signal, core_fail_all.
Qed.

(** ** The system invariant: caps, blocked waiters, no lost wake-up *)

(** What [admitWaitersLocked] leaves alone. *)
Definition admit_frame (c : TrafficClass) (s s' : Scheduler) : Prop :=
  (forall c', c' <> c -> queue s' c' = queue s c' /\ waiters s' c' = waiters s c'
                         /\ admitted s' c' = admitted s c')
  /\ (notify s <= notify s')%nat
  /\ (notify s' = notify s -> queue s' c = queue s c)
  /\ terminal s' = terminal s /\ active s' = active s /\ cursor s' = cursor s
  /\ (fresh s <= fresh s')%nat.

Lemma admit_one_effect s c w ws :
  waiter_ok c w ->
  let r := mkRequest (fresh s) c (aw_kind w) (aw_payload w) in
  let s' := admit_one s c w ws in
  (forall c', queue s' c' = if decide (c = c') then queue s c ++ [r] else queue s c')
  /\ (forall c', waiters s' c' = if decide (c = c') then ws else waiters s c')
  /\ (forall c', admitted s' c' = if decide (c = c') then admitted s c + rsize r else admitted s c')
  /\ notify s' = S (notify s) /\ terminal s' = terminal s /\ active s' = active s
  /\ cursor s' = cursor s /\ ready s' = <[aw_id w := inr (fresh s)]> (ready s)
  /\ done s' = done s /\ fresh s' = S (fresh s).
Proof.
  intros [Hcl _]. unfold admit_one. rewrite Hcl.
  destruct (enqueueLocked _ _ _ _) as [r s'] eqn:He.
  apply enqueue_effect in He as (->&Hq&Ha&Hw&Hn&Ht&Hact&Hcur&Hr&Hd&Hf). simpl.
  split_and!; try done.
  - intros c'. etransitivity; [apply Hw|]. apply mlookup_insert.
  - by rewrite Hr.
Qed.

Lemma admitWaiters_frame s c : core s -> admit_frame c s (admitWaitersLocked s c)
                                         /\ blocked_at (admitWaitersLocked s c) c.
Proof.
  intros Hs.
  assert (exists s', admitWaitersLocked s c
    = set_waiters (<[c := waiters s' c]> (admissionWaiters s')) s'
      /\ (core s' /\ admit_frame c s s') /\ blocked_at s' c) as (s'&->&[Hs' (Hf&Hn&Hq&Ht)]&Hb).
  { apply admitWaiters_ind; [|split; [done|by split_and!]].
    intros s1 w ws Hw Hfit [Hs1 (Hf&Hn&Hq&Ht&Ha&Hc&Hfr)].
    split; [by apply core_admit_one|].
    pose proof (core_waiters _ Hs1 c) as Hok. rewrite Hw in Hok.
    apply Forall_cons_1 in Hok as [Hok _].
    destruct (admit_one_effect s1 c w ws Hok) as (Eq&Ew&Ea&En&Et&Eact&Ec&_&_&Ef).
    unfold admit_frame. rewrite En, Et, Eact, Ec, Ef. split_and!; try done; [|lia..].
    intros c' Hne. rewrite Eq, Ew, Ea, !decide_False by done. by apply Hf. }
  split; [|intros w ws; rewrite waiters_reinsert; apply Hb].
  split_and!; try apply Ht; try done.
  intros c' Hne. rewrite waiters_reinsert. by apply Hf.
Qed.

Definition wake_ok (s : Scheduler) (p : pump_state) : Prop :=
  match p with
  | PWait n => (n <= notify s)%nat /\ (n = notify s -> idle s /\ terminal s = None)
  | PExit => is_Some (terminal s)
  | _ => True
  end.

Definition pump_active (p : pump_state) : option sendRequest :=
  match p with PWriting r => Some r | _ => None end.

(** The state invariant of the scheduler between critical sections. *)
Record sched_inv (s : Scheduler) (p : pump_state) : Prop := {
  inv_core : core s;
  inv_blocked : forall c, blocked_at s c;
  inv_active : active s = pump_active p;
  inv_wake : wake_ok s p }.

Lemma blocked_admit s c :
  core s -> (forall c', c' <> c -> blocked_at s c') ->
  forall c', blocked_at (admitWaitersLocked s c) c'.
Proof.
  intros Hs Hb c'. destruct (admitWaiters_frame s c Hs) as [(Hf&_) Hc].
  destruct (decide (c' = c)) as [->|Hne]; [done|].
  destruct (Hf c' Hne) as (_&Hw&Ha). unfold blocked_at. rewrite Hw, Ha. by apply Hb.
Qed.

Lemma wake_admit s c p : core s -> wake_ok s p -> wake_ok (admitWaitersLocked s c) p.
Proof.
  intros Hs Hw. destruct (admitWaiters_frame s c Hs) as [(Hf&Hn&Hq&Ht&_) _].
  destruct p; try done; simpl in *; [|by rewrite Ht].
  destruct Hw as [Hle Hw]. split; [lia|]. intros ->.
  assert (notify (admitWaitersLocked s c) = notify s) as Heq by lia.
  destruct (Hw Heq) as [Hi Hterm]. split; [|by rewrite Ht].
  intros c' Hc'. destruct (decide (c' = c)) as [->|Hne]; [rewrite Hq by done; by apply Hi|].
  destruct (Hf c' Hne) as [-> _]. by apply Hi.
Qed.

Lemma wake_stale s s' p :
  (notify s < notify s')%nat -> (is_Some (terminal s) -> is_Some (terminal s')) ->
  wake_ok s p -> wake_ok s' p.
Proof. destruct p; simpl; auto. intros ? _ [? _]. split; lia. Qed.

Lemma sched_inv_drop_waiter s p c l1 w l2 k :
  sched_inv s p -> waiters s c = l1 ++ w :: l2 -> cursor_wf k ->
  sched_inv (admitWaitersLocked (drop_waiter s c (l1 ++ l2) k) c) p.
Proof.
  intros [Hs Hb Ha Hw] Hws Hk. pose proof (core_drop_waiter s c l1 w l2 k Hs Hws Hk) as Hd.
  constructor; [by apply core_admitWaiters| | |by apply wake_admit].
  - apply blocked_admit; [done|]. intros c' Hne w' ws'.
    unfold drop_waiter. change (waiters (set_cursor ?a ?b)) with (waiters b).
    rewrite waiters_insert, decide_False by done. apply Hb.
  - destruct (admitWaiters_frame _ c Hd) as [(_&_&_&_&->&_) _]. done.
Qed.

Lemma sched_inv_drop_request s p c l1 r l2 k :
  sched_inv s p -> queue s c = l1 ++ r :: l2 -> cursor_wf k ->
  sched_inv (admitWaitersLocked (drop_request s c (l1 ++ l2) r k) c) p.
Proof.
  intros [Hs Hb Ha Hw] Hq Hk. pose proof (core_drop_request s c l1 r l2 k Hs Hq Hk) as Hd.
  constructor; [by apply core_admitWaiters| | |].
  - apply blocked_admit; [done|]. intros c' Hne w' ws'.
    change (waiters (drop_request s c (l1 ++ l2) r k)) with (waiters s).
    replace (admitted (drop_request s c (l1 ++ l2) r k) c') with (admitted s c'); [apply Hb|].
    symmetry. etransitivity; [apply mlookup_insert|]. by rewrite decide_False.
  - destruct (admitWaiters_frame _ c Hd) as [(_&_&_&_&->&_) _]. done.
  - apply wake_admit; [done|]. destruct p; try done. simpl in *. destruct Hw as [? Hw].
    split; [done|]. intros Hn. destruct (Hw Hn) as [Hi ?]. split; [|done].
    intros c' Hc'. etransitivity; [apply mlookup_insert|].
    specialize (Hi c' Hc'). case_decide; [subst|done]. rewrite Hq in Hi. by destruct l1.
Qed.

(** What the first critical section of [Send] does: it rejects the call, or
    queues the request when it fits and nobody waits, or makes it wait. *)
Lemma send_begin_spec s ctx c k p o s' :
  send_begin s ctx c k p = (o, s') ->
  (exists e, o = SendReturned e /\ s' = s)
  \/ exists cap, classCap c = Some cap /\ 1 <= len p <= cap /\ terminal s = None
     /\ ((waiters s c = [] /\ admitted s c + len p <= cap
          /\ exists r, enqueueLocked s c k p = (r, s') /\ o = SendEnqueued (fresh s))
         \/ ((waiters s c <> [] \/ cap < admitted s c + len p)
             /\ o = SendWaiting (fresh s)
             /\ s' = set_waiters (<[c := waiters s c ++ [mkWaiter (fresh s) c k p]]>
                                    (admissionWaiters s)) (set_fresh (S (fresh s)) s))).
Proof.
  unfold send_begin. pose proof (len_nonneg p). destruct (classCap c) as [cap|]; [|naive_solver].
  destruct (Z.ltb_spec cap (len p)); [naive_solver|].
  destruct (negb _ && negb _); [naive_solver|].
  destruct (Z.eqb_spec (len p) 0); [naive_solver|]. destruct ctx; [naive_solver|].
  destruct (terminal s) eqn:Ht; [naive_solver|]. intros Hb. right. exists cap.
  split_and!; [done|lia|lia|done|].
  destruct (Z.eqb_spec (len (waiters s c)) 0) as [Hz|Hz]; cbn [andb] in Hb.
  - apply len_zero_nil in Hz. destruct (Z.leb_spec (admitted s c + len p) cap).
    + left. unfold enqueueLocked in Hb |- *. simplify_eq. split_and!; [done..|].
      eexists. split; reflexivity.
    + right. simplify_eq. split_and!; [by right|done..].
  - right. simplify_eq. split_and!; try done. left. intros Hn. apply Hz. by apply len_zero_nil.
Qed.

Lemma sched_inv_begin s p ctx c k pl o s' :
  send_begin s ctx c k pl = (o, s') -> sched_inv s p -> sched_inv s' p.
Proof.
  intros [(?&_&->)|(cap&Hcap&Hlen&Ht&[(Hw&Hfit&r&He&_)|(Hno&_&->)])]%send_begin_spec
    [Hs Hb Ha Hwk]; [done| |].
  - pose proof (core_enqueue _ _ _ _ _ _ He Hs Ht) as Hs'.
    destruct (enqueue_effect _ _ _ _ _ _ He) as (->&Eq&Ea&Ew&En&Et&Eact&Ec&_).
    constructor; [apply Hs'; exists cap; split_and!; [done|lia|done]| |by rewrite Eact|].
    + intros c' w ws. rewrite Ew, Ea. case_decide; [subst; by rewrite Hw|apply Hb].
    + eapply wake_stale; [| |exact Hwk]; [lia|by rewrite Et].
  - set (s' := set_waiters _ _).
    assert (forall c', waiters s' c' = if decide (c = c') then waiters s c ++ [mkWaiter (fresh s) c k pl]
                                       else waiters s c') as Ew by (intros; apply mlookup_insert).
    constructor; [|intros c' w ws; rewrite Ew|done|by destruct p].
    + apply (core_set_waiters (set_fresh (S (fresh s)) s)); [by destruct Hs; constructor|done|].
      apply Forall_app_2; [apply (core_waiters _ Hs)|]. constructor; [|constructor].
      split; [done|]. by exists cap.
    + change (admitted s' c') with (admitted s c'). case_decide as Hc; [subst c'|apply Hb].
      rewrite Hcap. simpl. destruct (waiters s c) as [|w0 ws0] eqn:Hws; simpl.
      * intros [= <- <-]. simpl. destruct Hno; [done|lia].
      * intros [= <- <-]. specialize (Hb c w0 ws0 Hws). by rewrite Hcap in Hb.
Qed.

Lemma sched_inv_finish s r err :
  sched_inv s (PWriting r) -> sched_inv (pump_finish s r err) (PAnswer r err).
Proof.
  intros [Hs Hb Ha _]. simpl in Ha. rewrite pump_finish_eq.
  pose proof (core_finish_base s r Hs Ha) as Hf.
  constructor; [rewrite <- pump_finish_eq; by apply core_finish| | |done].
  - intros c. unfold blocked_at.
    change (waiters (signalLocked ?x)) with (waiters x).
    change (admitted (signalLocked ?x)) with (admitted x).
    destruct err as [e|], (terminal s) eqn:Ht.
    + intros w ws. destruct (core_terminal _ Hs ltac:(eauto) c) as [_ Hn].
      change (waiters (finish_base s r) c) with (waiters s c). by rewrite Hn.
    + intros w ws. assert (waiters (fail_all (finish_base s r) e) c = []) as ->
        by apply mlookup_fmap_nil. done.
    + intros w ws. destruct (core_terminal _ Hs ltac:(eauto) c) as [_ Hn].
      change (waiters (finish_base s r) c) with (waiters s c). by rewrite Hn.
    + apply (blocked_admit (finish_base s r) (rq_class r)); [done|].
      intros c' Hne w ws. replace (admitted (finish_base s r) c') with (admitted s c'); [apply Hb|].
      symmetry. etransitivity; [apply mlookup_insert|]. by rewrite decide_False.
  - destruct err, (terminal s); try done.
    destruct (admitWaiters_frame _ (rq_class r) Hf) as [(_&_&_&_&Hact&_) _]. exact Hact.
Qed.

Lemma sched_inv_close s p : sched_inv s p -> sched_inv (Close s) p.
Proof.
  intros [Hs Hb Ha Hw]. constructor; [by apply core_Close|..]; rewrite Close_eq;
    destruct (terminal s) eqn:Ht; try done.
  - intros c w ws. assert (waiters (signalLocked (fail_all s ErrSchedulerClosed)) c = []) as ->
      by apply mlookup_fmap_nil. done.
  - eapply wake_stale; [| |exact Hw]; simpl; [lia|done].
Qed.

Lemma sched_inv_pump s p p' :
  sched_inv s p -> pump_active p' = pump_active p -> wake_ok s p' -> sched_inv s p'.
Proof. intros [] Hp ?. constructor; try done. congruence. Qed.

Lemma sched_inv_take s r k :
  sched_inv s PRun -> next_post s r k ->
  sched_inv (set_active (Some r) (set_cursor k (pop_queues s (rq_class r)))) (PWriting r).
Proof. intros [Hs Hb Ha Hw] Hn. constructor; try done. by apply core_take. Qed.

(** Every event keeps the invariant. *)
Lemma sched_inv_exec e x x' :
  sched_inv (sch x) (pump x) -> exec e x = Some x' -> sched_inv (sch x') (pump x').
Proof.
  intros Hi. destruct e as [ctx c k pl|k|k|k|k| |err| | |]; simpl.
  - destruct (send_begin _ _ _ _ _) as [o s'] eqn:Hb.
    pose proof (sched_inv_begin _ _ _ _ _ _ _ _ Hb Hi).
    destruct o; intros [= <-]; done.
  - intros (c&_&Hx)%bind_Some. repeat case_match; by simplify_eq.
  - intros (c&_&Hx)%bind_Some. destruct (cl_state c) as [[]| |]; [done| |done..].
    destruct (send_cancel_admission _ _ _) as [b s'] eqn:Hc.
    apply cancel_admission_spec in Hc as [(->&->&_)|(l1&w&l2&k'&->&_&Hw&Hk&->&_)];
      [..|apply Hi]; simplify_eq; [done|]. by eapply sched_inv_drop_waiter.
  - intros (c&_&Hx)%bind_Some. destruct (cl_state c); [done| |done].
    apply bind_Some in Hx as (?&_&[= <-]). done.
  - intros (c&_&Hx)%bind_Some. destruct (cl_state c) as [|rq []|]; [done..| |done].
    destruct (send_cancel_queued _ _ _) as [b s'] eqn:Hc.
    apply cancel_queued_spec in Hc as [(->&->&_)|(l1&r&l2&k'&->&_&Hq&Hk&->&_)];
      [..|apply Hi]; simplify_eq; [done|]. by eapply sched_inv_drop_request.
  - destruct (pump x) eqn:Hp; try done. destruct (terminal (sch x)) eqn:Ht.
    { intros [= <-]. eapply sched_inv_pump; [done..|]. simpl. by rewrite Ht. }
    destruct (pump_take_spec (sch x)) as [(Hw&->)|(r&k&Hw&->&Hn&_)]; [apply Hi|..];
      intros [= <-]; simpl.
    + eapply sched_inv_pump; [done..|]. simpl. split; [lia|]. intros _.
      split; [by apply work_waiting_false|done].
    + by apply sched_inv_take.
  - destruct (pump x) eqn:Hp; try done. intros [= <-]. simpl. by apply sched_inv_finish.
  - destruct (pump x) eqn:Hp; try done. intros [= <-]. simpl. destruct Hi as [Hs Hb Ha Hw].
    constructor; try done. by apply core_set_done.
  - destruct (pump x) eqn:Hp; try done. case_decide; [done|]. intros [= <-]. simpl.
    by eapply sched_inv_pump.
  - intros [= <-]. by apply sched_inv_close.
Qed.

Lemma sched_inv_reachable x : reachable x -> sched_inv (sch x) (pump x).
Proof.
  induction 1; [|by eapply sched_inv_exec]. constructor; try done.
  constructor; try done; try (by intros c; constructor).
  - split_and!; [split; [by apply slot_wf_zero|done]..|done].
  - intros c. unfold admitted, classCap. simpl. repeat case_decide; by vm_compute.
Qed.
