(* ===== verification/SchedulerCalls.v ===== *)
(** What an answer of [Send] means.  Over every interleaving of SchedulerSys.v:
    a request is handed to the writer at most once and in the order of its
    class, each channel is answered at most once, a call that returns nil had
    its own payload accepted, and a call that returns the context's or the
    close error never reached the writer. *)

From Stdlib Require Import Sorting.Sorted.
From S2P Require Import Prelude Lanes Scheduler SchedulerDRR SchedulerSys.
#[local] Open Scope Z_scope.

(** * Identities *)

Definition inflight (p : pump_state) : option sendRequest :=
  match p with PWriting r | PAnswer r _ => Some r | _ => None end.

(** A request that was enqueued and is not cancelled. *)
Definition known (x : sys) (r : sendRequest) : Prop :=
  r ∈ written x \/ exists c, r ∈ queue (sch x) c.

(** A pointer that no present or future request has. *)
Definition never (x : sys) (i : nat) : Prop :=
  (i < fresh (sch x))%nat /\ forall r, known x r -> rq_id r <> i.

Definition is_writer_err (e : sched_error) : Prop := exists code, e = WriterErr code.

Definition in_class (c : TrafficClass) (l : list sendRequest) : list sendRequest :=
  filter (fun r => rq_class r = c) l.

(** Requests of a class, from the first written to the last queued. *)
Definition line (x : sys) (c : TrafficClass) : list nat :=
  rq_id <$> in_class c (written x) ++ queue (sch x) c.

Record req_inv (x : sys) : Prop := {
  ids_known : forall r, known x r -> (rq_id r < fresh (sch x))%nat;
  ids_uniq : forall r1 r2, known x r1 -> known x r2 -> rq_id r1 = rq_id r2 -> r1 = r2;
  ids_line : forall c, StronglySorted lt (line x c);
  ids_undone : forall c r, r ∈ queue (sch x) c -> done (sch x) !! rq_id r = None;
  ids_done : forall i, is_Some (done (sch x) !! i) -> (i < fresh (sch x))%nat;
  ids_inflight : forall r, inflight (pump x) = Some r ->
    r ∈ written x /\ done (sch x) !! rq_id r = None;
  ids_answer : forall r err, pump x = PAnswer r err ->
    match err with None => r ∈ accepted x | Some e => is_writer_err e end }.

Record wait_inv (x : sys) : Prop := {
  ids_waiter : forall c w, w ∈ waiters (sch x) c ->
    never x (aw_id w) /\ ready (sch x) !! aw_id w = None
    /\ (forall a, ready (sch x) !! a <> Some (inr (aw_id w)));
  ids_wuniq : forall c1 c2 w1 w2, w1 ∈ waiters (sch x) c1 -> w2 ∈ waiters (sch x) c2 ->
    aw_id w1 = aw_id w2 -> c1 = c2;
  ids_wline : forall c, StronglySorted lt (aw_id <$> waiters (sch x) c);
  ids_ready : forall a v, ready (sch x) !! a = Some v ->
    never x a /\ forall i, v = inr i -> (i < fresh (sch x))%nat;
  ids_ready_inj : forall a b i, ready (sch x) !! a = Some (inr i) ->
    ready (sch x) !! b = Some (inr i) -> a = b }.

Definition ids_inv (x : sys) : Prop := req_inv x /\ wait_inv x.

(** * Calls *)

Definition call_request (c : call) (i : nat) : sendRequest :=
  mkRequest i (cl_class c) (cl_kind c) (cl_payload c).

(** The request of a call is queued, with the pump, or answered. *)
Definition tracked (x : sys) (c : call) (i : nat) : Prop :=
  call_request c i ∈ queue (sch x) (cl_class c)
  \/ inflight (pump x) = Some (call_request c i)
  \/ (done (sch x) !! i = Some None /\ call_request c i ∈ accepted x)
  \/ exists e, done (sch x) !! i = Some (Some e) /\ (is_writer_err e \/ never x i).

(** [i] is the request of the call [k] and of no other. *)
Definition owns (x : sys) (k i : nat) : Prop :=
  ready (sch x) !! k = Some (inr i)
  \/ (i = k /\ forall a, ready (sch x) !! a <> Some (inr k)).

(** The call [k] waits for admission no more and was never admitted: no request
    is its request. *)
Definition withdrawn (x : sys) (k : nat) : Prop :=
  never x k
  /\ (forall c w, w ∈ waiters (sch x) c -> aw_id w <> k)
  /\ forall i, ready (sch x) !! k <> Some (inr i).

Lemma withdrawn_mono x x' k : (never x k -> never x' k) ->
  (forall c w, w ∈ waiters (sch x') c -> w ∈ waiters (sch x) c \/ aw_id w <> k) ->
  (forall i, ready (sch x') !! k = Some (inr i) -> ready (sch x) !! k = Some (inr i)) ->
  withdrawn x k -> withdrawn x' k.
Proof.
  intros Hn Hw Hr (H1&H2&H3). split_and!; [auto| |intros i Hi%Hr; by eapply H3].
  intros c w [Hin|?]%Hw; [by eapply H2|done].
Qed.

(** What an error that is not the writer's says of the call. *)
Definition unsent (x : sys) (k : nat) (rq : option nat) : Prop :=
  match rq with Some i => never x i | None => withdrawn x k end.

Definition call_ok (x : sys) (k : nat) (c : call) : Prop :=
  match cl_state c with
  | CAdmit _ =>
      mkWaiter k (cl_class c) (cl_kind c) (cl_payload c) ∈ waiters (sch x) (cl_class c)
      \/ (exists e, ready (sch x) !! k = Some (inl e))
      \/ exists i, ready (sch x) !! k = Some (inr i) /\ tracked x c i
  | CQueued i _ => owns x k i /\ (i < fresh (sch x))%nat /\ tracked x c i
  | CReturned rq None => exists i, rq = Some i /\ call_request c i ∈ accepted x
  | CReturned rq (Some e) => is_writer_err e \/ unsent x k rq
  end.

(** Every call but [ex] is in order. *)
Definition calls_ok (ex : option nat) (x : sys) : Prop :=
  forall k c, calls x !! k = Some c -> ex <> Some k ->
    (k < fresh (sch x))%nat /\ call_ok x k c.

(** An evolution that keeps what a call relies on keeps the call in order. *)
Lemma call_ok_mono x x' k c :
  (fresh (sch x) <= fresh (sch x'))%nat ->
  (forall w, w ∈ waiters (sch x) (cl_class c) -> w ∈ waiters (sch x') (cl_class c)) ->
  (forall v, ready (sch x) !! k = Some v -> ready (sch x') !! k = Some v) ->
  (forall i, owns x k i -> owns x' k i) -> (forall i, tracked x c i -> tracked x' c i) ->
  (forall i, never x i -> never x' i) -> (forall r, r ∈ accepted x -> r ∈ accepted x') ->
  (withdrawn x k -> withdrawn x' k) -> call_ok x k c -> call_ok x' k c.
Proof.
  intros Hf Hw Hr Ho Ht Hn Ha Hwd. unfold call_ok. destruct (cl_state c) as [f|j f|rq [e|]].
  - intros [?|[[e ?]|(j&?&?)]]; [left; auto|right; left; eauto|right; right; eauto].
  - intros (?&?&?). split_and!; [auto|lia|auto].
  - intros [?|Hj]; [by left|right]. destruct rq; simpl in *; auto.
  - intros (j&?&?). eauto.
Qed.

(** * The events' small steps *)

Lemma sorted_snoc l n : StronglySorted lt l -> Forall (fun i => i < n)%nat l ->
  StronglySorted lt (l ++ [n]).
Proof.
  induction 1 as [|i l Hl IH Hi]; simpl; intros Hn; [repeat constructor|].
  apply Forall_cons_1 in Hn as [? ?]. constructor; [auto|].
  apply Forall_app_2; [done|]. by constructor.
Qed.

Lemma sorted_remove l1 i l2 :
  StronglySorted lt (l1 ++ i :: l2) -> StronglySorted lt (l1 ++ l2).
Proof.
  induction l1 as [|j l1 IH]; simpl; intros Hs; apply StronglySorted_inv in Hs as [Hs Hf]; [done|].
  constructor; [auto|]. apply Forall_app in Hf as [? Hf]. apply Forall_cons_1 in Hf as [_ ?].
  by apply Forall_app_2.
Qed.

Lemma line_known x c : req_inv x -> Forall (fun i => i < fresh (sch x))%nat (line x c).
Proof.
  intros Hi. apply Forall_forall. intros i Hin. unfold line in Hin.
  apply list_elem_of_fmap in Hin as (r&->&Hr). apply (ids_known _ Hi). unfold known, in_class in *.
  rewrite elem_of_app, list_elem_of_filter in Hr. naive_solver.
Qed.

(** [x'] is [x] with the request [r] (a new pointer) enqueued. *)
Record enqueued (x x' : sys) (r : sendRequest) : Prop := {
  enq_id : rq_id r = fresh (sch x);
  enq_queue : forall c, queue (sch x') c
    = if decide (rq_class r = c) then queue (sch x) c ++ [r] else queue (sch x) c;
  enq_fresh : fresh (sch x') = S (fresh (sch x));
  enq_done : done (sch x') = done (sch x);
  enq_rest : pump x' = pump x /\ written x' = written x /\ accepted x' = accepted x }.

Lemma known_enqueued x x' r r' :
  enqueued x x' r -> known x' r' <-> known x r' \/ r' = r.
Proof.
  intros [Hid Hq Hf _ (_&Hw&_)]. unfold known. rewrite Hw. split.
  - intros [?|[c Hc]]; [naive_solver|]. rewrite Hq in Hc. case_decide; set_solver.
  - intros [[?|[c Hc]]| ->]; [by left|right; exists c|right; exists (rq_class r)];
      rewrite Hq; case_decide; set_solver.
Qed.

Lemma never_enqueued x x' r i : enqueued x x' r -> never x i -> never x' i.
Proof.
  intros He [Hi Hk]. pose proof (enq_fresh _ _ _ He). pose proof (enq_id _ _ _ He).
  split; [lia|]. intros r' [?| ->]%(known_enqueued _ _ _ _ He); [by apply Hk|lia].
Qed.

Lemma tracked_enqueued x x' r c i : enqueued x x' r -> tracked x c i -> tracked x' c i.
Proof.
  intros He. pose proof (never_enqueued x x' r i He) as Hn.
  destruct He as [_ Hq _ Hd (Hp&_&Ha)]. unfold tracked. rewrite Hq, Hd, Hp, Ha.
  intros [?|[?|[?|(e&?&?)]]]; [left; case_decide; set_solver|naive_solver..].
Qed.

Lemma line_enqueued x x' r c :
  enqueued x x' r ->
  line x' c = if decide (rq_class r = c) then line x c ++ [rq_id r] else line x c.
Proof.
  intros [_ Hq _ _ (_&Hw&_)]. unfold line. rewrite Hq, Hw.
  case_decide; [|done]. rewrite app_assoc, fmap_app. done.
Qed.

Lemma req_inv_enqueued x x' r : req_inv x -> enqueued x x' r -> req_inv x'.
Proof.
  intros Hi He. pose proof (known_enqueued x x' r) as Hk.
  assert (forall r', known x r' -> rq_id r' <> rq_id r) as Hnew.
  { intros r' Hr'. apply (ids_known _ Hi) in Hr'. rewrite (enq_id _ _ _ He). lia. }
  pose proof (line_known x) as Hl. pose proof (fun c => line_enqueued x x' r c He) as Hline.
  destruct He as [Hid Hq Hf Hd (Hp&Hw&Ha)] eqn:HE; clear HE.
  assert (done (sch x) !! rq_id r = None) as Hdn.
  { apply eq_None_not_Some. intros Hs%(ids_done _ Hi). lia. }
  destruct Hi as [I1 I2 I3 I4 I5 I6 I7].
  constructor; rewrite ?Hd, ?Hp, ?Hw, ?Ha, ?Hf; try done.
  - intros r' [?%I1| ->]%(Hk r' He); lia.
  - intros r1 r2 [?| ->]%(Hk r1 He) [?| ->]%(Hk r2 He) Heq; naive_solver.
  - intros c. rewrite Hline. case_decide; [|done]. apply sorted_snoc; [done|].
    rewrite Hid. by apply Hl.
  - intros c r' Hr'. rewrite Hq in Hr'. case_decide; [|by eapply I4].
    apply elem_of_app in Hr' as [?|?%list_elem_of_singleton]; [by eapply I4|by subst].
  - intros i ?%I5. lia.
Qed.

(** Enqueueing straight from a call: nothing waits. *)
Lemma wait_inv_enqueued x x' r :
  wait_inv x -> enqueued x x' r -> (forall c, waiters (sch x') c = waiters (sch x) c) ->
  ready (sch x') = ready (sch x) -> wait_inv x'.
Proof.
  intros [W1 W2 W3 W4 W5] He Hw Hr. pose proof (fun i => never_enqueued x x' r i He) as Hn.
  pose proof (enq_fresh _ _ _ He) as Hf. constructor; rewrite ?Hr; try done.
  - intros c w. rewrite Hw. intros (?&?&?)%W1. auto.
  - intros c1 c2 w1 w2. rewrite !Hw. apply W2.
  - intros c. by rewrite Hw.
  - intros a v Ha. destruct (W4 a v Ha) as [? Hi]. split; [auto|]. intros i ->.
    specialize (Hi i eq_refl). lia.
Qed.

(** The first waiter of the class becomes the request [r]. *)
Record admitted_one (x x' : sys) (c : TrafficClass) (w : admissionWaiter) (r : sendRequest) : Prop := {
  adm_enq : enqueued x x' r;
  adm_request : r = mkRequest (fresh (sch x)) c (aw_kind w) (aw_payload w) /\ aw_class w = c;
  adm_head : exists ws, waiters (sch x) c = w :: ws
    /\ forall c', waiters (sch x') c' = if decide (c = c') then ws else waiters (sch x) c';
  adm_ready : ready (sch x') = <[aw_id w := inr (rq_id r)]> (ready (sch x)) }.

Lemma sorted_head_notin i l : StronglySorted lt (i :: l) -> i ∉ l.
Proof.
  intros [_ Hf]%StronglySorted_inv Hin. rewrite Forall_forall in Hf.
  specialize (Hf i Hin). lia.
Qed.

(** The waiters left are those before, less the admitted one. *)
Lemma admitted_waiters x x' c w r c' w' :
  wait_inv x -> admitted_one x x' c w r -> w' ∈ waiters (sch x') c' ->
  w' ∈ waiters (sch x) c' /\ aw_id w' <> aw_id w.
Proof.
  intros Hi [He _ (ws&Hws&Hw) _] Hin. rewrite Hw in Hin.
  assert (w ∈ waiters (sch x) c) as Hhead by (rewrite Hws; set_solver).
  pose proof (ids_wline _ Hi c) as Hline. rewrite Hws, fmap_cons in Hline.
  apply sorted_head_notin in Hline.
  case_decide as Hc; [subst c'|].
  - split; [rewrite Hws; set_solver|]. intros Heq. apply Hline. rewrite <- Heq.
    by apply list_elem_of_fmap_2.
  - split; [done|]. intros Heq.
    by apply Hc, (ids_wuniq _ Hi c c' w w').
Qed.

Lemma wait_inv_admitted x x' c w r :
  req_inv x -> wait_inv x -> admitted_one x x' c w r -> wait_inv x'.
Proof.
  intros Hq Hi Ha. pose proof (fun c' w' => admitted_waiters x x' c w r c' w' Hi Ha) as Hsub.
  pose proof Hi as [W1 W2 W3 W4 W5].
  destruct Ha as [He [_ _] (ws&Hws&Hw) Hr].
  pose proof (fun i => never_enqueued x x' r i He) as Hn.
  pose proof (enq_fresh _ _ _ He) as Hf. pose proof (enq_id _ _ _ He) as Hid.
  assert (w ∈ waiters (sch x) c) as Hhead by (rewrite Hws; set_solver).
  destruct (W1 c w Hhead) as (Hnw&Hrw&Hrw').
  constructor; rewrite ?Hr.
  - intros c' w' [Hin Hne]%Hsub. destruct (W1 c' w' Hin) as (?&?&?). split_and!; [auto| |].
    + by rewrite lookup_insert_ne.
    + intros a. rewrite lookup_insert. case_decide; [|done]. intros [= ?].
      destruct (W1 c' w' Hin) as ([? _]&_). lia.
  - intros c1 c2 w1 w2 [? _]%Hsub [? _]%Hsub. by apply W2.
  - intros c'. rewrite Hw. case_decide; [|done]. specialize (W3 c). rewrite Hws in W3.
    by apply StronglySorted_inv in W3 as [? _].
  - intros a v. rewrite lookup_insert. case_decide as Haw.
    + intros [= <-]. subst a. split; [auto|]. intros i [= <-]. lia.
    + intros [Hna Hb]%W4. split; [auto|]. intros i ->. specialize (Hb i eq_refl). lia.
  - assert (forall a, ready (sch x) !! a <> Some (inr (rq_id r))) as Hno.
    { intros a Ha. destruct (W4 a _ Ha) as [_ Hb]. specialize (Hb _ eq_refl). lia. }
    intros a b i. rewrite !lookup_insert. repeat case_decide; naive_solver.
Qed.

Lemma owns_mono x x' k i :
  (k < fresh (sch x))%nat ->
  (forall a v, ready (sch x) !! a = Some v -> ready (sch x') !! a = Some v) ->
  (forall a j, ready (sch x') !! a = Some (inr j) ->
               ready (sch x) !! a = Some (inr j) \/ (fresh (sch x) <= j)%nat) ->
  owns x k i -> owns x' k i.
Proof.
  intros Hk H1 H2 [?|[-> Hno]]; [left; by apply H1|right]. split; [done|].
  intros a [?|?]%H2; [naive_solver|lia].
Qed.

Lemma call_ok_enqueued ex x x' r :
  enqueued x x' r -> (forall c, waiters (sch x') c = waiters (sch x) c) ->
  ready (sch x') = ready (sch x) -> calls x' = calls x -> calls_ok ex x -> calls_ok ex x'.
Proof.
  intros He Hw Hr Hc Hok k c. rewrite Hc. intros Hk Hex. destruct (Hok k c Hk Hex) as [Hlt Hco].
  pose proof (enq_fresh _ _ _ He) as Hf. split; [lia|].
  revert Hco. apply call_ok_mono; [lia| |by rewrite Hr|..].
  - intros w. by rewrite Hw.
  - intros i. apply owns_mono; [done|..]; rewrite Hr; auto.
  - intros i. by eapply tracked_enqueued.
  - intros i. by eapply never_enqueued.
  - by destruct (enq_rest _ _ _ He) as (_&_&->).
  - apply withdrawn_mono; [by eapply never_enqueued| |by rewrite Hr]. intros c' w. rewrite Hw. by left.
Qed.

Lemma withdrawn_admitted x x' c w r k : wait_inv x -> admitted_one x x' c w r -> withdrawn x k -> withdrawn x' k.
Proof.
  intros Hi Ha Hwd. pose proof (fun c' w' => admitted_waiters x x' c w r c' w' Hi Ha) as Hsub.
  destruct Ha as [He _ (ws&Hws&_) Hr].
  assert (aw_id w <> k) as Hne by (apply (proj1 (proj2 Hwd) c); rewrite Hws; set_solver).
  apply (withdrawn_mono x x'); [by eapply never_enqueued| | |done].
  - intros c' w' [? _]%Hsub. by left.
  - intros i. by rewrite Hr, lookup_insert_ne.
Qed.

Lemma call_ok_admitted ex x x' c w r :
  ids_inv x -> admitted_one x x' c w r -> calls x' = calls x -> calls_ok ex x -> calls_ok ex x'.
Proof.
  intros [Hi Hwi] Ha Hc Hok k cl. rewrite Hc. intros Hk Hex.
  destruct (Hok k cl Hk Hex) as [Hlt Hco].
  pose proof (withdrawn_admitted x x' c w r k Hwi Ha) as Hwd.
  destruct Ha as [He [-> Hwc] (ws&Hws&Hw) Hr]. simpl in Hr.
  pose proof (enq_fresh _ _ _ He) as Hf. split; [lia|].
  assert (ready (sch x) !! aw_id w = None) as Hnone.
  { eapply (ids_waiter _ Hwi c). rewrite Hws. set_solver. }
  assert (forall a v, ready (sch x) !! a = Some v -> ready (sch x') !! a = Some v) as Hrm.
  { intros a v Hav. rewrite Hr, lookup_insert_ne; [done|]. intros Heq. congruence. }
  unfold call_ok in *. destruct (cl_state cl) as [f|i f|rq [e|]].
  - destruct Hco as [Hin|[[e ?]|(i&?&?)]].
    + rewrite Hw. case_decide as Hcl; [|auto]. rewrite <- Hcl in *. rewrite Hws in Hin.
      apply elem_of_cons in Hin as [Heq|Hin]; [|by left].
      right; right. exists (fresh (sch x)).
      split; [rewrite Hr, <- Heq; apply lookup_insert_eq|].
      left. rewrite (enq_queue _ _ _ He). simpl. rewrite <- Hcl, decide_True by done.
      unfold call_request. rewrite <- Hcl, <- Heq. set_solver.
    + right; left. eauto.
    + right; right. exists i. split; [auto|]. by eapply tracked_enqueued.
  - destruct Hco as (Ho&?&?). split_and!; [|lia|by eapply tracked_enqueued].
    eapply owns_mono; [exact Hlt|exact Hrm| |exact Ho].
    intros a j. rewrite Hr, lookup_insert. case_decide; [|auto]. intros [= <-]. by right.
  - destruct Hco as [?|Hn]; [by left|right]. destruct rq; simpl in *; [by eapply never_enqueued|auto].
  - by destruct (enq_rest _ _ _ He) as (_&_&->).
Qed.

(** ** Removing entries *)

Lemma sorted_sublist l1 l2 : l1 `sublist_of` l2 -> StronglySorted lt l2 -> StronglySorted lt l1.
Proof.
  induction 1 as [|i l1 l2 Hs IH|i l1 l2 Hs IH]; [done|..];
    intros [H1 H2]%StronglySorted_inv; [|auto].
  constructor; [auto|]. rewrite Forall_forall in *. intros j Hj. apply H2.
  by eapply elem_of_sublist.
Qed.

(** [x'] is [x] with some queued requests and waiters gone. *)
Record shrunk (x x' : sys) : Prop := {
  shr_queue : forall c, queue (sch x') c `sublist_of` queue (sch x) c;
  shr_waiters : forall c, waiters (sch x') c `sublist_of` waiters (sch x) c;
  shr_ready : ready (sch x') = ready (sch x);
  shr_done : done (sch x') = done (sch x);
  shr_fresh : fresh (sch x') = fresh (sch x);
  shr_rest : pump x' = pump x /\ written x' = written x /\ accepted x' = accepted x
             /\ calls x' = calls x }.

Lemma known_shrunk x x' r : shrunk x x' -> known x' r -> known x r.
Proof.
  intros [Hq _ _ _ _ (_&Hw&_)]. unfold known. rewrite Hw. intros [?|[c Hc]]; [by left|right].
  exists c. by eapply elem_of_sublist.
Qed.

Lemma never_shrunk x x' i : shrunk x x' -> never x i -> never x' i.
Proof.
  intros Hs [Hi Hk]. split; [by rewrite (shr_fresh _ _ Hs)|].
  intros r Hr. by eapply Hk, known_shrunk.
Qed.

Lemma withdrawn_shrunk x x' k : shrunk x x' -> withdrawn x k -> withdrawn x' k.
Proof.
  intros Hs. apply withdrawn_mono; [by apply never_shrunk| |by rewrite (shr_ready _ _ Hs)].
  intros c w Hin. left. eapply elem_of_sublist; [exact Hin|apply Hs].
Qed.

Lemma ids_shrunk x x' : shrunk x x' -> ids_inv x -> ids_inv x'.
Proof.
  intros Hs [[I1 I2 I3 I4 I5 I6 I7] [W1 W2 W3 W4 W5]].
  pose proof (fun r => known_shrunk x x' r Hs) as Hk. pose proof (fun i => never_shrunk x x' i Hs) as Hn.
  destruct Hs as [Hq Hw Hr Hd Hf (Hp&Hwr&Ha&_)].
  split; constructor; rewrite ?Hr, ?Hd, ?Hf, ?Hp, ?Hwr, ?Ha; try done; eauto.
  - intros c. eapply sorted_sublist; [|apply I3]. unfold line. rewrite Hwr, !fmap_app.
    apply sublist_app; [done|]. by apply fmap_sublist.
  - intros c r Hin. eapply I4, elem_of_sublist; [exact Hin|apply Hq].
  - intros c w Hin. destruct (W1 c w) as (?&?&?); [|split_and!; auto].
    eapply elem_of_sublist; [exact Hin|apply Hw].
  - intros c1 c2 w1 w2 H1 H2. apply W2; eapply elem_of_sublist; eauto.
  - intros c. eapply sorted_sublist; [|apply W3]. by apply fmap_sublist.
  - intros a v Hav. destruct (W4 a v Hav). auto.
Qed.

Lemma never_queue_shrunk ex x x' :
  shrunk x x' -> calls_ok ex x ->
  (forall k c, calls x !! k = Some c -> ex <> Some k ->
     (forall w, aw_id w = k -> w ∈ waiters (sch x) (cl_class c) -> w ∈ waiters (sch x') (cl_class c))
     /\ (forall i r, owns x k i -> rq_id r = i -> r ∈ queue (sch x) (cl_class c) ->
         r ∈ queue (sch x') (cl_class c))) ->
  calls_ok ex x'.
Proof.
  intros Hs Hok Hkeep k c. pose proof (fun i => never_shrunk x x' i Hs) as Hn.
  pose proof (fun i => withdrawn_shrunk x x' i Hs) as Hwd.
  destruct Hs as [Hq Hw Hr Hd Hf (Hp&Hwr&Ha&Hc)]. rewrite Hc. intros Hk Hex.
  destruct (Hok k c Hk Hex) as [Hlt Hco]. destruct (Hkeep k c Hk Hex) as [HW HQ].
  rewrite Hf. split; [done|].
  assert (forall i, owns x k i -> tracked x c i -> tracked x' c i) as Htr.
  { intros i Ho. unfold tracked. rewrite Hd, Hp, Ha. specialize (HQ i (call_request c i) Ho eq_refl).
    intros [?|[?|[?|(e&?&?)]]]; naive_solver. }
  unfold call_ok, owns in *. rewrite Hr, Hf.
  destruct (cl_state c) as [f|i f|rq [e|]]; [|naive_solver| |by rewrite Ha].
  2: { destruct Hco as [?|Hu]; [by left|right]. destruct rq; simpl in *; auto. }
  destruct Hco as [?|[?|(i&?&?)]]; [left; by apply HW|by right; left|].
  right; right. exists i. split; [done|]. apply Htr; [by left|done].
Qed.

(** ** Failing everything *)

(** [x'] is [x] with every queued request and waiter answered by [e]. *)
Record failed_all (x x' : sys) (e : sched_error) : Prop := {
  fail_queue : forall c, queue (sch x') c = [];
  fail_waiters : forall c, waiters (sch x') c = [];
  fail_ready : forall i,
    ((exists c w, w ∈ waiters (sch x) c /\ aw_id w = i) /\ ready (sch x') !! i = Some (inl e))
    \/ ((forall c w, w ∈ waiters (sch x) c -> aw_id w <> i)
        /\ ready (sch x') !! i = ready (sch x) !! i);
  fail_done : forall i,
    ((exists c r, r ∈ queue (sch x) c /\ rq_id r = i) /\ done (sch x') !! i = Some (Some e))
    \/ ((forall c r, r ∈ queue (sch x) c -> rq_id r <> i)
        /\ done (sch x') !! i = done (sch x) !! i);
  fail_fresh : fresh (sch x') = fresh (sch x);
  fail_rest : pump x' = pump x /\ written x' = written x /\ accepted x' = accepted x
              /\ calls x' = calls x }.

Lemma sorted_app_disjoint l1 l2 i : StronglySorted lt (l1 ++ l2) -> i ∈ l1 -> i ∈ l2 -> False.
Proof.
  induction l1 as [|j l1 IH]; simpl; intros Hs H1 H2; [by inversion H1|].
  apply StronglySorted_inv in Hs as [Hs Hf]. rewrite Forall_forall in Hf.
  apply elem_of_cons in H1 as [->|H1]; [|auto].
  specialize (Hf j ltac:(set_solver)). lia.
Qed.

(** A written request is in no queue any more. *)
Lemma written_not_queued x r c r' :
  req_inv x -> queues_wf (sch x) -> r ∈ written x -> r' ∈ queue (sch x) c -> rq_id r = rq_id r' -> False.
Proof.
  intros Hi Hwf Hw Hq Heq.
  assert (r = r') as <- by (apply (ids_uniq _ Hi); [by left|right; eauto|done]).
  assert (rq_class r = c) as Hc.
  { specialize (Hwf c). rewrite Forall_forall in Hwf. by apply Hwf. }
  pose proof (ids_line _ Hi c) as Hl. unfold line in Hl. rewrite fmap_app in Hl.
  eapply sorted_app_disjoint; [exact Hl|..]; apply list_elem_of_fmap_2; [|done].
  unfold in_class. by apply list_elem_of_filter.
Qed.

Lemma never_failed x x' e i : failed_all x x' e -> never x i -> never x' i.
Proof.
  intros Hf [Hi Hk]. split; [by rewrite (fail_fresh _ _ _ Hf)|].
  destruct (fail_rest _ _ _ Hf) as (_&Hw&_). unfold known. rewrite Hw.
  intros r [Hr|[c Hr]]; [apply Hk; by left|]. rewrite (fail_queue _ _ _ Hf) in Hr. by inversion Hr.
Qed.

Lemma ids_failed x x' e :
  failed_all x x' e -> queues_wf (sch x) -> ids_inv x -> ids_inv x'.
Proof.
  intros Hf Hwf [Hi Hwi]. pose proof (fun i => never_failed x x' e i Hf) as Hn.
  assert (forall r, known x' r -> known x r) as Hk.
  { intros r [?|[c Hr]]; [left|]; [by destruct (fail_rest _ _ _ Hf) as (_&<-&_)|].
    rewrite (fail_queue _ _ _ Hf) in Hr. by inversion Hr. }
  pose proof (written_not_queued x) as Hwq.
  destruct Hf as [Hq Hw Hr Hd Hf (Hp&Hwr&Ha&_)].
  pose proof Hi as [I1 I2 I3 I4 I5 I6 I7]. pose proof Hwi as [W1 W2 W3 W4 W5].
  split; constructor; rewrite ?Hf, ?Hp, ?Hwr, ?Ha; try done; eauto.
  - intros c. eapply sorted_sublist; [|apply I3]. unfold line. rewrite Hwr, !fmap_app, Hq.
    apply sublist_app; [done|]. apply sublist_nil_l.
  - intros c r. rewrite Hq. by intros ?%elem_of_nil.
  - intros i. destruct (Hd i) as [[(c&r&?&<-) _]|[_ ->]]; [|auto]. intros _. apply I1. right; eauto.
  - intros r Hr'. destruct (I6 r Hr') as [? ?]. split; [done|].
    destruct (Hd (rq_id r)) as [[(c&r'&?&?) _]|[_ ->]]; [exfalso; by eapply Hwq|done].
  - intros c w. rewrite Hw. by intros ?%elem_of_nil.
  - intros c1 c2 w1 w2. rewrite Hw. by intros ?%elem_of_nil.
  - intros c. rewrite Hw. constructor.
  - intros a v. destruct (Hr a) as [[(c&w&Hin&<-) ->]|[_ ->]].
    + intros [= <-]. destruct (W1 c w Hin) as [? _]. split; [auto|done].
    + intros [? ?]%W4. auto.
  - intros a b i. destruct (Hr a) as [[_ ->]|[_ ->]]; [done|].
    destruct (Hr b) as [[_ ->]|[_ ->]]; [done|]. apply W5.
Qed.

Lemma calls_failed ex x x' e :
  failed_all x x' e -> queues_wf (sch x) -> ids_inv x -> calls_ok ex x -> calls_ok ex x'.
Proof.
  intros Hfa Hwf [Hi Hwi] Hok k c. pose proof (fun i => never_failed x x' e i Hfa) as Hn.
  pose proof Hfa as [Hq Hw Hr Hd Hf (Hp&Hwr&Ha&Hc)]. rewrite Hc. intros Hk Hex.
  destruct (Hok k c Hk Hex) as [Hlt Hco]. rewrite Hf. split; [done|].
  assert (forall i, tracked x c i -> tracked x' c i) as Htr.
  { intros i Ht. unfold tracked. rewrite Hp, Ha.
    destruct (Hd i) as [[(c'&r&Hin&<-) Hdi]|[Hno Hdi]]; rewrite Hdi.
    - right; right; right. exists e. split; [done|]. right.
      split; [rewrite Hf; apply (ids_known _ Hi); right; eauto|].
      intros r' [Hr'|[c2 Hr']] Heq; [|rewrite Hq in Hr'; by inversion Hr'].
      rewrite Hwr in Hr'. by eapply written_not_queued.
    - right. unfold tracked in Ht. destruct Ht as [Hin|[?|[?|(e'&?&?)]]]; [|naive_solver..].
      by apply Hno in Hin. }
  assert (forall i, ready (sch x) !! k = Some (inr i) -> ready (sch x') !! k = Some (inr i)) as Hrk.
  { intros i Hki. destruct (Hr k) as [[(c'&w&Hin&<-) _]|[_ ->]]; [|done].
    destruct (ids_waiter _ Hwi c' w Hin) as (_&?&_). congruence. }
  unfold call_ok, owns in *. rewrite Hf. destruct (cl_state c) as [f|i f|rq [e'|]].
  - destruct (Hr k) as [[_ Hrk']|[Hno Hrk']]; [right; left; eauto|].
    destruct Hco as [Hin|[[e' ?]|(i&?&?)]].
    + by apply Hno in Hin.
    + right; left. exists e'. congruence.
    + right; right. exists i. auto.
  - destruct Hco as ([?|[-> Hno]]&?&?); split_and!; auto. right. split; [done|].
    intros a. destruct (Hr a) as [[_ ->]|[_ ->]]; [done|apply Hno].
  - destruct Hco as [?|Hnv]; [by left|right]. destruct rq; simpl in *; [by apply Hn|].
    apply (withdrawn_mono x x'); [apply Hn| | |done]; [intros c' w; rewrite Hw; by intros ?%elem_of_nil|].
    intros i. destruct (Hr k) as [[_ ->]|[_ ->]]; [done|done].
  - by rewrite Ha.
Qed.

(** ** Admission at the level of the system *)

Definition tracks (ex : option nat) (x : sys) : Prop := ids_inv x /\ calls_ok ex x.

Lemma tracks_shrunk_same ex x x' :
  shrunk x x' -> (forall c, queue (sch x') c = queue (sch x) c) ->
  (forall c, waiters (sch x') c = waiters (sch x) c) -> tracks ex x -> tracks ex x'.
Proof.
  intros Hs Hq Hw [Hi Hc]. split; [by eapply ids_shrunk|]. eapply never_queue_shrunk; [done..|].
  intros k c _ _. rewrite Hq, Hw. auto.
Qed.

Lemma tracks_admit ex x c i :
  core (sch x) -> tracks ex x ->
  let x' := set_sch (admitWaitersLocked (sch x) c) x in
  tracks ex x' /\ (never x i -> never x' i) /\ (withdrawn x i -> withdrawn x' i).
Proof.
  intros Hs Ht.
  assert (exists s', admitWaitersLocked (sch x) c
    = set_waiters (<[c := waiters s' c]> (admissionWaiters s')) s'
      /\ (core s' /\ tracks ex (set_sch s' x) /\ (never x i -> never (set_sch s' x) i)
          /\ (withdrawn x i -> withdrawn (set_sch s' x) i))
      /\ blocked_at s' c) as (s'&->&(Hs'&Ht'&Hn'&Hwd')&_).
  { apply admitWaiters_ind; [|split_and!; [done|by destruct x..]].
    intros s1 w ws Hw Hfit (Hs1&[[Hr1 Hw1] Hc1]&Hn1&Hwd1).
    pose proof (core_waiters _ Hs1 c) as Hok. rewrite Hw in Hok.
    apply Forall_cons_1 in Hok as [Hok _].
    destruct (admit_one_effect s1 c w ws Hok) as (Eq&Ew&Ea&En&Et&Eact&Ec&Er&Ed&Ef).
    set (r := mkRequest (fresh s1) c (aw_kind w) (aw_payload w)) in *.
    assert (admitted_one (set_sch s1 x) (set_sch (admit_one s1 c w ws) x) c w r) as Hone.
    { constructor; [constructor; try done| | |done].
      - intros c'. simpl. rewrite Eq. by case_decide; subst.
      - split; [done|apply Hok].
      - exists ws. split; [done|]. apply Ew. }
    pose proof (adm_enq _ _ _ _ _ Hone) as Henq.
    split; [by apply core_admit_one|]. split; [split; [split|]|split].
    - by eapply req_inv_enqueued.
    - by eapply wait_inv_admitted.
    - by eapply call_ok_admitted.
    - intros Hn. eapply never_enqueued; [exact Henq|auto].
    - intros Hwd. eapply withdrawn_admitted; [exact Hw1|exact Hone|auto]. }
  assert (shrunk (set_sch s' x)
    (set_sch (set_waiters (<[c := waiters s' c]> (admissionWaiters s')) s') x)) as Hsh.
  { constructor; try done. intros c'. simpl. by rewrite waiters_reinsert. }
  simpl. split.
  - eapply tracks_shrunk_same; [exact Hsh|done| |done]. intros c'. apply waiters_reinsert.
  - split; intros Hn; [eapply never_shrunk|eapply withdrawn_shrunk]; [exact Hsh|auto|exact Hsh|auto].
Qed.

Lemma calls_ok_set k c st x :
  calls_ok (Some k) x -> (k < fresh (sch x))%nat ->
  call_ok x k (mkCall (cl_class c) (cl_kind c) (cl_payload c) st) ->
  calls_ok None (set_call k c st x).
Proof.
  intros Hok Hk Hco k' c' Hl _. simpl in Hl. rewrite lookup_insert in Hl. case_decide; simplify_eq.
  - done.
  - apply (Hok k' c' Hl). congruence.
Qed.

Lemma calls_ok_weaken ex x : calls_ok None x -> calls_ok ex x.
Proof. intros H k c Hk _. by apply H. Qed.

Lemma tracks_set k c st x :
  tracks (Some k) x -> (k < fresh (sch x))%nat ->
  call_ok x k (mkCall (cl_class c) (cl_kind c) (cl_payload c) st) ->
  tracks None (set_call k c st x).
Proof.
  intros [[[] []] ?] ? ?. split; [split; constructor; done|by apply calls_ok_set].
Qed.

(** ** Cancelling *)

Lemma sorted_once l1 i l2 : StronglySorted lt (l1 ++ i :: l2) -> i ∉ l1 ++ l2.
Proof.
  intros Hl [Hin|Hin]%elem_of_app.
  - eapply sorted_app_disjoint; [exact Hl|exact Hin|set_solver].
  - apply (sorted_sublist (i :: l2)) in Hl; [|by apply sublist_inserts_l]. by apply sorted_head_notin in Hl.
Qed.

Lemma tracks_cancel_waiter x c k l1 w l2 kc :
  core (sch x) -> tracks None x -> waiters (sch x) c = l1 ++ w :: l2 -> aw_id w = k -> cursor_wf kc ->
  let x' := set_sch (admitWaitersLocked (drop_waiter (sch x) c (l1 ++ l2) kc) c) x in
  tracks (Some k) x' /\ withdrawn x' k.
Proof.
  intros Hs [Hi Hc] Hw Hk Hkc. set (x1 := set_sch (drop_waiter (sch x) c (l1 ++ l2) kc) x).
  assert (forall c', waiters (sch x1) c' = if decide (c = c') then l1 ++ l2 else waiters (sch x) c')
    as Ew by (intros; apply mlookup_insert).
  assert (shrunk x x1) as Hsh.
  { constructor; try done. intros c'. rewrite Ew. case_decide; [subst|done].
    rewrite Hw. apply sublist_app; [done|]. by constructor. }
  assert (tracks (Some k) x1) as Ht.
  { split; [by eapply ids_shrunk|]. eapply never_queue_shrunk; [exact Hsh|by apply calls_ok_weaken|].
    intros k' cl Hk' Hne. split; [|done]. intros w' Hid. rewrite Ew.
    case_decide as Heq; [|done]. rewrite <- Heq, Hw. rewrite !elem_of_app, elem_of_cons.
    intros [?|[->|?]]; [by left| |by right]. congruence. }
  destruct (tracks_admit (Some k) x1 c k) as (Ht'&_&Hwd); [by eapply core_drop_waiter|done|]. split; [exact Ht'|].
  apply Hwd. assert (w ∈ waiters (sch x) c) as Hin by (rewrite Hw; set_solver).
  destruct Hi as [_ Hwi]. destruct (ids_waiter _ Hwi c w Hin) as (Hn&Hr&_). rewrite Hk in Hn, Hr.
  split_and!; [by eapply never_shrunk| |intros i; simpl; by rewrite Hr].
  intros c' w' Hin' Hid. assert (w' ∈ waiters (sch x) c') as Hold by (eapply elem_of_sublist; [exact Hin'|apply Hsh]).
  assert (c' = c) as -> by (apply (ids_wuniq _ Hwi c' c w' w Hold Hin); by rewrite Hid).
  rewrite Ew, decide_True in Hin' by done. pose proof (ids_wline _ Hwi c) as Hl. rewrite Hw, fmap_app, fmap_cons in Hl.
  apply (sorted_once _ _ _ Hl). rewrite Hk, <- Hid, <- fmap_app. by apply list_elem_of_fmap_2.
Qed.

(** A cancelled request can no longer reach the writer. *)
Lemma never_dropped x x' c l1 r l2 :
  req_inv x -> queues_wf (sch x) -> queue (sch x) c = l1 ++ r :: l2 -> shrunk x x' ->
  queue (sch x') c = l1 ++ l2 -> never x' (rq_id r).
Proof.
  intros Hi Hwf Hq Hsh Hq'.
  assert (r ∈ queue (sch x) c) as Hr by (rewrite Hq; set_solver).
  split. { rewrite (shr_fresh _ _ Hsh). apply (ids_known _ Hi). right; eauto. }
  intros r' [Hw|[c' Hr']] Heq.
  - destruct (shr_rest _ _ Hsh) as (_&Hwr&_). rewrite Hwr in Hw. by eapply written_not_queued.
  - assert (r' ∈ queue (sch x) c') as Hin' by (eapply elem_of_sublist; [exact Hr'|apply Hsh]).
    assert (r' = r) as -> by (apply (ids_uniq _ Hi); [right; eauto..|done]).
    assert (forall c, r ∈ queue (sch x) c -> rq_class r = c) as Hcl.
    { intros c0 H0. specialize (Hwf c0). rewrite Forall_forall in Hwf. by apply Hwf. }
    assert (c' = c) as -> by (rewrite <- (Hcl c' Hin'); by apply Hcl).
    rewrite Hq' in Hr'. pose proof (ids_line _ Hi c) as Hl. unfold line in Hl.
    rewrite Hq, !fmap_app, fmap_cons, app_assoc in Hl.
    apply elem_of_app in Hr' as [Hr'|Hr'].
    + eapply (sorted_app_disjoint _ _ (rq_id r) Hl); [|set_solver].
      apply elem_of_app. right. by apply list_elem_of_fmap_2.
    + apply (sorted_sublist (rq_id r :: (rq_id <$> l2))) in Hl; [|by apply sublist_inserts_l].
      apply sorted_head_notin in Hl. apply Hl. by apply list_elem_of_fmap_2.
Qed.

Lemma owns_inj x k k' i : wait_inv x -> owns x k i -> owns x k' i -> k = k'.
Proof.
  intros Hw [H1|[-> H1]] [H2|[-> H2]]; [by eapply (ids_ready_inj _ Hw)|naive_solver..].
Qed.

Lemma tracks_cancel_request x c k l1 r l2 kc :
  core (sch x) -> tracks None x -> queue (sch x) c = l1 ++ r :: l2 -> owns x k (rq_id r) ->
  cursor_wf kc ->
  let x' := set_sch (admitWaitersLocked (drop_request (sch x) c (l1 ++ l2) r kc) c) x in
  tracks (Some k) x' /\ never x' (rq_id r).
Proof.
  intros Hs [Hi Hc] Hq Ho Hkc. set (x1 := set_sch (drop_request (sch x) c (l1 ++ l2) r kc) x).
  assert (forall c', queue (sch x1) c' = if decide (c = c') then l1 ++ l2 else queue (sch x) c')
    as Eq by (intros; apply mlookup_insert).
  assert (shrunk x x1) as Hsh.
  { constructor; try done. intros c'. rewrite Eq. case_decide; [subst|done].
    rewrite Hq. apply sublist_app; [done|]. by constructor. }
  assert (tracks (Some k) x1) as Ht.
  { split; [by eapply ids_shrunk|]. eapply never_queue_shrunk; [exact Hsh|by apply calls_ok_weaken|].
    intros k' cl Hk' Hne. split; [done|]. intros i r' Ho' Hid. rewrite Eq.
    case_decide as Heq; [|done]. rewrite <- Heq, Hq. rewrite !elem_of_app, elem_of_cons.
    intros [?|[->|?]]; [by left| |by right]. subst i.
    pose proof (owns_inj x k k' _ (proj2 Hi) Ho Ho'). congruence. }
  destruct (tracks_admit (Some k) x1 c (rq_id r)) as (Ht'&Hn&_); [by eapply core_drop_request|done|].
  split; [done|]. apply Hn. eapply never_dropped; [apply Hi|apply Hs|exact Hq|exact Hsh|].
  by rewrite Eq, decide_True.
Qed.

(** ** A call begins *)

Lemma ready_below x a i : wait_inv x -> ready (sch x) !! a = Some (inr i) -> (i < fresh (sch x))%nat.
Proof. intros Hw Ha. destruct (ids_ready _ Hw a _ Ha) as [_ Hi]. by apply Hi. Qed.

Lemma tracks_begin_enqueue x c k p r s' :
  tracks None x -> enqueueLocked (sch x) c k p = (r, s') ->
  tracks None (set_call (fresh (sch x)) (mkCall c k p (CAdmit false)) (CQueued (fresh (sch x)) false)
                 (set_sch s' x)).
Proof.
  intros [[Hr Hw] Hc] (->&Eq&Ea&Ew&En&Et&Eact&Ec&Er&Ed&Ef)%enqueue_effect.
  set (r := mkRequest (fresh (sch x)) c k p) in *.
  assert (enqueued x (set_sch s' x) r) as He.
  { constructor; try done. intros c'. simpl. rewrite Eq. by case_decide; subst. }
  apply tracks_set; simpl.
  - split; [split|].
    + by eapply req_inv_enqueued.
    + by eapply wait_inv_enqueued.
    + apply calls_ok_weaken. by eapply call_ok_enqueued.
  - lia.
  - split_and!; simpl; [|lia|].
    + right. split; [done|]. intros a. simpl. rewrite Er. intros Ha%ready_below; [lia|done].
    + left. simpl. rewrite Eq, decide_True by done. unfold call_request; simpl. set_solver.
Qed.

Lemma tracks_begin_wait x c k p :
  tracks None x ->
  let i := fresh (sch x) in
  let s' := set_waiters (<[c := waiters (sch x) c ++ [mkWaiter i c k p]]> (admissionWaiters (sch x)))
              (set_fresh (S i) (sch x)) in
  tracks None (set_call i (mkCall c k p (CAdmit false)) (CAdmit false) (set_sch s' x)).
Proof.
  intros [[Hr Hw] Hc] i s'. set (x1 := set_sch s' x).
  assert (forall c', waiters s' c' = if decide (c = c') then waiters (sch x) c ++ [mkWaiter i c k p]
                                     else waiters (sch x) c') as Ew by (intros; apply mlookup_insert).
  assert (forall c' w, w ∈ waiters s' c' ->
            w ∈ waiters (sch x) c' \/ (c = c' /\ w = mkWaiter i c k p)) as Hin.
  { intros c' w. rewrite Ew. case_decide; [subst|by left]. set_solver. }
  assert (forall j, never x j -> never x1 j) as Hn.
  { intros j [? Hk]. split; [simpl; lia|]. exact Hk. }
  assert (never x1 i) as Hni.
  { split; [simpl; lia|]. intros r' Hr'. change (known x r') in Hr'.
    apply (ids_known _ Hr) in Hr'. subst i. lia. }
  assert (forall a, ready (sch x) !! a <> Some (inr i)) as Hnr.
  { intros a Ha%ready_below; [subst i; lia|done]. }
  pose proof Hr as [I1 I2 I3 I4 I5 I6 I7]. pose proof Hw as [W1 W2 W3 W4 W5].
  assert (ids_inv x1) as Hi1.
  { split; constructor; try done; simpl.
    - intros r' ?%I1. lia.
    - intros j ?%I5. lia.
    - intros c' w [Hold|[_ ->]]%Hin; [destruct (W1 c' w Hold) as (?&?&?); auto|]. simpl.
      split_and!; [done| |done]. apply eq_None_not_Some. intros [v Hv].
      destruct (W4 _ _ Hv) as [[? _] _]. subst i. lia.
    - intros c1 c2 w1 w2 [H1|[? ->]]%Hin [H2|[? ->]]%Hin Heq; simpl in *; [by eapply W2|..|congruence].
      + destruct (W1 _ _ H1) as ([? _]&_). subst i. lia.
      + destruct (W1 _ _ H2) as ([? _]&_). subst i. lia.
    - intros c'. rewrite Ew. case_decide; [|done]. rewrite fmap_app. apply sorted_snoc; [done|].
      apply Forall_fmap, Forall_forall. intros w Hwin. simpl. by destruct (W1 _ _ Hwin) as ([? _]&_).
    - intros a v Ha. destruct (W4 a v Ha) as [? Hb]. split; [auto|]. intros j ->.
      specialize (Hb j eq_refl). lia. }
  apply tracks_set; [split; [done|]|simpl; lia|].
  - intros k' c' Hk' Hne. simpl in Hk'. destruct (Hc k' c' Hk' ltac:(done)) as [Hlt Hco].
    split; [simpl; lia|]. revert Hco. apply call_ok_mono; try done; simpl; [lia|..].
    + intros w Hold. rewrite Ew. case_decide as Heq; [rewrite Heq; set_solver|done].
    + intros j [?|[?|[?|(e&?&[?|?])]]]; [by left|by right; left|by right; right; left|..];
        right; right; right; eauto.
    + apply withdrawn_mono; [apply Hn| |done]. intros c0 w [Hold|[_ ->]]%Hin; [by left|right]. simpl. subst i. lia.
  - left. simpl. rewrite Ew, decide_True by done. set_solver.
Qed.

(** ** The pump *)

Lemma in_class_snoc c l r :
  in_class c (l ++ [r]) = if decide (rq_class r = c) then in_class c l ++ [r] else in_class c l.
Proof.
  unfold in_class. rewrite filter_app, filter_cons, filter_nil. case_decide; [done|by rewrite app_nil_r].
Qed.

Lemma tracks_take x r kc q :
  tracks None x -> pump x = PRun -> queue (sch x) (rq_class r) = r :: q ->
  tracks None (mkSys (set_active (Some r) (set_cursor kc (pop_queues (sch x) (rq_class r))))
                 (PWriting r) (calls x) (written x ++ [r]) (accepted x)).
Proof.
  intros [[[I1 I2 I3 I4 I5 I6 I7] [W1 W2 W3 W4 W5]] Hc] Hp Hq.
  set (x' := mkSys _ _ _ _ _).
  assert (forall c', queue (sch x') c' = if decide (rq_class r = c') then q else queue (sch x) c') as Eq.
  { intros c'. unfold x'. simpl. unfold pop_queues. rewrite Hq. apply mlookup_insert. }
  assert (forall r', known x' r' <-> known x r') as Hk.
  { intros r'. unfold known. change (written x') with (written x ++ [r]). split.
    - intros [[?|?%list_elem_of_singleton]%elem_of_app|[c' Hin]]; [by left| |].
      + subst r'. right. exists (rq_class r). rewrite Hq. set_solver.
      + right. exists c'. rewrite Eq in Hin. case_decide; [subst; rewrite Hq; set_solver|done].
    - intros [?|[c' Hin]]; [left; set_solver|]. destruct (decide (rq_class r = c')) as [<-|Hne].
      + rewrite Hq in Hin. apply elem_of_cons in Hin as [->|?]; [left; set_solver|right].
        exists (rq_class r). by rewrite Eq, decide_True.
      + right. exists c'. by rewrite Eq, decide_False. }
  assert (forall j, never x' j <-> never x j) as Hn.
  { intros j. unfold never. by setoid_rewrite Hk. }
  assert (forall c', line x' c' = line x c') as Hl.
  { intros c'. unfold line. rewrite Eq. change (written x') with (written x ++ [r]).
    rewrite in_class_snoc. case_decide; [subst|done]. by rewrite Hq, <- app_assoc. }
  assert (forall c' r', r' ∈ queue (sch x') c' -> r' ∈ queue (sch x) c') as Hsub.
  { intros c' r'. rewrite Eq. case_decide; [subst; rewrite Hq; set_solver|done]. }
  assert (r ∈ queue (sch x) (rq_class r)) as Hr by (rewrite Hq; set_solver).
  split; [split; constructor|]; try done.
  - intros r' ?%Hk. by apply I1.
  - intros r1 r2 ?%Hk ?%Hk. by apply I2.
  - intros c'. by rewrite Hl.
  - intros c' r' ?%Hsub. by eapply I4.
  - intros r' [= <-]. split; [set_solver|]. by eapply I4.
  - intros c' w. rewrite Hn. apply W1.
  - intros a v. rewrite Hn. apply W4.
  - intros k c Hk' Hne. destruct (Hc k c Hk' Hne) as [? Hco]. split; [done|].
    assert (forall j, tracked x c j -> tracked x' c j) as Ht.
    { intros j. unfold tracked. setoid_rewrite Hn. rewrite Eq, Hp. simpl.
      intros [Hin|[[=]|[?|?]]]; [|by right; right; left|by right; right; right].
      case_decide as Heq; [|by left].
      rewrite <- Heq, Hq in Hin. apply elem_of_cons in Hin as [->|?]; auto. }
    revert Hco. apply call_ok_mono; try done; [intros j; by rewrite Hn|].
    apply withdrawn_mono; [by rewrite Hn|by left|done].
Qed.

Lemma tracks_pump ex x p :
  tracks ex x -> inflight p = inflight (pump x) ->
  (forall r err, p = PAnswer r err ->
     match err with None => r ∈ accepted x | Some e => is_writer_err e end) ->
  tracks ex (set_pump p x).
Proof.
  intros [[[I1 I2 I3 I4 I5 I6 I7] [W1 W2 W3 W4 W5]] Hc] Hp Ha.
  split; [split; constructor; try done|].
  - simpl. rewrite Hp. exact I6.
  - intros k c Hk Hne. destruct (Hc k c Hk Hne) as [? Hco]. split; [done|].
    unfold call_ok, tracked in *. simpl. rewrite Hp. done.
Qed.

Lemma tracks_accept ex x r :
  tracks ex x -> tracks ex (mkSys (sch x) (pump x) (calls x) (written x) (accepted x ++ [r])).
Proof.
  intros [[[I1 I2 I3 I4 I5 I6 I7] [W1 W2 W3 W4 W5]] Hc].
  split; [split; constructor; try done|].
  - simpl. intros r' err Hp. specialize (I7 r' err Hp). destruct err; [done|set_solver].
  - intros k c Hk Hne. destruct (Hc k c Hk Hne) as [? Hco]. split; [done|].
    set (x' := mkSys _ _ _ _ _).
    assert (forall j, tracked x c j -> tracked x' c j) as Ht.
    { intros j [?|[?|[[? ?]|?]]]; [by left|by right; left| |by right; right; right].
      right; right; left. split; [done|]. apply elem_of_app. by left. }
    revert Hco. apply call_ok_mono; try done. intros r'. simpl. rewrite elem_of_app. by left.
Qed.

Lemma tracks_answer x r err :
  queues_wf (sch x) -> tracks None x -> pump x = PAnswer r err ->
  tracks None (set_pump PRun (set_sch (pump_answer (sch x) r err) x)).
Proof.
  intros Hwf [[Hi Hwi] Hc] Hp.
  destruct (ids_inflight _ Hi r) as [Hwr Hnd]; [by rewrite Hp|].
  pose proof (ids_answer _ Hi r err Hp) as Hans.
  pose proof (fun c r' => written_not_queued x r c r' Hi Hwf Hwr) as Hnq.
  pose proof Hi as [I1 I2 I3 I4 I5 I6 I7]. pose proof Hwi as [W1 W2 W3 W4 W5].
  split; [split; constructor; try done|]; simpl.
  - intros c r' Hr'. rewrite lookup_insert_ne; [by eapply I4|]. intros Heq. by eapply Hnq.
  - intros i. rewrite lookup_insert. case_decide; [subst; intros _; apply I1; by left|auto].
  - intros k c Hk Hne. destruct (Hc k c Hk Hne) as [? Hco]. split; [done|].
    revert Hco. apply call_ok_mono; try done. intros i. unfold tracked. rewrite Hp. simpl.
    rewrite lookup_insert. intros [Hin|[[= ->]|Hd]]; [by left| |].
    + right; right. rewrite decide_True by done. destruct err as [e|]; eauto 10.
    + right; right. rewrite decide_False; [done|]. intros <-. rewrite Hnd in Hd.
      destruct Hd as [[[=] _]|(e&[=]&_)].
Qed.

(** [fail_all] (with or without the release of the active request) answers everybody. *)
Lemma failed_all_intro x s1 e b :
  (forall c, queue s1 c = queue (sch x) c) -> (forall c, waiters s1 c = waiters (sch x) c) ->
  ready s1 = ready (sch x) -> done s1 = done (sch x) -> fresh s1 = fresh (sch x) ->
  failed_all x (set_sch (set_notify b (fail_all s1 e)) x) e.
Proof.
  intros Hq Hw Hr Hd Hf. constructor; simpl; try done.
  - intros c. apply mlookup_fmap_nil.
  - intros c. apply mlookup_fmap_nil.
  - intros i. rewrite <- Hr. setoid_rewrite <- Hw.
    apply (failWaiters_ready (set_terminal (Some e) s1) e i).
  - intros i. rewrite <- Hd. setoid_rewrite <- Hq.
    apply (failQueued_done (failAdmissionWaitersLocked (set_terminal (Some e) s1) e) e i).
Qed.

Lemma tracks_failed ex x x' e :
  failed_all x x' e -> queues_wf (sch x) -> tracks ex x -> tracks ex x'.
Proof. intros Hf Hwf [Hi Hc]. split; [by eapply ids_failed|by eapply calls_failed]. Qed.

Lemma tracks_signal ex x : tracks ex x -> tracks ex (set_sch (signalLocked (sch x)) x).
Proof. apply tracks_shrunk_same; [by constructor|done..]. Qed.

Lemma tracks_finish x r err :
  core (sch x) -> active (sch x) = Some r -> tracks None x ->
  tracks None (set_sch (pump_finish (sch x) r err) x).
Proof.
  intros Hs Ha Ht. rewrite pump_finish_eq. pose proof (core_finish_base _ r Hs Ha) as Hb.
  assert (tracks None (set_sch (finish_base (sch x) r) x)) as Ht1
    by (eapply tracks_shrunk_same; [..|exact Ht]; [by constructor|done..]).
  destruct err as [e|], (terminal (sch x)); try by apply (tracks_signal _ (set_sch _ x)).
  - eapply tracks_failed; [by apply (failed_all_intro x (finish_base (sch x) r) e)|apply Hs|done].
  - apply (tracks_signal _ (set_sch _ x)).
    by apply (tracks_admit None (set_sch (finish_base (sch x) r) x) (rq_class r) 0).
Qed.

(** * Every event keeps the invariant *)

Definition full_inv (x : sys) : Prop := sched_inv (sch x) (pump x) /\ tracks None x.

Lemma tracks_ready x k c i :
  tracks None x -> calls x !! k = Some c -> (exists f, cl_state c = CAdmit f) ->
  ready (sch x) !! k = Some (inr i) -> tracks None (set_call k c (CQueued i false) x).
Proof.
  intros [[Hi Hw] Hc] Hk [f Hst] Hr. destruct (Hc k c Hk ltac:(done)) as [? Hco].
  apply tracks_set; [split; [done|by apply calls_ok_weaken]|done|].
  unfold call_ok in *. rewrite Hst in Hco. simpl. split_and!; [by left|by eapply ready_below|].
  destruct Hco as [Hin|[[e He]|(j&Hj&?)]]; [|congruence|by simplify_eq].
  destruct (ids_waiter _ Hw _ _ Hin) as (_&?&_). simpl in *. congruence.
Qed.

Lemma tracks_done x k c i f err :
  tracks None x -> calls x !! k = Some c -> cl_state c = CQueued i f ->
  done (sch x) !! i = Some err -> tracks None (set_call k c (CReturned (Some i) err) x).
Proof.
  intros [[Hi Hw] Hc] Hk Hst Hd. destruct (Hc k c Hk ltac:(done)) as [? Hco].
  apply tracks_set; [split; [done|by apply calls_ok_weaken]|done|].
  unfold call_ok in *. rewrite Hst in Hco. destruct Hco as (_&_&Ht). simpl.
  destruct Ht as [Hin|[Hfl|[[Hd' ?]|(e&Hd'&?)]]].
  - apply (ids_undone _ Hi) in Hin. simpl in Hin. congruence.
  - apply (ids_inflight _ Hi) in Hfl as [_ Hfl]. simpl in Hfl. congruence.
  - simplify_eq. eauto.
  - simplify_eq. naive_solver.
Qed.

Lemma fresh_admit s c : core s -> (fresh s <= fresh (admitWaitersLocked s c))%nat.
Proof. intros Hs. by destruct (admitWaiters_frame s c Hs) as [(_&_&_&_&_&_&?) _]. Qed.

Lemma tracks_exec_cancel_admit x k x' :
  full_inv x -> exec (ECancelAdmit k) x = Some x' -> tracks None x'.
Proof.
  intros [Hi Ht] Hx. pose proof (inv_core _ _ Hi) as Hs. pose proof Ht as [Hids Hc].
  simpl in Hx. apply bind_Some in Hx as (c&Hk&Hx). destruct (Hc k c Hk ltac:(done)) as [? Hco].
  destruct (cl_state c) as [[]| |] eqn:Hst; [done| |done..].
  destruct (send_cancel_admission _ _ _) as [b s'] eqn:Hb.
  apply cancel_admission_spec in Hb as [(->&->&_)|(l1&w&l2&kc&->&Hid&Hw&Hkc&->&_)]; [| |done];
    simplify_eq.
  - apply (tracks_set _ _ _ (set_sch (sch x) x)); [by destruct x; split; [|apply calls_ok_weaken]|done|].
    unfold call_ok in Hco |- *. rewrite Hst in Hco. exact Hco.
  - destruct (tracks_cancel_waiter x _ _ _ _ _ kc Hs Ht Hw eq_refl Hkc) as [Ht' Hwd].
    apply tracks_set; [exact Ht'| |right; exact Hwd].
    eapply Nat.lt_le_trans; [done|]. etransitivity; [|apply fresh_admit; by eapply core_drop_waiter].
    done.
Qed.

Lemma tracks_exec_cancel_queued x k x' :
  full_inv x -> exec (ECancelQueued k) x = Some x' -> tracks None x'.
Proof.
  intros [Hi Ht] Hx. pose proof (inv_core _ _ Hi) as Hs. pose proof Ht as [Hids Hc].
  simpl in Hx. apply bind_Some in Hx as (c&Hk&Hx). destruct (Hc k c Hk ltac:(done)) as [? Hco].
  destruct (cl_state c) as [|i []|] eqn:Hst; [done..| |done].
  destruct (send_cancel_queued _ _ _) as [b s'] eqn:Hb.
  apply cancel_queued_spec in Hb as [(->&->&_)|(l1&r&l2&kc&->&Hid&Hq&Hkc&->&_)]; [| |done];
    simplify_eq; unfold call_ok in Hco; rewrite Hst in Hco.
  - apply (tracks_set _ _ _ (set_sch (sch x) x)); [by destruct x; split; [|apply calls_ok_weaken]|done|].
    exact Hco.
  - destruct (tracks_cancel_request x _ k _ _ _ kc Hs Ht Hq (proj1 Hco) Hkc) as [Ht' Hn].
    apply tracks_set; [exact Ht'| |right; exact Hn].
    eapply Nat.lt_le_trans; [done|]. etransitivity; [|apply fresh_admit; by eapply core_drop_request].
    done.
Qed.

Lemma tracks_exec_lock x x' :
  full_inv x -> exec EPumpLock x = Some x' -> tracks None x'.
Proof.
  intros [Hi Ht] Hx. simpl in Hx. destruct (pump x) eqn:Hp; try done.
  destruct (terminal (sch x)).
  { simplify_eq. apply tracks_pump; [done|by rewrite Hp|done]. }
  destruct (pump_take_spec (sch x)) as [(_&Htk)|(r&kc&_&Htk&(Hh&_)&_)]; [apply Hi|..];
    rewrite Htk in Hx; simplify_eq.
  - apply (tracks_pump _ (set_sch (sch x) x)); [by destruct x|by simpl; rewrite Hp|done].
  - destruct (queue (sch x) (rq_class r)) as [|r' q] eqn:Hq; [done|]. simplify_eq/=.
    by eapply tracks_take.
Qed.

Lemma tracks_exec_writer x err x' :
  full_inv x -> exec (EWriter err) x = Some x' -> tracks None x'.
Proof.
  intros [Hi Ht] Hx. simpl in Hx. destruct (pump x) as [|r| | |] eqn:Hp; try done. simplify_eq.
  assert (active (sch x) = Some r) as Ha by by rewrite (inv_active _ _ Hi), ?Hp.
  pose proof (tracks_finish x r (WriterErr <$> err) (inv_core _ _ Hi) Ha Ht) as Hf.
  destruct err as [code|]; simpl in *.
  - apply (tracks_pump _ _ (PAnswer r (Some (WriterErr code)))) in Hf; [done|by simpl; rewrite Hp|].
    intros r' e [= <- <-]. by exists code.
  - apply (tracks_accept _ _ r) in Hf.
    apply (tracks_pump _ _ (PAnswer r None)) in Hf; [done|by simpl; rewrite Hp|].
    intros r' e [= <- <-]. simpl. set_solver.
Qed.

Lemma tracks_exec e x x' : full_inv x -> exec e x = Some x' -> tracks None x'.
Proof.
  intros Hfull Hx. pose proof Hfull as [Hi Ht]. pose proof (inv_core _ _ Hi) as Hs.
  pose proof Ht as [Hids Hc].
  destruct e as [ctx c k pl|k|k|k|k| |err| | |];
    eauto using tracks_exec_cancel_admit, tracks_exec_cancel_queued, tracks_exec_lock,
      tracks_exec_writer; simpl in Hx.
  - destruct (send_begin _ _ _ _ _) as [o s'] eqn:Hb.
    apply send_begin_spec in Hb as [(e&->&->)|(cap&_&_&_&[(_&_&r&He&->)|(_&->&->)])]; simplify_eq.
    + by destruct x.
    + by eapply tracks_begin_enqueue.
    + by apply tracks_begin_wait.
  - apply bind_Some in Hx as (c&Hk&Hx). destruct (cl_state c) as [f| |] eqn:Hst; [|done..].
    destruct (ready (sch x) !! k) as [[err|i]|] eqn:Hr; simplify_eq; [|eapply tracks_ready; eauto].
    apply tracks_set; [split; [done|by apply calls_ok_weaken]|by apply (Hc k c Hk)|].
    right. destruct Hids as [_ Hwi]. destruct (ids_ready _ Hwi _ _ Hr) as [Hn _]. split_and!; [exact Hn| |intros i; by rewrite Hr].
    intros c' w Hin Hid. destruct (ids_waiter _ Hwi _ _ Hin) as (_&Hnone&_). congruence.
  - apply bind_Some in Hx as (c&Hk&Hx). destruct (cl_state c) as [|i f|] eqn:Hst; [done| |done].
    apply bind_Some in Hx as (err&Hd&[= <-]). by eapply tracks_done.
  - destruct (pump x) eqn:Hp; try done. simplify_eq. by apply tracks_answer; [apply Hs|..].
  - destruct (pump x) eqn:Hp; try done. case_decide; simplify_eq.
    apply tracks_pump; [done|by rewrite Hp|done].
  - simplify_eq. rewrite Close_eq. destruct (terminal (sch x)); [by destruct x|].
    eapply tracks_failed; [by apply (failed_all_intro x (sch x))|apply Hs|done].
Qed.

Lemma full_inv_reachable x : reachable x -> full_inv x.
Proof.
  intros Hr. split; [by apply sched_inv_reachable|].
  induction Hr as [|e x x' Hr IH He].
  - assert (forall r, known sys0 r -> False) as Hno.
    { intros r [Hr|[c Hr]]; by apply elem_of_nil in Hr. }
    split; [split; constructor|done]; simpl; try done.
    all: try (by intros ? ?%Hno); try (by intros ? ? ?%Hno); try (by intros c; constructor);
      try (by intros ? ? ?%elem_of_nil); try (by intros ? ? ? ? ?%elem_of_nil).
    by intros i [? Hd].
  - eapply tracks_exec; [|exact He]. split; [by apply sched_inv_reachable|done].
Qed.

(** * Properties *)

(** A concrete run used by the witnesses: two bulk requests are queued, the
    context of the second ends, and a control frame is written first. *)
Definition demo_payload (n : nat) : bytes := replicate n x2a.
Definition demo_run : list event :=
  [ ECall false ClassBulk KindBinary (demo_payload 20);
    ECall false ClassBulk KindBinary (demo_payload 10);
    ECall false ClassControl KindText (demo_payload 3);
    ECancelQueued 1; EPumpLock; EWriter None; EAnswer; EDone 2 ].
Definition demo_state : sys := default sys0 (execs demo_run sys0).

Lemma demo_reachable : reachable demo_state.
Proof.
  apply (execs_reachable demo_run sys0); [constructor|]. unfold demo_state.
  assert ((if execs demo_run sys0 is Some _ then true else false) = true) as He
    by (vm_compute; reflexivity).
  by destruct (execs demo_run sys0).
Qed.

(** C25 (invariant). In every reachable state of the scheduler the bytes
    admitted for a class are exactly those of its queued requests and of the
    one being written, they never exceed the class's cap, the deficits and
    cursors of both round-robin levels are in range, and the first sender
    waiting for admission to a class really does not fit. *)
Theorem scheduler_bounded x c :
  reachable x ->
  admitted (sch x) c = qsum (queue (sch x) c) + active_size (sch x) c
  /\ admitted (sch x) c <= default 0 (classCap c)
  /\ cursor_wf (cursor (sch x)) /\ blocked_at (sch x) c.
Proof.
  intros [[[] Hb _ _] _]%full_inv_reachable. split_and!; auto; apply core_cursor.
Qed.

Lemma scheduler_bounded_witness :
  admitted (sch demo_state) ClassBulk = 20
  /\ admitted (sch demo_state) ClassBulk <= 256 * 1024.
Proof.
  pose proof (scheduler_bounded demo_state ClassBulk demo_reachable) as (H1&H2&_).
  split; [vm_compute; reflexivity|exact H2].
Defined.

(** C37 (functional). When [Send] returns nil, the writer accepted a request
    with exactly the call's class, kind and payload.  When it returns an error
    that is not the writer's own (the context ended, or the scheduler was closed),
    its payload never was and never will be handed to the writer: a request that
    was queued for it is neither written nor queued, and a call that was not
    admitted waits no more and has no request, so nothing can admit it later. *)
Theorem send_result_meaning x k c rq err :
  reachable x -> calls x !! k = Some c -> cl_state c = CReturned rq err ->
  match err with
  | None => exists i, rq = Some i /\ call_request c i ∈ accepted x
  | Some e => is_writer_err e \/ unsent x k rq
  end.
Proof.
  intros [_ [_ Hc]]%full_inv_reachable Hk Hst. destruct (Hc k c Hk ltac:(done)) as [_ Hco].
  unfold call_ok in Hco. by rewrite Hst in Hco.
Qed.

(** A call that waits behind a full class is cancelled. *)
Definition demo_crowd : list event :=
  replicate 14 (ECall false ClassBulk KindBinary (demo_payload (200 * 100))) ++ [ECancelAdmit 13].
Definition demo_crowded : sys := default sys0 (execs demo_crowd sys0).
Definition demo_turned_away : call := default (mkCall ClassBulk KindBinary [] (CAdmit false)) (calls demo_crowded !! 13%nat).

Lemma send_result_meaning_witness :
  (exists i, call_request (mkCall ClassControl KindText (demo_payload 3) (CReturned (Some 2) None)%nat) i
            ∈ accepted demo_state)
  /\ (is_writer_err CtxErr \/ unsent demo_crowded 13 None).
Proof.
  split.
  - destruct (send_result_meaning demo_state 2
      (mkCall ClassControl KindText (demo_payload 3) (CReturned (Some 2) None)%nat) (Some 2%nat) None)
      as (i&_&Hi); [exact demo_reachable|vm_compute; reflexivity|reflexivity|].
    exists i. exact Hi.
  - apply (send_result_meaning demo_crowded 13 demo_turned_away None (Some CtxErr)); [| |vm_compute; reflexivity].
    + apply (execs_reachable demo_crowd sys0); [constructor|]. unfold demo_crowded.
      assert ((if execs demo_crowd sys0 is Some _ then true else false) = true) as He by (vm_compute; reflexivity).
      destruct (execs demo_crowd sys0); [reflexivity|discriminate He].
    + unfold demo_turned_away.
      assert ((if calls demo_crowded !! 13%nat is Some _ then true else false) = true) as He by (vm_compute; reflexivity).
      destruct (calls demo_crowded !! 13%nat); [reflexivity|discriminate He].
Defined.

(** Within a class, the requests handed to the writer and those
    still queued form one strictly increasing sequence of admission numbers:
    the writer gets each request at most once and in the order of admission,
    whatever cancellations, failures and other classes interleave. *)
Theorem class_order_once x c : reachable x -> StronglySorted lt (line x c).
Proof. intros [_ [[Hi _] _]]%full_inv_reachable. apply (ids_line _ Hi). Qed.

Lemma class_order_once_witness : StronglySorted lt (line demo_state ClassBulk).
Proof. apply class_order_once. exact demo_reachable. Defined.

Definition pump_event (e : event) : Prop :=
  e = EPumpLock \/ e = EAnswer \/ e = EWake \/ e = EWriter None.

Definition pending (c : call) : Prop :=
  match cl_state c with CReturned _ _ => False | _ => True end.

Lemma pump_moves x c :
  reachable x -> is_Some (classCap c) ->
  queue (sch x) c <> [] \/ is_Some (inflight (pump x)) ->
  exists e, pump_event e /\ is_Some (exec e x).
Proof.
  intros Hr Hc Hwork. destruct (full_inv_reachable x Hr) as [Hi _].
  pose proof (inv_wake _ _ Hi) as Hw. pose proof (core_terminal _ (inv_core _ _ Hi)) as Hterm.
  unfold pump_event. destruct (pump x) eqn:Hp; simpl in Hw, Hwork.
  - exists EPumpLock. split; [auto|]. simpl. rewrite Hp. destruct (terminal (sch x)); [eauto|].
    destruct (pump_take_spec _ (inv_core _ _ Hi)) as [(_&->)|(r&k&_&->&_)]; eauto.
  - exists (EWriter None). split; [auto|]. simpl. rewrite Hp. eauto.
  - exists EAnswer. split; [auto|]. simpl. rewrite Hp. eauto.
  - exists EWake. split; [auto|]. simpl. rewrite Hp. case_decide as Hn; [|eauto].
    destruct (proj2 Hw Hn) as [Hidle _]. destruct Hwork as [Hq|[? [=]]]. by rewrite Hidle in Hq.
  - destruct (Hterm Hw c) as [Hq _]. destruct Hwork as [?|[? [=]]]. done.
Qed.

(** C38 (liveness). No call of [Send] is ever stuck: in every reachable state a
    pending call can receive its answer, or the pump can move (it is never
    asleep on a notification that was already given while a request is
    queued, and never gone while one waits). *)
Theorem send_never_stuck x k c :
  reachable x -> calls x !! k = Some c -> pending c ->
  is_Some (exec (EReady k) x) \/ is_Some (exec (EDone k) x)
  \/ exists e, pump_event e /\ is_Some (exec e x).
Proof.
  intros Hr Hk Hpend. destruct (full_inv_reachable x Hr) as [Hi [[Hri Hwi] Hc]].
  destruct (Hc k c Hk ltac:(done)) as [_ Hco]. unfold call_ok in Hco. unfold pending in Hpend.
  pose proof (inv_core _ _ Hi) as Hs.
  destruct (cl_state c) as [f|i f|] eqn:Hst; [| |done].
  - destruct Hco as [Hin|[[e He]|(i&He&_)]].
    + right; right. apply (pump_moves x (cl_class c)); [done|..].
      { pose proof (core_waiters _ Hs (cl_class c)) as Hok. rewrite Forall_forall in Hok.
        destruct (Hok _ Hin) as (_&cap&?&_). eauto. }
      pose proof (core_waiters _ Hs (cl_class c)) as Hok.
      destruct (waiters (sch x) (cl_class c)) as [|w ws] eqn:Hws; [by apply elem_of_nil in Hin|].
      pose proof (inv_blocked _ _ Hi _ _ _ Hws) as Hb. apply Forall_cons_1 in Hok as [(_&cap&Hcap&?) _].
      rewrite Hcap in Hb. simpl in Hb. rewrite (core_bytes _ Hs) in Hb.
      destruct (queue (sch x) (cl_class c)); [right|by left]. simpl in Hb.
      unfold active_size in Hb. rewrite (inv_active _ _ Hi) in Hb.
      destruct (pump x); simpl in *; eauto; lia.
    + left. simpl. rewrite Hk. simpl. rewrite Hst, He. eauto.
    + left. simpl. rewrite Hk. simpl. rewrite Hst, He. eauto.
  - destruct Hco as (_&_&[Hin|[Hfl|Hd]]).
    + right; right. apply (pump_moves x (cl_class c)); [done|..].
      { pose proof (core_queues _ Hs (cl_class c)) as Hok. rewrite Forall_forall in Hok.
        destruct (Hok _ Hin) as (_&cap&?&_). eauto. }
      left. intros Hn. rewrite Hn in Hin. by apply elem_of_nil in Hin.
    + right; right. apply (pump_moves x ClassControl); [done|by eexists|]. right. eauto.
    + right; left. simpl. rewrite Hk. simpl. rewrite Hst.
      destruct Hd as [[-> _]|(e&->&_)]; eauto.
Qed.

Lemma send_never_stuck_witness :
  is_Some (exec (EReady 0) demo_state) \/ is_Some (exec (EDone 0) demo_state)
  \/ exists e, pump_event e /\ is_Some (exec e demo_state).
Proof.
  apply (send_never_stuck demo_state 0
    (mkCall ClassBulk KindBinary (demo_payload 20) (CQueued 0 false)%nat));
    [exact demo_reachable|vm_compute; reflexivity|exact I].
Defined.

(** Once the scheduler is terminal (closed, or its writer
    failed), every pending call has its answer waiting, except the one whose
    request the pump still holds. *)
Theorem terminal_answers_all x k c :
  reachable x -> is_Some (terminal (sch x)) -> calls x !! k = Some c -> pending c ->
  is_Some (exec (EReady k) x) \/ is_Some (exec (EDone k) x)
  \/ exists i, inflight (pump x) = Some (call_request c i).
Proof.
  intros Hr Ht Hk Hpend. destruct (full_inv_reachable x Hr) as [Hi [_ Hc]].
  destruct (core_terminal _ (inv_core _ _ Hi) Ht (cl_class c)) as [Hq Hw].
  destruct (Hc k c Hk ltac:(done)) as [_ Hco]. unfold call_ok, tracked in Hco.
  rewrite Hq, Hw in Hco. unfold pending in Hpend. simpl. rewrite Hk. simpl.
  destruct (cl_state c) as [f|i f|] eqn:Hst; [| |done].
  - left. destruct Hco as [?%elem_of_nil|[[e ->]|(i&->&_)]]; [done|eauto..].
  - destruct Hco as (_&_&[?%elem_of_nil|[?|[[-> _]|(e&->&_)]]]); [done|eauto..].
Qed.

Definition closed_state : sys := default sys0 (exec EClose demo_state).
Lemma terminal_answers_all_witness :
  is_Some (exec (EReady 0) closed_state) \/ is_Some (exec (EDone 0) closed_state)
  \/ exists i, inflight (pump closed_state)
       = Some (call_request (mkCall ClassBulk KindBinary (demo_payload 20) (CQueued 0 false)%nat) i).
Proof.
  apply (terminal_answers_all closed_state 0
    (mkCall ClassBulk KindBinary (demo_payload 20) (CQueued 0 false)%nat)).
  - eapply (reach_step EClose); [exact demo_reachable|reflexivity].
  - exists ErrSchedulerClosed. vm_compute. reflexivity.
  - vm_compute. reflexivity.
  - exact I.
Defined.
