(* ===== verification/SchedulerFair.v ===== *)
(** Fair sharing of the link: over any stretch of an execution in which both
    lanes keep requests queued, media gets three bytes for each byte of bulk
    up to a constant, and control traffic cannot hold data back for more than
    its burst limit. *)

From S2P Require Import Prelude Lanes Scheduler SchedulerDRR SchedulerSys SchedulerCalls.
#[local] Open Scope Z_scope.

(** A stretch of execution whose states all satisfy [P]; the list holds the
    requests handed to the writer meanwhile. *)
Inductive stretch (P : sys -> Prop) (x : sys) : list sendRequest -> sys -> Prop :=
| stretch_nil : P x -> stretch P x [] x
| stretch_step l e y z :
    stretch P x l y -> exec e y = Some z -> P z ->
    stretch P x (l ++ drop (length (written y)) (written z)) z.

Lemma stretch_end P x l y : stretch P x l y -> P y.
Proof. by destruct 1. Qed.

Lemma stretch_reachable P x l y : reachable x -> stretch P x l y -> reachable y.
Proof. induction 2; [done|by eapply reach_step]. Qed.

(** A class with requests after an admission had demand before it. *)
Lemma demand_admit s c c' :
  core s -> nonempty (queue (admitWaitersLocked s c) c') = true -> hasClassDemandLocked s c' = true.
Proof.
  intros Hs Hn. unfold hasClassDemandLocked. apply orb_true_iff.
  destruct (admitWaiters_frame s c Hs) as [(Hf&_) _].
  destruct (decide (c' = c)) as [->|Hne]; [|left; by destruct (Hf c' Hne) as [<- _]].
  destruct (waiters s c) as [|w ws] eqn:Hw; [left|right; apply nonempty_cons].
  rewrite admitWaiters_stop in Hn; [done|]. intros w ws Hw'. congruence.
Qed.

Lemma both_demand_admit s c :
  core s -> hasMediaLocked (admitWaitersLocked s c) = true ->
  nonempty (queue (admitWaitersLocked s c) ClassBulk) = true -> both_demand s.
Proof.
  intros Hs Hm Hb. split; [|by eapply demand_admit].
  unfold hasMediaDemandLocked, hasMediaLocked in *. apply orb_true_iff.
  apply orb_true_iff in Hm as [?|?]; [left|right]; by eapply demand_admit.
Qed.

(** How an event changes the cursor: it takes nothing and changes at most what
    resetting an empty lane changes, or the pump takes a request. *)
Definition cursor_kept (s s' : Scheduler) : Prop :=
  controlBurst (cursor s') = controlBurst (cursor s)
  /\ (hasMediaLocked s' = true -> nonempty (queue s' ClassBulk) = true ->
      outerDeficit (cursor s') = outerDeficit (cursor s)).

Lemma cursor_kept_same s s' : cursor s' = cursor s -> cursor_kept s s'.
Proof. intros Hc. split; by rewrite Hc. Qed.

Lemma cursor_kept_admit s s1 c k :
  core s1 -> cursor s1 = k ->
  controlBurst k = controlBurst (cursor s) ->
  (both_demand s1 -> outerDeficit k = outerDeficit (cursor s)) ->
  cursor_kept s (admitWaitersLocked s1 c).
Proof.
  intros Hs <- Hcb Hd. destruct (admitWaiters_frame s1 c Hs) as [(_&_&_&_&_&Hc&_) _].
  split; rewrite Hc; [done|]. intros Hm Hb. apply Hd. by eapply both_demand_admit.
Qed.

Lemma cursor_kept_finish s r err :
  core s -> active s = Some r -> cursor_kept s (pump_finish s r err).
Proof.
  intros Hs Ha. rewrite pump_finish_eq.
  pose proof (core_finish_base s r Hs Ha) as Hb.
  destruct err, (terminal s); try by apply cursor_kept_same.
  apply cursor_kept_same. simpl.
  by destruct (admitWaiters_frame _ (rq_class r) Hb) as [(_&_&_&_&_&->&_) _].
Qed.

Lemma exec_cursor e x x' :
  full_inv x -> exec e x = Some x' ->
  (written x' = written x /\ cursor_kept (sch x) (sch x'))
  \/ exists r k, written x' = written x ++ [r]
     /\ sch x' = set_active (Some r) (set_cursor k (pop_queues (sch x) (rq_class r)))
     /\ next_post (sch x) r k /\ burst_post (sch x) r k.
Proof.
  intros [Hi _] Hx. pose proof (inv_core _ _ Hi) as Hs.
  destruct e as [ctx c k pl|k|k|k|k| |err| | |]; simpl in Hx.
  - left. destruct (send_begin _ _ _ _ _) as [o s'] eqn:Hb.
    apply send_begin_spec in Hb as [(e&->&->)|(cap&_&_&_&[(_&_&r&He&->)|(_&->&->)])]; simplify_eq.
    + split; [done|by apply cursor_kept_same].
    + split; [done|]. apply enqueue_effect in He as (->&_&_&_&_&_&_&Hc&_). by apply cursor_kept_same.
    + split; [done|by apply cursor_kept_same].
  - left. apply bind_Some in Hx as (c&_&Hx). repeat case_match; simplify_eq;
      (split; [done|by apply cursor_kept_same]).
  - left. apply bind_Some in Hx as (c&_&Hx). destruct (cl_state c) as [[]| |]; [done| |done..].
    destruct (send_cancel_admission _ _ _) as [b s'] eqn:Hb.
    apply cancel_admission_spec in Hb as [(->&->&_)|(l1&w&l2&kc&->&Hid&Hw&Hkc&->&Hp)]; [| |done];
      simplify_eq; (split; [done|]); [by apply cursor_kept_same|].
    destruct Hp as (_&Hcb&Hd). eapply cursor_kept_admit; [by eapply core_drop_waiter|done..].
  - left. apply bind_Some in Hx as (c&_&Hx). destruct (cl_state c); [done| |done].
    apply bind_Some in Hx as (?&_&[= <-]). split; [done|by apply cursor_kept_same].
  - left. apply bind_Some in Hx as (c&_&Hx). destruct (cl_state c) as [|i []|]; [done..| |done].
    destruct (send_cancel_queued _ _ _) as [b s'] eqn:Hb.
    apply cancel_queued_spec in Hb as [(->&->&_)|(l1&r&l2&kc&->&Hid&Hq&Hkc&->&Hp)]; [| |done];
      simplify_eq; (split; [done|]); [by apply cursor_kept_same|].
    destruct Hp as (_&Hcb&Hd). eapply cursor_kept_admit; [by eapply core_drop_request|done..].
  - destruct (pump x); try done. destruct (terminal (sch x)).
    { left. simplify_eq. split; [done|by apply cursor_kept_same]. }
    destruct (pump_take_spec (sch x) Hs) as [(_&Ht)|(r&kc&_&Ht&Hn&Hb)]; rewrite Ht in Hx; simplify_eq.
    + left. split; [done|by apply cursor_kept_same].
    + right. by exists r, kc.
  - left. destruct (pump x) eqn:Hp; try done. simplify_eq. split; [done|].
    apply cursor_kept_finish; [done|]. by rewrite (inv_active _ _ Hi), ?Hp.
  - left. destruct (pump x); try done. simplify_eq. split; [done|by apply cursor_kept_same].
  - left. destruct (pump x); try done. case_decide; simplify_eq. split; [done|by apply cursor_kept_same].
  - left. simplify_eq. split; [done|]. simpl. rewrite Close_eq.
    destruct (terminal (sch x)); by apply cursor_kept_same.
Qed.

Lemma taken_snoc {A} (l : list A) r : drop (length l) (l ++ [r]) = [r].
Proof. rewrite drop_app_length. done. Qed.

(** * Shares *)

Definition lane_bytes (p : TrafficClass -> bool) (l : list sendRequest) : Z :=
  qsum (filter (fun r => p (rq_class r)) l).
Definition is_media (c : TrafficClass) : bool :=
  bool_decide (c = ClassInteractiveMedia \/ c = ClassThumbnail).
Definition is_bulk (c : TrafficClass) : bool := bool_decide (c = ClassBulk).

Definition both_queued (x : sys) : Prop :=
  hasMediaLocked (sch x) = true /\ nonempty (queue (sch x) ClassBulk) = true.

Definition share (l : list sendRequest) : Z := lane_bytes is_media l - 3 * lane_bytes is_bulk l.

Lemma share_nil : share [] = 0.
Proof. done. Qed.

Lemma share_app l1 l2 : share (l1 ++ l2) = share l1 + share l2.
Proof. unfold share, lane_bytes. rewrite !filter_app, !qsum_app. lia. Qed.

Lemma share_weight s r k :
  queues_wf s -> next_post s r k -> burst_post s r k -> share [r] = grant_weight r.
Proof.
  intros Hq (Hh&_) Hb. unfold share, lane_bytes, grant_weight, burst_post in *.
  rewrite !filter_cons, !filter_nil. unfold is_media, is_bulk.
  destruct (decide (rq_class r = ClassControl)) as [->|_]; [done|].
  destruct Hb as [[-> |[-> | ->]] _]; repeat case_decide; try done; unfold qsum, foldr.
  all: ring.
Qed.

Lemma stretch_balance x l y :
  reachable x -> stretch both_queued x l y ->
  balance (cursor (sch y)) + share l = balance (cursor (sch x)).
Proof.
  intros Hr Hst. induction Hst as [|l e y z Hst IH He [Hm Hb]]; [rewrite share_nil; lia|].
  rewrite share_app, <- IH. pose proof (stretch_end _ _ _ _ Hst) as [Hm' Hb'].
  pose proof (full_inv_reachable y (stretch_reachable _ _ _ _ Hr Hst)) as Hi.
  destruct (exec_cursor e y z Hi He) as [(Hw&_&Hk)|(r&k&Hw&Hsch&Hn&Hbp)].
  - rewrite Hw, drop_ge by lia. unfold balance. rewrite Hk by done. rewrite share_nil. lia.
  - rewrite Hw, taken_snoc, (share_weight (sch y) r k); [|apply Hi|done..].
    rewrite Hsch in Hm, Hb |- *. simpl. destruct Hn as (_&_&Hbal).
    rewrite <- Hbal; [lia|done..|]. split.
    + unfold hasMediaDemandLocked, hasClassDemandLocked, hasMediaLocked in *.
      apply orb_true_iff in Hm as [Hm|Hm]; simpl in Hm.
      * apply orb_true_iff. left. apply orb_true_iff. by left.
      * apply orb_true_iff. right. apply orb_true_iff. by left.
    + unfold hasClassDemandLocked. apply orb_true_iff. by left.
Qed.

Lemma balance_range k : cursor_wf k ->
  - 3 * (BulkQueueCapBytes + BaseQuantumBytes) < balance k < ThumbnailQueueCapBytes + 3 * BaseQuantumBytes.
Proof. intros (_&[(_&?&?&_) _]&_). unfold balance. lia. Qed.

(** C39 (bounds). While media and bulk both keep requests queued, the link is
    shared three to one: over any stretch of any execution, the media bytes
    handed to the writer differ from three times the bulk bytes by less than a
    fixed number of bytes, however senders, cancellations and control traffic
    interleave.  In particular neither lane starves. *)
Theorem fair_share x l y :
  reachable x -> stretch both_queued x l y ->
  Z.abs (lane_bytes is_media l - 3 * lane_bytes is_bulk l) < 3276800.
Proof.
  intros Hr Hst. pose proof (stretch_balance x l y Hr Hst) as Hb. fold (share l).
  pose proof (full_inv_reachable x Hr) as [[Hx _ _ _] _].
  pose proof (full_inv_reachable y (stretch_reachable _ _ _ _ Hr Hst)) as [[Hy _ _ _] _].
  pose proof (balance_range _ (core_cursor _ Hx)). pose proof (balance_range _ (core_cursor _ Hy)).
  unfold BulkQueueCapBytes, BaseQuantumBytes, ThumbnailQueueCapBytes in *. lia.
Qed.

(** Media and bulk queued; one media request is written meanwhile. *)
Definition fair_start : list event :=
  [ ECall false ClassBulk KindBinary (demo_payload 20);
    ECall false ClassInteractiveMedia KindBinary (demo_payload 7);
    ECall false ClassThumbnail KindBinary (demo_payload 9) ].
Definition fair_state : sys := default sys0 (execs fair_start sys0).
Definition fair_next : sys := default sys0 (exec EPumpLock fair_state).

Lemma fair_reachable : reachable fair_state.
Proof.
  apply (execs_reachable fair_start sys0); [constructor|]. unfold fair_state.
  assert ((if execs fair_start sys0 is Some _ then true else false) = true) as He
    by (vm_compute; reflexivity).
  by destruct (execs fair_start sys0).
Qed.

Lemma fair_step : exec EPumpLock fair_state = Some fair_next.
Proof.
  unfold fair_next.
  assert ((if exec EPumpLock fair_state is Some _ then true else false) = true) as He
    by (vm_compute; reflexivity).
  by destruct (exec EPumpLock fair_state).
Qed.

Lemma fair_share_witness :
  lane_bytes is_media (drop (length (written fair_state)) (written fair_next)) = 7
  /\ Z.abs (lane_bytes is_media ([] ++ drop (length (written fair_state)) (written fair_next))
            - 3 * lane_bytes is_bulk ([] ++ drop (length (written fair_state)) (written fair_next)))
     < 3276800.
Proof.
  split; [vm_compute; reflexivity|].
  apply (fair_share fair_state _ fair_next).
  - exact fair_reachable.
  - eapply (stretch_step both_queued fair_state [] EPumpLock fair_state fair_next);
      [apply stretch_nil|exact fair_step|]; split; vm_compute; reflexivity.
Defined.

(** * Control bursts *)

(** Control requests at the end of a list. *)
Fixpoint control_run (l : list sendRequest) : Z :=
  match l with
  | [] => 0
  | r :: l => if decide (rq_class r = ClassControl) then 1 + control_run l else 0
  end.
Definition trailing_control (l : list sendRequest) : Z := control_run (rev l).

Lemma trailing_snoc l r :
  trailing_control (l ++ [r])
  = if decide (rq_class r = ClassControl) then 1 + trailing_control l else 0.
Proof. unfold trailing_control. by rewrite rev_app_distr. Qed.

Lemma stretch_burst x l y :
  reachable x -> stretch (fun z => dataWaiting (sch z) = true) x l y ->
  trailing_control l <= controlBurst (cursor (sch y)) /\ trailing_control l <= ControlBurstLimit.
Proof.
  intros Hr Hst. induction Hst as [|l e y z Hst [IH1 IH2] He Hd].
  { pose proof (full_inv_reachable x Hr) as [[Hx _ _ _] _].
    destruct (core_cursor _ Hx) as (_&_&?). by split. }
  pose proof (stretch_end _ _ _ _ Hst) as Hd'. simpl in Hd'.
  pose proof (full_inv_reachable y (stretch_reachable _ _ _ _ Hr Hst)) as Hi.
  destruct (exec_cursor e y z Hi He) as [(Hw&Hk&_)|(r&k&Hw&Hsch&Hn&Hbp)].
  - rewrite Hw, drop_ge, app_nil_r by lia. by rewrite Hk.
  - rewrite Hw, taken_snoc, trailing_snoc, Hsch. simpl. unfold burst_post in Hbp.
    case_decide; [|unfold ControlBurstLimit; lia].
    destruct Hbp as [-> Hlt]. specialize (Hlt Hd'). unfold ControlBurstLimit in *. lia.
Qed.

(** While data waits, at most eight control requests in a row go
    to the writer: over any stretch of an execution in which a data request
    is always queued, no ninth control request follows eight others. *)
Theorem control_burst_bounded x l y :
  reachable x -> stretch (fun z => dataWaiting (sch z) = true) x l y ->
  trailing_control l <= ControlBurstLimit.
Proof. intros Hr Hst. by destruct (stretch_burst x l y Hr Hst). Qed.

Lemma control_burst_bounded_witness :
  trailing_control ([] ++ drop (length (written fair_state)) (written fair_next)) <= 8.
Proof.
  apply (control_burst_bounded fair_state _ fair_next).
  - exact fair_reachable.
  - eapply (stretch_step _ fair_state [] EPumpLock fair_state fair_next);
      [apply stretch_nil|exact fair_step|]; vm_compute; reflexivity.
Defined.
