(* ===== verification/Sha256.v ===== *)
(** SHA-256 and HMAC-SHA-256, the parts of Go's crypto/sha256 and crypto/hmac
    that agent/internal/noise uses, as executable functions on byte lists. *)

From S2P Require Import Prelude.
#[local] Open Scope Z_scope.

(** * Words of 32 bits *)

Definition add32 (x y : Z) : Z := wrap 32 (x + y).
Definition rotr (n x : Z) : Z := Z.lor (Z.shiftr x n) (wrap 32 (Z.shiftl x (32 - n))).
Definition not32 (x : Z) : Z := Z.lxor x u32_max.

Definition big_sigma0 (x : Z) : Z := Z.lxor (Z.lxor (rotr 2 x) (rotr 13 x)) (rotr 22 x).
Definition big_sigma1 (x : Z) : Z := Z.lxor (Z.lxor (rotr 6 x) (rotr 11 x)) (rotr 25 x).
Definition sigma0 (x : Z) : Z := Z.lxor (Z.lxor (rotr 7 x) (rotr 18 x)) (Z.shiftr x 3).
Definition sigma1 (x : Z) : Z := Z.lxor (Z.lxor (rotr 17 x) (rotr 19 x)) (Z.shiftr x 10).
Definition choose (x y z : Z) : Z := Z.lxor (Z.land x y) (Z.land (not32 x) z).
Definition majority (x y z : Z) : Z :=
  Z.lxor (Z.lxor (Z.land x y) (Z.land x z)) (Z.land y z).

(** The constants are the first 32 bits of the fractional parts of the cube and
    square roots of the first primes. *)
Definition is_prime (n : Z) : bool :=
  forallb (fun d => negb (n mod Z.of_nat d =? 0)) (seq 2 (Z.to_nat (Z.sqrt n) - 1)).
Definition first_primes (n : nat) : list Z :=
  take n (List.filter is_prime (Z.of_nat <$> seq 2 320)).

(** The integer cube root, one bit at a time from bit [n - 1] down. *)
Fixpoint cube_root (n : nat) (r x : Z) : Z :=
  match n with
  | O => r
  | S n' => let t := r + 2 ^ Z.of_nat n' in cube_root n' (if t ^ 3 <=? x then t else r) x
  end.

Definition round_constants : list Z :=
  Eval vm_compute in (fun p => wrap 32 (cube_root 36 0 (p * 2 ^ 96))) <$> first_primes 64.
Definition initial_hash : list Z :=
  Eval vm_compute in (fun p => wrap 32 (Z.sqrt (p * 2 ^ 64))) <$> first_primes 8.

(** * The compression function *)

(** The working variables a..h and the sixteen schedule words still ahead. *)
Definition sha_round (st : list Z * list Z) (k : Z) : list Z * list Z :=
  match st with
  | ([a; b; c; d; e; f; g; h], w :: ws) =>
      let t1 := add32 (add32 (add32 (add32 h (big_sigma1 e)) (choose e f g)) k) w in
      let t2 := add32 (big_sigma0 a) (majority a b c) in
      let next := add32 (add32 (add32 (sigma1 (nth 13 ws 0)) (nth 8 ws 0))
                           (sigma0 (nth 0 ws 0))) w in
      ([add32 t1 t2; a; b; c; add32 d t1; e; f; g], ws ++ [next])
  | st => st
  end.

Fixpoint chunks (fuel n : nat) (l : bytes) : list bytes :=
  match fuel, l with
  | S fuel, _ :: _ => take n l :: chunks fuel n (drop n l)
  | _, _ => []
  end.

Definition compress (hash : list Z) (block : bytes) : list Z :=
  let words := be_get <$> chunks 16 4 block in
  let '(vars, _) := foldl sha_round (hash, words) round_constants in
  zip_with add32 hash vars.

(** The message, a one bit, zeros, and the length in bits as 64-bit integer. *)
Definition sha_pad (msg : bytes) : bytes :=
  let zeros := (55 - len msg) mod 64 in
  msg ++ [x80] ++ replicate (Z.to_nat zeros) x00 ++ be_put 8 (8 * len msg).

(** A Go array of 32 bytes filled by [copy]. *)
Definition arr32 (l : bytes) : bytes := take 32 (l ++ replicate 32 x00).

(** [sha256.Sum256]. *)
Definition sha256 (msg : bytes) : bytes :=
  let padded := sha_pad msg in
  arr32 (concat (be_put 4 <$> foldl compress initial_hash (chunks (length padded) 64 padded))).

Lemma length_arr32 l : length (arr32 l) = 32%nat.
Proof. unfold arr32. rewrite length_take, length_app, length_replicate. lia. Qed.

Lemma arr32_id l : length l = 32%nat -> arr32 l = l.
Proof. intros Hl. unfold arr32. by rewrite take_app_le, take_ge by lia. Qed.

Lemma length_sha256 msg : length (sha256 msg) = 32%nat.
Proof. apply length_arr32. Qed.

(** * HMAC *)

Definition byte_xor (a b : byte) : byte := byte_of_Z (Z.lxor (byte_val a) (byte_val b)).

Lemma byte_val_xor a b : byte_val (byte_xor a b) = Z.lxor (byte_val a) (byte_val b).
Proof.
  unfold byte_xor. rewrite byte_val_of_Z. change 256 with (2 ^ 8).
  rewrite <- Z.land_ones by lia. apply Z.bits_inj'. intros n Hn.
  rewrite Z.land_spec, Z.testbit_ones_nonneg by lia.
  destruct (Z.ltb_spec n 8) as [|Hge]; [apply andb_true_r|]. rewrite andb_false_r, Z.lxor_spec.
  assert (forall c, Z.testbit (byte_val c) n = false) as Hhi; [|by rewrite !Hhi].
  intros c. pose proof (byte_val_range c). rewrite Z.testbit_eqb by lia.
  rewrite Z.div_small; [done|]. split; [lia|]. eapply Z.lt_le_trans; [apply H|].
  change 256 with (2 ^ 8). apply Z.pow_le_mono_r; lia.
Qed.

Lemma byte_xor_cancel a k : byte_xor (byte_xor a k) k = a.
Proof.
  apply byte_val_inj. rewrite !byte_val_xor, Z.lxor_assoc, Z.lxor_nilpotent. apply Z.lxor_0_r.
Qed.

Definition xor_bytes (a b : bytes) : bytes := zip_with byte_xor a b.

Lemma xor_bytes_cancel a k : (length a <= length k)%nat -> xor_bytes (xor_bytes a k) k = a.
Proof.
  revert k. induction a as [|x a IH]; intros [|y k] Hl; simpl in *; try done; [lia|].
  rewrite byte_xor_cancel, IH by lia. done.
Qed.

Lemma length_xor_bytes a k : (length a <= length k)%nat -> length (xor_bytes a k) = length a.
Proof. intros. unfold xor_bytes. rewrite length_zip_with. lia. Qed.

Definition hmac_block (key : bytes) : bytes :=
  let key := if 64 <? len key then sha256 key else key in
  key ++ replicate (64 - length key) x00.

(** [hmac.New(sha256.New, key)], [Write(data)], [Sum(nil)]. *)
Definition hmac_sha256 (key data : bytes) : bytes :=
  let k := hmac_block key in
  sha256 (xor_bytes k (replicate 64 x5c) ++ sha256 (xor_bytes k (replicate 64 x36) ++ data)).

Lemma length_hmac key data : length (hmac_sha256 key data) = 32%nat.
Proof. apply length_sha256. Qed.

(** FIPS 180-4: SHA-256 of the message abc. *)
Example sha256_abc :
  be_get (sha256 [x61; x62; x63]) =
  0xba7816bf8f01cfea414140de5dae2223b00361a396177a9cb410ff61f20015ad.
Proof. vm_compute. reflexivity. Qed.

(** RFC 4231, test case 2: key Jefe, data what do ya want for nothing?. *)
Example hmac_rfc4231 :
  be_get (hmac_sha256 [x4a; x65; x66; x65]
    [x77; x68; x61; x74; x20; x64; x6f; x20; x79; x61; x20; x77; x61; x6e; x74; x20; x66;
     x6f; x72; x20; x6e; x6f; x74; x68; x69; x6e; x67; x3f]) =
  0x5bdcc146bf60754e6a042426089575c75a003f089d2739839dec58b964ec3843.
Proof. vm_compute. reflexivity. Qed.
