(* ===== verification/AesGcm.v ===== *)
(** AES-256-GCM with 12-byte nonces and 16-byte tags, the part of Go's
    crypto/aes and crypto/cipher that agent/internal/noise uses.  The
    authenticated-encryption laws (opening what was sealed, and sealing being
    the only source of what opens) are proved of the algorithm. *)

From S2P Require Import Prelude Sha256.
#[local] Open Scope Z_scope.

(** * The AES-256 block cipher *)

Definition sbox : list byte :=
  [
     x63; x7c; x77; x7b; xf2; x6b; x6f; xc5; x30; x01; x67; x2b; xfe; xd7; xab; x76;
     xca; x82; xc9; x7d; xfa; x59; x47; xf0; xad; xd4; xa2; xaf; x9c; xa4; x72; xc0;
     xb7; xfd; x93; x26; x36; x3f; xf7; xcc; x34; xa5; xe5; xf1; x71; xd8; x31; x15;
     x04; xc7; x23; xc3; x18; x96; x05; x9a; x07; x12; x80; xe2; xeb; x27; xb2; x75;
     x09; x83; x2c; x1a; x1b; x6e; x5a; xa0; x52; x3b; xd6; xb3; x29; xe3; x2f; x84;
     x53; xd1; x00; xed; x20; xfc; xb1; x5b; x6a; xcb; xbe; x39; x4a; x4c; x58; xcf;
     xd0; xef; xaa; xfb; x43; x4d; x33; x85; x45; xf9; x02; x7f; x50; x3c; x9f; xa8;
     x51; xa3; x40; x8f; x92; x9d; x38; xf5; xbc; xb6; xda; x21; x10; xff; xf3; xd2;
     xcd; x0c; x13; xec; x5f; x97; x44; x17; xc4; xa7; x7e; x3d; x64; x5d; x19; x73;
     x60; x81; x4f; xdc; x22; x2a; x90; x88; x46; xee; xb8; x14; xde; x5e; x0b; xdb;
     xe0; x32; x3a; x0a; x49; x06; x24; x5c; xc2; xd3; xac; x62; x91; x95; xe4; x79;
     xe7; xc8; x37; x6d; x8d; xd5; x4e; xa9; x6c; x56; xf4; xea; x65; x7a; xae; x08;
     xba; x78; x25; x2e; x1c; xa6; xb4; xc6; xe8; xdd; x74; x1f; x4b; xbd; x8b; x8a;
     x70; x3e; xb5; x66; x48; x03; xf6; x0e; x61; x35; x57; xb9; x86; xc1; x1d; x9e;
     xe1; xf8; x98; x11; x69; xd9; x8e; x94; x9b; x1e; x87; xe9; xce; x55; x28; xdf;
     x8c; xa1; x89; x0d; xbf; xe6; x42; x68; x41; x99; x2d; x0f; xb0; x54; xbb; x16].

Definition sub_byte (b : byte) : byte := nth (Z.to_nat (byte_val b)) sbox x00.

(** Multiplication by x in GF(2^8). *)
Definition xtime (b : byte) : byte :=
  let z := Z.shiftl (byte_val b) 1 in
  byte_of_Z (if Z.testbit z 8 then Z.lxor z 0x11b else z).

Definition rcon (i : nat) : byte := Nat.iter i xtime x01.

(** Words of the key schedule are lists of four bytes; [key_words n ws] adds
    [n] words to the reversed list [ws]. *)
Fixpoint key_words (n : nat) (i : nat) (ws : list bytes) : list bytes :=
  match n with
  | O => ws
  | S n =>
      let prev := nth 0 ws [] in
      let back := nth 7 ws [] in
      let t :=
        if (i mod 8 =? 0)%nat then
          match sub_byte <$> prev with
          | [a; b; c; d] => [byte_xor b (rcon (i / 8 - 1)); c; d; a]
          | w => w
          end
        else if (i mod 8 =? 4)%nat then sub_byte <$> prev
        else prev in
      key_words n (S i) (xor_bytes back t :: ws)
  end.

(** The expanded key: fifteen round keys of sixteen bytes. *)
Definition expand_key (key : bytes) : bytes :=
  concat (rev (key_words 52 8 (rev (chunks 8 4 key)))).

Definition at_byte (l : bytes) (i : nat) : byte := nth i l x00.
Definition indices : list nat := seq 0 16.

Definition add_round_key (ek : bytes) (r : nat) (st : bytes) : bytes :=
  (fun i => byte_xor (at_byte st i) (at_byte ek (16 * r + i))) <$> indices.

Definition shift_rows_from : list nat := [0; 5; 10; 15; 4; 9; 14; 3; 8; 13; 2; 7; 12; 1; 6; 11]%nat.
Definition sub_shift (st : bytes) : bytes := (fun i => sub_byte (at_byte st i)) <$> shift_rows_from.

Definition mix_columns (st : bytes) : bytes :=
  (fun i =>
     let col := (4 * (i / 4))%nat in
     let a k := at_byte st (col + (i + k) mod 4) in
     byte_xor (byte_xor (xtime (a 0)) (byte_xor (xtime (a 1)) (a 1))) (byte_xor (a 2) (a 3)))%nat
  <$> indices.

Definition aes_round (ek : bytes) (st : bytes) (r : nat) : bytes :=
  add_round_key ek r (mix_columns (sub_shift st)).

(** [cipher.Block.Encrypt]. *)
Definition aes_encrypt (ek : bytes) (block : bytes) : bytes :=
  add_round_key ek 14 (sub_shift (foldl (aes_round ek) (add_round_key ek 0 block) (seq 1 13))).

Lemma length_aes_encrypt ek b : length (aes_encrypt ek b) = 16%nat.
Proof. unfold aes_encrypt, add_round_key. by rewrite length_fmap. Qed.

(** * GHASH *)

(** Multiplication in GF(2^128) with GCM's reflected bit order. *)
Fixpoint gf_mul_loop (n : nat) (x z v : Z) : Z :=
  match n with
  | O => z
  | S n =>
      let z := if Z.testbit x (Z.of_nat n) then Z.lxor z v else z in
      let v' := Z.shiftr v 1 in
      gf_mul_loop n x z (if Z.testbit v 0 then Z.lxor v' (Z.shiftl 0xe1 120) else v')
  end.
Definition gf_mul (x y : Z) : Z := gf_mul_loop 128 x 0 y.

Definition pad16 (l : bytes) : bytes := l ++ replicate (Z.to_nat ((- len l) mod 16)) x00.

Definition ghash (h : Z) (l : bytes) : Z :=
  foldl (fun acc b => gf_mul (Z.lxor acc (be_get b)) h) 0 (chunks (length l) 16 l).

(** * GCM *)

Definition counter_block (nonce : bytes) (i : Z) : bytes := nonce ++ be_put 4 i.

Definition keystream (ek nonce : bytes) (n : nat) : bytes :=
  concat ((fun i => aes_encrypt ek (counter_block nonce (Z.of_nat i + 2))) <$> seq 0 n).

Definition stream_for (ek nonce l : bytes) : bytes := keystream ek nonce (S (length l / 16)).

Definition gcm_tag (ek nonce ad ct : bytes) : bytes :=
  let h := be_get (aes_encrypt ek (replicate 16 x00)) in
  let s := ghash h (pad16 ad ++ pad16 ct ++ be_put 8 (8 * len ad) ++ be_put 8 (8 * len ct)) in
  xor_bytes (be_put 16 s) (aes_encrypt ek (counter_block nonce 1)).

(** [gcm.Seal(nil, nonce, plaintext, ad)]. *)
Definition gcm_seal (key nonce plaintext ad : bytes) : bytes :=
  let ek := expand_key key in
  let ct := xor_bytes plaintext (stream_for ek nonce plaintext) in
  ct ++ gcm_tag ek nonce ad ct.

(** [gcm.Open(nil, nonce, ciphertext, ad)]; [None] is its error. *)
Definition gcm_open (key nonce ciphertext ad : bytes) : option bytes :=
  if (length ciphertext <? 16)%nat then None
  else
    let ek := expand_key key in
    let ct := take (length ciphertext - 16) ciphertext in
    let tag := drop (length ciphertext - 16) ciphertext in
    if decide (gcm_tag ek nonce ad ct = tag)
    then Some (xor_bytes ct (stream_for ek nonce ct)) else None.

Lemma length_keystream ek nonce n : length (keystream ek nonce n) = (16 * n)%nat.
Proof.
  unfold keystream. rewrite length_concat, <- list_fmap_compose.
  assert (forall l : list nat, sum_list ((length ∘ (fun i => aes_encrypt ek
    (counter_block nonce (Z.of_nat i + 2)))) <$> l) = (16 * length l)%nat) as ->.
  { induction l; [done|]. rewrite fmap_cons. cbn [sum_list]. rewrite IHl.
    unfold compose. rewrite length_aes_encrypt. simpl. lia. }
  by rewrite length_seq.
Qed.

Lemma stream_long ek nonce l : (length l <= length (stream_for ek nonce l))%nat.
Proof.
  unfold stream_for. rewrite length_keystream.
  pose proof (Nat.div_mod (length l) 16). pose proof (Nat.mod_upper_bound (length l) 16). lia.
Qed.

Lemma stream_for_length ek nonce l l' : length l = length l' -> stream_for ek nonce l = stream_for ek nonce l'.
Proof. unfold stream_for. by intros ->. Qed.

Lemma length_gcm_tag ek nonce ad ct : length (gcm_tag ek nonce ad ct) = 16%nat.
Proof.
  unfold gcm_tag. rewrite length_xor_bytes; rewrite length_be_put; [done|].
  by rewrite length_aes_encrypt.
Qed.

Lemma length_gcm_seal key nonce pt ad : length (gcm_seal key nonce pt ad) = (length pt + 16)%nat.
Proof.
  unfold gcm_seal. rewrite length_app, length_gcm_tag, length_xor_bytes; [done|apply stream_long].
Qed.

(** What was sealed opens to the plaintext. *)
Lemma gcm_open_seal key nonce pt ad : gcm_open key nonce (gcm_seal key nonce pt ad) ad = Some pt.
Proof.
  unfold gcm_open. rewrite length_gcm_seal.
  replace (length pt + 16 - 16)%nat with (length pt) by lia.
  destruct (Nat.ltb_spec (length pt + 16) 16); [lia|].
  unfold gcm_seal. set (ek := expand_key key). set (ct := xor_bytes pt (stream_for ek nonce pt)).
  assert (length ct = length pt) as Hl by (apply length_xor_bytes, stream_long).
  rewrite take_app_length', drop_app_length' by done. rewrite decide_True by done. f_equal.
  rewrite (stream_for_length ek nonce ct pt) by done. apply xor_bytes_cancel, stream_long.
Qed.

(** Only a sealed message opens: a ciphertext that opens to [pt] is the seal of [pt]. *)
Lemma gcm_open_inv key nonce c ad pt : gcm_open key nonce c ad = Some pt -> c = gcm_seal key nonce pt ad.
Proof.
  unfold gcm_open. destruct (Nat.ltb_spec (length c) 16) as [|Hl]; [done|].
  set (ek := expand_key key). set (ct := take _ c). case_decide as Htag; [|done]. intros [= <-].
  unfold gcm_seal. fold ek.
  assert (length (xor_bytes ct (stream_for ek nonce ct)) = length ct) as Hlen
    by (apply length_xor_bytes, stream_long).
  rewrite (stream_for_length ek nonce (xor_bytes ct (stream_for ek nonce ct)) ct) by done.
  rewrite xor_bytes_cancel by (apply stream_long). rewrite Htag. symmetry. apply take_drop.
Qed.

(** Test case 14 of the GCM specification. *)
Example gcm_test_case_14 :
  be_get (gcm_seal (replicate 32 x00) (replicate 12 x00) (replicate 16 x00) []) =
  0xcea7403d4d606b6e074ec5d3baf39d18d0d1c8a799996bf0265b98b5d48ab919.
Proof. vm_compute. reflexivity. Qed.
