(* ===== verification/Noise.v ===== *)
(** The Noise_XX_P256_AESGCM_SHA256 handshake and its transport ciphers
    (agent/internal/noise): symmetric state, cipher states, and the six
    message operations of the two roles as a state machine.  SHA-256, HMAC and
    AES-GCM are the concrete functions of Sha256.v and AesGcm.v; the P-256
    group is an interface with the laws the handshake relies on. *)

From S2P Require Import Prelude Sha256 AesGcm.
#[local] Open Scope Z_scope.
#[local] Open Scope go_scope.

(** * Keys *)

(** crypto/ecdh's P-256: private keys, their public keys, the 65-byte encoding
    of a public key, its parser, and the shared secret. *)
Class ECDH := {
  priv : Type;
  pub : Type;
  PublicKey : priv -> pub;
  Bytes : pub -> bytes;
  NewPublicKey : bytes -> option pub;
  ECDHSecret : priv -> pub -> option bytes }.

(** What crypto/ecdh documents of it. *)
Class ECDHLaws `{ECDH} : Prop := {
  Bytes_length : forall p, length (Bytes p) = 65%nat;
  NewPublicKey_Bytes : forall p, NewPublicKey (Bytes p) = Some p;
  ECDH_agrees : forall a b, exists z,
    ECDHSecret a (PublicKey b) = Some z /\ ECDHSecret b (PublicKey a) = Some z }.

(** Errors of the package; [PanicNil] and [PanicSplit] are panics. *)
Inductive noise_error : Type :=
| ErrRandom | ErrRole | ErrPhase | ErrMsgLength (got : Z) | ErrImport | ErrDH
| ErrNoKey | ErrNonce | ErrCipher | ErrAEAD | PanicNil | PanicSplit.

(** * The symmetric state *)

(** The 27 bytes of Noise_XX_P256_AESGCM_SHA256.
    [agent/internal/noise/transcript.go:9-9] protocolName *)
Definition protocolName : bytes :=
  [x4e; x6f; x69; x73; x65; x5f; x58; x58; x5f; x50; x32; x35; x36; x5f; x41; x45; x53;
   x47; x43; x4d; x5f; x53; x48; x41; x32; x35; x36].

(** [agent/internal/noise/transcript.go:11-17] initialize *)
Definition initialize : bytes * bytes := let h := arr32 protocolName in (h, h).

(** [agent/internal/noise/transcript.go:19-27] mixHash *)
Definition mixHash (h data : bytes) : bytes := arr32 (sha256 (h ++ data)).

(** [agent/internal/noise/transcript.go:42-46] hmacSHA256 *)
Definition hmacSHA256 (key data : bytes) : bytes := hmac_sha256 key data.

(** [agent/internal/noise/transcript.go:29-40] hkdf2 *)
Definition hkdf2 (ck ikm : bytes) : bytes * bytes :=
  let tempKey := hmacSHA256 ck ikm in
  let o1 := hmacSHA256 tempKey [x01] in
  let o2 := hmacSHA256 tempKey (o1 ++ [x02]) in
  (arr32 o1, arr32 o2).

(** * Cipher states *)

(** [agent/internal/noise/cipher.go:12-16] CipherState *)
Record CipherState := mkCipher { cs_key : bytes; cs_n : Z }.

(** [agent/internal/noise/cipher.go:18-20] newCipherState *)
Definition newCipherState (key : bytes) : CipherState := mkCipher key 0.

(** [agent/internal/noise/cipher.go:94-97] isZeroKey *)
Definition isZeroKey (key : bytes) : bool := bool_decide (key = replicate 32 x00).

(** Four zero bytes, then the counter.
    [agent/internal/noise/cipher.go:87-92] nonceBytes *)
Definition nonceBytes (n : Z) : bytes := replicate 4 x00 ++ be_put 8 n.

(** [aes.NewCipher] takes keys of 16, 24 and 32 bytes; a [[32]byte] key is
    always accepted.
    [agent/internal/noise/cipher.go:75-85] newGCM *)
Definition newGCM (key : bytes) : result unit noise_error :=
  if (length key =? 32)%nat then Ok tt else Err ErrCipher.

(** [agent/internal/noise/cipher.go:32-47] encryptWithAd *)
Definition encryptWithAd (ad plaintext : bytes) : GoM CipherState noise_error bytes :=
  let! cs := gget in
  do! gguard (isZeroKey (cs_key cs)) ErrNoKey in
  do! gguard (cs_n cs =? u64_max) ErrNonce in
  do! glift (newGCM (cs_key cs)) in
  let ct := gcm_seal (cs_key cs) (nonceBytes (cs_n cs)) plaintext ad in
  do! gmod (fun cs => mkCipher (cs_key cs) (wrap 64 (cs_n cs + 1))) in
  gret ct.

(** [agent/internal/noise/cipher.go:49-67] decryptWithAd *)
Definition decryptWithAd (ad ciphertext : bytes) : GoM CipherState noise_error bytes :=
  let! cs := gget in
  do! gguard (isZeroKey (cs_key cs)) ErrNoKey in
  do! gguard (cs_n cs =? u64_max) ErrNonce in
  do! glift (newGCM (cs_key cs)) in
  match gcm_open (cs_key cs) (nonceBytes (cs_n cs)) ciphertext ad with
  | None => gfail ErrAEAD
  | Some pt =>
      do! gmod (fun cs => mkCipher (cs_key cs) (wrap 64 (cs_n cs + 1))) in
      gret pt
  end.

(** [agent/internal/noise/cipher.go:22-25] Encrypt *)
Definition Encrypt := encryptWithAd.
(** [agent/internal/noise/cipher.go:27-30] Decrypt *)
Definition Decrypt := decryptWithAd.

(** [agent/internal/noise/cipher.go:69-73] splitKeys *)
Definition splitKeys (ck : bytes) : bytes * bytes := hkdf2 ck [].

(** * The handshake *)

(** [agent/internal/noise/handshake.go:10-15] role *)
Inductive role := roleInitiator | roleResponder.
(** [agent/internal/noise/handshake.go:17-26] phase *)
Inductive phase :=
| phaseReady | phaseMsg1Sent | phaseMsg1Received | phaseMsg2Sent | phaseMsg2Received | phaseDone.

#[export] Instance role_eq_dec : EqDecision role.
Proof. solve_decision. Defined.
#[export] Instance phase_eq_dec : EqDecision phase.
Proof. solve_decision. Defined.

Section handshake.
Context `{ECDH}.

(** [agent/internal/noise/keys.go:14-17] dhP256 *)
Definition dhP256 (a : priv) (p : pub) : result bytes noise_error :=
  match ECDHSecret a p with Some z => Ok z | None => Err ErrDH end.

(** [agent/internal/noise/keys.go:19-22] importPublicKey *)
Definition importPublicKey (raw : bytes) : result pub noise_error :=
  match NewPublicKey raw with Some p => Ok p | None => Err ErrImport end.

(** [agent/internal/noise/handshake.go:28-48] NoiseXX *)
Record NoiseXX := mkNoise {
  n_role : role; n_phase : phase; n_h : bytes; n_ck : bytes; n_k : bytes; n_hasK : bool;
  n_ePriv : option priv; n_ePub : bytes; n_sPriv : priv; n_sPub : bytes;
  n_rEPub : bytes; n_rSPub : bytes }.

Definition set_phase p n := mkNoise (n_role n) p (n_h n) (n_ck n) (n_k n) (n_hasK n)
  (n_ePriv n) (n_ePub n) (n_sPriv n) (n_sPub n) (n_rEPub n) (n_rSPub n).
Definition set_h h n := mkNoise (n_role n) (n_phase n) h (n_ck n) (n_k n) (n_hasK n)
  (n_ePriv n) (n_ePub n) (n_sPriv n) (n_sPub n) (n_rEPub n) (n_rSPub n).
Definition set_keys ck k n := mkNoise (n_role n) (n_phase n) (n_h n) ck k true
  (n_ePriv n) (n_ePub n) (n_sPriv n) (n_sPub n) (n_rEPub n) (n_rSPub n).
Definition set_e e p n := mkNoise (n_role n) (n_phase n) (n_h n) (n_ck n) (n_k n) (n_hasK n)
  e p (n_sPriv n) (n_sPub n) (n_rEPub n) (n_rSPub n).
Definition set_rE p n := mkNoise (n_role n) (n_phase n) (n_h n) (n_ck n) (n_k n) (n_hasK n)
  (n_ePriv n) (n_ePub n) (n_sPriv n) (n_sPub n) p (n_rSPub n).
Definition set_rS p n := mkNoise (n_role n) (n_phase n) (n_h n) (n_ck n) (n_k n) (n_hasK n)
  (n_ePriv n) (n_ePub n) (n_sPriv n) (n_sPub n) (n_rEPub n) p.

Abbreviation NM := (GoM NoiseXX noise_error).

(** The outcome of [generateKeypair] is an argument of the operations that
    call it: [None] is a failing random source. *)
Definition new_handshake (r : role) (s : priv) : NoiseXX :=
  let '(h, ck) := initialize in
  mkNoise r phaseReady (mixHash h []) ck (replicate 32 x00) false
    None [] s (Bytes (PublicKey s)) [] [].

(** [agent/internal/noise/handshake.go:50-67] NewInitiator *)
Definition NewInitiator (gen : option priv) : result NoiseXX noise_error :=
  match gen with
  | None => Err ErrRandom
  | Some staticPriv => Ok (new_handshake roleInitiator staticPriv)
  end.

(** [agent/internal/noise/handshake.go:69-82] NewResponder *)
Definition NewResponder (staticPriv : priv) : result NoiseXX noise_error :=
  Ok (new_handshake roleResponder staticPriv).

(** [agent/internal/noise/handshake.go:84-88] RemoteStaticPub *)
Definition RemoteStaticPub (n : NoiseXX) : bytes := n_rSPub n.

(** [agent/internal/noise/handshake.go:328-332] mixKey *)
Definition mixKey (ikm : bytes) : NM unit :=
  gmod (fun n => let '(ck, k) := hkdf2 (n_ck n) ikm in set_keys ck k n).

(** The cipher state is local: a fresh one with nonce zero for each call.
    [agent/internal/noise/handshake.go:334-346] encryptAndHash *)
Definition encryptAndHash (plaintext : bytes) : NM bytes :=
  let! n := gget in
  do! gguard (negb (n_hasK n)) ErrNoKey in
  let! ct := glift (fst (encryptWithAd (n_h n) plaintext (newCipherState (n_k n)))) in
  do! gmod (fun n => set_h (mixHash (n_h n) ct) n) in
  gret ct.

(** [agent/internal/noise/handshake.go:348-360] decryptAndHash *)
Definition decryptAndHash (ciphertext : bytes) : NM bytes :=
  let! n := gget in
  do! gguard (negb (n_hasK n)) ErrNoKey in
  let! pt := glift (fst (decryptWithAd (n_h n) ciphertext (newCipherState (n_k n)))) in
  do! gmod (fun n => set_h (mixHash (n_h n) ciphertext) n) in
  gret pt.

(** A method call on a nil [*ecdh.PrivateKey] panics. *)
Definition ephemeral : NM priv :=
  let! n := gget in
  match n_ePriv n with Some e => gret e | None => gfail PanicNil end.

Definition require (r : role) (p : phase) : NM unit :=
  let! n := gget in
  do! gguard (negb (bool_decide (n_role n = r))) ErrRole in
  gguard (negb (bool_decide (n_phase n = p))) ErrPhase.

(** [n.ePriv, err = generateKeypair()]: the field is assigned on error too. *)
Definition new_ephemeral (gen : option priv) : NM unit :=
  match gen with
  | None => do! gmod (fun n => set_e None (n_ePub n) n) in gfail ErrRandom
  | Some e => gmod (set_e (Some e) (Bytes (PublicKey e)))
  end.

Definition mix_hash_of (f : NoiseXX -> bytes) : NM unit :=
  gmod (fun n => set_h (mixHash (n_h n) (f n)) n).

(** [agent/internal/noise/handshake.go:90-107] WriteMessage1 *)
Definition WriteMessage1 (gen : option priv) : NM bytes :=
  do! require roleInitiator phaseReady in
  do! new_ephemeral gen in
  do! mix_hash_of n_ePub in
  do! gmod (set_phase phaseMsg1Sent) in
  let! n := gget in
  gret (n_ePub n).

(** [agent/internal/noise/handshake.go:109-124] ReadMessage1 *)
Definition ReadMessage1 (msg : bytes) : NM unit :=
  do! require roleResponder phaseReady in
  do! gguard (negb (len msg =? 65)) (ErrMsgLength (len msg)) in
  do! gmod (set_rE msg) in
  do! mix_hash_of n_rEPub in
  gmod (set_phase phaseMsg1Received).

(** A token that mixes the shared secret of a private key of ours and the
    peer's public key [raw]. *)
Definition mix_dh (a : NM priv) (raw : bytes) : NM unit :=
  let! p := glift (importPublicKey raw) in
  let! a := a in
  let! z := glift (dhP256 a p) in
  mixKey z.

Definition static_key : NM priv := let! n := gget in gret (n_sPriv n).

(** [agent/internal/noise/handshake.go:126-183] WriteMessage2 *)
Definition WriteMessage2 (gen : option priv) : NM bytes :=
  do! require roleResponder phaseMsg1Received in
  do! new_ephemeral gen in
  do! mix_hash_of n_ePub in
  let! n := gget in
  do! mix_dh ephemeral (n_rEPub n) in
  let! encS := encryptAndHash (n_sPub n) in
  do! mix_dh static_key (n_rEPub n) in
  let! tag := encryptAndHash [] in
  do! gmod (set_phase phaseMsg2Sent) in
  gret (n_ePub n ++ encS ++ tag).

(** [agent/internal/noise/handshake.go:185-236] ReadMessage2 *)
Definition ReadMessage2 (msg : bytes) : NM unit :=
  do! require roleInitiator phaseMsg1Sent in
  do! gguard (negb (len msg =? 162)) (ErrMsgLength (len msg)) in
  do! gmod (set_rE (take 65 msg)) in
  do! mix_hash_of n_rEPub in
  do! mix_dh ephemeral (take 65 msg) in
  let! rsPub := decryptAndHash (take 81 (drop 65 msg)) in
  do! gmod (set_rS rsPub) in
  do! mix_dh ephemeral rsPub in
  do! decryptAndHash (drop 146 msg) in
  gmod (set_phase phaseMsg2Received).

(** [agent/internal/noise/handshake.go:238-274] WriteMessage3 *)
Definition WriteMessage3 : NM bytes :=
  do! require roleInitiator phaseMsg2Received in
  let! n := gget in
  let! encS := encryptAndHash (n_sPub n) in
  do! mix_dh static_key (n_rEPub n) in
  let! tag := encryptAndHash [] in
  do! gmod (set_phase phaseDone) in
  gret (encS ++ tag).

(** [agent/internal/noise/handshake.go:276-312] ReadMessage3 *)
Definition ReadMessage3 (msg : bytes) : NM unit :=
  do! require roleResponder phaseMsg2Sent in
  do! gguard (negb (len msg =? 97)) (ErrMsgLength (len msg)) in
  let! isPub := decryptAndHash (take 81 msg) in
  do! gmod (set_rS isPub) in
  do! mix_dh ephemeral isPub in
  do! decryptAndHash (drop 81 msg) in
  gmod (set_phase phaseDone).

(** The pair (send, recv); [Err PanicSplit] is the panic.
    [agent/internal/noise/handshake.go:314-326] Split *)
Definition Split (n : NoiseXX) : result (CipherState * CipherState) noise_error :=
  if decide (n_phase n = phaseDone) then
    let '(k1, k2) := splitKeys (n_ck n) in
    let '(cs1, cs2) := (newCipherState k1, newCipherState k2) in
    Ok (if decide (n_role n = roleInitiator) then (cs1, cs2) else (cs2, cs1))
  else Err PanicSplit.
End handshake.

Arguments NoiseXX _ : clear implicits.
Arguments mixHash : simpl never.
Arguments hkdf2 : simpl never.
Arguments gcm_seal : simpl never.
Arguments gcm_open : simpl never.
Arguments isZeroKey : simpl never.
Arguments newGCM : simpl never.
Arguments nonceBytes : simpl never.

(** * Cipher states *)

Lemma length_hkdf2 ck ikm : length (fst (hkdf2 ck ikm)) = 32%nat /\ length (snd (hkdf2 ck ikm)) = 32%nat.
Proof. split; apply length_arr32. Qed.

Definition cipher_ready (cs : CipherState) : Prop :=
  isZeroKey (cs_key cs) = false /\ length (cs_key cs) = 32%nat /\ 0 <= cs_n cs < u64_max.

Definition next_cipher (cs : CipherState) : CipherState := mkCipher (cs_key cs) (cs_n cs + 1).

Lemma next_wrap n : 0 <= n < u64_max -> wrap 64 (n + 1) = n + 1.
Proof. intros Hn. apply wrap_small. unfold u64_max in Hn. lia. Qed.

Lemma newGCM_ok key : length key = 32%nat -> newGCM key = Ok tt.
Proof. intros Hl. unfold newGCM. by rewrite Hl. Qed.

Lemma encryptWithAd_run cs ad pt :
  cipher_ready cs ->
  encryptWithAd ad pt cs = (Ok (gcm_seal (cs_key cs) (nonceBytes (cs_n cs)) pt ad), next_cipher cs).
Proof.
  intros (Hz&Hl&Hn). unfold encryptWithAd. go_run.
  rewrite Hz, (proj2 (Z.eqb_neq _ _)), newGCM_ok by (done || lia). cbn beta iota zeta.
  by rewrite next_wrap.
Qed.

Lemma decryptWithAd_run cs ad c :
  cipher_ready cs ->
  decryptWithAd ad c cs =
  match gcm_open (cs_key cs) (nonceBytes (cs_n cs)) c ad with
  | Some pt => (Ok pt, next_cipher cs)
  | None => (Err ErrAEAD, cs)
  end.
Proof.
  intros (Hz&Hl&Hn). unfold decryptWithAd. go_run.
  rewrite Hz, (proj2 (Z.eqb_neq _ _)), newGCM_ok by (done || lia).
  cbn beta iota zeta. destruct (gcm_open _ _ _ _); [|reflexivity]. by rewrite next_wrap.
Qed.

Lemma nonceBytes_inj n m : 0 <= n <= u64_max -> 0 <= m <= u64_max -> nonceBytes n = nonceBytes m -> n = m.
Proof.
  intros Hn Hm Heq. unfold nonceBytes in Heq. apply app_inj_1 in Heq as [_ Heq]; [|done].
  apply (be_put_inj 8); [..|done]; unfold u64_max in *; simpl; lia.
Qed.

(** A run of encryptions, and of decryptions; both stop at the first error. *)
Fixpoint encrypt_all (msgs : list (bytes * bytes)) (cs : CipherState)
    : result (list bytes) noise_error * CipherState :=
  match msgs with
  | [] => (Ok [], cs)
  | (ad, pt) :: msgs =>
      match Encrypt ad pt cs with
      | (Ok c, cs) => match encrypt_all msgs cs with
                      | (Ok l, cs) => (Ok (c :: l), cs) | (Err e, cs) => (Err e, cs) end
      | (Err e, cs) => (Err e, cs)
      end
  end.

Fixpoint decrypt_all (msgs : list (bytes * bytes)) (cs : CipherState)
    : result (list bytes) noise_error * CipherState :=
  match msgs with
  | [] => (Ok [], cs)
  | (ad, c) :: msgs =>
      match Decrypt ad c cs with
      | (Ok pt, cs) => match decrypt_all msgs cs with
                       | (Ok l, cs) => (Ok (pt :: l), cs) | (Err e, cs) => (Err e, cs) end
      | (Err e, cs) => (Err e, cs)
      end
  end.

(** Messages encrypted in sequence by one end's cipher state
    and decrypted in the same order by the peer's (same key and counter) come
    back unchanged, each 16 bytes longer on the wire, with both counters
    advanced by the number of messages. *)
Theorem cipher_stream_roundtrip key n msgs :
  isZeroKey key = false -> length key = 32%nat -> 0 <= n -> n + len msgs <= u64_max ->
  exists cts, encrypt_all msgs (mkCipher key n) = (Ok cts, mkCipher key (n + len msgs))
    /\ decrypt_all (zip msgs.*1 cts) (mkCipher key n) = (Ok msgs.*2, mkCipher key (n + len msgs))
    /\ (length <$> cts) = (fun m => length m + 16)%nat <$> msgs.*2.
Proof.
  intros Hz Hl. revert n. induction msgs as [|[ad pt] msgs IH]; intros n Hn Hmax.
  { exists []. by rewrite (@len_nil (bytes * bytes)), Z.add_0_r. }
  rewrite len_cons in Hmax |- *. pose proof (len_nonneg msgs).
  assert (cipher_ready (mkCipher key n)) as Hr by (split_and!; simpl; lia || done).
  destruct (IH (n + 1)) as (cts&He&Hd&Hlen); [lia..|].
  exists (gcm_seal key (nonceBytes n) pt ad :: cts).
  replace (n + (1 + len msgs)) with (n + 1 + len msgs) by lia.
  split_and!.
  - cbn [encrypt_all]. unfold Encrypt. rewrite encryptWithAd_run by done.
    unfold next_cipher. cbn [cs_key cs_n]. by rewrite He.
  - rewrite !fmap_cons. change (zip (?x :: ?l) (?y :: ?k)) with ((x, y) :: zip l k).
    cbn [decrypt_all fst snd]. unfold Decrypt.
    rewrite decryptWithAd_run by done. cbn [cs_key cs_n]. rewrite gcm_open_seal.
    unfold next_cipher. cbn [cs_key cs_n]. by rewrite Hd.
  - rewrite !fmap_cons. by rewrite length_gcm_seal, Hlen.
Qed.

(** A cipher state is ready, or refuses both operations. *)
Lemma cipher_cases cs ad c :
  0 <= cs_n cs <= u64_max ->
  cipher_ready cs \/ ((exists e, decryptWithAd ad c cs = (Err e, cs))
                      /\ exists e, encryptWithAd ad c cs = (Err e, cs)).
Proof.
  intros Hn. unfold decryptWithAd, encryptWithAd, cipher_ready, newGCM. go_run.
  destruct (isZeroKey (cs_key cs)); [right; split; eexists; reflexivity|].
  destruct (Z.eqb_spec (cs_n cs) u64_max); [right; split; eexists; reflexivity|].
  destruct (Nat.eqb_spec (length (cs_key cs)) 32); [left; split_and!; [done..|lia|lia]|].
  right; split; eexists; reflexivity.
Qed.

Lemma decrypt_cases cs ad c :
  0 <= cs_n cs <= u64_max ->
  match decryptWithAd ad c cs with
  | (Ok pt, cs') => c = gcm_seal (cs_key cs) (nonceBytes (cs_n cs)) pt ad /\ cs' = next_cipher cs
  | (Err _, cs') => cs' = cs
  end.
Proof.
  intros Hn. destruct (cipher_cases cs ad c Hn) as [Hr|[[e ->] _]]; [|done].
  rewrite decryptWithAd_run by done.
  destruct (gcm_open _ _ _ _) eqn:Ho; [|done]. by apply gcm_open_inv in Ho.
Qed.

#[export] Instance cipher_ready_dec cs : Decision (cipher_ready cs).
Proof. unfold cipher_ready. apply _. Defined.

(** A sender's calls, whatever it does with the errors. *)
Fixpoint encrypt_calls (msgs : list (bytes * bytes)) (cs : CipherState) : list (result bytes noise_error) * CipherState :=
  match msgs with
  | [] => ([], cs)
  | (ad, pt) :: msgs => let '(o, cs1) := Encrypt ad pt cs in let '(os, cs2) := encrypt_calls msgs cs1 in (o :: os, cs2)
  end.

Lemma encrypt_blocked msgs cs : 0 <= cs_n cs <= u64_max -> ~ cipher_ready cs -> forall i ct, fst (encrypt_calls msgs cs) !! i <> Some (Ok ct).
Proof.
  intros Hn Hno. induction msgs as [|[ad pt] msgs IH]; intros i ct; [done|]. cbn [encrypt_calls]. unfold Encrypt at 1.
  destruct (cipher_cases cs ad pt Hn) as [|[_ [e ->]]]; [done|]. destruct (encrypt_calls msgs cs) as [os cs2]. destruct i; [done|]. apply IH.
Qed.

(** What goes out, and under which nonce. *)
Lemma encrypt_calls_nonce msgs cs : 0 <= cs_n cs <= u64_max -> forall i ad pt ct,
  msgs !! i = Some (ad, pt) -> fst (encrypt_calls msgs cs) !! i = Some (Ok ct) ->
  ct = gcm_seal (cs_key cs) (nonceBytes (cs_n cs + Z.of_nat i)) pt ad /\ cs_n cs + Z.of_nat i < u64_max.
Proof.
  revert cs. induction msgs as [|[ad0 pt0] msgs IH]; intros cs Hn i ad pt ct; [done|].
  destruct (decide (cipher_ready cs)) as [Hr|Hno]; [|intros _ Hct; by apply encrypt_blocked in Hct].
  cbn [encrypt_calls]. unfold Encrypt at 1. rewrite encryptWithAd_run by done.
  destruct (encrypt_calls msgs (next_cipher cs)) as [os cs2] eqn:Hos. destruct Hr as (_&_&Hlt). destruct i as [|i].
  - intros [= -> ->] [= <-]. rewrite Z.add_0_r. split; [done|lia].
  - intros Hm Ho. destruct (IH (next_cipher cs)) with (i := i) (ad := ad) (pt := pt) (ct := ct) as [-> Hb]; [cbn; lia|done|by rewrite Hos|].
    cbn in *. replace (cs_n cs + 1 + Z.of_nat i) with (cs_n cs + Z.of_nat (S i)) in * by lia. by split.
Qed.

(** C7 (safety). Decryption accepts the next message of the stream and no other:
    a ciphertext opens exactly when it is the seal of a plaintext under the
    current key and counter, for a cipher that can still count, and every failure
    leaves the cipher state as it was.  Encryption never repeats a nonce: in any
    sequence of calls, whatever the caller does about the errors, what goes out as
    the i-th message is its seal under the nonce of the counter plus i, and no two
    of these nonces are the same.  A cipher that cannot count any more refuses. *)
Theorem cipher_state_safe cs ad : 0 <= cs_n cs <= u64_max ->
  (forall c pt, fst (Decrypt ad c cs) = Ok pt <-> cipher_ready cs /\ c = gcm_seal (cs_key cs) (nonceBytes (cs_n cs)) pt ad)
  /\ (forall c, snd (Decrypt ad c cs) = if is_ok (fst (Decrypt ad c cs)) then next_cipher cs else cs)
  /\ (forall pt, is_ok (fst (Encrypt ad pt cs)) = bool_decide (cipher_ready cs))
  /\ forall msgs i pt ct, msgs !! i = Some (ad, pt) -> fst (encrypt_calls msgs cs) !! i = Some (Ok ct) ->
       ct = gcm_seal (cs_key cs) (nonceBytes (cs_n cs + Z.of_nat i)) pt ad
       /\ forall j, (j < i)%nat -> nonceBytes (cs_n cs + Z.of_nat j) <> nonceBytes (cs_n cs + Z.of_nat i).
Proof.
  intros Hn. split; [|split; [|split]].
  - intros c pt. unfold Decrypt. split.
    + destruct (cipher_cases cs ad c Hn) as [Hr|[[e ->] _]]; [|done]. pose proof (decrypt_cases cs ad c Hn) as Hc. unfold Decrypt in Hc.
      destruct (decryptWithAd ad c cs) as [[pt'|e] cs']; [|done]. intros [= <-]. by destruct Hc.
    + intros [Hr ->]. by rewrite decryptWithAd_run, gcm_open_seal.
  - intros c. unfold Decrypt. pose proof (decrypt_cases cs ad c Hn) as Hc. destruct (decryptWithAd ad c cs) as [[pt|e] cs']; [by destruct Hc|done].
  - intros pt. unfold Encrypt. case_bool_decide as Hr; [by rewrite encryptWithAd_run|].
    destruct (cipher_cases cs ad pt Hn) as [|[_ [e ->]]]; done.
  - intros msgs i pt ct Hm Ho. destruct (encrypt_calls_nonce _ _ Hn _ _ _ _ Hm Ho) as [-> Hb]. split; [done|].
    intros j Hj Heq%nonceBytes_inj; lia.
Qed.

(** * The handshake *)

#[local] Opaque hkdf2 mixHash gcm_seal gcm_open isZeroKey.

Section agreement.
Context `{HE : ECDH} {HL : ECDHLaws}.

Abbreviation NX := (@NoiseXX HE).

Lemma require_ok r p (n : NX) : n_role n = r -> n_phase n = p -> require r p n = (Ok tt, n).
Proof. intros Hr Hp. unfold require. go_run. rewrite !bool_decide_eq_true_2 by done. done. Qed.

Definition keyed (n : NX) : Prop :=
  n_hasK n = true /\ length (n_k n) = 32%nat /\ isZeroKey (n_k n) = false.

Lemma keyed_ready (n : NX) : keyed n -> cipher_ready (newCipherState (n_k n)).
Proof. intros (_&?&?). split_and!; simpl; unfold u64_max; lia || done. Qed.

Lemma encryptAndHash_run (n : NX) pt :
  keyed n ->
  let ct := gcm_seal (n_k n) (nonceBytes 0) pt (n_h n) in
  encryptAndHash pt n = (Ok ct, set_h (mixHash (n_h n) ct) n).
Proof.
  intros Hk ct. pose proof (keyed_ready n Hk) as Hr. destruct Hk as (HK&_).
  unfold encryptAndHash. go_run. rewrite HK. cbn [negb].
  by rewrite encryptWithAd_run by done.
Qed.

Lemma decryptAndHash_run (n : NX) pt ct :
  keyed n -> ct = gcm_seal (n_k n) (nonceBytes 0) pt (n_h n) ->
  decryptAndHash ct n = (Ok pt, set_h (mixHash (n_h n) ct) n).
Proof.
  intros Hk Hct. pose proof (keyed_ready n Hk) as Hr. destruct Hk as (HK&_).
  unfold decryptAndHash. go_run. rewrite HK. cbn [negb].
  rewrite decryptWithAd_run by done. cbn [cs_key cs_n newCipherState]. rewrite Hct.
  by rewrite gcm_open_seal.
Qed.

(** Mixing a shared secret into the keys. *)
Definition mixed (z : bytes) (n : NX) : NX :=
  set_keys (fst (hkdf2 (n_ck n) z)) (snd (hkdf2 (n_ck n) z)) n.

Lemma mix_dh_run (a : GoM NX noise_error priv) (n : NX) x y z :
  a n = (Ok x, n) -> ECDHSecret x (PublicKey y) = Some z ->
  mix_dh a (Bytes (PublicKey y)) n = (Ok tt, mixed z n).
Proof.
  intros Ha Hz. unfold mix_dh, importPublicKey, dhP256, mixKey. go_run.
  rewrite NewPublicKey_Bytes, Ha, Hz. unfold mixed. by destruct (hkdf2 _ _).
Qed.

Lemma ephemeral_run (n : NX) e : n_ePriv n = Some e -> ephemeral n = (Ok e, n).
Proof. intros He. unfold ephemeral. go_run. by rewrite He. Qed.

Lemma mixed_keyed z (n : NX) : isZeroKey (snd (hkdf2 (n_ck n) z)) = false -> keyed (mixed z n).
Proof. intros Hz. split; [reflexivity|]. split; [apply length_hkdf2|exact Hz]. Qed.

(** The three keys a handshake derives from its shared secrets. *)
Definition handshake_keys (ee es se : bytes) : list bytes :=
  let '(ck1, k1) := hkdf2 (snd initialize) ee in
  let '(ck2, k2) := hkdf2 ck1 es in
  let '(ck3, k3) := hkdf2 ck2 se in
  [k1; k2; k3].

(** The messages of the two parties, run against each other. *)
Definition run_handshake (sI eI sR eR : priv)
    : result (NX * NX * list bytes) noise_error :=
  let? i0 := NewInitiator (Some sI) in
  let? r0 := NewResponder sR in
  let '(m1, i1) := WriteMessage1 (Some eI) i0 in
  let? m1 := m1 in
  let '(o, r1) := ReadMessage1 m1 r0 in
  let? _ := o in
  let '(m2, r2) := WriteMessage2 (Some eR) r1 in
  let? m2 := m2 in
  let '(o, i2) := ReadMessage2 m2 i1 in
  let? _ := o in
  let '(m3, i3) := WriteMessage3 i2 in
  let? m3 := m3 in
  let '(o, r3) := ReadMessage3 m3 r2 in
  let? _ := o in
  Ok (i3, r3, [m1; m2; m3]).

Lemma WriteMessage1_run s e :
  let n := new_handshake roleInitiator s in
  let p := Bytes (PublicKey e) in
  WriteMessage1 (Some e) n =
  (Ok p, set_phase phaseMsg1Sent (set_h (mixHash (n_h n) p) (set_e (Some e) p n))).
Proof. reflexivity. Qed.

Lemma len_pub p : len (Bytes p) = 65.
Proof. unfold len. by rewrite Bytes_length. Qed.

Lemma ReadMessage1_run s p :
  let n := new_handshake roleResponder s in
  ReadMessage1 (Bytes p) n =
  (Ok tt, set_phase phaseMsg1Received (set_h (mixHash (n_h n) (Bytes p)) (set_rE (Bytes p) n))).
Proof.
  intros n. unfold ReadMessage1, gbind. rewrite require_ok by done. go_run.
  rewrite len_pub. reflexivity.
Qed.

(** The responder's second message, from the state after the first. *)
Lemma WriteMessage2_run (n : NX) eR eI ee es :
  n_role n = roleResponder -> n_phase n = phaseMsg1Received -> n_rEPub n = Bytes (PublicKey eI) ->
  ECDHSecret eR (PublicKey eI) = Some ee -> ECDHSecret (n_sPriv n) (PublicKey eI) = Some es ->
  let p := Bytes (PublicKey eR) in
  let n1 := mixed ee (set_h (mixHash (n_h n) p) (set_e (Some eR) p n)) in
  let c1 := gcm_seal (n_k n1) (nonceBytes 0) (n_sPub n) (n_h n1) in
  let n2 := mixed es (set_h (mixHash (n_h n1) c1) n1) in
  let c2 := gcm_seal (n_k n2) (nonceBytes 0) [] (n_h n2) in
  isZeroKey (n_k n1) = false -> isZeroKey (n_k n2) = false ->
  WriteMessage2 (Some eR) n = (Ok (p ++ c1 ++ c2), set_phase phaseMsg2Sent (set_h (mixHash (n_h n2) c2) n2)).
Proof.
  intros Hr Hp He Hee Hes p n1 c1 n2 c2 Hz1 Hz2. unfold WriteMessage2.
  unfold gbind at 1. rewrite require_ok by done.
  unfold gbind, new_ephemeral, mix_hash_of, gmod, gget. cbn [n_rEPub set_h set_e n_sPub]. rewrite He.
  rewrite (mix_dh_run _ _ eR eI ee); [|by apply ephemeral_run|done].
  change (mixed ee _) with n1.
  rewrite encryptAndHash_run by (apply mixed_keyed, Hz1).
  change (gcm_seal _ _ _ _) with c1.
  rewrite (mix_dh_run _ _ (n_sPriv n) eI es) by done.
  change (mixed es _) with n2.
  rewrite encryptAndHash_run by (apply mixed_keyed, Hz2). reflexivity.
Qed.

Lemma slice_message (a b c : bytes) n m :
  length a = n -> length b = m ->
  take n (a ++ b ++ c) = a /\ take m (drop n (a ++ b ++ c)) = b /\ drop (n + m) (a ++ b ++ c) = c.
Proof.
  intros <- <-. split_and!; [by rewrite take_app_length| |].
  - by rewrite drop_app_length, take_app_length.
  - rewrite <- drop_drop. by rewrite !drop_app_length.
Qed.

Lemma ReadMessage2_run (n : NX) eI eR sR ee es :
  n_role n = roleInitiator -> n_phase n = phaseMsg1Sent -> n_ePriv n = Some eI ->
  ECDHSecret eI (PublicKey eR) = Some ee -> ECDHSecret eI (PublicKey sR) = Some es ->
  let p := Bytes (PublicKey eR) in
  let s := Bytes (PublicKey sR) in
  let n1 := mixed ee (set_h (mixHash (n_h n) p) (set_rE p n)) in
  let c1 := gcm_seal (n_k n1) (nonceBytes 0) s (n_h n1) in
  let n2 := mixed es (set_rS s (set_h (mixHash (n_h n1) c1) n1)) in
  let c2 := gcm_seal (n_k n2) (nonceBytes 0) [] (n_h n2) in
  isZeroKey (n_k n1) = false -> isZeroKey (n_k n2) = false ->
  ReadMessage2 (p ++ c1 ++ c2) n =
  (Ok tt, set_phase phaseMsg2Received (set_h (mixHash (n_h n2) c2) n2)).
Proof.
  intros Hr Hp He Hee Hes p s n1 c1 n2 c2 Hz1 Hz2.
  assert (length p = 65%nat) as Hlp by apply Bytes_length.
  assert (length c1 = 81%nat) as Hl1 by (unfold c1; rewrite length_gcm_seal; unfold s; by rewrite Bytes_length).
  assert (length c2 = 16%nat) as Hl2 by (unfold c2; by rewrite length_gcm_seal).
  destruct (slice_message p c1 c2 65 81 Hlp Hl1) as (S1&S2&S3).
  unfold ReadMessage2. unfold gbind at 1. rewrite require_ok by done.
  unfold len. rewrite !length_app, Hlp, Hl1, Hl2. change (Z.of_nat (65 + (81 + 16)) =? 162) with true. cbn [negb].
  change (drop 146 _) with (drop (65 + 81) (p ++ c1 ++ c2)). rewrite S1, S2, S3.
  unfold mix_hash_of. go_run.
  change (mix_dh ephemeral p) with (mix_dh ephemeral (Bytes (PublicKey eR))).
  rewrite (mix_dh_run _ _ eI eR ee); [|by apply ephemeral_run|done].
  change (mixed ee _) with n1.
  rewrite (decryptAndHash_run n1 s c1) by (apply mixed_keyed, Hz1 || reflexivity).
  change (mix_dh ephemeral s) with (mix_dh ephemeral (Bytes (PublicKey sR))).
  rewrite (mix_dh_run _ _ eI sR es); [|by apply ephemeral_run|done].
  change (mixed es _) with n2.
  rewrite (decryptAndHash_run n2 [] c2) by (apply mixed_keyed, Hz2 || reflexivity). reflexivity.
Qed.

(** The initiator's last message, from the state after the second. *)
Lemma WriteMessage3_run (n : NX) eR se :
  n_role n = roleInitiator -> n_phase n = phaseMsg2Received -> n_rEPub n = Bytes (PublicKey eR) ->
  ECDHSecret (n_sPriv n) (PublicKey eR) = Some se -> keyed n ->
  let c1 := gcm_seal (n_k n) (nonceBytes 0) (n_sPub n) (n_h n) in
  let n2 := mixed se (set_h (mixHash (n_h n) c1) n) in
  let c2 := gcm_seal (n_k n2) (nonceBytes 0) [] (n_h n2) in
  isZeroKey (n_k n2) = false ->
  WriteMessage3 n = (Ok (c1 ++ c2), set_phase phaseDone (set_h (mixHash (n_h n2) c2) n2)).
Proof.
  intros Hr Hp He Hse Hk c1 n2 c2 Hz. unfold WriteMessage3.
  unfold gbind at 1. rewrite require_ok by done. go_run.
  rewrite encryptAndHash_run by done. change (gcm_seal _ _ _ _) with c1. rewrite He.
  rewrite (mix_dh_run _ _ (n_sPriv n) eR se) by done. change (mixed se _) with n2.
  rewrite encryptAndHash_run by (apply mixed_keyed, Hz). reflexivity.
Qed.

Lemma ReadMessage3_run (n : NX) eR sI se :
  n_role n = roleResponder -> n_phase n = phaseMsg2Sent -> n_ePriv n = Some eR ->
  ECDHSecret eR (PublicKey sI) = Some se -> keyed n ->
  let s := Bytes (PublicKey sI) in
  let c1 := gcm_seal (n_k n) (nonceBytes 0) s (n_h n) in
  let n2 := mixed se (set_rS s (set_h (mixHash (n_h n) c1) n)) in
  let c2 := gcm_seal (n_k n2) (nonceBytes 0) [] (n_h n2) in
  isZeroKey (n_k n2) = false ->
  ReadMessage3 (c1 ++ c2) n = (Ok tt, set_phase phaseDone (set_h (mixHash (n_h n2) c2) n2)).
Proof.
  intros Hr Hp He Hse Hk s c1 n2 c2 Hz.
  assert (length c1 = 81%nat) as Hl1 by (unfold c1; rewrite length_gcm_seal; unfold s; by rewrite Bytes_length).
  assert (length c2 = 16%nat) as Hl2 by (unfold c2; by rewrite length_gcm_seal).
  unfold ReadMessage3. unfold gbind at 1. rewrite require_ok by done.
  unfold len. rewrite !length_app, Hl1, Hl2. change (Z.of_nat (81 + 16) =? 97) with true. cbn [negb].
  rewrite take_app_length', drop_app_length' by done. go_run.
  rewrite (decryptAndHash_run n s c1) by done.
  change (mix_dh ephemeral s) with (mix_dh ephemeral (Bytes (PublicKey sI))).
  rewrite (mix_dh_run _ _ eR sI se); [|by apply ephemeral_run|done]. change (mixed se _) with n2.
  rewrite (decryptAndHash_run n2 [] c2) by (apply mixed_keyed, Hz || reflexivity). reflexivity.
Qed.

(** What the two states share between the second and the third message. *)
Record agreed (i r : NX) (sI eI sR eR : priv) (ck k : bytes) : Prop := {
  ag_i : n_role i = roleInitiator /\ n_phase i = phaseMsg2Received
         /\ n_rEPub i = Bytes (PublicKey eR) /\ n_rSPub i = Bytes (PublicKey sR)
         /\ n_sPriv i = sI /\ n_sPub i = Bytes (PublicKey sI);
  ag_r : n_role r = roleResponder /\ n_phase r = phaseMsg2Sent /\ n_ePriv r = Some eR;
  ag_h : n_h i = n_h r;
  ag_keys : n_ck i = ck /\ n_ck r = ck /\ n_k i = k /\ n_k r = k /\ keyed i /\ keyed r }.

Lemma mixed_fields z (n : NX) ck k :
  hkdf2 (n_ck n) z = (ck, k) -> n_k (mixed z n) = k /\ n_ck (mixed z n) = ck.
Proof. intros Hk. unfold mixed. cbn [n_k n_ck set_keys]. by rewrite Hk. Qed.

Lemma kept_fields p h (n : NX) :
  let n' := set_phase p (set_h h n) in
  n_ck n' = n_ck n /\ n_k n' = n_k n /\ n_hasK n' = n_hasK n.
Proof. split_and!; reflexivity. Qed.

Lemma keyed_kept p h (n : NX) k :
  n_hasK n = true -> n_k n = k -> length k = 32%nat -> isZeroKey k = false ->
  keyed (set_phase p (set_h h n)).
Proof.
  intros Hk <- Hl Hz. destruct (kept_fields p h n) as (_&E1&E2). cbv zeta in E1, E2.
  unfold keyed. rewrite E1, E2. split_and!; assumption.
Qed.

(** The states after the first message. *)
Record begun (i r : NX) (sI eI sR : priv) : Prop := {
  bg_i : n_role i = roleInitiator /\ n_phase i = phaseMsg1Sent /\ n_ePriv i = Some eI
         /\ n_sPriv i = sI /\ n_sPub i = Bytes (PublicKey sI);
  bg_r : n_role r = roleResponder /\ n_phase r = phaseMsg1Received
         /\ n_rEPub r = Bytes (PublicKey eI) /\ n_sPriv r = sR /\ n_sPub r = Bytes (PublicKey sR);
  bg_h : n_h i = n_h r;
  bg_ck : n_ck i = snd initialize /\ n_ck r = snd initialize }.

Lemma noise_first_message sI eI sR :
  exists i r,
    WriteMessage1 (Some eI) (new_handshake roleInitiator sI) = (Ok (Bytes (PublicKey eI)), i)
    /\ ReadMessage1 (Bytes (PublicKey eI)) (new_handshake roleResponder sR) = (Ok tt, r)
    /\ begun i r sI eI sR.
Proof.
  do 2 eexists. split; [apply WriteMessage1_run|]. split; [apply ReadMessage1_run|].
  constructor; [split_and!; reflexivity..|reflexivity|split; reflexivity].
Qed.

(** The second message brings both sides to the same keys and transcript. *)
Lemma handshake_middle i r sI eI sR eR ee es ck1 k1 ck2 k2 :
  begun i r sI eI sR ->
  ECDHSecret eI (PublicKey eR) = Some ee -> ECDHSecret eR (PublicKey eI) = Some ee ->
  ECDHSecret eI (PublicKey sR) = Some es -> ECDHSecret sR (PublicKey eI) = Some es ->
  hkdf2 (snd initialize) ee = (ck1, k1) -> hkdf2 ck1 es = (ck2, k2) ->
  isZeroKey k1 = false -> isZeroKey k2 = false ->
  exists r2 i2 m2,
    WriteMessage2 (Some eR) r = (Ok m2, r2) /\ ReadMessage2 m2 i = (Ok tt, i2)
    /\ length m2 = 162%nat /\ agreed i2 r2 sI eI sR eR ck2 k2.
Proof.
  intros [(Ri&Pi&Ei&Si&Psi) (Rr&Pr&Er&Sr&Psr) Hh (Ci&Cr)] Hee Hee' Hes Hes' E1 E2 K1 K2.
  rewrite <- Sr in Hes'. rewrite <- Ci in E1 at 1.
  pose proof (WriteMessage2_run r eR eI ee es Rr Pr Er Hee' Hes') as W2.
  pose proof (ReadMessage2_run i eI eR sR ee es Ri Pi Ei Hee Hes) as R2. cbv zeta in W2, R2.
  rewrite Hh in R2. rewrite Psr in W2. set (h1 := mixHash (n_h r) _) in W2, R2.
  set (rn1 := mixed ee _) in W2. set (in1 := mixed ee _) in R2.
  assert (n_k rn1 = k1 /\ n_ck rn1 = ck1) as [Rk1 Rc1].
  { apply mixed_fields. cbn [n_ck set_h set_e]. by rewrite Cr, <- Ci. }
  assert (n_k in1 = k1 /\ n_ck in1 = ck1) as [Ik1 Ic1] by (apply mixed_fields; exact E1).
  assert (n_h rn1 = h1 /\ n_h in1 = h1) as [Rh1 Ih1] by (split; reflexivity).
  rewrite Rk1, Rh1 in W2. rewrite Ik1, Ih1 in R2. set (c1 := gcm_seal k1 _ _ h1) in W2, R2.
  set (h2 := mixHash h1 c1) in W2, R2.
  set (rn2 := mixed es _) in W2. set (in2 := mixed es _) in R2.
  assert (n_k rn2 = k2 /\ n_ck rn2 = ck2) as [Rk2 Rc2].
  { apply mixed_fields. cbn [n_ck set_h]. by rewrite Rc1. }
  assert (n_k in2 = k2 /\ n_ck in2 = ck2) as [Ik2 Ic2].
  { apply mixed_fields. cbn [n_ck set_h set_rS]. by rewrite Ic1. }
  assert (n_h rn2 = h2 /\ n_h in2 = h2) as [Rh2 Ih2] by (split; reflexivity).
  rewrite Rk2, Rh2 in W2. rewrite Ik2, Ih2 in R2.
  do 3 eexists. split; [exact (W2 K1 K2)|]. split; [exact (R2 K1 K2)|].
  split. { unfold c1. by rewrite !length_app, !length_gcm_seal, !Bytes_length. }
  constructor; [split_and!; assumption || reflexivity..| |].
  { cbn [n_h set_phase set_h]. reflexivity. }
  assert (length k2 = 32%nat) as L2.
  { pose proof (proj2 (length_hkdf2 ck1 es)) as L. by rewrite E2 in L. }
  split_and!; [..|by apply (keyed_kept _ _ in2 k2)|by apply (keyed_kept _ _ rn2 k2)].
  - rewrite (proj1 (kept_fields _ _ in2)). exact Ic2.
  - rewrite (proj1 (kept_fields _ _ rn2)). exact Rc2.
  - rewrite (proj1 (proj2 (kept_fields _ _ in2))). exact Ik2.
  - rewrite (proj1 (proj2 (kept_fields _ _ rn2))). exact Rk2.
Qed.

(** The third message completes both sides. *)
Lemma handshake_last i r sI eI sR eR ck2 k2 se ck3 k3 :
  agreed i r sI eI sR eR ck2 k2 ->
  ECDHSecret eR (PublicKey sI) = Some se -> ECDHSecret sI (PublicKey eR) = Some se ->
  hkdf2 ck2 se = (ck3, k3) -> isZeroKey k3 = false ->
  exists m3 i3 r3, WriteMessage3 i = (Ok m3, i3) /\ ReadMessage3 m3 r = (Ok tt, r3)
    /\ length m3 = 97%nat
    /\ (n_role i3 = roleInitiator /\ n_phase i3 = phaseDone /\ n_ck i3 = ck3
        /\ n_rSPub i3 = Bytes (PublicKey sR))
    /\ (n_role r3 = roleResponder /\ n_phase r3 = phaseDone /\ n_ck r3 = ck3
        /\ n_rSPub r3 = Bytes (PublicKey sI))
    /\ n_h i3 = n_h r3.
Proof.
  intros [(Ri&Pi&Ei&Si&Psi&Pbi) (Rr&Pr&Er) Hh (Ci&Cr&Ki&Kr&Yi&Yr)] Hse Hse' E3 K3.
  rewrite <- Psi in Hse'.
  pose proof (WriteMessage3_run i eR se Ri Pi Ei Hse' Yi) as W3.
  pose proof (ReadMessage3_run r eR sI se Rr Pr Er Hse Yr) as R3. cbv zeta in W3, R3.
  rewrite Ki, Pbi, Hh in W3. rewrite Kr in R3.
  set (c1 := gcm_seal k2 _ _ (n_h r)) in W3, R3.
  set (in3 := mixed se _) in W3. set (rn3 := mixed se _) in R3.
  assert (n_k in3 = k3 /\ n_ck in3 = ck3) as [Ik Ic].
  { apply mixed_fields. cbn [n_ck set_h]. by rewrite Ci. }
  assert (n_k rn3 = k3 /\ n_ck rn3 = ck3) as [Rk Rc].
  { apply mixed_fields. cbn [n_ck set_h set_rS]. by rewrite Cr. }
  assert (n_h in3 = n_h rn3) as Hh3 by reflexivity.
  rewrite Ik in W3. rewrite Rk, <- Hh3 in R3.
  do 3 eexists. split; [exact (W3 K3)|]. split; [exact (R3 K3)|].
  split. { rewrite length_app. unfold c1. by rewrite !length_gcm_seal, Bytes_length. }
  split_and!; try (rewrite (proj1 (kept_fields _ _ in3)); exact Ic);
    try (rewrite (proj1 (kept_fields _ _ rn3)); exact Rc); try assumption; try reflexivity.
Qed.

(** C6 (functional). Two honest parties complete the handshake: the three
    messages are 65, 162 and 97 bytes, each side ends done and knows the
    other's static public key, both hold the same transcript hash, and the
    cipher one side sends with is the one the other receives with.  (No
    derived key may be the all-zero key, which the code takes for unset.) *)
Theorem handshake_agreement sI eI sR eR ee es se :
  ECDHSecret eI (PublicKey eR) = Some ee -> ECDHSecret eI (PublicKey sR) = Some es ->
  ECDHSecret eR (PublicKey sI) = Some se ->
  Forall (fun k => isZeroKey k = false) (handshake_keys ee es se) ->
  exists i r m1 m2 m3 a b,
    run_handshake sI eI sR eR = Ok (i, r, [m1; m2; m3])
    /\ (length m1, length m2, length m3) = (65, 162, 97)%nat
    /\ n_h i = n_h r
    /\ RemoteStaticPub i = Bytes (PublicKey sR) /\ RemoteStaticPub r = Bytes (PublicKey sI)
    /\ Split i = Ok (a, b) /\ Split r = Ok (b, a).
Proof.
  intros Hee Hes Hse Hz.
  destruct (ECDH_agrees eI eR) as (z1&Hz1&Hee'). rewrite Hee in Hz1. injection Hz1 as <-.
  destruct (ECDH_agrees eI sR) as (z2&Hz2&Hes'). rewrite Hes in Hz2. injection Hz2 as <-.
  destruct (ECDH_agrees eR sI) as (z3&Hz3&Hse'). rewrite Hse in Hz3. injection Hz3 as <-.
  unfold handshake_keys in Hz.
  destruct (hkdf2 (snd initialize) ee) as [ck1 k1] eqn:E1.
  destruct (hkdf2 ck1 es) as [ck2 k2] eqn:E2. destruct (hkdf2 ck2 se) as [ck3 k3] eqn:E3.
  apply Forall_cons_1 in Hz as [K1 Hz]. apply Forall_cons_1 in Hz as [K2 Hz].
  apply Forall_cons_1 in Hz as [K3 _].
  destruct (noise_first_message sI eI sR) as (i1&r1&W1&R1&Hbg).
  destruct (handshake_middle i1 r1 sI eI sR eR ee es ck1 k1 ck2 k2 Hbg Hee Hee' Hes Hes' E1 E2 K1 K2)
    as (r2&i2&m2&W2&R2&L2&Hag).
  destruct (handshake_last i2 r2 sI eI sR eR ck2 k2 se ck3 k3 Hag Hse Hse' E3 K3)
    as (m3&i3&r3&W3&R3&L3&(Ri&Pi&Ci&Si)&(Rr&Pr&Cr&Sr)&Hh).
  exists i3, r3, (Bytes (PublicKey eI)), m2, m3,
    (newCipherState (fst (splitKeys ck3))), (newCipherState (snd (splitKeys ck3))).
  split. { unfold run_handshake. cbn [NewInitiator NewResponder rbind]. rewrite W1. cbn [rbind].
           rewrite R1. cbn [rbind]. rewrite W2. cbn [rbind]. rewrite R2. cbn [rbind].
           rewrite W3. cbn [rbind]. by rewrite R3. }
  split; [by rewrite Bytes_length, L2, L3|]. split; [exact Hh|]. split; [exact Si|].
  split; [exact Sr|]. unfold Split. rewrite Pi, Pr, Ci, Cr, Ri, Rr.
  destruct (splitKeys ck3) as [x y]. split; reflexivity.
Qed.
End agreement.

(** ** A concrete group, to run the handshake *)

(** Keys are bytes and the shared secret is their product. *)
#[export] Instance toy_ecdh : ECDH := {|
  priv := byte; pub := byte; PublicKey := fun a => a;
  Bytes := fun p => x04 :: replicate 63 x00 ++ [p];
  NewPublicKey := fun raw =>
    let p := default x00 (last raw) in
    if decide (raw = x04 :: replicate 63 x00 ++ [p]) then Some p else None;
  ECDHSecret := fun a p => Some (be_put 32 (byte_val a * byte_val p)) |}.

#[export] Instance toy_ecdh_laws : @ECDHLaws toy_ecdh.
Proof.
  constructor.
  - intros p. reflexivity.
  - intros p. unfold NewPublicKey, Bytes, toy_ecdh.
    change (last (x04 :: replicate 63 x00 ++ [p])) with (Some p). cbn [default from_option].
    by rewrite decide_True.
  - intros a b. cbn. exists (be_put 32 (byte_val a * byte_val b)). split; [done|].
    by rewrite Z.mul_comm.
Qed.

Lemma nonzero_keys ks :
  forallb (fun k => negb (isZeroKey k)) ks = true -> Forall (fun k => isZeroKey k = false) ks.
Proof.
  induction ks as [|k ks IH]; simpl; [constructor|]. intros [Hk Hks]%andb_true_iff.
  constructor; [by apply negb_true_iff|auto].
Qed.

Lemma handshake_agreement_witness :
  exists (i r : @NoiseXX toy_ecdh) m1 m2 m3 a b,
    @run_handshake toy_ecdh x05 x07 x0b x0d = Ok (i, r, [m1; m2; m3])
    /\ (length m1, length m2, length m3) = (65, 162, 97)%nat
    /\ n_h i = n_h r
    /\ RemoteStaticPub i = @Bytes toy_ecdh x0b /\ RemoteStaticPub r = @Bytes toy_ecdh x05
    /\ Split i = Ok (a, b) /\ Split r = Ok (b, a).
Proof.
  apply (@handshake_agreement toy_ecdh toy_ecdh_laws x05 x07 x0b x0d
           (be_put 32 91) (be_put 32 77) (be_put 32 65)); [reflexivity..|].
  apply nonzero_keys. vm_compute. reflexivity.
Defined.

Lemma cipher_stream_roundtrip_witness :
  exists cts, encrypt_all [([], [x61]); ([x01], [x62; x63])] (mkCipher (replicate 32 x07) 0)
              = (Ok cts, mkCipher (replicate 32 x07) 2)
    /\ decrypt_all (zip [[]; [x01]] cts) (mkCipher (replicate 32 x07) 0)
       = (Ok [[x61]; [x62; x63]], mkCipher (replicate 32 x07) 2)
    /\ (length <$> cts) = [17; 18]%nat.
Proof.
  apply (cipher_stream_roundtrip (replicate 32 x07) 0 [([], [x61]); ([x01], [x62; x63])]);
    [vm_compute; reflexivity|reflexivity|lia|vm_compute; discriminate].
Defined.

(** The second of two messages, sent and received. *)
Definition demo_cipher : CipherState := mkCipher (replicate 32 x07) 0.
Definition demo_seal (n : Z) (pt : bytes) : bytes := gcm_seal (replicate 32 x07) (nonceBytes n) pt [].
Lemma cipher_state_safe_witness :
  fst (Decrypt [] (demo_seal 0 [x01]) demo_cipher) = Ok [x01] /\
  fst (encrypt_calls [([], [x01]); ([], [x02])] demo_cipher) !! 1%nat = Some (Ok (demo_seal 1 [x02])) /\
  nonceBytes 0 <> nonceBytes 1.
Proof.
  assert (0 <= cs_n demo_cipher <= u64_max) as Hn by (cbn; unfold u64_max; lia).
  destruct (cipher_state_safe demo_cipher [] Hn) as (Hd&_&_&He).
  assert (fst (encrypt_calls [([], [x01]); ([], [x02])] demo_cipher) !! 1%nat = Some (Ok (demo_seal 1 [x02]))) as Hct by (vm_compute; reflexivity).
  split; [|split; [exact Hct|]].
  - apply Hd. split; [|reflexivity]. split_and!; [vm_compute; reflexivity|reflexivity|cbn; lia|cbn; unfold u64_max; lia].
  - exact (proj2 (He [([], [x01]); ([], [x02])] 1%nat [x02] (demo_seal 1 [x02]) eq_refl Hct) 0%nat ltac:(lia)).
Defined.

(** * The phase machine *)

Section phases.
Context `{HE : ECDH}.
Abbreviation NX := (@NoiseXX HE).
Abbreviation NM := (GoM NX noise_error).

(** The operations of a handshake. *)
Inductive noise_op : Type :=
| OpWrite1 (gen : option priv) | OpRead1 (msg : bytes) | OpWrite2 (gen : option priv)
| OpRead2 (msg : bytes) | OpWrite3 | OpRead3 (msg : bytes).

(** The message an operation returns; reading returns none. *)
Definition run_op (op : noise_op) : NM bytes :=
  match op with
  | OpWrite1 gen => WriteMessage1 gen
  | OpRead1 msg => do! ReadMessage1 msg in gret []
  | OpWrite2 gen => WriteMessage2 gen
  | OpRead2 msg => do! ReadMessage2 msg in gret []
  | OpWrite3 => WriteMessage3
  | OpRead3 msg => do! ReadMessage3 msg in gret []
  end.

Definition op_phases (op : noise_op) : role * phase * phase :=
  match op with
  | OpWrite1 _ => (roleInitiator, phaseReady, phaseMsg1Sent)
  | OpRead1 _ => (roleResponder, phaseReady, phaseMsg1Received)
  | OpWrite2 _ => (roleResponder, phaseMsg1Received, phaseMsg2Sent)
  | OpRead2 _ => (roleInitiator, phaseMsg1Sent, phaseMsg2Received)
  | OpWrite3 => (roleInitiator, phaseMsg2Received, phaseDone)
  | OpRead3 _ => (roleResponder, phaseMsg2Sent, phaseDone)
  end.

Definition keeps {A} (c : NM A) : Prop :=
  forall n, n_role (snd (c n)) = n_role n /\ n_phase (snd (c n)) = n_phase n
            /\ n_sPriv (snd (c n)) = n_sPriv n /\ n_sPub (snd (c n)) = n_sPub n.

(** On success the phase is [p]; on error it is the old one. *)
Definition moves {A} (p : phase) (c : NM A) : Prop :=
  forall n, n_role (snd (c n)) = n_role n /\ n_sPriv (snd (c n)) = n_sPriv n
            /\ n_sPub (snd (c n)) = n_sPub n
            /\ n_phase (snd (c n)) = match fst (c n) with Ok _ => p | Err _ => n_phase n end.

Lemma keeps_bind {A B} (c : NM A) (k : A -> NM B) : keeps c -> (forall a, keeps (k a)) -> keeps (gbind c k).
Proof.
  intros Hc Hk n. unfold gbind. specialize (Hc n). destruct (c n) as [[a|e] n']; [|done].
  simpl in Hc. specialize (Hk a n'). intuition congruence.
Qed.

Lemma moves_bind {A B} p (c : NM A) (k : A -> NM B) :
  keeps c -> (forall a, moves p (k a)) -> moves p (gbind c k).
Proof.
  intros Hc Hk n. unfold gbind. specialize (Hc n). destruct (c n) as [[a|e] n']; [|simpl in *; tauto].
  simpl in Hc. specialize (Hk a n'). destruct (k a n') as [[?|?] ?]; simpl in *; intuition congruence.
Qed.

Lemma keeps_get : keeps gget.
Proof. done. Qed.
Lemma keeps_ret {A} (a : A) : keeps (gret a).
Proof. done. Qed.
Lemma keeps_lift {A} (r : result A noise_error) : keeps (glift r).
Proof. done. Qed.
Lemma keeps_guard b e : keeps (gguard b e).
Proof. by destruct b. Qed.
Lemma keeps_fail {A} e : keeps (gfail e : NM A).
Proof. done. Qed.

Create HintDb noise_db discriminated.
#[local] Hint Resolve keeps_get keeps_ret keeps_lift keeps_guard keeps_fail : noise_db.
#[local] Hint Extern 2 (keeps (gbind _ _)) => apply keeps_bind; [|intros ?] : noise_db.
#[local] Hint Extern 3 (keeps (gmod _)) => intros ?; split_and!; reflexivity : noise_db.
#[local] Hint Extern 2 (moves _ (gbind _ _)) => apply moves_bind; [|intros ?] : noise_db.
#[local] Hint Extern 3 (moves _ (gmod _)) => intros ?; split_and!; reflexivity : noise_db.

Lemma keeps_mixKey z : keeps (mixKey z).
Proof. intros n. unfold mixKey, gmod. destruct (hkdf2 _ _). done. Qed.
Lemma keeps_enc pt : keeps (encryptAndHash pt).
Proof. unfold encryptAndHash. auto 10 with noise_db. Qed.
Lemma keeps_dec pt : keeps (decryptAndHash pt).
Proof. unfold decryptAndHash. auto 10 with noise_db. Qed.
Lemma keeps_ephemeral : keeps ephemeral.
Proof. apply keeps_bind; [apply keeps_get|]. intros n. destruct (n_ePriv n); auto with noise_db. Qed.
Lemma keeps_static : keeps static_key.
Proof. unfold static_key. auto with noise_db. Qed.
Lemma keeps_new gen : keeps (new_ephemeral gen).
Proof. unfold new_ephemeral. destruct gen; auto with noise_db. Qed.
Lemma keeps_hash f : keeps (mix_hash_of f).
Proof. unfold mix_hash_of. auto with noise_db. Qed.
Lemma keeps_dh a raw : keeps a -> keeps (mix_dh a raw).
Proof. intros. unfold mix_dh. auto 10 using keeps_mixKey with noise_db. Qed.
#[local] Hint Resolve keeps_enc keeps_dec keeps_ephemeral keeps_static keeps_new keeps_hash
  keeps_dh : noise_db.

(** After its guard, an operation keeps the phase until its last write. *)
Lemma require_bind {A} r p q (c : NM A) n :
  moves q c ->
  match gbind (require r p) (fun _ => c) n with
  | (Ok _, n') => n_role n = r /\ n_phase n = p /\ n_phase n' = q /\ n_role n' = r
                  /\ n_sPriv n' = n_sPriv n /\ n_sPub n' = n_sPub n
  | (Err e, n') => n_phase n' = n_phase n /\ n_role n' = n_role n
                   /\ n_sPriv n' = n_sPriv n /\ n_sPub n' = n_sPub n
                   /\ (n_role n <> r \/ n_phase n <> p -> n' = n)
  end.
Proof.
  intros Hm. unfold require. go_run.
  destruct (bool_decide_reflect (n_role n = r)) as [Hr|Hr]; cbn [negb]; [|by split_and!].
  destruct (bool_decide_reflect (n_phase n = p)) as [Hp|Hp]; cbn [negb]; [|by split_and!].
  specialize (Hm n). destruct (c n) as [[a|e] n']; simpl in Hm; destruct Hm as (?&?&?&?).
  - split_and!; congruence.
  - split_and!; try congruence. intros [?|?]; congruence.
Qed.

Lemma moves_tail {A} q (c : NM unit) (a : A) : moves q c -> moves q (gbind c (fun _ => gret a)).
Proof.
  intros Hc n. unfold gbind, gret. specialize (Hc n). by destruct (c n) as [[?|?] ?].
Qed.

Lemma moves_set_ret {A} q (f : NX -> A) :
  moves q (gbind (gmod (set_phase q)) (fun _ => gbind gget (fun n => gret (f n)))).
Proof. intros n. by split_and!. Qed.
Lemma moves_set_ret' {A} q (a : A) : moves q (gbind (gmod (set_phase q)) (fun _ => gret a)).
Proof. intros n. by split_and!. Qed.
Lemma moves_set q : moves q (gmod (set_phase q)).
Proof. intros n. by split_and!. Qed.

#[local] Hint Resolve moves_set moves_set_ret moves_set_ret' : noise_db.

Lemma gbind_assoc_run {A B C} (c : NM A) (k : NM B) (f : NM C) n :
  gbind (gbind c (fun _ => k)) (fun _ => f) n = gbind c (fun _ => gbind k (fun _ => f)) n.
Proof. unfold gbind. by destruct (c n) as [[?|?] ?]. Qed.

Lemma run_op_guarded op :
  exists c, (forall n, run_op op n
                       = gbind (require (op_phases op).1.1 (op_phases op).1.2) (fun _ => c) n)
            /\ moves (op_phases op).2 c.
Proof.
  destruct op; cbn [run_op op_phases fst snd];
    (eexists; split; [intros n; first [reflexivity | apply gbind_assoc_run]|]);
    try apply moves_tail; repeat (apply moves_bind; [solve [auto 10 with noise_db]|intros ?]);
    auto with noise_db.
Qed.

(** The handshake is a phase machine that a failing operation
    cannot advance: an operation succeeds only in its own role and phase and
    then moves to its next phase; on any error the phase stays, and when the
    error is a wrong role or phase nothing at all changes.  The role and the
    static key never change. *)
Theorem handshake_phase_machine op n :
  let '(r, p, q) := op_phases op in
  match run_op op n with
  | (Ok _, n') => n_role n = r /\ n_phase n = p /\ n_phase n' = q /\ n_role n' = r
                  /\ n_sPriv n' = n_sPriv n /\ n_sPub n' = n_sPub n
  | (Err e, n') => n_phase n' = n_phase n /\ n_role n' = n_role n
                   /\ n_sPriv n' = n_sPriv n /\ n_sPub n' = n_sPub n
                   /\ (n_role n <> r \/ n_phase n <> p -> n' = n)
  end.
Proof.
  destruct (run_op_guarded op) as (c&Hrun&Hm). rewrite Hrun.
  destruct (op_phases op) as [[r p] q]. by apply require_bind.
Qed.
End phases.
