(* ===== verification/RelayChannel.v ===== *)
(** The secure relay channel (agent/internal/relaychannel/channel.go): a Noise
    responder over a WebSocket, lane endpoints on top of the scheduler, the
    read loop and the close notification.  The WebSocket is third-party code:
    the outcome of each of its calls is an argument of the operation, and
    what the code asks of it is appended to a log of effects. *)

From S2P Require Import Prelude Lanes Frame Scheduler Sha256 AesGcm Noise.
#[local] Open Scope Z_scope.
#[local] Open Scope go_scope.

(** Go function values are named by numbers. *)
Abbreviation callback := nat.

(** What the channel does to the outside, oldest first. *)
Inductive effect : Type :=
| FxWriteText (data : bytes)                     (* conn.Write, text *)
| FxWrite (data : bytes)                         (* conn.Write, binary *)
| FxCloseNow                                     (* conn.CloseNow() *)
| FxClose (reason : string)                      (* conn.Close(code, reason) *)
| FxCall (f : callback)                          (* f() *)
| FxDeliver (lane : Lane) (f : callback) (payload : bytes)
| FxReadLoop.                                    (* go c.readLoop(...) *)

Inductive relay_error : Type :=
| RErrConfig | RErrDial | RErrRead | RErrWrite
| RErrFrame (e : frame_error) | RErrTrailing | RErrKind (got want : byte)
| RErrNoise (e : noise_error) | RErrLane (e : lane_error)
| RErrNotOpen | RErrTooLarge (size : Z) | RErrClassLane (class : TrafficClass) (lane : Lane).

(** [agent/internal/relaychannel/channel.go:42-42] relayWebSocketReadLimit *)
Definition relayWebSocketReadLimit : Z := 10 * 1024 * 1024.
(** [agent/internal/relaychannel/channel.go:45-45] noiseAEADOverheadBytes *)
Definition noiseAEADOverheadBytes : Z := 16.
(** [agent/internal/relaychannel/channel.go:47-47] MaxRelayPayloadBytes *)
Definition MaxRelayPayloadBytes : Z := MaxFramePayload - 1 - noiseAEADOverheadBytes.

Section channel.
Context `{HE : ECDH}.

(** [agent/internal/relaychannel/channel.go:17-21] SecureRelayConfig *)
Record SecureRelayConfig := mkRelayConfig {
  RelayURL : string; RelayJWT : string; StaticPrivate : option priv }.

(** [endpoints] maps a lane to its endpoint's [onMessage]; [closed] is also
    whether [closeOnce] has fired, which is set in the same call.
    [agent/internal/relaychannel/channel.go:23-38] SecureRelayChannel *)
Record SecureRelayChannel := mkChannel {
  cfg : SecureRelayConfig;
  conn : bool;
  nx : option (NoiseXX HE);
  send : option CipherState;
  recv : option CipherState;
  scheduler : Scheduler;
  endpoints : gmap Lane (option callback);
  closed : bool;
  onOpen : option callback;
  onClose : option callback;
  closeListeners : list callback;
  fx : list effect }.

Abbreviation C := SecureRelayChannel.
Abbreviation CM := (GoM SecureRelayChannel relay_error).

Definition set_conn b (c : C) : C := mkChannel (cfg c) b (nx c) (send c) (recv c) (scheduler c)
  (endpoints c) (closed c) (onOpen c) (onClose c) (closeListeners c) (fx c).
Definition set_nx n (c : C) : C := mkChannel (cfg c) (conn c) n (send c) (recv c) (scheduler c)
  (endpoints c) (closed c) (onOpen c) (onClose c) (closeListeners c) (fx c).
Definition set_send s (c : C) : C := mkChannel (cfg c) (conn c) (nx c) s (recv c) (scheduler c)
  (endpoints c) (closed c) (onOpen c) (onClose c) (closeListeners c) (fx c).
Definition set_recv s (c : C) : C := mkChannel (cfg c) (conn c) (nx c) (send c) s (scheduler c)
  (endpoints c) (closed c) (onOpen c) (onClose c) (closeListeners c) (fx c).
Definition set_scheduler s (c : C) : C := mkChannel (cfg c) (conn c) (nx c) (send c) (recv c) s
  (endpoints c) (closed c) (onOpen c) (onClose c) (closeListeners c) (fx c).
Definition set_endpoints e (c : C) : C := mkChannel (cfg c) (conn c) (nx c) (send c) (recv c)
  (scheduler c) e (closed c) (onOpen c) (onClose c) (closeListeners c) (fx c).
Definition set_closing cl oc ls (c : C) : C := mkChannel (cfg c) (conn c) (nx c) (send c) (recv c)
  (scheduler c) (endpoints c) cl (onOpen c) oc ls (fx c).
Definition set_onOpen f (c : C) : C := mkChannel (cfg c) (conn c) (nx c) (send c) (recv c)
  (scheduler c) (endpoints c) (closed c) f (onClose c) (closeListeners c) (fx c).
Definition emit (e : list effect) (c : C) : C := mkChannel (cfg c) (conn c) (nx c) (send c)
  (recv c) (scheduler c) (endpoints c) (closed c) (onOpen c) (onClose c) (closeListeners c)
  (fx c ++ e).

(** [agent/internal/relaychannel/channel.go:50-60] NewSecureRelayChannel *)
Definition NewSecureRelayChannel (cf : SecureRelayConfig) : result C relay_error :=
  if bool_decide (RelayURL cf = ""%string) || bool_decide (RelayJWT cf = ""%string)
     || negb (bool_decide (is_Some (StaticPrivate cf)))
  then Err RErrConfig
  else Ok (mkChannel cf false None None None NewScheduler
             (<[LaneControl := None]> (<[LaneMedia := None]> (<[LaneBulk := None]> ∅)))
             false None None [] []).

(** ** Callbacks *)

(** [agent/internal/relaychannel/channel.go:350-354] relayEndpoint.SetOnMessage *)
Definition endpoint_SetOnMessage (lane : Lane) (f : option callback) (c : C) : C :=
  set_endpoints (<[lane := f]> (endpoints c)) c.

(** [agent/internal/relaychannel/channel.go:62-65] SetOnMessage *)
Definition SetOnMessage (f : option callback) (c : C) : C := endpoint_SetOnMessage LaneControl f c.

(** [agent/internal/relaychannel/channel.go:66-66] SetOnOpen *)
Definition SetOnOpen (f : option callback) (c : C) : C := set_onOpen f c.

(** [agent/internal/relaychannel/channel.go:67-71] SetOnClose *)
Definition SetOnClose (f : option callback) (c : C) : C :=
  set_closing (closed c) f (closeListeners c) c.

(** [agent/internal/relaychannel/channel.go:72-84] AddOnClose *)
Definition AddOnClose (f : option callback) (c : C) : C :=
  match f with
  | None => c
  | Some f =>
      if closed c then emit [FxCall f] c
      else set_closing (closed c) (onClose c) (closeListeners c ++ [f]) c
  end.

(** [None] is a lane that is not in the map.
    [agent/internal/relaychannel/channel.go:86-92] Endpoint *)
Definition Endpoint (lane : Lane) (c : C) : option (option callback) := endpoints c !! lane.

(** [agent/internal/relaychannel/channel.go:299-313] notifyClose *)
Definition notifyClose (c : C) : C :=
  if closed c then c
  else
    let callbacks := (if onClose c is Some f then [f] else []) ++ closeListeners c in
    emit (FxCall <$> callbacks) (set_closing true (onClose c) (closeListeners c) c).

(** [agent/internal/relaychannel/channel.go:292-297] abortTransport *)
Definition abortTransport (c : C) : C :=
  notifyClose (if conn c then emit [FxCloseNow] c else c).

(** [agent/internal/relaychannel/channel.go:249-258] Close *)
Definition Channel_Close (c : C) : C :=
  let c := set_scheduler (Close (scheduler c)) c in
  if negb (conn c) then notifyClose c
  else notifyClose (emit [FxClose "relay closed"] c).

(** ** Writing *)

Definition lift_lane {A} (r : result A lane_error) : CM A := glift (rmap_err RErrLane r).
Definition lift_frame {A} (r : result A frame_error) : CM A := glift (rmap_err RErrFrame r).

(** A Noise operation on the cipher state in a field; a nil pointer there
    would panic, which the callers exclude. *)
Definition on_cipher {A} (get : C -> option CipherState) (put : option CipherState -> C -> C)
    (op : GoM CipherState noise_error A) : CM A := fun c =>
  match get c with
  | None => (Err RErrNotOpen, c)
  | Some cs => let '(r, cs) := op cs in (rmap_err RErrNoise r, put (Some cs) c)
  end.

(** [c.abortTransport(); return err] around a step that failed. *)
Definition or_abort {A} (m : CM A) : CM A := fun c =>
  match m c with
  | (Ok a, c) => (Ok a, c)
  | (Err e, c) => (Err e, abortTransport c)
  end.

(** [write_ok] is the outcome of [c.conn.Write].
    [agent/internal/relaychannel/channel.go:260-290] writeScheduled *)
Definition writeScheduled (write_ok : bool) (class : TrafficClass) (kind : Kind)
    (payload : bytes) : CM unit :=
  let! lane := lift_lane (LaneForClass class) in
  let! plaintext := lift_lane (EncodeEnvelope lane payload) in
  let! c := gget in
  do! gguard (negb (bool_decide (is_Some (send c))) || negb (conn c)) RErrNotOpen in
  let! ciphertext := or_abort (on_cipher send set_send (Encrypt [] plaintext)) in
  let! frame := or_abort (lift_frame (WriteFrame kind ciphertext)) in
  or_abort (do! gmod (emit [FxWrite frame]) in
            if write_ok then gret tt else gfail RErrWrite).

(** [agent/internal/relaychannel/channel.go:365-374] classForLane *)
Definition classForLane (lane : Lane) : TrafficClass :=
  if decide (lane = LaneMedia) then ClassInteractiveMedia
  else if decide (lane = LaneBulk) then ClassBulk
  else ClassControl.

(** What an endpoint hands to [scheduler.Send].
    [agent/internal/relaychannel/channel.go:341-346] relayEndpoint.send *)
Definition endpoint_send (class : TrafficClass) (kind : Kind) (payload : bytes)
    : result (TrafficClass * Kind * bytes) relay_error :=
  if MaxRelayPayloadBytes <? len payload then Err (RErrTooLarge (len payload))
  else Ok (class, kind, payload).

(** [agent/internal/relaychannel/channel.go:322-324] relayEndpoint.SendText *)
Definition endpoint_SendText (lane : Lane) (text : bytes) :=
  endpoint_send (classForLane lane) KindText text.

(** [agent/internal/relaychannel/channel.go:326-328] relayEndpoint.SendBinary *)
Definition endpoint_SendBinary (lane : Lane) (data : bytes) :=
  endpoint_send (classForLane lane) KindBinary data.

(** [agent/internal/relaychannel/channel.go:330-339] relayEndpoint.SendBinaryClass *)
Definition endpoint_SendBinaryClass (elane : Lane) (class : TrafficClass) (data : bytes) :=
  let? lane := rmap_err RErrLane (LaneForClass class) in
  if decide (lane = elane) then endpoint_send class KindBinary data
  else Err (RErrClassLane class elane).

(** [agent/internal/relaychannel/channel.go:239-241] SendText *)
Definition Channel_SendText (text : bytes) := endpoint_SendText LaneControl text.
(** [agent/internal/relaychannel/channel.go:243-245] SendBinary *)
Definition Channel_SendBinary (data : bytes) := endpoint_SendBinary LaneControl data.

(** ** Reading *)

(** [agent/internal/relaychannel/channel.go:356-363] relayEndpoint.deliver *)
Definition deliver (lane : Lane) (payload : bytes) (c : C) : C :=
  match endpoints c !! lane with
  | Some (Some f) => emit [FxDeliver lane f payload] c
  | _ => c
  end.

(** [agent/internal/relaychannel/channel.go:376-388] decodeFramePayload *)
Definition decodeFramePayload (raw : bytes) (wantKind : byte) : result bytes relay_error :=
  let? (frame, rest) := rmap_err RErrFrame (DecodeOneFrame raw) in
  if negb (len rest =? 0) then Err RErrTrailing
  else if decide (FrameKind frame = wantKind) then Ok (FramePayload frame)
  else Err (RErrKind (FrameKind frame) wantKind).

(** One turn of the read loop's body after a successful [conn.Read]; an error
    is the reason the loop returns with, after closing the connection.
    [agent/internal/relaychannel/channel.go:200-233] readLoop.for *)
Definition read_one (data : bytes) : CM unit :=
  let close (reason : string) (e : relay_error) : CM unit :=
    do! gmod (emit [FxClose reason]) in gfail e in
  match DecodeOneFrame data with
  | Err e => close "invalid relay frame"%string (RErrFrame e)
  | Ok (frame, rest) =>
      if negb (len rest =? 0)
      then close "multiple relay frames in websocket message"%string RErrTrailing
      else if negb (bool_decide (FrameKind frame = FrameText))
              && negb (bool_decide (FrameKind frame = FrameBinary))
      then close "unexpected relay frame kind"%string (RErrKind (FrameKind frame) FrameText)
      else fun c =>
        match on_cipher recv set_recv (Decrypt [] (FramePayload frame)) c with
        | (Err e, c) => close "relay decrypt failed"%string e c
        | (Ok plain, c) =>
            match DecodeEnvelope plain with
            | Err e => close "invalid encrypted lane"%string (RErrLane e) c
            | Ok (lane, payload) =>
                match endpoints c !! lane with
                | None => close "unknown encrypted lane"%string (RErrLane (ErrInvalidLane lane)) c
                | Some _ => (Ok tt, deliver lane payload c)
                end
            end
        end
  end.

(** The read loop on the messages the connection gives ([None]: the read
    fails, which also happens after the last message).
    [agent/internal/relaychannel/channel.go:188-235] readLoop *)
Fixpoint read_messages (msgs : list (option bytes)) (c : C) : C :=
  match msgs with
  | [] | None :: _ => c
  | Some data :: msgs =>
      match read_one data c with
      | (Ok _, c) => read_messages msgs c
      | (Err _, c) => c
      end
  end.

Definition readLoop (msgs : list (option bytes)) (c : C) : C :=
  let c := read_messages msgs c in
  notifyClose (set_scheduler (Close (scheduler c)) c).

(** ** Opening *)

(** The outcomes of the calls [Start] makes, in order; [io_gen] is the key
    pair of [WriteMessage2]. *)
Record start_io := mkIO {
  io_dial : bool; io_hello : bool; io_msg1 : option bytes; io_gen : option priv;
  io_msg2 : bool; io_msg3 : option bytes }.

(** A handshake operation on [c.noise]. *)
Definition on_noise {A} (op : GoM (NoiseXX HE) noise_error A) : CM A := fun c =>
  match nx c with
  | None => (Err (RErrNoise PanicNil), c)
  | Some n => let '(r, n) := op n in (rmap_err RErrNoise r, set_nx (Some n) c)
  end.

Definition read_frame (r : option bytes) : CM bytes :=
  match r with
  | None => gfail RErrRead
  | Some raw => glift (decodeFramePayload raw FrameHandshake)
  end.

(** [agent/internal/relaychannel/channel.go:144-186] runHandshake *)
Definition runHandshake (io : start_io) : CM unit :=
  let! msg1 := read_frame (io_msg1 io) in
  do! on_noise (ReadMessage1 msg1) in
  let! msg2 := on_noise (WriteMessage2 (io_gen io)) in
  let! msg2Frame := lift_frame (WriteFrame FrameHandshake msg2) in
  do! gmod (emit [FxWrite msg2Frame]) in
  do! gguard (negb (io_msg2 io)) RErrWrite in
  let! msg3 := read_frame (io_msg3 io) in
  do! on_noise (ReadMessage3 msg3) in
  let! cs := on_noise (fun n => (Split n, n)) in
  gmod (fun c => set_recv (Some (snd cs)) (set_send (Some (fst cs)) c)).

(** The body of [Start] before its deferred cleanup; [hello] is the marshalled
    token message.
    [agent/internal/relaychannel/channel.go:106-141] Start *)
Definition start_body (hello : bytes) (io : start_io) : CM unit :=
  do! gguard (negb (io_dial io)) RErrDial in
  do! gmod (set_conn true) in
  do! gmod (emit [FxWriteText hello]) in
  do! (if io_hello io then gret tt else do! gmod (emit [FxCloseNow]) in gfail RErrWrite) in
  let! c := gget in
  let! n := match StaticPrivate (cfg c) with
            | Some s => glift (rmap_err RErrNoise (NewResponder s))
            | None => gfail (RErrNoise PanicNil)
            end in
  do! gmod (set_nx (Some n)) in
  do! (fun c => match runHandshake io c with
                | (Ok _, c) => (Ok tt, c)
                | (Err e, c) => (Err e, emit [FxCloseNow] c)
                end) in
  do! gmod (emit [FxReadLoop]) in
  gmod (fun c => if onOpen c is Some f then emit [FxCall f] c else c).

(** [agent/internal/relaychannel/channel.go:94-142] Start *)
Definition Start (hello : bytes) (io : start_io) : CM unit := fun c =>
  match start_body hello io c with
  | (Ok _, c) => (Ok tt, c)
  | (Err e, c) =>
      let c := set_scheduler (Close (scheduler c)) c in
      let c := if conn c then emit [FxCloseNow] c else c in
      (Err e, notifyClose c)
  end.
End channel.

Arguments SecureRelayChannel _ : clear implicits.
Arguments MaxRelayPayloadBytes : simpl never.
Arguments MaxFramePayload : simpl never.

(** * End-to-end delivery *)

Section delivery.
Context `{HE : ECDH}.
Abbreviation C := (SecureRelayChannel HE).

Definition kind_ok (kind : Kind) : Prop := kind = KindText \/ kind = KindBinary.

(** A request the scheduler hands to [writeScheduled]: admitted by an endpoint. *)
Definition sendable (rq : TrafficClass * Kind * bytes) : Prop :=
  let '(class, kind, payload) := rq in
  is_ok (LaneForClass class) = true /\ kind_ok kind /\ len payload <= MaxRelayPayloadBytes.

Lemma capForKind_data kind : kind_ok kind -> capForKind kind = Ok MaxFramePayload.
Proof. by intros [-> | ->]. Qed.

(** The cap of the endpoint is the largest payload whose frame is legal. *)
Lemma frame_fits kind key nonce lane payload :
  kind_ok kind -> len payload <= MaxRelayPayloadBytes ->
  let ct := gcm_seal key nonce (lane :: payload) [] in
  WriteFrame kind ct = Ok (kind :: be_put 4 (len ct) ++ ct) /\ len ct = len payload + 17.
Proof.
  intros Hk Hl ct.
  assert (len ct = len payload + 17) as Hlen.
  { unfold ct, len. rewrite length_gcm_seal. cbn [length]. lia. }
  split; [|done]. apply WriteFrame_ok. exists MaxFramePayload.
  split; [by apply capForKind_data|]. split; [|done].
  unfold MaxRelayPayloadBytes, noiseAEADOverheadBytes in Hl. lia.
Qed.

Lemma writeScheduled_run (c : C) cs class kind payload lane :
  conn c = true -> send c = Some cs -> cipher_ready cs -> LaneForClass class = Ok lane ->
  kind_ok kind -> len payload <= MaxRelayPayloadBytes ->
  exists f, WriteFrame kind (gcm_seal (cs_key cs) (nonceBytes (cs_n cs)) (lane :: payload) []) = Ok f
    /\ len f <= relayWebSocketReadLimit
    /\ writeScheduled true class kind payload c
       = (Ok tt, emit [FxWrite f] (set_send (Some (next_cipher cs)) c)).
Proof.
  intros Hc Hs Hr Hl Hk Hp.
  destruct (frame_fits kind (cs_key cs) (nonceBytes (cs_n cs)) lane payload Hk Hp) as [Hw Hlen].
  eexists. split; [exact Hw|]. split.
  { rewrite len_cons, len_app, len_be_put, Hlen. unfold relayWebSocketReadLimit,
      MaxRelayPayloadBytes, MaxFramePayload, noiseAEADOverheadBytes in *. lia. }
  assert (Lane_Valid lane = true) as Hv by (by eapply LaneForClass_valid).
  unfold writeScheduled, lift_lane, EncodeEnvelope. rewrite Hl. go_run. cbn [rmap_err].
  rewrite Hv. cbn [negb rmap_err]. rewrite Hs, Hc. rewrite bool_decide_eq_true_2 by eauto. cbn [negb orb].
  unfold or_abort, on_cipher, lift_frame. rewrite Hs. unfold Encrypt.
  rewrite encryptWithAd_run by done. cbn [rmap_err]. go_run. rewrite Hw. reflexivity.
Qed.

Lemma read_one_run (d : C) cs kind lane payload f h :
  recv d = Some cs -> cipher_ready cs -> Lane_Valid lane = true -> kind_ok kind ->
  endpoints d !! lane = Some h ->
  WriteFrame kind (gcm_seal (cs_key cs) (nonceBytes (cs_n cs)) (lane :: payload) []) = Ok f ->
  read_one f d = (Ok tt, deliver lane payload (set_recv (Some (next_cipher cs)) d)).
Proof.
  intros Hr Hcs Hv Hk He Hw. pose proof (decode_write _ _ _ [] Hw) as Hd. rewrite app_nil_r in Hd.
  unfold read_one. rewrite Hd. cbn [FrameKind FramePayload].
  rewrite (@len_nil byte). cbn [Z.eqb negb].
  assert (negb (bool_decide (kind = FrameText)) && negb (bool_decide (kind = FrameBinary)) = false)
    as -> by (destruct Hk as [-> | ->]; done).
  unfold on_cipher. rewrite Hr. unfold Decrypt. rewrite decryptWithAd_run, gcm_open_seal by done.
  cbn [rmap_err]. unfold DecodeEnvelope. rewrite Hv. cbn [negb endpoints set_recv]. by rewrite He.
Qed.

(** The scheduler's writer called on each request in turn. *)
Fixpoint write_all (rqs : list (TrafficClass * Kind * bytes)) (c : C) : result unit relay_error * C :=
  match rqs with
  | [] => (Ok tt, c)
  | (class, kind, payload) :: rqs =>
      match writeScheduled true class kind payload c with
      | (Ok _, c) => write_all rqs c
      | (Err e, c) => (Err e, c)
      end
  end.

(** What the endpoints of [d] are given for the requests. *)
Definition deliveries (d : C) (rqs : list (TrafficClass * Kind * bytes)) : list effect :=
  '(class, kind, payload) ← rqs;
  match LaneForClass class with
  | Ok lane => match endpoints d !! lane with
               | Some (Some f) => [FxDeliver lane f payload]
               | _ => []
               end
  | Err _ => []
  end.

Definition all_endpoints (d : C) : Prop :=
  forall lane, Lane_Valid lane = true -> is_Some (endpoints d !! lane).

Lemma deliver_fx lane payload (d : C) cs class kind rqs :
  LaneForClass class = Ok lane ->
  let d' := deliver lane payload (set_recv cs d) in
  fx d' ++ deliveries d' rqs = fx d ++ deliveries d ((class, kind, payload) :: rqs)
  /\ endpoints d' = endpoints d /\ recv d' = cs.
Proof.
  intros Hl. unfold deliver. cbn [endpoints set_recv].
  unfold deliveries. cbn [mbind list_bind]. rewrite Hl.
  destruct (endpoints d !! lane) as [[h|]|]; cbn; [by rewrite <- app_assoc|done..].
Qed.

Lemma relay_stream rqs : forall (c d : C) key n,
  conn c = true -> send c = Some (mkCipher key n) -> recv d = Some (mkCipher key n) ->
  isZeroKey key = false -> length key = 32%nat -> 0 <= n -> n + len rqs <= u64_max ->
  Forall sendable rqs -> all_endpoints d ->
  exists frames c', write_all rqs c = (Ok tt, c') /\ fx c' = fx c ++ (FxWrite <$> frames)
    /\ Forall (fun f => len f <= relayWebSocketReadLimit) frames
    /\ fx (read_messages (Some <$> frames) d) = fx d ++ deliveries d rqs.
Proof.
  induction rqs as [|[[class kind] payload] rqs IH];
    intros c d key n Hc Hs Hr Hz Hl Hn Hmax Hall He.
  { exists [], c. cbn. rewrite !app_nil_r. by split_and!; [| |constructor|]. }
  apply Forall_cons_1 in Hall as [(Hcl&Hk&Hp) Hall]. rewrite len_cons in Hmax.
  destruct (LaneForClass class) as [lane|] eqn:Hlane; [|done]. pose proof (len_nonneg rqs).
  assert (cipher_ready (mkCipher key n)) as Hrd by (split_and!; simpl; lia || done).
  destruct (writeScheduled_run c _ class kind payload lane Hc Hs Hrd Hlane Hk Hp) as (f&Hw&Hf&Hrun).
  destruct (He lane) as [h Hh]; [by eapply LaneForClass_valid|].
  pose proof (read_one_run d _ kind lane payload f h Hr Hrd (LaneForClass_valid _ _ Hlane) Hk Hh Hw) as Hread.
  unfold next_cipher in Hread, Hrun. cbn [cs_key cs_n] in Hread, Hrun.
  destruct (deliver_fx lane payload d (Some (mkCipher key (n + 1))) class kind rqs Hlane) as (Hfx&Hen&Hrc).
  destruct (IH (emit [FxWrite f] (set_send (Some (mkCipher key (n + 1))) c))
              (deliver lane payload (set_recv (Some (mkCipher key (n + 1))) d)) key (n + 1))
    as (frames&c'&Hwa&Hfc&Hlen&Hrd'); try done; try lia.
  { intros l Hv. rewrite Hen. by apply He. }
  exists (f :: frames), c'. split; [cbn [write_all]; by rewrite Hrun|].
  split; [rewrite Hfc; cbn; by rewrite <- app_assoc|]. split; [by constructor|].
  rewrite fmap_cons. cbn [read_messages]. by rewrite Hread, Hrd', Hfx.
Qed.

(** C27 (roundtrip). End-to-end delivery over the encrypted relay: requests
    that passed an endpoint's size check are all framed, encrypted and
    written, each frame below the peer's WebSocket read limit, and the peer's
    read loop hands exactly their payloads, in order and on their lanes, to
    its endpoints. *)
Theorem relay_delivery rqs (c d : C) key n :
  conn c = true -> send c = Some (mkCipher key n) -> recv d = Some (mkCipher key n) ->
  isZeroKey key = false -> length key = 32%nat -> 0 <= n -> n + len rqs <= u64_max ->
  Forall sendable rqs -> all_endpoints d ->
  exists frames c', write_all rqs c = (Ok tt, c') /\ fx c' = fx c ++ (FxWrite <$> frames)
    /\ Forall (fun f => len f <= relayWebSocketReadLimit) frames
    /\ fx (read_messages (Some <$> frames) d) = fx d ++ deliveries d rqs.
Proof. apply relay_stream. Qed.
End delivery.

(** ** A concrete channel *)

Definition demo_key : bytes := replicate 32 x07.
Definition demo_channel : SecureRelayChannel toy_ecdh :=
  mkChannel (mkRelayConfig "wss://relay" "jwt" (Some x05)) true None
    (Some (mkCipher demo_key 0)) (Some (mkCipher demo_key 0)) NewScheduler
    (<[LaneControl := Some 1%nat]> (<[LaneMedia := Some 2%nat]> (<[LaneBulk := Some 3%nat]> ∅)))
    false None None [] [].

Lemma demo_all_endpoints : all_endpoints demo_channel.
Proof. intros lane [-> |[-> | ->]]%Lane_Valid_spec; vm_compute; eauto. Qed.

Definition demo_requests : list (TrafficClass * Kind * bytes) :=
  [(ClassThumbnail, KindBinary, [x61]); (ClassControl, KindText, [x62; x63])].

Lemma demo_sendable : Forall sendable demo_requests.
Proof.
  apply Forall_cons. split; [|apply Forall_cons; split; [|constructor]];
    (split; [reflexivity|split; [|vm_compute; discriminate]]); [by right|by left].
Qed.

Lemma relay_delivery_witness :
  exists frames c',
    write_all demo_requests demo_channel = (Ok tt, c')
    /\ fx c' = fx demo_channel ++ (FxWrite <$> frames)
    /\ Forall (fun f => len f <= relayWebSocketReadLimit) frames
    /\ fx (read_messages (Some <$> frames) demo_channel)
       = fx demo_channel ++ deliveries demo_channel demo_requests.
Proof.
  apply (relay_delivery demo_requests demo_channel demo_channel demo_key 0);
    [reflexivity|reflexivity|reflexivity|vm_compute; reflexivity|reflexivity|lia
    |vm_compute; discriminate|exact demo_sendable|exact demo_all_endpoints].
Defined.

(** What they are: the thumbnail on the media lane, the text on the control lane. *)
Example demo_deliveries :
  deliveries demo_channel demo_requests
  = [FxDeliver LaneMedia 2 [x61]; FxDeliver LaneControl 1 [x62; x63]].
Proof. vm_compute. reflexivity. Qed.

(** * What the read loop accepts *)

Section reading.
Context `{HE : ECDH}.
Abbreviation C := (SecureRelayChannel HE).

(** A rejected message closes the connection and delivers nothing. *)
Definition rejected (c c' : C) : Prop :=
  exists reason, fx c' = fx c ++ [FxClose reason] /\ closed c' = closed c
                 /\ endpoints c' = endpoints c.

Definition accepted_as (c : C) (cs : CipherState) (data : bytes) (c' : C) : Prop :=
  cipher_ready cs /\ exists kind lane payload, kind_ok kind /\ Lane_Valid lane = true
    /\ WriteFrame kind (gcm_seal (cs_key cs) (nonceBytes (cs_n cs)) (lane :: payload) []) = Ok data
    /\ c' = deliver lane payload (set_recv (Some (next_cipher cs)) c).

Lemma read_one_inv (c : C) cs data : recv c = Some cs -> 0 <= cs_n cs <= u64_max -> all_endpoints c ->
  match read_one data c with (Ok _, c') => accepted_as c cs data c' | (Err _, c') => rejected c c' end.
Proof.
  intros Hr Hn He. unfold read_one.
  destruct (DecodeOneFrame data) as [[frame rest]|e] eqn:Hd; [|by eexists].
  destruct (Z.eqb_spec (len rest) 0) as [Hz|]; cbn [negb]; [|by eexists].
  apply len_zero_nil in Hz. subst rest. apply decode_is_write in Hd as (f&Hw&->).
  rewrite app_nil_r. destruct (negb _ && negb _) eqn:Hk; [by eexists|].
  assert (kind_ok (FrameKind frame)) as Hkind.
  { apply andb_false_iff in Hk as [Hk|Hk]; apply negb_false_iff, bool_decide_eq_true in Hk;
      rewrite Hk; [by left|by right]. }
  unfold on_cipher. rewrite Hr. pose proof (decrypt_cases cs [] (FramePayload frame) Hn) as Hcs. unfold Decrypt.
  destruct (cipher_cases cs [] (FramePayload frame) Hn) as [Hrd|[[e ->] _]]; [|by eexists].
  destruct (decryptWithAd [] (FramePayload frame) cs) as [[plain|e] cs']; cbn [rmap_err]; [|by eexists].
  destruct Hcs as [Hct ->]. destruct (DecodeEnvelope plain) as [[lane payload]|e] eqn:Hde; [|by eexists].
  apply DecodeEnvelope_ok in Hde as [Hv ->]. cbn [endpoints set_recv].
  destruct (He lane Hv) as [h ->]. split; [done|]. exists (FrameKind frame), lane, payload.
  rewrite <- Hct. done.
Qed.

(** C28 (safety). The read loop delivers what the peer sealed and nothing else:
    a message is accepted exactly when it is one data frame around the seal, under
    the receive key and its current counter, of a valid lane byte and a payload,
    and then this payload goes to this lane's endpoint and the counter advances;
    anything else (malformed, truncated, trailing, of another kind, replayed,
    reordered or tampered with) closes the connection and delivers nothing. *)
Theorem relay_read_authentic (c : C) cs data :
  recv c = Some cs -> 0 <= cs_n cs <= u64_max -> all_endpoints c ->
  (forall c', read_one data c = (Ok tt, c') <-> accepted_as c cs data c')
  /\ forall e c', read_one data c = (Err e, c') -> rejected c c'.
Proof.
  intros Hr Hn He. pose proof (read_one_inv c cs data Hr Hn He) as Hi. split.
  - intros c'. split.
    + intros Heq. by rewrite Heq in Hi.
    + intros (Hrd&kind&lane&payload&Hk&Hv&Hw&->). destruct (He lane Hv) as [h Hh]. by eapply read_one_run.
  - intros e c' Heq. by rewrite Heq in Hi.
Qed.
End reading.

(** The frame that seals [payload] for the control lane as message [n]. *)
Definition demo_frame (n : Z) (payload : bytes) : bytes :=
  match WriteFrame FrameBinary (gcm_seal demo_key (nonceBytes n) (LaneControl :: payload) []) with Ok f => f | Err _ => [] end.

(** The next message is delivered; the one after it, out of turn, is not. *)
Lemma relay_read_authentic_witness :
  read_one (demo_frame 0 [x61]) demo_channel
    = (Ok tt, deliver LaneControl [x61] (set_recv (Some (mkCipher demo_key 1)) demo_channel))
  /\ forall c', snd (read_one (demo_frame 1 [x61]) demo_channel) = c' -> rejected demo_channel c'.
Proof.
  assert (0 <= cs_n (mkCipher demo_key 0) <= u64_max) as Hn by (simpl; unfold u64_max; lia). split.
  - apply (relay_read_authentic demo_channel (mkCipher demo_key 0) _ eq_refl Hn demo_all_endpoints).
    split; [split_and!; [vm_compute; reflexivity|reflexivity|simpl; lia|simpl; unfold u64_max; lia]|].
    exists FrameBinary, LaneControl, [x61]. split; [by right|]. split; [reflexivity|]. split; [vm_compute; reflexivity|reflexivity].
  - intros c' <-. assert (is_ok (fst (read_one (demo_frame 1 [x61]) demo_channel)) = false) as Hbad by (vm_compute; reflexivity).
    destruct (relay_read_authentic demo_channel (mkCipher demo_key 0) (demo_frame 1 [x61]) eq_refl Hn demo_all_endpoints) as [_ Hrej].
    destruct (read_one (demo_frame 1 [x61]) demo_channel) as [[?|e] c'] eqn:Heq; [discriminate Hbad|]. exact (Hrej e c' eq_refl).
Defined.

(** * Close notification *)

Section closing.
Context `{HE : ECDH}.
Abbreviation C := (SecureRelayChannel HE).

(** What can touch the close state: registering a listener, a failed write,
    the end of the read loop, and [Close]. *)
Inductive close_op : Type :=
| OpAddOnClose (f : callback) | OpSetOnClose (f : option callback)
| OpAbort | OpReadLoop (msgs : list (option bytes)) | OpClose.

Definition run_close (op : close_op) (c : C) : C :=
  match op with
  | OpAddOnClose f => AddOnClose (Some f) c
  | OpSetOnClose f => SetOnClose f c
  | OpAbort => abortTransport c
  | OpReadLoop msgs => readLoop msgs c
  | OpClose => Channel_Close c
  end.

Definition closing (op : close_op) : bool :=
  match op with OpAbort | OpReadLoop _ | OpClose => true | _ => false end.

(** Times [f] was called, and times it was registered. *)
Definition is_call (f : callback) (e : effect) : bool :=
  match e with FxCall g => (g =? f)%nat | _ => false end.
Definition calls_of (f : callback) (l : list effect) : nat :=
  foldr (fun e n => if is_call f e then S n else n) 0%nat l.
Definition registers (f : callback) (op : close_op) : bool :=
  match op with OpAddOnClose g => (g =? f)%nat | _ => false end.
Definition adds_of (f : callback) (ops : list close_op) : nat :=
  foldr (fun o n => if registers f o then S n else n) 0%nat ops.

Lemma calls_app f l1 l2 : calls_of f (l1 ++ l2) = (calls_of f l1 + calls_of f l2)%nat.
Proof. induction l1 as [|e l1 IH]; simpl; [done|]. destruct (is_call f e); lia. Qed.

Definition listed (f : callback) (ls : list callback) : nat := calls_of f (FxCall <$> ls).

Lemma listed_app f l1 l2 : listed f (l1 ++ l2) = (listed f l1 + listed f l2)%nat.
Proof. unfold listed. by rewrite fmap_app, calls_app. Qed.

(** [f] is not the [onClose] handler, and has been called [n] times once closed. *)
Definition accounted (f : callback) (n : nat) (c : C) : Prop :=
  onClose c <> Some f /\
  if closed c then calls_of f (fx c) = n
  else calls_of f (fx c) = 0%nat /\ listed f (closeListeners c) = n.

(** Effects that are not callbacks leave the account as it is. *)
Lemma accounted_emit f n c l : calls_of f l = 0%nat -> accounted f n c -> accounted f n (emit l c).
Proof.
  intros Hl [Ho Hc]. split; [done|]. cbn [closed emit fx closeListeners] in *. rewrite calls_app, Hl.
  destruct (closed c); simpl in *; lia.
Qed.

Lemma notify_accounted f n c : accounted f n c -> accounted f n (notifyClose c).
Proof.
  intros [Ho Hc]. unfold notifyClose. destruct (closed c) eqn:Hcl; [by split; rewrite ?Hcl|].
  destruct Hc as [H0 Hl]. split; [done|]. cbn [closed emit set_closing fx].
  rewrite calls_app, H0. fold (listed f ((if onClose c is Some g then [g] else []) ++ closeListeners c)).
  rewrite listed_app, Hl. destruct (onClose c) as [g|] eqn:Hon; [|done].
  unfold listed. simpl. destruct (Nat.eqb_spec g f) as [->|]; done.
Qed.

Lemma notify_closed (c : C) : closed (notifyClose c) = true.
Proof. unfold notifyClose. by destruct (closed c) eqn:Hc. Qed.

(** The read loop emits no callback before its end and keeps the close state. *)
Definition quiet (f : callback) (c c' : C) : Prop :=
  exists l, fx c' = fx c ++ l /\ calls_of f l = 0%nat /\ closed c' = closed c
            /\ onClose c' = onClose c /\ closeListeners c' = closeListeners c.

Lemma quiet_refl f c : quiet f c c.
Proof. exists []. by rewrite app_nil_r. Qed.

Lemma quiet_trans f c1 c2 c3 : quiet f c1 c2 -> quiet f c2 c3 -> quiet f c1 c3.
Proof.
  intros (l1&E1&N1&?&?&?) (l2&E2&N2&?&?&?). exists (l1 ++ l2).
  split; [by rewrite E2, E1, <- app_assoc|]. split; [by rewrite calls_app, N1, N2|].
  split_and!; congruence.
Qed.

Lemma quiet_emit f e c : is_call f e = false -> quiet f c (emit [e] c).
Proof. intros He. exists [e]. simpl. by rewrite He. Qed.

Lemma quiet_accounted f n c c' : quiet f c c' -> accounted f n c -> accounted f n c'.
Proof.
  intros (l&E&N&Hc&Ho&Hl) [Hno Hacc]. split; [by rewrite Ho|]. rewrite Hc, E, calls_app, N, Hl.
  destruct (closed c); lia.
Qed.

Lemma read_one_quiet f data c : quiet f c (snd (read_one data c)).
Proof.
  unfold read_one. destruct (DecodeOneFrame data) as [[frame rest]|e]; [|by apply quiet_emit].
  destruct (negb (len rest =? 0)); [by apply quiet_emit|].
  destruct (negb _ && negb _); [by apply quiet_emit|]. unfold on_cipher.
  destruct (recv c) as [cs|]; [|by apply quiet_emit].
  destruct (Decrypt [] (FramePayload frame) cs) as [r cs'].
  assert (quiet f c (set_recv (Some cs') c)) as Hq by (exists []; by rewrite app_nil_r).
  destruct r as [plain|e]; cbn [rmap_err];
    [|eapply quiet_trans; [exact Hq|by apply quiet_emit]].
  destruct (DecodeEnvelope plain) as [[lane payload]|e];
    [|eapply quiet_trans; [exact Hq|by apply quiet_emit]].
  cbn [endpoints set_recv]. unfold deliver. cbn [endpoints set_recv].
  destruct (endpoints c !! lane) as [[h|]|]; eapply quiet_trans; try exact Hq;
    by apply quiet_emit || apply quiet_refl.
Qed.

Lemma read_messages_quiet f msgs c : quiet f c (read_messages msgs c).
Proof.
  revert c. induction msgs as [|[data|] msgs IH]; intros c; [apply quiet_refl| |apply quiet_refl].
  simpl. pose proof (read_one_quiet f data c) as Hq. destruct (read_one data c) as [[?|?] c']; [|done].
  eapply quiet_trans; [exact Hq|apply IH].
Qed.

Lemma run_close_accounted f n op c :
  op <> OpSetOnClose (Some f) -> accounted f n c ->
  accounted f (n + (if registers f op then 1 else 0))%nat (run_close op c)
  /\ closed (run_close op c) = closed c || closing op.
Proof.
  intros Hop Ha. destruct op as [g|g| |msgs|]; cbn [run_close registers closing].
  - unfold AddOnClose. rewrite orb_false_r. destruct (closed c) eqn:Hc; destruct Ha as [Ho Hacc];
      rewrite Hc in Hacc; (split; [split; [done|]|done]).
    + cbn [closed emit fx]. rewrite ?Hc, calls_app. simpl. destruct (g =? f)%nat; lia.
    + cbn [closed set_closing fx closeListeners]. rewrite ?Hc. destruct Hacc as [? Hl]. split; [done|].
      rewrite listed_app, Hl. unfold listed. simpl. destruct (g =? f)%nat; lia.
  - rewrite orb_false_r, Nat.add_0_r. split; [|done]. destruct Ha as [Ho Hacc].
    split; [cbn; congruence|exact Hacc].
  - rewrite orb_true_r, Nat.add_0_r. split; [|apply notify_closed]. unfold abortTransport.
    apply notify_accounted. destruct (conn c); [by apply accounted_emit|done].
  - rewrite orb_true_r, Nat.add_0_r. split; [|apply notify_closed]. unfold readLoop.
    apply notify_accounted. exact (quiet_accounted f n c _ (read_messages_quiet f msgs c) Ha).
  - rewrite orb_true_r, Nat.add_0_r. unfold Channel_Close. destruct (negb (conn _));
      (split; [|apply notify_closed]); apply notify_accounted; [exact Ha|].
    apply accounted_emit; [done|exact Ha].
Qed.

Lemma run_closes_accounted f ops : forall n c,
  Forall (fun op => op <> OpSetOnClose (Some f)) ops -> accounted f n c ->
  let c' := foldl (fun c op => run_close op c) c ops in
  accounted f (n + adds_of f ops)%nat c' /\ closed c' = closed c || existsb closing ops.
Proof.
  induction ops as [|op ops IH]; intros n c Hf Ha; simpl.
  - by rewrite Nat.add_0_r, orb_false_r.
  - apply Forall_cons_1 in Hf as [Hop Hf].
    destruct (run_close_accounted f n op c Hop Ha) as [Ha' Hc].
    destruct (IH _ (run_close op c) Hf Ha') as [Ha2 Hc2]. rewrite Hc2, Hc. split; [|by rewrite orb_assoc].
    replace (n + _)%nat with (n + (if registers f op then 1 else 0) + adds_of f ops)%nat; [done|].
    destruct (registers f op); lia.
Qed.

(** Every close listener is called exactly once: after any
    sequence of registrations, failed writes, ended read loops and closes (in
    any order and any number of times), a listener has been called as often as
    it was registered if the channel has closed, including those registered
    after the close, and not at all otherwise. *)
Theorem close_listeners_once f ops cf c :
  NewSecureRelayChannel cf = Ok c -> Forall (fun op => op <> OpSetOnClose (Some f)) ops ->
  let c' := foldl (fun c op => run_close op c) c ops in
  closed c' = existsb closing ops
  /\ calls_of f (fx c') = if existsb closing ops then adds_of f ops else 0%nat.
Proof.
  intros Hnew Hf c'. unfold NewSecureRelayChannel in Hnew.
  destruct (_ || _); [done|]. injection Hnew as Hc.
  assert (accounted f 0 c) as Ha by (subst c; by split).
  destruct (run_closes_accounted f ops 0 c Hf Ha) as [[_ Hacc] Hcl].
  assert (closed c = false) as Hc0 by by subst c. rewrite Hc0 in Hcl. simpl in Hcl, Hacc.
  fold c' in Hcl, Hacc. split; [done|]. rewrite Hcl in Hacc.
  destruct (existsb closing ops); [done|]. by destruct Hacc.
Qed.
End closing.

Definition demo_closes : list close_op :=
  [@OpAddOnClose 7%nat; OpAbort; OpAddOnClose 7%nat; OpClose; OpReadLoop [None]].
Definition fresh_channel : SecureRelayChannel toy_ecdh :=
  mkChannel (mkRelayConfig "wss://relay" "jwt" (Some x05)) false None None None NewScheduler
    (<[LaneControl := None]> (<[LaneMedia := None]> (<[LaneBulk := None]> ∅)))
    false None None [] [].

Lemma close_listeners_once_witness :
  calls_of 7 (fx (foldl (fun c op => run_close op c) fresh_channel demo_closes)) = 2%nat.
Proof.
  refine (proj2 (close_listeners_once 7%nat demo_closes
    (mkRelayConfig "wss://relay" "jwt" (Some x05)) fresh_channel eq_refl _)).
  repeat (apply Forall_cons; split; [discriminate|]). constructor.
Defined.
