(* ===== verification/Registry.v ===== *)
(** The relay session registry of the signaling server
    (signaling-server/internal/relay/registry.go): pending sessions, the two
    sockets of a session, replay protection of browser tokens, waiting for the
    peer, and byte accounting.  Every operation is one critical section under
    [r.mu], except the two waits, which are split at their [select]. *)

From S2P Require Import Prelude.
#[local] Open Scope Z_scope.

(** A time in nanoseconds, a socket, and a [chan struct{}] are numbers. *)
Abbreviation time := Z.
Abbreviation socket := nat.
Abbreviation channel := nat.

(** [signaling-server/internal/relay/registry.go:11-14] ErrUnknownSID *)
Inductive registry_error : Type := ErrUnknownSID | ErrReplay | ErrPendingWindow.

(** [signaling-server/internal/relay/registry.go:16-22] SessionState *)
Inductive SessionState : Type := StatePendingBrowser | StatePendingAgent | StateActive.

(** [signaling-server/internal/relay/registry.go:24-34] PendingSession *)
Record PendingSession := mkPending {
  SID : string; AccountID : string; SessionCode : string; AgentID : string;
  RelayAllowed : bool; RelayOnly : bool; ExpectedStaticPub : string; JTI : string;
  ExpiresAt : time }.

(** [signaling-server/internal/relay/registry.go:43-52] sessionEntry *)
Record sessionEntry := mkEntry {
  session : PendingSession;
  agentSocket : option socket; browserSocket : option socket;
  active : bool; forwardedBytes : Z;
  agentReady : channel; browserReady : channel; done_ch : channel }.

(** [closedCh] holds the channels that are closed and [nextCh] the next
    channel [make] returns.
    [signaling-server/internal/relay/registry.go:36-41] Registry *)
Record Registry := mkRegistry {
  pendingWindow : time;
  sessions : gmap string sessionEntry;
  spentJTI : gmap string time;
  closedCh : gset channel;
  nextCh : channel }.

(** [signaling-server/internal/relay/registry.go:54-60] NewRegistry *)
Definition NewRegistry (window : time) : Registry := mkRegistry window ∅ ∅ ∅ 0%nat.

Definition set_sessions m (r : Registry) :=
  mkRegistry (pendingWindow r) m (spentJTI r) (closedCh r) (nextCh r).
Definition set_spent m (r : Registry) :=
  mkRegistry (pendingWindow r) (sessions r) m (closedCh r) (nextCh r).
Definition set_closed m (r : Registry) :=
  mkRegistry (pendingWindow r) (sessions r) (spentJTI r) m (nextCh r).
Definition put_entry sid e (r : Registry) := set_sessions (<[sid := e]> (sessions r)) r.

(** [select { case <-ch: default: close(ch) }]. *)
Definition close_once (ch : channel) (r : Registry) : Registry := set_closed ({[ch]} ∪ closedCh r) r.
Definition is_closed (ch : channel) (r : Registry) : bool := bool_decide (ch ∈ closedCh r).

(** [t.After(u)] and [t.Before(u)]. *)
Definition After (t u : time) : bool := u <? t.
Definition Before (t u : time) : bool := t <? u.

(** [signaling-server/internal/relay/registry.go:62-72] CreatePendingSession *)
Definition CreatePendingSession (s : PendingSession) (r : Registry) : Registry :=
  let n := nextCh r in
  let r := mkRegistry (pendingWindow r) (sessions r) (spentJTI r) (closedCh r) (n + 3) in
  put_entry (SID s) (mkEntry s None None false 0 n (n + 1) (n + 2)) r.

(** [signaling-server/internal/relay/registry.go:246-260] cleanupSessionLocked *)
Definition cleanupSessionLocked (sid : string) (r : Registry) : Registry :=
  match sessions r !! sid with
  | None => r
  | Some entry =>
      let r := close_once (agentReady entry) r in
      let r := close_once (browserReady entry) r in
      let r := close_once (done_ch entry) r in
      let r := set_sessions (delete sid (sessions r)) r in
      set_spent (delete (JTI (session entry)) (spentJTI r)) r
  end.

Definition with_browser (conn : socket) (e : sessionEntry) : sessionEntry :=
  mkEntry (session e) (agentSocket e) (Some conn) (active e) (forwardedBytes e)
    (agentReady e) (browserReady e) (done_ch e).
Definition with_agent (conn : socket) (e : sessionEntry) : sessionEntry :=
  mkEntry (session e) (Some conn) (browserSocket e) (active e) (forwardedBytes e)
    (agentReady e) (browserReady e) (done_ch e).
Definition with_active (e : sessionEntry) : sessionEntry :=
  mkEntry (session e) (agentSocket e) (browserSocket e) true (forwardedBytes e)
    (agentReady e) (browserReady e) (done_ch e).
Definition with_bytes (n : Z) (e : sessionEntry) : sessionEntry :=
  mkEntry (session e) (agentSocket e) (browserSocket e) (active e) n
    (agentReady e) (browserReady e) (done_ch e).

Definition bind_result : Type := result (option socket * SessionState) registry_error.

(** [signaling-server/internal/relay/registry.go:74-98] BindBrowserSocket *)
Definition BindBrowserSocket (sid jti : string) (conn : socket) (now : time) (r : Registry)
    : bind_result * Registry :=
  if bool_decide (is_Some (spentJTI r !! jti)) then (Err ErrReplay, r)
  else
    match sessions r !! sid with
    | None => (Err ErrUnknownSID, r)
    | Some entry =>
        if After now (ExpiresAt (session entry)) then (Err ErrUnknownSID, r)
        else
          let r := set_spent (<[jti := now]> (spentJTI r)) r in
          let entry := with_browser conn entry in
          let r := close_once (browserReady entry) (put_entry sid entry r) in
          if is_closed (agentReady entry) r then
            (Ok (agentSocket entry, StateActive), put_entry sid (with_active entry) r)
          else (Ok (None, StatePendingBrowser), r)
    end.

(** [signaling-server/internal/relay/registry.go:132-155] BindAgentSocket *)
Definition BindAgentSocket (sid agentID : string) (conn : socket) (now : time) (r : Registry)
    : bind_result * Registry :=
  match sessions r !! sid with
  | None => (Err ErrUnknownSID, r)
  | Some entry =>
      if After now (ExpiresAt (session entry)) then (Err ErrUnknownSID, r)
      else if negb (bool_decide (AgentID (session entry) = ""%string))
              && negb (bool_decide (AgentID (session entry) = agentID))
      then (Err ErrUnknownSID, r)
      else
        let entry := with_agent conn entry in
        let r := close_once (agentReady entry) (put_entry sid entry r) in
        if is_closed (browserReady entry) r then
          (Ok (browserSocket entry, StateActive), put_entry sid (with_active entry) r)
        else (Ok (None, StatePendingAgent), r)
  end.

(** ** The waits: the channel awaited and its deadline, then one of two ends *)

Definition wait_begin (ch_of : sessionEntry -> channel) (sid : string) (now : time) (r : Registry)
    : result (channel * time) registry_error :=
  match sessions r !! sid with
  | None => Err ErrUnknownSID
  | Some entry =>
      let deadline := now + pendingWindow r in
      let deadline := if Before (ExpiresAt (session entry)) deadline
                      then ExpiresAt (session entry) else deadline in
      Ok (ch_of entry, deadline)
  end.

(** The timer fired first. *)
Definition wait_timeout (sid : string) (r : Registry) : result (option socket) registry_error * Registry :=
  (Err ErrPendingWindow, cleanupSessionLocked sid r).

(** The channel was closed. *)
Definition wait_ready (sock_of : sessionEntry -> option socket) (sid : string) (r : Registry)
    : result (option socket) registry_error :=
  match sessions r !! sid with
  | None => Err ErrUnknownSID
  | Some entry => Ok (sock_of entry)
  end.

(** [timer] tells which case of the [select] ran; the registry may have
    changed ([r']) while it waited.
    [signaling-server/internal/relay/registry.go:100-130] WaitForAgent *)
Definition WaitForAgent (sid : string) (now : time) (r : Registry) (timer : bool) (r' : Registry)
    : result (option socket) registry_error * Registry :=
  match wait_begin agentReady sid now r with
  | Err e => (Err e, r')
  | Ok _ => if timer then wait_timeout sid r' else (wait_ready agentSocket sid r', r')
  end.

(** [signaling-server/internal/relay/registry.go:157-187] WaitForBrowser *)
Definition WaitForBrowser (sid : string) (now : time) (r : Registry) (timer : bool) (r' : Registry)
    : result (option socket) registry_error * Registry :=
  match wait_begin browserReady sid now r with
  | Err e => (Err e, r')
  | Ok _ => if timer then wait_timeout sid r' else (wait_ready browserSocket sid r', r')
  end.

(** [signaling-server/internal/relay/registry.go:189-197] WatchSession *)
Definition WatchSession (sid : string) (r : Registry) : result channel registry_error :=
  match sessions r !! sid with
  | None => Err ErrUnknownSID
  | Some entry => Ok (done_ch entry)
  end.

(** Two's complement wrap-around of an [int64]. *)
Definition int64 (z : Z) : Z := (z + 2 ^ 63) mod 2 ^ 64 - 2 ^ 63.

(** [signaling-server/internal/relay/registry.go:199-205] AddForwardedBytes *)
Definition AddForwardedBytes (sid : string) (n : Z) (r : Registry) : Registry :=
  match sessions r !! sid with
  | None => r
  | Some entry => put_entry sid (with_bytes (int64 (forwardedBytes entry + n)) entry) r
  end.

(** [signaling-server/internal/relay/registry.go:207-215] Get *)
Definition Get (sid : string) (r : Registry) : result PendingSession registry_error :=
  match sessions r !! sid with
  | None => Err ErrUnknownSID
  | Some entry => Ok (session entry)
  end.

(** [signaling-server/internal/relay/registry.go:217-221] MarkDirectSuccess *)
Definition MarkDirectSuccess (sid : string) (r : Registry) : Registry := cleanupSessionLocked sid r.

(** [signaling-server/internal/relay/registry.go:223-234] CloseSession *)
Definition CloseSession (sid : string) (r : Registry)
    : result (string * Z) registry_error * Registry :=
  match sessions r !! sid with
  | None => (Err ErrUnknownSID, r)
  | Some entry =>
      (Ok (AccountID (session entry), forwardedBytes entry), cleanupSessionLocked sid r)
  end.

(** The map is ranged over in some order; the loop deletes only the entry it is
    at, so every entry is visited.
    [signaling-server/internal/relay/registry.go:236-244] CleanupExpired *)
Definition CleanupExpired (now : time) (r : Registry) : Registry :=
  foldr (fun '(sid, entry) r =>
           if negb (active entry) && After now (ExpiresAt (session entry))
           then cleanupSessionLocked sid r else r) r (map_to_list (sessions r)).

(** * Operations and their sequences *)

Inductive reg_op : Type :=
| RCreate (s : PendingSession)
| RBindBrowser (sid jti : string) (conn : socket) (now : time)
| RBindAgent (sid agentID : string) (conn : socket) (now : time)
| RTimeout (sid : string)          (* a wait of the session times out *)
| RAddBytes (sid : string) (n : Z)
| RMarkDirect (sid : string)
| RClose (sid : string)
| RCleanup (now : time).

Definition reg_step (op : reg_op) (r : Registry) : Registry :=
  match op with
  | RCreate s => CreatePendingSession s r
  | RBindBrowser sid jti conn now => snd (BindBrowserSocket sid jti conn now r)
  | RBindAgent sid agentID conn now => snd (BindAgentSocket sid agentID conn now r)
  | RTimeout sid => snd (wait_timeout sid r)
  | RAddBytes sid n => AddForwardedBytes sid n r
  | RMarkDirect sid => MarkDirectSuccess sid r
  | RClose sid => snd (CloseSession sid r)
  | RCleanup now => CleanupExpired now r
  end.

Definition reg_run (ops : list reg_op) (r : Registry) : Registry :=
  foldl (fun r op => reg_step op r) r ops.

(** * The invariant *)

(** One entry: its channels are its own, and a ready channel is closed exactly
    when the socket it announces is there. *)
Record entry_ok (r : Registry) (sid : string) (e : sessionEntry) : Prop := {
  eo_sid : SID (session e) = sid;
  eo_chans : browserReady e = (agentReady e + 1)%nat /\ done_ch e = (agentReady e + 2)%nat;
  eo_next : (agentReady e + 3 <= nextCh r)%nat;
  eo_agent : agentReady e ∈ closedCh r <-> is_Some (agentSocket e);
  eo_browser : browserReady e ∈ closedCh r <-> is_Some (browserSocket e);
  eo_done : done_ch e ∉ closedCh r;
  eo_active : active e = true <-> is_Some (agentSocket e) /\ is_Some (browserSocket e) }.

(** Two entries share no channel: they were made at different times. *)
Definition apart (e1 e2 : sessionEntry) : Prop :=
  (agentReady e1 + 3 <= agentReady e2)%nat \/ (agentReady e2 + 3 <= agentReady e1)%nat.

Record reg_inv (r : Registry) : Prop := {
  ri_entries : forall sid e, sessions r !! sid = Some e -> entry_ok r sid e;
  ri_apart : forall s1 s2 e1 e2, s1 <> s2 -> sessions r !! s1 = Some e1 -> sessions r !! s2 = Some e2 ->
    apart e1 e2;
  ri_closed : forall ch, ch ∈ closedCh r -> (ch < nextCh r)%nat }.

Lemma set_spent_inv m r : reg_inv r -> reg_inv (set_spent m r).
Proof. intros [G1 G2 G3]. constructor; try done. intros s1 e1 Hl. by destruct (G1 s1 e1 Hl). Qed.

Lemma NewRegistry_inv w : reg_inv (NewRegistry w).
Proof. constructor; simpl; [done|done|set_solver]. Qed.

Lemma CreatePending_inv s r : reg_inv r -> reg_inv (CreatePendingSession s r).
Proof.
  intros [He Ha Hc]. unfold CreatePendingSession. set (n := nextCh r).
  constructor; simpl.
  - intros sid e. rewrite lookup_insert. case_decide as Hs.
    + intros [= <-]. constructor; simpl; try done; try lia.
      * split; [intros Hin%Hc; lia|by intros [? ?]].
      * split; [intros Hin%Hc; lia|by intros [? ?]].
      * intros Hin%Hc. lia.
      * split; [done|by intros [[? ?] _]].
    + intros Hl. destruct (He sid e Hl). constructor; simpl; try done. lia.
  - intros s1 s2 e1 e2 Hne. rewrite !lookup_insert. unfold apart.
    repeat case_decide; subst; try done.
    + intros [= <-] H2. destruct (He _ _ H2) as [_ _ Hn _ _ _ _]. simpl. lia.
    + intros H1 [= <-]. destruct (He _ _ H1) as [_ _ Hn _ _ _ _]. simpl. lia.
    + by apply Ha.
  - intros ch Hin%Hc. lia.
Qed.

(** Closing channels of one entry and removing it, or updating it in place. *)
Lemma entry_ok_other r r' s1 e1 e2 :
  entry_ok r s1 e1 -> apart e1 e2 -> (nextCh r <= nextCh r')%nat ->
  (forall ch, ch ∈ closedCh r' <-> ch ∈ closedCh r \/ (agentReady e2 <= ch < agentReady e2 + 3
      /\ ch ∈ closedCh r')%nat) ->
  entry_ok r' s1 e1.
Proof.
  intros [Hs [Hb Hd] Hn Ha Hbr Hdn Hac] Hap Hnx Hcl. unfold apart in Hap.
  constructor; try done; [lia|..].
  - rewrite Hcl, <- Ha. split; [intros [?|[? _]]; [done|lia]|auto].
  - rewrite Hcl, <- Hbr. split; [intros [?|[? _]]; [done|lia]|auto].
  - rewrite Hcl. intros [?|[? _]]; [done|lia].
Qed.

Lemma cleanup_inv sid r : reg_inv r -> reg_inv (cleanupSessionLocked sid r).
Proof.
  intros [He Ha Hc]. unfold cleanupSessionLocked. destruct (sessions r !! sid) as [e|] eqn:Hs; [|done].
  destruct (He _ _ Hs) as [_ [Hb Hd] Hn _ _ _ _].
  constructor; simpl.
  - intros s1 e1 H1. rewrite lookup_delete in H1. case_decide; [done|].
    eapply (entry_ok_other r _ s1 e1 e); [by apply He|eapply (Ha s1 sid); congruence|done|].
    intros ch. simpl. rewrite !elem_of_union, !elem_of_singleton. split; [|tauto].
    intros [->|[->|[->|?]]]; [right..|by left]; (split; [lia|auto]).
  - intros s1 s2 e1 e2 Hne. rewrite !lookup_delete. repeat case_decide; try done. by apply Ha.
  - intros ch. rewrite !elem_of_union, !elem_of_singleton. intros [->|[->|[->|?%Hc]]]; lia.
Qed.

(** Replacing one entry, closing none but its own channels. *)
Lemma update_inv sid e e' r r' :
  reg_inv r -> sessions r !! sid = Some e -> sessions r' = <[sid := e']> (sessions r) ->
  nextCh r' = nextCh r -> agentReady e' = agentReady e ->
  (forall ch, ch ∈ closedCh r' <-> ch ∈ closedCh r \/ (agentReady e <= ch < agentReady e + 3
      /\ ch ∈ closedCh r')%nat) ->
  entry_ok r' sid e' -> reg_inv r'.
Proof.
  intros [He Ha Hc] Hs Hm Hn Hch Hcl Hok.
  destruct (He _ _ Hs) as [_ _ Hnx _ _ _ _].
  constructor; rewrite ?Hm.
  - intros s1 e1. rewrite lookup_insert. case_decide as Hsid; [intros [= <-]; by subst|]. intros H1.
    eapply (entry_ok_other r _ s1 e1 e); [by apply He|eapply (Ha s1 sid); congruence|lia|done].
  - intros s1 s2 e1 e2 Hne. rewrite !lookup_insert. unfold apart.
    repeat case_decide; subst; try done.
    + intros [= <-] H2. rewrite Hch. by apply (Ha s1 s2 e e2).
    + intros H1 [= <-]. rewrite Hch. by apply (Ha s1 s2 e1 e).
    + by apply Ha.
  - intros ch [?%Hc|[? _]]%Hcl; lia.
Qed.

Lemma closed_own (ch : channel) (X : gset channel) lo :
  (lo <= ch < lo + 3)%nat ->
  forall c, c ∈ {[ch]} ∪ X <-> c ∈ X \/ (lo <= c < lo + 3 /\ c ∈ {[ch]} ∪ X)%nat.
Proof. intros H c. rewrite elem_of_union, elem_of_singleton. split; [|tauto]. intros [->|?]; auto. Qed.

(** What a successful bind does: it stores the socket, closes the ready
    channel, and the pair is active exactly when the other socket is there,
    which is then returned. *)
Definition bind_post (mine : sessionEntry -> sessionEntry) (other : sessionEntry -> option socket)
    (pending : SessionState) (sid : string) (e : sessionEntry) (res : bind_result) (r' : Registry) : Prop :=
  match other e with
  | Some s => res = Ok (Some s, StateActive) /\ sessions r' !! sid = Some (with_active (mine e))
  | None => res = Ok (None, pending) /\ sessions r' !! sid = Some (mine e)
  end.

Lemma is_closed_iff ch r : is_closed ch r = true <-> ch ∈ closedCh r.
Proof. unfold is_closed. apply bool_decide_eq_true. Qed.

(** The part the two binds share; [b] is the browser's side. *)
Definition mine (b : bool) (conn : socket) : sessionEntry -> sessionEntry :=
  if b then with_browser conn else with_agent conn.
Definition my_ready (b : bool) : sessionEntry -> channel := if b then browserReady else agentReady.
Definition other (b : bool) : sessionEntry -> option socket := if b then agentSocket else browserSocket.
Definition waiting (b : bool) : SessionState := if b then StatePendingBrowser else StatePendingAgent.

Definition bind_core (b : bool) (sid : string) (conn : socket) (e : sessionEntry) (r : Registry)
    : bind_result * Registry :=
  let r := close_once (my_ready b e) (put_entry sid (mine b conn e) r) in
  if is_closed (my_ready (negb b) e) r
  then (Ok (other b (mine b conn e), StateActive), put_entry sid (with_active (mine b conn e)) r)
  else (Ok (None, waiting b), r).

Lemma bind_core_spec b sid conn e r res r' :
  reg_inv r -> sessions r !! sid = Some e -> bind_core b sid conn e r = (res, r') ->
  reg_inv r' /\ bind_post (mine b conn) (other b) (waiting b) sid e res r'
  /\ sessions r' = <[sid := if other b e is Some _ then with_active (mine b conn e)
                            else mine b conn e]> (sessions r)
  /\ spentJTI r' = spentJTI r /\ closedCh r' = {[my_ready b e]} ∪ closedCh r.
Proof.
  intros Hi Hs Hb. pose proof (ri_entries _ Hi _ _ Hs) as [Hsid [Eb Ed] Hn Hag Hbr Hdn Hac].
  unfold bind_core in Hb. set (r1 := close_once _ _) in Hb.
  assert (closedCh r1 = {[my_ready b e]} ∪ closedCh r) as Hcl by done.
  assert (is_closed (my_ready (negb b) e) r1 = bool_decide (is_Some (other b e))) as Hact.
  { unfold is_closed. apply bool_decide_ext. rewrite Hcl, elem_of_union, elem_of_singleton.
    destruct b; simpl; rewrite <- ?Hag, <- ?Hbr; (split; [intros [?|?]; [lia|done]|auto]). }
  rewrite Hact in Hb. unfold bind_post.
  destruct (other b e) as [s|] eqn:Ho.
  - rewrite bool_decide_eq_true_2 in Hb by eauto. injection Hb as <- <-.
    assert (other b (mine b conn e) = Some s) as Ho' by by destruct b. rewrite Ho'.
    assert (forall m : gmap string sessionEntry, <[sid := with_active (mine b conn e)]> (<[sid := mine b conn e]> m)
            = <[sid := with_active (mine b conn e)]> m) as Hins by (intros; apply insert_insert_eq).
    split_and!; try done; [|simpl; rewrite Hins; apply lookup_insert_eq|simpl; apply Hins].
    apply (update_inv sid e (with_active (mine b conn e)) r); try done; try by destruct b.
    + simpl. apply Hins.
    + apply closed_own. destruct b; simpl; lia.
    + destruct b; simpl in *; constructor; simpl; try done;
        rewrite ?elem_of_union, ?elem_of_singleton, ?Hag, ?Hbr, ?Ho;
        try (split; [by eauto|by auto]); try (intros [?|?]; [lia|done]); naive_solver.
  - rewrite bool_decide_eq_false_2 in Hb by (intros [? [=]]). injection Hb as <- <-.
    split_and!; try done; [|simpl; apply lookup_insert_eq].
    apply (update_inv sid e (mine b conn e) r); try done; try by destruct b.
    + apply closed_own. destruct b; simpl; lia.
    + destruct b; simpl in *; constructor; simpl; try done;
        rewrite ?elem_of_union, ?elem_of_singleton, ?Hag, ?Hbr, ?Hac, ?Ho;
        try (intros [?|?]; [lia|done]); try (split; [intros [?|[? [=]]]; lia|by intros [? [=]]]);
        naive_solver.
Qed.

Lemma BindBrowser_spec sid jti conn now r res r' :
  reg_inv r -> BindBrowserSocket sid jti conn now r = (res, r') ->
  reg_inv r' /\
  ((exists err, res = Err err /\ r' = r)
   \/ exists e, sessions r !! sid = Some e /\ spentJTI r !! jti = None
      /\ bind_core true sid conn e (set_spent (<[jti := now]> (spentJTI r)) r) = (res, r')).
Proof.
  intros Hi. unfold BindBrowserSocket. case_bool_decide as Hsp; [naive_solver|].
  apply eq_None_not_Some in Hsp.
  destruct (sessions r !! sid) as [e|] eqn:Hs; [|naive_solver].
  destruct (After _ _); [naive_solver|]. intros Hb.
  assert (reg_inv (set_spent (<[jti := now]> (spentJTI r)) r)) as Hi1.
  { destruct Hi as [H1 H2 H3]. constructor; try done. intros s1 e1 Hl. by destruct (H1 s1 e1 Hl). }
  split; [by apply (bind_core_spec true sid conn e _ res r' Hi1 Hs)|]. right. eauto.
Qed.

Lemma BindAgent_spec sid aid conn now r res r' :
  reg_inv r -> BindAgentSocket sid aid conn now r = (res, r') ->
  reg_inv r' /\
  ((exists err, res = Err err /\ r' = r)
   \/ exists e, sessions r !! sid = Some e
      /\ (AgentID (session e) = ""%string \/ AgentID (session e) = aid)
      /\ bind_core false sid conn e r = (res, r')).
Proof.
  intros Hi. unfold BindAgentSocket. destruct (sessions r !! sid) as [e|] eqn:Hs; [|naive_solver].
  destruct (After _ _); [naive_solver|]. destruct (negb _ && negb _) eqn:Hid; [naive_solver|].
  intros Hb. split; [by apply (bind_core_spec false sid conn e r res r' Hi Hs)|]. right.
  exists e. split; [done|]. split; [|done].
  apply andb_false_iff in Hid as [Hid|Hid]; apply negb_false_iff, bool_decide_eq_true in Hid; auto.
Qed.

Lemma AddForwardedBytes_inv sid n r : reg_inv r -> reg_inv (AddForwardedBytes sid n r).
Proof.
  intros Hi. unfold AddForwardedBytes. destruct (sessions r !! sid) as [e|] eqn:Hs; [|done].
  eapply (update_inv sid e); [done|done|done|done|done| |].
  - intros ch. simpl. split; [auto|tauto].
  - destruct (ri_entries _ Hi _ _ Hs). by constructor.
Qed.

(** [CleanupExpired] is a sequence of cleanups. *)
Lemma CleanupExpired_ind (P : Registry -> Prop) now r :
  (forall sid r, P r -> P (cleanupSessionLocked sid r)) -> P r -> P (CleanupExpired now r).
Proof.
  intros Hstep HP. unfold CleanupExpired.
  induction (map_to_list (sessions r)) as [|[sid e] l IH]; simpl; [done|].
  destruct (_ && _); auto.
Qed.

Lemma reg_step_inv op r : reg_inv r -> reg_inv (reg_step op r).
Proof.
  intros Hi. destruct op as [s|sid jti conn now|sid aid conn now|sid|sid n|sid|sid|now]; simpl.
  - by apply CreatePending_inv.
  - destruct (BindBrowserSocket sid jti conn now r) as [res r'] eqn:Hb.
    by destruct (BindBrowser_spec _ _ _ _ _ _ _ Hi Hb).
  - destruct (BindAgentSocket sid aid conn now r) as [res r'] eqn:Hb.
    by destruct (BindAgent_spec _ _ _ _ _ _ _ Hi Hb).
  - by apply cleanup_inv.
  - by apply AddForwardedBytes_inv.
  - by apply cleanup_inv.
  - unfold CloseSession. destruct (sessions r !! sid); [by apply cleanup_inv|done].
  - apply CleanupExpired_ind; [|done]. intros. by apply cleanup_inv.
Qed.

Lemma reg_run_inv ops r : reg_inv r -> reg_inv (reg_run ops r).
Proof. revert r. induction ops as [|op ops IH]; intros r Hi; simpl; [done|]. by apply IH, reg_step_inv. Qed.

Lemma cleanup_lookup sid r s :
  sessions (cleanupSessionLocked sid r) !! s = if decide (sid = s) then None else sessions r !! s.
Proof.
  unfold cleanupSessionLocked. destruct (sessions r !! sid) as [e|] eqn:Hs; simpl.
  - rewrite lookup_delete. done.
  - case_decide; [by subst|done].
Qed.

(** * Replay protection *)

(** The token [jti] of session [sid] is used up: the session is gone, or the
    token is marked spent; and no other session has the same token. *)
Definition token_spent (sid jti : string) (r : Registry) : Prop :=
  (forall e, sessions r !! sid = Some e -> is_Some (spentJTI r !! jti))
  /\ forall s e, sessions r !! s = Some e -> JTI (session e) = jti -> s = sid.

Definition creates (sid jti : string) (op : reg_op) : Prop :=
  match op with RCreate s => SID s = sid \/ JTI s = jti | _ => False end.

Lemma token_spent_cleanup sid jti s r : token_spent sid jti r -> token_spent sid jti (cleanupSessionLocked s r).
Proof.
  intros [H1 H2]. unfold cleanupSessionLocked. destruct (sessions r !! s) as [e|] eqn:Hs; [|done].
  split; simpl.
  - intros e'. rewrite lookup_delete. case_decide as Hne; [done|]. intros Hl.
    rewrite lookup_delete_ne; [by eapply H1|]. intros Hj. by apply Hne, (H2 s e).
  - intros s' e'. rewrite lookup_delete. case_decide; [done|]. apply H2.
Qed.

(** Updating an entry without touching its session, and spending tokens. *)
Lemma token_spent_update sid jti s e e' r r' :
  sessions r !! s = Some e -> session e' = session e -> sessions r' = <[s := e']> (sessions r) ->
  (forall j, is_Some (spentJTI r !! j) -> is_Some (spentJTI r' !! j)) ->
  token_spent sid jti r -> token_spent sid jti r'.
Proof.
  intros Hs He Hm Hsp [H1 H2]. split; rewrite Hm.
  - intros x. rewrite lookup_insert. case_decide as Heq.
    + intros _. subst s. eapply Hsp, H1, Hs.
    + intros Hl. eapply Hsp, H1, Hl.
  - intros s' x. rewrite lookup_insert. case_decide as Heq; [|apply H2].
    intros [= <-]. rewrite He. subst s'. by apply H2.
Qed.

Lemma session_bound b conn e :
  session (if other b e is Some _ then with_active (mine b conn e) else mine b conn e) = session e.
Proof. by destruct (other b e), b. Qed.

Lemma token_spent_step sid jti op r :
  reg_inv r -> ~ creates sid jti op -> token_spent sid jti r -> token_spent sid jti (reg_step op r).
Proof.
  intros Hi Hc Ht. destruct op as [s|sid' jti' conn now|sid' aid conn now|sid'|sid' n|sid'|sid'|now];
    simpl in *.
  - destruct Ht as [H1 H2]. unfold CreatePendingSession. split; simpl.
    + intros e. rewrite lookup_insert. case_decide; [tauto|]. apply H1.
    + intros s' e. rewrite lookup_insert. case_decide; [|apply H2]. intros [= <-] Hj. simpl in Hj. tauto.
  - destruct (BindBrowserSocket sid' jti' conn now r) as [res r'] eqn:Hb.
    destruct (BindBrowser_spec _ _ _ _ _ _ _ Hi Hb) as [_ [(?&_&->)|(e&Hs&_&Hcore)]]; [done|].
    apply bind_core_spec in Hcore as (_&_&Hm&Hsp&_); [| |done].
    + simpl in *. eapply (token_spent_update sid jti sid' e); [done| |exact Hm| |done].
      * apply (session_bound true).
      * intros j Hj. rewrite Hsp. simpl. rewrite lookup_insert. by case_decide.
    + by apply set_spent_inv.
  - destruct (BindAgentSocket sid' aid conn now r) as [res r'] eqn:Hb.
    destruct (BindAgent_spec _ _ _ _ _ _ _ Hi Hb) as [_ [(?&_&->)|(e&Hs&_&Hcore)]]; [done|].
    apply bind_core_spec in Hcore as (_&_&Hm&Hsp&_); [|done..].
    eapply (token_spent_update sid jti sid' e); [done| |exact Hm| |done].
    + apply (session_bound false).
    + intros j. simpl. by rewrite Hsp.
  - by apply token_spent_cleanup.
  - unfold AddForwardedBytes. destruct (sessions r !! sid') as [e|] eqn:Hs; [|done].
    by apply (token_spent_update sid jti sid' e (with_bytes (int64 (forwardedBytes e + n)) e) r).
  - by apply token_spent_cleanup.
  - unfold CloseSession. destruct (sessions r !! sid'); [by apply token_spent_cleanup|done].
  - apply CleanupExpired_ind; [|done]. intros. by apply token_spent_cleanup.
Qed.

Lemma token_spent_run sid jti ops r :
  reg_inv r -> Forall (fun op => ~ creates sid jti op) ops -> token_spent sid jti r ->
  token_spent sid jti (reg_run ops r).
Proof.
  revert r. induction ops as [|op ops IH]; intros r Hi Hf Ht; simpl; [done|].
  apply Forall_cons_1 in Hf as [Hop Hf].
  apply IH; [by apply reg_step_inv|done|by apply token_spent_step].
Qed.

(** A concrete history: two sessions, the first with both sockets. *)
Definition demo_session (sid jti : string) : PendingSession :=
  mkPending sid "acc" "code" "agent" true false "" jti 1000.
Definition demo_ops : list reg_op :=
  [RCreate (demo_session "s1" "j1"); RCreate (demo_session "s2" "j2"); RBindAgent "s1" "agent" 7 10].
Definition demo_registry : Registry := reg_run demo_ops (NewRegistry 30).

(** C29 (safety). A browser relay token binds at most once: after a successful
    bind of a session's token, whatever else happens to the registry (other
    binds, timeouts, closes, clean-ups, new sessions with other identifiers),
    every later bind with the same token is refused. *)
Theorem browser_token_single_use w ops1 sid jti conn now e a r1 ops2 conn' now' :
  let r := reg_run ops1 (NewRegistry w) in
  sessions r !! sid = Some e ->
  (forall s e', sessions r !! s = Some e' -> JTI (session e') = jti -> s = sid) ->
  BindBrowserSocket sid jti conn now r = (Ok a, r1) ->
  Forall (fun op => ~ creates sid jti op) ops2 ->
  exists err, BindBrowserSocket sid jti conn' now' (reg_run ops2 r1) = (Err err, reg_run ops2 r1).
Proof.
  intros r Hs Huniq Hb Hops. pose proof (reg_run_inv ops1 _ (NewRegistry_inv w)) as Hi. fold r in Hi.
  destruct (BindBrowser_spec _ _ _ _ _ _ _ Hi Hb) as [Hi1 [(?&?&_)|(e'&Hs'&_&Hcore)]]; [done|].
  simplify_eq. assert (token_spent sid jti r1) as Ht.
  { apply bind_core_spec in Hcore as (_&_&Hm&Hsp&_); [| |exact Hs].
    - split.
      + intros x _. rewrite Hsp. simpl. rewrite lookup_insert_eq. eauto.
      + intros s x. rewrite Hm, lookup_insert. case_decide; [done|]. apply Huniq.
    - by apply set_spent_inv. }
  apply (token_spent_run sid jti ops2) in Ht as [H1 _]; [|done..].
  unfold BindBrowserSocket. case_bool_decide as Hsp; [eauto|].
  destruct (sessions (reg_run ops2 r1) !! sid) as [x|] eqn:Hx; [|eauto].
  destruct Hsp. by eapply H1.
Qed.

Lemma demo_registry_eq : reg_run demo_ops (NewRegistry 30) = demo_registry.
Proof. done. Qed.

Lemma browser_token_single_use_witness :
  exists err, BindBrowserSocket "s1" "j1" 9 40
                (reg_run [RAddBytes "s1" 5; RClose "s2"] (snd (BindBrowserSocket "s1" "j1" 8 20 demo_registry)))
              = (Err err, reg_run [RAddBytes "s1" 5; RClose "s2"]
                            (snd (BindBrowserSocket "s1" "j1" 8 20 demo_registry))).
Proof.
  apply (browser_token_single_use 30 demo_ops "s1" "j1" 8%nat 20
    (mkEntry (demo_session "s1" "j1") (Some 7%nat) None false 0 0%nat 1%nat 2%nat) (Some 7%nat, StateActive)).
  - vm_compute. reflexivity.
  - intros s e' Hl Hj. destruct (decide (s = "s1"%string)) as [|Hne]; [done|].
    destruct (decide (s = "s2"%string)) as [->|Hne2].
    + vm_compute in Hl. injection Hl as <-. discriminate Hj.
    + rewrite demo_registry_eq in Hl. exfalso.
      assert (sessions demo_registry = <["s1"%string := mkEntry (demo_session "s1" "j1") (Some 7%nat) None
                false 0 0%nat 1%nat 2%nat]> (<["s2"%string := mkEntry (demo_session "s2" "j2") None None
                false 0 3%nat 4%nat 5%nat]> ∅)) as Hm by (vm_compute; reflexivity).
      rewrite Hm, !lookup_insert_ne in Hl by done. done.
  - vm_compute. reflexivity.
  - repeat (apply Forall_cons; split; [intros []|]). constructor.
Defined.

(** * Pairing *)

(** How an operation that does not create the session treats its entry. *)
Record entry_kept (sid : string) (r r' : Registry) : Prop := {
  ek_back : forall e', sessions r' !! sid = Some e' -> exists e, sessions r !! sid = Some e
    /\ session e' = session e /\ agentReady e' = agentReady e /\ browserReady e' = browserReady e
    /\ (is_Some (agentSocket e) -> is_Some (agentSocket e'))
    /\ (is_Some (browserSocket e) -> is_Some (browserSocket e'));
  ek_gone : forall e, sessions r !! sid = Some e -> sessions r' !! sid = None ->
    agentReady e ∈ closedCh r' /\ browserReady e ∈ closedCh r';
  ek_closed : closedCh r ⊆ closedCh r' }.

Lemma entry_kept_refl sid r : entry_kept sid r r.
Proof. constructor; [intros e ?; exists e; split_and!; auto|congruence|done]. Qed.

Lemma entry_kept_trans sid r1 r2 r3 : entry_kept sid r1 r2 -> entry_kept sid r2 r3 -> entry_kept sid r1 r3.
Proof.
  intros [B1 G1 C1] [B2 G2 C2]. constructor; [| |set_solver].
  - intros e3 H3. destruct (B2 e3 H3) as (e2&H2&S2&A2&R2&M2&N2).
    destruct (B1 e2 H2) as (e1&H1&S1&A1&R1&M1&N1). exists e1. split_and!; try congruence; auto.
  - intros e1 H1 H3. destruct (sessions r2 !! sid) as [e2|] eqn:H2; [|naive_solver set_solver].
    destruct (B1 e2 eq_refl) as (e&He&_&A&R&_). simplify_eq. rewrite <- A, <- R. by apply (G2 e2).
Qed.

Lemma entry_kept_cleanup sid s r : entry_kept sid r (cleanupSessionLocked s r).
Proof.
  constructor.
  - intros e'. rewrite cleanup_lookup. case_decide; [done|]. intros He. exists e'. split_and!; auto.
  - intros e He. rewrite cleanup_lookup. case_decide; [|congruence]. intros _. subst s.
    unfold cleanupSessionLocked. rewrite He. simpl. set_solver.
  - unfold cleanupSessionLocked. destruct (sessions r !! s); [|done]. simpl. set_solver.
Qed.

Lemma entry_kept_update sid s e e' r r' :
  sessions r !! s = Some e -> sessions r' = <[s := e']> (sessions r) -> closedCh r ⊆ closedCh r' ->
  session e' = session e -> agentReady e' = agentReady e -> browserReady e' = browserReady e ->
  (is_Some (agentSocket e) -> is_Some (agentSocket e')) ->
  (is_Some (browserSocket e) -> is_Some (browserSocket e')) -> entry_kept sid r r'.
Proof.
  intros Hs Hm Hc ?????. constructor; [| |done]; rewrite ?Hm.
  - intros x. rewrite lookup_insert. case_decide; [|intros ?; exists x; split_and!; auto].
    intros [= <-]. subst s. exists e. split_and!; auto.
  - intros x Hx. rewrite lookup_insert. case_decide; [done|congruence].
Qed.

Lemma bind_kept b sid s conn e r res r' :
  reg_inv r -> sessions r !! s = Some e -> bind_core b s conn e r = (res, r') -> entry_kept sid r r'.
Proof.
  intros Hi Hs Hb. destruct (bind_core_spec b s conn e r res r' Hi Hs Hb) as (_&_&Hm&_&Hc).
  eapply entry_kept_update; [exact Hs|exact Hm|rewrite Hc; set_solver|..];
    destruct (other b e), b; simpl; eauto.
Qed.

Lemma entry_kept_step sid op r :
  reg_inv r -> (forall s, op = RCreate s -> SID s <> sid) -> entry_kept sid r (reg_step op r).
Proof.
  intros Hi Hop. destruct op as [s|s jti conn now|s aid conn now|s|s n|s|s|now]; simpl.
  - specialize (Hop s eq_refl). unfold CreatePendingSession. constructor; simpl; [| |done].
    + intros e'. rewrite lookup_insert_ne by done. intros ?. exists e'. split_and!; auto.
    + intros e He. rewrite lookup_insert_ne by done. congruence.
  - destruct (BindBrowserSocket s jti conn now r) as [res r'] eqn:Hb.
    destruct (BindBrowser_spec _ _ _ _ _ _ _ Hi Hb) as [_ [(?&_&->)|(e&Hs&_&Hcore)]];
      [apply entry_kept_refl|]. simpl.
    eapply (entry_kept_trans _ _ (set_spent (<[jti:=now]> (spentJTI r)) r)).
    + constructor; simpl; [intros x ?; exists x; split_and!; auto|congruence|done].
    + eapply bind_kept; [|exact Hs|exact Hcore].
      by apply set_spent_inv.
  - destruct (BindAgentSocket s aid conn now r) as [res r'] eqn:Hb.
    destruct (BindAgent_spec _ _ _ _ _ _ _ Hi Hb) as [_ [(?&_&->)|(e&Hs&_&Hcore)]];
      [apply entry_kept_refl|]. by eapply bind_kept.
  - apply entry_kept_cleanup.
  - unfold AddForwardedBytes. destruct (sessions r !! s) as [e|] eqn:Hs; [|apply entry_kept_refl].
    by eapply (entry_kept_update sid s e (with_bytes (int64 (forwardedBytes e + n)) e)).
  - apply entry_kept_cleanup.
  - unfold CloseSession. destruct (sessions r !! s); [apply entry_kept_cleanup|apply entry_kept_refl].
  - apply (CleanupExpired_ind (entry_kept sid r)); [|apply entry_kept_refl].
    intros s r' Hk. eapply entry_kept_trans; [exact Hk|apply entry_kept_cleanup].
Qed.

Definition keeps_sid (sid : string) (op : reg_op) : Prop := forall s, op = RCreate s -> SID s <> sid.

Lemma entry_kept_run sid ops r :
  reg_inv r -> Forall (keeps_sid sid) ops -> entry_kept sid r (reg_run ops r).
Proof.
  revert r. induction ops as [|op ops IH]; intros r Hi Hf; [apply entry_kept_refl|].
  apply Forall_cons_1 in Hf as [Hop Hf]. eapply entry_kept_trans; [by apply entry_kept_step|].
  apply IH; [by apply reg_step_inv|done].
Qed.

(** Waiting for the peer of a relay session is sound: a handler
    that began to wait is released exactly when the peer's socket is bound or
    the session is gone, and then it gets the peer's socket, never a nil one,
    or the unknown-session error. *)
Theorem relay_wait_sound w ops1 b sid now ch dl ops2 :
  let r := reg_run ops1 (NewRegistry w) in
  wait_begin (my_ready (negb b)) sid now r = Ok (ch, dl) ->
  Forall (keeps_sid sid) ops2 ->
  let r2 := reg_run ops2 r in
  if is_closed ch r2
  then (exists s, wait_ready (other b) sid r2 = Ok (Some s))
       \/ (sessions r2 !! sid = None /\ wait_ready (other b) sid r2 = Err ErrUnknownSID)
  else exists e, sessions r2 !! sid = Some e /\ other b e = None.
Proof.
  intros r Hw Hops r2. pose proof (reg_run_inv ops1 _ (NewRegistry_inv w)) as Hi. fold r in Hi.
  pose proof (reg_run_inv ops2 r Hi) as Hi2. fold r2 in Hi2.
  pose proof (entry_kept_run sid ops2 r Hi Hops) as [Hback Hgone _]. fold r2 in Hback, Hgone.
  unfold wait_begin in Hw. destruct (sessions r !! sid) as [e|] eqn:Hs; [|done].
  injection Hw as Hch _. unfold wait_ready.
  destruct (sessions r2 !! sid) as [e2|] eqn:Hs2.
  - destruct (Hback e2 eq_refl) as (e'&He'&_&Ea&Eb&_). simplify_eq.
    assert (is_closed (my_ready (negb b) e') r2 = bool_decide (is_Some (other b e2))) as ->.
    { destruct (ri_entries _ Hi2 _ _ Hs2). unfold is_closed. apply bool_decide_ext.
      destruct b; simpl; [rewrite <- Ea|rewrite <- Eb]; done. }
    case_bool_decide as Ho; [left|eexists; split; [done|by apply eq_None_not_Some]].
    destruct Ho as [s ->]. eauto.
  - destruct (Hgone e eq_refl eq_refl) as [Ha Hb'].
    assert (is_closed ch r2 = true) as ->
      by (apply is_closed_iff; subst ch; destruct b; done). by right.
Qed.

Lemma relay_wait_sound_witness :
  let r2 := reg_run [RBindBrowser "s1" "j1" 8 20] demo_registry in
  if is_closed 1%nat r2
  then (exists s, wait_ready browserSocket "s1" r2 = Ok (Some s))
       \/ (sessions r2 !! "s1"%string = None /\ wait_ready browserSocket "s1" r2 = Err ErrUnknownSID)
  else exists e, sessions r2 !! "s1"%string = Some e /\ browserSocket e = None.
Proof.
  apply (relay_wait_sound 30 demo_ops false "s1" 10 1%nat 40 [RBindBrowser "s1" "j1" 8%nat 20]).
  - vm_compute. reflexivity.
  - apply Forall_cons. split; [intros s [=]|constructor].
Defined.

(** A bind by either side; the browser shows its token, the agent its name. *)
Definition bind (b : bool) (sid cred : string) (conn : socket) (now : time) (r : Registry) :=
  if b then BindBrowserSocket sid cred conn now r else BindAgentSocket sid cred conn now r.

Definition binds (sid : string) (op : reg_op) : Prop :=
  match op with RBindBrowser s _ _ _ | RBindAgent s _ _ _ => s = sid | _ => False end.

(** Operations on other sessions, and clean-ups, keep the sockets of a session. *)
Definition same_sockets (sid : string) (r r' : Registry) : Prop :=
  forall e', sessions r' !! sid = Some e' -> exists e, sessions r !! sid = Some e
    /\ agentSocket e' = agentSocket e /\ browserSocket e' = browserSocket e.

Lemma same_sockets_update sid s e e' r r' :
  sessions r !! s = Some e -> sessions r' = <[s := e']> (sessions r) ->
  (s = sid -> agentSocket e' = agentSocket e /\ browserSocket e' = browserSocket e) ->
  same_sockets sid r r'.
Proof.
  intros Hs Hm He x. rewrite Hm, lookup_insert. case_decide as Heq; [|intros ?; exists x; auto].
  intros [= <-]. subst s. exists e. destruct (He eq_refl). auto.
Qed.

Lemma same_sockets_refl sid r : same_sockets sid r r.
Proof. intros e ?. eauto. Qed.

Lemma same_sockets_trans sid r1 r2 r3 : same_sockets sid r1 r2 -> same_sockets sid r2 r3 -> same_sockets sid r1 r3.
Proof.
  intros H1 H2 e3 He3. destruct (H2 e3 He3) as (e2&He2&A2&B2).
  destruct (H1 e2 He2) as (e1&He1&A1&B1). exists e1. split_and!; congruence.
Qed.

Lemma same_sockets_cleanup sid s r : same_sockets sid r (cleanupSessionLocked s r).
Proof. intros e'. rewrite cleanup_lookup. case_decide; [done|]. eauto. Qed.

Lemma same_sockets_bind b sid cred conn now s r res r' :
  reg_inv r -> s <> sid -> bind b s cred conn now r = (res, r') -> same_sockets sid r r'.
Proof.
  intros Hi Hne Hb. destruct b; simpl in Hb.
  - destruct (BindBrowser_spec _ _ _ _ _ _ _ Hi Hb) as [_ [(?&_&->)|(e&Hs&_&Hcore)]];
      [apply same_sockets_refl|].
    apply bind_core_spec in Hcore as (_&_&Hm&_&_); [| |done].
    + by eapply (same_sockets_update sid s e).
    + by apply set_spent_inv.
  - destruct (BindAgent_spec _ _ _ _ _ _ _ Hi Hb) as [_ [(?&_&->)|(e&Hs&_&Hcore)]];
      [apply same_sockets_refl|].
    apply bind_core_spec in Hcore as (_&_&Hm&_&_); [|done..]. by eapply (same_sockets_update sid s e).
Qed.

Lemma same_sockets_run sid ops r :
  reg_inv r -> Forall (fun op => keeps_sid sid op /\ ~ binds sid op) ops ->
  same_sockets sid r (reg_run ops r).
Proof.
  revert r. induction ops as [|op ops IH]; intros r Hi Hf; [apply same_sockets_refl|].
  apply Forall_cons_1 in Hf as [[Hk Hb] Hf]. eapply same_sockets_trans; [|apply IH; [by apply reg_step_inv|done]].
  destruct op as [s|s jti conn now|s aid conn now|s|s n|s|s|now]; simpl in *.
  - specialize (Hk s eq_refl). intros e'. unfold CreatePendingSession. simpl.
    rewrite lookup_insert_ne by done. eauto.
  - destruct (BindBrowserSocket s jti conn now r) as [res r'] eqn:Hr.
    by apply (same_sockets_bind true sid jti conn now s r res r').
  - destruct (BindAgentSocket s aid conn now r) as [res r'] eqn:Hr.
    by apply (same_sockets_bind false sid aid conn now s r res r').
  - apply same_sockets_cleanup.
  - unfold AddForwardedBytes. destruct (sessions r !! s) as [e|] eqn:Hs; [|apply same_sockets_refl].
    by eapply (same_sockets_update sid s e (with_bytes (int64 (forwardedBytes e + n)) e)).
  - apply same_sockets_cleanup.
  - unfold CloseSession. destruct (sessions r !! s); [apply same_sockets_cleanup|apply same_sockets_refl].
  - apply (CleanupExpired_ind (same_sockets sid r)); [|apply same_sockets_refl].
    intros s r' Hk'. eapply same_sockets_trans; [exact Hk'|apply same_sockets_cleanup].
Qed.

(** What a successful bind reports and stores. *)
Lemma bind_spec b sid cred conn now r o st r' :
  reg_inv r -> bind b sid cred conn now r = (Ok (o, st), r') ->
  reg_inv r' /\ exists e e', sessions r !! sid = Some e /\ sessions r' !! sid = Some e'
    /\ o = other b e /\ st = (if other b e is Some _ then StateActive else waiting b)
    /\ other b e' = other b e /\ other (negb b) e' = Some conn.
Proof.
  intros Hi Hb.
  assert (exists e r0, reg_inv r0 /\ sessions r !! sid = Some e /\ sessions r0 = sessions r
          /\ bind_core b sid conn e r0 = (Ok (o, st), r')) as (e&r0&Hi0&Hs&Hm0&Hcore).
  { destruct b; simpl in Hb.
    - destruct (BindBrowser_spec _ _ _ _ _ _ _ Hi Hb) as [_ [(?&[=]&_)|(e&Hs&_&Hcore)]].
      exists e, (set_spent (<[cred := now]> (spentJTI r)) r).
      split; [|split_and!; [done|done|exact Hcore]]. by apply set_spent_inv.
    - destruct (BindAgent_spec _ _ _ _ _ _ _ Hi Hb) as [_ [(?&[=]&_)|(e&Hs&_&Hcore)]].
      by exists e, r. }
  rewrite <- Hm0 in Hs.
  destruct (bind_core_spec b sid conn e r0 _ _ Hi0 Hs Hcore) as (Hi'&Hpost&Hm&_).
  split; [done|]. exists e, (if other b e is Some _ then with_active (mine b conn e) else mine b conn e).
  rewrite <- Hm0. rewrite Hm, lookup_insert_eq. unfold bind_post in Hpost.
  destruct (other b e) as [s|] eqn:Ho; destruct Hpost as [[= -> ->] _];
    split_and!; try done; destruct b; simpl in *; done.
Qed.

(** A relay session pairs its two sockets, and exactly one of
    the two handlers runs the proxy: the side that binds first is told to
    wait; the side that binds second is told the session is active and gets
    the first side's socket; and the first side, once released, gets the
    second side's socket, unless the session was removed meanwhile. *)
Theorem relay_pairing w ops1 b sid cred1 conn1 now1 o1 st1 r1 ops2 cred2 conn2 now2 o2 st2 r3 ops3 :
  let r := reg_run ops1 (NewRegistry w) in
  (forall e, sessions r !! sid = Some e -> other b e = None) ->
  bind b sid cred1 conn1 now1 r = (Ok (o1, st1), r1) ->
  Forall (fun op => keeps_sid sid op /\ ~ binds sid op) ops2 ->
  bind (negb b) sid cred2 conn2 now2 (reg_run ops2 r1) = (Ok (o2, st2), r3) ->
  Forall (fun op => keeps_sid sid op /\ ~ binds sid op) ops3 ->
  (o1, st1) = (None, waiting b) /\ (o2, st2) = (Some conn1, StateActive)
  /\ (wait_ready (other b) sid (reg_run ops3 r3) = Ok (Some conn2)
      \/ wait_ready (other b) sid (reg_run ops3 r3) = Err ErrUnknownSID).
Proof.
  intros r Hnone Hb1 H2 Hb2 H3. pose proof (reg_run_inv ops1 _ (NewRegistry_inv w)) as Hi. fold r in Hi.
  destruct (bind_spec _ _ _ _ _ _ _ _ _ Hi Hb1) as (Hi1&e&e1&Hs&Hs1&->&->&Ho1&Hm1).
  rewrite (Hnone e Hs) in *. split; [done|].
  pose proof (same_sockets_run sid ops2 r1 Hi1 H2) as Hk2.
  pose proof (reg_run_inv ops2 r1 Hi1) as Hi2.
  destruct (bind_spec _ _ _ _ _ _ _ _ _ Hi2 Hb2) as (Hi3&e2&e3&Hs2&Hs3&->&->&Ho3&Hm3).
  destruct (Hk2 e2 Hs2) as (e1'&He1'&EA&EB). simplify_eq.
  rewrite negb_involutive in Hm3.
  assert (other (negb b) e2 = Some conn1) as Ho2 by (destruct b; simpl in *; congruence).
  rewrite Ho2. split; [done|].
  pose proof (same_sockets_run sid ops3 r3 Hi3 H3) as Hk3. unfold wait_ready.
  destruct (sessions (reg_run ops3 r3) !! sid) as [e4|] eqn:Hs4; [left|by right].
  destruct (Hk3 e4 Hs4) as (e3'&He3'&EA3&EB3). simplify_eq.
  destruct b; simpl in *; congruence.
Qed.

Definition paired_registry : Registry := snd (BindAgentSocket "s1" "agent" 7 10 (reg_run [RCreate (demo_session "s1" "j1")] (NewRegistry 30))).
Lemma relay_pairing_witness :
  (None, StatePendingAgent) = (@None socket, waiting false)
  /\ (Some 7%nat, StateActive) = (Some 7%nat, StateActive)
  /\ (wait_ready browserSocket "s1" (reg_run [RAddBytes "s1" 9] (snd (BindBrowserSocket "s1" "j1" 8 20 paired_registry)))
      = Ok (Some 8%nat)
      \/ wait_ready browserSocket "s1" (reg_run [RAddBytes "s1" 9] (snd (BindBrowserSocket "s1" "j1" 8 20 paired_registry)))
         = Err ErrUnknownSID).
Proof.
  apply (relay_pairing 30 [RCreate (demo_session "s1" "j1")] false "s1" "agent" 7%nat 10 None StatePendingAgent
           paired_registry [] "j1" 8%nat 20 (Some 7%nat) StateActive _ [RAddBytes "s1" 9]).
  - intros e. vm_compute. intros [= <-]. reflexivity.
  - vm_compute. reflexivity.
  - constructor.
  - vm_compute. reflexivity.
  - apply Forall_cons. split; [split; [intros s [=]|intros []]|constructor].
Defined.

(** * Accounting *)

(** Bytes added to the session by the operations. *)
Definition bytes_added (sid : string) (ops : list reg_op) : Z :=
  foldr (fun op a => match op with
                     | RAddBytes s n => if decide (s = sid) then n + a else a
                     | _ => a
                     end) 0 ops.

Lemma int64_id z : - 2 ^ 63 <= z < 2 ^ 63 -> int64 z = z.
Proof. intros. unfold int64. rewrite Z.mod_small; lia. Qed.

Lemma int64_int64 a b : int64 (int64 a + b) = int64 (a + b).
Proof.
  unfold int64. f_equal.
  replace ((a + 2 ^ 63) mod 2 ^ 64 - 2 ^ 63 + b + 2 ^ 63) with ((a + 2 ^ 63) mod 2 ^ 64 + b) by lia.
  rewrite Zplus_mod_idemp_l. f_equal. lia.
Qed.

Definition counted (sid : string) (total : Z) (r : Registry) : Prop :=
  forall e, sessions r !! sid = Some e -> forwardedBytes e = int64 total.

Lemma counted_update sid s e e' total r r' :
  sessions r !! s = Some e -> sessions r' = <[s := e']> (sessions r) ->
  forwardedBytes e' = forwardedBytes e -> counted sid total r -> counted sid total r'.
Proof.
  intros Hs Hm He Hc x. rewrite Hm, lookup_insert. case_decide; [|apply Hc].
  intros [= <-]. subst s. rewrite He. by apply Hc.
Qed.

Lemma counted_cleanup sid s total r : counted sid total r -> counted sid total (cleanupSessionLocked s r).
Proof. intros Hc e. rewrite cleanup_lookup. case_decide; [done|apply Hc]. Qed.

Lemma counted_run sid ops total r :
  reg_inv r -> Forall (keeps_sid sid) ops -> counted sid total r ->
  counted sid (total + bytes_added sid ops) (reg_run ops r).
Proof.
  revert r total. induction ops as [|op ops IH]; intros r total Hi Hf Hc; simpl.
  { by rewrite Z.add_0_r. }
  apply Forall_cons_1 in Hf as [Hk Hf].
  replace (total + _) with ((total + match op with
    | RAddBytes s n => if decide (s = sid) then n else 0 | _ => 0 end) + bytes_added sid ops)
    by (destruct op; try case_decide; unfold bytes_added; lia).
  apply IH; [by apply reg_step_inv|done|].
  destruct op as [s|s jti conn now|s aid conn now|s|s n|s|s|now]; simpl; rewrite ?Z.add_0_r.
  - specialize (Hk s eq_refl). intros e. unfold CreatePendingSession. simpl.
    rewrite lookup_insert_ne by done. apply Hc.
  - destruct (BindBrowserSocket s jti conn now r) as [res r'] eqn:Hr.
    destruct (BindBrowser_spec _ _ _ _ _ _ _ Hi Hr) as [_ [(?&_&->)|(e&Hs&_&Hcore)]]; [done|].
    apply bind_core_spec in Hcore as (_&_&Hm&_&_); [| |done].
    + eapply (counted_update sid s e); [exact Hs|exact Hm| |done]. by destruct (other true e).
    + by apply set_spent_inv.
  - destruct (BindAgentSocket s aid conn now r) as [res r'] eqn:Hr.
    destruct (BindAgent_spec _ _ _ _ _ _ _ Hi Hr) as [_ [(?&_&->)|(e&Hs&_&Hcore)]]; [done|].
    apply bind_core_spec in Hcore as (_&_&Hm&_&_); [|done..].
    eapply (counted_update sid s e); [exact Hs|exact Hm| |done]. by destruct (other false e).
  - by apply counted_cleanup.
  - unfold AddForwardedBytes. destruct (sessions r !! s) as [e|] eqn:Hs.
    + intros x. simpl. rewrite lookup_insert. case_decide as Heq.
      * intros [= <-]. simpl. subst s.
        rewrite (Hc e Hs). apply int64_int64.
      * rewrite Z.add_0_r. apply Hc.
    + case_decide; [subst|by rewrite Z.add_0_r]. intros x Hx. congruence.
  - by apply counted_cleanup.
  - unfold CloseSession. destruct (sessions r !! s); [by apply counted_cleanup|done].
  - apply (CleanupExpired_ind (counted sid total)); [|done]. intros. by apply counted_cleanup.
Qed.

(** Bytes are billed once: after a session is created, a
    close reports its account with the sum of the bytes the forwarder added
    meanwhile (an [int64], exact while it fits), and any later close reports
    an unknown session until one of that id is created again. *)
Theorem bytes_billed_once w ops0 p ops1 acct n r2 ops2 :
  let r1 := reg_run ops1 (CreatePendingSession p (reg_run ops0 (NewRegistry w))) in
  Forall (keeps_sid (SID p)) ops1 -> Forall (keeps_sid (SID p)) ops2 ->
  CloseSession (SID p) r1 = (Ok (acct, n), r2) ->
  acct = AccountID p /\ n = int64 (bytes_added (SID p) ops1)
  /\ CloseSession (SID p) (reg_run ops2 r2) = (Err ErrUnknownSID, reg_run ops2 r2).
Proof.
  intros r1 H1 H2 Hc. pose proof (reg_run_inv ops0 _ (NewRegistry_inv w)) as Hi0.
  pose proof (CreatePending_inv p _ Hi0) as Hi.
  assert (counted (SID p) (0 + bytes_added (SID p) ops1) r1) as Hct.
  { apply counted_run; [done..|]. intros e. unfold CreatePendingSession. simpl.
    rewrite lookup_insert_eq. by intros [= <-]. }
  destruct (entry_kept_run (SID p) ops1 _ Hi H1) as [Hback _ _]. fold r1 in Hback.
  pose proof (reg_run_inv ops1 _ Hi) as Hi1. fold r1 in Hi1.
  unfold CloseSession in Hc. destruct (sessions r1 !! SID p) as [e|] eqn:He; [|done].
  injection Hc as <- <- Hr2. destruct (Hback e eq_refl) as (e0&He0&Es&_).
  revert He0. unfold CreatePendingSession. simpl. rewrite lookup_insert_eq. intros [= <-].
  rewrite Es. split; [done|]. split; [by apply Hct|].
  assert (sessions r2 !! SID p = None) as Hnone
    by (rewrite <- Hr2, cleanup_lookup; by rewrite decide_True).
  assert (reg_inv r2) as Hi2 by (subst r2; by apply cleanup_inv).
  unfold CloseSession. destruct (sessions (reg_run ops2 r2) !! SID p) as [e3|] eqn:H3; [|done].
  destruct (entry_kept_run (SID p) ops2 r2 Hi2 H2) as [Hb2 _ _].
  destruct (Hb2 e3 H3) as (?&?&_). congruence.
Qed.

Definition billed_registry : Registry :=
  reg_run [RAddBytes "s1" 40; RAddBytes "s2" 9; RAddBytes "s1" 2]
    (CreatePendingSession (demo_session "s1" "j1") (reg_run demo_ops (NewRegistry 30))).
Lemma bytes_billed_once_witness :
  AccountID (demo_session "s1" "j1") = AccountID (demo_session "s1" "j1")
  /\ 42 = int64 (bytes_added "s1" [RAddBytes "s1" 40; RAddBytes "s2" 9; RAddBytes "s1" 2])
  /\ CloseSession "s1" (reg_run [RCleanup 100] (snd (CloseSession "s1" billed_registry)))
     = (Err ErrUnknownSID, reg_run [RCleanup 100] (snd (CloseSession "s1" billed_registry))).
Proof.
  apply (bytes_billed_once 30 demo_ops (demo_session "s1" "j1")
           [RAddBytes "s1" 40; RAddBytes "s2" 9; RAddBytes "s1" 2]).
  - repeat (apply Forall_cons; split; [intros s [=]|]). constructor.
  - repeat (apply Forall_cons; split; [intros s [=]|]). constructor.
  - vm_compute. reflexivity.
Defined.
