(* ===== verification/Conc.v ===== *)
(** Goroutines over a shared world: the programs the concurrent handlers are
    written in.  A program is a sequence of atomic actions (a critical section,
    a database call, one read or write of a socket); an action returns the list
    of its possible outcomes, empty while it blocks.  A system runs a pool of
    programs, interleaved with the environment and with new programs.
    A rely-guarantee logic with invariants proves what holds in every
    interleaving. *)

From S2P Require Import Prelude.

Section proc.
Context {W : Type}.

Inductive proc (A : Type) : Type :=
| Done (a : A)
| Act {B : Type} (f : W -> list (B * W)) (k : B -> proc A)
| Spawn (p : proc unit) (k : proc A)
| Iter {S B : Type} (s : S) (body : S -> proc (S + B)) (k : B -> proc A).
Arguments Done {A} a.
Arguments Act {A B} f k.
Arguments Spawn {A} p k.
Arguments Iter {A S B} s body k.

Fixpoint pbind {A B} (p : proc A) (g : A -> proc B) : proc B :=
  match p with
  | Done a => g a
  | Act f k => Act f (fun b => pbind (k b) g)
  | Spawn q k => Spawn q (pbind k g)
  | Iter s body k => Iter s body (fun b => pbind (k b) g)
  end.

(** One step: the rest of the program, the world and the programs it started. *)
Definition pstep {A} (p : proc A) (w : W) (p' : proc A) (w' : W) (ts : list (proc unit)) : Prop :=
  match p with
  | Done _ => False
  | Act f k => exists b, (b, w') ∈ f w /\ p' = k b /\ ts = []
  | Spawn q k => w' = w /\ p' = k /\ ts = [q]
  | Iter s body k => w' = w /\ ts = [] /\
      p' = pbind (body s) (fun r => match r with inl s' => Iter s' body k | inr b => k b end)
  end.

(** ** The system *)

Abbreviation config := (list (proc unit) * W)%type.

Section system.
Context (accept : proc unit -> W -> Prop) (env : W -> W -> Prop).

Inductive sys_step : config -> config -> Prop :=
| sys_thread i ps p p' w w' ts :
    ps !! i = Some p -> pstep p w p' w' ts -> sys_step (ps, w) (<[i := p']> ps ++ ts, w')
| sys_accept ps p w : accept p w -> sys_step (ps, w) (ps ++ [p], w)
| sys_env ps w w' : env w w' -> sys_step (ps, w) (ps, w').
End system.

(** ** Rely-guarantee with an invariant *)

Section logic.
Context (R G : W -> W -> Prop) (Inv : W -> Prop).

(** From [w], whatever the others do ([R]) while they keep [Inv], every action
    keeps [Inv] and satisfies [G], and the result satisfies [Q]. *)
Fixpoint wp {A} (p : proc A) (Q : A -> W -> Prop) (w : W) : Prop :=
  match p with
  | Done a => forall w1, R w w1 -> Q a w1
  | Act f k => forall w1, R w w1 -> Inv w1 -> forall b w2, (b, w2) ∈ f w1 ->
      Inv w2 /\ G w1 w2 /\ wp (k b) Q w2
  | Spawn q k => forall w1, R w w1 -> wp q (fun _ _ => True) w1 /\ wp k Q w1
  | Iter s body k => exists J : _ -> W -> Prop, (forall w1, R w w1 -> J s w1) /\
      forall s' w1, J s' w1 ->
        wp (body s') (fun r w2 => match r with inl s'' => J s'' w2 | inr b => wp (k b) Q w2 end) w1
  end.

Context `{HR : !PreOrder R}.

Lemma wp_rely {A} (p : proc A) Q w w' : R w w' -> wp p Q w -> wp p Q w'.
Proof.
  intros HRw. destruct p; simpl.
  - intros H w1 Hw. apply H. by etransitivity.
  - intros H w1 Hw. apply H. by etransitivity.
  - intros H w1 Hw. apply H. by etransitivity.
  - intros (J&HJ&Hb). exists J. split; [|done]. intros w1 Hw. apply HJ. by etransitivity.
Qed.

Lemma wp_mono {A} (p : proc A) (Q Q' : A -> W -> Prop) w :
  (forall a w, Q a w -> Q' a w) -> wp p Q w -> wp p Q' w.
Proof.
  revert Q Q' w. induction p as [A a|A B f k IH|A q IHq k IH|A S B s body IHb k IH]; simpl; intros Q Q' w HQ.
  - auto.
  - intros H w1 Hw Hi b w2 Hin. destruct (H w1 Hw Hi b w2 Hin) as (?&?&?). split_and!; eauto.
  - intros H w1 Hw. destruct (H w1 Hw) as [? ?]. eauto.
  - intros (J&HJ&Hb). exists J. split; [done|]. intros s' w1 Hs. eapply IHb; [|by apply Hb].
    intros [s''|b] w2; [done|]. by apply IH.
Qed.

Lemma wp_bind {A B} (p : proc A) (g : A -> proc B) Q w :
  wp p (fun a w' => wp (g a) Q w') w -> wp (pbind p g) Q w.
Proof.
  revert w. induction p as [A a|A C f k IH|A q IHq k IH|A S C s body IHb k IH]; simpl; intros w H.
  - apply H. reflexivity.
  - intros w1 Hw Hi b w2 Hin. destruct (H w1 Hw Hi b w2 Hin) as (?&?&?). split_and!; eauto.
  - intros w1 Hw. destruct (H w1 Hw) as [? ?]. eauto.
  - destruct H as (J&HJ&Hb). exists J. split; [done|]. intros s' w1 Hs.
    eapply wp_mono; [|by apply Hb]. intros [s''|b] w2; [done|]. by apply IH.
Qed.

Lemma wp_step {A} (p p' : proc A) w w' ts Q :
  (forall w1 w2, G w1 w2 -> R w1 w2) -> Inv w -> wp p Q w -> pstep p w p' w' ts ->
  Inv w' /\ (w' = w \/ G w w') /\ wp p' Q w' /\ Forall (fun q => wp q (fun _ _ => True) w') ts.
Proof.
  intros HGR Hi Hp Hs. destruct p as [a|B f k|q k|S B s body k]; simpl in *; [done|..].
  - destruct Hs as (b&Hin&->&->). destruct (Hp w (reflexivity w) Hi b w' Hin) as (?&?&?).
    split_and!; auto.
  - destruct Hs as (->&->&->). destruct (Hp w (reflexivity w)) as [? ?].
    split_and!; auto. 
  - destruct Hs as (->&->&->). destruct Hp as (J&HJ&Hb). split_and!; [done|by left| |constructor].
    apply wp_bind. eapply wp_mono; [|apply Hb, HJ; reflexivity].
    intros [s'|b] w2; [|done]. intros Hs'. simpl.
    exists (fun s1 w1 => exists w0, R w0 w1 /\ J s1 w0). split; [eauto|].
    intros s1 w1 (w0&HRw&HJ1). eapply wp_rely; [exact HRw|]. eapply wp_mono; [|by apply Hb].
    intros [s2|b] w3; [|done]. intros ?. exists w3. split; [reflexivity|done].
Qed.

(** The result also knows that the world only moved within the rely. *)
Lemma wp_since {A} (p : proc A) Q w0 w :
  (forall w1 w2, G w1 w2 -> R w1 w2) -> R w0 w -> wp p Q w -> wp p (fun a w' => R w0 w' /\ Q a w') w.
Proof.
  intros HGR. revert Q w0 w. induction p as [A a|A B f k IH|A q IHq k IH|A S B s body IHb k IH]; simpl; intros Q w0 w H0.
  - intros H w1 Hw. split; [by etransitivity|auto].
  - intros H w1 Hw Hi b w2 Hin. destruct (H w1 Hw Hi b w2 Hin) as (?&?&?). split_and!; [done..|].
    apply IH; [|done]. etransitivity; [exact H0|]. etransitivity; [exact Hw|]. by apply HGR.
  - intros H w1 Hw. destruct (H w1 Hw) as [? ?]. split; [done|]. apply IH; [by etransitivity|done].
  - intros (J&HJ&Hb). exists (fun s1 w1 => R w0 w1 /\ J s1 w1).
    split; [intros w1 Hw; split; [by etransitivity|auto]|]. intros s' w1 [Hw1 Hs].
    eapply wp_mono; [|eapply (IHb s'), Hb, Hs; exact Hw1].
    intros [s''|b] w2 [HR2 H2]; [done|]. by apply IH.
Qed.

(** Every reachable configuration keeps the invariant, and everything that
    happened since the start is within the rely. *)
Definition sys_ok (c : config) : Prop :=
  Inv c.2 /\ Forall (fun p => wp p (fun _ _ => True) c.2) c.1.

Context (accept : proc unit -> W -> Prop) (env : W -> W -> Prop).
Hypothesis G_rely : forall w1 w2, G w1 w2 -> R w1 w2.
Hypothesis env_ok : forall w w', Inv w -> env w w' -> Inv w' /\ R w w'.
Hypothesis accept_ok : forall p w, Inv w -> accept p w -> wp p (fun _ _ => True) w.

Lemma sys_step_ok c c' : sys_ok c -> sys_step accept env c c' -> sys_ok c' /\ R c.2 c'.2.
Proof.
  intros [Hi Hps] Hstep. inversion Hstep as [i ps p p' w w' ts Hl Hp|ps p w Ha|ps w w' He]; subst; simpl in *.
  - pose proof (Forall_lookup_1 _ _ _ _ Hps Hl) as Hwp.
    destruct (wp_step p p' w w' ts _ G_rely Hi Hwp Hp) as (Hi'&Hg&Hwp'&Hts).
    assert (R w w') as HRw by (destruct Hg as [->|?]; [reflexivity|auto]).
    split; [|done]. split; [done|]. apply Forall_app. split; [|done].
    apply Forall_insert; [|done]. eapply Forall_impl; [exact Hps|]. intros q Hq.
    by eapply wp_rely.
  - split; [|reflexivity]. split; [done|]. apply Forall_app. split; [done|]. constructor; [|done].
    by apply accept_ok.
  - destruct (env_ok w w' Hi He) as [Hi' HRw]. split; [|done]. split; [done|].
    simpl. eapply Forall_impl; [exact Hps|]. intros q Hq. by eapply wp_rely.
Qed.

Lemma sys_reach_ok c c' : sys_ok c -> rtc (sys_step accept env) c c' -> sys_ok c' /\ R c.2 c'.2.
Proof.
  intros Hc Hr. induction Hr as [c|c c1 c2 Hs Hr IH]; [split; [done|reflexivity]|].
  destruct (sys_step_ok c c1 Hc Hs) as [H1 HR1]. destruct (IH H1) as [H2 HR2].
  split; [done|]. by etransitivity.
Qed.
End logic.

(** ** Running alone: total correctness *)

(** Undisturbed, the program returns (it never blocks, loops or forks) and
    every result satisfies [Q]. *)
Fixpoint returns {A} (p : proc A) (Q : A -> W -> Prop) (w : W) : Prop :=
  match p with
  | Done a => Q a w
  | Act f k => f w <> [] /\ forall b w2, (b, w2) ∈ f w -> returns (k b) Q w2
  | Spawn _ _ => False
  | Iter _ _ _ => False
  end.

Lemma returns_mono {A} (p : proc A) (Q Q' : A -> W -> Prop) w :
  (forall a w', Q a w' -> Q' a w') -> returns p Q w -> returns p Q' w.
Proof.
  revert Q Q' w. induction p as [A a|A B f k IH|A q IHq k IH|A S B s body IHb k IH]; simpl; intros Q Q' w HQ;
    [apply HQ| |done|done].
  intros [Hne H]. split; [done|]. intros b w2 Hin. eapply IH; [exact HQ|by apply H].
Qed.

Lemma returns_bind {A B} (p : proc A) (g : A -> proc B) Q w :
  returns p (fun a w' => returns (g a) Q w') w -> returns (pbind p g) Q w.
Proof.
  revert w. induction p as [A a|A C f k IH|A q IHq k IH|A S C s body IHb k IH]; simpl; intros w; [done| |done|done].
  intros [Hne H]. split; [done|]. intros b w2 Hin. by apply IH, H.
Qed.

(** Undisturbed, the program can return with a result that satisfies [Q]. *)
Fixpoint may {A} (p : proc A) (Q : A -> W -> Prop) (w : W) : Prop :=
  match p with
  | Done a => Q a w
  | Act f k => exists b w2, (b, w2) ∈ f w /\ may (k b) Q w2
  | Spawn _ _ => False
  | Iter _ _ _ => False
  end.

Lemma may_mono {A} (p : proc A) (Q Q' : A -> W -> Prop) w :
  (forall a w', Q a w' -> Q' a w') -> may p Q w -> may p Q' w.
Proof.
  revert Q Q' w. induction p as [A a|A B f k IH|A q IHq k IH|A S B s body IHb k IH]; simpl; intros Q Q' w HQ;
    [apply HQ| |done|done].
  intros (b&w2&Hin&Hm). exists b, w2. split; [done|]. by eapply IH.
Qed.

Lemma may_bind {A B} (p : proc A) (g : A -> proc B) Q w :
  may p (fun a w' => may (g a) Q w') w -> may (pbind p g) Q w.
Proof.
  revert w. induction p as [A a|A C f k IH|A q IHq k IH|A S C s body IHb k IH]; simpl; intros w; [done| |done|done].
  intros (b&w2&Hin&Hm). exists b, w2. split; [done|]. by apply IH.
Qed.

(** ** Executable runs, for concrete schedules *)

(** The next move: step thread [i] taking outcome [c], or an environment step. *)
Inductive move : Type := Run (i c : nat) | Env (f : W -> W) | Accept (p : proc unit).

Definition pstep_fn {A} (c : nat) (p : proc A) (w : W) : option (proc A * W * list (proc unit)) :=
  match p with
  | Done _ => None
  | Act f k => '(b, w') ← f w !! c; Some (k b, w', [])
  | Spawn q k => Some (k, w, [q])
  | Iter s body k =>
      Some (pbind (body s) (fun r => match r with inl s' => Iter s' body k | inr b => k b end), w, [])
  end.

(** Running alone, always with the first outcome. *)
Fixpoint run_alone {A} (n : nat) (p : proc A) (w : W) : option (A * W) :=
  match n with
  | O => None
  | S n' =>
      match p with
      | Done a => Some (a, w)
      | _ => match pstep_fn 0 p w with Some (p', w', []) => run_alone n' p' w' | _ => None end
      end
  end.

Lemma run_alone_returns {A} n (p : proc A) (Q : A -> W -> Prop) w a w' :
  returns p Q w -> run_alone n p w = Some (a, w') -> Q a w'.
Proof.
  revert p w. induction n as [|n IH]; intros p w Hp Hr; [done|].
  destruct p as [b|B f k|q k|S B s body k]; simpl in *; [congruence| |done..].
  destruct Hp as [_ Hp]. destruct (f w) as [|[b w1] l] eqn:Hf; [done|]. simpl in Hr.
  eapply IH; [|exact Hr]. apply Hp. rewrite ?Hf. constructor.
Qed.

Definition run_move (m : move) (c : config) : option config :=
  match m with
  | Run i ch =>
      p ← c.1 !! i; '(p', w', ts) ← pstep_fn ch p c.2; Some (<[i := p']> c.1 ++ ts, w')
  | Env f => Some (c.1, f c.2)
  | Accept p => Some (c.1 ++ [p], c.2)
  end.

Definition run_moves (ms : list move) (c : config) : option config :=
  foldl (fun oc m => c ← oc; run_move m c) (Some c) ms.

Lemma pstep_fn_ok {A} c (p p' : proc A) w w' ts : pstep_fn c p w = Some (p', w', ts) -> pstep p w p' w' ts.
Proof.
  destruct p as [a|B f k|q k|S B s body k]; simpl; [done| |by intros [= <- <- <-]..].
  destruct (f w !! c) as [[b w1]|] eqn:Hf; simpl; [|done]. intros [= <- <- <-].
  exists b. split_and!; [by eapply list_elem_of_lookup_2|done..].
Qed.

Definition move_ok (accept : proc unit -> W -> Prop) (env : W -> W -> Prop) (m : move) : Prop :=
  match m with
  | Run _ _ => True
  | Env f => forall w, env w (f w)
  | Accept p => forall w, accept p w
  end.

Lemma run_moves_none ms : foldl (fun oc m => c ← oc; run_move m c) None ms = None.
Proof. by induction ms. Qed.

Lemma run_moves_reach accept env ms c c' :
  Forall (move_ok accept env) ms -> run_moves ms c = Some c' -> rtc (sys_step accept env) c c'.
Proof.
  unfold run_moves. revert c. induction ms as [|m ms IH]; intros c Hf; simpl.
  { intros [= <-]. reflexivity. }
  apply Forall_cons_1 in Hf as [Hm Hf]. destruct (run_move m c) as [c1|] eqn:Hr; [|by rewrite run_moves_none].
  intros Hrun. eapply rtc_l; [|by apply IH]. destruct c as [ps w].
  destruct m as [i ch|f|p]; simpl in *.
  - destruct (ps !! i) as [p|] eqn:Hp; simpl in Hr; [|done].
    destruct (pstep_fn ch p w) as [[[p' w'] ts]|] eqn:Hs; simpl in Hr; [|done].
    injection Hr as <-. eapply sys_thread; [exact Hp|]. by eapply pstep_fn_ok.
  - injection Hr as <-. by apply sys_env.
  - injection Hr as <-. by apply sys_accept.
Qed.
End proc.

Arguments proc W A : clear implicits.
Arguments Done {W A} a.
Arguments Act {W A B} f k.
Arguments Spawn {W A} p k.
Arguments Iter {W A S B} s body k.
Arguments move W : clear implicits.

Arguments wp : simpl never.
Arguments returns : simpl never.
Arguments may : simpl never.
Arguments pbind : simpl never.

#[export] Instance proc_ret {W} : MRet (proc W) := fun A a => Done a.
#[export] Instance proc_bind {W} : MBind (proc W) := fun A B k p => pbind p k.

(** ** Common actions *)

(** A critical section that always runs: one outcome. *)
Definition atomic {W B} (f : W -> B * W) : proc W B := Act (fun w => [f w]) Done.
Definition reads {W B} (f : W -> B) : proc W B := Act (fun w => [(f w, w)]) Done.
Definition modifies {W} (f : W -> W) : proc W unit := Act (fun w => [(tt, f w)]) Done.
(** An action with several outcomes, or that blocks. *)
Definition choices {W B} (f : W -> list (B * W)) : proc W B := Act f Done.

(** [defer d]: [d] runs when the body returns. *)
Definition with_defer {W A} (d : proc W unit) (body : proc W A) : proc W A :=
  a ← body; _ ← d; mret a.

Section actions.
Context {W : Type} (R G : W -> W -> Prop) (Inv : W -> Prop) `{HR : !PreOrder R}.

Lemma wp_choices {B} (f : W -> list (B * W)) (Q : B -> W -> Prop) w :
  (forall w1, R w w1 -> Inv w1 -> forall b w2, (b, w2) ∈ f w1 ->
     Inv w2 /\ G w1 w2 /\ forall w3, R w2 w3 -> Q b w3) -> wp R G Inv (choices f) Q w.
Proof. done. Qed.

Lemma wp_atomic {B} (f : W -> B * W) (Q : B -> W -> Prop) w :
  (forall w1 b w2, R w w1 -> Inv w1 -> f w1 = (b, w2) ->
     Inv w2 /\ G w1 w2 /\ forall w3, R w2 w3 -> Q b w3) -> wp R G Inv (atomic f) Q w.
Proof.
  intros H w1 Hw Hi b w2 Hin. apply list_elem_of_singleton in Hin. eauto.
Qed.

Lemma wp_reads {B} (f : W -> B) (Q : B -> W -> Prop) w :
  (forall w1, R w w1 -> Inv w1 -> G w1 w1 /\ forall w3, R w1 w3 -> Q (f w1) w3) ->
  wp R G Inv (reads f) Q w.
Proof.
  intros H w1 Hw Hi b w2 Hin. apply list_elem_of_singleton in Hin. simplify_eq.
  destruct (H w1 Hw Hi). auto.
Qed.

Lemma wp_modifies (f : W -> W) (Q : unit -> W -> Prop) w :
  (forall w1, R w w1 -> Inv w1 -> Inv (f w1) /\ G w1 (f w1) /\ forall w3, R (f w1) w3 -> Q tt w3) ->
  wp R G Inv (modifies f) Q w.
Proof.
  intros H w1 Hw Hi b w2 Hin. apply list_elem_of_singleton in Hin. simplify_eq. by apply H.
Qed.

Lemma wp_mbind {A B} (p : proc W A) (g : A -> proc W B) Q w :
  wp R G Inv p (fun a w' => wp R G Inv (g a) Q w') w -> wp R G Inv (p ≫= g) Q w.
Proof. by apply wp_bind. Qed.

Lemma wp_mret {A} (a : A) (Q : A -> W -> Prop) w :
  (forall w1, R w w1 -> Q a w1) -> wp R G Inv (mret a) Q w.
Proof. done. Qed.
End actions.

(** The common actions, alone. *)
Section returns_actions.
Context {W : Type}.

Lemma can_bind {A B} (p : proc W A) (g : A -> proc W B) Q w :
  may p (fun a w' => may (g a) Q w') w -> may (p ≫= g) Q w.
Proof. apply may_bind. Qed.
Lemma can_ret {A} (a : A) (Q : A -> W -> Prop) w : Q a w -> may (mret a) Q w.
Proof. done. Qed.
Lemma can_choices {B} (f : W -> list (B * W)) (Q : B -> W -> Prop) w b w2 :
  (b, w2) ∈ f w -> Q b w2 -> may (choices f) Q w.
Proof. intros Hin HQ. by exists b, w2. Qed.
Lemma can_atomic {B} (f : W -> B * W) (Q : B -> W -> Prop) w : Q (f w).1 (f w).2 -> may (atomic f) Q w.
Proof. intros HQ. eapply can_choices; [|exact HQ]. destruct (f w). by apply list_elem_of_singleton. Qed.
Lemma can_reads {B} (f : W -> B) (Q : B -> W -> Prop) w : Q (f w) w -> may (reads f) Q w.
Proof. intros HQ. eapply can_choices; [|exact HQ]. by apply list_elem_of_singleton. Qed.
Lemma can_modifies (f : W -> W) (Q : unit -> W -> Prop) w : Q tt (f w) -> may (modifies f) Q w.
Proof. intros HQ. eapply can_choices; [|exact HQ]. by apply list_elem_of_singleton. Qed.

Lemma tot_bind {A B} (p : proc W A) (g : A -> proc W B) Q w :
  returns p (fun a w' => returns (g a) Q w') w -> returns (p ≫= g) Q w.
Proof. apply returns_bind. Qed.

Lemma tot_ret {A} (a : A) (Q : A -> W -> Prop) w : Q a w -> returns (mret a) Q w.
Proof. done. Qed.

Lemma tot_atomic {B} (f : W -> B * W) (Q : B -> W -> Prop) w : Q (f w).1 (f w).2 -> returns (atomic f) Q w.
Proof.
  intros HQ. split; [done|]. intros b w2 Hin. apply list_elem_of_singleton in Hin.
  rewrite <- Hin in HQ. done.
Qed.

Lemma tot_reads {B} (f : W -> B) (Q : B -> W -> Prop) w : Q (f w) w -> returns (reads f) Q w.
Proof. intros HQ. split; [done|]. intros b w2 Hin. apply list_elem_of_singleton in Hin. by simplify_eq. Qed.

Lemma tot_modifies (f : W -> W) (Q : unit -> W -> Prop) w : Q tt (f w) -> returns (modifies f) Q w.
Proof. intros HQ. split; [done|]. intros b w2 Hin. apply list_elem_of_singleton in Hin. by simplify_eq. Qed.

Lemma tot_choices {B} (f : W -> list (B * W)) (Q : B -> W -> Prop) w :
  f w <> [] -> (forall b w2, (b, w2) ∈ f w -> Q b w2) -> returns (choices f) Q w.
Proof. done. Qed.
End returns_actions.
