(* ===== verification/Json.v ===== *)
(** JSON values as the handlers build and decode them, and the small pieces of
    Go's standard library the server shares: hexadecimal text, whole seconds
    and the zero time. *)

From Stdlib Require Import Ascii.
From S2P Require Import Prelude.
#[local] Open Scope Z_scope.

#[local] Set Warnings "-register-all".
Inductive json : Type :=
| JNull
| JBool (b : bool)
| JNum (z : Z)
| JStr (s : string)
| JArr (l : list json)
| JObj (kvs : list (string * json)).

Abbreviation obj := (list (string * json)).

(** * Field names: encoding/json matches them without regard to case *)

Definition ascii_lower (c : ascii) : ascii :=
  let n := nat_of_ascii c in
  if (65 <=? n)%nat && (n <=? 90)%nat then ascii_of_nat (n + 32) else c.

Fixpoint lower (s : string) : string :=
  match s with
  | EmptyString => EmptyString
  | String c s' => String (ascii_lower c) (lower s')
  end.

Definition same_name (a b : string) : bool := bool_decide (lower a = lower b).

(** Decoding one field of an object: every entry with the field's name is
    decoded in order over the value so far; a value of another type is an
    error.  [null] leaves a value as it is and makes a pointer nil. *)
Definition field_with {A} (null : A -> A) (dec : json -> option A) (name : string) (zero : A) (o : obj) : option A :=
  foldl (fun acc kv =>
           a ← acc;
           if same_name (fst kv) name
           then match snd kv with JNull => Some (null a) | v => dec v end
           else Some a) (Some zero) o.
Definition field {A} : (json -> option A) -> string -> A -> obj -> option A := field_with id.
Definition field_ptr {A} (dec : json -> option A) (name : string) : obj -> option (option A) :=
  field_with (const None) (fun v => Some <$> dec v) name None.

Definition dec_str (v : json) : option string := match v with JStr s => Some s | _ => None end.
Definition dec_bool (v : json) : option bool := match v with JBool b => Some b | _ => None end.
Definition dec_num (v : json) : option Z := match v with JNum z => Some z | _ => None end.
(** An [int] on a 64-bit machine, or an [int64]. *)
Definition dec_int64 (v : json) : option Z :=
  match v with JNum z => if (- 2 ^ 63 <=? z) && (z <? 2 ^ 63) then Some z else None | _ => None end.
Definition int_ok (z : Z) : Prop := - 2 ^ 63 <= z < 2 ^ 63.
Lemma dec_int64_ok z : int_ok z -> dec_int64 (JNum z) = Some z.
Proof. intros [H1 H2]. simpl. by rewrite (proj2 (Z.leb_le _ _)), (proj2 (Z.ltb_lt _ _)) by done. Qed.

(** * encoding/hex *)

Definition hex_digit (n : Z) : ascii :=
  ascii_of_nat (Z.to_nat (if n <? 10 then 48 + n else 87 + n)).

Fixpoint hex_encode (l : bytes) : string :=
  match l with
  | [] => EmptyString
  | b :: l' => String (hex_digit (byte_val b / 16)) (String (hex_digit (byte_val b mod 16)) (hex_encode l'))
  end.

Lemma hex_digit_inj x y : 0 <= x < 16 -> 0 <= y < 16 -> hex_digit x = hex_digit y -> x = y.
Proof.
  intros Hx Hy Heq. unfold hex_digit in Heq. apply (f_equal nat_of_ascii) in Heq.
  rewrite !nat_ascii_embedding in Heq by (repeat case_match; lia).
  destruct (Z.ltb_spec x 10), (Z.ltb_spec y 10); lia.
Qed.

Lemma hex_encode_inj l1 l2 : hex_encode l1 = hex_encode l2 -> l1 = l2.
Proof.
  revert l2. induction l1 as [|a l1 IH]; intros [|b l2]; simpl; try done.
  intros [= H1 H2 H3]. pose proof (byte_val_range a). pose proof (byte_val_range b).
  apply hex_digit_inj in H1; [|apply Z.div_lt_upper_bound || (split; [apply Z.div_pos|apply Z.div_lt_upper_bound]); lia..].
  apply hex_digit_inj in H2; [|apply Z.mod_pos_bound; lia..].
  f_equal; [|by apply IH]. apply byte_val_inj.
  rewrite (Z.div_mod (byte_val a) 16), (Z.div_mod (byte_val b) 16) by lia. congruence.
Qed.

(** * Times, in nanoseconds of the Unix epoch *)

Definition Second : Z := 1000000000.
(** [time.Time{}]: January 1 of year 1. *)
Definition zero_time : Z := -62135596800 * Second.
Definition IsZero (t : Z) : bool := t =? zero_time.
Definition trunc_second (t : Z) : Z := t - t mod Second.

Lemma trunc_second_spec t : trunc_second t <= t < trunc_second t + Second.
Proof. unfold trunc_second, Second. pose proof (Z.mod_pos_bound t 1000000000 ltac:(lia)). lia. Qed.

(** * JSON values are countable *)

Section json_ind.
Context (P : json -> Prop).
Hypothesis Hnull : P JNull.
Hypothesis Hbool : forall b, P (JBool b).
Hypothesis Hnum : forall z, P (JNum z).
Hypothesis Hstr : forall s, P (JStr s).
Hypothesis Harr : forall l, Forall P l -> P (JArr l).
Hypothesis Hobj : forall o, Forall (fun kv => P (snd kv)) o -> P (JObj o).

Fixpoint json_nested_ind (j : json) : P j :=
  match j with
  | JNull => Hnull
  | JBool b => Hbool b
  | JNum z => Hnum z
  | JStr s => Hstr s
  | JArr l => Harr l ((fix go l : Forall P l := match l with
                        | [] => @List.Forall_nil _ _
                        | x :: l' => @List.Forall_cons _ _ x l' (json_nested_ind x) (go l')
                        end) l)
  | JObj o => Hobj o ((fix go o : Forall (fun kv => P (snd kv)) o := match o with
                        | [] => @List.Forall_nil _ _
                        | kv :: o' => @List.Forall_cons _ _ kv o' (json_nested_ind (snd kv)) (go o')
                        end) o)
  end.
End json_ind.

Abbreviation json_leaf := (bool + Z + string)%type.

Fixpoint json_tree (j : json) : gen_tree json_leaf :=
  match j with
  | JNull => GenNode 0 []
  | JBool b => GenLeaf (inl (inl b))
  | JNum z => GenLeaf (inl (inr z))
  | JStr s => GenLeaf (inr s)
  | JArr l => GenNode 1 (map json_tree l)
  | JObj o => GenNode 2 (map (fun kv => GenNode 3 [GenLeaf (inr (fst kv)); json_tree (snd kv)]) o)
  end.

Fixpoint tree_json (t : gen_tree json_leaf) : json :=
  match t with
  | GenLeaf (inl (inl b)) => JBool b
  | GenLeaf (inl (inr z)) => JNum z
  | GenLeaf (inr s) => JStr s
  | GenNode 1 l => JArr (map tree_json l)
  | GenNode 2 l => JObj (map (fun t => match t with
                                       | GenNode _ [GenLeaf (inr s); v] => (s, tree_json v)
                                       | _ => (EmptyString, JNull)
                                       end) l)
  | GenNode _ _ => JNull
  end.

Lemma tree_json_tree j : tree_json (json_tree j) = j.
Proof.
  induction j as [|b|z|s|l IH|o IH] using json_nested_ind; simpl; try done; f_equal; rewrite map_map.
  - induction IH; simpl; f_equal; done.
  - induction IH as [|[k v] o Hv _ IHo]; simpl in *; f_equal; [by rewrite Hv|done].
Qed.

#[export] Instance json_eq_dec : EqDecision json.
Proof.
  refine (fun a b => cast_if (decide (json_tree a = json_tree b)));
    [by rewrite <- (tree_json_tree a), <- (tree_json_tree b), e|by intros ->].
Defined.
#[export] Instance json_countable : Countable json := inj_countable' json_tree tree_json tree_json_tree.
