(* ===== verification/GoUrl.v ===== *)
(** Go's net/url as the agent uses it: [Parse], with the scheme, the host and the
    path it finds; escapes; references resolved against a base; and path
    escapes that are put in.  IP literals are not looked into. *)

From Stdlib Require Import Ascii.
From S2P Require Import Prelude GoText Json.
#[local] Open Scope Z_scope.

(** * Escapes *)

(** [url.PathUnescape] of a valid escape. *)
Fixpoint unescape (s : string) : string :=
  match s with
  | String "%" (String a (String b t)) =>
      match hex_value a, hex_value b with
      | Some x, Some y => String (ascii_of_nat (Z.to_nat (16 * x + y))) (unescape t)
      | _, _ => String "%" (String a (String b (unescape t)))
      end
  | String c t => String c (unescape t)
  | EmptyString => EmptyString
  end.

(** What [url.Parse] accepts: every [%] is followed by two hexadecimal digits. *)
Fixpoint escaped (s : string) : bool :=
  match s with
  | String "%" (String a (String b t)) => bool_decide (is_Some (hex_value a)) && bool_decide (is_Some (hex_value b)) && escaped t
  | String "%" _ => false
  | String _ t => escaped t
  | EmptyString => true
  end.

(** Upper-case digits, as the escapes are written. *)
Definition upper_digit (n : Z) : ascii := ascii_of_nat (Z.to_nat (if n <? 10 then 48 + n else 55 + n)).
(** What [url.PathEscape] leaves. *)
Definition unreserved (c : ascii) : bool :=
  is_letter c || is_digit c || one_of ["-"; "_"; "."; "~"; "$"; "&"; "+"; "="; ":"; "@"]%char c.
Definition escape_but (keep : ascii -> bool) : string -> string :=
  str_map (fun c => if keep c then String c ""
                    else String "%" (String (upper_digit (code c / 16)) (String (upper_digit (code c mod 16)) ""))).
Definition PathEscape : string -> string := escape_but unreserved.
(** A path as [URL.EscapedPath] writes it. *)
Definition escape_path : string -> string := escape_but (fun c => unreserved c || one_of ["/"; ";"; ","]%char c).
(** [url.PathUnescape]: of an escape that is wrong, nothing and an error. *)
Definition PathUnescape (s : string) : string := if escaped s then unescape s else ""%string.

(** * URLs *)

(** The path is as it was written, the query as its pairs. *)
Record URL := mkURL { u_scheme : string; u_host : string; u_path : string; u_query : string; u_params : list (string * string) }.

(** [strings.Cut] at a character. *)
Fixpoint cut (c : ascii) (s : string) : string * option string :=
  match s with
  | EmptyString => (EmptyString, None)
  | String d t => if bool_decide (c = d) then (EmptyString, Some t) else let '(a, b) := cut c t in (String d a, b)
  end.
(** What is after the last occurrence, and whether there is one. *)
Fixpoint after_last (c : ascii) (s : string) : option string :=
  match s with
  | EmptyString => None
  | String d t => match after_last c t with Some x => Some x | None => if bool_decide (c = d) then Some t else None end
  end.

(** The scheme, and what follows its colon. *)
Fixpoint scheme_from (start : bool) (s : string) : result (option (string * string)) string :=
  match s with
  | EmptyString => Ok None
  | String c t =>
      if is_letter c || (negb start && (is_digit c || one_of ["+"; "-"; "."]%char c)) then
        match scheme_from false t with Ok (Some (a, b)) => Ok (Some (String c a, b)) | r => r end
      else if bool_decide (c = ":"%char) then
        if start then Err "missing protocol scheme"%string else Ok (Some (EmptyString, t))
      else Ok None
  end.

Definition host_char (c : ascii) : bool :=
  is_letter c || is_digit c || (128 <=? code c)
  || one_of ["-"; "_"; "."; "~"; "!"; "$"; "&"; "'"; "("; ")"; "*"; "+"; ","; ";"; "="; ":"; "["; "]"; "<"; ">"; "034"]%char c.
Definition userinfo_char (c : ascii) : bool :=
  is_letter c || is_digit c
  || one_of ["-"; "."; "_"; ":"; "~"; "!"; "$"; "&"; "'"; "("; ")"; "*"; "+"; ","; ";"; "="; "%"; "@"]%char c.
Definition optional_port (s : string) : bool := str_all is_digit s.
(** The bytes of a host: an escape is of a byte beyond ASCII, or of [%] itself. *)
Fixpoint host_ok (s : string) : bool :=
  match s with
  | String "%" (String a (String b t)) =>
      match hex_value a, hex_value b with
      | Some x, Some y => ((8 <=? x) || ((x =? 2) && (y =? 5))) && host_ok t
      | _, _ => false
      end
  | String c t => host_char c && host_ok t
  | EmptyString => true
  end.
Definition unescape_host (s : string) : result string string :=
  if host_ok s then Ok (unescape s) else Err "invalid character in host name"%string.
(** A host and its port: what is after the last colon, or the bracket, is a port. *)
Definition parse_host (s : string) : result string string :=
  match after_last "[" s with
  | Some _ =>
      match after_last "]" s with
      | None => Err "missing ']' in host"%string
      | Some p => if bool_decide (p = ""%string) || (has_prefix ":" p && optional_port (str_drop 1 p))
                  then unescape_host s else Err "invalid port after host"%string
      end
  | None =>
      if negb (optional_port (default ""%string (after_last ":" s))) then Err "invalid port after host"%string
      else unescape_host s
  end.
Definition parse_authority (s : string) : result string string :=
  match after_last "@" s with
  | None => parse_host s
  | Some h =>
      match parse_host h with
      | Err e => Err e
      | Ok host => if str_all userinfo_char (String.substring 0 (String.length s - String.length h - 1) s)
                   then Ok host else Err "net/url: invalid userinfo"%string
      end
  end.

Definition control_char (c : ascii) : bool := (code c <? 32) || (code c =? 127).
Fixpoint has_control (s : string) : bool := match s with EmptyString => false | String c t => control_char c || has_control t end.

Definition with_path (scheme host path query : string) : result URL string :=
  if escaped path then Ok (mkURL scheme host path query []) else Err "invalid URL escape"%string.

(** [url.Parse]; an opaque URL has neither host nor path. *)
Definition url_Parse (raw : string) : result URL string :=
  let s := (cut "#" raw).1 in
  if has_control s then Err "net/url: invalid control character in URL"%string
  else if bool_decide (s = "*"%string) then Ok (mkURL "" "" "*" "" [])
  else
    match scheme_from true s with
    | Err e => Err e
    | Ok o =>
        let '(scheme, rest) := match o with Some (a, b) => (lower a, b) | None => (""%string, s) end in
        let '(rest, query) := cut "?" rest in
        let query := default ""%string query in
        if negb (rooted rest) then
          if negb (bool_decide (scheme = ""%string)) then Ok (mkURL scheme "" "" query [])
          else if contains ":" (cut "/" rest).1 then Err "first path segment in URL cannot contain colon"%string
          else with_path scheme "" rest query
        else if has_prefix "//" rest && (negb (bool_decide (scheme = ""%string)) || negb (has_prefix "///" rest)) then
          let '(authority, path) := cut "/" (str_drop 2 rest) in
          match parse_authority authority with
          | Err e => Err e
          | Ok host => with_path scheme host (match path with Some p => String "/" p | None => ""%string end) query
          end
        else with_path scheme "" rest query
    end.

(** The elements of a path without its dots, last first; an empty one stays. *)
Fixpoint undot (acc l : list string) : list string :=
  match l with
  | [] => acc
  | e :: l' => undot (if bool_decide (e = "."%string) then acc else if bool_decide (e = ".."%string) then tail acc else e :: acc) l'
  end.
(** The path of a reference, resolved. *)
Definition resolve_path (p : string) : string :=
  let l := tail (split_slash p) in
  let kept := reverse (undot [] l) in
  let dotted := match last l with Some e => bool_decide (e = "."%string) || bool_decide (e = ".."%string) | None => false end in
  ("/" +:+ join_slash kept +:+ (if dotted && negb (bool_decide (kept = [])) then "/" else ""))%string.
(** [base.ResolveReference(&url.URL{Path: p})] for an absolute path. *)
Definition resolve (base : URL) (p : string) (params : list (string * string)) : URL :=
  mkURL (u_scheme base) (u_host base) (resolve_path p) "" params.

(** * Lemmas *)

Lemma unescape_char c t : c <> "%"%char -> unescape (String c t) = String c (unescape t).
Proof. intros Hc. destruct c as [[] [] [] [] [] [] [] []]; solve [done|by destruct Hc]. Qed.

Lemma escaped_char c t : c <> "%"%char -> escaped (String c t) = escaped t.
Proof. intros Hc. destruct c as [[] [] [] [] [] [] [] []]; solve [done|by destruct Hc]. Qed.

Lemma unescape_app s t : escaped s = true -> unescape (s +:+ t) = unescape s +:+ unescape t.
Proof.
  remember (String.length s) as n eqn:Hn. revert s Hn. induction (lt_wf n) as [n _ IH]. intros s Hn Hs.
  destruct s as [|c s]; [done|]. destruct (decide (c = "%"%char)) as [->|Hc].
  - destruct s as [|a [|b s]]; [done|done|]. simpl in Hs |- *.
    apply andb_prop in Hs as [Hab Hs]. apply andb_prop in Hab as [Ha Hb].
    apply bool_decide_eq_true_1 in Ha as [x ->]. apply bool_decide_eq_true_1 in Hb as [y ->].
    refine (f_equal (String _) (IH _ _ s eq_refl Hs)). simpl in Hn. lia.
  - rewrite escaped_char in Hs by done. change (String c s +:+ t) with (String c (s +:+ t)).
    rewrite !unescape_char by done. refine (f_equal (String _) (IH _ _ s eq_refl Hs)). simpl in Hn. lia.
Qed.

Lemma prefix_char a p s : has_prefix (String a p) s = true -> exists s', s = String a s' /\ has_prefix p s' = true.
Proof. destruct s as [|b s]; [done|]. simpl. intros [<-%bool_decide_eq_true_1 Hp]%andb_prop. by exists s. Qed.


(** ** Plain URLs *)

Definition free_of (c : ascii) (s : string) : Prop := str_all (fun d => negb (bool_decide (d = c))) s = true.

Lemma str_all_app f s t : str_all f (s +:+ t) = str_all f s && str_all f t.
Proof. induction s as [|c s IH]; [done|]. simpl. by rewrite IH, andb_assoc. Qed.

Lemma str_all_impl (f g : ascii -> bool) s : (forall c, f c = true -> g c = true) -> str_all f s = true -> str_all g s = true.
Proof. intros Hfg. induction s as [|c s IH]; [done|]. simpl. intros [Hc Hs]%andb_prop. by rewrite (Hfg c Hc), IH. Qed.

Lemma cut_app c s t : free_of c s -> cut c (s +:+ t) = (s +:+ (cut c t).1, (cut c t).2).
Proof.
  unfold free_of. induction s as [|d s IH]; simpl; [intros _; by apply surjective_pairing|].
  intros [Hd Hs]%andb_prop. apply negb_true_iff, bool_decide_eq_false_1 in Hd. rewrite bool_decide_false by congruence. by rewrite IH.
Qed.

Lemma after_last_free c s : free_of c s -> after_last c s = None.
Proof.
  unfold free_of. induction s as [|d s IH]; simpl; [done|]. intros [Hd Hs]%andb_prop. rewrite IH by done.
  apply negb_true_iff, bool_decide_eq_false_1 in Hd. by rewrite bool_decide_false by congruence.
Qed.

Lemma unescape_free s : free_of "%" s -> unescape s = s.
Proof.
  unfold free_of. induction s as [|d s IH]; [done|]. intros [Hd Hs]%andb_prop. apply negb_true_iff, bool_decide_eq_false_1 in Hd.
  rewrite unescape_char by done. by rewrite IH.
Qed.

Lemma escaped_free s : free_of "%" s -> escaped s = true.
Proof.
  unfold free_of. induction s as [|d s IH]; [done|]. intros [Hd Hs]%andb_prop. apply negb_true_iff, bool_decide_eq_false_1 in Hd.
  rewrite escaped_char by done. by apply IH.
Qed.

Lemma host_char_free c h : host_char c = false -> str_all host_char h = true -> free_of c h.
Proof.
  intros Hc. apply str_all_impl. intros d Hd. apply negb_true_iff, bool_decide_eq_false_2. intros ->. congruence.
Qed.

Lemma app_assoc_str a b c : (a +:+ b) +:+ c = a +:+ (b +:+ c).
Proof. induction a as [|x a IH]; [done|]. exact (f_equal (String x) IH). Qed.

Lemma app_nil_str a : a +:+ "" = a.
Proof. induction a as [|x a IH]; [done|]. exact (f_equal (String x) IH). Qed.

Lemma parse_host_plain h x : str_all host_char h = true -> parse_host h = Ok x -> x = h.
Proof.
  intros Hh. assert (unescape h = h) as Hu by by apply unescape_free, host_char_free.
  unfold parse_host, unescape_host. rewrite Hu. repeat case_match; congruence.
Qed.

(** An [https] URL, in its parts. *)
Lemma parse_https_parts h p : str_all host_char h = true ->
  url_Parse ("https://" +:+ h +:+ "/" +:+ p) =
  if has_control ("https://" +:+ (h +:+ String "/" (cut "#" p).1)) then Err "net/url: invalid control character in URL"%string
  else match parse_host h with
       | Err e => Err e
       | Ok _ => with_path "https" h (String "/" (cut "?" (cut "#" p).1).1) (default ""%string (cut "?" (cut "#" p).1).2)
       end.
Proof.
  intros Hh. unfold url_Parse. change ("https://" +:+ h +:+ "/" +:+ p) with ("https://" +:+ (h +:+ String "/" p)).
  assert (forall c, host_char c = false -> free_of c h) as Hf by (intros c Hc; by apply host_char_free).
  rewrite (cut_app "#") by done. cbn [fst]. rewrite (cut_app "#" h) by (apply Hf; reflexivity). cbn [cut fst].
  rewrite bool_decide_false by done. destruct (cut "#" p) as [q o]. cbn [fst]. clear o.
  destruct (has_control _); [done|]. rewrite bool_decide_false by done.
  change (scheme_from true ("https://" +:+ (h +:+ String "/" q))) with (Ok (Some ("https", "//" +:+ (h +:+ String "/" q)))%string : result (option (string * string)) string).
  cbv beta iota. rewrite (cut_app "?" "//") by done. rewrite (cut_app "?" h) by (apply Hf; reflexivity). cbn [cut fst snd].
  rewrite bool_decide_false by done. destruct (cut "?" q) as [q' o']. cbn [fst snd].
  change (rooted ("//" +:+ _)) with true. change (has_prefix "//" ("//" +:+ ?x)) with true. cbn [negb].
  change (lower "https") with "https"%string. rewrite bool_decide_false by done. cbn [negb orb andb].
  change (str_drop 2 ("//" +:+ ?x)) with x. rewrite (cut_app "/" h) by (apply Hf; reflexivity). cbn [cut fst snd].
  rewrite bool_decide_true by done. cbn [fst snd]. rewrite app_nil_str. unfold parse_authority. rewrite after_last_free by (apply Hf; reflexivity).
  destruct (parse_host h) as [host|e] eqn:Hp; [|done]. by apply parse_host_plain in Hp as ->.
Qed.

(** The host is the one written there. *)
Lemma parse_https h p u : str_all host_char h = true -> url_Parse ("https://" +:+ h +:+ "/" +:+ p) = Ok u ->
  u_scheme u = "https"%string /\ u_host u = h.
Proof.
  intros Hh. rewrite parse_https_parts by done. destruct (has_control _); [done|]. destruct (parse_host h); [|done].
  unfold with_path. destruct (escaped _); [|done]. by intros [= <-].
Qed.

(** A path without special characters is read back. *)
Definition plain_path (p : string) : Prop := free_of "#" p /\ free_of "?" p /\ free_of "%" p /\ has_control p = false.

Lemma cut_free c s : free_of c s -> cut c s = (s, None).
Proof. intros Hs. rewrite <- (app_nil_str s) at 1. rewrite cut_app by done. cbn. by rewrite app_nil_str. Qed.

Lemma has_control_app s t : has_control (s +:+ t) = has_control s || has_control t.
Proof. induction s as [|c s IH]; [done|]. change (has_control (String c s +:+ t)) with (control_char c || has_control (s +:+ t)). by rewrite IH, orb_assoc. Qed.

Lemma host_control h : str_all host_char h = true -> has_control h = false.
Proof.
  induction h as [|c h IH]; [done|]. simpl. intros [Hc Hh]%andb_prop. rewrite IH by done.
  destruct (control_char c) eqn:Hcc; [|done]. exfalso. revert Hc Hcc. clear.
  destruct c as [[] [] [] [] [] [] [] []]; vm_compute; congruence.
Qed.

Lemma parse_https_plain h p host : str_all host_char h = true -> parse_host h = Ok host -> plain_path p ->
  url_Parse ("https://" +:+ h +:+ "/" +:+ p) = Ok (mkURL "https" h (String "/" p) "" []).
Proof.
  intros Hh Hp (H1&H2&H3&H4). rewrite parse_https_parts by done. rewrite (cut_free "#") by done. cbn [fst]. rewrite (cut_free "?") by done.
  rewrite !has_control_app, (host_control h) by done. change (has_control (String "/" p)) with (has_control p). rewrite H4, Hp.
  unfold with_path. rewrite escaped_char, escaped_free by done. done.
Qed.
