(* ===== verification/Base64.v ===== *)
(** encoding/base64's [StdEncoding], with its padding. *)

From Stdlib Require Import Ascii.
From S2P Require Import Prelude.
#[local] Open Scope Z_scope.

Definition std_char (n : Z) : ascii :=
  ascii_of_nat (Z.to_nat (if n <? 26 then 65 + n else if n <? 52 then 71 + n else if n <? 62 then n - 4 else if n =? 62 then 43 else 47)).
Definition std_value (c : ascii) : option Z :=
  let n := Z.of_nat (nat_of_ascii c) in
  if (65 <=? n) && (n <=? 90) then Some (n - 65)
  else if (97 <=? n) && (n <=? 122) then Some (n - 71)
  else if (48 <=? n) && (n <=? 57) then Some (n + 4)
  else if n =? 43 then Some 62 else if n =? 47 then Some 63 else None.

(** [EncodeToString]. *)
Fixpoint std_encode (l : bytes) : string :=
  match l with
  | a :: b :: c :: l' =>
      let n := byte_val a * 65536 + byte_val b * 256 + byte_val c in
      String (std_char (n / 262144)) (String (std_char (n / 4096 mod 64))
        (String (std_char (n / 64 mod 64)) (String (std_char (n mod 64)) (std_encode l'))))
  | [a; b] =>
      let n := byte_val a * 1024 + byte_val b * 4 in
      String (std_char (n / 4096)) (String (std_char (n / 64 mod 64)) (String (std_char (n mod 64)) "="))
  | [a] => let n := byte_val a * 16 in String (std_char (n / 64)) (String (std_char (n mod 64)) "==")
  | [] => EmptyString
  end.

(** [DecodeString]: line ends are skipped, and bits that are left over. *)
Fixpoint no_newlines (s : string) : string :=
  match s with
  | EmptyString => EmptyString
  | String c t => if bool_decide (c ∈ ["010"; "013"]%char) then no_newlines t else String c (no_newlines t)
  end.
Fixpoint std_groups (s : string) : option bytes :=
  match s with
  | EmptyString => Some []
  | String a (String b (String c (String d t))) =>
      x ← std_value a; y ← std_value b;
      if bool_decide (t = EmptyString /\ c = "="%char /\ d = "="%char) then Some [byte_of_Z (x * 4 + y / 16)]
      else
        z ← std_value c;
        if bool_decide (t = EmptyString /\ d = "="%char) then Some [byte_of_Z (x * 4 + y / 16); byte_of_Z (y mod 16 * 16 + z / 4)]
        else
          u ← std_value d; l ← std_groups t;
          Some (byte_of_Z (x * 4 + y / 16) :: byte_of_Z (y mod 16 * 16 + z / 4) :: byte_of_Z (z mod 4 * 64 + u) :: l)
  | _ => None
  end.
Definition std_decode (s : string) : option bytes := std_groups (no_newlines s).

Definition sextets : list Z := map Z.of_nat (seq 0 64).
Lemma std_value_char n : 0 <= n < 64 -> std_value (std_char n) = Some n.
Proof.
  intros Hn. assert (forallb (fun n => bool_decide (std_value (std_char n) = Some n)) sextets = true) as Ha by (vm_compute; reflexivity).
  apply (bool_decide_eq_true_1 _), (proj1 (forallb_forall _ _) Ha). apply in_map_iff. exists (Z.to_nat n). split; [lia|]. apply in_seq. lia.
Qed.
Lemma std_char_plain n : 0 <= n < 64 -> std_char n <> "="%char /\ bool_decide (std_char n ∈ ["010"; "013"]%char) = false.
Proof.
  intros Hn. apply std_value_char in Hn. split; [intros H; rewrite H in Hn; discriminate Hn|].
  apply bool_decide_eq_false_2. intros [H|[H|[]%not_elem_of_nil]%elem_of_cons]%elem_of_cons; rewrite H in Hn; discriminate Hn.
Qed.

Lemma no_newlines_char n t : 0 <= n < 64 -> no_newlines (String (std_char n) t) = String (std_char n) (no_newlines t).
Proof. intros Hn. cbn [no_newlines]. by rewrite (proj2 (std_char_plain n Hn)). Qed.

(** A group of four sextets. *)
Lemma std_groups_full x y z u t l : 0 <= x < 64 -> 0 <= y < 64 -> 0 <= z < 64 -> 0 <= u < 64 -> std_groups t = Some l ->
  std_groups (String (std_char x) (String (std_char y) (String (std_char z) (String (std_char u) t)))) =
  Some (byte_of_Z (x * 4 + y / 16) :: byte_of_Z (y mod 16 * 16 + z / 4) :: byte_of_Z (z mod 4 * 64 + u) :: l).
Proof.
  intros Hx Hy Hz Hu Ht. pose proof (proj1 (std_char_plain u Hu)). cbn [std_groups]. rewrite !std_value_char by done. cbn [mbind option_bind].
  rewrite !bool_decide_false by naive_solver. by rewrite Ht.
Qed.

Lemma byte_again b n : n = byte_val b -> byte_of_Z n = b.
Proof. intros ->. apply byte_of_Z_val. Qed.

Lemma std_decode_encode l : std_decode (std_encode l) = Some l.
Proof.
  unfold std_decode. remember (length l) as k eqn:Hk. revert l Hk. induction (lt_wf k) as [k _ IH]. intros l Hk.
  destruct l as [|a [|b [|c l]]]; [done| | |]; cbn [std_encode]; pose proof (byte_val_range a) as Ha.
  - rewrite !no_newlines_char by (Z.div_mod_to_equations; lia). cbn. rewrite !std_value_char by (Z.div_mod_to_equations; lia). cbn.
    do 2 f_equal. apply byte_again. Z.div_mod_to_equations; lia.
  - pose proof (byte_val_range b) as Hb.
    assert (0 <= (byte_val a * 1024 + byte_val b * 4) mod 64 < 64) as Hz by (apply Z.mod_pos_bound; lia).
    rewrite !no_newlines_char by (Z.div_mod_to_equations; lia). pose proof (proj1 (std_char_plain _ Hz)).
    cbn [no_newlines std_groups]. rewrite !std_value_char by (Z.div_mod_to_equations; lia). cbn -[std_char Z.modulo Z.div].
    rewrite (bool_decide_false ("="%char ∈ _)) by (set_solver). cbn -[std_char Z.modulo Z.div].
    rewrite (bool_decide_false (_ /\ std_char _ = _ /\ _)) by naive_solver. rewrite bool_decide_true by done.
    do 2 f_equal; [|f_equal]; apply byte_again; Z.div_mod_to_equations; lia.
  - pose proof (byte_val_range b) as Hb. pose proof (byte_val_range c) as Hc.
    rewrite !no_newlines_char by (Z.div_mod_to_equations; lia).
    rewrite (std_groups_full _ _ _ _ _ l); [|Z.div_mod_to_equations; lia..|eapply IH; [|done]; rewrite Hk; simpl; lia].
    do 2 f_equal; [|f_equal; [|f_equal]]; apply byte_again; Z.div_mod_to_equations; lia.
Qed.
