(* ===== verification/Http.v ===== *)
(** Go's HTTP client as the agent uses it: requests, answers, and the redirects
    it follows.  A program over the network is given the requests sent so far
    and returns those sent after it; [None] is a program that has not returned
    within its fuel.  The server is any function of the requests it has had.
    Referers are left out. *)

From Stdlib Require Import Ascii.
From S2P Require Import Prelude GoText Json GoUrl.
#[local] Open Scope Z_scope.

Inductive payload := NoBody | TextBody (s : string) | FormBody (l : list (string * string)) | JSONBody (j : json).
Record http_request := mkReq {
  rq_method : string; rq_url : URL; rq_headers : list (string * string); rq_body : payload }.

(** An answer: its status, as a number and as text, the [Location] it gives,
    resolved, the length it announces, the document its body is, and the body as
    it is copied. *)
Record http_response {D : Type} := mkResp {
  rs_status : Z; rs_text : string; rs_location : option (result URL string); rs_length : Z; rs_doc : D;
  rs_data : list bytes * option string }.
Arguments http_response : clear implicits.

(** [http.NewRequest]: a host loses the colon of an empty port. *)
Definition removeEmptyPort (host : string) : string := if has_suffix ":" host then TrimSuffix host ":" else host.
Definition request_to (method : string) (u : URL) (headers : list (string * string)) (body : payload) : http_request :=
  mkReq method (mkURL (u_scheme u) (removeEmptyPort (u_host u)) (u_path u) (u_query u) (u_params u)) headers body.
Definition NewRequest (method raw : string) (headers : list (string * string)) (body : payload) : result http_request string :=
  match url_Parse raw with Err e => Err e | Ok u => Ok (request_to method u headers body) end.

(** * Programs over the network *)

Abbreviation requests := (list http_request).
Definition net (A : Type) : Type := requests -> option (A * requests).
#[export] Instance net_ret : MRet net := fun A a l => Some (a, l).
#[export] Instance net_bind : MBind net := fun A B f p l => match p l with Some (a, l') => f a l' | None => None end.

(** The requests sent all satisfy [P], whatever the program's fuel. *)
Definition sends {A} (P : http_request -> Prop) (p : net A) (Q : A -> Prop) : Prop :=
  forall l a l', p l = Some (a, l') -> Q a /\ exists new, l' = l ++ new /\ Forall P new.
(** The program returns, with at most [n] requests. *)
Definition within {A} (n : nat) (p : net A) (Q : A -> Prop) : Prop :=
  forall l, exists a new, p l = Some (a, l ++ new) /\ (length new <= n)%nat /\ Q a.

Section client.
Context {D : Type} (server : requests -> http_request -> result (http_response D) string).

Definition send_request (rq : http_request) : net (result (http_response D) string) :=
  fun l => Some (server l rq, l ++ [rq]).

(** ** Redirects *)

(** The method of the next request, and whether the body goes with it. *)
Definition redirect_of (status : Z) (method : string) : option (string * bool) :=
  if bool_decide (status ∈ [301; 302; 303]) then
    Some (if bool_decide (method ∈ ["GET"; "HEAD"]%string) then method else "GET"%string, false)
  else if bool_decide (status ∈ [307; 308]) then Some (method, true) else None.

Definition hostname (host : string) : string := if contains "[" host then host else (cut ":" host).1.
(** The credentials go to the first host and its subdomains. *)
Definition same_site (first u : URL) : bool :=
  bool_decide (hostname (u_host u) = hostname (u_host first)) || has_suffix ("." +:+ hostname (u_host first)) (hostname (u_host u)).
Definition sensitive : list string := ["Authorization"; "Www-Authenticate"; "Cookie"; "Cookie2"]%string.
Definition of_body : list string := ["Content-Encoding"; "Content-Language"; "Content-Location"; "Content-Type"]%string.

Definition redirected (first : http_request) (method : string) (u : URL) (strip body : bool) : http_request :=
  mkReq method u
    (filter (fun h => (strip = true -> h.1 ∉ sensitive) /\ (body = false -> h.1 ∉ of_body)) (rq_headers first))
    (if body then rq_body first else NoBody).

(** [Client.Do]: [check] is [CheckRedirect], given how many requests were sent. *)
Fixpoint follow (fuel : nat) (check : nat -> URL -> option string) (first : http_request) (strip body : bool) (sent : nat)
    (rq : http_request) : net (result (http_response D) string) :=
  match fuel with
  | O => fun _ => None
  | S fuel' =>
      r ← send_request rq;
      match r with
      | Err e => mret (Err e)
      | Ok resp =>
          match redirect_of (rs_status resp) (rq_method rq), rs_location resp with
          | Some (method, keeps), Some (Ok u) =>
              let strip := strip || negb (same_site (rq_url first) u) in
              let body := body && keeps in
              match check (S sent) u with
              | Some e => mret (Err e)
              | None => follow fuel' check first strip body (S sent) (redirected first method u strip body)
              end
          | Some _, Some (Err e) => mret (Err ("failed to parse Location header: " +:+ e)%string)
          | _, _ => mret (Ok resp)
          end
      end
  end.
Definition Do (fuel : nat) (check : nat -> URL -> option string) (rq : http_request) : net (result (http_response D) string) :=
  follow fuel check rq false true 0 rq.

(** The default [CheckRedirect]. *)
Definition ten_redirects (sent : nat) (_ : URL) : option string :=
  if (10 <=? sent)%nat then Some "stopped after 10 redirects"%string else None.

(** ** What is sent *)

Lemma sends_ret {A} P (a : A) (Q : A -> Prop) : Q a -> sends P (mret a) Q.
Proof. intros HQ l b l' [= <- <-]. split; [done|]. exists []. by rewrite app_nil_r. Qed.

Lemma sends_bind {A B} P (p : net A) (f : A -> net B) (Q : A -> Prop) Q' :
  sends P p Q -> (forall a, Q a -> sends P (f a) Q') -> sends P (p ≫= f) Q'.
Proof.
  intros Hp Hf l b l' Hb. unfold mbind, net_bind in Hb. destruct (p l) as [[a l1]|] eqn:Ha; [|done].
  destruct (Hp l a l1 Ha) as (HQ&n1&->&H1). destruct (Hf a HQ _ b l' Hb) as (HQ'&n2&->&H2).
  split; [done|]. exists (n1 ++ n2). rewrite app_assoc. by split; [|apply Forall_app].
Qed.

Lemma sends_mono {A} (P P' : http_request -> Prop) (p : net A) (Q Q' : A -> Prop) :
  (forall rq, P rq -> P' rq) -> (forall a, Q a -> Q' a) -> sends P p Q -> sends P' p Q'.
Proof.
  intros HP HQ Hp l a l' Ha. destruct (Hp l a l' Ha) as (Hq&n&->&Hn). split; [by apply HQ|]. exists n.
  split; [done|]. by eapply Forall_impl.
Qed.

Lemma sends_request (P : http_request -> Prop) rq : P rq -> sends P (send_request rq) (fun _ => True).
Proof. intros HP l a l' [= <- <-]. split; [done|]. exists [rq]. by split; [|apply Forall_singleton]. Qed.

(** The redirects the policy lets through; credentials only go on to the first
    site. *)
Lemma sends_follow (P : http_request -> Prop) fuel check first strip body sent rq :
  P rq ->
  (forall n u method strip body, check n u = None -> (strip = false -> same_site (rq_url first) u = true) ->
     P (redirected first method u strip body)) ->
  sends P (follow fuel check first strip body sent rq) (fun _ => True).
Proof.
  intros Hrq Hcheck. revert strip body sent rq Hrq. induction fuel as [|fuel IH]; intros strip body sent rq Hrq; [done|].
  cbn [follow]. eapply sends_bind; [by apply sends_request|]. intros [resp|e] _; [|by apply sends_ret].
  destruct (redirect_of _ _) as [[method keeps]|]; [|by apply sends_ret].
  destruct (rs_location resp) as [[u|e]|]; [|by apply sends_ret..].
  destruct (check (S sent) u) as [e|] eqn:Hc; [by apply sends_ret|]. eapply IH, Hcheck; [exact Hc|].
  intros [_ Hsite%negb_false_iff]%orb_false_elim. done.
Qed.

Lemma sends_Do (P : http_request -> Prop) fuel check rq :
  P rq ->
  (forall n u method strip body, check n u = None -> (strip = false -> same_site (rq_url rq) u = true) ->
     P (redirected rq method u strip body)) ->
  sends P (Do fuel check rq) (fun _ => True).
Proof. apply sends_follow. Qed.

(** ** How many *)

Lemma within_ret {A} n (a : A) (Q : A -> Prop) : Q a -> within n (mret a) Q.
Proof. intros HQ l. exists a, []. rewrite app_nil_r. split_and!; [done|simpl; lia|done]. Qed.

Lemma within_bind {A B} n m (p : net A) (f : A -> net B) (Q : A -> Prop) Q' :
  within n p Q -> (forall a, Q a -> within m (f a) Q') -> within (n + m) (p ≫= f) Q'.
Proof.
  intros Hp Hf l. destruct (Hp l) as (a&n1&Ha&Hn1&HQ). destruct (Hf a HQ (l ++ n1)) as (b&n2&Hb&Hn2&HQ').
  exists b, (n1 ++ n2). unfold mbind, net_bind. rewrite Ha, Hb, app_assoc, length_app. split_and!; [done|lia|done].
Qed.

Lemma within_mono {A} n m (p : net A) (Q Q' : A -> Prop) :
  (n <= m)%nat -> (forall a, Q a -> Q' a) -> within n p Q -> within m p Q'.
Proof. intros Hn HQ Hp l. destruct (Hp l) as (a&l1&Ha&Hl&Hq). exists a, l1. split_and!; [done|lia|by apply HQ]. Qed.

Lemma within_request rq : within 1 (send_request rq) (fun _ => True).
Proof. intros l. by exists (server l rq), [rq]. Qed.

(** Ten requests at most, with the default policy. *)
Lemma within_follow fuel first strip body sent rq :
  (fuel + sent = 10)%nat -> (0 < fuel)%nat -> within fuel (follow fuel ten_redirects first strip body sent rq) (fun _ => True).
Proof.
  revert strip body sent rq. induction fuel as [|fuel IH]; intros strip body sent rq Hf Hpos; [lia|]. cbn [follow].
  change (S fuel) with (1 + fuel)%nat. eapply within_bind; [apply within_request|]. intros [resp|e] _; [|by apply within_ret].
  destruct (redirect_of _ _) as [[method keeps]|]; [|by apply within_ret].
  destruct (rs_location resp) as [[u|e]|]; [|by apply within_ret..].
  unfold ten_redirects at 1. destruct (Nat.leb_spec 10 (S sent)); [by apply within_ret|].
  apply IH; lia.
Qed.

Lemma within_Do rq : within 10 (Do 10 ten_redirects rq) (fun _ => True).
Proof. apply within_follow; [done|lia]. Qed.

(** A call that is one request, and what is made of its answer. *)
Lemma within_call {A} rq (f : result (http_response D) string -> A) :
  within 10 (r ← Do 10 ten_redirects rq; mret (f r)) (fun _ => True).
Proof.
  change 10%nat with (10 + 0)%nat at 1. eapply within_bind; [apply within_Do|]. intros r _. by apply within_ret.
Qed.
Lemma sends_call {A} (P : http_request -> Prop) fuel check rq (f : result (http_response D) string -> A) :
  sends P (Do fuel check rq) (fun _ => True) -> sends P (r ← Do fuel check rq; mret (f r)) (fun _ => True).
Proof. intros Hp. eapply sends_bind; [exact Hp|]. intros r _. by apply sends_ret. Qed.
End client.
