(* ===== verification/Tokens.v ===== *)
(** Relay tokens (signaling-server/internal/relay/tokens.go): the browser's
    policy token and the agent's relay token, two kinds of JWT signed with one
    secret and kept apart by their [purpose] claim.  The JWT library is an
    interface with the laws the code relies on. *)

From Stdlib Require Import Ascii.
From S2P Require Import Prelude Json.
#[local] Open Scope Z_scope.

(** * github.com/golang-jwt/jwt/v5 *)

Inductive jwt_error : Type := ErrTokenInvalid | ErrTokenPurpose.

(** [jwt_sign secret claims] is [NewWithClaims(HS256, claims).SignedString],
    [jwt_parse secret token now] is [ParseWithClaims] of a parser whose time
    is [now] and whose only method is HS256, up to decoding into the claims. *)
Class JWT := {
  jwt_sign : string -> obj -> result string jwt_error;
  jwt_parse : string -> string -> Z -> result obj jwt_error }.

(** The [exp] claim, in seconds; the parser rejects a token at or after it. *)
Definition exp_of (o : obj) : option (option Z) := field_ptr dec_num "exp" o.
Definition has_nbf (o : obj) : bool := existsb (fun kv => same_name (fst kv) "nbf") o.

Class JWTLaws `{JWT} : Prop := {
  jwt_sign_ok : forall s o, is_ok (jwt_sign s o) = true;
  jwt_parse_sign : forall s o t now e,
    jwt_sign s o = Ok t -> has_nbf o = false -> exp_of o = Some (Some e) ->
    jwt_parse s t now = if now <? e * Second then Ok o else Err ErrTokenInvalid;
  jwt_parse_expires : forall s t now o e,
    jwt_parse s t now = Ok o -> exp_of o = Some (Some e) -> now < e * Second }.

(** [jwt.NewNumericDate]: whole seconds. *)
Definition NewNumericDate (t : Z) : Z := trunc_second t / Second.

(** The part of [jwt.RegisteredClaims] the code sets; a date is a pointer. *)
Record RegisteredClaims := mkRegistered { ID : string; IssuedAt : option Z; ExpiresAt : option Z }.

Definition encode_date (name : string) (d : option Z) : obj :=
  match d with None => [] | Some t => [(name, JNum t)] end.

Definition encode_registered (r : RegisteredClaims) : obj :=
  encode_date "exp" (ExpiresAt r) ++ encode_date "iat" (IssuedAt r)
  ++ (if bool_decide (ID r = ""%string) then [] else [("jti", JStr (ID r))]).

Definition decode_registered (o : obj) : option RegisteredClaims :=
  jti ← field dec_str "jti" ""%string o;
  iat ← field_ptr dec_num "iat" o;
  exp ← field_ptr dec_num "exp" o;
  Some (mkRegistered jti iat exp).

(** [signaling-server/internal/relay/tokens.go:12-12] TokenLifetime *)
Definition TokenLifetime : Z := 120 * Second.

(** [signaling-server/internal/relay/tokens.go:14-22] BrowserPolicyClaims *)
Record BrowserPolicyClaims := mkBrowserClaims {
  b_SID : string; b_SessionCode : string; b_RelayAllowed : bool; b_RelayOnly : bool;
  b_ExpectedStaticPub : string; b_Purpose : string; b_Registered : RegisteredClaims }.

(** [signaling-server/internal/relay/tokens.go:24-29] AgentRelayClaims *)
Record AgentRelayClaims := mkAgentClaims {
  a_SID : string; a_AgentID : string; a_Purpose : string; a_Registered : RegisteredClaims }.

(** The struct tags, both ways. *)
Definition encode_browser (c : BrowserPolicyClaims) : obj :=
  [("sid", JStr (b_SID c)); ("session_code", JStr (b_SessionCode c));
   ("relay_allowed", JBool (b_RelayAllowed c)); ("relay_only", JBool (b_RelayOnly c));
   ("expected_agent_static_pub", JStr (b_ExpectedStaticPub c)); ("purpose", JStr (b_Purpose c))]
  ++ encode_registered (b_Registered c).

Definition decode_browser (o : obj) : option BrowserPolicyClaims :=
  sid ← field dec_str "sid" ""%string o;
  code ← field dec_str "session_code" ""%string o;
  allowed ← field dec_bool "relay_allowed" false o;
  only ← field dec_bool "relay_only" false o;
  pub ← field dec_str "expected_agent_static_pub" ""%string o;
  purpose ← field dec_str "purpose" ""%string o;
  reg ← decode_registered o;
  Some (mkBrowserClaims sid code allowed only pub purpose reg).

Definition encode_agent (c : AgentRelayClaims) : obj :=
  [("sid", JStr (a_SID c)); ("agent_id", JStr (a_AgentID c)); ("purpose", JStr (a_Purpose c))]
  ++ encode_registered (a_Registered c).

Definition decode_agent (o : obj) : option AgentRelayClaims :=
  sid ← field dec_str "sid" ""%string o;
  agent ← field dec_str "agent_id" ""%string o;
  purpose ← field dec_str "purpose" ""%string o;
  reg ← decode_registered o;
  Some (mkAgentClaims sid agent purpose reg).

Section tokens.
Context `{JWT}.

(** The registered claims of a token issued now: its own id and dates. *)
Definition issue (jti : string) (issuedAt : Z) : RegisteredClaims :=
  mkRegistered jti (Some (NewNumericDate issuedAt)) (Some (NewNumericDate (issuedAt + TokenLifetime))).

(** [signaling-server/internal/relay/tokens.go:31-39] SignBrowserPolicyJWT *)
Definition SignBrowserPolicyJWT (secret : string) (c : BrowserPolicyClaims) (issuedAt : Z)
    : result string jwt_error :=
  let c := mkBrowserClaims (b_SID c) (b_SessionCode c) (b_RelayAllowed c) (b_RelayOnly c)
             (b_ExpectedStaticPub c) "browser_policy" (issue (ID (b_Registered c)) issuedAt) in
  jwt_sign secret (encode_browser c).

(** [signaling-server/internal/relay/tokens.go:41-54] VerifyBrowserPolicyJWT *)
Definition VerifyBrowserPolicyJWT (secret token : string) (now : Z)
    : result BrowserPolicyClaims jwt_error :=
  match jwt_parse secret token now with
  | Err e => Err e
  | Ok o =>
      match decode_browser o with
      | None => Err ErrTokenInvalid
      | Some claims =>
          if negb (bool_decide (b_Purpose claims = "browser_policy"%string))
          then Err ErrTokenPurpose else Ok claims
      end
  end.

(** [signaling-server/internal/relay/tokens.go:56-64] SignAgentRelayJWT *)
Definition SignAgentRelayJWT (secret : string) (c : AgentRelayClaims) (issuedAt : Z)
    : result string jwt_error :=
  let c := mkAgentClaims (a_SID c) (a_AgentID c) "agent_relay" (issue (ID (a_Registered c)) issuedAt) in
  jwt_sign secret (encode_agent c).

(** [signaling-server/internal/relay/tokens.go:66-79] VerifyAgentRelayJWT *)
Definition VerifyAgentRelayJWT (secret token : string) (now : Z)
    : result AgentRelayClaims jwt_error :=
  match jwt_parse secret token now with
  | Err e => Err e
  | Ok o =>
      match decode_agent o with
      | None => Err ErrTokenInvalid
      | Some claims =>
          if negb (bool_decide (a_Purpose claims = "agent_relay"%string))
          then Err ErrTokenPurpose else Ok claims
      end
  end.

(** [rand.Read] fills [buf] with 16 random bytes.
    [signaling-server/internal/relay/tokens.go:85-91] newTokenID *)
Definition newTokenID (prefix : string) (buf : bytes) : string :=
  (prefix ++ "_" ++ hex_encode buf)%string.

(** [signaling-server/internal/relay/tokens.go:81-81] NewSID *)
Definition NewSID (buf : bytes) : string := newTokenID "sid" buf.
(** [signaling-server/internal/relay/tokens.go:83-83] NewJTI *)
Definition NewJTI (buf : bytes) : string := newTokenID "jti" buf.

(** * Lemmas *)

(** The encoders leave out empty fields: one computation per shape. *)
Ltac by_shape r :=
  destruct r as [jti iat exp];
  match goal with |- context [mkRegistered ?j _ _] =>
    destruct (decide (j = EmptyString)) as [Hj|Hj]; [rewrite Hj|];
    unfold encode_browser, encode_agent, encode_registered; simpl b_Registered; simpl a_Registered;
    cbv [ID]; [rewrite bool_decide_true by done|rewrite bool_decide_false by exact Hj];
    destruct exp, iat; simpl; eauto
  end.

Lemma decode_encode_browser c : decode_browser (encode_browser c) = Some c.
Proof. destruct c as [sid code al on pub pur r]. by_shape r. Qed.

Lemma decode_encode_agent c : decode_agent (encode_agent c) = Some c.
Proof. destruct c as [sid ag pur r]. by_shape r. Qed.

(** Each kind of token read as the other keeps its purpose. *)
Lemma decode_agent_browser c :
  exists a, decode_agent (encode_browser c) = Some a /\ a_Purpose a = b_Purpose c.
Proof. destruct c as [sid code al on pub pur r]. by_shape r. Qed.

Lemma decode_browser_agent c :
  exists b, decode_browser (encode_agent c) = Some b /\ b_Purpose b = a_Purpose c.
Proof. destruct c as [sid ag pur r]. by_shape r. Qed.

Lemma exp_browser c :
  exp_of (encode_browser c) = Some (ExpiresAt (b_Registered c)) /\ has_nbf (encode_browser c) = false.
Proof. destruct c as [sid code al on pub pur r]. by_shape r. Qed.

Lemma exp_agent c :
  exp_of (encode_agent c) = Some (ExpiresAt (a_Registered c)) /\ has_nbf (encode_agent c) = false.
Proof. destruct c as [sid ag pur r]. by_shape r. Qed.

Lemma date_second t : NewNumericDate t * Second = trunc_second t.
Proof.
  unfold NewNumericDate, trunc_second, Second.
  pose proof (Z.div_mod t 1000000000 ltac:(lia)).
  replace (t - t mod 1000000000) with (t / 1000000000 * 1000000000) by lia. by rewrite Z.div_mul.
Qed.

Lemma newTokenID_inj p b1 b2 : newTokenID p b1 = newTokenID p b2 -> b1 = b2.
Proof.
  unfold newTokenID. intros Hs. apply hex_encode_inj. by repeat apply (inj (String.append _)) in Hs.
Qed.

Section laws.
Context `{!JWTLaws}.

Lemma verify_browser_signed secret c t issuedAt now :
  SignBrowserPolicyJWT secret c issuedAt = Ok t ->
  VerifyBrowserPolicyJWT secret t now
  = if now <? trunc_second (issuedAt + TokenLifetime)
    then Ok (mkBrowserClaims (b_SID c) (b_SessionCode c) (b_RelayAllowed c) (b_RelayOnly c)
               (b_ExpectedStaticPub c) "browser_policy" (issue (ID (b_Registered c)) issuedAt))
    else Err ErrTokenInvalid.
Proof.
  intros Hs. unfold VerifyBrowserPolicyJWT, SignBrowserPolicyJWT in *.
  match type of Hs with jwt_sign _ (encode_browser ?c') = _ => destruct (exp_browser c') as [He Hn] end.
  simpl in He. rewrite (jwt_parse_sign _ _ _ now _ Hs Hn He), date_second.
  destruct (_ <? _); [|done]. by rewrite decode_encode_browser.
Qed.

Lemma verify_agent_signed secret c t issuedAt now :
  SignAgentRelayJWT secret c issuedAt = Ok t ->
  VerifyAgentRelayJWT secret t now
  = if now <? trunc_second (issuedAt + TokenLifetime)
    then Ok (mkAgentClaims (a_SID c) (a_AgentID c) "agent_relay" (issue (ID (a_Registered c)) issuedAt))
    else Err ErrTokenInvalid.
Proof.
  intros Hs. unfold VerifyAgentRelayJWT, SignAgentRelayJWT in *.
  match type of Hs with jwt_sign _ (encode_agent ?c') = _ => destruct (exp_agent c') as [He Hn] end.
  simpl in He. rewrite (jwt_parse_sign _ _ _ now _ Hs Hn He), date_second.
  destruct (_ <? _); [|done]. by rewrite decode_encode_agent.
Qed.

(** The two kinds of relay token do not stand in for each other and
    live for the two minutes they were issued for: a signed token verifies as
    its own kind, with the claims it was signed for, exactly until its expiry
    (the issue time plus two minutes, in whole seconds), and never as the other
    kind. *)
Theorem relay_tokens_kept_apart secret bc ac issuedAt now tb ta :
  SignBrowserPolicyJWT secret bc issuedAt = Ok tb ->
  SignAgentRelayJWT secret ac issuedAt = Ok ta ->
  let fresh := now <? trunc_second (issuedAt + TokenLifetime) in
  VerifyBrowserPolicyJWT secret tb now
  = (if fresh then Ok (mkBrowserClaims (b_SID bc) (b_SessionCode bc) (b_RelayAllowed bc) (b_RelayOnly bc)
                         (b_ExpectedStaticPub bc) "browser_policy" (issue (ID (b_Registered bc)) issuedAt))
     else Err ErrTokenInvalid)
  /\ VerifyAgentRelayJWT secret ta now
     = (if fresh then Ok (mkAgentClaims (a_SID ac) (a_AgentID ac) "agent_relay" (issue (ID (a_Registered ac)) issuedAt))
        else Err ErrTokenInvalid)
  /\ is_ok (VerifyAgentRelayJWT secret tb now) = false
  /\ is_ok (VerifyBrowserPolicyJWT secret ta now) = false.
Proof.
  intros Hb Ha fresh. split_and!; [by apply verify_browser_signed|by apply verify_agent_signed|..].
  - unfold SignBrowserPolicyJWT, VerifyAgentRelayJWT in *.
    match type of Hb with jwt_sign _ (encode_browser ?c) = _ =>
      destruct (exp_browser c) as [He Hn]; destruct (decode_agent_browser c) as (a&Hd&Hp) end.
    simpl in He. rewrite (jwt_parse_sign _ _ _ now _ Hb Hn He). destruct (now <? NewNumericDate _ * Second); [|reflexivity].
    rewrite Hd, Hp. reflexivity.
  - unfold SignAgentRelayJWT, VerifyBrowserPolicyJWT in *.
    match type of Ha with jwt_sign _ (encode_agent ?c) = _ =>
      destruct (exp_agent c) as [He Hn]; destruct (decode_browser_agent c) as (b&Hd&Hp) end.
    simpl in He. rewrite (jwt_parse_sign _ _ _ now _ Ha Hn He). destruct (now <? NewNumericDate _ * Second); [|reflexivity].
    rewrite Hd, Hp. reflexivity.
Qed.
End laws.
End tokens.

(** * A concrete library: a token spells the secret and the claims out *)

Fixpoint pos_string (p : positive) : string :=
  match p with
  | xH => EmptyString
  | xO p => String "0"%char (pos_string p)
  | xI p => String "1"%char (pos_string p)
  end.
Fixpoint string_pos (s : string) : positive :=
  match s with
  | EmptyString => xH
  | String c s => if bool_decide (c = "0"%char) then xO (string_pos s) else xI (string_pos s)
  end.
Lemma string_pos_string p : string_pos (pos_string p) = p.
Proof.
  induction p as [p IH|p IH|]; [change (xI (string_pos (pos_string p)) = xI p)
    |change (xO (string_pos (pos_string p)) = xO p)|reflexivity]; by rewrite IH.
Qed.

Definition plain_fresh (o : obj) (now : Z) : bool :=
  match exp_of o with Some (Some e) => now <? e * Second | _ => true end.

#[export] Instance plain_jwt : JWT := {|
  jwt_sign secret o := Ok (pos_string (encode (secret, o)));
  jwt_parse secret token now :=
    match decode (string_pos token) with
    | Some (s, o) =>
        if bool_decide (s = secret) && plain_fresh o now then Ok o else Err ErrTokenInvalid
    | None => Err ErrTokenInvalid
    end |}.

#[export] Instance plain_jwt_laws : JWTLaws.
Proof.
  constructor; simpl; [done|..].
  - intros s o t now e [= <-] _ He. rewrite string_pos_string, decode_encode, bool_decide_true by done.
    unfold plain_fresh. rewrite He. simpl. done.
  - intros s t now o e. destruct (decode _) as [[s' o']|]; [|done].
    case_bool_decide; simpl; [|done].
    destruct (plain_fresh o' now) eqn:Hf; [|done]. intros [= ->] He.
    unfold plain_fresh in Hf. rewrite He in Hf. by apply Z.ltb_lt.
Qed.

Definition demo_browser_claims : BrowserPolicyClaims :=
  mkBrowserClaims "sid_1" "code1234" true false "pub" "" (mkRegistered "jti_1" None None).
Definition demo_agent_claims : AgentRelayClaims := mkAgentClaims "sid_1" "agent" "" (mkRegistered "" None None).
Definition token_of (r : result string jwt_error) : string := match r with Ok t => t | Err _ => EmptyString end.

Lemma relay_tokens_kept_apart_witness :
  let tb := token_of (SignBrowserPolicyJWT "secret" demo_browser_claims 5) in
  let ta := token_of (SignAgentRelayJWT "secret" demo_agent_claims 5) in
  let now := 119 * Second in
  let fresh := now <? trunc_second (5 + TokenLifetime) in
  VerifyBrowserPolicyJWT "secret" tb now
  = (if fresh then Ok (mkBrowserClaims "sid_1" "code1234" true false "pub" "browser_policy" (issue "jti_1" 5))
     else Err ErrTokenInvalid)
  /\ VerifyAgentRelayJWT "secret" ta now
     = (if fresh then Ok (mkAgentClaims "sid_1" "agent" "agent_relay" (issue "" 5)) else Err ErrTokenInvalid)
  /\ is_ok (VerifyAgentRelayJWT "secret" tb now) = false
  /\ is_ok (VerifyBrowserPolicyJWT "secret" ta now) = false.
Proof.
  exact (relay_tokens_kept_apart "secret" demo_browser_claims demo_agent_claims 5 (119 * Second) _ _
           eq_refl eq_refl).
Defined.
