(* ===== verification/Hub.v ===== *)
(** The signaling hub (signaling-server/internal/hub): which socket speaks for
    an API key, which key owns a share code, which browser is paired with a
    share, and the failure counts of a browser.  Each definition is one
    critical section under [h.mu]; the writes that follow are in Server.v. *)

From S2P Require Import Prelude.

(** A [*websocket.Conn]: [None] is nil. *)
Abbreviation socket := nat.
Abbreviation wsconn := (option nat).

(** [signaling-server/internal/hub/hub.go:13-17] pair *)
Record pair := mkPair { p_apiKeyID : string; p_agentConn : wsconn; p_browserConn : wsconn }.

(** [signaling-server/internal/hub/hub.go:19-23] browserOwner *)
Record browserOwner := mkOwner { o_apiKeyID : string; o_sessionID : string; o_agentConn : wsconn }.

(** [connWrites] maps a socket to its write mutex; the mutex has no contents.
    [signaling-server/internal/hub/hub.go:25-35] Hub *)
Record Hub := mkHub {
  agents : gmap string wsconn;
  codes : gmap string string;
  pairs : gmap string pair;
  connBrowsers : gmap string wsconn;
  browserOwners : gmap string browserOwner;
  connFails : gmap string Z;
  connImmichFails : gmap string Z;
  connWrites : gset socket }.

(** [signaling-server/internal/hub/hub.go:37-48] New *)
Definition New : Hub := mkHub ∅ ∅ ∅ ∅ ∅ ∅ ∅ ∅.

Definition set_agents x h := mkHub x (codes h) (pairs h) (connBrowsers h) (browserOwners h)
  (connFails h) (connImmichFails h) (connWrites h).
Definition set_codes x h := mkHub (agents h) x (pairs h) (connBrowsers h) (browserOwners h)
  (connFails h) (connImmichFails h) (connWrites h).
Definition set_pairs x h := mkHub (agents h) (codes h) x (connBrowsers h) (browserOwners h)
  (connFails h) (connImmichFails h) (connWrites h).
Definition set_browsers x h := mkHub (agents h) (codes h) (pairs h) x (browserOwners h)
  (connFails h) (connImmichFails h) (connWrites h).
Definition set_owners x h := mkHub (agents h) (codes h) (pairs h) (connBrowsers h) x
  (connFails h) (connImmichFails h) (connWrites h).
Definition set_fails x h := mkHub (agents h) (codes h) (pairs h) (connBrowsers h) (browserOwners h)
  x (connImmichFails h) (connWrites h).
Definition set_immich_fails x h := mkHub (agents h) (codes h) (pairs h) (connBrowsers h) (browserOwners h)
  (connFails h) x (connWrites h).
Definition set_writes x h := mkHub (agents h) (codes h) (pairs h) (connBrowsers h) (browserOwners h)
  (connFails h) (connImmichFails h) x.

(** Go's [m[k]]: the zero value of a missing key. *)
Definition code_owner (h : Hub) (code : string) : string := mlookup EmptyString (codes h) code.
Definition agent_conn (h : Hub) (key : string) : wsconn := mlookup None (agents h) key.

(** [signaling-server/internal/hub/hub.go:216-223] ensureWriteMuLocked *)
Definition ensureWriteMuLocked (conn : wsconn) (h : Hub) : Hub :=
  match conn with None => h | Some c => set_writes ({[c]} ∪ connWrites h) h end.

(** The mutex of [c] exists afterwards.
    [signaling-server/internal/hub/hub.go:225-233] writeMu *)
Definition writeMu (conn : wsconn) (h : Hub) : Hub := ensureWriteMuLocked conn h.

Definition drop_write (conn : wsconn) (h : Hub) : Hub :=
  match conn with None => h | Some c => set_writes (connWrites h ∖ {[c]}) h end.

(** [signaling-server/internal/hub/hub.go:50-69] RegisterAgent *)
Definition RegisterAgent (apiKey : string) (conn : wsconn) (h : Hub) : Hub :=
  let h := set_agents (<[apiKey := conn]> (agents h)) h in
  let rebind_pair code p :=
    if bool_decide (p_apiKeyID p = apiKey) && bool_decide (code_owner h code = apiKey)
    then mkPair apiKey conn (p_browserConn p) else p in
  let h := set_pairs (map_imap (fun code p => Some (rebind_pair code p)) (pairs h)) h in
  let rebind_owner (o : browserOwner) :=
    if bool_decide (o_apiKeyID o = apiKey) && bool_decide (code_owner h (o_sessionID o) = apiKey)
    then mkOwner (o_apiKeyID o) (o_sessionID o) conn else o in
  let h := set_owners (rebind_owner <$> browserOwners h) h in
  ensureWriteMuLocked conn h.

(** [signaling-server/internal/hub/hub.go:71-82] UnregisterAgent *)
Definition UnregisterAgent (apiKey : string) (expected : wsconn) (h : Hub) : Hub :=
  match expected with
  | None => h
  | Some _ =>
      let h := drop_write expected h in
      if negb (bool_decide (agent_conn h apiKey = expected)) then h
      else set_agents (delete apiKey (agents h)) h
  end.

(** [signaling-server/internal/hub/hub.go:84-89] AgentConnected *)
Definition AgentConnected (apiKey : string) (h : Hub) : bool := bool_decide (is_Some (agents h !! apiKey)).

(** [signaling-server/internal/hub/hub.go:91-95] RegisterCode *)
Definition RegisterCode (code apiKey : string) (h : Hub) : Hub := set_codes (<[code := apiKey]> (codes h)) h.

(** The critical section: the pair it took out, if any.
    [signaling-server/internal/hub/hub.go:98-107] UnregisterCode *)
Definition UnregisterCode_locked (code apiKey : string) (h : Hub) : option pair * Hub :=
  match codes h !! code with
  | None => (None, h)
  | Some owner =>
      if negb (bool_decide (owner = apiKey)) then (None, h)
      else
        let h := set_codes (delete code (codes h)) h in
        (pairs h !! code, set_pairs (delete code (pairs h)) h)
  end.

(** [signaling-server/internal/hub/hub.go:115-124] GetAgentConn *)
Definition GetAgentConn (code : string) (h : Hub) : option wsconn :=
  match codes h !! code with
  | None => None
  | Some apiKey => agents h !! apiKey
  end.

Inductive pair_error : Type := ErrCodeNotRegistered | ErrAgentNotConnected | ErrBrowserIdentity.

(** [signaling-server/internal/hub/hub.go:126-147] PairSession *)
Definition PairSession (sessionID connID apiKeyID : string) (browserConn : wsconn) (h : Hub)
    : result unit pair_error * Hub :=
  match codes h !! sessionID with
  | None => (Err ErrCodeNotRegistered, h)
  | Some apiKey =>
      if negb (bool_decide (apiKey = apiKeyID)) then (Err ErrCodeNotRegistered, h)
      else
        match agents h !! apiKey with
        | None => (Err ErrAgentNotConnected, h)
        | Some agentConn =>
            if bool_decide (connID = EmptyString) || bool_decide (browserConn = None)
            then (Err ErrBrowserIdentity, h)
            else
              let h := set_pairs (<[sessionID := mkPair apiKeyID agentConn browserConn]> (pairs h)) h in
              let h := set_browsers (<[connID := browserConn]> (connBrowsers h)) h in
              let h := set_owners (<[connID := mkOwner apiKey sessionID agentConn]> (browserOwners h)) h in
              (Ok tt, ensureWriteMuLocked browserConn h)
        end
  end.

(** [signaling-server/internal/hub/hub.go:149-162] UnpairSession *)
Definition UnpairSession (sessionID : string) (browserConn : wsconn) (h : Hub) : Hub :=
  match pairs h !! sessionID with
  | None => h
  | Some p =>
      if negb (bool_decide (browserConn = None)) && negb (bool_decide (p_browserConn p = browserConn))
      then h else set_pairs (delete sessionID (pairs h)) h
  end.

(** [signaling-server/internal/hub/ownership.go:21-23] agentOwnsSessionLocked *)
Definition agentOwnsSessionLocked (apiKeyID : string) (conn : wsconn) (code : string) (h : Hub) : bool :=
  negb (bool_decide (apiKeyID = EmptyString)) && negb (bool_decide (conn = None))
  && bool_decide (agent_conn h apiKeyID = conn) && bool_decide (code_owner h code = apiKeyID).

(** [signaling-server/internal/hub/ownership.go:25-32] browserForAgentLocked *)
Definition browserForAgentLocked (apiKeyID : string) (conn : wsconn) (connID : string) (h : Hub)
    : option (wsconn * string) :=
  match browserOwners h !! connID, mlookup None (connBrowsers h) connID with
  | Some owner, Some b =>
      if negb (bool_decide (o_apiKeyID owner = apiKeyID)) || negb (bool_decide (o_agentConn owner = conn))
         || negb (agentOwnsSessionLocked apiKeyID conn (o_sessionID owner) h)
      then None else Some (Some b, o_sessionID owner)
  | _, _ => None
  end.

(** [signaling-server/internal/hub/ownership.go:5-10] IsCurrentAgent *)
Definition IsCurrentAgent (apiKeyID : string) (conn : wsconn) (h : Hub) : bool :=
  negb (bool_decide (apiKeyID = EmptyString)) && negb (bool_decide (conn = None))
  && bool_decide (agent_conn h apiKeyID = conn).

(** [signaling-server/internal/hub/ownership.go:12-18] BrowserSessionForAgent *)
Definition BrowserSessionForAgent (apiKeyID : string) (conn : wsconn) (connID : string) (h : Hub)
    : string * bool :=
  match browserForAgentLocked apiKeyID conn connID h with
  | Some (_, code) => (code, true)
  | None => (EmptyString, false)
  end.

(** The destinations the forwarding operations look up under the lock. *)

(** [signaling-server/internal/hub/hub.go:165-167] SendToAgent *)
Definition agent_target (apiKey : string) (h : Hub) : option wsconn := agents h !! apiKey.
(** [signaling-server/internal/hub/hub.go:175-177] ForwardToAgent *)
Definition pair_agent_target (sessionID : string) (h : Hub) : option wsconn :=
  p_agentConn <$> pairs h !! sessionID.
(** [signaling-server/internal/hub/hub.go:185-191] ForwardToBrowser *)
Definition browser_target (apiKeyID : string) (agentConn : wsconn) (sessionID : string) (h : Hub)
    : option wsconn :=
  match pairs h !! sessionID with
  | None => None
  | Some p =>
      if agentOwnsSessionLocked apiKeyID agentConn sessionID h && bool_decide (p_agentConn p = agentConn)
      then Some (p_browserConn p) else None
  end.
(** [signaling-server/internal/hub/hub.go:298-303] ForwardToBrowserByConnID *)
Definition conn_target (apiKeyID : string) (agentConn : wsconn) (connID : string) (h : Hub)
    : option wsconn := fst <$> browserForAgentLocked apiKeyID agentConn connID h.

(** [signaling-server/internal/hub/hub.go:281-293] UnregisterBrowserConn *)
Definition UnregisterBrowserConn (connID : string) (h : Hub) : Hub :=
  let h := match connBrowsers h !! connID with Some conn => drop_write conn h | None => h end in
  let h := set_browsers (delete connID (connBrowsers h)) h in
  let h := set_owners (delete connID (browserOwners h)) h in
  let h := set_fails (delete connID (connFails h)) h in
  set_immich_fails (delete connID (connImmichFails h)) h.

(** [signaling-server/internal/hub/hub.go:307-317] IncrementAuthFailure *)
Definition IncrementAuthFailure (apiKeyID : string) (agentConn : wsconn) (connID : string) (h : Hub)
    : Z * Hub :=
  match browserForAgentLocked apiKeyID agentConn connID h with
  | None => (0%Z, h)
  | Some _ =>
      let n := (mlookup 0 (connFails h) connID + 1)%Z in
      (n, set_fails (<[connID := n]> (connFails h)) h)
  end.

(** [signaling-server/internal/hub/hub.go:319-329] IncrementImmichAuthFailure *)
Definition IncrementImmichAuthFailure (apiKeyID : string) (agentConn : wsconn) (connID : string) (h : Hub)
    : Z * Hub :=
  match browserForAgentLocked apiKeyID agentConn connID h with
  | None => (0%Z, h)
  | Some _ =>
      let n := (mlookup 0 (connImmichFails h) connID + 1)%Z in
      (n, set_immich_fails (<[connID := n]> (connImmichFails h)) h)
  end.

(** One turn of the loop over the stale codes.
    [signaling-server/internal/hub/hub.go:257-264] CloseAgent *)
Definition close_pair (acc : list wsconn * gmap string pair) (code : string) : list wsconn * gmap string pair :=
  match acc.2 !! code with
  | None => acc
  | Some p =>
      ((if bool_decide (p_browserConn p = None) then acc.1 else acc.1 ++ [p_browserConn p]),
       delete code acc.2)
  end.

(** The critical section of [CloseAgent]: the agent's entry and the browser
    sockets to close.
    [signaling-server/internal/hub/hub.go:239-265] CloseAgent *)
Definition CloseAgent_locked (apiKeyID : string) (h : Hub) : option wsconn * list wsconn * Hub :=
  let conn := agents h !! apiKeyID in
  let h := set_agents (delete apiKeyID (agents h)) h in
  let staleCodes := (filter (fun kv : string * string => kv.2 = apiKeyID) (map_to_list (codes h))).*1 in
  let h := set_codes (filter (fun kv : string * string => kv.2 <> apiKeyID) (codes h)) h in
  let '(browserConns, ps) :=
    foldl close_pair ([], pairs h) staleCodes in
  (conn, browserConns, set_pairs ps h).

(** * Operations and their sequences *)

Inductive hub_op : Type :=
| HRegister (k : string) (c : wsconn)
| HUnregister (k : string) (c : wsconn)
| HCode (code k : string)
| HUncode (code k : string)
| HPair (sid cid k : string) (b : wsconn)
| HUnpair (sid : string) (b : wsconn)
| HUnbrowser (cid : string)
| HFail (k : string) (c : wsconn) (cid : string)
| HImmichFail (k : string) (c : wsconn) (cid : string)
| HCloseAgent (k : string)
| HWriteMu (c : wsconn)
| HDropWrite (c : wsconn).

Definition hub_step (op : hub_op) (h : Hub) : Hub :=
  match op with
  | HRegister k c => RegisterAgent k c h
  | HUnregister k c => UnregisterAgent k c h
  | HCode code k => RegisterCode code k h
  | HUncode code k => snd (UnregisterCode_locked code k h)
  | HPair sid cid k b => snd (PairSession sid cid k b h)
  | HUnpair sid b => UnpairSession sid b h
  | HUnbrowser cid => UnregisterBrowserConn cid h
  | HFail k c cid => snd (IncrementAuthFailure k c cid h)
  | HImmichFail k c cid => snd (IncrementImmichAuthFailure k c cid h)
  | HCloseAgent k => snd (CloseAgent_locked k h)
  | HWriteMu c => writeMu c h
  | HDropWrite c => drop_write c h
  end.

Definition hub_run (ops : list hub_op) (h : Hub) : Hub := foldl (fun h op => hub_step op h) h ops.

Lemma hub_run_ind (P : Hub -> Prop) (ok : hub_op -> Prop) :
  (forall op h, ok op -> P h -> P (hub_step op h)) ->
  forall ops h, Forall ok ops -> P h -> P (hub_run ops h).
Proof.
  intros Hstep ops. induction ops as [|op ops IH]; intros h Hf Hp; [done|].
  apply Forall_cons_1 in Hf as [Hop Hf]. apply IH; auto.
Qed.

(** * What each operation does to the maps *)

Lemma lookup_rebind {A} (f : string -> A -> A) (m : gmap string A) i :
  map_imap (fun k x => Some (f k x)) m !! i = f i <$> m !! i.
Proof. rewrite map_lookup_imap. by destruct (m !! i). Qed.

Lemma drop_write_fields c h :
  agents (drop_write c h) = agents h /\ codes (drop_write c h) = codes h
  /\ pairs (drop_write c h) = pairs h /\ connBrowsers (drop_write c h) = connBrowsers h
  /\ browserOwners (drop_write c h) = browserOwners h.
Proof. by destruct c. Qed.

Lemma ensure_fields c h :
  agents (ensureWriteMuLocked c h) = agents h /\ codes (ensureWriteMuLocked c h) = codes h
  /\ pairs (ensureWriteMuLocked c h) = pairs h /\ connBrowsers (ensureWriteMuLocked c h) = connBrowsers h
  /\ browserOwners (ensureWriteMuLocked c h) = browserOwners h.
Proof. by destruct c. Qed.

Lemma RegisterAgent_spec k c h :
  let h' := RegisterAgent k c h in
  agents h' = <[k := c]> (agents h) /\ codes h' = codes h /\ connBrowsers h' = connBrowsers h
  /\ (forall code, pairs h' !! code
        = (fun p => if bool_decide (p_apiKeyID p = k) && bool_decide (code_owner h code = k)
                    then mkPair k c (p_browserConn p) else p) <$> pairs h !! code)
  /\ (forall cid, browserOwners h' !! cid
        = (fun o => if bool_decide (o_apiKeyID o = k) && bool_decide (code_owner h (o_sessionID o) = k)
                    then mkOwner (o_apiKeyID o) (o_sessionID o) c else o) <$> browserOwners h !! cid).
Proof.
  unfold RegisterAgent. cbv zeta.
  match goal with |- context [ensureWriteMuLocked c ?x] => destruct (ensure_fields c x) as (->&->&->&->&->) end.
  simpl. split_and!; [done..| |].
  - intros code. by rewrite (lookup_rebind (fun code p => _)).
  - intros cid. by rewrite lookup_fmap.
Qed.

Lemma UnregisterAgent_spec k c h :
  let h' := UnregisterAgent k c h in
  codes h' = codes h /\ pairs h' = pairs h /\ connBrowsers h' = connBrowsers h
  /\ browserOwners h' = browserOwners h
  /\ (agents h' = agents h \/ (c <> None /\ agent_conn h k = c /\ agents h' = delete k (agents h))).
Proof.
  unfold UnregisterAgent. destruct c as [c|]; [|by split_and!; auto].
  destruct (drop_write_fields (Some c) h) as (Ha&Hc&Hp&Hb&Ho).
  unfold agent_conn. rewrite Ha. case_bool_decide; simpl; rewrite ?Ha, ?Hc, ?Hp, ?Hb, ?Ho; split_and!; auto.
Qed.

Lemma close_fold_spec cs acc :
  let r := foldl close_pair acc cs in
  (forall code, r.2 !! code = if decide (code ∈ cs) then None else acc.2 !! code)
  /\ (forall b, b ∈ r.1 <-> b ∈ acc.1 \/ exists code p, code ∈ cs /\ acc.2 !! code = Some p
        /\ p_browserConn p = b /\ b <> None).
Proof.
  revert acc. induction cs as [|c cs IH]; intros acc; simpl.
  { split; [done|]. intros b. split; [auto|intros [?|(?&?&?%not_elem_of_nil&_)]; done]. }
  destruct acc as [bs ps]. simpl. destruct (ps !! c) as [p|] eqn:Hc; simpl.
  - unfold close_pair at 2 4. simpl. rewrite Hc.
    destruct (IH (if bool_decide (p_browserConn p = None) then bs else bs ++ [p_browserConn p], delete c ps))
      as [H1 H2]. simpl in H1, H2. split.
    + intros code. rewrite H1. destruct (decide (code = c)) as [->|Hne].
      * rewrite lookup_delete_eq, (decide_True (P := c ∈ c :: cs)) by set_solver. by case_decide.
      * rewrite lookup_delete_ne by done.
        destruct (decide (code ∈ cs)), (decide (code ∈ c :: cs)); set_solver.
    + intros b. rewrite H2. split.
      * intros [Hin|(code&q&Hin&Hl&Hq)].
        -- case_bool_decide as Hn; [by left|]. apply elem_of_app in Hin as [?|?%list_elem_of_singleton]; [by left|].
           right. exists c, p. subst b. split_and!; [set_solver|done..].
        -- right. rewrite lookup_delete in Hl. case_decide; [done|]. exists code, q. set_solver.
      * intros [Hin|(code&q&Hin&Hl&Hq&Hb)].
        -- left. case_bool_decide; [done|set_solver].
        -- destruct (decide (code = c)) as [->|Hne].
           ++ left. simplify_eq. rewrite bool_decide_false by done. set_solver.
           ++ right. exists code, q. rewrite lookup_delete_ne by done. set_solver.
  - unfold close_pair at 2 4. simpl. rewrite Hc. destruct (IH (bs, ps)) as [H1 H2]. simpl in H1, H2. split.
    + intros code. rewrite H1. destruct (decide (code = c)) as [->|Hne].
      * rewrite (decide_True (P := c ∈ c :: cs)) by set_solver. by case_decide.
      * destruct (decide (code ∈ cs)), (decide (code ∈ c :: cs)); set_solver.
    + intros b. rewrite H2. split.
      * intros [?|(code&q&?&?)]; [by left|]. right. exists code, q. set_solver.
      * intros [?|(code&q&Hin&Hl&?)]; [by left|]. right. exists code, q.
        apply elem_of_cons in Hin as [->|Hin]; [congruence|done].
Qed.

Lemma CloseAgent_spec k h conn bs h' :
  CloseAgent_locked k h = (conn, bs, h') ->
  conn = agents h !! k /\ agents h' = delete k (agents h)
  /\ (forall code, codes h' !! code = if bool_decide (codes h !! code = Some k) then None else codes h !! code)
  /\ (forall code, pairs h' !! code = if bool_decide (codes h !! code = Some k) then None else pairs h !! code)
  /\ (forall b, b ∈ bs <-> exists code p, codes h !! code = Some k /\ pairs h !! code = Some p
        /\ p_browserConn p = b /\ b <> None)
  /\ connBrowsers h' = connBrowsers h /\ browserOwners h' = browserOwners h.
Proof.
  unfold CloseAgent_locked. cbv zeta. simpl.
  set (cs := (filter _ (map_to_list (codes h))).*1).
  assert (forall code, code ∈ cs <-> codes h !! code = Some k) as Hcs.
  { intros code. unfold cs. rewrite list_elem_of_fmap. split.
    - intros ([c' k']&->&[Hk Hin]%list_elem_of_filter). simpl in *. subst.
      by apply elem_of_map_to_list in Hin.
    - intros Hl. exists (code, k). split; [done|]. apply list_elem_of_filter. split; [done|].
      by apply elem_of_map_to_list. }
  destruct (foldl _ _ cs) as [bs' ps] eqn:Hf. intros [= <- <- <-]. simpl.
  destruct (close_fold_spec cs ([], pairs h)) as [H1 H2]. rewrite Hf in H1, H2. simpl in H1, H2.
  split_and!; [done|done|..]; try done.
  - intros code. rewrite map_lookup_filter. destruct (codes h !! code) as [k'|] eqn:Hc; [simpl|done].
    destruct (decide (k' = k)) as [->|Hne].
    + rewrite bool_decide_true by done. by rewrite option_guard_False by naive_solver.
    + rewrite bool_decide_false by congruence. by rewrite option_guard_True.
  - intros code. rewrite H1. destruct (decide (code ∈ cs)) as [Hin|Hin].
    + apply Hcs in Hin. by rewrite bool_decide_true.
    + rewrite bool_decide_false; [done|]. by rewrite <- Hcs.
  - intros b. rewrite H2. split.
    + intros [?%not_elem_of_nil|(code&p&Hin%Hcs&?)]; [done|]. eauto.
    + intros (code&p&Hc&?). right. exists code, p. by rewrite Hcs.
Qed.

Lemma PairSession_spec sid cid k b h :
  (exists e, PairSession sid cid k b h = (Err e, h)) \/
  (exists a, codes h !! sid = Some k /\ agents h !! k = Some a /\ cid <> EmptyString /\ b <> None
     /\ fst (PairSession sid cid k b h) = Ok tt
     /\ let h' := snd (PairSession sid cid k b h) in
        agents h' = agents h /\ codes h' = codes h
        /\ pairs h' = <[sid := mkPair k a b]> (pairs h)
        /\ connBrowsers h' = <[cid := b]> (connBrowsers h)
        /\ browserOwners h' = <[cid := mkOwner k sid a]> (browserOwners h)).
Proof.
  unfold PairSession. destruct (codes h !! sid) as [k'|] eqn:Hc; [|eauto].
  case_bool_decide as Hk; simpl; [subst k'|eauto].
  destruct (agents h !! k) as [a|] eqn:Ha; [|eauto].
  do 2 (case_bool_decide; simpl; [eauto|]).
  right. exists a. destruct b; [|done]. by split_and!.
Qed.

Lemma UncodeAgent_spec code k h :
  let h' := snd (UnregisterCode_locked code k h) in
  agents h' = agents h /\ connBrowsers h' = connBrowsers h /\ browserOwners h' = browserOwners h
  /\ ((codes h' = codes h /\ pairs h' = pairs h /\ fst (UnregisterCode_locked code k h) = None)
      \/ (codes h !! code = Some k /\ codes h' = delete code (codes h) /\ pairs h' = delete code (pairs h)
          /\ fst (UnregisterCode_locked code k h) = pairs h !! code)).
Proof.
  unfold UnregisterCode_locked. destruct (codes h !! code) as [k'|] eqn:Hc; [|by split_and!; auto].
  case_bool_decide; simpl; [subst k'|]; split_and!; auto.
Qed.

Lemma Unpair_spec sid b h :
  let h' := UnpairSession sid b h in
  agents h' = agents h /\ codes h' = codes h /\ connBrowsers h' = connBrowsers h
  /\ browserOwners h' = browserOwners h
  /\ (pairs h' = pairs h \/ (pairs h' = delete sid (pairs h)
        /\ exists p, pairs h !! sid = Some p /\ (b = None \/ p_browserConn p = b))).
Proof.
  unfold UnpairSession. destruct (pairs h !! sid) as [p|] eqn:Hp; [|by split_and!; auto].
  do 2 case_bool_decide; simpl; split_and!; eauto 10.
Qed.

Lemma Unbrowser_spec cid h :
  let h' := UnregisterBrowserConn cid h in
  agents h' = agents h /\ codes h' = codes h /\ pairs h' = pairs h
  /\ connBrowsers h' = delete cid (connBrowsers h) /\ browserOwners h' = delete cid (browserOwners h).
Proof.
  unfold UnregisterBrowserConn. destruct (connBrowsers h !! cid) as [conn|]; [|by split_and!].
  destruct (drop_write_fields conn h) as (Ha&Hc&Hp&Hb&Ho). simpl. by rewrite Ha, Hc, Hp, Hb, Ho.
Qed.

(** The operations that only count failures or manage write mutexes. *)
Lemma quiet_spec op h :
  match op with HFail _ _ _ | HImmichFail _ _ _ | HWriteMu _ | HDropWrite _ => True | _ => False end ->
  let h' := hub_step op h in
  agents h' = agents h /\ codes h' = codes h /\ pairs h' = pairs h
  /\ connBrowsers h' = connBrowsers h /\ browserOwners h' = browserOwners h.
Proof.
  destruct op; intros []; simpl; unfold IncrementAuthFailure, IncrementImmichAuthFailure, writeMu;
    try (destruct (browserForAgentLocked _ _ _ _); by split_and!);
    [apply ensure_fields|apply drop_write_fields].
Qed.

(** * Fencing *)

Definition is_register (k : string) (c : wsconn) (op : hub_op) : Prop := op = HRegister k c.

(** The agent entry of a key changes only by registering and removing. *)
Lemma agents_step op h k :
  agents (hub_step op h) !! k = agents h !! k
  \/ agents (hub_step op h) !! k = None
  \/ exists c, op = HRegister k c /\ agents (hub_step op h) !! k = Some c.
Proof.
  destruct op as [k' c|k' c|code k'|code k'|sid cid k' b|sid b|cid|k' c cid|k' c cid|k'|c|c]; cbn [hub_step].
  - destruct (RegisterAgent_spec k' c h) as (->&_). rewrite lookup_insert. case_decide; [subst|]; eauto.
  - destruct (UnregisterAgent_spec k' c h) as (_&_&_&_&[->|(_&_&->)]); [auto|].
    rewrite lookup_delete. case_decide; auto.
  - auto.
  - destruct (UncodeAgent_spec code k' h) as (->&_). auto.
  - destruct (PairSession_spec sid cid k' b h) as [[e ->]|(a&_&_&_&_&_&->&_)]; auto.
  - destruct (Unpair_spec sid b h) as (->&_). auto.
  - destruct (Unbrowser_spec cid h) as (->&_). auto.
  - destruct (quiet_spec (HFail k' c cid) h I) as (Ha&_). cbn [hub_step] in Ha. rewrite Ha. auto.
  - destruct (quiet_spec (HImmichFail k' c cid) h I) as (Ha&_). cbn [hub_step] in Ha. rewrite Ha. auto.
  - destruct (CloseAgent_locked k' h) as [[conn bs] h'] eqn:Hc. simpl.
    apply CloseAgent_spec in Hc as (_&->&_). rewrite lookup_delete. case_decide; auto.
  - left. by destruct c.
  - left. by destruct c.
Qed.

Definition stale (k : string) (c : wsconn) (h : Hub) : Prop := c <> None /\ agent_conn h k <> c.

Lemma stale_run k c ops h :
  Forall (fun op => op <> HRegister k c) ops -> stale k c h -> stale k c (hub_run ops h).
Proof.
  apply hub_run_ind. intros op h0 Hop [Hc Hs]. split; [done|]. unfold agent_conn, mlookup in *.
  destruct (agents_step op h0 k) as [->|[->|(c'&->&->)]]; simpl; [done|congruence|].
  intros ->. done.
Qed.

(** A socket that is not the key's current one can do nothing through the hub. *)
Lemma stale_mute k c h :
  stale k c h ->
  IsCurrentAgent k c h = false
  /\ (forall sid, browser_target k c sid h = None)
  /\ (forall cid, browserForAgentLocked k c cid h = None)
  /\ agents (UnregisterAgent k c h) = agents h.
Proof.
  intros [Hc Hs]. unfold IsCurrentAgent, browser_target, browserForAgentLocked, agentOwnsSessionLocked.
  rewrite (bool_decide_false (agent_conn h k = c)) by done.
  split_and!.
  - by rewrite andb_false_r.
  - intros sid. destruct (pairs h !! sid); [|done]. by rewrite andb_false_r, !andb_false_l.
  - intros cid. destruct (browserOwners h !! cid); [|done]. destruct (mlookup _ _ _); [|done].
    rewrite (andb_false_r (_ && _)), !andb_false_l. simpl. by rewrite orb_true_r.
  - destruct (UnregisterAgent_spec k c h) as (_&_&_&_&[->|(_&?&_)]); done.
Qed.

(** A reconnect fences the old socket: once another socket has
    registered for the key, and until the old one registers again, whatever
    happens at the hub, nothing the old socket asks for is delivered, counted
    or allowed, and its clean-up does not remove the new one. *)
Theorem superseded_agent_fenced k c c' ops h :
  c' <> c -> c <> None -> Forall (fun op => op <> HRegister k c) ops ->
  let h' := hub_run ops (RegisterAgent k c' h) in
  IsCurrentAgent k c h' = false
  /\ (forall sid, browser_target k c sid h' = None)
  /\ (forall cid, conn_target k c cid h' = None
        /\ BrowserSessionForAgent k c cid h' = (EmptyString, false)
        /\ IncrementAuthFailure k c cid h' = (0%Z, h')
        /\ IncrementImmichAuthFailure k c cid h' = (0%Z, h'))
  /\ agents (UnregisterAgent k c h') = agents h'.
Proof.
  intros Hne Hc Hops h'.
  assert (stale k c h') as Hs.
  { apply stale_run; [done|]. split; [done|]. unfold agent_conn, mlookup.
    destruct (RegisterAgent_spec k c' h) as (->&_). by rewrite lookup_insert_eq. }
  destruct (stale_mute k c h' Hs) as (H1&H2&H3&H4). split_and!; auto.
  intros cid. unfold conn_target, BrowserSessionForAgent, IncrementAuthFailure, IncrementImmichAuthFailure.
  rewrite H3. auto.
Qed.

Definition demo_hub : Hub :=
  hub_run [HRegister "k1" (Some 1); HCode "code1" "k1"; HPair "code1" "b1" "k1" (Some 9)] New.

Lemma superseded_agent_fenced_witness :
  let h' := hub_run [HPair "code1" "b2" "k1" (Some 10); HUnregister "k1" (Some 1)]
              (RegisterAgent "k1" (Some 2) demo_hub) in
  IsCurrentAgent "k1" (Some 1) h' = false
  /\ (forall sid, browser_target "k1" (Some 1) sid h' = None)
  /\ (forall cid, conn_target "k1" (Some 1) cid h' = None
        /\ BrowserSessionForAgent "k1" (Some 1) cid h' = (EmptyString, false)
        /\ IncrementAuthFailure "k1" (Some 1) cid h' = (0%Z, h')
        /\ IncrementImmichAuthFailure "k1" (Some 1) cid h' = (0%Z, h'))
  /\ agents (UnregisterAgent "k1" (Some 1) h') = agents h'.
Proof.
  apply (superseded_agent_fenced "k1" (Some 1) (Some 2)); [done|done|].
  repeat (apply Forall_cons; split; [done|]). constructor.
Defined.

(** * A paired browser across reconnects of its agent *)

(** The operations that end the pairing of browser [b], connection [cid], with
    share [sid] of key [k], or reuse its names. *)
Definition keeps_pairing (k sid cid : string) (b : wsconn) (op : hub_op) : Prop :=
  match op with
  | HCode code k' => code = sid -> k' = k
  | HUncode code _ => code <> sid
  | HPair sid' cid' _ _ => sid' <> sid /\ cid' <> cid
  | HUnpair sid' b' => sid' <> sid \/ (b' <> None /\ b' <> b)
  | HUnbrowser cid' => cid' <> cid
  | HCloseAgent k' => k' <> k
  | _ => True
  end.

Record paired (k sid cid : string) (b : wsconn) (h : Hub) : Prop := {
  pd_code : codes h !! sid = Some k;
  pd_browser : connBrowsers h !! cid = Some b;
  pd_agent : exists a, pairs h !! sid = Some (mkPair k a b)
     /\ browserOwners h !! cid = Some (mkOwner k sid a)
     /\ forall c, agents h !! k = Some c -> a = c }.

Lemma paired_same k sid cid b h h' :
  codes h' = codes h -> connBrowsers h' = connBrowsers h -> pairs h' = pairs h ->
  browserOwners h' = browserOwners h -> agents h' !! k = agents h !! k \/ agents h' !! k = None ->
  paired k sid cid b h -> paired k sid cid b h'.
Proof.
  intros Hc Hb Hp Ho Ha [H1 H2 (a&H3&H4&H5)]. constructor; rewrite ?Hc, ?Hb, ?Hp, ?Ho; try done.
  exists a. split_and!; try done. intros c Hag. destruct Ha as [Ha|Ha]; rewrite Ha in Hag; [auto|done].
Qed.

Lemma paired_register k sid cid b k' c h : paired k sid cid b h -> paired k sid cid b (RegisterAgent k' c h).
Proof.
  intros [H1 H2 (a&H3&H4&H5)]. destruct (RegisterAgent_spec k' c h) as (Ha&Hc&Hb&Hp&Ho).
  constructor; [by rewrite Hc|by rewrite Hb|]. rewrite Ha, Hp, Ho, H3, H4. simpl.
  unfold code_owner, mlookup. rewrite H1. simpl. destruct (decide (k = k')) as [<-|Hne].
  - rewrite !bool_decide_true by done. simpl. exists c. split_and!; [done..|]. intros c0.
    rewrite lookup_insert_eq. by intros [= ->].
  - rewrite !(bool_decide_false (k = k')) by done. simpl. exists a. rewrite lookup_insert_ne by done. auto.
Qed.

Lemma paired_close k sid cid b k' h :
  k' <> k -> paired k sid cid b h -> paired k sid cid b (snd (CloseAgent_locked k' h)).
Proof.
  intros Hne [H1 H2 (a&H3&H4&H5)]. destruct (CloseAgent_locked k' h) as [[conn bs] h'] eqn:Hcl. simpl.
  apply CloseAgent_spec in Hcl as (_&Ha&Hc&Hp&_&Hb&Ho).
  constructor; rewrite ?Hb, ?Ho; try done.
  - rewrite Hc, H1, bool_decide_false by congruence. done.
  - exists a. rewrite Hp, H1, bool_decide_false, Ha, lookup_delete_ne by congruence. auto.
Qed.

Lemma paired_step k sid cid b op h :
  keeps_pairing k sid cid b op -> paired k sid cid b h -> paired k sid cid b (hub_step op h).
Proof.
  intros Hop Hp. destruct op as [k' c|k' c|code k'|code k'|sid' cid' k' b'|sid' b'|cid'|k' c cid'|k' c cid'|k'|c|c];
    cbn [hub_step]; cbn [keeps_pairing] in Hop.
  - by apply paired_register.
  - destruct (UnregisterAgent_spec k' c h) as (?&?&?&?&Ha). eapply paired_same; try done.
    destruct Ha as [->|(_&_&->)]; [auto|]. rewrite lookup_delete. case_decide; auto.
  - destruct Hp as [H1 H2 H3]. constructor; try done. simpl. rewrite lookup_insert.
    case_decide as Hd; [|done]. by rewrite (Hop Hd).
  - destruct (UncodeAgent_spec code k' h) as (Ha&Hb&Ho&[(Hc&Hpr&_)|(_&Hc&Hpr&_)]);
      [eapply paired_same; try done; left; by rewrite Ha|].
    destruct Hp as [H1 H2 H3]. constructor; rewrite ?Hc, ?Hb, ?Hpr, ?Ho, ?Ha, ?lookup_delete_ne by done; done.
  - destruct (PairSession_spec sid' cid' k' b' h) as [[e ->]|(a&_&_&_&_&_&Ha&Hc&Hpr&Hb&Ho)]; [done|].
    destruct Hop, Hp as [H1 H2 H3].
    constructor; rewrite ?Hc, ?Hb, ?Hpr, ?Ho, ?Ha, ?lookup_insert_ne by done; done.
  - destruct (Unpair_spec sid' b' h) as (Ha&Hc&Hb&Ho&[Hpr|(Hpr&p&Hl&Hq)]);
      [eapply paired_same; try done; left; by rewrite Ha|].
    assert (sid' <> sid) as Hne.
    { intros ->. destruct Hp as [_ _ (a&Hp1&_)]. simplify_eq. simpl in *. naive_solver. }
    destruct Hp as [H1 H2 H3]. constructor; rewrite ?Hc, ?Hb, ?Hpr, ?Ho, ?Ha, ?lookup_delete_ne by done; done.
  - destruct (Unbrowser_spec cid' h) as (Ha&Hc&Hpr&Hb&Ho), Hp as [H1 H2 H3].
    constructor; rewrite ?Hc, ?Hb, ?Hpr, ?Ho, ?Ha, ?lookup_delete_ne by done; done.
  - destruct (quiet_spec (HFail k' c cid') h I) as (Ha&?&?&?&?). eapply paired_same; try done.
    left. by rewrite <- Ha.
  - destruct (quiet_spec (HImmichFail k' c cid') h I) as (Ha&?&?&?&?). eapply paired_same; try done.
    left. by rewrite <- Ha.
  - by apply paired_close.
  - destruct (quiet_spec (HWriteMu c) h I) as (Ha&?&?&?&?). eapply paired_same; try done. left. by rewrite <- Ha.
  - destruct (quiet_spec (HDropWrite c) h I) as (Ha&?&?&?&?). eapply paired_same; try done. left. by rewrite <- Ha.
Qed.

(** A browser paired with a share stays reachable while its
    agent comes and goes: until the pairing is ended, whichever socket is the
    current agent of the share's key, the agent's messages for the share and
    for the connection go to that browser, the connection resolves to the
    share, and the browser's messages go to that agent. *)
Theorem reconnect_keeps_browser sid cid k b h h1 ops c :
  PairSession sid cid k b h = (Ok tt, h1) -> k <> EmptyString ->
  Forall (keeps_pairing k sid cid b) ops ->
  let h2 := hub_run ops h1 in
  agents h2 !! k = Some (Some c) ->
  browser_target k (Some c) sid h2 = Some b
  /\ conn_target k (Some c) cid h2 = Some b
  /\ BrowserSessionForAgent k (Some c) cid h2 = (sid, true)
  /\ pair_agent_target sid h2 = Some (Some c).
Proof.
  intros Hpair Hk Hops h2 Hag.
  destruct (PairSession_spec sid cid k b h) as [[e He]|(a&Hc0&Ha0&_&Hb0&_&Ha&Hc&Hpr&Hb&Ho)]; [congruence|].
  rewrite Hpair in *. simpl in *.
  assert (paired k sid cid b h1) as Hp1.
  { constructor; [by rewrite Hc|by rewrite Hb, lookup_insert_eq|]. exists a.
    rewrite Hpr, Ho, Ha, !lookup_insert_eq. split_and!; [done..|]. congruence. }
  assert (paired k sid cid b h2) as [H1 H2 (a2&H3&H4&H5)]
    by (revert Hops Hp1; apply hub_run_ind; intros; by apply paired_step).
  rewrite (H5 _ Hag) in *. destruct b as [b|]; [|done].
  assert (browserForAgentLocked k (Some c) cid h2 = Some (Some b, sid)) as Hl.
  { unfold browserForAgentLocked, agentOwnsSessionLocked, code_owner, agent_conn, mlookup.
    rewrite H4, H2. simpl. rewrite H1, Hag. simpl. repeat (case_bool_decide; try done). }
  unfold browser_target, conn_target, BrowserSessionForAgent, pair_agent_target. rewrite Hl, H3. simpl.
  unfold agentOwnsSessionLocked, code_owner, agent_conn, mlookup. rewrite H1, Hag. simpl.
  repeat (case_bool_decide; try done).
Qed.

Lemma reconnect_keeps_browser_witness :
  let h2 := hub_run [HUnregister "k1" (Some 1); HCode "code2" "k2"; HRegister "k1" (Some 5)]
              (snd (PairSession "code1" "b2" "k1" (Some 10) demo_hub)) in
  browser_target "k1" (Some 5) "code1" h2 = Some (Some 10)
  /\ conn_target "k1" (Some 5) "b2" h2 = Some (Some 10)
  /\ BrowserSessionForAgent "k1" (Some 5) "b2" h2 = ("code1"%string, true)
  /\ pair_agent_target "code1" h2 = Some (Some 5).
Proof.
  apply (reconnect_keeps_browser "code1" "b2" "k1" (Some 10) demo_hub).
  - vm_compute. reflexivity.
  - discriminate.
  - repeat (apply Forall_cons; split; [simpl; try (intros; discriminate); exact I|]). constructor.
  - vm_compute. reflexivity.
Defined.

(** * Who may reach a browser *)

(** [own] gives the key a socket authenticated with; a socket registers only
    for that key. *)
Section authority.
Context (own : socket -> string).

Definition own_ok (op : hub_op) : Prop :=
  match op with HRegister k c => exists s, c = Some s /\ own s = k | _ => True end.

Record authority (h : Hub) : Prop := {
  au_agents : forall k c, agents h !! k = Some c -> exists s, c = Some s /\ own s = k;
  au_pairs : forall sid p, pairs h !! sid = Some p -> exists s, p_agentConn p = Some s /\ own s = p_apiKeyID p;
  au_owners : forall cid o, browserOwners h !! cid = Some o -> exists s, o_agentConn o = Some s /\ own s = o_apiKeyID o }.

Lemma authority_sub h h' :
  agents h' ⊆ agents h -> pairs h' ⊆ pairs h -> browserOwners h' ⊆ browserOwners h ->
  authority h -> authority h'.
Proof.
  intros Ha Hp Ho [H1 H2 H3]. constructor; intros ?? Hl.
  - eapply H1, lookup_weaken; eauto.
  - eapply H2, lookup_weaken; eauto.
  - eapply H3, lookup_weaken; eauto.
Qed.

Lemma authority_step op h : own_ok op -> authority h -> authority (hub_step op h).
Proof.
  intros Hop Hau. destruct op as [k' c|k' c|code k'|code k'|sid' cid' k' b'|sid' b'|cid'|k' c cid'|k' c cid'|k'|c|c];
    cbn [hub_step]; cbn [own_ok] in Hop.
  - destruct (RegisterAgent_spec k' c h) as (Ha&_&_&Hp&Ho), Hau as [H1 H2 H3], Hop as (s&->&Hs).
    constructor.
    + intros k c. rewrite Ha, lookup_insert. case_decide; [intros [= <-]; subst; eauto|apply H1].
    + intros sid p. rewrite Hp. destruct (pairs h !! sid) as [q|] eqn:Hq; [|done]. simpl. intros [= <-].
      destruct (_ && _); simpl; eauto.
    + intros cid o. rewrite Ho. destruct (browserOwners h !! cid) as [q|] eqn:Hq; [|done]. simpl.
      intros [= <-]. case_bool_decide; simpl; [|eauto]. case_bool_decide; simpl; [|eauto]. exists s. by subst.
  - destruct (UnregisterAgent_spec k' c h) as (_&Hp&_&Ho&Ha). eapply authority_sub; [|by rewrite Hp|by rewrite Ho|done].
    destruct Ha as [->|(_&_&->)]; [done|apply delete_subseteq].
  - destruct Hau. by constructor.
  - destruct (UncodeAgent_spec code k' h) as (Ha&_&Ho&Hp). eapply authority_sub; [by rewrite Ha| |by rewrite Ho|done].
    destruct Hp as [(_&->&_)|(_&_&->&_)]; [done|apply delete_subseteq].
  - destruct (PairSession_spec sid' cid' k' b' h) as [[e ->]|(a&_&Hag&_&_&_&Ha&_&Hp&_&Ho)]; [done|].
    destruct Hau as [H1 H2 H3], (H1 _ _ Hag) as (s&->&Hs). constructor.
    + rewrite Ha. apply H1.
    + intros sid p. rewrite Hp, lookup_insert. case_decide; [intros [= <-]; eauto|apply H2].
    + intros cid o. rewrite Ho, lookup_insert. case_decide; [intros [= <-]; eauto|apply H3].
  - destruct (Unpair_spec sid' b' h) as (Ha&_&_&Ho&Hp). eapply authority_sub; [by rewrite Ha| |by rewrite Ho|done].
    destruct Hp as [->|[-> _]]; [done|apply delete_subseteq].
  - destruct (Unbrowser_spec cid' h) as (Ha&_&Hp&_&Ho).
    eapply authority_sub; [by rewrite Ha|by rewrite Hp|rewrite Ho; apply delete_subseteq|done].
  - destruct (quiet_spec (HFail k' c cid') h I) as (Ha&_&Hp&_&Ho). cbn [hub_step] in *.
    eapply authority_sub; [by rewrite Ha|by rewrite Hp|by rewrite Ho|done].
  - destruct (quiet_spec (HImmichFail k' c cid') h I) as (Ha&_&Hp&_&Ho). cbn [hub_step] in *.
    eapply authority_sub; [by rewrite Ha|by rewrite Hp|by rewrite Ho|done].
  - destruct (CloseAgent_locked k' h) as [[conn bs] h'] eqn:Hcl. simpl.
    apply CloseAgent_spec in Hcl as (_&Ha&_&Hp&_&_&Ho).
    eapply authority_sub; [rewrite Ha; apply delete_subseteq| |by rewrite Ho|done].
    apply map_subseteq_spec. intros code p. rewrite Hp. by case_bool_decide.
  - destruct (quiet_spec (HWriteMu c) h I) as (Ha&_&Hp&_&Ho). cbn [hub_step] in *.
    eapply authority_sub; [by rewrite Ha|by rewrite Hp|by rewrite Ho|done].
  - destruct (quiet_spec (HDropWrite c) h I) as (Ha&_&Hp&_&Ho). cbn [hub_step] in *.
    eapply authority_sub; [by rewrite Ha|by rewrite Hp|by rewrite Ho|done].
Qed.
End authority.

Lemma New_authority own : authority own New.
Proof. by constructor. Qed.

(** Where the pairs and owners came from: [past] holds the operations run. *)
Record provenance (past : hub_op -> Prop) (h : Hub) : Prop := {
  pv_pairs : forall sid p, pairs h !! sid = Some p ->
    exists cid, past (HPair sid cid (p_apiKeyID p) (p_browserConn p)) /\ p_browserConn p <> None;
  pv_owners : forall cid o b, browserOwners h !! cid = Some o -> connBrowsers h !! cid = Some b ->
    past (HPair (o_sessionID o) cid (o_apiKeyID o) b) }.

Lemma provenance_sub past h h' :
  pairs h' ⊆ pairs h -> browserOwners h' ⊆ browserOwners h -> connBrowsers h' ⊆ connBrowsers h ->
  provenance past h -> provenance past h'.
Proof.
  intros Hp Ho Hb [H1 H2]. constructor; intros.
  - eapply H1, lookup_weaken; eauto.
  - eapply H2; eapply lookup_weaken; eauto.
Qed.

Lemma provenance_step (past : hub_op -> Prop) op h :
  past op -> provenance past h -> provenance past (hub_step op h).
Proof.
  intros Hpast Hpv.
  destruct op as [k' c|k' c|code k'|code k'|sid' cid' k' b'|sid' b'|cid'|k' c cid'|k' c cid'|k'|c|c];
    cbn [hub_step].
  - destruct (RegisterAgent_spec k' c h) as (_&_&Hb&Hp&Ho), Hpv as [H1 H2]. constructor.
    + intros sid p. rewrite Hp. destruct (pairs h !! sid) as [q|] eqn:Hq; [|done]. simpl. intros [= <-].
      specialize (H1 _ _ Hq). case_bool_decide; simpl; [|done]. subst. by case_bool_decide.
    + intros cid o b. rewrite Ho, Hb. destruct (browserOwners h !! cid) as [q|] eqn:Hq; [|done]. simpl.
      intros [= <-] Hbr. specialize (H2 _ _ _ Hq Hbr). by destruct (_ && _).
  - destruct (UnregisterAgent_spec k' c h) as (_&Hp&Hb&Ho&_).
    by eapply provenance_sub; [by rewrite Hp|by rewrite Ho|by rewrite Hb|].
  - destruct Hpv. by constructor.
  - destruct (UncodeAgent_spec code k' h) as (_&Hb&Ho&Hp).
    eapply provenance_sub; [|by rewrite Ho|by rewrite Hb|done].
    destruct Hp as [(_&->&_)|(_&_&->&_)]; [done|apply delete_subseteq].
  - destruct (PairSession_spec sid' cid' k' b' h) as [[e ->]|(a&_&_&_&Hn&_&_&_&Hp&Hb&Ho)]; [done|].
    destruct Hpv as [H1 H2]. constructor.
    + intros sid p. rewrite Hp, lookup_insert. case_decide; [intros [= <-]; subst; eauto|apply H1].
    + intros cid o b. rewrite Ho, Hb, !lookup_insert. case_decide; [|apply H2].
      intros [= <-] [= <-]. by subst.
  - destruct (Unpair_spec sid' b' h) as (_&_&Hb&Ho&Hp).
    eapply provenance_sub; [|by rewrite Ho|by rewrite Hb|done].
    destruct Hp as [->|[-> _]]; [done|apply delete_subseteq].
  - destruct (Unbrowser_spec cid' h) as (_&_&Hp&Hb&Ho).
    eapply provenance_sub; [by rewrite Hp|rewrite Ho; apply delete_subseteq|rewrite Hb; apply delete_subseteq|done].
  - destruct (quiet_spec (HFail k' c cid') h I) as (_&_&Hp&Hb&Ho). cbn [hub_step] in *.
    by eapply provenance_sub; [by rewrite Hp|by rewrite Ho|by rewrite Hb|].
  - destruct (quiet_spec (HImmichFail k' c cid') h I) as (_&_&Hp&Hb&Ho). cbn [hub_step] in *.
    by eapply provenance_sub; [by rewrite Hp|by rewrite Ho|by rewrite Hb|].
  - destruct (CloseAgent_locked k' h) as [[conn bs] h'] eqn:Hcl. simpl.
    apply CloseAgent_spec in Hcl as (_&_&_&Hp&_&Hb&Ho).
    eapply provenance_sub; [|by rewrite Ho|by rewrite Hb|done].
    apply map_subseteq_spec. intros code p. rewrite Hp. by case_bool_decide.
  - destruct (quiet_spec (HWriteMu c) h I) as (_&_&Hp&Hb&Ho). cbn [hub_step] in *.
    by eapply provenance_sub; [by rewrite Hp|by rewrite Ho|by rewrite Hb|].
  - destruct (quiet_spec (HDropWrite c) h I) as (_&_&Hp&Hb&Ho). cbn [hub_step] in *.
    by eapply provenance_sub; [by rewrite Hp|by rewrite Ho|by rewrite Hb|].
Qed.

Lemma agentOwns_iff k c code h :
  agentOwnsSessionLocked k c code h = true <->
  k <> EmptyString /\ c <> None /\ agents h !! k = Some c /\ codes h !! code = Some k.
Proof.
  unfold agentOwnsSessionLocked, agent_conn, code_owner, mlookup.
  rewrite !andb_true_iff, !negb_true_iff, !bool_decide_eq_false, !bool_decide_eq_true.
  destruct (agents h !! k), (codes h !! code); simpl; naive_solver.
Qed.

(** Shares are isolated: when every socket registers only under
    the key it authenticated with, then whatever happened at the hub, a
    message from an agent reaches a browser only if the sender is the current
    socket of the key, the key owns the share, and the browser was paired with
    this very share for this very key. *)
Theorem browser_delivery_authorized own ops k s b :
  Forall (own_ok own) ops ->
  let h := hub_run ops New in
  (forall sid, browser_target k (Some s) sid h = Some b ->
     own s = k /\ agents h !! k = Some (Some s) /\ codes h !! sid = Some k
     /\ b <> None /\ exists cid, HPair sid cid k b ∈ ops)
  /\ (forall cid, conn_target k (Some s) cid h = Some b ->
     own s = k /\ agents h !! k = Some (Some s)
     /\ exists sid, codes h !! sid = Some k /\ b <> None /\ HPair sid cid k b ∈ ops
        /\ BrowserSessionForAgent k (Some s) cid h = (sid, true)).
Proof.
  intros Hops h.
  assert (authority own h) as [H1 H2 H3].
  { apply (hub_run_ind (authority own) (own_ok own)); [|done|apply New_authority].
    intros op h0. by apply authority_step. }
  assert (provenance (fun op => op ∈ ops) h) as [P1 P2].
  { assert (Forall (fun op => op ∈ ops) ops) as Hin by (by apply Forall_forall).
    apply (hub_run_ind (provenance (fun op => op ∈ ops)) (fun op => op ∈ ops)); [|done|by constructor].
    intros op h0. by apply (provenance_step (fun op => op ∈ ops)). }
  assert (forall c code, agentOwnsSessionLocked k c code h = true -> c = Some s -> own s = k) as Hown.
  { intros c code (_&_&Ha&_)%agentOwns_iff ->. by destruct (H1 _ _ Ha) as (?&[= <-]&?). }
  split.
  - intros sid. unfold browser_target. destruct (pairs h !! sid) as [p|] eqn:Hp; [|done].
    destruct (agentOwnsSessionLocked k (Some s) sid h) eqn:Hl; [|done]. simpl.
    case_bool_decide as Hpa; [|done]. intros [= <-]. pose proof (Hown _ _ Hl eq_refl) as Hos.
    apply agentOwns_iff in Hl as (_&_&?&?). destruct (P1 _ _ Hp) as (cid&Hin&?).
    destruct (H2 _ _ Hp) as (s'&Hs'&Hk). split_and!; auto. exists cid.
    by replace k with (p_apiKeyID p) by congruence.
  - intros cid. unfold conn_target, BrowserSessionForAgent, browserForAgentLocked.
    destruct (browserOwners h !! cid) as [o|] eqn:Ho; [|done].
    unfold mlookup. destruct (connBrowsers h !! cid) as [[b'|]|] eqn:Hb; [|done|done]. simpl.
    repeat (case_bool_decide; simpl; [|done]).
    destruct (agentOwnsSessionLocked k (Some s) _ h) eqn:Hl; [|done]. simpl. intros [= <-].
    pose proof (Hown _ _ Hl eq_refl) as Hos. apply agentOwns_iff in Hl as (_&_&?&?).
    split_and!; auto. exists (o_sessionID o). split_and!; auto.
    pose proof (P2 _ _ _ Ho Hb). by simplify_eq.
Qed.

Definition demo_own (s : socket) : string := if bool_decide (s = 1) then "k1" else "k2".
Lemma browser_delivery_authorized_witness :
  let h := hub_run [HRegister "k1" (Some 1); HCode "code1" "k1"; HPair "code1" "b1" "k1" (Some 9)] New in
  (forall sid, browser_target "k1" (Some 1) sid h = Some (Some 9) ->
     demo_own 1 = "k1"%string /\ agents h !! "k1"%string = Some (Some 1) /\ codes h !! sid = Some "k1"%string
     /\ Some 9 <> None /\ exists cid, HPair sid cid "k1" (Some 9)
        ∈ [HRegister "k1" (Some 1); HCode "code1" "k1"; HPair "code1" "b1" "k1" (Some 9)])
  /\ (forall cid, conn_target "k1" (Some 1) cid h = Some (Some 9) ->
     demo_own 1 = "k1"%string /\ agents h !! "k1"%string = Some (Some 1)
     /\ exists sid, codes h !! sid = Some "k1"%string /\ Some 9 <> None
        /\ HPair sid cid "k1" (Some 9)
           ∈ [HRegister "k1" (Some 1); HCode "code1" "k1"; HPair "code1" "b1" "k1" (Some 9)]
        /\ BrowserSessionForAgent "k1" (Some 1) cid h = (sid, true)).
Proof.
  apply (browser_delivery_authorized demo_own).
  apply Forall_cons. split; [exists 1; split; reflexivity|].
  repeat (apply Forall_cons; split; [exact I|]). constructor.
Defined.
