(* ===== verification/Db.v ===== *)
(** The database the signaling server keeps its accounts, API keys and shares
    in.  PocketBase is third-party code: its operations are an interface
    ([PocketBase]) with the laws the handlers rely on ([PocketBaseLaws]), and
    an in-memory instance on which concrete examples run.  Numbers are IEEE
    binary64, as in Go. *)

From Stdlib Require Import Floats.SpecFloat.
From stdpp Require Import pretty.
From S2P Require Import Prelude Float64 Json.
#[local] Open Scope Z_scope.

(** * Records *)

Inductive value : Type :=
| VStr (s : string)
| VBool (b : bool)
| VFloat (f : float64)
| VInt (z : Z)
| VTime (t : Z).

(** A [*core.Record]: its collection, id and field values. *)
Record record := mkRecord { r_coll : string; r_id : string; r_fields : gmap string value }.

Definition NewRecord (coll : string) : record := mkRecord coll "" ∅.
(** [record.Set]. *)
Definition rset (k : string) (v : value) (r : record) : record :=
  mkRecord (r_coll r) (r_id r) (<[k := v]> (r_fields r)).
(** The getters: a field never set reads as the zero value. *)
Definition GetString (r : record) (k : string) : string :=
  match r_fields r !! k with Some (VStr s) => s | _ => "" end.
Definition GetBool (r : record) (k : string) : bool :=
  match r_fields r !! k with Some (VBool b) => b | _ => false end.
Definition GetFloat (r : record) (k : string) : float64 :=
  match r_fields r !! k with Some (VFloat f) => f | Some (VInt z) => f64_of_Z z | _ => S754_zero false end.
Definition GetDateTime (r : record) (k : string) : Z :=
  match r_fields r !! k with Some (VTime t) => t | _ => zero_time end.

Lemma GetString_set r k s : GetString (rset k (VStr s) r) k = s.
Proof. unfold GetString, rset. simpl. by rewrite lookup_insert_eq. Qed.
Lemma GetString_set_ne r k k' v : k <> k' -> GetString (rset k v r) k' = GetString r k'.
Proof. intros. unfold GetString, rset. simpl. by rewrite lookup_insert_ne. Qed.
Lemma GetBool_set r k b : GetBool (rset k (VBool b) r) k = b.
Proof. unfold GetBool, rset. simpl. by rewrite lookup_insert_eq. Qed.
Lemma GetBool_set_ne r k k' v : k <> k' -> GetBool (rset k v r) k' = GetBool r k'.
Proof. intros. unfold GetBool, rset. simpl. by rewrite lookup_insert_ne. Qed.

(** ** Records with the same content *)

(** The fields the library fills in itself: the autodate fields of the schema
    (created, updated), which every [Save] may set, and what it keeps of an
    account's password. *)
Definition automatic : list string := ["created"; "updated"; "tokenKey"; "password"]%string.
(** A time is kept to the millisecond. *)
Definition Milli : Z := 1000000.
Definition trunc_milli (t : Z) : Z := t - t mod Milli.

(** The same collection and content, but for the automatic fields. *)
Record kept (r r' : record) : Prop := {
  kp_coll : r_coll r' = r_coll r;
  kp_string : forall k, k ∉ automatic -> GetString r' k = GetString r k;
  kp_bool : forall k, k ∉ automatic -> GetBool r' k = GetBool r k;
  kp_float : forall k, k ∉ automatic -> GetFloat r' k = GetFloat r k;
  kp_time : forall k, k ∉ automatic -> trunc_milli (GetDateTime r' k) = trunc_milli (GetDateTime r k) }.

#[export] Instance kept_equiv : Equivalence kept.
Proof.
  split.
  - intros r. by constructor.
  - intros r r' [Hc Hs Hb Hf Ht]. constructor; [done|..]; intros k Hk; by (rewrite Hs || rewrite Hb || rewrite Hf || rewrite Ht).
  - intros r1 r2 r3 [Hc Hs Hb Hf Ht] [Hc2 Hs2 Hb2 Hf2 Ht2]. constructor; [congruence|..]; intros k Hk;
      by (rewrite Hs2, Hs || rewrite Hb2, Hb || rewrite Hf2, Hf || rewrite Ht2, Ht).
Qed.

(** Setting the same field keeps it. *)
#[export] Instance rset_kept k v : Proper (kept ==> kept) (rset k v).
Proof.
  intros r r' [Hc Hs Hb Hf Ht]. constructor; [done|..]; intros k' Hk';
    specialize (Hs k' Hk'); specialize (Hb k' Hk'); specialize (Hf k' Hk'); specialize (Ht k' Hk');
    unfold GetString, GetBool, GetFloat, GetDateTime, rset in *; cbn [r_fields];
    (destruct (decide (k = k')) as [->|]; [by rewrite !lookup_insert_eq|by rewrite !lookup_insert_ne]).
Qed.
(** An automatic field is no content. *)
Lemma kept_automatic k v r : k ∈ automatic -> kept r (rset k v r).
Proof.
  intros Hk. constructor; [done|..]; intros k' Hk';
    unfold GetString, GetBool, GetFloat, GetDateTime, rset; cbn [r_fields]; rewrite lookup_insert_ne; done || (by intros ->).
Qed.
(** A field that is not automatic, by computation. *)
Ltac content := refine (bool_decide_unpack _ _); vm_compute; exact I.
#[export] Hint Extern 0 (_ ∉ automatic) => content : core.

(** * The interface *)

Abbreviation db_error := string.

Class PocketBase := {
  db : Type;
  FindCollection : string -> db -> result unit db_error;
  FindRecordById : string -> string -> db -> result record db_error;
  (** the records of a collection whose string fields have the given values, at most [n] *)
  FindRecords : string -> list (string * string) -> nat -> db -> result (list record) db_error;
  (** the same with the newest first, for a list page *)
  FindNewest : string -> list (string * string) -> nat -> db -> result (list record) db_error;
  (** the related record, when the relation field was expanded *)
  ExpandedOne : record -> string -> option record;
  (** [Save] fills in the id of a new record in the caller's record *)
  Save : record -> db -> result record db_error * db;
  Delete : record -> db -> result unit db_error * db;
  (** [SELECT s.id, ak.account_id, s.agent_id FROM sessions s JOIN api_keys ak ...] *)
  SelectOwner : string -> db -> result (option (string * string * string)) db_error;
  (** [UPDATE sessions SET api_key_id = new WHERE api_key_id = old] *)
  MoveSessions : string -> string -> db -> result unit db_error * db;
  (** [UPDATE users SET current_period_usage_gb = current_period_usage_gb + inc WHERE id = id] *)
  AddUsage : float64 -> string -> db -> result unit db_error * db }.

(** [app.RunInTransaction]: an error rolls everything back. *)
Definition RunInTransaction `{PocketBase} {A E} (f : db -> result A E * db) (d : db) : result A E * db :=
  match f d with
  | (Ok a, d') => (Ok a, d')
  | (Err e, _) => (Err e, d)
  end.

(** The collections with a relation to a collection, or to one of those, whose
    records are deleted with it.
    [signaling-server/migrations/1_create_collections.go:33-39] CreateCollections *)
Definition dependents (c : string) : list string :=
  (if bool_decide (c = "users") then ["api_keys"; "sessions"; "bandwidth_usage"]
   else if bool_decide (c = "api_keys") then ["sessions"] else [])%string.

Class PocketBaseLaws `{PocketBase} : Prop := {
  find_id : forall c i d r, FindRecordById c i d = Ok r -> r_coll r = c /\ r_id r = i /\ i <> ""%string;
  find_spec : forall c q n d rs, FindRecords c q n d = Ok rs ->
    Forall (fun r => FindRecordById c (r_id r) d = Ok r /\ Forall (fun kv => GetString r kv.1 = kv.2) q) rs;
  find_complete : forall c q n d rs i r, FindRecords c q n d = Ok rs -> (length rs < n)%nat ->
    FindRecordById c i d = Ok r -> Forall (fun kv => GetString r kv.1 = kv.2) q -> r ∈ rs;
  newest_spec : forall c q n d rs, FindNewest c q n d = Ok rs ->
    Forall (fun r => FindRecordById c (r_id r) d = Ok r /\ Forall (fun kv => GetString r kv.1 = kv.2) q) rs;
  expanded_spec : forall r k r', ExpandedOne r k = Some r' -> r_id r' = GetString r k;
  (** the index on [sessions.code] is unique *)
  save_unique : forall r d r' d' i0 r0, Save r d = (Ok r', d') -> r_coll r = "sessions"%string ->
    FindRecordById "sessions" i0 d = Ok r0 -> GetString r0 "code" = GetString r "code" -> i0 = r_id r';
  (** the caller's record and the stored one have the content that was saved *)
  save_ok : forall r d r' d', Save r d = (Ok r', d') ->
    kept r r' /\ r_id r' <> ""%string
    /\ (r_id r <> ""%string -> r_id r' = r_id r)
    /\ (r_id r = ""%string -> forall r0, FindRecordById (r_coll r) (r_id r') d <> Ok r0)
    /\ (exists s, FindRecordById (r_coll r) (r_id r') d' = Ok s /\ kept r s)
    /\ (forall c i, (c, i) <> (r_coll r, r_id r') -> FindRecordById c i d' = FindRecordById c i d);
  save_err : forall r d e d', Save r d = (Err e, d') -> d' = d;
  (** what hangs on the record by a relation that cascades may go with it *)
  delete_ok : forall r d d', Delete r d = (Ok tt, d') ->
    (forall r0, FindRecordById (r_coll r) (r_id r) d' <> Ok r0)
    /\ (forall c i, (c, i) <> (r_coll r, r_id r) -> c ∉ dependents (r_coll r) -> FindRecordById c i d' = FindRecordById c i d)
    /\ (forall c i s, FindRecordById c i d' = Ok s -> FindRecordById c i d = Ok s);
  delete_err : forall r d e d', Delete r d = (Err e, d') -> d' = d;
  (** the owner query joins a share with its API key *)
  owner_some : forall code d sid acct ag, SelectOwner code d = Ok (Some (sid, acct, ag)) ->
    exists s k, FindRecordById "sessions" sid d = Ok s /\ GetString s "code" = code
      /\ GetString s "agent_id" = ag
      /\ FindRecordById "api_keys" (GetString s "api_key_id") d = Ok k /\ GetString k "account_id" = acct;
  owner_none : forall code d s k, SelectOwner code d = Ok None ->
    FindRecordById "sessions" (r_id s) d = Ok s -> GetString s "code" = code ->
    FindRecordById "api_keys" (GetString s "api_key_id") d <> Ok k;
  move_ok : forall new old d d', MoveSessions new old d = (Ok tt, d') ->
    (forall i s, FindRecordById "sessions" i d = Ok s ->
       FindRecordById "sessions" i d'
       = Ok (if bool_decide (GetString s "api_key_id" = old) then rset "api_key_id" (VStr new) s else s))
    /\ (forall i s, FindRecordById "sessions" i d' = Ok s -> exists s0, FindRecordById "sessions" i d = Ok s0)
    /\ (forall c i, c <> "sessions"%string -> FindRecordById c i d' = FindRecordById c i d);
  usage_ok : forall inc i d d' u, AddUsage inc i d = (Ok tt, d') -> FindRecordById "users" i d = Ok u ->
    FindRecordById "users" i d'
    = Ok (rset "current_period_usage_gb" (VFloat (f64_add (GetFloat u "current_period_usage_gb") inc)) u)
    /\ (forall c j, (c, j) <> ("users"%string, i) -> FindRecordById c j d' = FindRecordById c j d) }.

(** * An in-memory database *)

Record memdb := mkMem { m_tbl : gmap (string * string) (gmap string value); m_next : N }.

Definition mem_records (c : string) (d : memdb) : list record :=
  omap (fun kv : (string * string) * gmap string value =>
          if bool_decide (kv.1.1 = c) && negb (bool_decide (kv.1.2 = ""%string)) then Some (mkRecord c kv.1.2 kv.2) else None)
       (map_to_list (m_tbl d)).

Definition mem_matches (q : list (string * string)) (r : record) : bool :=
  forallb (fun kv => bool_decide (GetString r kv.1 = kv.2)) q.

Definition mem_conflict (r : record) (i : string) (d : memdb) : bool :=
  bool_decide (r_coll r = "sessions"%string)
  && existsb (fun r0 => negb (bool_decide (r_id r0 = i)) && bool_decide (GetString r0 "code" = GetString r "code"))
       (mem_records "sessions" d).

(** The clock of the example counts its saves. *)
Definition mem_now (d : memdb) : value := VTime (Z.of_N (m_next d) * Second).
Definition stamp (fresh : bool) (t : value) (r : record) : record :=
  let r := rset "updated" t r in if fresh then rset "created" t r else r.
Definition mem_save (r : record) (d : memdb) : result record db_error * memdb :=
  let fresh := bool_decide (r_id r = ""%string) in
  let i := if fresh then ("id" ++ pretty (m_next d))%string else r_id r in
  let f := r_fields (stamp fresh (mem_now d) r) in
  if fresh && bool_decide (is_Some (m_tbl d !! (r_coll r, i))) then (Err "id taken"%string, d)
  else if mem_conflict r i d then (Err "UNIQUE constraint failed: sessions.code"%string, d)
  else (Ok (mkRecord (r_coll r) i f), mkMem (<[(r_coll r, i) := f]> (m_tbl d)) (m_next d + 1)).

Definition mem_find (c i : string) (d : memdb) : result record db_error :=
  match m_tbl d !! (c, i) with
  | Some f => if bool_decide (i = ""%string) then Err "id required"%string else Ok (mkRecord c i f)
  | None => Err "sql: no rows in result set"%string
  end.

(** Whether a stored record goes when the record [i] of [c] does. *)
Definition mem_text (f : gmap string value) (k : string) : string := match f !! k with Some (VStr s) => s | _ => ""%string end.
Definition mem_hangs (c i : string) (d : memdb) (k : string * string) (f : gmap string value) : bool :=
  bool_decide (k.1 ∈ dependents c) &&
  (bool_decide (mem_text f (if bool_decide (c = "users") then "account_id" else "api_key_id")%string = i)
   || match mem_find "api_keys" (mem_text f "api_key_id") d with Ok key => bool_decide (GetString key "account_id" = i) | Err _ => false end).
Definition mem_delete (r : record) (d : memdb) : result unit db_error * memdb :=
  if bool_decide (is_Some (m_tbl d !! (r_coll r, r_id r)))
  then (Ok tt, mkMem (delete (r_coll r, r_id r)
                        (filter (fun kf => mem_hangs (r_coll r) (r_id r) d kf.1 kf.2 = false) (m_tbl d))) (m_next d))
  else (Err "missing"%string, d).

Definition mem_owner (d : memdb) (s : record) : option (string * string * string) :=
  match mem_find "api_keys" (GetString s "api_key_id") d with
  | Ok k => Some (r_id s, GetString k "account_id", GetString s "agent_id")
  | Err _ => None
  end.

#[export] Instance mem_pocketbase : PocketBase := {|
  db := memdb;
  FindCollection _ _ := Ok tt;
  FindRecordById := mem_find;
  FindRecords c q n d := Ok (take n (filter (fun r => Is_true (mem_matches q r)) (mem_records c d)));
  FindNewest c q n d := Ok (take n (filter (fun r => Is_true (mem_matches q r)) (mem_records c d)));
  ExpandedOne _ _ := None;
  Save := mem_save;
  Delete := mem_delete;
  SelectOwner code d := Ok (head (omap (mem_owner d)
      (filter (fun r => Is_true (mem_matches [("code", code)] r)) (mem_records "sessions" d))));
  MoveSessions new old d :=
    (Ok tt, mkMem (map_imap (fun k f =>
        let r := mkRecord k.1 k.2 f in
        Some (if bool_decide (k.1 = "sessions"%string) && bool_decide (GetString r "api_key_id" = old)
              then r_fields (rset "api_key_id" (VStr new) r) else f)) (m_tbl d)) (m_next d));
  AddUsage inc i d :=
    (Ok tt, mkMem (alter (fun f =>
        let u := mkRecord "users" i f in
        r_fields (rset "current_period_usage_gb" (VFloat (f64_add (GetFloat u "current_period_usage_gb") inc)) u))
        ("users"%string, i) (m_tbl d)) (m_next d)) |}.

Lemma mem_find_ok c i d r :
  mem_find c i d = Ok r <->
  m_tbl d !! (c, i) = Some (r_fields r) /\ r_coll r = c /\ r_id r = i /\ i <> ""%string.
Proof.
  unfold mem_find. destruct (m_tbl d !! (c, i)) as [f|]; [|naive_solver].
  destruct r as [c' i' f']. simpl. case_bool_decide; naive_solver.
Qed.

Lemma mem_records_spec c d r :
  r ∈ mem_records c d <-> mem_find c (r_id r) d = Ok r.
Proof.
  unfold mem_records. rewrite list_elem_of_omap, mem_find_ok. split.
  - intros ([[c' i] f]&Hin%elem_of_map_to_list&Hr). simpl in Hr.
    do 2 (case_bool_decide; simpl in Hr; [try done|try done]). injection Hr as <-. simpl in *. by subst c'.
  - intros (Hl&Hc&_&Hi). exists ((c, r_id r), r_fields r). split; [by apply elem_of_map_to_list|].
    simpl. rewrite bool_decide_true, bool_decide_false by done. destruct r. simpl in *. by subst.
Qed.

Lemma mem_matches_spec q r : mem_matches q r = true <-> Forall (fun kv => GetString r kv.1 = kv.2) q.
Proof.
  unfold mem_matches. rewrite forallb_forall, Forall_forall. split; intros Hq x Hx.
  - apply list_elem_of_In in Hx. apply Hq in Hx. by apply bool_decide_eq_true in Hx.
  - apply bool_decide_eq_true. apply Hq. by apply list_elem_of_In.
Qed.

Lemma mem_query c q n d :
  Forall (fun r => mem_find c (r_id r) d = Ok r /\ Forall (fun kv => GetString r kv.1 = kv.2) q)
    (take n (filter (fun r => Is_true (mem_matches q r)) (mem_records c d))).
Proof.
  apply Forall_take, Forall_forall.
  intros r Hr. apply list_elem_of_filter in Hr as [Hm Hr]. apply mem_records_spec in Hr. split; [done|].
  apply mem_matches_spec. by destruct (mem_matches q r).
Qed.

Lemma stamp_kept fresh z r : kept r (stamp fresh (VTime z) r).
Proof.
  unfold stamp. assert (kept r (rset "updated" (VTime z) r)) as Hu by (apply kept_automatic; by apply (bool_decide_unpack _)).
  destruct fresh; [|done]. rewrite Hu at 1. apply kept_automatic. by apply (bool_decide_unpack _).
Qed.

Lemma mem_save_ok r d r' d' : mem_save r d = (Ok r', d') ->
  exists i f, r' = mkRecord (r_coll r) i f /\ d' = mkMem (<[(r_coll r, i) := f]> (m_tbl d)) (m_next d + 1) /\
    kept r (mkRecord (r_coll r) i f) /\ i <> ""%string /\ (r_id r <> ""%string -> i = r_id r) /\
    (r_id r = ""%string -> m_tbl d !! (r_coll r, i) = None).
Proof.
  unfold mem_save. set (fresh := bool_decide (r_id r = ""%string)).
  set (i := if fresh then _ else _). destruct (fresh && _) eqn:Ht; [done|]. destruct (mem_conflict r i d); [done|]. intros [= <- <-].
  exists i. eexists. split; [done|]. split; [done|]. split; [|unfold i, fresh in *; case_bool_decide as Hi; split_and!; try done].
  - destruct (stamp_kept fresh (Z.of_N (m_next d) * Second) r) as [Hc Hs Hb Hf Hm]. by constructor.
  - intros _. cbn [andb] in Ht. apply bool_decide_eq_false in Ht. by apply eq_None_not_Some.
Qed.

#[export] Instance mem_laws : PocketBaseLaws.
Proof.
  constructor; simpl.
  - intros c i d r (?&?&?&?)%mem_find_ok. done.
  - intros c q n d rs [= <-]. apply mem_query.
  - intros c q n d rs i r [= <-] Hn Hf Hq. rewrite length_take in Hn. rewrite take_ge by lia.
    apply list_elem_of_filter. split.
    + replace (mem_matches q r) with true; [done|]. symmetry. by apply mem_matches_spec.
    + apply mem_records_spec. by destruct (proj1 (mem_find_ok c i d r) Hf) as (_&_&->&_).
  - intros c q n d rs [= <-]. apply mem_query.
  - done.
  - intros r d r' d' i0 r0 Hs Hc Hf Hcode. unfold mem_save in Hs.
    destruct (_ && _); [done|]. destruct (mem_conflict _ _ d) eqn:Hcf; [done|]. injection Hs as <- <-. simpl.
    destruct (decide (i0 = if bool_decide (r_id r = ""%string) then ("id" ++ pretty (m_next d))%string else r_id r))
      as [->|Hne]; [done|].
    unfold mem_conflict in Hcf. rewrite bool_decide_true in Hcf by done. simpl in Hcf.
    assert (r_id r0 = i0) as Hid by (by apply mem_find_ok in Hf as (_&_&?&_)). subst i0.
    apply mem_records_spec in Hf. apply not_true_iff_false in Hcf. destruct Hcf.
    apply existsb_exists. exists r0. split; [by apply list_elem_of_In|].
    rewrite bool_decide_false, bool_decide_true by done. done.
  - intros r d r' d' Hs. apply mem_save_ok in Hs as (i&f&->&->&Hf&Hi&Hid&Hnew). cbn [r_coll r_id].
    split_and!; [exact Hf|exact Hi|exact Hid| | |].
    + intros Hr r0 (Hl&_)%mem_find_ok. rewrite (Hnew Hr) in Hl. done.
    + exists (mkRecord (r_coll r) i f). split; [|exact Hf]. apply mem_find_ok. cbn. by rewrite lookup_insert_eq.
    + intros c j Hne. unfold mem_find. cbn. by rewrite lookup_insert_ne by congruence.
  - intros r d e d'. unfold mem_save. destruct (_ && _); [by intros [= _ <-]|].
    destruct (mem_conflict _ _ _); [by intros [= _ <-]|done].
  - intros r d d'. unfold mem_delete. case_bool_decide; [|done]. intros [= <-]. split_and!.
    + intros r0 (Hl&_)%mem_find_ok. cbn in Hl. by rewrite lookup_delete_eq in Hl.
    + intros c i Hne Hc. unfold mem_find. cbn. rewrite lookup_delete_ne by congruence.
      destruct (m_tbl d !! (c, i)) as [f|] eqn:Hf.
      * erewrite map_lookup_filter_Some_2; [done|exact Hf|]. unfold mem_hangs. cbn. by rewrite (bool_decide_false (c ∈ _)).
      * rewrite map_lookup_filter_None_2; [done|by left].
    + intros c i s (Hl&Hcs)%mem_find_ok. apply mem_find_ok. cbn in Hl.
      apply lookup_delete_Some in Hl as [_ Hl]. by apply map_lookup_filter_Some_1_1 in Hl.
  - intros r d e d'. unfold mem_delete. case_bool_decide; [done|by intros [= _ <-]].
  - intros code d sid acct ag [= Hh]. apply head_Some_elem_of, list_elem_of_omap in Hh as (s&Hs&Ho).
    apply list_elem_of_filter in Hs as [Hm Hs]. apply mem_records_spec in Hs.
    assert (mem_matches [("code", code)] s = true) as Hq%mem_matches_spec by exact (Is_true_true_1 _ Hm).
    apply Forall_cons_1 in Hq as [Hcode _]. unfold mem_owner in Ho.
    destruct (mem_find "api_keys" _ d) as [k|] eqn:Hk; [|done]. injection Ho as <- <- <-. by exists s, k.
  - intros code d s k [= Hh] Hs Hcode Hk.
    assert (omap (mem_owner d) (filter (fun r => Is_true (mem_matches [("code", code)] r)) (mem_records "sessions" d)) = [])
      as Hn by (by destruct (omap _ _)).
    assert ((r_id s, GetString k "account_id", GetString s "agent_id")
      ∈ omap (mem_owner d) (filter (fun r => Is_true (mem_matches [("code", code)] r)) (mem_records "sessions" d))) as Hin.
    { apply list_elem_of_omap. exists s. split.
      - apply list_elem_of_filter. split; [|by apply mem_records_spec].
        replace (mem_matches _ s) with true; [done|]. symmetry. apply mem_matches_spec. by repeat constructor.
      - unfold mem_owner. by rewrite Hk. }
    rewrite Hn in Hin. by apply not_elem_of_nil in Hin.
  - intros new old d d' [= <-]. split_and!.
    + intros i s (Hl&Hc&Hi&Hn)%mem_find_ok. unfold mem_find. simpl. rewrite map_lookup_imap, Hl. simpl.
      rewrite (bool_decide_false (i = _)) by done. rewrite <- Hc, <- Hi. destruct s as [c i0 f]. simpl in *. subst c i0. by destruct (bool_decide _).
    + intros i s (Hl&_&_&Hn)%mem_find_ok. simpl in Hl. rewrite map_lookup_imap in Hl. unfold mem_find.
      rewrite bool_decide_false by done. destruct (m_tbl d !! _); [eauto|done].
    + intros c i Hne. unfold mem_find. simpl. rewrite map_lookup_imap.
      destruct (m_tbl d !! (c, i)) as [f|]; [|done]. simpl. by rewrite (bool_decide_false (c = _)).
  - intros inc i d d' u [= <-] (Hl&Hc&Hi&Hn)%mem_find_ok. split.
    + unfold mem_find. simpl. rewrite lookup_alter_eq, Hl. simpl. rewrite bool_decide_false by done. destruct u; simpl in *. by subst.
    + intros c j Hne. unfold mem_find. simpl. by rewrite lookup_alter_ne by congruence.
Qed.
