(* ===== verification/Server.v ===== *)
(** The world the signaling server's handlers share (the hub, the relay
    registry, the database, the sockets, the clock and the random source), the
    actions on it, and the hub operations that also write to sockets
    (signaling-server/internal/hub/hub.go).  The database and the JWT library
    are interfaces.  Each critical section, database call, socket read and
    socket write is one atomic action; anything may run between two actions. *)

From S2P Require Import Prelude Conc Json Tokens Registry Hub Db.
#[local] Open Scope Z_scope.

(** * Sockets (github.com/coder/websocket) *)

(** A message: its type, its bytes, and what [json.Unmarshal] makes of them. *)
Record frame := mkFrame { f_binary : bool; f_data : bytes; f_json : option json }.

(** What the peer has sent and the server not yet read; whether the socket is open. *)
Record wssock := mkSock { inq : list frame; up : bool }.

(** The log of the world: what was written to, read from and done to sockets;
    [Bound] and [Charged] note a relay socket's binding and a charge to an
    account, for the statements. *)
Inductive effect : Type :=
| WroteJson (c : nat) (m : obj)
| WroteFrame (c : nat) (f : frame)
| Closed (c : nat) (status : Z) (reason : string)
| ClosedNow (c : nat)
| NilDeref
| Got (c : nat) (f : frame)
| Bound (agent : bool) (sid : string) (c : nat)
| Charged (account : string) (n : Z).

Definition StatusNormalClosure : Z := 1000.
Definition StatusPolicyViolation : Z := 1008.
Definition StatusInternalError : Z := 1011.

(** * The world *)

Section server.
Context `{PocketBase}.

Record World := mkWorld {
  w_hub : Hub; w_reg : Registry; w_db : db;
  w_socks : gmap nat wssock; w_log : list effect; w_now : Z; w_rand : list Z;
  w_once : list (option bool) (* the [sync.Once]s: running, or finished *) }.

Definition set_hub h w := mkWorld h (w_reg w) (w_db w) (w_socks w) (w_log w) (w_now w) (w_rand w) (w_once w).
Definition set_reg r w := mkWorld (w_hub w) r (w_db w) (w_socks w) (w_log w) (w_now w) (w_rand w) (w_once w).
Definition set_db d w := mkWorld (w_hub w) (w_reg w) d (w_socks w) (w_log w) (w_now w) (w_rand w) (w_once w).
Definition set_socks s w := mkWorld (w_hub w) (w_reg w) (w_db w) s (w_log w) (w_now w) (w_rand w) (w_once w).
Definition add_log e w := mkWorld (w_hub w) (w_reg w) (w_db w) (w_socks w) (w_log w ++ [e]) (w_now w) (w_rand w) (w_once w).
Definition set_now t w := mkWorld (w_hub w) (w_reg w) (w_db w) (w_socks w) (w_log w) t (w_rand w) (w_once w).
Definition set_rand l w := mkWorld (w_hub w) (w_reg w) (w_db w) (w_socks w) (w_log w) (w_now w) l (w_once w).
Definition set_once o w := mkWorld (w_hub w) (w_reg w) (w_db w) (w_socks w) (w_log w) (w_now w) (w_rand w) o.

(** A handler: a goroutine of the server. *)
Abbreviation handler := (proc World).

(** ** Actions *)

Definition hub_act {A} (f : Hub -> A * Hub) : handler A :=
  atomic (fun w => let '(a, h) := f (w_hub w) in (a, set_hub h w)).
Definition hub_do (f : Hub -> Hub) : handler unit := hub_act (fun h => (tt, f h)).
Definition hub_get {A} (f : Hub -> A) : handler A := reads (fun w => f (w_hub w)).
Definition reg_act {A} (f : Registry -> A * Registry) : handler A :=
  atomic (fun w => let '(a, r) := f (w_reg w) in (a, set_reg r w)).
Definition reg_do (f : Registry -> Registry) : handler unit := reg_act (fun r => (tt, f r)).
Definition db_act {A} (f : db -> A * db) : handler A :=
  atomic (fun w => let '(a, d) := f (w_db w) in (a, set_db d w)).
Definition db_get {A} (f : db -> A) : handler A := reads (fun w => f (w_db w)).
(** [time.Now()]. *)
Definition get_now : handler Z := reads w_now.

(** The random source: a pool the environment refills. *)
Definition draw : handler Z :=
  choices (fun w => match w_rand w with z :: l => [(z, set_rand l w)] | [] => [] end).
Fixpoint draws (n : nat) : handler (list Z) :=
  match n with
  | O => mret []
  | S n' => z ← draw; l ← draws n'; mret (z :: l)
  end.
(** [rand.Read] of [n] bytes. *)
Definition rand_read (n : nat) : handler bytes := l ← draws n; mret (map byte_of_Z l).

Definition sock (w : World) (c : nat) : wssock := mlookup (mkSock [] false) (w_socks w) c.

(** [conn.Read]: blocks while the socket is open and nothing has arrived. *)
Definition ws_read (c : nat) : handler (option frame) :=
  choices (fun w =>
    match inq (sock w c) with
    | f :: q => [(Some f, add_log (Got c f) (set_socks (<[c := mkSock q (up (sock w c))]> (w_socks w)) w))]
    | [] => []
    end ++ if up (sock w c) then [] else [(None, w)]).

(** [conn.Read] with a deadline: it also fails once the deadline passed. *)
Definition ws_read_until (c : nat) (deadline : Z) : handler (option frame) :=
  choices (fun w =>
    match inq (sock w c) with
    | f :: q => [(Some f, add_log (Got c f) (set_socks (<[c := mkSock q (up (sock w c))]> (w_socks w)) w))]
    | [] => []
    end ++ if up (sock w c) && (w_now w <? deadline) then [] else [(None, w)]).

Definition hang_up (c : nat) (w : World) : World :=
  set_socks (<[c := mkSock (inq (sock w c)) false]> (w_socks w)) w.

(** [conn.Write]: an open socket takes the message or fails; nil panics. *)
Definition ws_write (c : wsconn) (m : nat -> effect) : handler bool :=
  choices (fun w =>
    match c with
    | None => [(false, add_log NilDeref w)]
    | Some s => if up (sock w s) then [(true, add_log (m s) w); (false, hang_up s w)] else [(false, w)]
    end).

(** [conn.Close(status, reason)] and [conn.CloseNow()]. *)
Definition ws_close (c : wsconn) (status : Z) (reason : string) : handler unit :=
  modifies (fun w => match c with
                     | None => add_log NilDeref w
                     | Some s => add_log (Closed s status reason) (hang_up s w)
                     end).
Definition ws_close_now (c : wsconn) : handler unit :=
  modifies (fun w => match c with
                     | None => add_log NilDeref w
                     | Some s => add_log (ClosedNow s) (hang_up s w)
                     end).

(** ** [sync.Once] *)

Definition once_new : handler nat := atomic (fun w => (length (w_once w), set_once (w_once w ++ [None]) w)).

(** [o.Do(body)]: the first caller runs the body, the others wait for it. *)
Definition once_do (o : nat) (body : handler unit) : handler unit :=
  first ← choices (fun w => match w_once w !! o with
                            | Some None => [(true, set_once (<[o := Some false]> (w_once w)) w)]
                            | Some (Some true) => [(false, w)]
                            | _ => []
                            end);
  if (first : bool)
  then _ ← body; modifies (fun w => set_once (<[o := Some true]> (w_once w)) w)
  else mret tt.

(** * The hub operations that write *)

(** [json.Marshal] of these messages does not fail; the write mutex only orders
    writes, which are atomic here.
    [signaling-server/internal/hub/hub.go:203-214] send *)
Definition send (has_hub : bool) (conn : wsconn) (msg : obj) : handler bool :=
  _ ← (if has_hub then hub_do (writeMu conn) else mret tt);
  ws_write conn (fun s => WroteJson s msg).

(** [signaling-server/internal/hub/hub.go:195-197] SendDirect *)
Definition hub_SendDirect (conn : wsconn) (msg : obj) : handler bool := send true conn msg.
(** [signaling-server/internal/hub/hub.go:199-201] SendDirect *)
Definition SendDirect (conn : wsconn) (msg : obj) : handler bool := send false conn msg.

(** [{"type": t, ...}]. *)
Definition typed (t : string) (rest : obj) : obj := ("type"%string, JStr t) :: rest.
Definition error_msg (m : string) : obj := typed "error" [("message"%string, JStr m)].

(** [signaling-server/internal/hub/hub.go:97-113] UnregisterCode *)
Definition UnregisterCode (code apiKey reason : string) : handler unit :=
  p ← hub_act (UnregisterCode_locked code apiKey);
  match p with
  | Some p =>
      if bool_decide (p_browserConn p = None) then mret tt
      else _ ← send true (p_browserConn p) (error_msg reason); ws_close_now (p_browserConn p)
  | None => mret tt
  end.

(** [signaling-server/internal/hub/hub.go:164-172] SendToAgent *)
Definition SendToAgent (apiKey : string) (msg : obj) : handler bool :=
  t ← hub_get (agent_target apiKey);
  match t with None => mret false | Some conn => send true conn msg end.

(** [signaling-server/internal/hub/hub.go:174-182] ForwardToAgent *)
Definition ForwardToAgent (sessionID : string) (msg : obj) : handler bool :=
  t ← hub_get (pair_agent_target sessionID);
  match t with None => mret true | Some conn => send true conn msg end.

(** [signaling-server/internal/hub/hub.go:184-193] ForwardToBrowser *)
Definition ForwardToBrowser (apiKeyID : string) (agentConn : wsconn) (sessionID : string) (msg : obj)
    : handler bool :=
  t ← hub_get (browser_target apiKeyID agentConn sessionID);
  match t with None => mret true | Some conn => send true conn msg end.

(** [signaling-server/internal/hub/hub.go:295-305] ForwardToBrowserByConnID *)
Definition ForwardToBrowserByConnID (apiKeyID : string) (agentConn : wsconn) (connID : string) (msg : obj)
    : handler bool :=
  t ← hub_get (conn_target apiKeyID agentConn connID);
  match t with None => mret true | Some conn => send true conn msg end.

(** [signaling-server/internal/hub/hub.go:331-342] CloseBrowserConnWithError *)
Definition CloseBrowserConnWithError (apiKeyID : string) (agentConn : wsconn) (connID message : string)
    : handler unit :=
  t ← hub_get (conn_target apiKeyID agentConn connID);
  match t with
  | None => mret tt
  | Some conn => _ ← send true conn (error_msg message); ws_close conn StatusNormalClosure message
  end.

Fixpoint for_each {A} (l : list A) (f : A -> handler unit) : handler unit :=
  match l with [] => mret tt | x :: l' => _ ← f x; for_each l' f end.

(** [signaling-server/internal/hub/hub.go:235-279] CloseAgent *)
Definition CloseAgent (apiKeyID : string) : handler unit :=
  '(conn, browsers) ← hub_act (CloseAgent_locked apiKeyID);
  _ ← (match conn with
       | Some (Some s) =>
           _ ← hub_do (drop_write (Some s));
           ws_close (Some s) StatusPolicyViolation "API key revoked"
       | _ => mret tt
       end);
  for_each browsers (fun b =>
    _ ← hub_do (drop_write b);
    ws_close b StatusNormalClosure "agent disconnected").

(** * turn.BuildICEConfig *)

(** [signaling-server/internal/turn/credentials.go:13-16] Credentials *)
Record Credentials := mkCredentials { Username : string; Credential : string }.

(** [signaling-server/internal/turn/ice_config.go:3-8] ICEConfigRequest *)
Record ICEConfigRequest := mkICERequest { STUNURL : string; TurnURL : string; TurnCredentials : option Credentials }.

Definition str_field (k v : string) : obj := if bool_decide (v = ""%string) then [] else [(k, JStr v)].

(** [signaling-server/internal/turn/ice_config.go:10-15] ICEServer *)
Definition ICEServer (url username credential : string) : json :=
  JObj (("urls"%string, JArr [JStr url]) :: str_field "username" username ++ str_field "credential" credential).

(** [signaling-server/internal/turn/ice_config.go:17-33] BuildICEConfig *)
Definition BuildICEConfig (cfg : ICEConfigRequest) : list json :=
  let servers := [ICEServer (STUNURL cfg) "" ""] in
  match TurnCredentials cfg with
  | Some c =>
      if bool_decide (TurnURL cfg = ""%string) then servers
      else servers ++ [ICEServer (TurnURL cfg) (Username c) (Credential c)]
  | None => servers
  end.

(** The parts of config.Config the handlers use. *)
Record ServerConfig := mkServerConfig { cfg_STUNURL : string; RelayJWTSecret : string }.

(** * The actions, alone *)

Section alone.
Context {A : Type} (Q : A -> World -> Prop).

Lemma tot_hub_act (f : Hub -> A * Hub) w :
  Q (f (w_hub w)).1 (set_hub (f (w_hub w)).2 w) -> returns (hub_act f) Q w.
Proof. intros HQ. apply tot_atomic. by destruct (f (w_hub w)). Qed.
Lemma tot_hub_get (f : Hub -> A) w : Q (f (w_hub w)) w -> returns (hub_get f) Q w.
Proof. by apply (tot_reads (fun w => f (w_hub w))). Qed.
Lemma tot_reg_act (f : Registry -> A * Registry) w :
  Q (f (w_reg w)).1 (set_reg (f (w_reg w)).2 w) -> returns (reg_act f) Q w.
Proof. intros HQ. apply tot_atomic. by destruct (f (w_reg w)). Qed.
Lemma tot_db_act (f : db -> A * db) w :
  Q (f (w_db w)).1 (set_db (f (w_db w)).2 w) -> returns (db_act f) Q w.
Proof. intros HQ. apply tot_atomic. by destruct (f (w_db w)). Qed.
Lemma tot_db_get (f : db -> A) w : Q (f (w_db w)) w -> returns (db_get f) Q w.
Proof. by apply (tot_reads (fun w => f (w_db w))). Qed.
End alone.

Lemma tot_hub_do (f : Hub -> Hub) (Q : unit -> World -> Prop) w :
  Q tt (set_hub (f (w_hub w)) w) -> returns (hub_do f) Q w.
Proof. intros. by apply tot_hub_act. Qed.
Lemma tot_reg_do (f : Registry -> Registry) (Q : unit -> World -> Prop) w :
  Q tt (set_reg (f (w_reg w)) w) -> returns (reg_do f) Q w.
Proof. intros. by apply tot_reg_act. Qed.
Lemma tot_now (Q : Z -> World -> Prop) w : Q (w_now w) w -> returns get_now Q w.
Proof. apply tot_reads. Qed.

Lemma tot_draws n (Q : list Z -> World -> Prop) w :
  (n <= length (w_rand w))%nat -> Q (take n (w_rand w)) (set_rand (drop n (w_rand w)) w) ->
  returns (draws n) Q w.
Proof.
  revert Q w. induction n as [|n IH]; intros Q w Hlen HQ; simpl.
  - apply tot_ret. destruct w. done.
  - destruct (w_rand w) as [|z l] eqn:Hr; simpl in Hlen; [lia|].
    apply tot_bind, tot_choices; rewrite Hr; [done|]. intros b w2 Hin%list_elem_of_singleton. simplify_eq.
    apply tot_bind, IH; simpl; [lia|]. by apply tot_ret.
Qed.

Lemma tot_rand_read n (Q : bytes -> World -> Prop) w :
  (n <= length (w_rand w))%nat ->
  Q (map byte_of_Z (take n (w_rand w))) (set_rand (drop n (w_rand w)) w) -> returns (rand_read n) Q w.
Proof. intros Hl HQ. apply tot_bind, tot_draws; [done|]. by apply tot_ret. Qed.

(** A write to an open socket is taken or fails; to a closed one it fails. *)
Lemma tot_write (c : nat) (m : nat -> effect) (Q : bool -> World -> Prop) w :
  (up (sock w c) = true -> Q true (add_log (m c) w) /\ Q false (hang_up c w)) ->
  (up (sock w c) = false -> Q false w) -> returns (ws_write (Some c) m) Q w.
Proof.
  intros Hup Hdown. apply tot_choices; destruct (up (sock w c)); [done..| |].
  - intros b w2 Hin. destruct (Hup eq_refl). apply elem_of_cons in Hin as [Hin|Hin%list_elem_of_singleton]; by simplify_eq.
  - intros b w2 Hin%list_elem_of_singleton. simplify_eq. auto.
Qed.

Lemma tot_send (has_hub : bool) (c : nat) (m : obj) (Q : bool -> World -> Prop) w :
  (let w1 := if has_hub then set_hub (writeMu (Some c) (w_hub w)) w else w in
   (up (sock w c) = true -> Q true (add_log (WroteJson c m) w1) /\ Q false (hang_up c w1))
   /\ (up (sock w c) = false -> Q false w1)) -> returns (send has_hub (Some c) m) Q w.
Proof.
  intros [H1 H2]. apply tot_bind. destruct has_hub; simpl in *.
  - apply tot_hub_do. by apply tot_write.
  - apply tot_ret. by apply tot_write.
Qed.

Lemma tot_close c st re (Q : unit -> World -> Prop) w :
  Q tt (add_log (Closed c st re) (hang_up c w)) -> returns (ws_close (Some c) st re) Q w.
Proof. intros. by apply tot_modifies. Qed.

(** Writing to an open socket can succeed. *)
Lemma can_send (c : nat) (m : obj) (Q : bool -> World -> Prop) w : up (sock w c) = true ->
  Q true (add_log (WroteJson c m) (set_hub (writeMu (Some c) (w_hub w)) w)) -> may (send true (Some c) m) Q w.
Proof.
  intros Hup HQ. apply can_bind, can_atomic. cbn [fst snd]. eapply can_choices; [|exact HQ].
  change (sock (set_hub (writeMu (Some c) (w_hub w)) w) c) with (sock w c). rewrite Hup. left.
Qed.

(** * The environment *)

(** What happens outside the handlers: time passes, sockets open, receive and
    fail, the random source refills. *)
Definition env_step (w w' : World) : Prop :=
  w_hub w' = w_hub w /\ w_reg w' = w_reg w /\ w_db w' = w_db w /\ w_log w' = w_log w /\ w_now w <= w_now w'.
End server.

Arguments World {_}.
