(* ===== verification/Accounting.v ===== *)
(** Relay byte accounting (signaling-server/internal/relay/accounting.go):
    charging an account and rolling its quota period over, and the account's
    quota report (handler/account.go, checkRelayQuota of browser_ws.go). *)

From Stdlib Require Import Floats.SpecFloat.
From S2P Require Import Prelude Float64 Conc Json Registry Hub Db Server.
#[local] Open Scope Z_scope.

(** [signaling-server/internal/relay/accounting.go:11-16] GB *)
Definition GB : float64 := f64_of_Z 1000000000.
Definition QuotaPeriodDays : Z := 30.

Section accounting.
Context `{PocketBase}.
Abbreviation handler := (proc World).

Definition archive_of (u : record) : record :=
  rset "bytes_transferred" (VInt (int64_of_f64 (f64_mul (GetFloat u "current_period_usage_gb") GB)))
  (rset "period_end" (VTime (GetDateTime u "quota_period_end"))
  (rset "period_start" (VTime (GetDateTime u "quota_period_start"))
  (rset "account_id" (VStr (r_id u)) (NewRecord "bandwidth_usage")))).

Definition reset_period (now : Z) (u : record) : record :=
  rset "quota_period_end" (VTime (now + QuotaPeriodDays * 24 * 3600 * Second))
  (rset "quota_period_start" (VTime now)
  (rset "current_period_usage_gb" (VFloat (S754_zero false)) u)).

(** [signaling-server/internal/relay/accounting.go:49-70] rollQuotaPeriod *)
Definition rollQuotaPeriod (u : record) (now : Z) : handler (result unit db_error) :=
  c ← db_get (FindCollection "bandwidth_usage");
  match c with
  | Err e => mret (Err e)
  | Ok _ =>
      a ← db_act (Save (archive_of u));
      match a with
      | Err e => mret (Err ("archive quota period: " ++ e)%string)
      | Ok _ => r ← db_act (Save (reset_period now u)); mret (rmap (const tt) r)
      end
  end.

(** [signaling-server/internal/relay/accounting.go:18-47] ApplyRelayBytes *)
Definition ApplyRelayBytes (accountID : string) (forwardedBytes : Z) (now : Z)
    : handler (result unit db_error) :=
  r ← db_get (FindRecordById "users" accountID);
  match r with
  | Err e => mret (Err e)
  | Ok u =>
      let periodEnd := GetDateTime u "quota_period_end" in
      rolled ← (if negb (IsZero periodEnd) && After now periodEnd
                then rollQuotaPeriod u now else mret (Ok tt));
      match rolled with
      | Err e => mret (Err e)
      | Ok _ =>
          let gbIncrement := f64_div (f64_of_Z forwardedBytes) GB in
          db_act (AddUsage gbIncrement accountID)
      end
  end.

(** Returns (exceeded, periodEnd).
    [signaling-server/internal/handler/browser_ws.go:244-251] checkRelayQuota *)
Definition checkRelayQuota (account : record) : bool * Z :=
  let limitGB := GetFloat account "relay_quota_gb" in
  let usedGB := GetFloat account "current_period_usage_gb" in
  (f64_ge usedGB limitGB, GetDateTime account "quota_period_end").
End accounting.
