(* ===== verification/RelayWS.v ===== *)
(** The relay endpoint of the signaling server
    (signaling-server/internal/handler/relay_ws.go): a socket says hello with a
    token, is bound to its session, waits for its peer, and one of the two
    handlers copies frames both ways until either side fails. *)

From S2P Require Import Prelude Conc Json Tokens Registry Hub Db Server Accounting.
#[local] Open Scope Z_scope.

(** [signaling-server/internal/handler/relay_ws.go:17-19] helloTimeout *)
Definition helloTimeout : Z := 10 * Second.
(** [signaling-server/internal/handler/relay_ws.go:21-23] relayWebSocketReadLimit *)
Definition relayWebSocketReadLimit : Z := 10 * 1024 * 1024.

(** [json.Unmarshal(payload, &hello)]: the token, or an error.
    [signaling-server/internal/handler/relay_ws.go:35-37] relayHello *)
Definition decode_hello (f : frame) : option string :=
  match f_json f with
  | Some (JObj o) => field dec_str "token" "" o
  | Some JNull => Some ""%string
  | _ => None
  end.

(** The errors' texts. *)
Definition reg_error_text (e : registry_error) : string :=
  match e with
  | ErrUnknownSID => "relay: unknown sid"
  | ErrReplay => "relay: replayed jti"
  | ErrPendingWindow => "relay: pending wait window exceeded"
  end.

Section relay_ws.
Context `{PocketBase} `{JWT}.
Abbreviation handler := (proc World).

(** [WaitForAgent] and [WaitForBrowser] with their [select]: the awaited channel
    is closed, or the deadline has passed.
    [signaling-server/internal/relay/registry.go:100-130] WaitForAgent *)
Definition wait_for (ch_of : sessionEntry -> Registry.channel) (sock_of : sessionEntry -> option nat)
    (sid : string) (now : Z) : handler (result (option nat) registry_error) :=
  b ← reads (fun w => wait_begin ch_of sid now (w_reg w));
  match b with
  | Err e => mret (Err e)
  | Ok (ch, deadline) =>
      ready ← choices (fun w =>
        (if is_closed ch (w_reg w) then [(true, w)] else [])
        ++ (if deadline <=? w_now w then [(false, w)] else []));
      if (ready : bool) then reads (fun w => wait_ready sock_of sid (w_reg w))
      else reg_act (wait_timeout sid)
  end.

(** [<-done] of [WatchSession]. *)
Definition watch_done (sid : string) : handler (result unit registry_error) :=
  d ← reads (fun w => WatchSession sid (w_reg w));
  match d with
  | Err e => mret (Err e)
  | Ok ch => choices (fun w => if is_closed ch (w_reg w) then [(Ok tt, w)] else [])
  end.

(** Binding, noted in the log. *)
Definition bind_socket (agent : bool) (sid : string) (conn : nat)
    (f : Registry -> bind_result * Registry) : handler bind_result :=
  atomic (fun w => let '(res, r) := f (w_reg w) in
                   (res, (if is_ok res then add_log (Bound agent sid conn) else id) (set_reg r w))).

(** [signaling-server/internal/handler/relay_ws.go:139-149] closeAndFlush *)
Definition closeAndFlush (once : nat) (sid : string) (left right : nat) : handler unit :=
  once_do once (
    _ ← ws_close (Some left) StatusNormalClosure "";
    _ ← ws_close (Some right) StatusNormalClosure "";
    r ← reg_act (CloseSession sid);
    match r with
    | Ok (accountID, bytes) =>
        if 0 <? bytes
        then _ ← modifies (add_log (Charged accountID bytes));
             now ← get_now; _ ← ApplyRelayBytes accountID bytes now; mret tt
        else mret tt
    | Err _ => mret tt
    end).

(** [signaling-server/internal/handler/relay_ws.go:155-172] forwardRelayFrames *)
Definition forwardRelayFrames (sid : string) (src dst : nat) (onClose : handler unit) : handler unit :=
  Iter tt (fun _ =>
    r ← ws_read src;
    match r with
    | None => _ ← onClose; mret (inr tt)
    | Some f =>
        _ ← reg_do (AddForwardedBytes sid (len (f_data f)));
        ok ← ws_write (Some dst) (fun d => WroteFrame d f);
        if (ok : bool) then mret (inl tt) else _ ← onClose; mret (inr tt)
    end) Done.

(** [signaling-server/internal/handler/relay_ws.go:137-153] proxyRelayPair *)
Definition proxyRelayPair (sid : string) (left right : nat) : handler unit :=
  once ← once_new;
  _ ← Spawn (forwardRelayFrames sid right left (closeAndFlush once sid left right)) (mret tt);
  forwardRelayFrames sid left right (closeAndFlush once sid left right).

(** A nil peer would make the proxy dereference nil. *)
Definition proxy_peer (sid : string) (conn : nat) (peer : option nat) : handler unit :=
  match peer with
  | Some p => proxyRelayPair sid conn p
  | None => modifies (add_log NilDeref)
  end.

(** What a handler does after its socket is bound: [pending] is the state in
    which it waits for its peer.
    [signaling-server/internal/handler/relay_ws.go:72-98] RelayWS *)
Definition bound_handler (sid : string) (conn : nat) (now : Z) (pending : SessionState)
    (ch_of : sessionEntry -> Registry.channel) (sock_of : sessionEntry -> option nat)
    (res : bind_result) : handler unit :=
  let refuse e := ws_close (Some conn) StatusPolicyViolation (reg_error_text e) in
  match res with
  | Err e => refuse e
  | Ok (_, state) =>
      match state, pending with
      | StatePendingAgent, StatePendingAgent | StatePendingBrowser, StatePendingBrowser =>
          w ← wait_for ch_of sock_of sid now;
          match w with
          | Err e => refuse e
          | Ok peer => proxy_peer sid conn peer
          end
      | StateActive, _ =>
          d ← watch_done sid;
          match d with Err e => refuse e | Ok _ => mret tt end
      | _, _ => mret tt
      end
  end.

(** [conn] is the accepted socket.
    [signaling-server/internal/handler/relay_ws.go:39-135] RelayWS *)
Definition RelayWS (secret : string) (conn : nat) : handler unit :=
  with_defer (ws_close_now (Some conn)) (
    t0 ← get_now;
    payload ← ws_read_until conn (t0 + helloTimeout);
    match payload with
    | None => ws_close (Some conn) StatusPolicyViolation "hello timeout"
    | Some f =>
        match decode_hello f with
        | None => ws_close (Some conn) StatusPolicyViolation "invalid relay hello"
        | Some token =>
            now ← get_now;
            match VerifyAgentRelayJWT secret token now with
            | Ok claims =>
                res ← bind_socket true (a_SID claims) conn (BindAgentSocket (a_SID claims) (a_AgentID claims) conn now);
                bound_handler (a_SID claims) conn now StatePendingAgent browserReady browserSocket res
            | Err _ =>
                match VerifyBrowserPolicyJWT secret token now with
                | Ok claims =>
                    res ← bind_socket false (b_SID claims) conn
                            (BindBrowserSocket (b_SID claims) (ID (b_Registered claims)) conn now);
                    bound_handler (b_SID claims) conn now StatePendingBrowser agentReady agentSocket res
                | Err _ => ws_close (Some conn) StatusPolicyViolation "invalid relay token"
                end
            end
        end
    end).
End relay_ws.
