(* ===== verification/RelaySafe.v ===== *)
(** What holds of the relay endpoint in every interleaving of its handlers with
    each other, with the rest of the server and with the network: frames cross
    only between the two sockets of one session, a socket belongs to a session
    only by a valid token it sent, and no handler dereferences a nil peer. *)

From S2P Require Import Prelude Conc Json Tokens Registry Hub Db Server Accounting RelayWS.
#[local] Open Scope Z_scope.

Section safe.
Context `{PocketBase} `{JWT}.
Context (secret : string).
Abbreviation handler := (proc World).

(** * The log's justification *)

(** The token a socket sent admits it to the session, in its role. *)
Definition admitted (agent : bool) (sid : string) (c : nat) (past : list effect) : Prop :=
  exists f token now, Got c f ∈ past /\ decode_hello f = Some token
    /\ if agent
       then exists cl, VerifyAgentRelayJWT secret token now = Ok cl /\ a_SID cl = sid
       else exists cl, VerifyBrowserPolicyJWT secret token now = Ok cl /\ b_SID cl = sid.

Definition justified (past : list effect) (e : effect) : Prop :=
  match e with
  | WroteFrame d f => exists s sid agent, Got s f ∈ past /\ Bound agent sid s ∈ past
      /\ Bound (negb agent) sid d ∈ past
  | Bound agent sid c => admitted agent sid c past
  | NilDeref => False
  | _ => True
  end.

Definition log_ok (l : list effect) : Prop := forall i e, l !! i = Some e -> justified (take i l) e.

Lemma log_ok_nil : log_ok [].
Proof. intros i e. by rewrite lookup_nil. Qed.

Lemma log_ok_snoc l e : log_ok l -> justified l e -> log_ok (l ++ [e]).
Proof.
  intros Hl He i x Hx. apply lookup_app_Some in Hx as [Hx|[Hlen Hx]].
  - rewrite take_app_le; [by apply Hl|]. apply lookup_lt_Some in Hx. lia.
  - apply list_lookup_singleton_Some in Hx as [Hi <-]. replace i with (length l) by lia.
    by rewrite take_app_length.
Qed.

(** * Invariant and rely *)

Record relay_inv (w : World) : Prop := {
  rv_reg : reg_inv (w_reg w);
  rv_log : log_ok (w_log w);
  rv_bound : forall sid e b c, sessions (w_reg w) !! sid = Some e -> other b e = Some c ->
    Bound b sid c ∈ w_log w }.

Definition bound_in (w : World) (sid : string) : Prop := exists b c, Bound b sid c ∈ w_log w.

Record relay_rely (w w' : World) : Prop := {
  rr_log : w_log w `prefix_of` w_log w';
  rr_kept : forall sid, bound_in w sid -> entry_kept sid (w_reg w) (w_reg w') }.

#[local] Instance relay_rely_preorder : PreOrder relay_rely.
Proof.
  split.
  - intros w. constructor; [done|]. intros. apply entry_kept_refl.
  - intros w1 w2 w3 [L1 K1] [L2 K2]. constructor; [by etransitivity|].
    intros sid Hb. eapply entry_kept_trans; [by apply K1|]. apply K2.
    destruct Hb as (b&c&Hin). exists b, c. destruct L1 as [l ->]. set_solver.
Qed.

Lemma rely_log w w' e : relay_rely w w' -> e ∈ w_log w -> e ∈ w_log w'.
Proof. intros [[l ->] _]. set_solver. Qed.

Lemma bound_mono w w' sid : relay_rely w w' -> bound_in w sid -> bound_in w' sid.
Proof. intros Hr (b&c&Hin). exists b, c. by eapply rely_log. Qed.

Abbreviation rwp := (wp relay_rely relay_rely relay_inv).

(** The registry operations that bind nothing keep the entries' sockets. *)
Definition binds_nothing (op : reg_op) : Prop :=
  match op with RBindBrowser _ _ _ _ | RBindAgent _ _ _ _ | RCreate _ => False | _ => True end.

Lemma step_kept op r sid : reg_inv r -> binds_nothing op ->
  entry_kept sid r (reg_step op r) /\ same_sockets sid r (reg_step op r).
Proof.
  intros Hi Hop. split.
  - apply entry_kept_step; [done|]. intros s ->. done.
  - apply (same_sockets_run sid [op] r Hi). constructor; [|done].
    destruct op; try done; (split; [intros ? [=]|intros []]).
Qed.

(** Log entries that need no justification. *)
Definition plain (e : effect) : Prop :=
  match e with WroteFrame _ _ | Bound _ _ _ | NilDeref => False | _ => True end.

(** A transition that adds justified entries and runs at most such an operation. *)
Record mild (w w' : World) : Prop := {
  ml_log : exists l, w_log w' = w_log w ++ l /\ Forall plain l;
  ml_reg : w_reg w' = w_reg w \/ exists op, binds_nothing op /\ w_reg w' = reg_step op (w_reg w) }.

Lemma plain_log l l' : log_ok l -> Forall plain l' -> log_ok (l ++ l').
Proof.
  intros Hl Hp. induction l' as [|e l' IH] using rev_ind; [by rewrite app_nil_r|].
  apply Forall_app in Hp as [Hp He]. apply Forall_cons_1 in He as [He _].
  rewrite app_assoc. apply log_ok_snoc; [by apply IH|]. destruct e; simpl in *; done.
Qed.

Lemma mild_ok w w' : relay_inv w -> mild w w' -> relay_inv w' /\ relay_rely w w'.
Proof.
  intros [Hi Hl Hb] [(l&Hlog&Hp) Hreg].
  assert (reg_inv (w_reg w') /\ forall sid, entry_kept sid (w_reg w) (w_reg w') /\ same_sockets sid (w_reg w) (w_reg w'))
    as [Hi' Hk].
  { destruct Hreg as [->|(op&Hop&->)].
    - split; [done|]. intros. split; [apply entry_kept_refl|apply same_sockets_refl].
    - split; [by apply reg_step_inv|]. intros. by apply step_kept. }
  split; [constructor|constructor].
  - done.
  - rewrite Hlog. by apply plain_log.
  - intros sid e b c He Hc. destruct (Hk sid) as [_ Hs]. destruct (Hs e He) as (e0&He0&EA&EB).
    rewrite Hlog. apply elem_of_app. left. eapply Hb; [exact He0|].
    destruct b; simpl in *; congruence.
  - rewrite Hlog. by apply prefix_app_r.
  - intros sid _. by apply Hk.
Qed.

Lemma mild_same w w' : w_log w' = w_log w -> w_reg w' = w_reg w -> mild w w'.
Proof. intros Hl Hr. constructor; [exists []; by rewrite app_nil_r|by left]. Qed.

Lemma mild_plain w w' e : plain e -> w_log w' = w_log w ++ [e] -> w_reg w' = w_reg w -> mild w w'.
Proof. intros Hp Hl Hr. constructor; [exists [e]; split; [done|by constructor]|by left]. Qed.

(** ** Actions whose transitions are mild *)

Lemma rwp_mild {B} (f : World -> list (B * World)) (Q : B -> World -> Prop) w :
  (forall w1 b w2, (b, w2) ∈ f w1 -> mild w1 w2) ->
  (forall w1 b w2 w3, relay_rely w w1 -> relay_inv w1 -> (b, w2) ∈ f w1 -> relay_rely w2 w3 -> Q b w3) ->
  rwp (choices f) Q w.
Proof.
  intros Hm HQ. apply wp_choices. intros w1 Hw Hi b w2 Hin.
  destruct (mild_ok w1 w2 Hi (Hm _ _ _ Hin)) as [Hi2 HR]. split_and!; [done|done|]. intros w3 H3. by eapply HQ.
Qed.

(** Actions whose result the rest does not depend on. *)
Lemma rwp_mild_any {B} (f : World -> list (B * World)) (Q : B -> World -> Prop) w :
  (forall w1 b w2, (b, w2) ∈ f w1 -> mild w1 w2) ->
  (forall b w3, relay_rely w w3 -> Q b w3) -> rwp (choices f) Q w.
Proof.
  intros Hm HQ. apply rwp_mild; [done|]. intros w1 b w2 w3 H1 Hi Hin H3. apply HQ.
  destruct (mild_ok w1 w2 Hi (Hm _ _ _ Hin)) as [_ HR]. by do 2 (etransitivity; [eassumption|]).
Qed.

Lemma rwp_bind {A B} (p : handler A) (g : A -> handler B) Q w :
  rwp p (fun a w' => rwp (g a) Q w') w -> rwp (p ≫= g) Q w.
Proof. apply wp_mbind. apply _. Qed.

Lemma rwp_mret {A} (a : A) (Q : A -> World -> Prop) w :
  (forall w1, relay_rely w w1 -> Q a w1) -> rwp (mret a) Q w.
Proof. done. Qed.

Lemma rwp_any {A} (p : handler A) (Q : A -> World -> Prop) w :
  rwp p (fun _ _ => True) w -> (forall a w', Q a w') -> rwp p Q w.
Proof. intros Hp HQ. eapply wp_mono; [|exact Hp]. auto. Qed.

Lemma rwp_seq {A B} (p : handler A) (g : A -> handler B) Q w :
  rwp p (fun _ _ => True) w -> (forall a w', rwp (g a) Q w') -> rwp (p ≫= g) Q w.
Proof. intros Hp Hg. apply rwp_bind. eapply wp_mono; [|exact Hp]. intros a w' _. apply Hg. Qed.

Lemma rwp_iter {A S B} (J : S -> World -> Prop) (s : S) (body : S -> handler (S + B)) (k : B -> handler A) Q w :
  (forall w1, relay_rely w w1 -> J s w1) ->
  (forall s' w1, J s' w1 ->
     rwp (body s') (fun r w2 => match r with inl s'' => J s'' w2 | inr b => rwp (k b) Q w2 end) w1) ->
  rwp (Iter s body k) Q w.
Proof. intros H1 H2. by exists J. Qed.

Lemma rwp_spawn {A} (q : handler unit) (k : handler A) Q w :
  (forall w1, relay_rely w w1 -> rwp q (fun _ _ => True) w1 /\ rwp k Q w1) -> rwp (Spawn q k) Q w.
Proof. done. Qed.

(** ** The endpoint's pieces *)

Lemma rwp_close c st re w : rwp (ws_close (Some c) st re) (fun _ _ => True) w.
Proof.
  unfold ws_close, modifies. apply (rwp_mild_any (fun w => [(tt, _)])); [|done].
  intros w1 b w2 Hin. apply list_elem_of_singleton in Hin. simplify_eq. by apply (mild_plain _ _ (Closed c st re)).
Qed.

Lemma rwp_close_now c w : rwp (ws_close_now (Some c)) (fun _ _ => True) w.
Proof.
  unfold ws_close_now, modifies. apply (rwp_mild_any (fun w => [(tt, _)])); [|done].
  intros w1 b w2 Hin. apply list_elem_of_singleton in Hin. simplify_eq. by apply (mild_plain _ _ (ClosedNow c)).
Qed.

Lemma rwp_db_get {A} (f : db -> A) (Q : A -> World -> Prop) w : (forall a w', Q a w') -> rwp (db_get f) Q w.
Proof.
  intros HQ. unfold db_get, reads. apply (rwp_mild_any (fun w => [(f (w_db w), w)])); [|auto].
  intros w1 b w2 Hin. apply list_elem_of_singleton in Hin. simplify_eq. by apply mild_same.
Qed.

Lemma rwp_db_act {A} (f : db -> A * db) (Q : A -> World -> Prop) w : (forall a w', Q a w') -> rwp (db_act f) Q w.
Proof.
  intros HQ. unfold db_act, atomic.
  apply (rwp_mild_any (fun w => [let '(a, d) := f (w_db w) in (a, set_db d w)])); [|auto].
  intros w1 b w2 Hin. apply list_elem_of_singleton in Hin. destruct (f (w_db w1)) as [a d]. simplify_eq.
  by apply mild_same.
Qed.

Lemma rwp_now (Q : Z -> World -> Prop) w : (forall t w', relay_rely w w' -> Q t w') -> rwp get_now Q w.
Proof.
  intros HQ. unfold get_now, reads. apply (rwp_mild_any (fun w => [(w_now w, w)])); [|auto].
  intros w1 b w2 Hin. apply list_elem_of_singleton in Hin. simplify_eq. by apply mild_same.
Qed.

Lemma rwp_roll u now w : rwp (rollQuotaPeriod u now) (fun _ _ => True) w.
Proof.
  unfold rollQuotaPeriod. apply rwp_bind, rwp_db_get. intros [|] w1; [|by apply rwp_mret].
  apply rwp_bind, rwp_db_act. intros [|] w2; [|by apply rwp_mret].
  apply rwp_bind, rwp_db_act. intros. by apply rwp_mret.
Qed.

Lemma rwp_apply acct n now w : rwp (ApplyRelayBytes acct n now) (fun _ _ => True) w.
Proof.
  unfold ApplyRelayBytes. apply rwp_bind, rwp_db_get. intros [u|] w1; [|by apply rwp_mret].
  apply rwp_seq; [destruct (_ && _); [apply rwp_roll|by apply rwp_mret]|].
  intros a w2. destruct a; [by apply rwp_db_act|by apply rwp_mret].
Qed.

Lemma rwp_reg_act {A} (f : Registry -> A * Registry) (Q : A -> World -> Prop) w :
  (forall r, snd (f r) = r \/ exists op, binds_nothing op /\ snd (f r) = reg_step op r) ->
  (forall r w', relay_rely w w' -> Q (fst (f r)) w') -> rwp (reg_act f) Q w.
Proof.
  intros Hf HQ. unfold reg_act, atomic.
  assert (forall w1 b w2, (b, w2) ∈ [let '(a, r) := f (w_reg w1) in (a, set_reg r w1)] ->
    mild w1 w2 /\ b = fst (f (w_reg w1))) as Hstep.
  { intros w1 b w2 Hin. apply list_elem_of_singleton in Hin. specialize (Hf (w_reg w1)).
    destruct (f (w_reg w1)) as [a r]. simplify_eq/=. split; [|done].
    constructor; [exists []; by rewrite app_nil_r|done]. }
  apply (rwp_mild (fun w => [_])); [intros; by eapply Hstep|].
  intros w1 b w2 w3 H1 Hi Hin H3. destruct (Hstep _ _ _ Hin) as [Hm ->]. apply HQ.
  destruct (mild_ok w1 w2 Hi Hm) as [_ HR]. by do 2 (etransitivity; [eassumption|]).
Qed.

Lemma rwp_closeAndFlush once sid l r w : rwp (closeAndFlush once sid l r) (fun _ _ => True) w.
Proof.
  unfold closeAndFlush, once_do. apply rwp_bind, rwp_mild_any.
  { intros w1 b w2 Hin. destruct (w_once w1 !! once) as [[[]|]|];
      first [by apply not_elem_of_nil in Hin
            |apply list_elem_of_singleton in Hin; simplify_eq; by apply mild_same]. }
  intros [] w1 _; [|by apply rwp_mret].
  apply rwp_seq; [|intros _ w2; unfold modifies; apply (rwp_mild_any (fun w => [(tt, _)])); [|done];
    intros w3 b w4 Hin; apply list_elem_of_singleton in Hin; simplify_eq; by apply mild_same].
  apply rwp_seq; [apply rwp_close|intros _ w3]. apply rwp_seq; [apply rwp_close|intros _ w4].
  apply rwp_bind, rwp_reg_act.
  { intros rg. right. exists (RClose sid). split; done. }
  intros rg w5 _. destruct (CloseSession sid rg) as [[[acct n]|] rg']; simpl; [|by apply rwp_mret].
  destruct (0 <? n); [|by apply rwp_mret].
  apply rwp_bind. unfold modifies. apply (rwp_mild_any (fun w => [(tt, _)])).
  { intros w6 b w7 Hin. apply list_elem_of_singleton in Hin. simplify_eq.
    by apply (mild_plain _ _ (Charged acct n)). }
  intros _ w6 _. apply rwp_bind, rwp_now. intros t w7 _. apply rwp_seq; [apply rwp_apply|].
  intros. by apply rwp_mret.
Qed.

(** The copy loop: whatever it writes to [dst] it read from [src]. *)
Lemma rwp_forward agent sid src dst onClose w :
  Bound agent sid src ∈ w_log w -> Bound (negb agent) sid dst ∈ w_log w ->
  (forall w', rwp onClose (fun _ _ => True) w') ->
  rwp (forwardRelayFrames sid src dst onClose) (fun _ _ => True) w.
Proof.
  intros Hs Hd Hc. unfold forwardRelayFrames.
  apply (rwp_iter (fun _ w1 => Bound agent sid src ∈ w_log w1 /\ Bound (negb agent) sid dst ∈ w_log w1));
    [intros w1 H1; split; by eapply rely_log|]. intros _ w1 [Hs1 Hd1].
  apply rwp_bind. unfold ws_read. apply rwp_mild.
  { intros w2 b w3. rewrite elem_of_app. intros [Hin|Hin].
    - destruct (inq (sock w2 src)) as [|f q]; [by apply not_elem_of_nil in Hin|].
      apply list_elem_of_singleton in Hin. simplify_eq. by apply (mild_plain _ _ (Got src f)).
    - destruct (up _); [by apply not_elem_of_nil in Hin|]. apply list_elem_of_singleton in Hin.
      simplify_eq. by apply mild_same. }
  intros w2 r w3 w4 H12 Hi2 Hin H34. destruct r as [f|].
  2: { apply rwp_seq; [apply Hc|]. intros. by apply rwp_mret. }
  assert (Got src f ∈ w_log w4 /\ Bound agent sid src ∈ w_log w4 /\ Bound (negb agent) sid dst ∈ w_log w4)
    as (Hg4&Hs4&Hd4).
  { apply elem_of_app in Hin as [Hin|Hin].
    2: { destruct (up _); [by apply not_elem_of_nil in Hin|]. apply list_elem_of_singleton in Hin. done. }
    destruct (inq (sock w2 src)) as [|f' q]; [by apply not_elem_of_nil in Hin|].
    apply list_elem_of_singleton in Hin. injection Hin as <- ->.
    split_and!; (eapply rely_log; [exact H34|]); simpl; apply elem_of_app; [right; by apply list_elem_of_singleton|left..];
      by eapply rely_log. }
  apply rwp_bind, rwp_reg_act.
  { intros rg. right. by exists (RAddBytes sid (len (f_data f))). }
  intros _ w5 H45. apply rwp_bind. unfold ws_write. apply wp_choices. intros w6 H56 Hi6 ok w7 Hin7.
  assert (relay_rely w4 w6) as H46 by (by etransitivity).
  assert (Got src f ∈ w_log w6 /\ Bound agent sid src ∈ w_log w6 /\ Bound (negb agent) sid dst ∈ w_log w6)
    as (Hg6&Hs6&Hd6) by (split_and!; by eapply rely_log).
  assert (relay_inv w7 /\ relay_rely w6 w7) as [Hi7 H67].
  { assert (forall wx, w_log wx = w_log w6 -> w_reg wx = w_reg w6 -> relay_inv wx /\ relay_rely w6 wx) as Hsame
      by (intros; apply mild_ok; [done|by apply mild_same]).
    destruct (up (sock w6 dst)).
    2: { apply list_elem_of_singleton in Hin7. simplify_eq. by apply Hsame. }
    apply elem_of_cons in Hin7 as [Hin7|Hin7%list_elem_of_singleton]; simplify_eq; [|by apply Hsame].
    destruct Hi6 as [Hr6 Hl6 Hb6]. split; constructor; simpl; try done.
    - apply log_ok_snoc; [done|]. exists src, sid, agent. done.
    - intros sid0 e b c He Hc0. apply elem_of_app. left. by eapply Hb6.
    - by apply prefix_app_r.
    - intros. apply entry_kept_refl. }
  split_and!; [done|done|]. intros w8 H78.
  destruct ok.
  - apply rwp_mret. intros w9 H89. assert (relay_rely w6 w9) as H69 by (by do 2 (etransitivity; [eassumption|])).
    split; by eapply rely_log.
  - apply rwp_seq; [apply Hc|]. intros. by apply rwp_mret.
Qed.

Lemma rwp_proxy agent sid l r w :
  Bound agent sid l ∈ w_log w -> Bound (negb agent) sid r ∈ w_log w ->
  rwp (proxyRelayPair sid l r) (fun _ _ => True) w.
Proof.
  intros Hl Hr. unfold proxyRelayPair. apply rwp_bind. unfold once_new, atomic.
  apply (rwp_mild_any (fun w => [_])).
  { intros w1 b w2 Hin. apply list_elem_of_singleton in Hin. simplify_eq. by apply mild_same. }
  intros o w1 H1. apply rwp_bind, rwp_spawn. intros w2 H2.
  assert (relay_rely w w2) as H02 by (by etransitivity).
  split.
  - apply (rwp_forward (negb agent)); [by eapply rely_log|rewrite negb_involutive; by eapply rely_log|].
    intros. apply rwp_closeAndFlush.
  - apply rwp_mret. intros w3 H3. assert (relay_rely w w3) as H03 by (by etransitivity).
    apply (rwp_forward agent); [by eapply rely_log..|]. intros. apply rwp_closeAndFlush.
Qed.

(** A released wait has a peer bound in the other role. *)
Lemma rwp_wait agent sid now w :
  bound_in w sid ->
  rwp (wait_for (my_ready agent) (other (negb agent)) sid now)
    (fun r w' => match r with
                 | Ok peer => exists p, peer = Some p /\ Bound (negb agent) sid p ∈ w_log w'
                 | Err _ => True
                 end) w.
Proof.
  intros Hb. unfold wait_for. apply rwp_bind. unfold reads.
  apply (rwp_mild (fun w => [(wait_begin (my_ready agent) sid now (w_reg w), w)])).
  { intros w1 b w2 Hin. apply list_elem_of_singleton in Hin. simplify_eq. by apply mild_same. }
  intros w1 b w2 w3 H01 Hi1 Hin H23. apply list_elem_of_singleton in Hin. simplify_eq.
  unfold wait_begin. destruct (sessions (w_reg w1) !! sid) as [e|] eqn:He; [|by apply rwp_mret].
  set (ch := my_ready agent e).
  apply rwp_bind. apply rwp_mild.
  { intros w4 b w5 Hin. destruct (is_closed ch (w_reg w4)), (_ <=? w_now w4); simpl in Hin;
      repeat (apply elem_of_cons in Hin as [Hin|Hin]; [simplify_eq; by apply mild_same|]);
      by apply not_elem_of_nil in Hin. }
  intros w4 ready w5 w6 H34 Hi4 Hin H56.
  assert (w5 = w4 /\ (ready = true -> is_closed ch (w_reg w4) = true)) as [-> Hcl].
  { destruct (is_closed ch (w_reg w4)), (_ <=? w_now w4); simpl in Hin;
      repeat (apply elem_of_cons in Hin as [Hin|Hin]; [by simplify_eq|]); by apply not_elem_of_nil in Hin. }
  destruct ready.
  2: { apply rwp_reg_act; [|done]. intros rg. right. by exists (RTimeout sid). }
  apply (rwp_mild (fun w => [(wait_ready (other (negb agent)) sid (w_reg w), w)])).
  { intros w7 b w8 Hin8. apply list_elem_of_singleton in Hin8. simplify_eq. by apply mild_same. }
  intros w7 b w8 w9 H67 Hi7 Hin7 H89. apply list_elem_of_singleton in Hin7. simplify_eq.
  unfold wait_ready. destruct (sessions (w_reg w7) !! sid) as [e7|] eqn:He7; [|done].
  assert (relay_rely w4 w7) as H47 by (by etransitivity).
  assert (relay_rely w1 w7) as H17 by (by do 2 (etransitivity; [eassumption|])).
  pose proof (bound_mono _ _ _ H01 Hb) as Hb1.
  pose proof (bound_mono _ _ _ H34 (bound_mono _ _ _ H23 Hb1)) as Hb4.
  destruct (rr_kept _ _ H17 sid Hb1) as [Hback _ _]. destruct (Hback e7 He7) as (e'&He'&_&Ea&Eb&_). simplify_eq.
  destruct (rr_kept _ _ H47 sid Hb4) as [_ _ Hmono].
  assert (my_ready agent e7 ∈ closedCh (w_reg w7)) as Hin7.
  { apply Hmono. apply (is_closed_iff ch (w_reg w4)) in Hcl; [|done].
    unfold ch in Hcl. destruct agent; simpl in *; congruence. }
  destruct (ri_entries _ (rv_reg _ Hi7) _ _ He7) as [_ _ _ HA HB _ _].
  assert (is_Some (other (negb agent) e7)) as [p Hp] by (destruct agent; simpl in *; tauto).
  exists p. split; [done|]. eapply rely_log; [exact H89|]. by eapply (rv_bound _ Hi7).
Qed.

Lemma rwp_watch sid w : rwp (watch_done sid) (fun _ _ => True) w.
Proof.
  unfold watch_done. apply rwp_bind. unfold reads.
  apply (rwp_mild_any (fun w => [(WatchSession sid (w_reg w), w)])).
  { intros w1 b w2 Hin. apply list_elem_of_singleton in Hin. simplify_eq. by apply mild_same. }
  intros [ch|] w1 _; [|by apply rwp_mret]. apply rwp_mild_any; [|done].
  intros w2 b w3 Hin. destruct (is_closed ch (w_reg w2)); [|by apply not_elem_of_nil in Hin].
  apply list_elem_of_singleton in Hin. simplify_eq. by apply mild_same.
Qed.

(** ** Binding *)

(** [bind b] and the logged role: the browser's side is [true] for [bind]. *)
Definition bind_op (b : bool) (sid cred : string) (conn : nat) (now : Z) : reg_op :=
  if b then RBindBrowser sid cred conn now else RBindAgent sid cred conn now.

Lemma bind_step b sid cred conn now r res r' :
  bind b sid cred conn now r = (res, r') -> r' = reg_step (bind_op b sid cred conn now) r.
Proof. destruct b; simpl; intros Hb; by rewrite Hb. Qed.

Lemma bind_err b sid cred conn now r e r' :
  reg_inv r -> bind b sid cred conn now r = (Err e, r') -> r' = r.
Proof.
  intros Hi Hb. destruct b; simpl in Hb.
  - destruct (BindBrowser_spec _ _ _ _ _ _ _ Hi Hb) as [_ [(?&_&->)|(e0&_&_&Hc)]]; [done|].
    unfold bind_core in Hc. by destruct (is_closed _ _).
  - destruct (BindAgent_spec _ _ _ _ _ _ _ Hi Hb) as [_ [(?&_&->)|(e0&_&_&Hc)]]; [done|].
    unfold bind_core in Hc. by destruct (is_closed _ _).
Qed.

Lemma bind_bound b sid cred conn now r res r' s e c b' :
  reg_inv r -> bind b sid cred conn now r = (res, r') ->
  sessions r' !! s = Some e -> other b' e = Some c ->
  (is_ok res = true /\ s = sid /\ b' = negb b /\ c = conn)
  \/ exists e0, sessions r !! s = Some e0 /\ other b' e0 = Some c.
Proof.
  intros Hi Hb He Hc. destruct res as [[o st]|err]; [|right; rewrite (bind_err _ _ _ _ _ _ _ _ Hi Hb) in He; eauto].
  destruct (decide (s = sid)) as [->|Hne].
  - destruct (bind_spec _ _ _ _ _ _ _ _ _ Hi Hb) as (_&e0&e1&He0&He1&_&_&Ho&Hm). simplify_eq.
    destruct (decide (b' = b)) as [->|Hn]; [right; exists e0; split; [done|congruence]|].
    left. assert (b' = negb b) as -> by (destruct b', b; done).
    split_and!; [done..|congruence].
  - right. destruct (same_sockets_bind b s cred conn now sid r _ r' Hi ltac:(done) Hb e He) as (e0&He0&EA&EB).
    exists e0. split; [done|]. destruct b'; simpl in *; congruence.
Qed.

Lemma admitted_mono agent sid c l l' : admitted agent sid c l -> l `prefix_of` l' -> admitted agent sid c l'.
Proof. intros (f&t&now&Hg&Hd) [k ->]. exists f, t, now. split; [set_solver|done]. Qed.

Lemma rwp_bind_socket b sid cred conn now (Q : bind_result -> World -> Prop) w :
  admitted (negb b) sid conn (w_log w) ->
  (forall res w', relay_rely w w' ->
     (forall o st, res = Ok (o, st) ->
        Bound (negb b) sid conn ∈ w_log w' /\ (st = StateActive \/ st = waiting b)) -> Q res w') ->
  rwp (bind_socket (negb b) sid conn (bind b sid cred conn now)) Q w.
Proof.
  intros Had HQ. unfold bind_socket. apply wp_atomic. intros w1 res w2 H01 [Hi Hl Hb] Hf.
  destruct (bind b sid cred conn now (w_reg w1)) as [res' r'] eqn:Hbind. injection Hf as -> <-.
  set (w2 := (if is_ok res then _ else _) _).
  assert (w_reg w2 = r' /\ exists l, w_log w2 = w_log w1 ++ l
          /\ l = (if is_ok res then [Bound (negb b) sid conn] else [])) as (Hr2&l&Hl2&Hleq).
  { unfold w2. destruct (is_ok res); simpl; split; try done; eexists; split; try done. by rewrite app_nil_r. }
  assert (relay_inv w2) as Hi2.
  { constructor.
    - rewrite Hr2, (bind_step _ _ _ _ _ _ _ _ Hbind). by apply reg_step_inv.
    - rewrite Hl2, Hleq. destruct (is_ok res); [|by rewrite app_nil_r].
      apply log_ok_snoc; [done|]. simpl. eapply admitted_mono; [exact Had|apply H01].
    - intros s e b' c. rewrite Hr2, Hl2. intros He Hc.
      destruct (bind_bound _ _ _ _ _ _ _ _ _ _ _ _ Hi Hbind He Hc) as [(Hok&->&->&->)|(e0&He0&Hc0)].
      + rewrite Hleq, Hok. set_solver.
      + apply elem_of_app. left. by eapply Hb. }
  assert (relay_rely w1 w2) as H12.
  { constructor; [rewrite Hl2; by apply prefix_app_r|]. intros s _.
    rewrite Hr2, (bind_step _ _ _ _ _ _ _ _ Hbind). apply entry_kept_step; [done|]. by destruct b. }
  split_and!; [done|done|]. intros w3 H23. apply HQ; [by do 2 (etransitivity; [eassumption|])|].
  intros o st ->. split.
  - eapply rely_log; [exact H23|]. rewrite Hl2, Hleq. set_solver.
  - destruct (bind_spec _ _ _ _ _ _ _ _ _ Hi Hbind) as (_&e&e'&_&_&_&->&_). destruct (other b e); auto.
Qed.

Lemma rwp_bound_handler b sid conn now res w :
  (forall o st, res = Ok (o, st) ->
     Bound (negb b) sid conn ∈ w_log w /\ (st = StateActive \/ st = waiting b)) ->
  rwp (bound_handler sid conn now (waiting b) (my_ready (negb b)) (other b) res) (fun _ _ => True) w.
Proof.
  intros Hres. unfold bound_handler. destruct res as [[o st]|e]; [|apply rwp_close].
  destruct (Hres o st eq_refl) as [Hb Hst].
  assert (rwp (wr ← wait_for (my_ready (negb b)) (other b) sid now;
               match wr with
               | Ok peer => proxy_peer sid conn peer
               | Err e => ws_close (Some conn) StatusPolicyViolation (reg_error_text e)
               end) (fun _ _ => True) w) as Hwait.
  { apply rwp_bind. pose proof (rwp_wait (negb b) sid now w) as Hw. rewrite negb_involutive in Hw.
    assert (rwp (wait_for (my_ready (negb b)) (other b) sid now) (fun r w' => relay_rely w w' /\
              match r with Ok peer => exists p, peer = Some p /\ Bound b sid p ∈ w_log w' | Err _ => True end) w)
      as Hw2.
    { apply (wp_since _ _ _ (wait_for (my_ready (negb b)) (other b) sid now)); [done|reflexivity|].
      apply Hw. by exists (negb b), conn. }
    eapply wp_mono; [|exact Hw2]. intros [peer|e] w1; [|intros _; apply rwp_close].
    intros (HR&p&->&Hp). simpl. apply (rwp_proxy (negb b)); [by eapply rely_log|by rewrite negb_involutive]. }
  assert (rwp (d ← watch_done sid;
               match d with
               | Ok _ => mret tt
               | Err e => ws_close (Some conn) StatusPolicyViolation (reg_error_text e)
               end) (fun _ _ => True) w) as Hwatch.
  { apply rwp_seq; [apply rwp_watch|]. intros [|] w1; [by apply rwp_mret|apply rwp_close]. }
  destruct Hst as [->| ->]; [exact Hwatch|]. destruct b; exact Hwait.
Qed.

(** ** The handler *)

Lemma rwp_RelayWS conn w : rwp (RelayWS secret conn) (fun _ _ => True) w.
Proof.
  unfold RelayWS, with_defer. apply rwp_seq; [|intros; apply rwp_seq; [apply rwp_close_now|intros; by apply rwp_mret]].
  apply rwp_bind, rwp_now. intros t0 w0 _. apply rwp_bind. unfold ws_read_until. apply rwp_mild.
  { intros w2 b w3. rewrite elem_of_app. intros [Hin|Hin].
    - destruct (inq (sock w2 conn)) as [|f q]; [by apply not_elem_of_nil in Hin|].
      apply list_elem_of_singleton in Hin. simplify_eq. by apply (mild_plain _ _ (Got conn f)).
    - destruct (up _ && _); [by apply not_elem_of_nil in Hin|]. apply list_elem_of_singleton in Hin.
      simplify_eq. by apply mild_same. }
  intros w1 payload w2 w3 _ _ Hin H23. destruct payload as [f|]; [|apply rwp_close].
  destruct (decode_hello f) as [token|] eqn:Htok; [|apply rwp_close].
  assert (Got conn f ∈ w_log w3) as Hgot.
  { eapply rely_log; [exact H23|]. apply elem_of_app in Hin as [Hin|Hin].
    2: { destruct (up _ && _); [by apply not_elem_of_nil in Hin|]. apply list_elem_of_singleton in Hin. done. }
    destruct (inq (sock w1 conn)) as [|f' q]; [by apply not_elem_of_nil in Hin|].
    apply list_elem_of_singleton in Hin. injection Hin as <- ->. simpl. set_solver. }
  apply rwp_bind, rwp_now. intros now w4 H34.
  assert (Got conn f ∈ w_log w4) as Hgot4 by (by eapply rely_log).
  destruct (VerifyAgentRelayJWT secret token now) as [cl|] eqn:Hva.
  - apply rwp_bind.
    apply (rwp_bind_socket false (a_SID cl) (a_AgentID cl) conn now).
    { exists f, token, now. simpl. eauto. }
    intros res w5 _ Hres. by apply (rwp_bound_handler false).
  - destruct (VerifyBrowserPolicyJWT secret token now) as [cl|] eqn:Hvb; [|apply rwp_close].
    apply rwp_bind.
    apply (rwp_bind_socket true (b_SID cl) (ID (b_Registered cl)) conn now).
    { exists f, token, now. simpl. eauto. }
    intros res w5 _ Hres. by apply (rwp_bound_handler true).
Qed.

(** * The system: relay handlers, the rest of the server, the network *)

Definition relay_accept (p : handler unit) (w : World) : Prop := exists conn, p = RelayWS secret conn.

(** The rest of the server creates sessions under new ids and removes sessions;
    time passes; the network, the hub, the database and the random source are
    unconstrained. *)
Definition relay_env (w w' : World) : Prop :=
  w_log w' = w_log w /\ w_now w <= w_now w' /\
  (w_reg w' = w_reg w \/ exists op, w_reg w' = reg_step op (w_reg w) /\
     match op with
     | RCreate s => ~ bound_in w (SID s)
     | RMarkDirect _ | RCleanup _ => True
     | _ => False
     end).

Lemma relay_env_ok w w' : relay_inv w -> relay_env w w' -> relay_inv w' /\ relay_rely w w'.
Proof.
  intros Hi (Hlog&_&Hreg).
  assert (w_reg w' = w_reg w \/ (exists op, binds_nothing op /\ w_reg w' = reg_step op (w_reg w))
          \/ exists s, w_reg w' = reg_step (RCreate s) (w_reg w) /\ ~ bound_in w (SID s)) as Hcases.
  { destruct Hreg as [->|(op&->&Hop)]; [by left|right]. destruct op; try done;
      [right; eauto|left; by eexists (RMarkDirect _)|left; by eexists (RCleanup _)]. }
  destruct Hcases as [Hr|[Hr|(s&Hr&Hnb)]].
  - apply mild_ok; [done|by apply mild_same].
  - apply mild_ok; [done|]. constructor; [exists []; by rewrite app_nil_r|by right].
  - destruct Hi as [Hi Hl Hb]. split; constructor.
    + rewrite Hr. by apply reg_step_inv.
    + by rewrite Hlog.
    + intros sid e b c. rewrite Hr, Hlog. simpl. unfold CreatePendingSession. simpl.
      rewrite lookup_insert. case_decide; [|by apply Hb]. intros [= <-]. by destruct b.
    + by rewrite Hlog.
    + intros sid Hsid. rewrite Hr. apply entry_kept_step; [done|]. intros s' [= <-] Heq. by subst sid.
Qed.

(** C1 (safety). The relay keeps sessions apart, in every interleaving of its
    handlers, the rest of the server and the network: a frame written to a
    socket was read before from the peer of the same session, the other role
    of it; a socket was bound to a session only after it sent a token that
    verified for that session and role; and no handler copies to or from a nil
    peer. *)
Theorem relay_isolation win w0 ps w :
  w_log w0 = [] -> w_reg w0 = NewRegistry win ->
  rtc (sys_step relay_accept relay_env) ([], w0) (ps, w) ->
  (forall i d f, w_log w !! i = Some (WroteFrame d f) -> exists s sid agent,
     Got s f ∈ take i (w_log w) /\ Bound agent sid s ∈ take i (w_log w)
     /\ Bound (negb agent) sid d ∈ take i (w_log w))
  /\ (forall i agent sid c, w_log w !! i = Some (Bound agent sid c) -> exists f token now,
     Got c f ∈ take i (w_log w) /\ decode_hello f = Some token
     /\ if agent then exists cl, VerifyAgentRelayJWT secret token now = Ok cl /\ a_SID cl = sid
        else exists cl, VerifyBrowserPolicyJWT secret token now = Ok cl /\ b_SID cl = sid)
  /\ NilDeref ∉ w_log w.
Proof.
  intros Hlog Hreg Hr.
  assert (sys_ok relay_rely relay_rely relay_inv ([], w0)) as Hok0.
  { split; [|constructor]. constructor; simpl.
    - rewrite Hreg. apply NewRegistry_inv.
    - rewrite Hlog. apply log_ok_nil.
    - intros sid e b c. by rewrite Hreg. }
  assert (sys_ok relay_rely relay_rely relay_inv (ps, w)) as [Hi _].
  { eapply (sys_reach_ok relay_rely relay_rely relay_inv relay_accept relay_env); [auto|apply relay_env_ok| |exact Hok0|exact Hr].
    intros p w1 _ [c ->]. apply rwp_RelayWS. }
  destruct Hi as [_ Hl _]. split_and!.
  - intros i d f Hf. exact (Hl _ _ Hf).
  - intros i agent sid c Hf. exact (Hl _ _ Hf).
  - intros (i&Hf)%list_elem_of_lookup. exact (Hl _ _ Hf).
Qed.
End safe.

(** * A concrete run: an agent and a browser pair up and one frame crosses *)

Definition demo_token (r : result string jwt_error) : frame :=
  mkFrame false [] (Some (JObj [("token"%string, JStr (token_of r))])).
Definition demo_data : frame := mkFrame true [x01; x02] None.
Definition demo_pending : PendingSession :=
  mkPending "sid_1" "acc" "code1234" "agent" true false "pub" "jti_1" (120 * Second).
Definition demo_world0 : World :=
  mkWorld Hub.New (NewRegistry (7 * Second)) (mkMem ∅ 0) ∅ [] 5 [] [].

Definition demo_create (w : World) : World :=
  match w_log w with [] => set_reg (reg_step (RCreate demo_pending) (w_reg w)) w | _ => w end.
Definition demo_dial (w : World) : World :=
  set_socks (<[1%nat := mkSock [demo_token (SignAgentRelayJWT "secret" demo_agent_claims 5); demo_data] true]>
            (<[2%nat := mkSock [demo_token (SignBrowserPolicyJWT "secret" demo_browser_claims 5)] true]> (w_socks w))) w.

Definition demo_moves : list (move World) :=
  [Env demo_create; Env demo_dial; Accept (RelayWS "secret" 1); Accept (RelayWS "secret" 2)]
  ++ replicate 5 (Run 0 0) ++ replicate 5 (Run 1 0) ++ replicate 9 (Run 0 0).

Definition demo_end : World :=
  match run_moves demo_moves ([], demo_world0) with Some (_, w) => w | None => demo_world0 end.

Lemma demo_create_env w : relay_env w (demo_create w).
Proof.
  unfold demo_create. destruct (w_log w) eqn:Hl.
  - split; [reflexivity|]. split; [exact (Z.le_refl _)|]. right. exists (RCreate demo_pending).
    split; [reflexivity|]. intros (b&c&Hin). rewrite Hl in Hin. by apply not_elem_of_nil in Hin.
  - split; [reflexivity|]. split; [exact (Z.le_refl _)|]. by left.
Qed.

Lemma demo_crossed : WroteFrame 2 demo_data ∈ w_log demo_end.
Proof.
  assert (last (w_log demo_end) = Some (WroteFrame 2 demo_data)) as Hl by (vm_compute; reflexivity).
  rewrite last_lookup in Hl. by eapply list_elem_of_lookup_2.
Qed.

Lemma relay_isolation_witness :
  WroteFrame 2 demo_data ∈ w_log demo_end /\
  ((forall i d f, w_log demo_end !! i = Some (WroteFrame d f) -> exists s sid agent,
     Got s f ∈ take i (w_log demo_end) /\ Bound agent sid s ∈ take i (w_log demo_end)
     /\ Bound (negb agent) sid d ∈ take i (w_log demo_end))
  /\ (forall i agent sid c, w_log demo_end !! i = Some (Bound agent sid c) -> exists f token now,
     Got c f ∈ take i (w_log demo_end) /\ decode_hello f = Some token
     /\ if agent then exists cl, VerifyAgentRelayJWT "secret" token now = Ok cl /\ a_SID cl = sid
        else exists cl, VerifyBrowserPolicyJWT "secret" token now = Ok cl /\ b_SID cl = sid)
  /\ NilDeref ∉ w_log demo_end).
Proof.
  split; [exact demo_crossed|].
  assert ((if run_moves demo_moves ([], demo_world0) is Some _ then true else false) = true) as Hsome
    by (vm_compute; reflexivity).
  unfold demo_end. destruct (run_moves demo_moves ([], demo_world0)) as [[ps w]|] eqn:Hrun; [|discriminate].
  apply (relay_isolation "secret" (7 * Second) demo_world0 ps w); [reflexivity|reflexivity|].
  refine (run_moves_reach _ _ demo_moves _ _ _ Hrun).
  unfold demo_moves. repeat apply Forall_app_2; [|apply Forall_replicate; exact I..].
  repeat (apply Forall_cons; split); [| |eexists; reflexivity..|constructor].
  - intros w1. exact (demo_create_env w1).
  - intros w1. split; [reflexivity|]. split; [exact (Z.le_refl _)|]. left. reflexivity.
Defined.
