(* ===== verification/AgentWS.v ===== *)
(** The agents' websocket of the signaling server
    (signaling-server/internal/handler/agent_ws.go): enrollment, registering
    and claiming share codes, routing to browsers, the password failure
    limits, and preparing relay sessions. *)

From Stdlib Require Import Ascii.
From S2P Require Import Prelude Conc Json Tokens Registry Hub Db Server Accounting.
#[local] Open Scope Z_scope.

(** Go's RFC 3339 text of a time, as [time.Parse] and [Format] read and write it. *)
Class TimeText := {
  parse_time : string -> option Z;
  format_time : Z -> string }.

(** * Messages *)

(** [signaling-server/internal/handler/agent_ws.go:27-45] agentMsg *)
Record agentMsg := mkAgentMsg {
  m_Type : string; m_AgentID : string; m_Code : string; m_ShareURL : string;
  m_ExpiresAt : option Z; m_SessionID : string; m_SDP : string; m_Candidate : json;
  m_ConnID : string; m_Value : string; m_Password : string; m_HasPassword : bool;
  m_RelayOnly : option bool; m_RelayStaticPub : string; m_ShareType : string;
  m_IsPasswordProtected : bool }.

Section decode.
Context `{TimeText}.

Definition dec_time (v : json) : option Z := match v with JStr s => parse_time s | _ => None end.
(** A [json.RawMessage] keeps whatever is there, [null] too. *)
Definition raw_field (name : string) (o : obj) : json :=
  foldl (fun acc kv => if same_name (fst kv) name then snd kv else acc) JNull o.

Definition decode_agent_obj (o : obj) : option agentMsg :=
  type ← field dec_str "type" ""%string o;
  agent ← field dec_str "agent_id" ""%string o;
  code ← field dec_str "code" ""%string o;
  url ← field dec_str "share_url" ""%string o;
  expires ← field_ptr dec_time "expires_at" o;
  sid ← field dec_str "session_id" ""%string o;
  sdp ← field dec_str "sdp" ""%string o;
  conn ← field dec_str "conn_id" ""%string o;
  value ← field dec_str "value" ""%string o;
  password ← field dec_str "password" ""%string o;
  has ← field dec_bool "has_password" false o;
  only ← field_ptr dec_bool "relay_only" o;
  pub ← field dec_str "relay_static_pub" ""%string o;
  share ← field dec_str "share_type" ""%string o;
  prot ← field dec_bool "is_password_protected" false o;
  Some (mkAgentMsg type agent code url expires sid sdp (raw_field "candidate" o) conn value password
          has only pub share prot).

(** [json.Unmarshal(data, &msg)]. *)
Definition decode_agent_msg (f : frame) : option agentMsg :=
  match f_json f with
  | Some (JObj o) => decode_agent_obj o
  | Some JNull => decode_agent_obj []
  | _ => None
  end.
End decode.

(** * Share codes *)

Definition is_lower (n : nat) : bool := (97 <=? n)%nat && (n <=? 122)%nat.
Definition is_upper (n : nat) : bool := (65 <=? n)%nat && (n <=? 90)%nat.
Definition is_digit (n : nat) : bool := (48 <=? n)%nat && (n <=? 57)%nat.

Fixpoint all_chars (p : nat -> bool) (s : string) : bool :=
  match s with EmptyString => true | String c s' => p (nat_of_ascii c) && all_chars p s' end.

(** [^[a-z0-9]{8}$].
    [signaling-server/internal/handler/agent_ws.go:47-47] generatedCodeRegex *)
Definition generatedCode (s : string) : bool :=
  (String.length s =? 8)%nat && all_chars (fun n => is_lower n || is_digit n) s.
(** [^[a-zA-Z0-9_-]{8,128}$].
    [signaling-server/internal/handler/agent_ws.go:48-48] externalCodeRegex *)
Definition externalCode (s : string) : bool :=
  ((8 <=? String.length s) && (String.length s <=? 128))%nat
  && all_chars (fun n => is_lower n || is_upper n || is_digit n || (n =? 95)%nat || (n =? 45)%nat) s.

Definition code_char (i : Z) : ascii :=
  ascii_of_nat (Z.to_nat (let k := i mod 36 in if k <? 26 then 97 + k else 22 + k)).

Section agent_ws.
Context `{PocketBase} `{JWT} `{TimeText}.
Abbreviation handler := (proc World).

(** [rand.Int] fails when the source does (a negative draw here).
    [signaling-server/internal/handler/agent_ws.go:614-628] generateRandomCode *)
Fixpoint random_chars (n : nat) : handler (result string unit) :=
  match n with
  | O => mret (Ok EmptyString)
  | S n' =>
      i ← draw;
      if i <? 0 then mret (Err tt)
      else r ← random_chars n'; mret (rmap (String (code_char i)) r)
  end.
Definition generateRandomCode : handler (result string unit) := random_chars 8.

(** * Shares in the database *)

(** The share's record, before it is saved.
    [signaling-server/internal/handler/agent_ws.go:501-513] createSession *)
Definition session_record (code apiKeyID agentID : string) (expiresAt : option Z) (relayOnly : bool)
    (relayStaticPub shareType : string) (isPasswordProtected : bool) : record :=
  let r := NewRecord "sessions" in
  let r := rset "code" (VStr code) r in
  let r := rset "api_key_id" (VStr apiKeyID) r in
  let r := rset "agent_id" (VStr agentID) r in
  let r := rset "relay_only" (VBool relayOnly) r in
  let r := rset "relay_static_pub" (VStr relayStaticPub) r in
  let r := rset "share_type" (VStr shareType) r in
  let r := rset "is_password_protected" (VBool isPasswordProtected) r in
  match expiresAt with Some t => rset "expires_at" (VTime t) r | None => r end.

(** [signaling-server/internal/handler/agent_ws.go:493-516] createSession *)
Definition createSession (code apiKeyID agentID : string) (expiresAt : option Z) (relayOnly : bool)
    (relayStaticPub shareType : string) (isPasswordProtected : bool) (d : db) : result unit db_error * db :=
  match FindCollection "sessions" d with
  | Err e => (Err e, d)
  | Ok _ =>
      let '(res, d) := Save (session_record code apiKeyID agentID expiresAt relayOnly relayStaticPub shareType isPasswordProtected) d in
      (rmap (const tt) res, d)
  end.

(** [signaling-server/internal/handler/agent_ws.go:518-535] getSessionByCode *)
Definition getSessionByCode (code : string) (d : db) : result (option record) db_error :=
  rmap head (FindRecords "sessions" [("code"%string, code)] 1 d).

Inductive claim_error : Type := errCodeAlreadyInUse | errDifferentAgent | ErrDb (e : db_error).

(** The record of a claimed share, rewritten.
    [signaling-server/internal/handler/agent_ws.go:588-599] claimSessionCode *)
Definition reclaim (r : record) (apiKeyID agentID : string) (expiresAt : option Z) (relayOnly : option bool)
    (relayStaticPub shareType : string) (isPasswordProtected : bool) : record :=
  let r := rset "api_key_id" (VStr apiKeyID) r in
  let r := rset "agent_id" (VStr agentID) r in
  let r := match relayOnly with Some b => rset "relay_only" (VBool b) r | None => r end in
  let r := rset "relay_static_pub" (VStr relayStaticPub) r in
  let r := rset "share_type" (VStr shareType) r in
  let r := rset "is_password_protected" (VBool isPasswordProtected) r in
  match expiresAt with Some t => rset "expires_at" (VTime t) r | None => r end.

(** [signaling-server/internal/handler/agent_ws.go:537-612] claimSessionCode *)
Definition claimSessionCode (code apiKeyID accountID agentID : string) (expiresAt : option Z)
    (relayOnly : option bool) (relayStaticPub shareType : string) (isPasswordProtected : bool)
    : db -> result (option record * bool) claim_error * db :=
  RunInTransaction (fun d =>
    match SelectOwner code d with
    | Err e => (Err (ErrDb e), d)
    | Ok None =>
        let createRelayOnly := default false relayOnly in
        match createSession code apiKeyID agentID expiresAt createRelayOnly relayStaticPub shareType
                isPasswordProtected d with
        | (Err e, d) => (Err (ErrDb e), d)
        | (Ok _, d) =>
            match getSessionByCode code d with
            | Err e => (Err (ErrDb e), d)
            | Ok r => (Ok (r, false), d)
            end
        end
    | Ok (Some (sessionID, owner, agent)) =>
        if negb (bool_decide (owner = accountID)) then (Err errCodeAlreadyInUse, d)
        else if negb (bool_decide (agent = ""%string)) && negb (bool_decide (agent = agentID))
        then (Err errDifferentAgent, d)
        else
          match FindRecordById "sessions" sessionID d with
          | Err e => (Err (ErrDb e), d)
          | Ok r =>
              match Save (reclaim r apiKeyID agentID expiresAt relayOnly relayStaticPub shareType
                            isPasswordProtected) d with
              | (Err e, d) => (Err (ErrDb e), d)
              | (Ok r, d) => (Ok (Some r, true), d)
              end
          end
    end).

(** * The handlers *)

Definition direct_error (conn : nat) (m : string) : handler unit :=
  _ ← SendDirect (Some conn) (error_msg m); mret tt.

(** [signaling-server/internal/handler/agent_ws.go:304-327] handleHello *)
Definition handleHello (cfg : ServerConfig) (apiKeyID agentID : string) (conn : nat) : handler unit :=
  if bool_decide (agentID = ""%string) then direct_error conn "agent_id required"
  else
    _ ← hub_do (RegisterAgent apiKeyID (Some conn));
    let iceServers := BuildICEConfig (mkICERequest (cfg_STUNURL cfg) "" None) in
    _ ← SendDirect (Some conn) (typed "welcome" [("ice_servers"%string, JArr iceServers)]);
    mret tt.

(** Creating a share under a random code, again with a new code after each
    error, at most [n] times.
    [signaling-server/internal/handler/agent_ws.go:357-388] handleRegisterShare *)
Fixpoint create_random (n : nat) (code apiKeyID agentID : string) (msg : agentMsg) (conn : nat)
    : handler (option string) :=
  match n with
  | O => _ ← direct_error conn "code collision, try again"; mret None
  | S n' =>
      let relayOnly := default false (m_RelayOnly msg) in
      r ← db_act (createSession code apiKeyID agentID (m_ExpiresAt msg) relayOnly (m_RelayStaticPub msg) "" false);
      match r with
      | Ok _ => mret (Some code)
      | Err _ =>
          c ← generateRandomCode;
          match c with
          | Err _ => _ ← direct_error conn "failed to generate code"; mret None
          | Ok code => create_random n' code apiKeyID agentID msg conn
          end
      end
  end.

(** The code to use, and whether the share existed; [None] after an error reply.
    [signaling-server/internal/handler/agent_ws.go:340-430] handleRegisterShare *)
Definition obtain_code (apiKeyID accountID agentID : string) (msg : agentMsg) (conn : nat)
    : handler (option (string * bool)) :=
  let refuse m := (_ ← direct_error conn m; mret None) in
  if bool_decide (m_Code msg = ""%string) then
    c ← generateRandomCode;
    match c with
    | Err _ => refuse "failed to generate code"%string
    | Ok code =>
        r ← create_random 5 code apiKeyID agentID msg conn;
        mret (match r with Some code => Some (code, false) | None => None end)
    end
  else if negb (externalCode (m_Code msg)) then
    refuse "invalid external code format (8-128 chars, alphanumeric + hyphen + underscore)"%string
  else
    r ← db_act (claimSessionCode (m_Code msg) apiKeyID accountID agentID (m_ExpiresAt msg) (m_RelayOnly msg)
                  (m_RelayStaticPub msg) (m_ShareType msg) (m_IsPasswordProtected msg));
    match r with
    | Err errCodeAlreadyInUse => refuse "code already in use"%string
    | Err errDifferentAgent => refuse "session owned by different agent"%string
    | Err (ErrDb e) =>
        refuse (if bool_decide (e = "session owned by different agent"%string) then e else "database error"%string)
    | Ok (None, _) => refuse "failed to retrieve session"%string
    | Ok (Some _, reclaimed) => mret (Some (m_Code msg, reclaimed))
    end.

(** [signaling-server/internal/handler/agent_ws.go:329-458] handleRegisterShare *)
Definition handleRegisterShare (apiKeyID accountID agentID : string) (msg : agentMsg) (conn : nat)
    : handler unit :=
  c ← obtain_code apiKeyID accountID agentID msg conn;
  match c with
  | None => mret tt
  | Some (code, reconnected) =>
      _ ← hub_do (RegisterCode code apiKeyID);
      s ← db_get (getSessionByCode code);
      match s with
      | Ok (Some session) =>
          let t := GetDateTime session "expires_at" in
          _ ← SendDirect (Some conn)
                (typed "share_registered"
                   ([("code"%string, JStr code); ("reconnected"%string, JBool reconnected)]
                    ++ if IsZero t then [] else [("expires_at"%string, JStr (format_time t))]));
          mret tt
      | _ => direct_error conn "failed to retrieve session"
      end
  end.

(** [signaling-server/internal/handler/agent_ws.go:460-491] handleUnregisterShare *)
Definition handleUnregisterShare (apiKeyID code : string) (conn : nat) : handler unit :=
  let unregistered := (_ ← SendDirect (Some conn) (typed "share_unregistered" [("code"%string, JStr code)]); mret tt) in
  if bool_decide (code = ""%string) then direct_error conn "code required"
  else if negb (externalCode code) then
    direct_error conn "invalid external code format (8-128 chars, alphanumeric + hyphen + underscore)"
  else
    s ← db_get (getSessionByCode code);
    match s with
    | Err _ => direct_error conn "database error"
    | Ok None => unregistered
    | Ok (Some session) =>
        if negb (bool_decide (GetString session "api_key_id" = apiKeyID))
        then direct_error conn "session not owned by this api key"
        else
          r ← db_act (Delete session);
          match r with
          | Err _ => direct_error conn "database error"
          | Ok _ => _ ← UnregisterCode code apiKeyID "share has been removed"; unregistered
          end
    end.

(** Whether the account of the share may use the relay; [None] is a failed
    account lookup.
    [signaling-server/internal/handler/agent_ws.go:183-195] AgentWS *)
Definition relay_allowed (cfg : ServerConfig) (has_reg : bool) (accountID expectedStaticPub : string)
    : handler (option bool) :=
  if has_reg && negb (bool_decide (RelayJWTSecret cfg = ""%string))
     && negb (bool_decide (expectedStaticPub = ""%string))
  then
    a ← db_get (FindRecordById "users" accountID);
    match a with
    | Err _ => mret None
    | Ok account => mret (Some (negb (fst (checkRelayQuota account))))
    end
  else mret (Some false).

(** Making the two tokens and the pending session; [None] when signing failed.
    [signaling-server/internal/handler/agent_ws.go:197-249] AgentWS *)
Definition prepare_relay (cfg : ServerConfig) (accountID agentID code expectedStaticPub : string)
    (relayOnly : bool) (conn : nat) : handler (option string) :=
  b ← rand_read 16;
  let sid := NewSID b in
  now ← get_now;
  b ← rand_read 16;
  let jti := NewJTI b in
  let claims := mkBrowserClaims sid code true relayOnly expectedStaticPub "" (mkRegistered jti None None) in
  match SignBrowserPolicyJWT (RelayJWTSecret cfg) claims now with
  | Err _ => mret None
  | Ok browserJWT =>
      match SignAgentRelayJWT (RelayJWTSecret cfg) (mkAgentClaims sid agentID "" (mkRegistered "" None None)) now with
      | Err _ => mret None
      | Ok agentJWT =>
          _ ← reg_do (CreatePendingSession
                (mkPending sid accountID code agentID true relayOnly expectedStaticPub jti (now + TokenLifetime)));
          _ ← SendDirect (Some conn)
                (typed "relay_prepare"
                   [("sid"%string, JStr sid); ("code"%string, JStr code);
                    ("expires_at"%string, JStr (format_time (now + TokenLifetime)));
                    ("relay_jwt"%string, JStr agentJWT)]);
          mret (Some browserJWT)
      end
  end.

(** [signaling-server/internal/handler/agent_ws.go:159-257] AgentWS *)
Definition handleAuthOK (cfg : ServerConfig) (has_reg : bool) (apiKeyID accountID agentID : string)
    (msg : agentMsg) (conn : nat) : handler unit :=
  '(boundCode, owned) ← hub_get (BrowserSessionForAgent apiKeyID (Some conn) (m_ConnID msg));
  if negb owned || negb (bool_decide (boundCode = m_Code msg)) then mret tt
  else
    s ← db_get (getSessionByCode (m_Code msg));
    match s with
    | Ok (Some session) =>
        if negb (bool_decide (GetString session "api_key_id" = apiKeyID)) then mret tt
        else
          let relayOnly := GetBool session "relay_only" in
          let expectedStaticPub := GetString session "relay_static_pub" in
          ra ← relay_allowed cfg has_reg accountID expectedStaticPub;
          match ra with
          | None => mret tt
          | Some relayAllowed =>
              t ← (if (relayAllowed : bool)
                   then prepare_relay cfg accountID agentID (m_Code msg) expectedStaticPub relayOnly conn
                   else mret (Some ""%string));
              match t with
              | None => mret tt
              | Some browserJWT =>
                  _ ← ForwardToBrowserByConnID apiKeyID (Some conn) (m_ConnID msg)
                        (typed "relay_policy"
                           [("token"%string, JStr browserJWT); ("relay_allowed"%string, JBool relayAllowed);
                            ("relay_only"%string, JBool relayOnly)]);
                  mret tt
              end
          end
    | _ => mret tt
    end.

(** Counting a failed password: [max] attempts, then the browser is closed.
    [signaling-server/internal/handler/agent_ws.go:259-295] AgentWS *)
Definition handleAuthFailure (count : string -> wsconn -> string -> Hub -> Z * Hub) (max : Z) (reply : string)
    (apiKeyID : string) (msg : agentMsg) (conn : nat) : handler unit :=
  failures ← hub_act (count apiKeyID (Some conn) (m_ConnID msg));
  if failures =? 0 then mret tt
  else if max <=? failures then
    CloseBrowserConnWithError apiKeyID (Some conn) (m_ConnID msg) "too many incorrect password attempts"
  else
    _ ← ForwardToBrowserByConnID apiKeyID (Some conn) (m_ConnID msg)
          (typed reply [("attempts_remaining"%string, JNum (max - failures))]);
    mret tt.

(** The [switch]: the socket's agent id afterwards.
    [signaling-server/internal/handler/agent_ws.go:99-299] AgentWS *)
Definition agent_dispatch (cfg : ServerConfig) (has_reg : bool) (apiKeyID accountID agentID : string)
    (msg : agentMsg) (conn : nat) : handler string :=
  let is_type t := bool_decide (m_Type msg = t) in
  let enrolled := negb (bool_decide (agentID = ""%string)) in
  let when_enrolled (h : handler unit) := (_ ← (if enrolled then h else mret tt); mret agentID) in
  if is_type "hello"%string then
    if enrolled then mret agentID
    else
      _ ← handleHello cfg apiKeyID (m_AgentID msg) conn;
      mret (m_AgentID msg)
  else if is_type "register_share"%string then
    if enrolled then _ ← handleRegisterShare apiKeyID accountID agentID msg conn; mret agentID
    else _ ← direct_error conn "hello required before register_share"; mret agentID
  else if is_type "unregister_share"%string then
    when_enrolled (handleUnregisterShare apiKeyID (m_Code msg) conn)
  else if is_type "offer"%string then
    when_enrolled (_ ← ForwardToBrowser apiKeyID (Some conn) (m_SessionID msg)
                         (typed "offer" [("sdp"%string, JStr (m_SDP msg))]); mret tt)
  else if is_type "ice_candidate"%string then
    when_enrolled (_ ← ForwardToBrowser apiKeyID (Some conn) (m_SessionID msg)
                         (typed "ice_candidate" [("candidate"%string, m_Candidate msg)]); mret tt)
  else if is_type "nonce"%string then
    when_enrolled (_ ← ForwardToBrowserByConnID apiKeyID (Some conn) (m_ConnID msg)
                         (typed "nonce" [("conn_id"%string, JStr (m_ConnID msg)); ("value"%string, JStr (m_Value msg));
                                         ("has_password"%string, JBool (m_HasPassword msg))]); mret tt)
  else if is_type "auth_ok"%string then
    when_enrolled (handleAuthOK cfg has_reg apiKeyID accountID agentID msg conn)
  else if is_type "auth_fail"%string then
    when_enrolled (handleAuthFailure IncrementImmichAuthFailure 5 "auth_fail" apiKeyID msg conn)
  else if is_type "auth_failed"%string then
    when_enrolled (handleAuthFailure IncrementAuthFailure 3 "auth_failed" apiKeyID msg conn)
  else mret agentID.

(** One turn of the loop: [inl] is the agent id for the next turn.
    [signaling-server/internal/handler/agent_ws.go:78-100] AgentWS *)
Definition agent_turn (cfg : ServerConfig) (has_reg : bool) (apiKeyID accountID : string) (conn : nat)
    (agentID : string) : handler (string + unit) :=
  r ← ws_read conn;
  match r with
  | None =>
      _ ← (if bool_decide (agentID = ""%string) then mret tt else hub_do (UnregisterAgent apiKeyID (Some conn)));
      mret (inr tt)
  | Some f =>
      match decode_agent_msg f with
      | None => mret (inl agentID)
      | Some msg =>
          current ← (if bool_decide (agentID = ""%string) then mret true
                     else hub_get (IsCurrentAgent apiKeyID (Some conn)));
          if negb current then mret (inl agentID)
          else a ← agent_dispatch cfg has_reg apiKeyID accountID agentID msg conn; mret (inl a)
      end
  end.

(** The HTTP answer of a handler that refuses the upgrade. *)
Inductive http_result : Type := Upgraded | HttpError (body : obj) (status : Z).

(** [accepted] is what [websocket.Accept] gave; the key and account come from
    the API key middleware.
    [signaling-server/internal/handler/agent_ws.go:52-302] AgentWS *)
Definition AgentWS (cfg : ServerConfig) (has_reg : bool) (apiKeyID accountID : string) (accepted : option nat)
    : handler http_result :=
  if bool_decide (apiKeyID = ""%string)
  then mret (HttpError [("error"%string, JStr "missing api_key")] 401)
  else
    match accepted with
    | None => mret Upgraded
    | Some conn =>
        with_defer (ws_close_now (Some conn))
          (Iter ""%string (agent_turn cfg has_reg apiKeyID accountID conn) (fun _ => Done Upgraded))
    end.
End agent_ws.
