(* ===== verification/BrowserWS.v ===== *)
(** The browsers' websocket of the signaling server
    (signaling-server/internal/handler/browser_ws.go): finding the share,
    pairing with its agent, the quota and password gates, and routing the
    browser's messages to the agent. *)

From S2P Require Import Prelude Conc Json Hub Db Server Accounting AgentWS.
#[local] Open Scope Z_scope.

(** [signaling-server/internal/handler/browser_ws.go:19-26] browserMsg *)
Record browserMsg := mkBrowserMsg {
  bm_Type : string; bm_Code : string; bm_Password : string; bm_SDP : string;
  bm_Candidate : json; bm_HMAC : string }.

Definition decode_browser_obj (o : obj) : option browserMsg :=
  type ← field dec_str "type" ""%string o;
  code ← field dec_str "code" ""%string o;
  password ← field dec_str "password" ""%string o;
  sdp ← field dec_str "sdp" ""%string o;
  hmac ← field dec_str "hmac" ""%string o;
  Some (mkBrowserMsg type code password sdp (raw_field "candidate" o) hmac).

Definition decode_browser_msg (f : frame) : option browserMsg :=
  match f_json f with
  | Some (JObj o) => decode_browser_obj o
  | Some JNull => decode_browser_obj []
  | _ => None
  end.

Section browser_ws.
Context `{PocketBase} `{TimeText}.
Abbreviation handler := (proc World).

(** 16 random bytes in hexadecimal.
    [signaling-server/internal/handler/browser_ws.go:252-256] generateConnID *)
Definition generateConnID : handler string := b ← rand_read 16; mret (hex_encode b).

(** [signaling-server/internal/handler/browser_ws.go:229-242] sendBrowserIceConfigAndMaybeKnock *)
Definition sendBrowserIceConfigAndMaybeKnock (cfg : ServerConfig) (browserConn : nat)
    (apiKeyID sessionCode connID : string) (relayOnly quotaExceeded : bool) (periodEnd : Z) : handler unit :=
  let iceServers := BuildICEConfig (mkICERequest (cfg_STUNURL cfg) "" None) in
  _ ← hub_SendDirect (Some browserConn)
        (typed "ice_config"
           ([("ice_servers"%string, JArr iceServers); ("relay_only"%string, JBool relayOnly)]
            ++ if quotaExceeded
               then [("relay_quota_exceeded"%string, JBool true);
                     ("quota_period_end"%string, JStr (format_time periodEnd))]
               else []));
  if relayOnly
  then _ ← SendToAgent apiKeyID (typed "knock" [("conn_id"%string, JStr connID); ("code"%string, JStr sessionCode)]);
       mret tt
  else mret tt.

(** What the loop needs to know of the connection. *)
Record browser_session := mkBrowserSession {
  bs_conn : nat; bs_code : string; bs_connID : string; bs_apiKeyID : string;
  bs_isImmich : bool; bs_isPasswordProtected : bool }.

Definition auth_fail (s : browser_session) (m : string) : handler unit :=
  _ ← hub_SendDirect (Some (bs_conn s)) (typed "auth_fail" [("message"%string, JStr m)]); mret tt.

Definition to_agent (s : browser_session) (m : obj) : handler unit := _ ← SendToAgent (bs_apiKeyID s) m; mret tt.
Definition to_paired_agent (s : browser_session) (m : obj) : handler unit := _ ← ForwardToAgent (bs_code s) m; mret tt.

(** [signaling-server/internal/handler/browser_ws.go:172-224] BrowserWS *)
Definition browser_dispatch (s : browser_session) (msg : browserMsg) : handler unit :=
  let is_type t := bool_decide (bm_Type msg = t) in
  let conn_id := ("conn_id"%string, JStr (bs_connID s)) in
  let code := ("code"%string, JStr (bs_code s)) in
  let session_id := ("session_id"%string, JStr (bs_code s)) in
  let peer_id := ("peer_id"%string, JStr (bs_connID s)) in
  if bs_isImmich s && bs_isPasswordProtected s && negb (is_type "password_submit"%string)
  then auth_fail s "password auth required"
  else if is_type "knock"%string then to_agent s (typed "knock" [conn_id; code])
  else if is_type "password_submit"%string then
    if negb (bs_isImmich s) || negb (bs_isPasswordProtected s) then auth_fail s "password auth not required"
    else if negb (bool_decide (bm_Code msg = bs_code s)) then auth_fail s "session code mismatch"
    else to_agent s (typed "password_submit" [conn_id; code; ("password"%string, JStr (bm_Password msg))])
  else if is_type "join"%string then
    to_agent s (typed "join" [conn_id; code; ("hmac"%string, JStr (bm_HMAC msg))])
  else if is_type "answer"%string then
    to_paired_agent s (typed "answer" [session_id; peer_id; ("sdp"%string, JStr (bm_SDP msg))])
  else if is_type "ice_candidate"%string then
    to_paired_agent s (typed "ice_candidate" [session_id; peer_id; ("candidate"%string, bm_Candidate msg)])
  else mret tt.

(** One turn of the loop.
    [signaling-server/internal/handler/browser_ws.go:160-170] BrowserWS *)
Definition browser_turn (s : browser_session) : handler (unit + unit) :=
  r ← ws_read (bs_conn s);
  match r with
  | None => mret (inr tt)
  | Some f =>
      match decode_browser_msg f with
      | None => mret (inl tt)
      | Some msg => _ ← browser_dispatch s msg; mret (inl tt)
      end
  end.

(** [browserConn.Close] after an error message.
    [signaling-server/internal/handler/browser_ws.go:95-97] BrowserWS *)
Definition refuse_browser (conn : nat) (m : string) (status : Z) (reason : string) : handler unit :=
  _ ← hub_SendDirect (Some conn) (error_msg m); ws_close (Some conn) status reason.

(** The paired browser: the account, the quota gate, the first messages, the loop.
    [signaling-server/internal/handler/browser_ws.go:111-170] BrowserWS *)
Definition serve_browser (cfg : ServerConfig) (s : browser_session) (relayOnly : bool) : handler unit :=
  let conn := bs_conn s in
  let internal := refuse_browser conn "internal error" StatusInternalError "internal error" in
  k ← db_get (FindRecordById "api_keys" (bs_apiKeyID s));
  match k with
  | Err _ => internal
  | Ok apiKeyRecord =>
      let accountID := GetString apiKeyRecord "account_id" in
      if bool_decide (accountID = ""%string) then internal
      else
        a ← db_get (FindRecordById "users" accountID);
        match a with
        | Err _ => internal
        | Ok account =>
            let '(quotaExceeded, periodEnd) := checkRelayQuota account in
            if relayOnly && quotaExceeded then
              refuse_browser conn
                "file host's relay quota exceeded - this share requires secure relay which is unavailable"
                StatusNormalClosure "relay quota exceeded"
            else
              _ ← (if bs_isImmich s && bs_isPasswordProtected s
                   then _ ← hub_SendDirect (Some conn) (typed "password_required" []); mret tt
                   else sendBrowserIceConfigAndMaybeKnock cfg conn (bs_apiKeyID s) (bs_code s) (bs_connID s)
                          relayOnly quotaExceeded periodEnd);
              Iter tt (fun _ => browser_turn s) Done
        end
  end.

(** [accepted] is what [websocket.Accept] gave for the request.
    [signaling-server/internal/handler/browser_ws.go:28-109] BrowserWS *)
Definition BrowserWS (cfg : ServerConfig) (sessionCode : string) (accepted : option nat) : handler http_result :=
  rs ← db_get (FindRecords "sessions" [("code"%string, sessionCode)] 1);
  match rs with
  | Err _ => mret (HttpError [("error"%string, JStr "database error")] 500)
  | Ok [] => mret (HttpError [("error"%string, JStr "session not found or expired")] 404)
  | Ok (share :: _) =>
      let expiresAt := GetDateTime share "expires_at" in
      now ← get_now;
      if negb (IsZero expiresAt) && Registry.After now expiresAt
      then mret (HttpError [("error"%string, JStr "session not found or expired")] 404)
      else
        match accepted with
        | None => mret Upgraded
        | Some conn =>
            with_defer (ws_close_now (Some conn)) (
              let unconnected := refuse_browser conn "agent not connected" StatusNormalClosure "agent not connected" in
              a ← hub_get (GetAgentConn sessionCode);
              match a with
              | None => _ ← unconnected; mret Upgraded
              | Some _ =>
                  let apiKeyID := GetString share "api_key_id" in
                  connID ← generateConnID;
                  p ← hub_act (PairSession sessionCode connID apiKeyID (Some conn));
                  match p with
                  | Err _ => _ ← unconnected; mret Upgraded
                  | Ok _ =>
                      with_defer (hub_do (UnpairSession sessionCode (Some conn))) (
                        with_defer (hub_do (UnregisterBrowserConn connID)) (
                          _ ← serve_browser cfg
                                (mkBrowserSession conn sessionCode connID apiKeyID
                                   (bool_decide (GetString share "share_type" = "immich"%string))
                                   (GetBool share "is_password_protected"))
                                (GetBool share "relay_only");
                          mret Upgraded))
                  end
              end)
        end
  end.
End browser_ws.
