(* ===== verification/ApiKeys.v ===== *)
(** API keys and accounts of the signaling server
    (signaling-server/internal/middleware/api_key.go, handler/api_keys.go,
    handler/account.go, handler/rest.go): creating, checking, rotating and
    revoking keys, the quota report, and the public session info. *)

From Stdlib Require Import Ascii Floats.SpecFloat.
From S2P Require Import Prelude Float64 Conc Json Hub Db Server Accounting AgentWS.
#[local] Open Scope Z_scope.

(** * golang.org/x/crypto/bcrypt *)

Class Bcrypt := {
  bcrypt_generate : string -> result string unit;
  bcrypt_compare : string -> string -> bool }.

Class BcryptLaws `{Bcrypt} : Prop := {
  bcrypt_ok : forall k h, bcrypt_generate k = Ok h -> bcrypt_compare h k = true }.

(** * base64.RawURLEncoding *)

Definition b64_char (n : Z) : ascii :=
  ascii_of_nat (Z.to_nat (
    if n <? 26 then 65 + n else if n <? 52 then 71 + n else if n <? 62 then n - 4
    else if n =? 62 then 45 else 95)).

Fixpoint b64_encode (l : bytes) : string :=
  match l with
  | a :: b :: c :: l' =>
      let n := byte_val a * 65536 + byte_val b * 256 + byte_val c in
      String (b64_char (n / 262144)) (String (b64_char (n / 4096 mod 64))
        (String (b64_char (n / 64 mod 64)) (String (b64_char (n mod 64)) (b64_encode l'))))
  | [a; b] =>
      let n := byte_val a * 1024 + byte_val b * 4 in
      String (b64_char (n / 4096)) (String (b64_char (n / 64 mod 64)) (String (b64_char (n mod 64)) EmptyString))
  | [a] =>
      let n := byte_val a * 16 in
      String (b64_char (n / 64)) (String (b64_char (n mod 64)) EmptyString)
  | [] => EmptyString
  end.

(** * Splitting a key *)

Fixpoint has_char (c : ascii) (s : string) : bool :=
  match s with EmptyString => false | String d s' => bool_decide (d = c) || has_char c s' end.

(** The parts before and after the last [c]. *)
Fixpoint split_last (c : ascii) (s : string) : option (string * string) :=
  match s with
  | EmptyString => None
  | String d s' =>
      match split_last c s' with
      | Some (a, b) => Some (String d a, b)
      | None => if bool_decide (d = c) then Some (EmptyString, s') else None
      end
  end.

(** [signaling-server/internal/middleware/api_key.go:80-88] splitAPIKey *)
Definition splitAPIKey (fullKey : string) : option (string * string) :=
  match split_last "."%char fullKey with
  | Some (a, b) => if bool_decide (b = EmptyString) then None else Some (a, b)
  | None => None
  end.

Section api_keys.
Context `{PocketBase} `{TimeText} `{Bcrypt}.
Abbreviation handler := (proc World).

(** An HTTP answer: its status and JSON body. *)
Inductive response : Type := Resp (status : Z) (body : json).
Definition err_resp (status : Z) (m : string) : response := Resp status (JObj [("error"%string, JStr m)]).

(** The account a record belongs to.
    [signaling-server/internal/middleware/api_key.go:61-68] APIKeyAuth *)
Definition account_of (r : record) : string :=
  match ExpandedOne r "account_id" with
  | Some rel => r_id rel
  | None => GetString r "account_id"
  end.

(** The key id and account for the handlers behind it, or the refusal.
    [signaling-server/internal/middleware/api_key.go:13-78] APIKeyAuth *)
Definition APIKeyAuth (apiKeyFull : string) : handler (result (string * string) response) :=
  if bool_decide (apiKeyFull = ""%string) then mret (Err (err_resp 401 "api_key required"))
  else
    match splitAPIKey apiKeyFull with
    | None => mret (Err (err_resp 401 "invalid api_key format"))
    | Some (recordID, _) =>
        r ← db_get (FindRecordById "api_keys" recordID);
        match r with
        | Err _ => mret (Err (err_resp 401 "invalid api_key"))
        | Ok record =>
            if negb (GetBool record "is_active") then mret (Err (err_resp 401 "api_key inactive"))
            else if negb (bcrypt_compare (GetString record "key_hash") apiKeyFull)
            then mret (Err (err_resp 401 "invalid api_key"))
            else
              now ← get_now;
              let record := rset "last_used_at" (VTime now) record in
              _ ← db_act (Save record);
              mret (Ok (r_id record, account_of record))
        end
    end.

(** [signaling-server/internal/handler/api_keys.go:278-286] ownsAPIKey *)
Definition ownsAPIKey (r : record) (accountID : string) : bool :=
  bool_decide (match ExpandedOne r "account_id" with
               | Some rel => r_id rel
               | None => GetString r "account_id"
               end = accountID).

(** A key's record, before it is saved and its hash is known.
    [signaling-server/internal/handler/api_keys.go:242-245] createAPIKeyRecord *)
Definition key_record (accountID label : string) : record :=
  let r := NewRecord "api_keys" in
  let r := rset "account_id" (VStr accountID) r in
  let r := rset "label" (VStr label) r in
  rset "is_active" (VBool true) r.

(** The key's record, text and creation time; [secret] is what [rand.Read]
    gave, [None] when it failed, and [now] the current time.
    [signaling-server/internal/handler/api_keys.go:236-276] createAPIKeyRecord *)
Definition createAPIKeyRecord (accountID label : string) (secret : option bytes) (now : Z) (d : db)
    : result (record * string * Z) string * db :=
  match FindCollection "api_keys" d with
  | Err _ => (Err "failed to find collection"%string, d)
  | Ok _ =>
      match Save (key_record accountID label) d with
      | (Err _, d) => (Err "failed to create key"%string, d)
      | (Ok r, d) =>
          match secret with
          | None => (Err "failed to generate secret"%string, snd (Delete r d))
          | Some secretBytes =>
              let fullKey := (r_id r ++ "." ++ b64_encode secretBytes)%string in
              match bcrypt_generate fullKey with
              | Err _ => (Err "failed to hash key"%string, snd (Delete r d))
              | Ok hash =>
                  let r := rset "key_hash" (VStr hash) r in
                  match Save r d with
                  | (Err _, d) => (Err "failed to save key hash"%string, snd (Delete r d))
                  | (Ok r, d) =>
                      let created := GetDateTime r "created" in
                      (Ok (r, fullKey, if IsZero created then now else created), d)
                  end
              end
          end
      end
  end.

(** [rand.Read] of 32 bytes, which fails when its first draw is negative. *)
Definition secret_read : handler (option bytes) :=
  l ← draws 32;
  mret (if existsb (fun z => z <? 0) l then None else Some (map byte_of_Z l)).

(** [signaling-server/internal/handler/api_keys.go:22-28] CreateAPIKeyResponse *)
Definition created_resp (r : record) (fullKey label : string) (createdAt : Z) : response :=
  Resp 201 (JObj [("id"%string, JStr (r_id r)); ("key"%string, JStr fullKey); ("label"%string, JStr label);
                  ("created_at"%string, JStr (format_time createdAt))]).

(** [auth] is the signed-in user; [label] the optional label of the body.
    [signaling-server/internal/handler/api_keys.go:39-65] CreateAPIKey *)
Definition CreateAPIKey (auth : option record) (label : string) : handler response :=
  match auth with
  | None => mret (err_resp 401 "authentication required")
  | Some u =>
      secret ← secret_read;
      now ← get_now;
      r ← db_act (createAPIKeyRecord (r_id u) label secret now);
      match r with
      | Err m => mret (err_resp 500 m)
      | Ok (r, fullKey, createdAt) => mret (created_resp r fullKey label createdAt)
      end
  end.

(** The transaction of a rotation.
    [signaling-server/internal/handler/api_keys.go:100-128] RotateAPIKey *)
Definition rotate_tx (accountID label oldKeyID : string) (secret : option bytes) (now : Z)
    : db -> result (record * string * Z) string * db :=
  RunInTransaction (fun d =>
    match createAPIKeyRecord accountID label secret now d with
    | (Err m, d) => (Err m, d)
    | (Ok (r, fullKey, createdAt), d) =>
        match MoveSessions (r_id r) oldKeyID d with
        | (Err m, d) => (Err m, d)
        | (Ok _, d) =>
            match FindRecordById "api_keys" oldKeyID d with
            | Err m => (Err m, d)
            | Ok old =>
                match Save (rset "is_active" (VBool false) old) d with
                | (Err m, d) => (Err m, d)
                | (Ok _, d) => (Ok (r, fullKey, createdAt), d)
                end
            end
        end
    end).

(** [signaling-server/internal/handler/api_keys.go:67-142] RotateAPIKey *)
Definition RotateAPIKey (auth : option record) (oldKeyID : string) : handler response :=
  match auth with
  | None => mret (err_resp 401 "authentication required")
  | Some u =>
      if bool_decide (oldKeyID = ""%string) then mret (err_resp 400 "key id required")
      else
        k ← db_get (FindRecordById "api_keys" oldKeyID);
        match k with
        | Err _ => mret (err_resp 404 "key not found")
        | Ok old =>
            if negb (ownsAPIKey old (r_id u)) then mret (err_resp 403 "access denied")
            else if negb (GetBool old "is_active") then mret (err_resp 400 "key is already revoked")
            else
              let newLabel := GetString old "label" in
              secret ← secret_read;
              now ← get_now;
              r ← db_act (rotate_tx (r_id u) newLabel oldKeyID secret now);
              match r with
              | Err m => mret (err_resp 500 m)
              | Ok (r, fullKey, createdAt) =>
                  _ ← CloseAgent oldKeyID;
                  mret (created_resp r fullKey newLabel createdAt)
              end
        end
  end.

(** One row of the list, without the hash.
    [signaling-server/internal/handler/api_keys.go:168-191] ListAPIKeys *)
Definition key_item (r : record) : json :=
  let createdAt := GetDateTime r "created" in
  let lastUsedAt := GetDateTime r "last_used_at" in
  JObj ([("id"%string, JStr (r_id r)); ("label"%string, JStr (GetString r "label"))]
        ++ (if IsZero lastUsedAt then [] else [("last_used_at"%string, JStr (format_time lastUsedAt))])
        ++ [("is_active"%string, JBool (GetBool r "is_active"));
            ("created_at"%string, JStr (format_time createdAt))]).

(** [signaling-server/internal/handler/api_keys.go:144-195] ListAPIKeys *)
Definition ListAPIKeys (auth : option record) : handler response :=
  match auth with
  | None => mret (err_resp 401 "authentication required")
  | Some u =>
      rs ← db_get (FindNewest "api_keys" [("account_id"%string, r_id u)] 100);
      match rs with
      | Err _ => mret (err_resp 500 "failed to list keys")
      | Ok rs => mret (Resp 200 (JArr (map key_item rs)))
      end
  end.

(** [signaling-server/internal/handler/api_keys.go:197-234] RevokeAPIKey *)
Definition RevokeAPIKey (auth : option record) (keyID : string) : handler response :=
  match auth with
  | None => mret (err_resp 401 "authentication required")
  | Some u =>
      if bool_decide (keyID = ""%string) then mret (err_resp 400 "key id required")
      else
        k ← db_get (FindRecordById "api_keys" keyID);
        match k with
        | Err _ => mret (err_resp 404 "key not found")
        | Ok r =>
            if negb (ownsAPIKey r (r_id u)) then mret (err_resp 403 "access denied")
            else
              s ← db_act (Save (rset "is_active" (VBool false) r));
              match s with
              | Err _ => mret (err_resp 500 "failed to revoke key")
              | Ok _ =>
                  _ ← CloseAgent keyID;
                  mret (Resp 200 (JObj [("message"%string, JStr "key revoked")]))
              end
        end
  end.

(** * The quota report *)

(** [signaling-server/internal/handler/account.go:11-19] QuotaInfo *)
Record QuotaInfo := mkQuotaInfo {
  LimitGB : float64; UsedGB : float64; RemainingGB : float64;
  PeriodStart : Z; PeriodEnd : Z; PercentageUsed : Z }.

(** [signaling-server/internal/handler/account.go:28-52] buildQuotaResponse *)
Definition buildQuotaResponse (limitGB usedGB : float64) (periodStart periodEnd : Z) : QuotaInfo :=
  let zero := S754_zero false in
  let remainingGB := f64_sub limitGB usedGB in
  let remainingGB := if f64_lt remainingGB zero then zero else remainingGB in
  let percentageUsed :=
    if f64_gt limitGB zero
    then let p := int64_of_f64 (f64_mul (f64_div usedGB limitGB) (f64_of_Z 100)) in
         if 100 <? p then 100 else p
    else 0 in
  mkQuotaInfo limitGB usedGB remainingGB periodStart periodEnd percentageUsed.

Definition quota_of (u : record) : QuotaInfo :=
  buildQuotaResponse (GetFloat u "relay_quota_gb") (GetFloat u "current_period_usage_gb")
    (GetDateTime u "quota_period_start") (GetDateTime u "quota_period_end").

(** An account's report: the account, or an error.
    [signaling-server/internal/handler/account.go:54-88] GetAccount *)
Definition GetAccount (auth : option record) : result (string * string * QuotaInfo) response :=
  match auth with
  | None => Err (err_resp 401 "authentication required")
  | Some u => Ok (r_id u, GetString u "email", quota_of u)
  end.

(** [signaling-server/internal/handler/account.go:90-127] GetAccountQuota *)
Definition GetAccountQuota (accountID : string) : handler (result QuotaInfo response) :=
  if bool_decide (accountID = ""%string) then mret (Err (err_resp 401 "authentication required"))
  else
    u ← db_get (FindRecordById "users" accountID);
    match u with
    | Err _ => mret (Err (err_resp 404 "account not found"))
    | Ok u => mret (Ok (quota_of u))
    end.

(** * Public session info *)

(** [signaling-server/internal/handler/rest.go:94-98] SessionInfoResponse *)
Definition SessionInfoResponse (code : string) (expiresAt : option Z) (isActive : bool) : response :=
  Resp 200 (JObj ([("code"%string, JStr code)]
                  ++ match expiresAt with
                     | Some t => [("expires_at"%string, JStr (format_time t))]
                     | None => []
                     end ++ [("is_active"%string, JBool isActive)])).

(** [signaling-server/internal/handler/rest.go:100-146] GetSessionInfo *)
Definition GetSessionInfo (code : string) : handler response :=
  if bool_decide (code = ""%string) then mret (err_resp 400 "code required")
  else
    rs ← db_get (FindRecords "sessions" [("code"%string, code)] 1);
    match rs with
    | Err _ => mret (err_resp 500 "failed to lookup session")
    | Ok [] => mret (err_resp 404 "session not found")
    | Ok (s :: _) =>
        let expiresAt := GetDateTime s "expires_at" in
        now ← get_now;
        let unexpired := IsZero expiresAt || negb (Registry.Before expiresAt now) in
        connected ← hub_get (AgentConnected (GetString s "api_key_id"));
        mret (SessionInfoResponse (GetString s "code") (if IsZero expiresAt then None else Some expiresAt)
                (unexpired && connected))
    end.
End api_keys.
