(* ===== verification/ApiKeysSpec.v ===== *)
(** What API keys guarantee: a key that was handed out authenticates as its
    record and account until it is revoked, nothing else does, and a revoked
    key's agent and its browsers are cut off. *)

From Stdlib Require Import Ascii.
From stdpp Require Import pretty.
From S2P Require Import Prelude Conc Json Hub Db Server Accounting AgentWS ApiKeys.
#[local] Open Scope Z_scope.

(** * The text of a key *)

Lemma b64_char_not_dot n : 0 <= n < 64 -> b64_char n <> "."%char.
Proof.
  intros Hn Heq. unfold b64_char in Heq. apply (f_equal nat_of_ascii) in Heq.
  rewrite nat_ascii_embedding in Heq by (repeat case_match; lia).
  change (nat_of_ascii "."%char) with 46%nat in Heq. repeat case_match; lia.
Qed.

Lemma b64_no_dot l : has_char "."%char (b64_encode l) = false.
Proof.
  assert (forall k (l : bytes), (length l <= k)%nat -> has_char "."%char (b64_encode l) = false) as Hk.
  { clear l. induction k as [|k IH]; intros l Hl; [destruct l; [done|simpl in Hl; lia]|].
    destruct l as [|a [|b [|c l]]]; [done|..]; cbn [b64_encode has_char];
      try pose proof (byte_val_range a); try pose proof (byte_val_range b); try pose proof (byte_val_range c);
      repeat (rewrite bool_decide_false by
        (apply b64_char_not_dot; first [apply Z.mod_pos_bound; lia
           |split; [apply Z.div_pos; lia|apply Z.div_lt_upper_bound; lia]])); [done..|].
    simpl. apply IH. simpl in Hl. lia. }
  by apply (Hk (length l)).
Qed.

Lemma split_last_app c a b : has_char c b = false -> split_last c (a ++ String c b) = Some (a, b).
Proof.
  intros Hb. induction a as [|d a IH]; simpl; [|by rewrite IH].
  assert (split_last c b = None) as ->; [|by rewrite bool_decide_true].
  revert Hb. induction b as [|d b IH]; simpl; [done|]. intros [Hd Hb]%orb_false_iff.
  rewrite IH by done. apply bool_decide_eq_false in Hd. by rewrite bool_decide_false.
Qed.

Lemma b64_nonempty l : l <> [] -> b64_encode l <> EmptyString.
Proof. by destruct l as [|a [|b [|c l]]]. Qed.

Lemma splitAPIKey_made i secret : secret <> [] ->
  splitAPIKey (i ++ "." ++ b64_encode secret) = Some (i, b64_encode secret).
Proof.
  intros Hs. unfold splitAPIKey.
  change ("." ++ b64_encode secret)%string with (String "."%char (b64_encode secret)).
  rewrite split_last_app by apply b64_no_dot.
  by rewrite bool_decide_false by (by apply b64_nonempty).
Qed.

Section spec.
Context `{PocketBaseLaws} `{TimeText} `{BcryptLaws}.

Lemma account_of_eq r : account_of r = GetString r "account_id".
Proof. unfold account_of. destruct (ExpandedOne r "account_id") eqn:He; [|done]. by apply expanded_spec. Qed.

Lemma ownsAPIKey_eq r acct : ownsAPIKey r acct = bool_decide (GetString r "account_id" = acct).
Proof.
  unfold ownsAPIKey. destruct (ExpandedOne r "account_id") eqn:He; [|done].
  by rewrite (expanded_spec _ _ _ He).
Qed.

(** The database holds the key record [i]: active or not, its account and hash. *)
Definition key_in (i acct hash : string) (active : bool) (d : db) : Prop :=
  exists r, FindRecordById "api_keys" i d = Ok r /\ GetBool r "is_active" = active
    /\ GetString r "account_id" = acct /\ GetString r "key_hash" = hash.

(** Saving a found key record with other fields changed keeps those facts. *)
Lemma key_in_save i acct hash active r d :
  r_coll r = "api_keys"%string -> r_id r = i -> i <> ""%string ->
  GetBool r "is_active" = active -> GetString r "account_id" = acct -> GetString r "key_hash" = hash ->
  is_ok (Save r d).1 = true -> key_in i acct hash active (Save r d).2.
Proof.
  intros Hc Hi Hne Ha Hacc Hh Hok. destruct (Save r d) as [[r'|e] d'] eqn:Hs; [|done]. simpl.
  destruct (save_ok _ _ _ _ Hs) as (_&_&Hold&_&(s&Hf&Hk)&_). rewrite Hold, Hc, Hi in Hf by congruence.
  exists s. rewrite (kp_bool _ _ Hk), !(kp_string _ _ Hk) by content. auto.
Qed.

Lemma key_in_set i acct hash active r k v d :
  FindRecordById "api_keys" i d = Ok r -> k <> "is_active"%string -> k <> "account_id"%string ->
  k <> "key_hash"%string -> key_in i acct hash active d -> key_in i acct hash active (Save (rset k v r) d).2.
Proof.
  intros Hf Hk1 Hk2 Hk3 (r'&Hf'&Ha&Hacc&Hh). rewrite Hf in Hf'. injection Hf' as <-.
  destruct (find_id _ _ _ _ Hf) as (Hc&Hi&Hne).
  destruct (is_ok (Save (rset k v r) d).1) eqn:Hok.
  - apply key_in_save; simpl; try done; rewrite ?GetBool_set_ne, ?GetString_set_ne; done.
  - destruct (Save (rset k v r) d) as [[r'|e] d'] eqn:Hs; [done|]. simpl.
    rewrite (save_err _ _ _ _ Hs). exists r. auto.
Qed.

(** Checking a key against its record. *)
Lemma auth_spec k i s acct hash active w :
  splitAPIKey k = Some (i, s) -> key_in i acct hash active (w_db w) ->
  returns (APIKeyAuth k) (fun res w' =>
    w_hub w' = w_hub w /\
    if active && bcrypt_compare hash k
    then res = Ok (i, acct) /\ key_in i acct hash true (w_db w')
    else is_ok res = false /\ w' = w) w.
Proof.
  intros Hk (r&Hf&Ha&Hacc&Hh). unfold APIKeyAuth. rewrite bool_decide_false by (intros ->; done).
  rewrite Hk. apply tot_bind, tot_db_get. rewrite Hf, Ha, Hh.
  destruct active; simpl; [|by apply tot_ret].
  destruct (bcrypt_compare hash k); simpl; [|by apply tot_ret].
  apply tot_bind, tot_now. apply tot_bind, tot_db_act, tot_ret.
  destruct (find_id _ _ _ _ Hf) as (Hc&Hi&Hne). simpl.
  split_and!; [done|by rewrite account_of_eq, GetString_set_ne, Hacc, Hi|].
  apply key_in_set; [exact Hf|done..|]. by exists r.
Qed.

(** Making a key: the record it leaves. *)
Lemma create_spec acct label secret now d r key created d' :
  createAPIKeyRecord acct label secret now d = (Ok (r, key, created), d') ->
  exists sec hash, secret = Some sec /\ key = (r_id r ++ "." ++ b64_encode sec)%string
    /\ bcrypt_generate key = Ok hash /\ key_in (r_id r) acct hash true d'
    /\ (forall i, i <> r_id r -> FindRecordById "api_keys" i d' = FindRecordById "api_keys" i d)
    /\ (forall r0, FindRecordById "api_keys" (r_id r) d <> Ok r0)
    /\ (forall c i, c <> "api_keys"%string -> FindRecordById c i d' = FindRecordById c i d).
Proof.
  unfold createAPIKeyRecord, key_record. cbv zeta. destruct (FindCollection _ _); [|done].
  set (r0 := rset "is_active" _ _). destruct (Save r0 d) as [[r1|e] d1] eqn:Hs1; [|done].
  destruct secret as [sec|]; [|done]. destruct (bcrypt_generate _) as [hash|] eqn:Hb; [|done].
  destruct (Save (rset "key_hash" _ r1) d1) as [[r2|e] d2] eqn:Hs2; [|done]. intros [= <- <- <- <-].
  destruct (save_ok _ _ _ _ Hs1) as (Hk1&Hn1&_&Hfresh&_&Ho1).
  destruct (save_ok _ _ _ _ Hs2) as (_&_&Hold&_&(s&Hl&Hk)&Ho2).
  assert (r_coll r1 = "api_keys"%string) as Hc1 by (by rewrite (kp_coll _ _ Hk1)).
  cbn [rset r_id r_coll] in *. rewrite Hold, Hc1 in * by done. change (r_coll r0) with "api_keys"%string in *.
  assert (kept (rset "key_hash" (VStr hash) r0) s) as Hks by (by rewrite Hk1).
  exists sec, hash. split_and!; try done.
  - exists s. split; [done|]. rewrite (kp_bool _ _ Hks), !(kp_string _ _ Hks) by content. unfold r0.
    rewrite GetBool_set_ne, GetBool_set, GetString_set by done. by rewrite !GetString_set_ne, GetString_set by done.
  - intros i Hi. by rewrite Ho2, Ho1 by congruence.
  - by apply Hfresh.
  - intros c i Hc. by rewrite Ho2, Ho1 by congruence.
Qed.

Lemma db_CloseAgent k w : returns (CloseAgent k) (fun _ w' => w_db w' = w_db w) w.
Proof.
  assert (forall bs w0, returns (for_each bs (fun b => _ ← hub_do (drop_write b);
            ws_close b StatusNormalClosure "agent disconnected")) (fun _ w' => w_db w' = w_db w0) w0) as Hbs.
  { induction bs as [|b bs IH]; intros w0; cbn [for_each]; [by apply tot_ret|].
    apply tot_bind, tot_bind, tot_hub_do, tot_modifies. eapply returns_mono; [|apply IH].
    intros _ w' ->. by destruct b. }
  unfold CloseAgent. apply tot_bind, tot_hub_act.
  destruct (CloseAgent_locked k (w_hub w)) as [[conn bs] h]. simpl. apply tot_bind.
  destruct conn as [[s|]|]; [|by apply tot_ret; apply (Hbs bs (set_hub h w))..].
  apply tot_bind, tot_hub_do, tot_close. eapply returns_mono; [|apply Hbs]. by intros _ w' ->.
Qed.

(** Revoking: the record, when the answer is 200. *)
Lemma revoke_spec u i acct hash active w :
  key_in i acct hash active (w_db w) ->
  returns (RevokeAPIKey (Some u) i) (fun resp w' =>
    match resp with
    | Resp 200 _ => acct = r_id u /\ key_in i acct hash false (w_db w')
    | _ => w' = w
    end) w.
Proof.
  intros (r&Hf&Ha&Hacc&Hh). unfold RevokeAPIKey. destruct (find_id _ _ _ _ Hf) as (Hc&Hi&Hne).
  rewrite bool_decide_false by done. apply tot_bind, tot_db_get. rewrite Hf.
  rewrite ownsAPIKey_eq, Hacc. case_bool_decide as Ho; simpl; [|by apply tot_ret].
  apply tot_bind, tot_db_act. destruct (Save _ (w_db w)) as [[r'|e] d'] eqn:Hs; simpl; [|apply tot_ret; apply save_err in Hs; subst d'; by destruct w].
  assert (key_in i acct hash false d') as Hk.
  { change d' with (Ok (A:=record) (E:=string) r', d').2. rewrite <- Hs.
    apply key_in_save; simpl; try done; [by rewrite GetBool_set|by rewrite GetString_set_ne..|by rewrite Hs]. }
  apply tot_bind. eapply returns_mono; [|apply db_CloseAgent]. intros [] w2 Hw2. simpl in Hw2. apply tot_ret.
  by rewrite Hw2.
Qed.

Lemma tot_secret (Q : option bytes -> World -> Prop) w :
  (32 <= length (w_rand w))%nat ->
  (forall o, (forall l, o = Some l -> l <> []) -> Q o (set_rand (drop 32 (w_rand w)) w)) ->
  returns secret_read Q w.
Proof.
  intros Hl HQ. apply tot_bind, tot_draws; [done|]. apply tot_ret, HQ. intros l.
  destruct (existsb _ _); [done|]. intros [= <-] Hnil. apply (f_equal length) in Hnil.
  rewrite length_map, length_take in Hnil. cbn [length] in Hnil. lia.
Qed.

(** C36 (roundtrip). An API key works exactly while it should.  Creating a key
    (with enough randomness at hand) answers, with a key or with an error.  A
    key it answers with authenticates as its record and the creator's account,
    and no key that was there has changed.  Any other text that names the record
    is accepted, as that account, exactly if bcrypt matches it with the hash of
    the key, which is all the record has of it; once the key was revoked with
    success, no text that names the record is accepted, matching or not; and a
    revocation that fails changes nothing. *)
Theorem api_key_lifecycle u label w :
  (32 <= length (w_rand w))%nat ->
  returns (CreateAPIKey (Some u) label) (fun resp w1 =>
    (exists m, resp = err_resp 500 m) \/
    exists r key created hash, resp = created_resp r key label created /\ bcrypt_generate key = Ok hash
      /\ returns (APIKeyAuth key) (fun res _ => res = Ok (r_id r, r_id u)) w1
      /\ (forall i, i <> r_id r -> FindRecordById "api_keys" i (w_db w1) = FindRecordById "api_keys" i (w_db w))
      /\ (forall text s, splitAPIKey text = Some (r_id r, s) ->
           returns (APIKeyAuth text) (fun res _ =>
             if bcrypt_compare hash text then res = Ok (r_id r, r_id u) else is_ok res = false) w1)
      /\ returns (RevokeAPIKey (Some u) (r_id r)) (fun resp w2 =>
           match resp with
           | Resp 200 _ => forall text s, splitAPIKey text = Some (r_id r, s) ->
               returns (APIKeyAuth text) (fun res w3 => is_ok res = false /\ w3 = w2) w2
           | _ => w2 = w1
           end) w1) w.
Proof.
  intros Hlen. unfold CreateAPIKey. apply tot_bind, tot_secret; [done|]. intros secret Hsec.
  apply tot_bind, tot_now. apply tot_bind, tot_db_act.
  destruct (createAPIKeyRecord _ _ _ _ _) as [[[[r key] created]|m] d'] eqn:Hc; simpl;
    [right|by apply tot_ret; left; eauto].
  destruct (create_spec _ _ _ _ _ _ _ _ _ Hc) as (sec&hash&Hs&Hkey&Hb&Hin&Hoth&_).
  assert (splitAPIKey key = Some (r_id r, b64_encode sec)) as Hsplit
    by (rewrite Hkey; apply splitAPIKey_made; by eapply Hsec).
  exists r, key, created, hash. split_and!; [done|done|..].
  - eapply returns_mono; [|by eapply (auth_spec key)]. intros res w2 [_ Hres].
    rewrite (bcrypt_ok _ _ Hb) in Hres. by destruct Hres.
  - exact Hoth.
  - intros text s Ht. eapply returns_mono; [|by eapply (auth_spec text)]. intros res w2 [_ Hres]. cbn [andb] in Hres.
    destruct (bcrypt_compare hash text); by destruct Hres.
  - eapply returns_mono; [|by eapply revoke_spec]. intros [st body] w2. cbn beta iota. intros Hst.
    assert (forall k, st = k -> k = 200 -> forall text s, splitAPIKey text = Some (r_id r, s) ->
      returns (APIKeyAuth text) (fun res w3 => is_ok res = false /\ w3 = w2) w2) as Hgo.
    { intros k -> -> text s Ht. destruct Hst as [_ Hin2].
      eapply returns_mono; [|by eapply (auth_spec text)]. by intros res w3 [_ Hres]. }
    repeat case_match; try done; by eapply Hgo.
Qed.
End spec.

(** * A concrete server *)

(** A hash function that keeps the whole key, and a clock text in digits. *)
#[export] Instance plain_bcrypt : Bcrypt :=
  {| bcrypt_generate k := Ok k; bcrypt_compare h k := bool_decide (k = h) |}.
#[export] Instance plain_bcrypt_laws : BcryptLaws.
Proof.
  constructor. cbn. intros k h [= ->]. by rewrite bool_decide_true.
Qed.
#[export] Instance digit_time : TimeText := {| parse_time _ := None; format_time z := pretty z |}.

Definition demo_user : record := mkRecord "users" "alice" ∅.
Definition demo_key_world : World :=
  mkWorld Hub.New (Registry.NewRegistry (7 * Second)) (mkMem ∅ 0) ∅ [] 5 (Z.of_nat <$> seq 0 32) [].

Lemma api_key_lifecycle_witness :
  returns (CreateAPIKey (Some demo_user) "laptop") (fun resp w1 =>
    (exists m, resp = err_resp 500 m) \/
    exists r key created hash, resp = created_resp r key "laptop" created /\ bcrypt_generate key = Ok hash
      /\ returns (APIKeyAuth key) (fun res _ => res = Ok (r_id r, r_id demo_user)) w1
      /\ (forall i, i <> r_id r -> FindRecordById "api_keys" i (w_db w1) = FindRecordById "api_keys" i (w_db demo_key_world))
      /\ (forall text s, splitAPIKey text = Some (r_id r, s) ->
           returns (APIKeyAuth text) (fun res _ =>
             if bcrypt_compare hash text then res = Ok (r_id r, r_id demo_user) else is_ok res = false) w1)
      /\ returns (RevokeAPIKey (Some demo_user) (r_id r)) (fun resp w2 =>
           match resp with
           | Resp 200 _ => forall text s, splitAPIKey text = Some (r_id r, s) ->
               returns (APIKeyAuth text) (fun res w3 => is_ok res = false /\ w3 = w2) w2
           | _ => w2 = w1
           end) w1) demo_key_world.
Proof. apply (api_key_lifecycle demo_user "laptop" demo_key_world). vm_compute. repeat constructor. Defined.

(** In this world a key is made: the error answer is not taken. *)
Example demo_key_made :
  is_ok (createAPIKeyRecord (r_id demo_user) "laptop" (Some [x01; x02; x03]) 5 (w_db demo_key_world)).1 = true.
Proof. vm_compute. reflexivity. Qed.
