(* ===== verification/HandlerSpec.v ===== *)
(** What the signaling server's handlers do to the state they share: cutting
    off a revoked key, claiming share codes, limiting password attempts. *)

From S2P Require Import Prelude Conc Json Tokens Registry Hub Db Server Accounting AgentWS ApiKeys ApiKeysSpec.
#[local] Open Scope Z_scope.

(** * Sockets *)

(** The hub says the same about agents, codes and browsers. *)
Definition same_routes (h h' : Hub) : Prop :=
  agents h' = agents h /\ codes h' = codes h /\ pairs h' = pairs h
  /\ connBrowsers h' = connBrowsers h /\ browserOwners h' = browserOwners h.

Lemma routes_browser k c cid h h' : same_routes h h' ->
  browserForAgentLocked k c cid h' = browserForAgentLocked k c cid h.
Proof.
  intros (Ha&Hc&Hp&Hb&Ho). unfold browserForAgentLocked, agentOwnsSessionLocked, agent_conn, code_owner.
  by rewrite Ha, Hc, Hb, Ho.
Qed.

#[export] Instance same_routes_equiv : Equivalence same_routes.
Proof.
  split.
  - intros h. by repeat split.
  - intros h1 h2 (?&?&?&?&?). by repeat split.
  - intros h1 h2 h3 (?&?&?&?&?) (?&?&?&?&?). repeat split; congruence.
Qed.
#[export] Instance browserForAgent_routes k c cid : Proper (same_routes ==> eq) (browserForAgentLocked k c cid).
Proof. intros h h' Hr. symmetry. by apply routes_browser. Qed.
#[export] Instance conn_target_routes k c cid : Proper (same_routes ==> eq) (conn_target k c cid).
Proof. intros h h' Hr. unfold conn_target. by rewrite Hr. Qed.

Section sockets.
Context `{PocketBase}.

Lemma sock_hang_up s c w :
  sock (hang_up c w) s = if bool_decide (s = c) then mkSock (inq (sock w s)) false else sock w s.
Proof.
  unfold sock, hang_up, mlookup. simpl. case_bool_decide as Hs.
  - subst. by rewrite lookup_insert_eq.
  - by rewrite lookup_insert_ne.
Qed.

(** One message to one socket: it was taken, or the socket is closed, before the
    write or by its failure.  Nothing else happened. *)
Record sent (c : nat) (m : obj) (w w' : World) : Prop := {
  se_reg : w_reg w' = w_reg w;
  se_db : w_db w' = w_db w;
  se_rand : w_rand w' = w_rand w;
  se_now : w_now w' = w_now w;
  se_routes : same_routes (w_hub w) (w_hub w');
  se_fails : connFails (w_hub w') = connFails (w_hub w) /\ connImmichFails (w_hub w') = connImmichFails (w_hub w);
  se_socks : forall s, s <> c -> sock w' s = sock w s;
  se_log : (w_log w' = w_log w ++ [WroteJson c m] /\ up (sock w c) = true /\ up (sock w' c) = true)
           \/ (w_log w' = w_log w /\ up (sock w' c) = false) }.

Lemma tot_sent has_hub c m w : returns (send has_hub (Some c) m) (fun _ w' => sent c m w w') w.
Proof.
  apply tot_send. cbv zeta.
  assert (same_routes (w_hub w) (if has_hub then writeMu (Some c) (w_hub w) else w_hub w)) as Hr by (by destruct has_hub).
  split; intros Hup; [split|]; destruct has_hub; constructor; cbn [w_reg w_db w_rand w_now w_log w_hub set_hub add_log hang_up set_socks];
    auto; try (intros s Hs; change (sock (hang_up c ?x) s) with (sock (hang_up c x) s); rewrite sock_hang_up, bool_decide_false; done);
    right; (split; [done|]; by rewrite ?sock_hang_up, ?bool_decide_true).
Qed.

Lemma tot_forward k s cid m c w :
  conn_target k (Some s) cid (w_hub w) = Some (Some c) ->
  returns (ForwardToBrowserByConnID k (Some s) cid m) (fun _ w' => sent c m w w') w.
Proof. intros Hb. unfold ForwardToBrowserByConnID. apply tot_bind, tot_hub_get. rewrite Hb. apply tot_sent. Qed.

(** [w'] is [w] with the sockets [cs] hung up, and more in the log. *)
Record hung (cs : list nat) (w w' : World) : Prop := {
  hung_db : w_db w' = w_db w;
  hung_reg : w_reg w' = w_reg w;
  hung_agents : agents (w_hub w') = agents (w_hub w);
  hung_codes : codes (w_hub w') = codes (w_hub w);
  hung_pairs : pairs (w_hub w') = pairs (w_hub w);
  hung_sock : forall s, sock w' s = if bool_decide (s ∈ cs) then mkSock (inq (sock w s)) false else sock w s;
  hung_log : forall s, s ∈ cs -> exists st re, Closed s st re ∈ w_log w';
  hung_past : w_log w `prefix_of` w_log w' }.

Lemma hung_nil w : hung [] w w.
Proof. constructor; try done. intros s Hs. by apply not_elem_of_nil in Hs. Qed.

Lemma hung_trans cs1 cs2 w1 w2 w3 : hung cs1 w1 w2 -> hung cs2 w2 w3 -> hung (cs1 ++ cs2) w1 w3.
Proof.
  intros [] []. constructor; try congruence.
  - intros s. rewrite hung_sock1, hung_sock0. repeat case_bool_decide; set_solver.
  - intros s [Hs|Hs]%elem_of_app; [|by apply hung_log1].
    destruct (hung_log0 s Hs) as (st&re&Hin). exists st, re.
    eapply elem_of_prefix; [exact Hin|exact hung_past1].
  - by etransitivity.
Qed.

(** Dropping a socket's write mutex and closing it. *)
Lemma tot_drop_close c st re w :
  returns (_ ← hub_do (drop_write (Some c)); ws_close (Some c) st re) (fun _ w' => hung [c] w w') w.
Proof.
  apply tot_bind, tot_hub_do, tot_close. constructor; simpl; try done.
  - intros s. change (sock (add_log ?e ?x) s) with (sock x s). rewrite sock_hang_up.
    repeat case_bool_decide; set_solver.
  - intros s ->%list_elem_of_singleton. exists st, re. set_solver.
  - by eexists.
Qed.

Lemma hung_each (bs : list wsconn) st re w :
  None ∉ bs ->
  returns (for_each bs (fun b => _ ← hub_do (drop_write b); ws_close b st re))
    (fun _ w' => exists cs, hung cs w w' /\ (forall s, s ∈ cs <-> Some s ∈ bs)) w.
Proof.
  revert w. induction bs as [|b bs IH]; intros w Hn; cbn [for_each].
  - apply tot_ret. exists []. split; [apply hung_nil|]. set_solver.
  - destruct b as [c|]; [|set_solver]. apply tot_bind. eapply returns_mono; [|apply tot_drop_close].
    intros [] w1 H1. simpl in H1. eapply returns_mono; [|apply IH; set_solver].
    intros [] w2 (cs&H2&Hcs). exists ([c] ++ cs). split; [by eapply hung_trans|]. set_solver.
Qed.

(** * Cutting off a key *)

(** The sockets that go with the agent of key [k]: its own, and the browsers
    paired under its codes. *)
Definition cut (k : string) (h : Hub) (s : nat) : Prop :=
  agents h !! k = Some (Some s) \/
  exists code p, codes h !! code = Some k /\ pairs h !! code = Some p /\ p_browserConn p = Some s.

Record evicted (k : string) (w w' : World) : Prop := {
  ev_agents : agents (w_hub w') = delete k (agents (w_hub w));
  ev_codes : forall code, codes (w_hub w') !! code
    = if bool_decide (codes (w_hub w) !! code = Some k) then None else codes (w_hub w) !! code;
  ev_pairs : forall code, pairs (w_hub w') !! code
    = if bool_decide (codes (w_hub w) !! code = Some k) then None else pairs (w_hub w) !! code;
  ev_cut : forall s, cut k (w_hub w) s -> up (sock w' s) = false /\ exists st re, Closed s st re ∈ w_log w';
  ev_kept : forall s, ~ cut k (w_hub w) s -> sock w' s = sock w s }.

Lemma tot_CloseAgent k w :
  returns (CloseAgent k) (fun _ w' => evicted k w w' /\ w_db w' = w_db w /\ w_reg w' = w_reg w) w.
Proof.
  unfold CloseAgent. apply tot_bind, tot_hub_act.
  destruct (CloseAgent_locked k (w_hub w)) as [[conn bs] h] eqn:Hc. cbn [fst snd].
  destruct (CloseAgent_spec _ _ _ _ _ Hc) as (->&Ha&Hco&Hp&Hbs&_&_).
  set (w1 := set_hub h w).
  assert (None ∉ bs) as Hn by (intros (code&p&_&_&_&Hno)%Hbs; done).
  apply tot_bind.
  eapply (returns_mono _ (fun _ w2 => hung (match agents (w_hub w) !! k with Some (Some s) => [s] | _ => [] end) w1 w2)).
  - intros [] w2 H2. eapply returns_mono; [|by apply (hung_each bs)]. intros [] w3 (cs&H3&Hcs).
    pose proof (hung_trans _ _ _ _ _ H2 H3) as [Hdb Hreg Hag Hcd Hpr Hsk Hlg _].
    assert (forall s, s ∈ (match agents (w_hub w) !! k with Some (Some s) => [s] | _ => [] end) ++ cs
              <-> cut k (w_hub w) s) as Hcut.
    { intros s. rewrite elem_of_app, Hcs, Hbs. unfold cut. split.
      - intros [Hs|(code&p&?&?&?&?)]; [left|right; eauto].
        destruct (agents (w_hub w) !! k) as [[s'|]|]; set_solver.
      - intros [->|(code&p&?&?&?)]; [left; set_solver|right; exists code, p; by split_and!]. }
    split_and!; [|done..]. constructor; rewrite ?Hag, ?Hcd, ?Hpr; simpl; try done.
    + intros s Hs%Hcut. split; [|by apply Hlg]. by rewrite Hsk, bool_decide_true.
    + intros s Hs. rewrite <- Hcut in Hs. by rewrite Hsk, bool_decide_false.
  - destruct (agents (w_hub w) !! k) as [[s|]|];
      [apply tot_drop_close|apply tot_ret, hung_nil..].
Qed.
End sockets.

(** * Revoking and rotating keys *)

Section keys.
Context `{PocketBaseLaws} `{TimeText} `{BcryptLaws}.

(** C15 (safety). Revoking a key cuts its owner off and nobody else.  When the
    answer is 200 the caller owned the key, its record is now inactive and the
    same otherwise (but for the time of the change, which the database sets), no
    other record changed, the hub has no agent and no codes or pairs of the key any more,
    its agent's socket and the browsers paired under its codes are closed, and
    the agents, codes, pairs and sockets of all other keys are as they were.
    Any other answer leaves the world unchanged. *)
Theorem revocation_disconnects u i w :
  returns (RevokeAPIKey (Some u) i) (fun '(Resp status _) w' =>
    if status =? 200
    then evicted i w w' /\ w_reg w' = w_reg w
      /\ exists r r', FindRecordById "api_keys" i (w_db w) = Ok r /\ GetString r "account_id" = r_id u
        /\ FindRecordById "api_keys" i (w_db w') = Ok r' /\ kept (rset "is_active" (VBool false) r) r'
        /\ forall c j, (c, j) <> ("api_keys"%string, i) ->
             FindRecordById c j (w_db w') = FindRecordById c j (w_db w)
    else w' = w) w.
Proof.
  unfold RevokeAPIKey. case_bool_decide as Hi; [by apply tot_ret|].
  apply tot_bind, tot_db_get. destruct (FindRecordById _ _ _) as [r|] eqn:Hf; [|by apply tot_ret].
  rewrite ownsAPIKey_eq. case_bool_decide as Ho; [|by apply tot_ret]. simpl.
  apply tot_bind, tot_db_act. destruct (Save _ _) as [[r'|e] d'] eqn:Hs; simpl.
  2: { apply tot_ret. apply save_err in Hs. subst d'. by destruct w. }
  destruct (find_id _ _ _ _ Hf) as (Hc&Hid&_).
  destruct (save_ok _ _ _ _ Hs) as (_&_&Hold&_&(s&Hl&Hk)&Hoth). cbn [rset r_id r_coll] in *.
  rewrite Hold, Hc, Hid in Hl, Hoth by congruence.
  apply tot_bind. eapply returns_mono; [|apply tot_CloseAgent]. intros [] w' (Hev&Hdb&Hreg). apply tot_ret. simpl in *.
  split_and!; [by destruct Hev|done|]. exists r, s. rewrite Hdb. auto.
Qed.

(** A rotation's transaction, when it commits. *)
Lemma rotate_tx_spec acct label i secret now d r key created d' old :
  FindRecordById "api_keys" i d = Ok old ->
  rotate_tx acct label i secret now d = (Ok (r, key, created), d') ->
  exists sec hash, secret = Some sec /\ key = (r_id r ++ "." ++ b64_encode sec)%string
    /\ bcrypt_generate key = Ok hash /\ r_id r <> i /\ key_in (r_id r) acct hash true d'
    /\ (exists old', FindRecordById "api_keys" i d' = Ok old' /\ kept (rset "is_active" (VBool false) old) old')
    /\ forall j s, FindRecordById "sessions" j d = Ok s ->
         FindRecordById "sessions" j d'
         = Ok (if bool_decide (GetString s "api_key_id" = i) then rset "api_key_id" (VStr (r_id r)) s else s).
Proof.
  intros Hold. unfold rotate_tx, RunInTransaction.
  destruct (createAPIKeyRecord acct label secret now d) as [[[[r1 key1] created1]|m] d1] eqn:Hc; [|done].
  destruct (create_spec _ _ _ _ _ _ _ _ _ Hc) as (sec&hash&Hs&Hk&Hb&Hin&Hsame&Hfresh&Hoth).
  destruct (MoveSessions _ _ d1) as [[[]|m] d2] eqn:Hm; [|done].
  destruct (move_ok _ _ _ _ Hm) as (Hmv&_&Hrest).
  assert (r_id r1 <> i) as Hne by (intros <-; by eapply Hfresh).
  rewrite Hrest, Hsame, Hold by done. destruct (find_id _ _ _ _ Hold) as (Hcoll&Hid&Hine).
  destruct (Save _ d2) as [[old'|m] d3] eqn:Hsv; [|done]. intros [= <- <- <- <-].
  destruct (save_ok _ _ _ _ Hsv) as (_&_&Heq&_&Hl&Ho3). cbn [rset r_id r_coll] in *.
  rewrite Heq, Hcoll, Hid in Hl, Ho3 by congruence.
  exists sec, hash. split_and!; try done.
  - destruct Hin as (rn&Hfn&Hrn). exists rn. split; [|done]. rewrite Ho3, Hrest by congruence. done.
  - intros j s Hj. rewrite Ho3 by done. apply Hmv. by rewrite Hoth.
Qed.

Lemma rotate_tx_err acct label i secret now d m d' : rotate_tx acct label i secret now d = (Err m, d') -> d' = d.
Proof. unfold rotate_tx, RunInTransaction. repeat case_match; congruence. Qed.

(** C20 (error). Rotating a key is all or nothing.  With 201 the caller owned
    the key and it was active; the new key in the answer authenticates as the
    caller's, every share of the old key now belongs to the new one and every
    other share is as it was, the old key is inactive and the same otherwise
    (but for the time of the change), and its agent is cut off.  With any other answer database, hub and sockets are unchanged. *)
Theorem rotation_atomic u i w :
  (32 <= length (w_rand w))%nat ->
  returns (RotateAPIKey (Some u) i) (fun resp w' =>
    (exists old r key created, FindRecordById "api_keys" i (w_db w) = Ok old
      /\ GetString old "account_id" = r_id u /\ GetBool old "is_active" = true
      /\ resp = created_resp r key (GetString old "label") created
      /\ returns (APIKeyAuth key) (fun res _ => res = Ok (r_id r, r_id u)) w'
      /\ (exists old', FindRecordById "api_keys" i (w_db w') = Ok old' /\ kept (rset "is_active" (VBool false) old) old')
      /\ (forall j s, FindRecordById "sessions" j (w_db w) = Ok s ->
           FindRecordById "sessions" j (w_db w')
           = Ok (if bool_decide (GetString s "api_key_id" = i) then rset "api_key_id" (VStr (r_id r)) s else s))
      /\ evicted i w w')
    \/ (exists st m, resp = err_resp st m /\ 400 <= st) /\ w_db w' = w_db w /\ w_hub w' = w_hub w /\ w_socks w' = w_socks w) w.
Proof.
  intros Hlen. unfold RotateAPIKey.
  assert (forall st m w', 400 <= st -> w_db w' = w_db w -> w_hub w' = w_hub w -> w_socks w' = w_socks w ->
    forall P, P \/ (exists st' m', err_resp st m = err_resp st' m' /\ 400 <= st')
                   /\ w_db w' = w_db w /\ w_hub w' = w_hub w /\ w_socks w' = w_socks w) as Hno
    by (intros; right; split; [by exists st, m|done]).
  case_bool_decide; [by apply tot_ret, Hno|].
  apply tot_bind, tot_db_get. destruct (FindRecordById _ _ _) as [old|] eqn:Hf; [|by apply tot_ret, Hno].
  rewrite ownsAPIKey_eq. case_bool_decide as Ho; [|by apply tot_ret, Hno]. cbn [negb].
  destruct (GetBool old "is_active") eqn:Ha; [|by apply tot_ret, Hno]. cbn [negb].
  apply tot_bind, tot_secret; [done|]. intros secret Hsec. apply tot_bind, tot_now. apply tot_bind, tot_db_act. cbn [w_db set_rand].
  destruct (rotate_tx _ _ _ _ _ _) as [[[[r key] created]|m] d'] eqn:Ht; cbn [fst snd].
  2: { apply tot_ret. apply rotate_tx_err in Ht. subst d'. by apply Hno. }
  destruct (rotate_tx_spec _ _ _ _ _ _ _ _ _ _ _ Hf Ht) as (sec&hash&Hs&Hk&Hb&Hne&Hin&Hi&Hmv).
  apply tot_bind. eapply returns_mono; [|apply tot_CloseAgent]. intros [] w' (Hev&Hdb&_). apply tot_ret. left.
  simpl in Hdb. exists old, r, key, created. rewrite Hdb. split_and!; try done; [|by destruct Hev].
  eapply returns_mono; [|eapply (auth_spec key _ _ (r_id u) hash true)].
  - intros res w3 [_ Hres]. simpl in Hres. rewrite (bcrypt_ok _ _ Hb) in Hres. by destruct Hres.
  - rewrite Hk. apply splitAPIKey_made. by eapply Hsec.
  - by rewrite Hdb.
Qed.
End keys.

(** * A key with an agent and a browser *)

Definition demo_key : gmap string value :=
  <["account_id"%string := VStr "alice"]> (<["is_active"%string := VBool true]> ∅).
Definition demo_live_world : World :=
  mkWorld (hub_run [HRegister "key" (Some 1%nat); HCode "code1234" "key"; HPair "code1234" "conn" "key" (Some 2%nat)] Hub.New)
    (NewRegistry (7 * Second))
    (mkMem (<[("api_keys", "key")%string := demo_key]> ∅) 0)
    (<[1%nat := mkSock [] true]> (<[2%nat := mkSock [] true]> ∅)) [] 5 (Z.of_nat <$> seq 0 32) [].

Lemma demo_cut : cut "key" (w_hub demo_live_world) 1 /\ cut "key" (w_hub demo_live_world) 2.
Proof. split; [by left|]. right. by exists "code1234"%string, (mkPair "key" (Some 1%nat) (Some 2%nat)). Qed.

Lemma revocation_disconnects_witness :
  (cut "key" (w_hub demo_live_world) 1 /\ cut "key" (w_hub demo_live_world) 2) /\
  returns (RevokeAPIKey (Some demo_user) "key") (fun '(Resp status _) w' =>
    if status =? 200
    then evicted "key" demo_live_world w' /\ w_reg w' = w_reg demo_live_world
      /\ exists r r', FindRecordById "api_keys" "key" (w_db demo_live_world) = Ok r /\ GetString r "account_id" = r_id demo_user
        /\ FindRecordById "api_keys" "key" (w_db w') = Ok r' /\ kept (rset "is_active" (VBool false) r) r'
        /\ forall c j, (c, j) <> ("api_keys"%string, "key"%string) ->
             FindRecordById c j (w_db w') = FindRecordById c j (w_db demo_live_world)
    else w' = demo_live_world) demo_live_world.
Proof. split; [exact demo_cut|]. exact (revocation_disconnects demo_user "key" demo_live_world). Defined.

Lemma rotation_atomic_witness :
  (32 <= length (w_rand demo_live_world))%nat /\
  returns (RotateAPIKey (Some demo_user) "key") (fun resp w' =>
    (exists old r key created, FindRecordById "api_keys" "key" (w_db demo_live_world) = Ok old
      /\ GetString old "account_id" = r_id demo_user /\ GetBool old "is_active" = true
      /\ resp = created_resp r key (GetString old "label") created
      /\ returns (APIKeyAuth key) (fun res _ => res = Ok (r_id r, r_id demo_user)) w'
      /\ (exists old', FindRecordById "api_keys" "key" (w_db w') = Ok old' /\ kept (rset "is_active" (VBool false) old) old')
      /\ (forall j s, FindRecordById "sessions" j (w_db demo_live_world) = Ok s ->
           FindRecordById "sessions" j (w_db w')
           = Ok (if bool_decide (GetString s "api_key_id" = "key"%string) then rset "api_key_id" (VStr (r_id r)) s else s))
      /\ evicted "key" demo_live_world w')
    \/ (exists st m, resp = err_resp st m /\ 400 <= st) /\ w_db w' = w_db demo_live_world
       /\ w_hub w' = w_hub demo_live_world /\ w_socks w' = w_socks demo_live_world) demo_live_world.
Proof.
  assert (32 <= length (w_rand demo_live_world))%nat as Hlen by (vm_compute; repeat constructor).
  exact (conj Hlen (rotation_atomic demo_user "key" demo_live_world Hlen)).
Defined.
