(* ===== verification/ClaimSpec.v ===== *)
(** Claiming a share code: whose shares a claim may touch, and what it leaves
    (claimSessionCode, handler/agent_ws.go). *)

From S2P Require Import Prelude Conc Json Tokens Hub Db Server AgentWS.
#[local] Open Scope Z_scope.

Section claim.
Context `{PocketBaseLaws}.

(** The index on [sessions.code]. *)
Definition unique_codes (d : db) : Prop :=
  forall i j s t, FindRecordById "sessions" i d = Ok s -> FindRecordById "sessions" j d = Ok t ->
    GetString s "code" = GetString t "code" -> i = j.

(** The share [i] belongs to the account [acct] through its API key. *)
Definition owned_by (acct i : string) (d : db) : Prop :=
  exists s k, FindRecordById "sessions" i d = Ok s
    /\ FindRecordById "api_keys" (GetString s "api_key_id") d = Ok k /\ GetString k "account_id" = acct.

(** What a claimed record says: the code, the claimer and every setting it
    sent; what it did not send is as in [base]. *)
Record claimed (code key agent : string) (exp : option Z) (only : option bool) (pub kind : string) (prot : bool)
    (base r : record) : Prop := {
  cl_code : GetString r "code" = code;
  cl_key : GetString r "api_key_id" = key;
  cl_agent : GetString r "agent_id" = agent;
  cl_exp : trunc_milli (GetDateTime r "expires_at") = trunc_milli (default (GetDateTime base "expires_at") exp);
  cl_only : GetBool r "relay_only" = default (GetBool base "relay_only") only;
  cl_pub : GetString r "relay_static_pub" = pub;
  cl_kind : GetString r "share_type" = kind;
  cl_prot : GetBool r "is_password_protected" = prot }.

(** Reading a field through the updates. *)
Ltac read_fields := unfold GetString, GetBool, GetDateTime, rset; cbn [r_fields]; rewrite ?lookup_insert_eq;
  repeat (rewrite lookup_insert_ne by discriminate; rewrite ?lookup_insert_eq); done.

#[global] Instance claimed_kept code key agent exp only pub kind prot base :
  Proper (kept ==> impl) (claimed code key agent exp only pub kind prot base).
Proof.
  intros r r' Hk []. constructor; rewrite ?(kp_string _ _ Hk), ?(kp_bool _ _ Hk), ?(kp_time _ _ Hk) by content; done.
Qed.

Lemma reclaim_claimed r key agent exp only pub kind prot :
  claimed (GetString r "code") key agent exp only pub kind prot r (reclaim r key agent exp only pub kind prot).
Proof. unfold reclaim. destruct exp, only; constructor; read_fields. Qed.

Lemma session_claimed code key agent exp only pub kind prot :
  claimed code key agent exp only pub kind prot (NewRecord "sessions")
    (session_record code key agent exp (default false only) pub kind prot).
Proof. unfold session_record. destruct exp, only; constructor; read_fields. Qed.

Lemma reclaim_same r key agent exp only pub kind prot :
  r_coll (reclaim r key agent exp only pub kind prot) = r_coll r
  /\ r_id (reclaim r key agent exp only pub kind prot) = r_id r.
Proof. unfold reclaim. by destruct exp, only. Qed.

(** A new share. *)
Lemma createSession_ok code key agent exp only pub kind prot d d' :
  createSession code key agent exp (default false only) pub kind prot d = (Ok tt, d') ->
  exists r, r_id r <> ""%string /\ FindRecordById "sessions" (r_id r) d' = Ok r
    /\ claimed code key agent exp only pub kind prot (NewRecord "sessions") r
    /\ (forall r0, FindRecordById "sessions" (r_id r) d <> Ok r0)
    /\ (forall j s, FindRecordById "sessions" j d = Ok s -> GetString s "code" <> code)
    /\ (forall c j, (c, j) <> ("sessions"%string, r_id r) -> FindRecordById c j d' = FindRecordById c j d).
Proof.
  unfold createSession. destruct (FindCollection _ _); [|done]. cbv zeta.
  pose proof (session_claimed code key agent exp only pub kind prot) as Hcl. revert Hcl.
  set (r0 := session_record _ _ _ _ _ _ _ _). intros Hcl.
  assert (r_coll r0 = "sessions"%string /\ r_id r0 = ""%string) as (Hc&Hi) by (unfold r0, session_record; by destruct exp).
  clearbody r0. destruct (Save r0 d) as [[r|e] d1] eqn:Hs; [|done]. intros [= ->].
  destruct (save_ok _ _ _ _ Hs) as (Hk0&Hn&_&Hfresh&(s&Hl&Hk)&Ho). rewrite Hc in *.
  destruct (find_id _ _ _ _ Hl) as (_&Hid&_). rewrite <- Hid in *.
  exists s. split_and!; [done|done|by rewrite <- Hk|by apply Hfresh| |done].
  intros j t Hj Hcode.
  assert (j = r_id r) as -> by (eapply save_unique; [exact Hs|done|exact Hj|by rewrite Hcode, (cl_code _ _ _ _ _ _ _ _ _ _ Hcl)]).
  rewrite <- Hid in Hj. by eapply Hfresh.
Qed.

Lemma owned_once a b i d : owned_by a i d -> owned_by b i d -> a = b.
Proof.
  intros (s&k&Hs&Hk&<-) (s'&k'&Hs'&Hk'&<-). rewrite Hs in Hs'. injection Hs' as <-. congruence.
Qed.

(** Saving a claimed record keeps codes unique, if nobody else had its code. *)
Lemma saved_claim code r sid d d' :
  unique_codes d -> FindRecordById "sessions" sid d' = Ok r -> GetString r "code" = code ->
  (forall c j, (c, j) <> ("sessions"%string, sid) -> FindRecordById c j d' = FindRecordById c j d) ->
  (forall j s, FindRecordById "sessions" j d = Ok s -> GetString s "code" = code -> j = sid) ->
  unique_codes d'.
Proof.
  intros Hu Hr Hcl Hoth Hcode i j s t Hs Ht Heq.
  destruct (decide (i = sid)) as [->|Hi], (decide (j = sid)) as [->|Hj]; [done|..];
    repeat match goal with
    | Hne : ?i <> sid, Hf : FindRecordById _ ?i d' = _ |- _ => rewrite Hoth in Hf by congruence; clear Hne
    end; rewrite ?Hr in *; simplify_eq.
  - symmetry. eapply Hcode; [exact Ht|]. by rewrite <- Heq.
  - eapply Hcode; [exact Hs|]. by rewrite Heq.
  - by eapply Hu.
Qed.

(** Rewriting a found share. *)
Lemma reclaim_saved s sid key agent exp only pub kind prot r d d' : FindRecordById "sessions" sid d = Ok s ->
  Save (reclaim s key agent exp only pub kind prot) d = (Ok r, d') ->
  r_id r = sid /\ exists t, FindRecordById "sessions" sid d' = Ok t /\ kept r t
    /\ claimed (GetString s "code") key agent exp only pub kind prot s t
    /\ forall c j, (c, j) <> ("sessions"%string, sid) -> FindRecordById c j d' = FindRecordById c j d.
Proof.
  intros Hs Hsave. destruct (find_id _ _ _ _ Hs) as (Hc&Hi&Hne).
  destruct (reclaim_same s key agent exp only pub kind prot) as [Hrc Hri].
  destruct (save_ok _ _ _ _ Hsave) as (Hkr&_&Hsame&_&(t&Hl&Hk)&Hoth). rewrite Hrc, Hri, Hc, Hi in *.
  assert (r_id r = sid) as Hid by (by apply Hsame). rewrite Hid in *.
  split; [done|]. exists t. split_and!; [done|by rewrite <- Hkr| |done].
  rewrite <- Hk. apply reclaim_claimed.
Qed.

(** The share with a code. *)
Lemma found_by_code code r rs d : unique_codes d -> FindRecordById "sessions" (r_id r) d = Ok r -> GetString r "code" = code ->
  FindRecords "sessions" [("code"%string, code)] 1 d = Ok rs -> head rs = Some r.
Proof.
  intros Hu Hl Hcode Hf. destruct rs as [|s rs].
  - apply (find_complete _ _ _ _ _ (r_id r) r) in Hf; [by apply not_elem_of_nil in Hf|simpl; lia|done|by repeat constructor].
  - apply find_spec, Forall_cons_1 in Hf as [[Hs Hq] _]. apply Forall_cons_1 in Hq as [Hq _]. simpl in *.
    assert (r_id s = r_id r) as Heq by (eapply Hu; [exact Hs|exact Hl|congruence]).
    rewrite Heq in Hs. congruence.
Qed.

(** C19 (functional). Claiming a code never takes another account's share and
    never leaves half a claim.  A failed claim leaves the database as it was.
    A claim that succeeds leaves one record with the code, the claimer's key
    and agent, and every setting it sent (its expiry, to the millisecond, its
    mode, its relay key, its kind and its protection).  That record is new when
    nobody had the code, and then has no expiry and no mode it did not ask for;
    otherwise it was the claimer's own account's, with no agent or the same
    one, and keeps the expiry and the mode the claim did not send.  Every other
    record is as it was.  So another account's share is untouched, and claiming
    its code fails. *)
Theorem claim_respects_owner code key acct agent exp only pub kind prot d :
  unique_codes d ->
  let '(res, d') := claimSessionCode code key acct agent exp only pub kind prot d in
  unique_codes d'
  /\ match res with
     | Err _ => d' = d
     | Ok (r, reclaimed) => exists s t, r = Some s /\ FindRecordById "sessions" (r_id s) d' = Ok t /\ kept s t
         /\ (forall c j, (c, j) <> ("sessions"%string, r_id s) -> FindRecordById c j d' = FindRecordById c j d)
         /\ (if reclaimed : bool
             then owned_by acct (r_id s) d /\ exists old, FindRecordById "sessions" (r_id s) d = Ok old
               /\ (GetString old "agent_id" = ""%string \/ GetString old "agent_id" = agent)
               /\ claimed code key agent exp only pub kind prot old t
             else (forall j t, FindRecordById "sessions" j d = Ok t -> GetString t "code" <> code)
               /\ claimed code key agent exp only pub kind prot (NewRecord "sessions") t)
     end
  /\ (forall other i t, owned_by other i d -> other <> acct -> FindRecordById "sessions" i d = Ok t ->
        FindRecordById "sessions" i d' = Ok t /\ (GetString t "code" = code -> is_ok res = false)).
Proof.
  intros Hu. unfold claimSessionCode, RunInTransaction.
  destruct (SelectOwner code d) as [[[[sid owner] ag]|]|e] eqn:Hsel; [| |by split_and!].
  - destruct (owner_some _ _ _ _ _ Hsel) as (s&k&Hs&Hcode&Hag&Hk&Howner).
    case_bool_decide as Ho; cbn [negb]; [subst owner|by split_and!].
    destruct (negb (bool_decide (ag = ""%string)) && negb (bool_decide (ag = agent))) eqn:Hagent; [by split_and!|].
    rewrite Hs. destruct (Save _ d) as [[r|e] d'] eqn:Hsave; [|by split_and!].
    destruct (reclaim_saved _ _ _ _ _ _ _ _ _ _ _ _ Hs Hsave) as (Hrs&t&Hl&Hkt&Hcl&Hoth). rewrite Hcode in Hcl.
    assert (owned_by acct sid d) as Hown by (by exists s, k).
    assert (unique_codes d') as Hu'.
    { eapply saved_claim; [exact Hu|exact Hl|exact (cl_code _ _ _ _ _ _ _ _ _ _ Hcl)|exact Hoth|].
      intros j x Hx Hxc. eapply Hu; [exact Hx|exact Hs|congruence]. }
    split_and!; [done| |].
    + exists r, t. rewrite Hrs. split_and!; [done..|]. exists s. split_and!; [done| |done].
      apply andb_false_iff in Hagent as [Hx|Hx]; apply negb_false_iff, bool_decide_eq_true in Hx; subst ag; auto.
    + intros other i x Hot Hdiff Hx.
      assert (i <> sid) as Hni by (intros ->; eapply owned_once in Hot; [|exact Hown]; congruence).
      split; [by rewrite Hoth by congruence|]. intros Hxc. destruct Hni. eapply Hu; [exact Hx|exact Hs|congruence].
  - destruct (createSession _ _ _ _ _ _ _ _ d) as [[[]|e] d'] eqn:Hcr; [|by split_and!].
    destruct (createSession_ok _ _ _ _ _ _ _ _ _ _ Hcr) as (r&Hne&Hl&Hcl&Hfresh&Hno&Hoth).
    pose proof (cl_code _ _ _ _ _ _ _ _ _ _ Hcl) as Hcode.
    assert (unique_codes d') as Hu'.
    { eapply saved_claim; [exact Hu|exact Hl|exact Hcode|exact Hoth|]. intros j x Hx Hxc. by destruct (Hno _ _ Hx). }
    unfold getSessionByCode. destruct (FindRecords _ _ _ d') as [rs|e] eqn:Hf; cbn [rmap]; [|by split_and!].
    rewrite (found_by_code _ _ _ _ Hu' Hl Hcode Hf).
    split_and!; [done|by exists r, r|].
    intros other i x Hot Hdiff Hx. split; [|by intros Hxc; destruct (Hno _ _ Hx)].
    rewrite Hoth; [done|]. intros [= ->]. by eapply Hfresh.
Qed.
End claim.

(** * A concrete database: Bob shares [holiday1]; Alice has a key of her own *)

Definition demo_share : gmap string value :=
  <["code"%string := VStr "holiday1"]> (<["api_key_id"%string := VStr "bobs"]> ∅).
Definition demo_shares : memdb :=
  mkMem (<[("sessions", "s1")%string := demo_share]>
        (<[("api_keys", "bobs")%string := <["account_id"%string := VStr "bob"]> ∅]>
        (<[("api_keys", "alices")%string := <["account_id"%string := VStr "alice"]> ∅]> ∅))) 7.

Lemma demo_shares_unique : unique_codes demo_shares.
Proof.
  assert (forall i s, mem_find "sessions" i demo_shares = Ok s -> i = "s1"%string) as Honly.
  { intros i s (Hl&_)%mem_find_ok. unfold demo_shares in Hl. cbn [m_tbl] in Hl.
    repeat (apply lookup_insert_Some in Hl as [[? _]|[_ Hl]]; [by simplify_eq|]). by rewrite lookup_empty in Hl. }
  intros i j s t Hs Ht _. by rewrite (Honly _ _ Hs), (Honly _ _ Ht).
Qed.

(** Alice may not take Bob's code, and may take a free one, with her settings. *)
Lemma claim_respects_owner_witness :
  is_ok (claimSessionCode "holiday1" "alices" "alice" "agent" None None "" "" false demo_shares).1 = false
  /\ let '(res, d') := claimSessionCode "holiday2" "alices" "alice" "agent" (Some (3 * Second)) (Some true) "" "" false demo_shares in
     unique_codes d' /\ (exists s t, res = Ok (Some s, false) /\ FindRecordById "sessions" (r_id s) d' = Ok t
       /\ claimed "holiday2" "alices" "agent" (Some (3 * Second)) (Some true) "" "" false (NewRecord "sessions") t)
     /\ (forall other i t, owned_by other i demo_shares -> other <> "alice"%string ->
           FindRecordById "sessions" i demo_shares = Ok t ->
           FindRecordById "sessions" i d' = Ok t /\ (GetString t "code" = "holiday2"%string -> is_ok res = false)).
Proof.
  split; [vm_compute; reflexivity|].
  pose proof (claim_respects_owner "holiday2" "alices" "alice" "agent" (Some (3 * Second)) (Some true) "" "" false demo_shares
                demo_shares_unique) as Hc.
  assert (rmap snd (claimSessionCode "holiday2" "alices" "alice" "agent" (Some (3 * Second)) (Some true) "" "" false demo_shares).1 = Ok false) as Hok
    by (vm_compute; reflexivity).
  destruct (claimSessionCode "holiday2" _ _ _ _ _ _ _ _ _) as [[[r reclaimed]|e] d']; [|discriminate Hok].
  destruct Hc as (Hu&(s&t&->&Hl&_&_&Hcl)&Hother). cbn in Hok. injection Hok as ->. destruct Hcl as [_ Hcl].
  exact (conj Hu (conj (ex_intro _ s (ex_intro _ t (conj eq_refl (conj Hl Hcl)))) Hother)).
Defined.
