(* ===== verification/AttemptsSpec.v ===== *)
(** The limit on password attempts: what a browser gets to see of failed
    attempts, and when it is cut off (agent_ws.go and hub.go). *)

From S2P Require Import Prelude Conc Json Tokens Registry Hub Db Server AgentWS ApiKeysSpec HandlerSpec.
#[local] Open Scope Z_scope.

(** The two counters of failures: the agent's own password check, and Immich's. *)
Inductive check := OwnPassword | ImmichPassword.

Definition msg_type (c : check) : string :=
  match c with OwnPassword => "auth_failed" | ImmichPassword => "auth_fail" end.
Definition max_attempts (c : check) : Z := match c with OwnPassword => 3 | ImmichPassword => 5 end.
Definition counter (c : check) (h : Hub) : gmap string Z :=
  match c with OwnPassword => connFails h | ImmichPassword => connImmichFails h end.
Definition count_failure (c : check) : string -> wsconn -> string -> Hub -> Z * Hub :=
  match c with OwnPassword => IncrementAuthFailure | ImmichPassword => IncrementImmichAuthFailure end.

Definition attempts_msg (c : check) (left : Z) : obj := typed (msg_type c) [("attempts_remaining"%string, JNum left)].
Definition too_many : string := "too many incorrect password attempts".

Lemma count_spec c k s cid h b :
  browserForAgentLocked k s cid h = Some b ->
  let n := mlookup 0 (counter c h) cid + 1 in
  (count_failure c k s cid h).1 = n /\ same_routes h (count_failure c k s cid h).2
  /\ mlookup 0 (counter c (count_failure c k s cid h).2) cid = n.
Proof.
  intros Hb. unfold count_failure, same_routes, mlookup.
  destruct c; unfold IncrementAuthFailure, IncrementImmichAuthFailure; rewrite Hb; simpl;
    rewrite lookup_insert_eq; split_and!; done.
Qed.

Section attempts.
Context `{PocketBase} `{JWT} `{TimeText}.
Context (ck : check) (k : string) (conn b : nat) (cid : string) (w0 : World).

(** The messages of the first [j] failures, the last one and the end. *)
Definition told (j : Z) : list effect :=
  (fun i => WroteJson b (attempts_msg ck (max_attempts ck - Z.of_nat i))) <$> seq 1 (Z.to_nat j).
Definition final : effect := WroteJson b (error_msg too_many).
Definition cut_off : effect := Closed b StatusNormalClosure too_many.
Definition cuts (n : Z) : list effect := replicate (Z.to_nat (n - max_attempts ck + 1)) cut_off.
(** Everything a browser is told of [n] failures when no write fails. *)
Definition full_log (n : Z) : list effect :=
  if n <? max_attempts ck then told n else told (max_attempts ck - 1) ++ [final] ++ cuts n.

Lemma told_next j : 0 <= j -> told (j + 1) = told j ++ [WroteJson b (attempts_msg ck (max_attempts ck - (j + 1)))].
Proof.
  intros Hj. unfold told. replace (Z.to_nat (j + 1)) with (S (Z.to_nat j)) by lia. rewrite seq_S, fmap_app. cbn.
  do 4 f_equal. unfold attempts_msg. do 4 f_equal. lia.
Qed.
Lemma cuts_next n : max_attempts ck <= n + 1 -> cuts (n + 1) = cuts n ++ [cut_off].
Proof.
  intros Hn. unfold cuts. replace (Z.to_nat (n + 1 - max_attempts ck + 1)) with (Z.to_nat (n - max_attempts ck + 1) + 1)%nat by lia.
  by rewrite replicate_add.
Qed.
Lemma cuts_none n : n < max_attempts ck -> cuts n = [].
Proof. intros Hn. unfold cuts. by replace (Z.to_nat (n - max_attempts ck + 1)) with 0%nat by lia. Qed.

(** What the log has after [n] failures: the first messages of the full log, as
    many as were taken before the socket closed, all of them while it is open,
    and a closing for each failure from the limit on. *)
Definition told_so_far (n : Z) (w : World) : Prop :=
  exists j (e : bool), 0 <= j <= n /\ j < max_attempts ck /\ (e = true -> j = max_attempts ck - 1 /\ max_attempts ck <= n)
    /\ (up (sock w b) = true -> j = n)
    /\ w_log w = w_log w0 ++ told j ++ (if e then [final] else []) ++ cuts n.

(** The state after [n] failures: the routes and the database as they were,
    the browser cut off once the limit is reached and never before. *)
Record after (n : Z) (w : World) : Prop := {
  af_routes : same_routes (w_hub w0) (w_hub w);
  af_db : w_db w = w_db w0;
  af_count : mlookup 0 (counter ck (w_hub w)) cid = n;
  af_log : told_so_far n w }.

(** Before the first failure. *)
Lemma after_none : counter ck (w_hub w0) !! cid = None -> after 0 w0.
Proof.
  intros Hc. constructor; [done|done|unfold mlookup; by rewrite Hc|]. exists 0, false. split_and!; [done|lia|by destruct ck|done|done|].
  rewrite cuts_none by (by destruct ck). by rewrite !app_nil_r.
Qed.

Hypothesis Hbrowser : conn_target k (Some conn) cid (w_hub w0) = Some (Some b).

Lemma count_after n w : same_routes (w_hub w0) (w_hub w) -> mlookup 0 (counter ck (w_hub w)) cid = n ->
  (count_failure ck k (Some conn) cid (w_hub w)).1 = n + 1
  /\ same_routes (w_hub w0) (count_failure ck k (Some conn) cid (w_hub w)).2
  /\ mlookup 0 (counter ck (count_failure ck k (Some conn) cid (w_hub w)).2) cid = n + 1.
Proof.
  intros Hr Hc. destruct (browserForAgentLocked k (Some conn) cid (w_hub w)) as [x|] eqn:Hx.
  - destruct (count_spec ck k (Some conn) cid (w_hub w) x Hx) as (Hn1&Hn2&Hn3). rewrite Hc in *.
    split_and!; [done|by rewrite Hr|done].
  - unfold conn_target in Hbrowser. rewrite Hr, Hx in Hbrowser. done.
Qed.

(** Counting a failure, then what follows. *)
Lemma tot_failure n msg (Q : unit -> World -> Prop) w : 0 <= n -> m_ConnID msg = cid -> after n w ->
  (forall w1, w_db w1 = w_db w0 -> same_routes (w_hub w0) (w_hub w1) -> mlookup 0 (counter ck (w_hub w1)) cid = n + 1 ->
     told_so_far n w1 ->
     if max_attempts ck <=? n + 1
     then returns (_ ← send true (Some b) (error_msg too_many); ws_close (Some b) StatusNormalClosure too_many) Q w1
     else returns (send true (Some b) (attempts_msg ck (max_attempts ck - (n + 1)))) (fun _ => Q tt) w1) ->
  returns (handleAuthFailure (count_failure ck) (max_attempts ck) (msg_type ck) k msg conn) Q w.
Proof.
  intros Hn Hcid [Hr Hd Hc Hl] Hgo. unfold handleAuthFailure. rewrite Hcid. apply tot_bind, tot_hub_act.
  destruct (count_after n w Hr Hc) as (->&Hr1&Hc1). set (w1 := set_hub _ w).
  specialize (Hgo w1 Hd Hr1 Hc1). specialize (Hgo Hl). rewrite (proj2 (Z.eqb_neq _ _)) by lia.
  assert (conn_target k (Some conn) cid (w_hub w1) = Some (Some b)) as Ht by (unfold w1; cbn [w_hub set_hub]; by rewrite <- Hr1).
  destruct (max_attempts ck <=? n + 1).
  - unfold CloseBrowserConnWithError. apply tot_bind, tot_hub_get. rewrite Ht. exact Hgo.
  - unfold ForwardToBrowserByConnID. apply tot_bind, tot_bind, tot_hub_get. rewrite Ht.
    eapply returns_mono; [|exact Hgo]. intros ok w2 HQ. by apply tot_ret.
Qed.

(** A message to the browser keeps the log in order. *)
Lemma counter_sent m w w' : sent b m w w' -> mlookup 0 (counter ck (w_hub w')) cid = mlookup 0 (counter ck (w_hub w)) cid.
Proof. intros [_ _ _ _ _ [Hf1 Hf2] _ _]. destruct ck; cbn; by rewrite ?Hf1, ?Hf2. Qed.

Lemma one_failure n msg w : 0 <= n -> m_ConnID msg = cid -> after n w ->
  returns (handleAuthFailure (count_failure ck) (max_attempts ck) (msg_type ck) k msg conn) (fun _ w' => after (n + 1) w') w.
Proof.
  intros Hn Hcid Ha. apply (tot_failure n); [done..|]. intros w1 Hd Hr Hc (j&e&Hj&Hm&He&Hup&Hl).
  destruct (Z.leb_spec (max_attempts ck) (n + 1)) as [Hmax|Hmax].
  - apply tot_bind. eapply returns_mono; [|apply tot_sent]. intros ok w2 Hs. apply tot_close.
    pose proof (counter_sent _ _ _ Hs) as Hcs. destruct Hs as [_ Hdb _ _ Hrs _ _ Hlog].
    constructor; cbn [w_hub w_db add_log hang_up set_socks]; [by etransitivity|congruence|congruence|].
    destruct Hlog as [(Hlog&Hopen&_)|[Hlog _]].
    + assert (j = n) as -> by auto. assert (n = max_attempts ck - 1) as Hn1 by lia.
      exists n, true. split_and!; [lia|lia|lia|done| |].
      * change (sock (add_log ?x ?y) b) with (sock y b). by rewrite sock_hang_up, bool_decide_true.
      * cbn [w_log add_log hang_up set_socks]. rewrite Hlog, Hl, cuts_next, (cuts_none n) by lia.
        destruct e; [destruct (He eq_refl); lia|]. by rewrite !app_nil_r, <- !app_assoc.
    + exists j, e. split_and!; [lia|lia|lia|intros Ht; destruct (He Ht); split; [done|lia]| |].
      * change (sock (add_log ?x ?y) b) with (sock y b). by rewrite sock_hang_up, bool_decide_true.
      * cbn [w_log add_log hang_up set_socks]. by rewrite Hlog, Hl, cuts_next, <- !app_assoc by done.
  - eapply returns_mono; [|apply tot_sent]. intros ok w2 Hs.
    pose proof (counter_sent _ _ _ Hs) as Hcs. destruct Hs as [_ Hdb _ _ Hrs _ _ Hlog].
    constructor; [by etransitivity|congruence|congruence|]. destruct e; [destruct (He eq_refl); lia|].
    rewrite (cuts_none n), !app_nil_r in Hl by lia. unfold told_so_far. rewrite (cuts_none (n + 1)) by lia.
    destruct Hlog as [(Hlog&Hopen&_)|[Hlog Hclosed]].
    + assert (j = n) as -> by auto. exists (n + 1), false. rewrite !app_nil_r. split_and!; [lia|lia|lia|done|done|].
      by rewrite Hlog, Hl, told_next, app_assoc by done.
    + exists j, false. rewrite !app_nil_r. split_and!; [lia|lia|lia|done|congruence|congruence].
Qed.

(** When no write fails. *)
Lemma one_failure_told n msg w : 0 <= n -> m_ConnID msg = cid -> same_routes (w_hub w0) (w_hub w) ->
  mlookup 0 (counter ck (w_hub w)) cid = n -> n < max_attempts ck -> up (sock w b) = true -> w_log w = w_log w0 ++ full_log n ->
  may (handleAuthFailure (count_failure ck) (max_attempts ck) (msg_type ck) k msg conn) (fun _ w' =>
    same_routes (w_hub w0) (w_hub w') /\ mlookup 0 (counter ck (w_hub w')) cid = n + 1
    /\ up (sock w' b) = (n + 1 <? max_attempts ck) /\ w_log w' = w_log w0 ++ full_log (n + 1)) w.
Proof.
  intros Hn Hcid Hr Hc Hlt Hup Hl. unfold handleAuthFailure. rewrite Hcid. apply can_bind, can_atomic.
  pose proof (count_after n w Hr Hc) as Hcount. destruct (count_failure ck k (Some conn) cid (w_hub w)) as [c h].
  cbn [fst snd] in *. destruct Hcount as (->&Hr1&Hc1). rewrite (proj2 (Z.eqb_neq _ _)) by lia.
  assert (conn_target k (Some conn) cid h = Some (Some b)) as Ht by (by rewrite <- Hr1).
  assert (same_routes (w_hub w0) (writeMu (Some b) h) /\ mlookup 0 (counter ck (writeMu (Some b) h)) cid = n + 1) as [Hr2 Hc2]
    by (split; [done|by destruct ck]).
  unfold full_log in *. rewrite (proj2 (Z.ltb_lt n _) Hlt) in Hl. destruct (Z.leb_spec (max_attempts ck) (n + 1)) as [Hmax|Hmax].
  - rewrite (proj2 (Z.ltb_ge (n + 1) _) Hmax). unfold CloseBrowserConnWithError. apply can_bind, can_reads. cbn [w_hub set_hub].
    rewrite Ht. apply can_bind, can_send; [done|]. apply can_modifies. split_and!; [done|done| |].
    + change (sock (add_log ?x ?y) b) with (sock y b). by rewrite sock_hang_up, bool_decide_true.
    + cbn [w_log add_log hang_up set_socks set_hub]. rewrite Hl. replace n with (max_attempts ck - 1) by lia.
      rewrite cuts_next, cuts_none by lia. by rewrite <- !app_assoc.
  - rewrite (proj2 (Z.ltb_lt (n + 1) _) Hmax). unfold ForwardToBrowserByConnID. apply can_bind, can_bind, can_reads. cbn [w_hub set_hub].
    rewrite Ht. apply can_send; [done|]. apply can_ret. split_and!; [done|done|done|].
    cbn [w_log add_log set_hub]. by rewrite Hl, told_next, app_assoc.
Qed.

Lemma dispatch_failure cfg has_reg acct agentID msg :
  agentID <> ""%string -> m_Type msg = msg_type ck ->
  agent_dispatch cfg has_reg k acct agentID msg conn
  = (_ ← handleAuthFailure (count_failure ck) (max_attempts ck) (msg_type ck) k msg conn; mret agentID).
Proof. intros Ha Ht. unfold agent_dispatch. rewrite Ht, (bool_decide_false (agentID = _)) by done. by destruct ck. Qed.
End attempts.

Section limit.
Context `{PocketBase} `{JWT} `{TimeText}.

(** C30 (bounds). A browser has three attempts at an agent's password (five at
    Immich's), no more and no fewer.  For any number of failure messages from
    the enrolled agent that owns the browser's connection, starting from a clean
    count: the count is their number; the browser is told, in this order and
    each once, that it has the limit minus one attempts left, and so on down to
    one, then the final error; its socket is closed from the failure that
    reaches the limit on, and not by any before.  A message is missing only when
    the socket is closed, and up to the limit there is a run in which the
    browser gets them all.  Nothing else of the hub's routing or the database
    changes. *)
Theorem password_attempts_limited ck cfg has_reg k acct agentID conn cid b msgs (w : World) :
  agentID <> ""%string ->
  conn_target k (Some conn) cid (w_hub w) = Some (Some b) ->
  counter ck (w_hub w) !! cid = None ->
  Forall (fun m => m_Type m = msg_type ck /\ m_ConnID m = cid) msgs ->
  returns (for_each msgs (fun m => _ ← agent_dispatch cfg has_reg k acct agentID m conn; mret tt))
    (fun _ w' => after ck b cid w (len msgs) w') w
  /\ (up (sock w b) = true -> len msgs <= max_attempts ck ->
      may (for_each msgs (fun m => _ ← agent_dispatch cfg has_reg k acct agentID m conn; mret tt))
        (fun _ w' => w_log w' = w_log w ++ full_log ck b (len msgs) /\ up (sock w' b) = (len msgs <? max_attempts ck)) w).
Proof.
  intros Hag Hb Hc Hms. assert (mlookup 0 (counter ck (w_hub w)) cid = 0) as Hc0 by (unfold mlookup; by rewrite Hc).
  split.
  - assert (forall n w1, 0 <= n -> after ck b cid w n w1 ->
      returns (for_each msgs (fun m => _ ← agent_dispatch cfg has_reg k acct agentID m conn; mret tt))
        (fun _ w' => after ck b cid w (n + len msgs) w') w1) as Hgo.
    { induction Hms as [|m msgs [Ht Hid] Hms IH]; intros n w1 Hn Hw1; cbn [for_each].
      - apply tot_ret. by rewrite len_nil, Z.add_0_r.
      - rewrite (dispatch_failure ck k conn) by done. apply tot_bind, tot_bind, tot_bind.
        eapply returns_mono; [|by eapply one_failure]. intros [] w2 Hw2. do 2 apply tot_ret.
        rewrite len_cons, Z.add_assoc. apply IH; [lia|done]. }
    apply (Hgo 0); [lia|by apply after_none].
  - assert (forall n w1, 0 <= n -> same_routes (w_hub w) (w_hub w1) -> mlookup 0 (counter ck (w_hub w1)) cid = n ->
      up (sock w1 b) = (n <? max_attempts ck) -> w_log w1 = w_log w ++ full_log ck b n -> n + len msgs <= max_attempts ck ->
      may (for_each msgs (fun m => _ ← agent_dispatch cfg has_reg k acct agentID m conn; mret tt))
        (fun _ w' => w_log w' = w_log w ++ full_log ck b (n + len msgs) /\ up (sock w' b) = (n + len msgs <? max_attempts ck)) w1) as Hgo.
    { induction Hms as [|m msgs [Ht Hid] Hms IH]; intros n w1 Hn Hr1 Hc1 Hup Hl Hle; cbn [for_each].
      - apply can_ret. by rewrite len_nil, Z.add_0_r.
      - rewrite len_cons in *. pose proof (len_nonneg msgs). assert (n < max_attempts ck) as Hlt by lia.
        rewrite (dispatch_failure ck k conn) by done. apply can_bind, can_bind, can_bind.
        eapply may_mono; [|apply (one_failure_told ck k conn b cid w Hb n m w1); try done; rewrite Hup; by apply Z.ltb_lt].
        intros [] w2 (Hr2&Hc2&Hup2&Hl2). do 2 apply can_ret. rewrite Z.add_assoc. apply IH; [lia|done..|lia]. }
    intros Hup Hle. apply (Hgo 0); [lia|done|done| | |lia].
    + rewrite Hup. by destruct ck.
    + unfold full_log. rewrite (proj2 (Z.ltb_lt 0 _)) by (by destruct ck). by rewrite app_nil_r.
Qed.
End limit.

(** * Three wrong passwords *)

Definition demo_routes : Hub :=
  hub_run [HRegister "key" (Some 1%nat); HCode "code1234" "key"; HPair "code1234" "conn" "key" (Some 2%nat)] Hub.New.
Definition demo_failure_world : World :=
  mkWorld demo_routes (NewRegistry (7 * Second)) (mkMem ∅ 0)
    (<[1%nat := mkSock [] true]> (<[2%nat := mkSock [] true]> ∅)) [] 5 [] [].
Definition demo_failure : agentMsg :=
  mkAgentMsg "auth_failed" "" "" "" None "" "" JNull "conn" "" "" false None "" "" false.

Lemma password_attempts_limited_witness :
  let cfg := mkServerConfig "stun" "secret" in
  let prog := for_each [demo_failure; demo_failure; demo_failure] (fun m =>
      _ ← agent_dispatch cfg true "key" "alice" "agent" m 1; mret tt) in
  returns prog (fun _ w' => after OwnPassword 2 "conn" demo_failure_world 3 w') demo_failure_world
  /\ may prog (fun _ w' => w_log w' = [WroteJson 2 (attempts_msg OwnPassword 2); WroteJson 2 (attempts_msg OwnPassword 1);
        WroteJson 2 (error_msg too_many); Closed 2 StatusNormalClosure too_many] /\ up (sock w' 2) = false) demo_failure_world.
Proof.
  intros cfg prog.
  destruct (password_attempts_limited OwnPassword (mkServerConfig "stun" "secret") true "key" "alice" "agent" 1 "conn" 2
           [demo_failure; demo_failure; demo_failure] demo_failure_world) as [Hall Hone].
  - discriminate.
  - vm_compute. reflexivity.
  - vm_compute. reflexivity.
  - repeat constructor.
  - split; [exact Hall|]. apply Hone; [reflexivity|vm_compute; discriminate].
Defined.
