(* ===== verification/RelayGrant.v ===== *)
(** Granting a browser the relay: when an agent reports a good password, what
    the server hands out, to whom, and that it can be used (handler/agent_ws.go,
    relay/tokens.go and relay/registry.go together). *)

From S2P Require Import Prelude Float64 Conc Json Tokens Registry Hub Db Server Accounting AgentWS ApiKeysSpec HandlerSpec AttemptsSpec.
#[local] Open Scope Z_scope.

(** * A fresh pending session can be joined by both sides, in either order *)

Lemma fresh_entry p r : reg_inv r ->
  sessions (CreatePendingSession p r) !! SID p
  = Some (mkEntry p None None false 0 (nextCh r) (nextCh r + 1) (nextCh r + 2)).
Proof. intros _. unfold CreatePendingSession, put_entry. simpl. apply lookup_insert_eq. Qed.

(** One side's bind succeeds when the session is there, not expired, the agent
    is the right one and the token is unspent. *)
Definition may_bind (b : bool) (cred : string) (e : sessionEntry) (r : Registry) : Prop :=
  if b then spentJTI r !! cred = None else AgentID (session e) = cred.

Lemma bind_succeeds b sid cred conn now e r :
  reg_inv r -> sessions r !! sid = Some e -> now <= ExpiresAt (session e) -> may_bind b cred e r ->
  exists r', bind b sid cred conn now r
    = (Ok (match other b e with Some s => (Some s, StateActive) | None => (None, waiting b) end), r')
    /\ reg_inv r' /\ sessions r' !! sid = Some (if other b e is Some _ then with_active (mine b conn e) else mine b conn e)
    /\ spentJTI r' = (if b then <[cred := now]> (spentJTI r) else spentJTI r).
Proof.
  intros Hi Hs Hnow Hm.
  assert (forall r0, reg_inv r0 -> sessions r0 !! sid = Some e ->
    exists r', bind_core b sid conn e r0
      = (Ok (match other b e with Some s => (Some s, StateActive) | None => (None, waiting b) end), r')
      /\ reg_inv r' /\ sessions r' !! sid = Some (if other b e is Some _ then with_active (mine b conn e) else mine b conn e)
      /\ spentJTI r' = spentJTI r0) as Hcore.
  { intros r0 Hi0 Hs0. destruct (bind_core b sid conn e r0) as [res r'] eqn:Hb.
    destruct (bind_core_spec b sid conn e r0 res r' Hi0 Hs0 Hb) as (Hi'&Hp&Hse&Hsp&_).
    exists r'. unfold bind_post in Hp. rewrite Hse, lookup_insert_eq.
    destruct (other b e); destruct Hp as [-> _]; by split_and!. }
  assert (After now (ExpiresAt (session e)) = false) as Ha by (apply Z.ltb_ge; lia).
  destruct b; unfold bind, may_bind in *.
  - unfold BindBrowserSocket. rewrite bool_decide_false by (rewrite Hm; by intros [? ?]). rewrite Hs, Ha.
    destruct (Hcore (set_spent (<[cred := now]> (spentJTI r)) r)) as (r'&Hr&?&?&?); [by apply set_spent_inv|done|].
    exists r'. split; [exact Hr|]. by split_and!.
  - unfold BindAgentSocket. rewrite Hs, Ha, Hm, (bool_decide_true (cred = cred)), andb_false_r by done.
    destruct (Hcore r) as (r'&Hr&?&?&?); [done..|]. exists r'. split; [exact Hr|]. by split_and!.
Qed.

(** Both sides, [b] first. *)
Lemma fresh_pairs p r b c1 c2 t1 t2 :
  reg_inv r -> spentJTI r !! JTI p = None -> t1 <= ExpiresAt p -> t2 <= ExpiresAt p ->
  let cred (b : bool) := if b then JTI p else AgentID p in
  exists r1 r2, bind b (SID p) (cred b) c1 t1 (CreatePendingSession p r) = (Ok (None, waiting b), r1)
    /\ bind (negb b) (SID p) (cred (negb b)) c2 t2 r1 = (Ok (Some c1, StateActive), r2).
Proof.
  intros Hi Hsp H1 H2 cred. pose proof (CreatePending_inv p r Hi) as Hi1.
  pose proof (fresh_entry p r Hi) as He. set (e := mkEntry p _ _ _ _ _ _ _) in He.
  destruct (bind_succeeds b (SID p) (cred b) c1 t1 e _ Hi1 He) as (r1&Hb1&Hi2&He1&Hsp1); [done|by destruct b|].
  assert (other b e = None) as Ho by by destruct b. rewrite Ho in *.
  destruct (bind_succeeds (negb b) (SID p) (cred (negb b)) c2 t2 (mine b c1 e) r1 Hi2 He1) as (r2&Hb2&_); [by destruct b| |].
  - destruct b; simpl; [done|]. by rewrite Hsp1.
  - exists r1, r2. split; [done|]. rewrite Hb2. by destruct b.
Qed.

Section grant.
Context `{PocketBaseLaws} `{JWTLaws} `{TimeText}.

(** The messages of a grant. *)
Definition prepare_msg (p : PendingSession) (agentJWT : string) : obj :=
  typed "relay_prepare"
    [("sid"%string, JStr (SID p)); ("code"%string, JStr (SessionCode p));
     ("expires_at"%string, JStr (format_time (ExpiresAt p))); ("relay_jwt"%string, JStr agentJWT)].
Definition policy_msg (token : string) (allowed only : bool) : obj :=
  typed "relay_policy"
    [("token"%string, JStr token); ("relay_allowed"%string, JBool allowed); ("relay_only"%string, JBool only)].

(** What a reported password is worth: nothing, when the agent does not own the
    browser or the browser is not at this share, the share is gone or another
    key's, or the account cannot be read; a refusal, when the relay is not set
    up or the account is over its quota; else the relay. *)
Inductive verdict := Ignored | Refused (b : nat) (only : bool) | Granted (b : nat) (pub : string) (only : bool).
Definition relay_set_up (cfg : ServerConfig) (has_reg : bool) (pub : string) : bool :=
  has_reg && negb (bool_decide (RelayJWTSecret cfg = ""%string)) && negb (bool_decide (pub = ""%string)).
Definition verdict_of (cfg : ServerConfig) (has_reg : bool) (key acct : string) (msg : agentMsg) (conn : nat) (w : World) : verdict :=
  match browserForAgentLocked key (Some conn) (m_ConnID msg) (w_hub w), getSessionByCode (m_Code msg) (w_db w) with
  | Some (Some b, code), Ok (Some s) =>
      let pub := GetString s "relay_static_pub" in
      let only := GetBool s "relay_only" in
      if bool_decide (code = m_Code msg) && bool_decide (GetString s "api_key_id" = key) then
        if relay_set_up cfg has_reg pub then
          match FindRecordById "users" acct (w_db w) with
          | Ok u => if (checkRelayQuota u).1 then Refused b only else Granted b pub only
          | Err _ => Ignored
          end
        else Refused b only
      else Ignored
  | _, _ => Ignored
  end.

(** The pending session [p] was made, and nothing else. *)
Record session_made (acct agentID code pub : string) (only : bool) (p : PendingSession) (w w1 : World) : Prop := {
  sm_session : p = mkPending (SID p) acct code agentID true only pub (JTI p) (w_now w + TokenLifetime);
  sm_reg : w_reg w1 = CreatePendingSession p (w_reg w);
  sm_same : w_hub w1 = w_hub w /\ w_db w1 = w_db w /\ w_socks w1 = w_socks w /\ w_log w1 = w_log w }.

(** The tokens of [p] work: while they live they verify, for this session, and
    two sockets that show them are paired, whoever comes first. *)
Record tokens_work (secret agentID : string) (p : PendingSession) (browserJWT agentJWT : string) (w : World) (r : Registry) : Prop := {
  tw_verify : forall t, w_now w <= t -> t < trunc_second (w_now w + TokenLifetime) ->
    (exists c, VerifyBrowserPolicyJWT secret browserJWT t = Ok c
       /\ b_SID c = SID p /\ ID (b_Registered c) = JTI p /\ b_SessionCode c = SessionCode p
       /\ b_RelayOnly c = RelayOnly p /\ b_ExpectedStaticPub c = ExpectedStaticPub p)
    /\ exists c, VerifyAgentRelayJWT secret agentJWT t = Ok c /\ a_SID c = SID p /\ a_AgentID c = agentID;
  tw_pair : reg_inv (w_reg w) -> spentJTI (w_reg w) !! JTI p = None ->
    forall b c1 c2 t1 t2, t1 < trunc_second (w_now w + TokenLifetime) -> t2 < trunc_second (w_now w + TokenLifetime) ->
      let cred (b : bool) := if b then JTI p else agentID in
      exists r1 r2, bind b (SID p) (cred b) c1 t1 r = (Ok (None, waiting b), r1)
        /\ bind (negb b) (SID p) (cred (negb b)) c2 t2 r1 = (Ok (Some c1, StateActive), r2) }.

(** What the verdict leads to. *)
Definition carried_out (cfg : ServerConfig) (v : verdict) (acct agentID code : string) (conn : nat) (w w' : World) : Prop :=
  match v with
  | Ignored => w' = w
  | Refused b only => sent b (policy_msg "" false only) w w'
  | Granted b pub only => exists p browserJWT agentJWT w1 w2,
      session_made acct agentID code pub only p w w1
      /\ sent conn (prepare_msg p agentJWT) w1 w2 /\ sent b (policy_msg browserJWT true only) w2 w'
      /\ tokens_work (RelayJWTSecret cfg) agentID p browserJWT agentJWT w (w_reg w')
  end.

Lemma jwt_signs secret o e : jwt_sign secret o <> Err e.
Proof. intros He. pose proof (jwt_sign_ok secret o) as Hok. by rewrite He in Hok. Qed.

(** [rand_read 16], twice, and the clock: the pending session and its tokens. *)
Lemma tot_prepare cfg acct agentID code pub only conn w :
  (32 <= length (w_rand w))%nat ->
  returns (prepare_relay cfg acct agentID code pub only conn) (fun res w2 =>
    exists p browserJWT agentJWT w1, res = Some browserJWT /\ session_made acct agentID code pub only p w w1
      /\ sent conn (prepare_msg p agentJWT) w1 w2 /\ tokens_work (RelayJWTSecret cfg) agentID p browserJWT agentJWT w (w_reg w1)) w.
Proof.
  intros Hlen. unfold prepare_relay.
  apply tot_bind, tot_rand_read; [lia|]. apply tot_bind, tot_now. apply tot_bind, tot_rand_read; [simpl; rewrite length_drop; lia|].
  set (sid := NewSID _). set (jti := NewJTI _). set (bc := mkBrowserClaims _ _ _ _ _ _ _). set (ac := mkAgentClaims _ _ _ _).
  cbn [w_now set_rand]. set (w0 := set_rand _ (set_rand _ w)).
  destruct (SignBrowserPolicyJWT _ bc _) as [bj|] eqn:Hb; [|by destruct (jwt_signs _ _ _ Hb)].
  destruct (SignAgentRelayJWT _ ac _) as [aj|] eqn:Ha; [|by destruct (jwt_signs _ _ _ Ha)].
  apply tot_bind, tot_reg_do. apply tot_bind.
  eapply returns_mono; [|apply (tot_sent false)]. intros ok w2 Hs. apply tot_ret.
  exists (mkPending sid acct code agentID true only pub jti (w_now w + TokenLifetime)), bj, aj. eexists.
  split; [done|]. split; [|split; [exact Hs|]]; [by constructor|]. constructor.
  - intros t _ Ht. apply Z.ltb_lt in Ht. split; eexists.
    + rewrite (verify_browser_signed _ _ _ _ t Hb), Ht. by split_and!.
    + rewrite (verify_agent_signed _ _ _ _ t Ha), Ht. by split_and!.
  - intros Hi Hj bb c1 c2 t1 t2 Ht1 Ht2. pose proof (trunc_second_spec (w_now w + TokenLifetime)).
    apply (fresh_pairs (mkPending sid acct code agentID true only pub jti (w_now w + TokenLifetime))); [done|done|cbn; lia|cbn; lia].
Qed.

Lemma browser_some k s cid h b code : browserForAgentLocked k s cid h = Some (b, code) ->
  exists c, b = Some c /\ conn_target k s cid h = Some (Some c).
Proof.
  intros Hb. unfold conn_target. rewrite Hb. revert Hb. unfold browserForAgentLocked. repeat case_match; naive_solver.
Qed.

Lemma configured cfg has_reg acct pub w (Q : option bool -> World -> Prop) :
  match (if relay_set_up cfg has_reg pub then
           match FindRecordById "users" acct (w_db w) with Ok u => Some (negb (checkRelayQuota u).1) | Err _ => None end
         else Some false) with r => Q r w end ->
  returns (relay_allowed cfg has_reg acct pub) Q w.
Proof.
  unfold relay_allowed, relay_set_up. destruct (_ && _ && _); [|apply tot_ret]. intros HQ. apply tot_bind, tot_db_get.
  by destruct (FindRecordById _ _ _); apply tot_ret.
Qed.

(** C31 (functional). A reported password gives the browser the relay exactly
    when it may have it, and then the relay works.  When the browser belongs to
    the reporting agent and is at the share, and the share is the agent's key's,
    it is told one thing: with a relay that is set up and an account within its
    quota, that the relay is allowed, with a token; else, that it is not.  In
    the first case one pending session is made, and the agent is sent its token
    before; both tokens verify for this session for their whole lifetime, and
    two sockets that show them are paired with each other, whichever comes
    first.  Each message is sent once, to that one socket, and is missing only
    if the socket is closed.  In every other case nothing happens at all. *)
Theorem relay_grant_works cfg has_reg key acct agentID msg conn w :
  (32 <= length (w_rand w))%nat ->
  returns (handleAuthOK cfg has_reg key acct agentID msg conn)
    (fun _ w' => carried_out cfg (verdict_of cfg has_reg key acct msg conn w) acct agentID (m_Code msg) conn w w') w.
Proof.
  intros Hlen. unfold handleAuthOK, verdict_of. apply tot_bind, tot_hub_get. unfold BrowserSessionForAgent.
  destruct (browserForAgentLocked _ _ _ _) as [[b code]|] eqn:Hb; [|by apply tot_ret].
  destruct (browser_some _ _ _ _ _ _ Hb) as (c&->&Ht). cbn [negb orb].
  case_bool_decide as Hcode; cbn [negb andb].
  2: { apply tot_ret. by destruct (getSessionByCode _ _) as [[s|]|]. }
  apply tot_bind, tot_db_get. destruct (getSessionByCode _ _) as [[s|]|] eqn:Hs; [|by apply tot_ret..].
  case_bool_decide as Hkey; cbn [negb]; [|by apply tot_ret].
  apply tot_bind, configured. destruct (relay_set_up _ _ _); [destruct (FindRecordById _ _ _) as [u|]; [destruct (checkRelayQuota u).1|]|]; cbn [negb carried_out].
  - apply tot_bind, tot_ret, tot_bind. eapply returns_mono; [|by apply tot_forward]. intros ok w' Hs'. by apply tot_ret.
  - apply tot_bind. eapply returns_mono; [|by apply tot_prepare]. intros res w2 (p&bj&aj&w1&->&Hm&Hs1&Htw).
    apply tot_bind. assert (conn_target key (Some conn) (m_ConnID msg) (w_hub w2) = Some (Some c)) as Ht2.
    { rewrite <- (se_routes _ _ _ _ Hs1). by destruct (sm_same _ _ _ _ _ _ _ _ Hm) as (->&_). }
    eapply returns_mono; [|by apply tot_forward]. intros ok w' Hs2. apply tot_ret.
    exists p, bj, aj, w1, w2. split_and!; [done..|]. by rewrite (se_reg _ _ _ _ Hs2), (se_reg _ _ _ _ Hs1).
  - by apply tot_ret.
  - apply tot_bind, tot_ret, tot_bind. eapply returns_mono; [|by apply tot_forward]. intros ok w' Hs'. by apply tot_ret.
Qed.
End grant.

(** * An account within its quota *)

Definition demo_account : gmap string value :=
  <["relay_quota_gb"%string := VFloat (f64_of_Z 10)]> (<["current_period_usage_gb"%string := VFloat (f64_of_Z 3)]> ∅).
Definition demo_relay_share : gmap string value :=
  <["code"%string := VStr "code1234"]> (<["api_key_id"%string := VStr "key"]>
  (<["relay_static_pub"%string := VStr "pub"]> ∅)).
Definition demo_grant_world : World :=
  mkWorld demo_routes (NewRegistry (7 * Second))
    (mkMem (<[("users", "alice")%string := demo_account]> (<[("sessions", "s1")%string := demo_relay_share]> ∅)) 0)
    (<[1%nat := mkSock [] true]> (<[2%nat := mkSock [] true]> ∅)) [] 5 (Z.of_nat <$> seq 0 32) [].
Definition demo_ok : agentMsg :=
  mkAgentMsg "auth_ok" "" "code1234" "" None "" "" JNull "conn" "" "" false None "" "" false.

Lemma demo_grant_draws : (32 <= length (w_rand demo_grant_world))%nat.
Proof. vm_compute. repeat constructor. Qed.

(** The handler makes a session for this browser. *)
Lemma relay_grant_works_witness :
  let handler := handleAuthOK (mkServerConfig "stun" "secret") true "key" "alice" "agent" demo_ok 1 in
  exists w', run_alone 80 handler demo_grant_world = Some (tt, w') /\ size (sessions (w_reg w')) = 1%nat
    /\ carried_out (mkServerConfig "stun" "secret") (Granted 2 "pub" false) "alice" "agent" "code1234" 1 demo_grant_world w'.
Proof.
  intros handler.
  assert ((if run_alone 80 handler demo_grant_world is Some (_, w') then (size (sessions (w_reg w')) =? 1)%nat else false) = true)
    as Hsize by (vm_compute; reflexivity).
  destruct (run_alone 80 handler demo_grant_world) as [[[] w']|] eqn:Hrun; [|discriminate Hsize].
  exists w'. split; [reflexivity|]. split; [by apply Nat.eqb_eq|].
  refine (run_alone_returns 80 handler (fun _ w' => carried_out (mkServerConfig "stun" "secret") (Granted 2 "pub" false) "alice" "agent" "code1234" 1 demo_grant_world w') _ _ _ _ Hrun).
  exact (relay_grant_works (mkServerConfig "stun" "secret") true "key" "alice" "agent" demo_ok 1 demo_grant_world demo_grant_draws).
Defined.
