(* ===== verification/BrowserGate.v ===== *)
(** The password gate of the browsers' endpoint: what the handler of a
    password-protected Immich share does, whatever happens around it
    (handler/browser_ws.go). *)

From S2P Require Import Prelude Conc Json Registry Hub Db Server Accounting AgentWS BrowserWS ApiKeysSpec HandlerSpec AttemptsSpec.
#[local] Open Scope Z_scope.

Section generic.
Context `{PocketBase} `{TimeText}.

Section steps.
Context (ok : effect -> Prop) (ok_nil : ok NilDeref).

(** One step of the handler: routes, registry and database stay, and the log
    gets only entries that are [ok]. *)
Definition gate_step (w w' : World) : Prop :=
  same_routes (w_hub w) (w_hub w') /\ w_reg w' = w_reg w /\ w_db w' = w_db w
  /\ exists l, w_log w' = w_log w ++ l /\ Forall ok l.

(** The rest of the server may do anything. *)
Definition anyR (_ _ : World) : Prop := True.
Abbreviation gwp p := (forall w : World, wp anyR gate_step (fun _ : World => True) p (fun _ _ => True) w).

#[export] Instance anyR_pre : PreOrder anyR.
Proof. split; repeat intro; exact I. Qed.

Lemma gate_same w w' : same_routes (w_hub w) (w_hub w') -> w_reg w' = w_reg w -> w_db w' = w_db w ->
  w_log w' = w_log w -> gate_step w w'.
Proof. intros ? ? ? Hl. unfold gate_step. rewrite Hl. split_and!; [done..|]. exists []. by rewrite app_nil_r. Qed.

Lemma gate_one e w w' : same_routes (w_hub w) (w_hub w') -> w_reg w' = w_reg w -> w_db w' = w_db w ->
  w_log w' = w_log w ++ [e] -> ok e -> gate_step w w'.
Proof. intros ? ? ? Hl He. unfold gate_step. rewrite Hl. split_and!; [done..|]. exists [e]. auto. Qed.

Lemma routes_refl h : same_routes h h.
Proof. done. Qed.

Lemma gwp_bind {A B} (p : proc World A) (g : A -> proc World B) : gwp p -> (forall a, gwp (g a)) -> gwp (p ≫= g).
Proof. intros Hp Hg w. apply wp_mbind; [apply _|]. eapply wp_mono; [|apply Hp]. intros a w' _. apply Hg. Qed.

Lemma gwp_ret {A} (a : A) : gwp (mret a).
Proof. by intros w. Qed.

Lemma gwp_reads {A} (f : World -> A) : gwp (reads f).
Proof. intros w. apply wp_reads. intros w1 _ _. split; [by apply gate_same|done]. Qed.

Lemma gwp_choices {A} (f : World -> list (A * World)) :
  (forall w b w2, (b, w2) ∈ f w -> gate_step w w2) -> gwp (choices f).
Proof. intros Hf w. apply wp_choices. intros w1 _ _ b w2 Hin. split_and!; [done|by eapply Hf|done]. Qed.

Lemma gwp_write c m : (forall d, c = Some d -> ok (m d)) -> gwp (ws_write c m).
Proof.
  intros Hm. apply gwp_choices. intros w b w2. destruct c as [d|].
  - destruct (up (sock w d)).
    + intros Hin. apply elem_of_cons in Hin as [Hin|Hin%list_elem_of_singleton]; simplify_eq.
      * by eapply gate_one; [| | | |apply Hm].
      * by apply gate_same.
    + intros Hin%list_elem_of_singleton. simplify_eq. by apply gate_same.
  - intros Hin%list_elem_of_singleton. simplify_eq. by eapply gate_one.
Qed.

Lemma gwp_send has_hub c m : (forall d, c = Some d -> ok (WroteJson d m)) -> gwp (send has_hub c m).
Proof.
  intros Hm. apply gwp_bind; [|intros _; by apply gwp_write]. destruct has_hub; [|apply gwp_ret].
  intros w. apply wp_atomic. intros w1 b w2 _ _ [= <- <-]. split_and!; [done| |done].
  apply gate_same; try done. simpl. unfold same_routes. by destruct c.
Qed.

Lemma gwp_close c st re : ok (Closed c st re) -> gwp (ws_close (Some c) st re).
Proof.
  intros Hok w. apply wp_modifies. intros w1 _ _. split_and!; [done| |done].
  by eapply gate_one.
Qed.

Lemma gwp_read c : (forall f, ok (Got c f)) -> gwp (ws_read c).
Proof.
  intros Hok. apply gwp_choices. intros w b w2 [Hin|Hin]%elem_of_app.
  - destruct (inq (sock w c)) as [|f q]; [by apply not_elem_of_nil in Hin|].
    apply list_elem_of_singleton in Hin. simplify_eq. by eapply gate_one.
  - destruct (up _); [by apply not_elem_of_nil in Hin|]. apply list_elem_of_singleton in Hin. simplify_eq.
    by apply gate_same.
Qed.

Lemma gwp_direct c m : ok (WroteJson c m) -> gwp (hub_SendDirect (Some c) m).
Proof. intros Hm. apply gwp_send. by intros d [= <-]. Qed.
(** Alone in a server that may do anything, every step of the program logs
    only what is [ok]. *)
Lemma gwp_system prog w w1 w2 ps p p' ts : gwp prog ->
  rtc (sys_step (fun _ _ => False) (fun _ _ => True)) ([prog], w) (ps, w1) -> p ∈ ps -> pstep p w1 p' w2 ts -> gate_step w1 w2.
Proof.
  intros Hprog Hreach Hin Hstep.
  assert (sys_ok anyR gate_step (fun _ => True) (ps, w1)) as [_ Hps].
  { eapply (sys_reach_ok anyR gate_step (fun _ => True) (fun _ _ => False) (fun _ _ => True)); [done..| |exact Hreach].
    split; [done|]. constructor; [exact (Hprog w)|constructor]. }
  rewrite Forall_forall in Hps. specialize (Hps p Hin). simpl in Hps.
  edestruct (wp_step anyR gate_step (fun _ => True) p p' w1 w2 ts) as (_&[->|Hg]&_);
    [done|done|exact Hps|exact Hstep|by apply gate_same|done].
Qed.
End steps.
End generic.

Section gate.
Context `{PocketBase} `{TimeText}.
Context (s : browser_session).

(** What the handler may add to the log: it reads from and closes the browser's
    socket, tells the browser that a password is required, refused or not
    usable, or an error; anything it sends to another socket is the submitted
    password. *)
Inductive gated : effect -> Prop :=
| gated_read f : gated (Got (bs_conn s) f)
| gated_close st re : gated (Closed (bs_conn s) st re)
| gated_error m : gated (WroteJson (bs_conn s) (error_msg m))
| gated_required : gated (WroteJson (bs_conn s) (typed "password_required" []))
| gated_fail m : gated (WroteJson (bs_conn s) (typed "auth_fail" [("message"%string, JStr m)]))
| gated_password c pw :
    gated (WroteJson c (typed "password_submit"
      [("conn_id"%string, JStr (bs_connID s)); ("code"%string, JStr (bs_code s)); ("password"%string, JStr pw)]))
| gated_nil : gated NilDeref.

Abbreviation gwp p := (forall w : World, wp anyR (gate_step gated) (fun _ => True) p (fun _ _ => True) w).
Lemma gwp_refuse m st re : gwp (refuse_browser (bs_conn s) m st re).
Proof. apply gwp_bind; [apply gwp_direct; constructor|intros _; apply gwp_close; constructor]. Qed.

Lemma gwp_auth_fail m : gwp (auth_fail s m).
Proof. apply gwp_bind; [apply gwp_direct; constructor|intros _; apply gwp_ret]. Qed.

Hypothesis Hprotected : bs_isImmich s && bs_isPasswordProtected s = true.

Lemma gwp_dispatch msg : gwp (browser_dispatch s msg).
Proof.
  unfold browser_dispatch. rewrite Hprotected. apply andb_true_iff in Hprotected as [-> ->]. cbn [andb negb orb].
  case_bool_decide as Ht; cbn [negb]; [|apply gwp_auth_fail].
  rewrite bool_decide_false by (rewrite Ht; done). case_bool_decide; cbn [negb]; [|apply gwp_auth_fail].
  unfold to_agent, SendToAgent. apply gwp_bind; [|intros _; apply gwp_ret].
  apply gwp_bind; [apply gwp_reads|]. intros [c|]; [|apply gwp_ret]. apply gwp_send; constructor.
Qed.

Lemma gwp_serve cfg relayOnly : gwp (serve_browser cfg s relayOnly).
Proof.
  unfold serve_browser. apply gwp_bind; [apply gwp_reads|]. intros [k|]; [|apply gwp_refuse].
  case_bool_decide; [apply gwp_refuse|].
  apply gwp_bind; [apply gwp_reads|]. intros [u|]; [|apply gwp_refuse].
  destruct (checkRelayQuota u) as [q e]. destruct (relayOnly && q); [apply gwp_refuse|].
  rewrite Hprotected. apply gwp_bind; [apply gwp_bind; [apply gwp_direct; constructor|intros _; apply gwp_ret]|].
  intros _ w. exists (fun _ _ => True). split; [done|]. intros _ w1 _.
  apply wp_mbind; [apply _|]. eapply wp_mono; [|apply gwp_read; constructor]. intros [f|] w2 _; [|by repeat intro].
  destruct (decode_browser_msg f) as [msg|]; [|by repeat intro].
  apply wp_mbind; [apply _|]. eapply wp_mono; [|apply gwp_dispatch]. intros _ w3 _. by repeat intro.
Qed.
End gate.

Section theorem.
Context `{PocketBase} `{TimeText}.

(** C32 (safety). A password-protected share stays behind its password.  While
    the handler of a browser at a protected Immich share runs, and whatever the
    rest of the server does between its steps, every step of the handler
    leaves the hub's routes, the relay registry and the database alone, and
    writes nothing but: to the browser, that a password is required or refused
    or an error; to any other socket, the password the browser submitted.  In
    particular no knock, join, answer or candidate passes. *)
Theorem password_gate cfg (s : browser_session) relayOnly (w w1 w2 : World) ps p p' ts :
  bs_isImmich s && bs_isPasswordProtected s = true ->
  rtc (sys_step (fun _ _ => False) (fun _ _ => True)) ([serve_browser cfg s relayOnly], w) (ps, w1) ->
  p ∈ ps -> pstep p w1 p' w2 ts -> gate_step (gated s) w1 w2.
Proof.
  intros Hp. by apply gwp_system, gwp_serve.
Qed.
End theorem.

(** * A browser that tries to knock before it gave the password *)

Definition demo_frame (o : obj) : frame := mkFrame false [] (Some (JObj o)).
Definition demo_protected : browser_session := mkBrowserSession 2 "code1234" "conn" "key" true true.
Definition demo_gate_world : World :=
  mkWorld demo_routes (NewRegistry (7 * Second))
    (mkMem (<[("users", "alice")%string := ∅]> (<[("api_keys", "key")%string := demo_key]> ∅)) 0)
    (<[1%nat := mkSock [] true]> (<[2%nat := mkSock [demo_frame [("type", JStr "knock")%string];
        demo_frame [("type", JStr "password_submit"); ("code", JStr "code1234"); ("password", JStr "guess")]%string] true]> ∅))
    [] 5 [] [].
Definition demo_gate_moves (n : nat) : list (move World) := replicate n (Run 0 0).
Definition demo_server : proc World unit := serve_browser (mkServerConfig "stun" "secret") demo_protected false.

Lemma demo_gate_reach n ps w :
  run_moves (demo_gate_moves n) ([demo_server], demo_gate_world) = Some (ps, w) ->
  rtc (sys_step (fun _ _ => False) (fun _ _ => True)) ([demo_server], demo_gate_world) (ps, w).
Proof.
  intros Hrun. refine (run_moves_reach _ _ (demo_gate_moves n) _ _ _ Hrun). apply Forall_replicate. exact I.
Qed.

(** Sent the submitted password to the agent, socket 1, last. *)
Definition sent_password (w : World) : bool :=
  match last (w_log w) with
  | Some (WroteJson 1 ((_, JStr t) :: _)) => bool_decide (t = "password_submit"%string)
  | _ => false
  end.

Lemma password_gate_witness :
  exists ps w1 p p' w2 ts,
    rtc (sys_step (fun _ _ => False) (fun _ _ => True)) ([demo_server], demo_gate_world) (ps, w1)
    /\ p ∈ ps /\ pstep p w1 p' w2 ts /\ sent_password w2 = true /\ gate_step (gated demo_protected) w1 w2.
Proof.
  assert ((if run_moves (demo_gate_moves 12) ([demo_server], demo_gate_world) is Some ([p], w1)
           then if pstep_fn 0 p w1 is Some (_, w2, _) then sent_password w2 else false else false) = true) as Hrun
    by (vm_compute; reflexivity).
  destruct (run_moves (demo_gate_moves 12) _) as [[[|p [|q ps]] w1]|] eqn:Hmoves; [discriminate Hrun| |discriminate Hrun..].
  destruct (pstep_fn 0 p w1) as [[[p' w2] ts]|] eqn:Hstep; [|discriminate Hrun].
  pose proof (demo_gate_reach _ _ _ Hmoves) as Hreach. pose proof (pstep_fn_ok 0 p p' w1 w2 ts Hstep) as Hp.
  exists [p], w1, p, p', w2, ts. split; [exact Hreach|]. split; [constructor|]. split; [exact Hp|]. split; [exact Hrun|].
  exact (password_gate (mkServerConfig "stun" "secret") demo_protected false demo_gate_world w1 w2 [p] p p' ts
           eq_refl Hreach (list_elem_of_here _ _) Hp).
Defined.
