(* ===== verification/ConcOwn.v ===== *)
(** Ownership for goroutines: a rely-guarantee logic in which each goroutine
    owns tokens.  A token stands for a part of the world only its owner
    changes; a goroutine may make fresh tokens, pass tokens to a goroutine it
    starts, and drop them.  What is true of every action of every goroutine
    under these rules holds in every interleaving.  A token may be a debt for
    as long as it is live: then it is not dropped, and some goroutine that has
    not finished owns it. *)

From S2P Require Import Prelude Conc.

Section own.
Context {W Tok : Type} `{Countable Tok}.
(** The part of the world a token stands for is the same; the token does not
    exist yet; it is a debt; what every step respects; the invariant; and the
    states that count. *)
Context (same : Tok -> W -> W -> Prop) (fresh live : Tok -> W -> Prop) (Rel : W -> W -> Prop)
  (Inv lim : W -> Prop).
Context `{!PreOrder Rel} `{!forall t, PreOrder (same t)}.

Definition rely (O : gset Tok) (w w' : W) : Prop := Rel w w' /\ forall t, t ∈ O -> same t w w'.

Definition made (O : gset Tok) (w : W) : Prop := forall t, t ∈ O -> ~ fresh t w.

(** Nothing is owed. *)
Definition spent (O : gset Tok) (w : W) : Prop := forall t, t ∈ O -> ~ live t w.

Record guar (O O' : gset Tok) (w w' : W) : Prop := {
  gu_rel : Rel w w';
  gu_same : forall t, t ∉ O -> ~ fresh t w -> same t w w';
  gu_own : forall t, t ∈ O' -> ~ fresh t w' /\ (t ∈ O \/ fresh t w);
  gu_fresh : forall t, fresh t w' -> fresh t w }.

(** What is owed after was owed before by others, or is owned. *)
Definition owing (O O' : gset Tok) (w w' : W) : Prop := forall t, live t w' -> t ∈ O' \/ ((t ∉ O) /\ live t w).

Fixpoint owp {A} (O : gset Tok) (p : proc W A) (Q : gset Tok -> A -> W -> Prop) (w : W) : Prop :=
  match p with
  | Done a => forall w1, rely O w w1 -> Q O a w1
  | Act f k => forall w1, rely O w w1 -> Inv w1 -> made O w1 -> forall b w2, (b, w2) ∈ f w1 -> lim w2 ->
      Inv w2 /\ exists O', guar O O' w1 w2 /\ owing O O' w1 w2 /\ owp O' (k b) Q w2
  | Spawn q k => exists O1 O2, O1 ## O2 /\ O1 ∪ O2 ⊆ O /\
      forall w1, rely O w w1 -> spent (O ∖ (O1 ∪ O2)) w1 /\ owp O1 q (fun O' _ w' => spent O' w') w1 /\ owp O2 k Q w1
  | Iter s body k => exists J : _ -> gset Tok -> W -> Prop, (forall w1, rely O w w1 -> J s O w1) /\
      forall s' O' w1, J s' O' w1 ->
        owp O' (body s') (fun O'' r w2 => match r with inl s'' => J s'' O'' w2 | inr b => owp O'' (k b) Q w2 end) w1
  end.

#[export] Instance rely_pre O : PreOrder (rely O).
Proof.
  split.
  - intros w. split; [reflexivity|]. intros; reflexivity.
  - intros w1 w2 w3 [H1 H2] [H3 H4]. split; [by etransitivity|]. intros t Ht. etransitivity; eauto.
Qed.

Lemma rely_sub O O' w w' : O' ⊆ O -> rely O w w' -> rely O' w w'.
Proof. intros Hs [H1 H2]. split; [done|]. intros t Ht. apply H2. set_solver. Qed.

Lemma owp_rely {A} O (p : proc W A) Q w w' : rely O w w' -> owp O p Q w -> owp O p Q w'.
Proof.
  intros HRw. destruct p; simpl.
  - intros Hp w1 Hw. apply Hp. by etransitivity.
  - intros Hp w1 Hw. apply Hp. by etransitivity.
  - intros (O1&O2&Hd&Hs&Hp). exists O1, O2. split_and!; [done..|]. intros w1 Hw. apply Hp. by etransitivity.
  - intros (J&HJ&Hb). exists J. split; [|done]. intros w1 Hw. apply HJ. by etransitivity.
Qed.

Lemma owp_mono {A} O (p : proc W A) (Q Q' : gset Tok -> A -> W -> Prop) w :
  (forall O' a w', Q O' a w' -> Q' O' a w') -> owp O p Q w -> owp O p Q' w.
Proof.
  revert O Q Q' w. induction p as [A a|A B f k IH|A q IHq k IH|A S B s body IHb k IH]; simpl; intros O Q Q' w HQ.
  - auto.
  - intros Hp w1 Hw Hi Hm b w2 Hin Hl. destruct (Hp w1 Hw Hi Hm b w2 Hin Hl) as (?&O'&?&?&?). split; [done|].
    exists O'. split_and!; [done..|]. eauto.
  - intros (O1&O2&Hd&Hs&Hp). exists O1, O2. split_and!; [done..|]. intros w1 Hw. destruct (Hp w1 Hw) as (?&?&?). eauto.
  - intros (J&HJ&Hb). exists J. split; [done|]. intros s' O' w1 Hs. eapply IHb; [|by apply Hb].
    intros O'' [s''|b] w2; [done|]. by apply IH.
Qed.

Lemma owp_bind {A B} O (p : proc W A) (g : A -> proc W B) Q w :
  owp O p (fun O' a w' => owp O' (g a) Q w') w -> owp O (p ≫= g) Q w.
Proof.
  change (p ≫= g) with (pbind p g).
  revert O w. induction p as [A a|A C f k IH|A q IHq k IH|A S C s body IHb k IH]; intros O w Hp;
    cbn [pbind owp] in *.
  - apply Hp. reflexivity.
  - intros w1 Hw Hi Hm b w2 Hin Hl. destruct (Hp w1 Hw Hi Hm b w2 Hin Hl) as (?&O'&?&?&?). split; [done|].
    exists O'. split_and!; [done..|]. by apply IH.
  - destruct Hp as (O1&O2&Hd&Hs&Hp). exists O1, O2. split_and!; [done..|]. intros w1 Hw.
    destruct (Hp w1 Hw) as (?&?&?). split_and!; [done..|]. by apply IH.
  - destruct Hp as (J&HJ&Hb). exists J. split; [done|]. intros s' O' w1 Hs.
    eapply owp_mono; [|by apply Hb]. intros O'' [s''|b] w2; [done|]. by apply IH.
Qed.

Lemma owp_ret {A} O (a : A) (Q : gset Tok -> A -> W -> Prop) w :
  (forall w1, rely O w w1 -> Q O a w1) -> owp O (mret a) Q w.
Proof. done. Qed.

(** What a goroutine does not need, it keeps: those tokens stand for the same
    after it as before. *)
Lemma owp_frame {A} O F (p : proc W A) Q w : O ## F -> owp O p Q w ->
  owp (O ∪ F) p (fun O' a w' => exists O1, O' = O1 ∪ F /\ O1 ## F /\ rely F w w' /\ Q O1 a w') w.
Proof.
  intros Hd Hp. cut (forall w0, rely F w0 w ->
    owp (O ∪ F) p (fun O' a w' => exists O1, O' = O1 ∪ F /\ O1 ## F /\ rely F w0 w' /\ Q O1 a w') w);
    [by intros Hc; apply Hc|].
  assert (forall O w w1, rely (O ∪ F) w w1 -> rely O w w1 /\ rely F w w1) as Hsplit
    by (intros; split; eapply rely_sub; [|done| |done]; set_solver).
  revert O Q w Hd Hp. induction p as [A a|A B f k IH|A q IHq k IH|A S B s body IHb k IH];
    cbn [owp]; intros O Q w Hd Hp w0 Hw0.
  - intros w1 [HO1 HF1]%Hsplit. exists O. split_and!; [done|done|by etransitivity|by apply Hp].
  - intros w1 [HO1 HF1]%Hsplit Hi Hm b w2 Hin Hl. assert (made O w1) as Hm1 by (intros t Ht; apply Hm; set_solver).
    destruct (Hp w1 HO1 Hi Hm1 b w2 Hin Hl) as (?&O'&[HR Hs Ho Hf]&Hw2&Hk). split; [done|]. exists (O' ∪ F).
    assert (O' ## F) as Hd'.
    { intros t Ht HtF. destruct (Ho t Ht) as [_ [?|Hn]]; [set_solver|]. eapply Hm; [|exact Hn]. set_solver. }
    split_and!; [constructor| |apply IH]; try done.
    + intros t Ht. apply Hs. set_solver.
    + intros t [Ht|Ht]%elem_of_union; [destruct (Ho t Ht) as [? [?|?]]; split; auto; left; set_solver|].
      split; [|left; set_solver]. intros Hn%Hf. eapply Hm; [|exact Hn]. set_solver.
    + intros t Ht. destruct (Hw2 t Ht) as [?|[? ?]]; [left; set_solver|]. destruct (decide (t ∈ F)); [left; set_solver|right; set_solver].
    + etransitivity; [exact Hw0|]. etransitivity; [exact HF1|]. split; [done|].
      intros t Ht. apply Hs; [set_solver|]. apply Hm. set_solver.
  - destruct Hp as (O1&O2&Hd1&Hs&Hp). exists O1, (O2 ∪ F). split_and!; [set_solver..|].
    intros w1 [HO1 HF1]%Hsplit. destruct (Hp w1 HO1) as (Hsp&Hq&Hk).
    split_and!; [intros t Ht; apply Hsp; set_solver|done|]. apply IH; [set_solver|done|by etransitivity].
  - destruct Hp as (J&HJ&Hb). exists (fun s O' w1 => exists O1, O' = O1 ∪ F /\ O1 ## F /\ rely F w0 w1 /\ J s O1 w1).
    split; [intros w1 [HO1 HF1]%Hsplit; exists O; split_and!; [done|done|by etransitivity|by apply HJ]|].
    intros s' O' w1 (O1&->&Hd1&HF&HJ1). eapply owp_mono; [|eapply (IHb s' O1 _ w1 Hd1 (Hb _ _ _ HJ1) w0 HF)].
    intros O'' [s''|b] w2 (O2&->&Hd2&HF2&Hx); [by exists O2|]. by apply IH.
Qed.

(** A pool of goroutines, each with its tokens. *)
Record pool_ok (Os : list (gset Tok)) (ps : list (proc W unit)) (w : W) : Prop := {
  po_wp : Forall2 (fun O p => owp O p (fun O' _ w' => spent O' w') w) Os ps;
  po_apart : forall i j O1 O2, i <> j -> Os !! i = Some O1 -> Os !! j = Some O2 -> O1 ## O2;
  po_made : forall i O t, Os !! i = Some O -> t ∈ O -> ~ fresh t w }.

Lemma pool_lookup Os ps w i O p : pool_ok Os ps w -> Os !! i = Some O -> ps !! i = Some p ->
  owp O p (fun O' _ w' => spent O' w') w.
Proof. intros [Hwp _ _] HO Hp. by eapply Forall2_lookup_lr in Hwp. Qed.

Lemma pool_owner Os ps w i p : pool_ok Os ps w -> ps !! i = Some p -> exists O, Os !! i = Some O.
Proof. intros [Hwp _ _] Hp. destruct (Forall2_lookup_r _ _ _ _ _ Hwp Hp) as (O&?&_). eauto. Qed.

(** One goroutine steps, from its tokens to [O']. *)
Lemma pool_update Os ps w w' i O O' p' :
  pool_ok Os ps w -> Os !! i = Some O -> guar O O' w w' -> owp O' p' (fun O'' _ w'' => spent O'' w'') w' ->
  pool_ok (<[i := O']> Os) (<[i := p']> ps) w'.
Proof.
  intros [Hwp Hap Hmd] HO [HR Hsame Hown Hfr] Hp'. constructor.
  - apply Forall2_same_length_lookup. apply Forall2_same_length_lookup in Hwp as [Hlen Hwp].
    split; [by rewrite !length_insert|]. intros j Oj pj Hj Hpj.
    destruct (decide (i = j)) as [<-|Hne].
    + rewrite list_lookup_insert_eq in Hj by (by eapply lookup_lt_Some).
      rewrite list_lookup_insert_eq in Hpj by (rewrite <- Hlen; by eapply lookup_lt_Some). by simplify_eq.
    + rewrite list_lookup_insert_ne in Hj by done. rewrite list_lookup_insert_ne in Hpj by done. eapply owp_rely; [|by eapply Hwp].
      split; [done|]. intros t Ht. apply Hsame; [|by eapply Hmd].
      pose proof (Hap i j O Oj Hne HO Hj). set_solver.
  - assert (forall j Oj, i <> j -> Os !! j = Some Oj -> O' ## Oj) as Hd.
    { intros j Oj Hne Hj t Ht Htj. destruct (Hown t Ht) as [_ [Hin|Hf]].
      - pose proof (Hap i j O Oj Hne HO Hj). set_solver.
      - by eapply Hmd. }
    intros j k O1 O2 Hne Hj Hk. rewrite list_lookup_insert_Some in Hj, Hk.
    destruct Hj as [(->&->&_)|[Hij Hj]], Hk as [(->&->&_)|[Hik Hk]]; [done|by eapply Hd|symmetry; by eapply Hd|exact (Hap _ _ _ _ Hne Hj Hk)].
  - intros j Oj t Hj Ht. rewrite list_lookup_insert_Some in Hj. destruct Hj as [(->&->&_)|[_ Hj]].
    + by apply Hown.
    + intros Hn. by eapply Hmd; [..|apply Hfr].
Qed.

(** One goroutine starts another. *)
Lemma pool_spawn Os ps w i O O1 O2 q k :
  pool_ok Os ps w -> Os !! i = Some O -> O1 ## O2 -> O1 ∪ O2 ⊆ O ->
  owp O1 q (fun O' _ w' => spent O' w') w -> owp O2 k (fun O' _ w' => spent O' w') w ->
  pool_ok (<[i := O2]> Os ++ [O1]) (<[i := k]> ps ++ [q]) w.
Proof.
  intros Hpool HO Hd Hs Hq Hk.
  assert (guar O O2 w w) as Hg.
  { constructor; [reflexivity|intros; reflexivity| |done].
    intros t Ht. split; [|left; set_solver]. eapply (po_made _ _ _ Hpool); [exact HO|set_solver]. }
  destruct (pool_update _ _ _ _ _ _ _ _ Hpool HO Hg Hk) as [Hwp Hap Hmd]. destruct Hpool as [Hwp0 Hap0 Hmd0].
  assert (forall j Oj, <[i := O2]> Os !! j = Some Oj -> O1 ## Oj) as Hnew.
  { intros j Oj Hj. rewrite list_lookup_insert_Some in Hj. destruct Hj as [(_&->&_)|[Hne Hj]]; [done|].
    pose proof (Hap0 i j O Oj Hne HO Hj). set_solver. }
  constructor.
  - apply Forall2_app; [done|]. by constructor.
  - intros j l A B Hne Hj Hl. apply lookup_snoc_Some in Hj as [[_ Hj]|[-> ->]], Hl as [[_ Hl]|[-> ->]];
      [by eapply Hap|symmetry; by eapply Hnew|by eapply Hnew|done].
  - intros j Oj t Hj Ht. apply lookup_snoc_Some in Hj as [[_ Hj]|[_ ->]]; [by eapply Hmd|].
    eapply Hmd0; [exact HO|set_solver].
Qed.

Lemma pool_env Os ps w w' :
  pool_ok Os ps w -> Rel w w' -> (forall t, ~ fresh t w -> same t w w') -> (forall t, fresh t w' -> fresh t w) ->
  pool_ok Os ps w'.
Proof.
  intros [Hwp Hap Hmd] HR Hs Hf. constructor; [|done|].
  - apply Forall2_same_length_lookup. apply Forall2_same_length_lookup in Hwp as [Hlen Hwp]. split; [done|].
    intros i O p HO Hp. eapply owp_rely; [|by eapply Hwp]. split; [done|]. intros t Ht. apply Hs. by eapply Hmd.
  - intros i O t HO Ht Hn. by eapply Hmd; [..|apply Hf].
Qed.

(** Every debt has an owner. *)
Definition covered (Os : list (gset Tok)) (w : W) : Prop := forall t, live t w -> exists i O, Os !! i = Some O /\ t ∈ O.

Lemma covered_update Os w w' i O O' : Os !! i = Some O -> owing O O' w w' -> covered Os w -> covered (<[i := O']> Os) w'.
Proof.
  intros HO Hown Hc t Ht. destruct (Hown t Ht) as [Hin|[Hn Hl]].
  - exists i, O'. split; [|done]. apply list_lookup_insert_eq. by eapply lookup_lt_Some.
  - destruct (Hc t Hl) as (j&Oj&Hj&Hin). exists j, Oj. split; [|done]. rewrite list_lookup_insert_ne; [done|].
    intros <-. by simplify_eq.
Qed.
Lemma covered_spawn Os w i O O1 O2 : Os !! i = Some O -> spent (O ∖ (O1 ∪ O2)) w -> covered Os w ->
  covered (<[i := O2]> Os ++ [O1]) w.
Proof.
  intros HO Hs Hc t Ht. destruct (Hc t Ht) as (j&Oj&Hj&Hin). pose proof (lookup_lt_Some _ _ _ HO) as Hlt.
  destruct (decide (i = j)) as [<-|Hne].
  - simplify_eq. destruct (decide (t ∈ O1)); [|destruct (decide (t ∈ O2))].
    + exists (length Os), O1. split; [|done]. by rewrite lookup_app_r, length_insert, Nat.sub_diag by (rewrite length_insert; lia).
    + exists i, O2. split; [|done]. rewrite lookup_app_l by (by rewrite length_insert). by apply list_lookup_insert_eq.
    + destruct (Hs t); [set_solver|done].
  - exists j, Oj. split; [|done]. rewrite lookup_app_l by (rewrite length_insert; by eapply lookup_lt_Some).
    by rewrite list_lookup_insert_ne.
Qed.

(** ** The system *)

Context (accept : proc W unit -> W -> Prop) (env : W -> W -> Prop).
Hypothesis env_ok : forall w w', Inv w -> lim w' -> env w w' ->
  Inv w' /\ Rel w w' /\ (forall t, ~ fresh t w -> same t w w') /\ (forall t, fresh t w' -> fresh t w)
  /\ (forall t, live t w' -> live t w).
Hypothesis accept_ok : forall p w, Inv w -> accept p w -> owp ∅ p (fun O _ w' => spent O w') w.

Definition owned_ok (c : list (proc W unit) * W) : Prop := Inv c.2 /\ exists Os, pool_ok Os c.1 c.2 /\ covered Os c.2.

Lemma owned_step c c' : lim c'.2 -> owned_ok c -> sys_step accept env c c' -> owned_ok c'.
Proof.
  intros Hl (Hi&Os&Hpool&Hcov) Hstep.
  inversion Hstep as [i ps p p' w w' ts Hp Hs|ps p w Ha|ps w w' He]; subst; simpl in *.
  - destruct (pool_owner _ _ _ _ _ Hpool Hp) as [O HO]. pose proof (pool_lookup _ _ _ _ _ _ Hpool HO Hp) as Hwp.
    destruct p as [a|B f k|q k|S B s body k]; cbn [pstep owp] in *; [done|..].
    + destruct Hs as (b&Hin&->&->). assert (made O w) as Hm by (intros t Ht; by eapply (po_made _ _ _ Hpool)).
      destruct (Hwp w (reflexivity w) Hi Hm b w' Hin Hl) as (Hi'&O'&Hg&Hown&Hk).
      split; [done|]. exists (<[i := O']> Os). rewrite app_nil_r. split; [by eapply pool_update|by eapply covered_update].
    + destruct Hs as (->&->&->). destruct Hwp as (O1&O2&Hd&Hsub&Hwp). destruct (Hwp w (reflexivity w)) as (Hsp&Hq&Hk).
      split; [done|]. exists (<[i := O2]> Os ++ [O1]). split; [by eapply pool_spawn|by eapply covered_spawn].
    + destruct Hs as (->&->&->). split; [done|]. exists (<[i := O]> Os). rewrite app_nil_r.
      split; [|by rewrite list_insert_id]. eapply (pool_update Os ps w w i O O); [done|done| |].
      * constructor; [reflexivity|intros; reflexivity| |done]. intros t Ht. split; [|by left].
        eapply (po_made _ _ _ Hpool); [exact HO|done].
      * destruct Hwp as (J&HJ&Hb). change (pbind (body s) ?g) with (body s ≫= g). apply owp_bind.
        eapply owp_mono; [|apply Hb, HJ; reflexivity]. intros O' [s'|b] w2 Hx.
        -- cbn [owp]. exists (fun s1 O1 w1 => exists w0, rely O1 w0 w1 /\ J s1 O1 w0).
           split; [intros w1 Hw; by exists w2|]. intros s1 O1 w1 (w0&HRw&HJ1).
           eapply owp_rely; [exact HRw|]. eapply owp_mono; [|by apply Hb].
           intros O3 [s2|b] w3; [|done]. intros Hy. exists w3. split; [reflexivity|done].
        -- done.
  - split; [done|]. exists (Os ++ [∅]). split.
    2: { intros t Ht. destruct (Hcov t Ht) as (j&O&Hj&Hin). exists j, O. split; [by apply lookup_app_l_Some|done]. }
    destruct Hpool as [Hwp Hap Hmd]. constructor.
    + apply Forall2_app; [done|]. constructor; [by apply accept_ok|constructor].
    + intros j l A B Hne Hj Hl2. apply lookup_snoc_Some in Hj as [[_ Hj]|[-> <-]], Hl2 as [[_ Hl2]|[-> <-]];
        [by eapply Hap|set_solver|set_solver|done].
    + intros j Oj t Hj Ht. apply lookup_snoc_Some in Hj as [[_ Hj]|[_ <-]]; [by eapply Hmd|set_solver].
  - destruct (env_ok w w' Hi Hl He) as (Hi'&HR&Hs&Hf&Hlive). split; [done|]. exists Os.
    split; [by eapply pool_env|]. intros t Ht. by apply Hcov, Hlive.
Qed.

(** When every goroutine has finished, nothing is owed. *)
Lemma owned_quiet c : owned_ok c -> Forall (fun p => p = Done tt) c.1 -> forall t, ~ live t c.2.
Proof.
  intros (_&Os&Hpool&Hcov) Hdone t Ht. destruct (Hcov t Ht) as (i&O&HO&Hin).
  destruct (Forall2_lookup_l _ _ _ _ _ (po_wp _ _ _ Hpool) HO) as (p&Hp&Hwp).
  pose proof (Forall_lookup_1 _ _ _ _ Hdone Hp) as ->. exact (Hwp c.2 (reflexivity _) t Hin Ht).
Qed.

(** Runs all of whose states count. *)
Definition counted (c c' : list (proc W unit) * W) : Prop := sys_step accept env c c' /\ lim c'.2.

Lemma owned_reach c c' : owned_ok c -> rtc counted c c' -> owned_ok c'.
Proof.
  intros Hc Hr. revert Hc. induction Hr as [c|c c1 c2 [Hs Hl] Hr IH]; [done|]. intros Hc. apply IH.
  by eapply owned_step.
Qed.

(** A concrete run: always the first outcome of the first goroutine that can
    step, while the states count. *)
Fixpoint first_step (past ps : list (proc W unit)) (w : W) : option (list (proc W unit) * W) :=
  match ps with
  | [] => None
  | p :: rest =>
      match pstep_fn 0 p w with
      | Some (p', w', ts) => Some (past ++ p' :: rest ++ ts, w')
      | None => first_step (past ++ [p]) rest w
      end
  end.

Context (limb : W -> bool) (limb_ok : forall w, limb w = true -> lim w).

Fixpoint run_first (n : nat) (c : list (proc W unit) * W) : list (proc W unit) * W :=
  match n with
  | O => c
  | S n' => match first_step [] c.1 c.2 with
            | Some c' => if limb c'.2 then run_first n' c' else c
            | None => c
            end
  end.

Lemma first_step_ok past ps w c' : first_step past ps w = Some c' -> sys_step accept env (past ++ ps, w) c'.
Proof.
  revert past. induction ps as [|p ps IH]; intros past; simpl; [done|].
  destruct (pstep_fn 0 p w) as [[[p' w'] ts]|] eqn:Hp.
  - intros [= <-]. assert (past ++ p' :: ps ++ ts = <[length past := p']> (past ++ p :: ps) ++ ts) as ->
      by (rewrite insert_app_r_alt, Nat.sub_diag by lia; simpl; by rewrite <- app_assoc).
    apply (sys_thread _ _ _ _ p); [by rewrite list_lookup_middle|by eapply pstep_fn_ok].
  - intros Hf. apply IH in Hf. by rewrite <- app_assoc in Hf.
Qed.

Lemma run_first_counted n c : rtc counted c (run_first n c).
Proof.
  revert c. induction n as [|n IH]; intros c; simpl; [done|]. destruct (first_step [] c.1 c.2) as [c'|] eqn:Hf; [|done].
  destruct (limb c'.2) eqn:Hl; [|done]. eapply rtc_l; [|apply IH]. split; [|by apply limb_ok].
  destruct c as [ps w]. by apply (first_step_ok []) in Hf.
Qed.

(** A run that follows a schedule: which goroutine steps, with the first outcome. *)
Fixpoint run_schedule (l : list nat) (c : list (proc W unit) * W) : option (list (proc W unit) * W) :=
  match l with
  | [] => Some c
  | i :: l' => c' ← run_move (Run i 0) c; if limb c'.2 then run_schedule l' c' else None
  end.

Lemma run_schedule_counted l c c' : run_schedule l c = Some c' -> rtc counted c c'.
Proof.
  revert c. induction l as [|i l IH]; intros [ps w]; [by intros [= ->]|]. cbn [run_schedule].
  destruct (run_move (Run i 0) (ps, w)) as [c1|] eqn:Hm; simpl; [|done]. destruct (limb c1.2) eqn:Hl; [|done].
  intros Hr. eapply rtc_l; [|by apply IH]. split; [|by apply limb_ok]. cbn [run_move fst snd] in Hm.
  destruct (ps !! i) as [p|] eqn:Hp; simpl in Hm; [|done].
  destruct (pstep_fn 0 p w) as [[[p' w'] ts]|] eqn:Hs; simpl in Hm; [|done]. injection Hm as <-.
  eapply sys_thread; [exact Hp|by eapply pstep_fn_ok].
Qed.
End own.
