(* ===== verification/TransferState.v ===== *)
(** The agent's file transfers, their state
    (agent/internal/transfer/manager.go): the manager, the frames and names it
    builds, and the world its goroutines share: contexts, pipes, timers, the
    album batches, the storage backends (an interface) and the three endpoints,
    whose sends are logged.  Each critical section, atomic operation, channel
    operation, pipe operation and send is one action. *)

From Stdlib Require Import Ascii Floats.SpecFloat.
From stdpp Require Import pretty.
From S2P Require Import Prelude GoText Lanes Conc Json.
#[local] Open Scope Z_scope.

(** * Constants *)

(** [agent/internal/transfer/manager.go:24-24] chunkSize *)
Definition chunkSize : Z := 64 * 1024.
(** [agent/internal/transfer/manager.go:25-25] maxBuffer *)
Definition maxBuffer : Z := 5 * 1024 * 1024.
(** [agent/internal/transfer/manager.go:29-29] maxConcurrentGalleryThumbnails *)
Definition maxConcurrentGalleryThumbnails : nat := 6.
(** [agent/internal/transfer/manager.go:32-32] maxAdvertisedGalleryItems *)
Definition maxAdvertisedGalleryItems : nat := Z.to_nat 65536.
(** [agent/internal/transfer/manager.go:33-33] maxThumbnailBatchSize *)
Definition maxThumbnailBatchSize : Z := 120.
(** [agent/internal/transfer/manager.go:34-34] defaultThumbnailGrace *)
Definition defaultThumbnailGrace : Z := 5 * Second.
(** [agent/internal/transfer/manager.go:160-160] NewManager *)
Definition albumAckTimeout : Z := 60 * Second.

(** [agent/internal/transfer/manager.go:37-43] thumbnailMode *)
Inductive thumbnailMode := thumbnailModeWaiting | thumbnailModePull | thumbnailModeLegacy.
#[export] Instance thumbnailMode_eq_dec : EqDecision thumbnailMode.
Proof. solve_decision. Defined.

(** [agent/internal/transfer/manager.go:46-46] binaryFrameFileChunk *)
Definition binaryFrameFileChunk : byte := x10.
(** [agent/internal/transfer/manager.go:47-47] binaryFrameThumbnail *)
Definition binaryFrameThumbnail : byte := x11.
(** [agent/internal/transfer/manager.go:48-48] chunkEnvelopeVersion *)
Definition chunkEnvelopeVersion : byte := x01.
(** [agent/internal/transfer/manager.go:49-49] chunkEnvelopeSize *)
Definition chunkEnvelopeSize : Z := 14.

(** * Data *)

(** [agent/internal/cloudwebdav/client.go:38-45] FileInfo *)
Record FileInfo := mkFileInfo {
  fi_Name : string; fi_Size : Z; fi_ContentType : string; fi_IsDir : bool; fi_SHA1 : string;
  fi_RequestPath : string }.

(** [agent/internal/transfer/manager.go:72-75] AlbumArchive *)
Record AlbumArchive := mkArchive { AssetIDs : list string; EstimatedSize : Z }.
(** [agent/internal/transfer/manager.go:77-81] AlbumDownload *)
Record AlbumDownload := mkAlbum { AlbumName : string; TotalSize : Z; Archives : list AlbumArchive }.

(** [agent/internal/transfer/manager.go:89-98] GalleryItem *)
Record GalleryItem := mkItem {
  gi_ID : string; gi_Name : string; gi_MimeType : string; gi_Width : Z; gi_Height : Z; gi_Size : Z;
  gi_Duration : option spec_float; gi_SHA1 : string }.
(** [agent/internal/transfer/manager.go:83-87] Gallery *)
Record Gallery := mkGallery {
  g_AlbumName : string; g_AlbumDescription : string; g_Items : list GalleryItem }.

(** [agent/internal/transfer/manager.go:148-152] albumArchiveAck *)
Record albumArchiveAck := mkAck { ack_partIndex : Z; ack_operationID : Z; ack_ok : bool }.

(** * Frames *)

(** [agent/internal/transfer/manager.go:1357-1364] encodeThumbnailFrame *)
Definition encodeThumbnailFrame (index : Z) (jpg : bytes) : bytes :=
  binaryFrameThumbnail :: be_put 2 index ++ jpg.

(** [agent/internal/transfer/manager.go:1370-1378] encodeChunkFrame *)
Definition encodeChunkFrame (operationID generation : Z) (data : bytes) : bytes :=
  [binaryFrameFileChunk; chunkEnvelopeVersion] ++ be_put 8 operationID ++ be_put 4 generation ++ data.

Inductive chunk_error : Type :=
| ErrChunkShort (n : Z)
| ErrChunkType (b : byte)
| ErrChunkVersion (b : byte).

(** [agent/internal/transfer/manager.go:1380-1394] decodeChunkFrame *)
Definition decodeChunkFrame (frame : bytes) : result (Z * Z * bytes) chunk_error :=
  if len frame <? chunkEnvelopeSize then Err (ErrChunkShort (len frame))
  else if negb (bool_decide (frame !! 0%nat = Some binaryFrameFileChunk))
  then Err (ErrChunkType (default x00 (frame !! 0%nat)))
  else if negb (bool_decide (frame !! 1%nat = Some chunkEnvelopeVersion))
  then Err (ErrChunkVersion (default x00 (frame !! 1%nat)))
  else Ok (be_get (take 8 (drop 2 frame)), be_get (take 4 (drop 10 frame)), drop 14 frame).

(** [agent/internal/transfer/manager.go:1396-1407] normalizeAssetQuality *)
Definition normalizeAssetQuality (quality : string) : string * bool :=
  if bool_decide (quality = ""%string) || bool_decide (quality = "original"%string) then ("original"%string, true)
  else if bool_decide (quality = "thumbnail"%string) then ("thumbnail"%string, true)
  else if bool_decide (quality = "video"%string) then ("video"%string, true)
  else (quality, false).

(** [agent/internal/transfer/manager.go:1409-1418] normalizePreviewQuality *)
Definition normalizePreviewQuality (quality : string) : string * bool :=
  if bool_decide (quality = ""%string) || bool_decide (quality = "preview"%string) then ("preview"%string, true)
  else if bool_decide (quality = "video"%string) then ("video"%string, true)
  else (quality, false).

(** * Numbers as text (strconv) *)

(** [agent/internal/transfer/manager.go:1510-1512] operationIDString *)
Definition operationIDString (operation : Z) : string := pretty (Z.to_N operation).
Definition FormatInt (n : Z) : string := pretty n.

(** * Paths *)

(** [strings.Replace(s, old, new, 1)] for a non-empty [old]. *)
Fixpoint replace_first (old new s : string) : string :=
  if has_prefix old s then new ++ str_drop (String.length old) s
  else match s with EmptyString => EmptyString | String c s' => String c (replace_first old new s') end.

(** [agent/internal/transfer/manager.go:1347-1355] resolveRequestPath *)
Definition resolveRequestPath (dir : string) (fileInfo : FileInfo) : string :=
  if bool_decide (fi_RequestPath fileInfo = ""%string) then ""%string
  else if bool_decide (dir = ""%string) then fi_RequestPath fileInfo
  else path_Join dir (fi_RequestPath fileInfo).

(** * The manager *)

(** A context: the cancel flags of itself and its ancestors; [context.Background()] is [[]]. *)
Abbreviation context := (list nat).

(** Of [Manager], the media lifecycle under [mediaMu], ... *)
Record Media := mkMedia {
  mediaTransfer : bool; mediaCancel : option nat; mediaID : string; mediaQuality : string;
  mediaOperation : Z; currentGeneration : Z }.
(** ... the bulk lifecycle under [bulkMu], ... *)
Record Bulk := mkBulk { bulkTransfer : bool; bulkOperation : Z }.
(** ... and the gallery's under [galleryMu]. *)
Record Thumbs := mkThumbs {
  galleryItems : list GalleryItem; galleryGeneration : Z; galleryContext : context;
  galleryCancel : option nat; thumbMode : thumbnailMode; thumbnailBatchActive : bool;
  thumbnailBatchRequestID : string; thumbnailSeenRequestIDs : gset string;
  thumbnailFallback : option nat }.

(** The fields that change; the others are the parameters of the handlers.
    [agent/internal/transfer/manager.go:103-141] Manager *)
Record Manager := mkManager {
  operationSequence : Z; downloads : Z; media : Media; bulk : Bulk; albumBatch : option nat; thumbs : Thumbs }.

(** What is set once: which backends there are, the limit, the callbacks. *)
Record Setup := mkSetup {
  has_client : bool; has_gallery : bool; has_album : bool; maxDownloads : Z;
  thumbnailGrace : Z; has_onExpired : bool; has_onDownload : bool }.

Definition new_state : Manager :=
  mkManager 0 0 (mkMedia false None "" "" 0 0) (mkBulk false 0) None
    (mkThumbs [] 0 [] None thumbnailModeWaiting false "" ∅ None).

(** [agent/internal/transfer/manager.go:155-165] NewManager *)
Definition NewManager (maxDownloads : Z) : Setup * Manager :=
  (mkSetup true false false maxDownloads defaultThumbnailGrace false false, new_state).
(** [agent/internal/transfer/manager.go:167-177] NewGalleryManager *)
Definition NewGalleryManager (album : bool) (maxDownloads : Z) : Setup * Manager :=
  (mkSetup false true album maxDownloads defaultThumbnailGrace false false, new_state).

(** * The backends *)

(** What a streaming call writes to its writer, in order, and its error. *)
Abbreviation stream := (list bytes * option string)%type.

(** [agent/internal/transfer/manager.go:52-70] StorageBackend *)
Class Backend := {
  backend : Type;
  ListFiles : string -> backend -> result (list FileInfo) string;
  GetFile : string -> backend -> stream;
  GetSHA1 : string -> backend -> string;
  ListGallery : backend -> result Gallery string;
  GetThumbnail : string -> backend -> stream;
  GetAsset : string -> string -> backend -> stream;
  (** name, size and type come with or without an error *)
  GetAssetInfo : string -> backend -> (string * Z * string) * option string;
  HeadVideoPlayback : string -> backend -> result Z string;
  GetAssetRange : string -> string -> Z -> backend -> stream;
  GetAlbumDownload : backend -> result AlbumDownload string;
  StreamAlbumArchive : list string -> backend -> stream }.

(** What a pipe is made to stream. *)
Inductive source :=
| SrcFile (path : string)
| SrcThumbnail (id : string)
| SrcAsset (id quality : string)
| SrcRange (id quality : string) (offset : Z)
| SrcArchive (assetIDs : list string).

(** The call that streams it. *)
Definition source_stream `{Backend} (s : source) : backend -> stream :=
  match s with
  | SrcFile path => GetFile path
  | SrcThumbnail id => GetThumbnail id
  | SrcAsset id quality => GetAsset id quality
  | SrcRange id quality offset => GetAssetRange id quality offset
  | SrcArchive ids => StreamAlbumArchive ids
  end.

(** * The world *)

(** An [io.Pipe]: what the writer offers and the reader has not taken yet, the
    error it was closed with ([Some None] is EOF), and whether the reader
    closed it.  For the statements it also keeps what it streams, and all
    bytes offered and taken so far. *)
Record pipe := mkPipe {
  p_src : source; p_hist : bytes; p_read : bytes;
  p_offer : option bytes; p_wclosed : option (option string); p_rclosed : bool }.
(** [time.AfterFunc]'s timer. *)
Record timer := mkTimer { t_deadline : Z; t_stopped : bool }.
(** [agent/internal/transfer/manager.go:143-146] albumBatch *)
Record batch := mkBatch { b_requestID : string; b_ack : option albumArchiveAck }.
(** The channels of one run of [sendGalleryThumbnails]: the job offered, the
    channel of jobs closed, the results and their capacity, the workers not yet
    done, the channel of results closed. *)
Record thumbnailResult := mkResult { tr_index : Z; tr_data : bytes; tr_err : option string }.
Record thumb_run := mkRun {
  r_job : option (Z * GalleryItem); r_jobs_closed : bool; r_results : list thumbnailResult; r_cap : nat;
  r_workers : nat; r_results_closed : bool }.

(** The log: what was sent and which callbacks ran; the last four note the
    operations begun and ended and what they stream, for the statements. *)
Inductive effect : Type :=
| SentText (m : obj)
| SentGallery (mode : string) (g : Gallery)
| SentBinary (class : TrafficClass) (data : bytes)
| SessionExpired
| DownloadComplete (n : Z)
| MediaBegan (operation : Z)
| BulkTaken (operation : Z)
| BulkFreed (operation : Z)
| Streams (operation : Z) (src : source).

Section state.
Context `{Backend}.

Record World := mkWorld {
  w_mgr : Manager; w_ctxs : list bool; w_pipes : list pipe; w_timers : list timer; w_batches : list batch;
  w_runs : list thumb_run; w_log : list effect; w_now : Z; w_buffered : Lane -> Z; w_backend : backend }.

Definition set_mgr x w := mkWorld x (w_ctxs w) (w_pipes w) (w_timers w) (w_batches w) (w_runs w) (w_log w) (w_now w) (w_buffered w) (w_backend w).
Definition set_ctxs x w := mkWorld (w_mgr w) x (w_pipes w) (w_timers w) (w_batches w) (w_runs w) (w_log w) (w_now w) (w_buffered w) (w_backend w).
Definition set_pipes x w := mkWorld (w_mgr w) (w_ctxs w) x (w_timers w) (w_batches w) (w_runs w) (w_log w) (w_now w) (w_buffered w) (w_backend w).
Definition set_timers x w := mkWorld (w_mgr w) (w_ctxs w) (w_pipes w) x (w_batches w) (w_runs w) (w_log w) (w_now w) (w_buffered w) (w_backend w).
Definition set_batches x w := mkWorld (w_mgr w) (w_ctxs w) (w_pipes w) (w_timers w) x (w_runs w) (w_log w) (w_now w) (w_buffered w) (w_backend w).
Definition set_runs x w := mkWorld (w_mgr w) (w_ctxs w) (w_pipes w) (w_timers w) (w_batches w) x (w_log w) (w_now w) (w_buffered w) (w_backend w).
Definition add_log e w := mkWorld (w_mgr w) (w_ctxs w) (w_pipes w) (w_timers w) (w_batches w) (w_runs w) (w_log w ++ [e]) (w_now w) (w_buffered w) (w_backend w).

Definition set_media x (m : Manager) := mkManager (operationSequence m) (downloads m) x (bulk m) (albumBatch m) (thumbs m).
Definition set_bulk x (m : Manager) := mkManager (operationSequence m) (downloads m) (media m) x (albumBatch m) (thumbs m).
Definition set_thumbs x (m : Manager) := mkManager (operationSequence m) (downloads m) (media m) (bulk m) (albumBatch m) x.
Definition set_batch x (m : Manager) := mkManager (operationSequence m) (downloads m) (media m) (bulk m) x (thumbs m).
Definition set_downloads x (m : Manager) := mkManager (operationSequence m) x (media m) (bulk m) (albumBatch m) (thumbs m).
Definition set_sequence x (m : Manager) := mkManager x (downloads m) (media m) (bulk m) (albumBatch m) (thumbs m).

Abbreviation handler := (proc World).

Definition mgr_get {A} (f : Manager -> A) : handler A := reads (fun w => f (w_mgr w)).
Definition mgr_do (f : Manager -> Manager) : handler unit := modifies (fun w => set_mgr (f (w_mgr w)) w).
Definition backend_get {A} (f : backend -> A) : handler A := reads (fun w => f (w_backend w)).
Definition get_now : handler Z := reads w_now.

(** ** Sends: taken, or failed *)

Definition send_outcomes (e : effect) (w : World) : list (bool * World) := [(true, add_log e w); (false, w)].
Definition send_text (m : obj) : handler bool := choices (send_outcomes (SentText m)).
(** A send inside a critical section, under a condition. *)
Definition send_if (p : World -> bool) (e : effect) : handler bool :=
  choices (fun w => if p w then send_outcomes e w else [(false, w)]).

(** ** Contexts *)

Definition ctx_done (c : context) (w : World) : bool := existsb (fun i => default false (w_ctxs w !! i)) c.
Definition with_cancel (parent : context) (w : World) : context * World :=
  (length (w_ctxs w) :: parent, set_ctxs (w_ctxs w ++ [false]) w).
Definition cancel (i : nat) (w : World) : World := set_ctxs (<[i := true]> (w_ctxs w)) w.
Definition cancel_opt (i : option nat) (w : World) : World := match i with Some i => cancel i w | None => w end.

(** ** Pipes *)

Definition pipe_new (src : source) : handler nat :=
  atomic (fun w => (length (w_pipes w), set_pipes (w_pipes w ++ [mkPipe src [] [] None None false]) w)).
Definition get_pipe (i : nat) (w : World) : pipe :=
  default (mkPipe (SrcFile "") [] [] None (Some (Some ""%string)) true) (w_pipes w !! i).
Definition put_pipe (i : nat) (p : pipe) (w : World) : World := set_pipes (<[i := p]> (w_pipes w)) w.

(** [pw.Write(b)]: offers [b], and returns when all of it is read; [false] when
    the reader closed. *)
Definition pipe_write (i : nat) (b : bytes) : handler bool :=
  ok ← choices (fun w =>
    let p := get_pipe i w in
    if p_rclosed p then [(false, w)]
    else match p_offer p with
         | None => [(true, put_pipe i (mkPipe (p_src p) (p_hist p ++ b) (p_read p) (Some b) (p_wclosed p) false) w)]
         | Some _ => []
         end);
  if (ok : bool) then
    choices (fun w =>
      let p := get_pipe i w in
      if p_rclosed p then [(false, w)] else match p_offer p with None => [(true, w)] | Some _ => [] end)
  else mret false.

(** [pw.CloseWithError(err)]; the first error stays. *)
Definition pipe_close_write (i : nat) (e : option string) : handler unit :=
  modifies (fun w => let p := get_pipe i w in
    put_pipe i (mkPipe (p_src p) (p_hist p) (p_read p) (p_offer p) (match p_wclosed p with Some c => Some c | None => Some e end) (p_rclosed p)) w).
(** [pr.Close()]. *)
Definition pipe_close_read (i : nat) : handler unit :=
  modifies (fun w => let p := get_pipe i w in put_pipe i (mkPipe (p_src p) (p_hist p) (p_read p) (p_offer p) (p_wclosed p) true) w).

(** A read: some bytes, or the error ([None] is EOF). *)
Inductive read_result := RData (b : bytes) | REnd (e : option string).

(** [pr.Read(buf)] with a buffer of [n] bytes. *)
Definition pipe_read (i : nat) (n : Z) : handler read_result :=
  choices (fun w =>
    let p := get_pipe i w in
    if p_rclosed p then [(REnd (Some "io: read/write on closed pipe"%string), w)]
    else match p_offer p with
         | Some b =>
             let rest := drop (Z.to_nat n) b in
             [(RData (take (Z.to_nat n) b),
               put_pipe i (mkPipe (p_src p) (p_hist p) (p_read p ++ take (Z.to_nat n) b)
                            (if bool_decide (rest = []) then None else Some rest) (p_wclosed p) false) w)]
         | None => match p_wclosed p with Some e => [(REnd e, w)] | None => [] end
         end).

(** The goroutine of a streaming call: it writes the backend's chunks, stops
    when the reader is gone or its context is cancelled, and closes the pipe. *)
Fixpoint write_chunks (ctx : context) (i : nat) (chunks : list bytes) (e : option string) : handler unit :=
  match chunks with
  | [] => pipe_close_write i e
  | b :: chunks' =>
      go ← choices (fun w => (true, w) :: if ctx_done ctx w then [(false, w)] else []);
      if (go : bool) then
        ok ← pipe_write i b;
        if (ok : bool) then write_chunks ctx i chunks' e
        else pipe_close_write i (Some "io: read/write on closed pipe"%string)
      else pipe_close_write i (Some "context canceled"%string)
  end.
Definition run_stream (ctx : context) (i : nat) (src : source) : handler unit :=
  s ← backend_get (source_stream src); write_chunks ctx i s.1 s.2.

(** ** Timers *)

(** [time.AfterFunc(d, f)]'s goroutine. *)
Definition timer_wait (t : nat) : handler bool :=
  choices (fun w => match w_timers w !! t with
                    | Some tm => if t_stopped tm then [(false, w)]
                                 else if t_deadline tm <=? w_now w then [(true, w)] else []
                    | None => [(false, w)]
                    end).
Definition timer_stop (t : option nat) (w : World) : World :=
  match t with
  | Some i => set_timers (alter (fun tm => mkTimer (t_deadline tm) true) i (w_timers w)) w
  | None => w
  end.
End state.

Arguments World {_}.
