(* ===== verification/Transfer.v ===== *)
(** The agent's file transfers, their operations
    (agent/internal/transfer/manager.go): the message handlers and the
    goroutines they start, over the state of TransferState.v. *)

From Stdlib Require Import Ascii.
From stdpp Require Import sorting.
From S2P Require Import Prelude GoText Lanes Conc Json TransferState.
#[local] Open Scope Z_scope.

(** * Messages *)

Definition omit_empty (k v : string) : obj := if bool_decide (v = ""%string) then [] else [(k, JStr v)].
Definition typed (t : string) (rest : obj) : obj := ("type"%string, JStr t) :: rest.

(** [agent/internal/transfer/manager.go:1614-1628] sendError *)
Definition error_obj (scope requestID message : string) : obj :=
  typed "error" (("scope"%string, JStr scope) :: omit_empty "request_id" requestID ++ [("message"%string, JStr message)]).
(** [agent/internal/transfer/manager.go:1597-1609] sendOperationError *)
Definition operation_error_obj (scope requestID : string) (operation : Z) (message : string) : obj :=
  typed "error" (("scope"%string, JStr scope) :: omit_empty "request_id" requestID
    ++ [("operation_id"%string, JStr (operationIDString operation)); ("message"%string, JStr message)]).

(** The header of a bulk transfer.
    [agent/internal/transfer/manager.go:842-862] handleFileRequest *)
Definition file_header (name : string) (size : Z) (mime sha1 requestID : string) (operation : Z) : obj :=
  typed "file_header"
    ([("name"%string, JStr name); ("size"%string, JNum size); ("mimeType"%string, JStr mime)] ++ omit_empty "sha1" sha1
     ++ [("binary_envelope"%string, JBool true); ("scope"%string, JStr "bulk")] ++ omit_empty "request_id" requestID
     ++ [("operation_id"%string, JStr (operationIDString operation))]).

(** [agent/internal/transfer/manager.go:1093-1099] streamFile *)
Definition chunk_end (requestID : string) (operation total : Z) : obj :=
  typed "chunk_end"
    (("scope"%string, JStr "bulk") :: omit_empty "request_id" requestID
     ++ [("operation_id"%string, JStr (operationIDString operation)); ("bytes_sent"%string, JStr (FormatInt total))]).

(** Of an album's archive, where the request id is always there.
    [agent/internal/transfer/manager.go:376-382] streamAlbumDownload *)
Definition archive_end (requestID : string) (operation total : Z) : obj :=
  typed "chunk_end"
    [("scope"%string, JStr "bulk"); ("request_id"%string, JStr requestID);
     ("operation_id"%string, JStr (operationIDString operation)); ("bytes_sent"%string, JStr (FormatInt total))].

(** [agent/internal/transfer/manager.go:346-364] streamAlbumDownload *)
Definition archive_header (name requestID : string) (estimated operation partIndex partCount : Z) : obj :=
  typed "file_header"
    [("name"%string, JStr name); ("size"%string, JNum 0); ("estimated_size"%string, JNum estimated);
     ("mimeType"%string, JStr "application/zip"); ("binary_envelope"%string, JBool true); ("scope"%string, JStr "bulk");
     ("request_id"%string, JStr requestID); ("operation_id"%string, JStr (operationIDString operation));
     ("batch_id"%string, JStr requestID); ("part_index"%string, JNum partIndex); ("part_count"%string, JNum partCount)].

(** [agent/internal/transfer/manager.go:412-417] streamAlbumDownload *)
Definition album_complete (requestID : string) (partCount total : Z) : obj :=
  typed "album_download_complete"
    [("batch_id"%string, JStr requestID); ("part_count"%string, JNum partCount); ("bytes_sent"%string, JStr (FormatInt total))].

(** With [None] for a still image, whose header has no generation and offset.
    [agent/internal/transfer/manager.go:992-1014] handleAssetPreviewRequest *)
Definition preview_header (id mime : string) (size : Z) (video : option (Z * Z)) (requestID : string) (operation : Z) : obj :=
  typed "asset_preview_header"
    ([("id"%string, JStr id); ("mimeType"%string, JStr mime); ("size"%string, JNum size); ("binary_envelope"%string, JBool true)]
     ++ match video with
        | Some (generation, offset) => [("generation"%string, JNum generation); ("byte_offset"%string, JNum offset)]
        | None => []
        end
     ++ [("scope"%string, JStr "media")] ++ omit_empty "request_id" requestID
     ++ [("operation_id"%string, JStr (operationIDString operation))]).

(** [agent/internal/transfer/manager.go:1333-1341] streamAssetPreviewFromReader *)
Definition preview_end (id : string) (generation : Z) (requestID : string) (operation total : Z) : obj :=
  typed "asset_preview_end"
    ([("id"%string, JStr id); ("generation"%string, JNum generation); ("scope"%string, JStr "media")]
     ++ omit_empty "request_id" requestID
     ++ [("operation_id"%string, JStr (operationIDString operation)); ("bytes_sent"%string, JStr (FormatInt total))]).

Definition list_int (k : string) (l : list Z) : obj := match l with [] => [] | _ => [(k, JArr (map JNum l))] end.
(** [agent/internal/transfer/manager.go:597-605] sendThumbnailBatch *)
Definition batch_complete (requestID : string) (start count sent failed : Z) (indices : list Z) : obj :=
  typed "thumbnail_batch_complete"
    (omit_empty "request_id" requestID
     ++ [("start"%string, JNum start); ("count"%string, JNum count); ("sent"%string, JNum sent); ("failed"%string, JNum failed)]
     ++ list_int "failed_indices" indices).
(** [agent/internal/transfer/manager.go:527-532] startLegacyThumbnailFallback *)
Definition legacy_complete (sent failed : Z) (indices : list Z) : obj :=
  typed "thumbnail_complete"
    ([("sent"%string, JNum sent); ("failed"%string, JNum failed)] ++ list_int "failed_indices" indices).

(** [agent/internal/cloudwebdav/client.go:38-45] FileInfo *)
Definition file_json (f : FileInfo) : json :=
  JObj [("name"%string, JStr (fi_Name f)); ("size"%string, JNum (fi_Size f)); ("mimeType"%string, JStr (fi_ContentType f));
        ("isDir"%string, JBool (fi_IsDir f))].
(** [agent/internal/transfer/manager.go:762-768] handleListRequest *)
Definition file_list (fs : list FileInfo) : obj := typed "file_list" [("files"%string, JArr (map file_json fs))].

(** [agent/internal/transfer/manager.go:448-455] albumArchiveName *)
Definition albumArchiveName (stamp : Z -> string) (albumName : string) (partIndex partCount now : Z) : string :=
  let base := (albumName ++ ".zip")%string in
  let suffix := if 1 <? partCount then ("+" ++ FormatInt partIndex)%string else ""%string in
  replace_first ".zip" (suffix ++ "-" ++ stamp now ++ ".zip")%string base.

Section manager.
Context `{Backend} (cfg : Setup).
(** [now.Format("20060102_150405")]. *)
Context (stamp : Z -> string).
Abbreviation handler := (proc World).

Definition sendError (scope requestID message : string) : handler unit :=
  _ ← send_text (error_obj scope requestID message); mret tt.

(** * Operation ids and lifecycles *)

(** [m.operationSequence.Add(1)], again when it comes to zero.
    [agent/internal/transfer/manager.go:1502-1508] nextOperationID *)
Definition nextOperationID (m : Manager) : Z * Manager :=
  let n := wrap 64 (operationSequence m + 1) in
  let n := if n =? 0 then 1 else n in
  (n, set_sequence n m).

(** The error message is sent inside the critical section.
    [agent/internal/transfer/manager.go:1420-1433] acquireBulk *)
Definition acquireBulk (requestID : string) : handler (option Z) :=
  choices (fun w =>
    if bulkTransfer (bulk (w_mgr w))
    then (fun r => (None, snd r)) <$> send_outcomes (SentText (error_obj "bulk" requestID "transfer in progress")) w
    else let '(operation, m) := nextOperationID (w_mgr w) in
         [(Some operation, add_log (BulkTaken operation) (set_mgr (set_bulk (mkBulk true operation) m) w))]).

(** [agent/internal/transfer/manager.go:1435-1442] releaseBulk *)
Definition releaseBulk (operation : Z) : handler unit :=
  modifies (fun w =>
    if bulkOperation (bulk (w_mgr w)) =? operation
    then add_log (BulkFreed operation) (set_mgr (set_bulk (mkBulk false 0) (w_mgr w)) w) else w).

(** [agent/internal/transfer/manager.go:1444-1453] advanceBulkOperation *)
Definition advanceBulkOperation (current : Z) : handler (option Z) :=
  atomic (fun w =>
    if negb (bulkTransfer (bulk (w_mgr w))) || negb (bulkOperation (bulk (w_mgr w)) =? current) then (None, w)
    else let '(next, m) := nextOperationID (w_mgr w) in
         (Some next, add_log (BulkTaken next) (set_mgr (set_bulk (mkBulk (bulkTransfer (bulk m)) next) m) w))).

(** [agent/internal/transfer/manager.go:1487-1500] beginMediaLocked *)
Definition beginMediaLocked (id quality : string) (generation : Z) (w : World) : (context * Z) * World :=
  let w := cancel_opt (mediaCancel (media (w_mgr w))) w in
  let '(ctx, w) := with_cancel [] w in
  let '(operation, m) := nextOperationID (w_mgr w) in
  ((ctx, operation),
   add_log (MediaBegan operation) (set_mgr (set_media (mkMedia true (head ctx) id quality operation generation) m) w)).

(** [agent/internal/transfer/manager.go:1464-1469] beginMedia *)
Definition beginMedia (id quality : string) (generation : Z) : handler (context * Z) :=
  atomic (beginMediaLocked id quality generation).

(** [agent/internal/transfer/manager.go:1471-1479] beginMediaIfNewer *)
Definition beginMediaIfNewer (parentOperation : Z) (id quality : string) (generation : Z)
    : handler (option (context * Z)) :=
  atomic (fun w =>
    let m := media (w_mgr w) in
    if negb (mediaOperation m =? parentOperation) || negb (bool_decide (mediaID m = id))
       || negb (bool_decide (mediaQuality m = "video"%string)) || negb (bool_decide (quality = "video"%string))
       || (generation <=? currentGeneration m)
    then (None, w)
    else let '(r, w) := beginMediaLocked id quality generation w in (Some r, w)).

(** [agent/internal/transfer/manager.go:1481-1485] isCurrentMediaOperation *)
Definition isCurrentMediaOperation (operation : Z) (id quality : string) : handler bool :=
  mgr_get (fun m => negb (operation =? 0) && (mediaOperation (media m) =? operation)
                    && bool_decide (mediaID (media m) = id) && bool_decide (mediaQuality (media m) = quality)).

(** [agent/internal/transfer/manager.go:1514-1524] finishMedia *)
Definition finishMedia (operation : Z) : handler unit :=
  modifies (fun w =>
    let m := media (w_mgr w) in
    if mediaOperation m =? operation
    then let w := cancel_opt (mediaCancel m) w in
         set_mgr (set_media (mkMedia false None (mediaID m) (mediaQuality m) (mediaOperation m) (currentGeneration m)) (w_mgr w)) w
    else w).

(** [agent/internal/transfer/manager.go:1455-1462] finishAlbumBatch *)
Definition finishAlbumBatch (b : nat) (operationID : Z) : handler unit :=
  _ ← mgr_do (fun m => if bool_decide (albumBatch m = Some b) then set_batch None m else m);
  releaseBulk operationID.

(** * Sending *)

(** Waiting for room: [true], or [false] when the context is done.
    [agent/internal/transfer/manager.go:1527-1533] sendWithBackpressure *)
Definition wait_room (ctx : context) (lane : Lane) : handler bool :=
  Iter tt (fun _ =>
    b ← reads (fun w => w_buffered w lane);
    if maxBuffer <? b
    then choices (fun w => (inl tt, w) :: if ctx_done ctx w then [(inr false, w)] else [])
    else mret (inr true)) Done.

(** [agent/internal/transfer/manager.go:1526-1538] sendWithBackpressure *)
Definition sendWithBackpressure (ctx : context) (lane : Lane) (class : TrafficClass) (data : bytes) : handler bool :=
  room ← wait_room ctx lane;
  if negb room then mret false
  else
    done ← reads (ctx_done ctx);
    if (done : bool) then mret false else choices (send_outcomes (SentBinary class data)).

(** The check and the send are one critical section.
    [agent/internal/transfer/manager.go:1540-1561] sendInteractiveMedia *)
Definition sendInteractiveMedia (ctx : context) (operation : Z) (data : bytes) : handler bool :=
  room ← wait_room ctx LaneMedia;
  if negb room then mret false
  else send_if (fun w => negb (ctx_done ctx w) && (mediaOperation (media (w_mgr w)) =? operation))
         (SentBinary ClassInteractiveMedia data).

(** [agent/internal/transfer/manager.go:1563-1573] sendMediaControlIfCurrent *)
Definition sendMediaControlIfCurrent (operation : Z) (text : obj) : handler bool :=
  send_if (fun w => mediaOperation (media (w_mgr w)) =? operation) (SentText text).

(** [agent/internal/transfer/manager.go:1575-1582] sendMediaErrorIfActive *)
Definition sendMediaErrorIfActive (operation : Z) (requestID message : string) : handler unit :=
  _ ← send_if (fun w => (mediaOperation (media (w_mgr w)) =? operation) && negb (operation =? 0))
        (SentText (operation_error_obj "media" requestID operation message));
  mret tt.

(** [agent/internal/transfer/manager.go:1584-1591] sendBulkErrorIfActive *)
Definition sendBulkErrorIfActive (operation : Z) (requestID message : string) : handler unit :=
  _ ← send_if (fun w => (bulkOperation (bulk (w_mgr w)) =? operation) && bulkTransfer (bulk (w_mgr w))
                        && negb (operation =? 0))
        (SentText (operation_error_obj "bulk" requestID operation message));
  mret tt.

(** [agent/internal/transfer/manager.go:722-740] sendThumbnailWithBackpressure *)
Definition sendThumbnailWithBackpressure (ctx : context) (generation : Z) (data : bytes) : handler bool :=
  room ← wait_room ctx LaneMedia;
  if negb room then mret false
  else send_if (fun w => negb (ctx_done ctx w) && (galleryGeneration (thumbs (w_mgr w)) =? generation))
         (SentBinary ClassThumbnail data).

(** * Bulk transfers *)

Definition int32 (z : Z) : Z := (z + 2 ^ 31) mod 2 ^ 32 - 2 ^ 31.

Definition limit_reached (m : Manager) : bool := (0 <? maxDownloads cfg) && (maxDownloads cfg <=? downloads m).

(** The refusal of a share that has been downloaded often enough.
    [agent/internal/transfer/manager.go:779-785] handleFileRequest *)
Definition refuse_limit (requestID : string) : handler unit :=
  _ ← sendError "bulk" requestID "share has reached its download limit";
  if has_onExpired cfg then modifies (add_log SessionExpired) else mret tt.

(** [agent/internal/transfer/manager.go:1105-1108] streamFile *)
Definition count_download (total : Z) : handler unit :=
  _ ← mgr_do (fun m => set_downloads (int32 (downloads m + 1)) m);
  if has_onDownload cfg then modifies (add_log (DownloadComplete total)) else mret tt.

(** How the copying of a stream ended. *)
Inductive stream_end := StreamEOF | StreamError (e : string) | SendFailed.

(** Copying a pipe to the bulk lane: the bytes read, and how it ended; a
    transfer stays far below 2^63 bytes.
    [agent/internal/transfer/manager.go:1069-1087] streamFile *)
Definition copy_bulk (ctx : context) (p : nat) (operation : Z) : handler (Z * stream_end) :=
  Iter 0 (fun total =>
    r ← pipe_read p chunkSize;
    match r with
    | RData b =>
        if 0 <? len b then
          ok ← sendWithBackpressure ctx LaneBulk ClassBulk (encodeChunkFrame operation 0 b);
          mret (if (ok : bool) then inl (total + len b) else inr (total + len b, SendFailed))
        else mret (inl total)
    | REnd None => mret (inr (total, StreamEOF))
    | REnd (Some e) => mret (inr (total, StreamError e))
    end) Done.

(** [agent/internal/transfer/manager.go:1080-1108] streamFile *)
Definition finish_bulk (requestID : string) (operation total : Z) (e : stream_end) : handler unit :=
  match e with
  | SendFailed => mret tt
  | StreamError e => sendBulkErrorIfActive operation requestID ("transfer failed: " ++ e)
  | StreamEOF =>
      ok ← send_text (chunk_end requestID operation total);
      if (ok : bool) then count_download total else mret tt
  end.

Definition stream_bulk (src : source) (requestID : string) (operation : Z) : handler unit :=
  with_defer (releaseBulk operation) (
    _ ← modifies (add_log (Streams operation src));
    p ← pipe_new src;
    with_defer (pipe_close_read p) (
      _ ← Spawn (run_stream [] p src) (mret tt);
      '(total, e) ← copy_bulk [] p operation;
      finish_bulk requestID operation total e)).

(** [agent/internal/transfer/manager.go:1058-1109] streamFile *)
Definition streamFile (filePath requestID : string) (operation : Z) : handler unit :=
  stream_bulk (SrcFile filePath) requestID operation.

(** [agent/internal/transfer/manager.go:1111-1167] streamAsset *)
Definition streamAsset (id quality requestID : string) (operation : Z) : handler unit :=
  stream_bulk (if bool_decide (quality = "thumbnail"%string) then SrcThumbnail id else SrcAsset id quality)
    requestID operation.

(** A refusal after the bulk lane was acquired. *)
Definition abandon (operation : Z) (requestID message : string) : handler unit :=
  _ ← sendBulkErrorIfActive operation requestID message; releaseBulk operation.

(** The header of a transfer, then its goroutine; without the header, nothing. *)
Definition start_bulk (operation : Z) (header : obj) (go : handler unit) : handler unit :=
  ok ← send_text header;
  if (ok : bool) then Spawn go (mret tt) else releaseBulk operation.

(** [agent/internal/transfer/manager.go:778-870] handleFileRequest *)
Definition handleFileRequest (filePath requestID : string) : handler unit :=
  full ← mgr_get limit_reached;
  if (full : bool) then refuse_limit requestID
  else if contains ".." filePath then sendError "bulk" requestID "invalid path"
  else if bool_decide (filePath = ""%string) then sendError "bulk" requestID "file path required"
  else
    o ← acquireBulk requestID;
    match o with
    | None => mret tt
    | Some operation =>
        let dir := path_Dir filePath in
        let name := path_Base filePath in
        let dir := if bool_decide (dir = "."%string) then ""%string else dir in
        if negb (has_client cfg) then abandon operation requestID "share unavailable: client not initialized"
        else
          fs ← backend_get (ListFiles dir);
          match fs with
          | Err _ => abandon operation requestID "share unavailable"
          | Ok files =>
              match head (filter (fun f => fi_Name f = name) files) with
              | None => abandon operation requestID ("file not found: " ++ name)
              | Some fileInfo =>
                  sha1 ← (if bool_decide (fi_SHA1 fileInfo = ""%string) then backend_get (GetSHA1 filePath)
                          else mret (fi_SHA1 fileInfo));
                  start_bulk operation
                    (file_header (fi_Name fileInfo) (fi_Size fileInfo) (fi_ContentType fileInfo) sha1 requestID operation)
                    (streamFile (resolveRequestPath dir fileInfo) requestID operation)
              end
          end
    end.

(** [agent/internal/transfer/manager.go:872-941] handleAssetRequest *)
Definition handleAssetRequest (id quality requestID : string) : handler unit :=
  full ← mgr_get limit_reached;
  if (full : bool) then refuse_limit requestID
  else if bool_decide (id = ""%string) then sendError "bulk" requestID "asset id required"
  else
    let '(quality, ok) := normalizeAssetQuality quality in
    if negb ok then sendError "bulk" requestID ("unsupported asset quality: " ++ quality)
    else
      o ← acquireBulk requestID;
      match o with
      | None => mret tt
      | Some operation =>
          if negb (has_gallery cfg) then abandon operation requestID "share unavailable: client not initialized"
          else
            info ← backend_get (GetAssetInfo id);
            match info with
            | (_, Some e) => abandon operation requestID ("asset info unavailable: " ++ e)
            | (name, size, mime, None) =>
                start_bulk operation (file_header name size mime "" requestID operation)
                  (streamAsset id quality requestID operation)
            end
      end.

(** [agent/internal/transfer/manager.go:742-776] handleListRequest *)
Definition handleListRequest (subpath requestID : string) : handler unit :=
  full ← mgr_get limit_reached;
  if (full : bool) then refuse_limit requestID
  else if negb (has_client cfg) then sendError "connection" requestID "share unavailable: client not initialized"
  else
    fs ← backend_get (ListFiles subpath);
    match fs with
    | Err e => sendError "connection" requestID ("share unavailable: " ++ e)
    | Ok files => _ ← send_text (file_list files); mret tt
    end.

(** * Albums: one archive after the other, each acknowledged *)

(** The text of a failed send's error. *)
Context (send_error : string).

(** The bytes sent and the error.
    [agent/internal/transfer/manager.go:421-446] streamAlbumArchive *)
Definition streamAlbumArchive (ctx : context) (assetIDs : list string) (operation : Z) : handler (Z * option string) :=
  _ ← modifies (add_log (Streams operation (SrcArchive assetIDs)));
  p ← pipe_new (SrcArchive assetIDs);
  with_defer (pipe_close_read p) (
    _ ← Spawn (run_stream ctx p (SrcArchive assetIDs)) (mret tt);
    '(total, e) ← copy_bulk ctx p operation;
    match e with
    | StreamEOF => mret (total, None)
    | StreamError e => mret (total, Some e)
    | SendFailed => _ ← pipe_close_read p; mret (total, Some send_error)
    end).

Inductive ack_wait := AckGot (a : albumArchiveAck) | AckTimeout | AckCancelled.

(** [agent/internal/transfer/manager.go:387-402] streamAlbumDownload *)
Definition wait_ack (ctx : context) (b : nat) : handler ack_wait :=
  t0 ← get_now;
  choices (fun w =>
    match w_batches w !! b with
    | Some (mkBatch id (Some a)) => [(AckGot a, set_batches (<[b := mkBatch id None]> (w_batches w)) w)]
    | _ => []
    end ++ (if t0 + albumAckTimeout <=? w_now w then [(AckTimeout, w)] else [])
    ++ (if ctx_done ctx w then [(AckCancelled, w)] else [])).

(** The archives from [index] on: the operation the last one ran under, and the
    bytes of all when every one was acknowledged.
    [agent/internal/transfer/manager.go:336-406] streamAlbumDownload *)
Fixpoint album_parts (ctx : context) (b : nat) (requestID name : string) (count index : Z)
    (parts : list AlbumArchive) (current total : Z) : handler (Z * option Z) :=
  match parts with
  | [] => mret (current, Some total)
  | archive :: rest =>
      next ← (if 0 <? index then advanceBulkOperation current else mret (Some current));
      match next with
      | None => mret (current, None)
      | Some current =>
          let partIndex := index + 1 in
          now ← get_now;
          ok ← send_text (archive_header (albumArchiveName stamp name partIndex count now) requestID
                            (EstimatedSize archive) current partIndex count);
          if negb ok then mret (current, None)
          else
            r ← streamAlbumArchive ctx (AssetIDs archive) current;
            match r with
            | (_, Some e) =>
                _ ← sendBulkErrorIfActive current requestID ("album archive transfer failed: " ++ e);
                mret (current, None)
            | (partBytes, None) =>
                ok ← send_text (archive_end requestID current partBytes);
                if negb ok then mret (current, None)
                else
                  a ← wait_ack ctx b;
                  match a with
                  | AckTimeout =>
                      _ ← sendBulkErrorIfActive current requestID "album download acknowledgement timed out";
                      mret (current, None)
                  | AckCancelled => mret (current, None)
                  | AckGot a =>
                      if negb (ack_ok a) || negb (ack_partIndex a =? partIndex) || negb (ack_operationID a =? current)
                      then mret (current, None)
                      else album_parts ctx b requestID name count (index + 1) rest current (total + partBytes)
                  end
            end
      end
  end.

(** [agent/internal/transfer/manager.go:328-419] streamAlbumDownload *)
Definition streamAlbumDownload (ctx : context) (b : nat) (requestID : string) (operation : Z) (d : AlbumDownload)
    : handler unit :=
  let count := len (Archives d) in
  '(current, total) ← (
    if count =? 0 then
      _ ← sendBulkErrorIfActive operation requestID "album contains no downloadable assets"; mret (operation, None)
    else album_parts ctx b requestID (AlbumName d) count 0 (Archives d) operation 0);
  _ ← match total with
      | None => mret tt
      | Some total =>
          _ ← count_download total;
          _ ← send_text (album_complete requestID count total); mret tt
      end;
  finishAlbumBatch b current.

(** [agent/internal/transfer/manager.go:273-308] handleAlbumDownloadRequest *)
Definition handleAlbumDownloadRequest (requestID : string) : handler unit :=
  full ← mgr_get limit_reached;
  if (full : bool) then refuse_limit requestID
  else if bool_decide (requestID = ""%string) then sendError "bulk" requestID "album download request_id required"
  else if negb (has_album cfg) then sendError "bulk" requestID "album download unavailable"
  else
    o ← acquireBulk requestID;
    match o with
    | None => mret tt
    | Some operation =>
        b ← atomic (fun w => (length (w_batches w), set_batches (w_batches w ++ [mkBatch requestID None]) w));
        _ ← mgr_do (set_batch (Some b));
        Spawn (
          d ← backend_get GetAlbumDownload;
          match d with
          | Err e =>
              _ ← sendBulkErrorIfActive operation requestID ("album download unavailable: " ++ e);
              finishAlbumBatch b operation
          | Ok d => streamAlbumDownload [] b requestID operation d
          end) (mret tt)
    end.

(** [agent/internal/transfer/manager.go:310-326] handleAlbumArchiveAck *)
Definition handleAlbumArchiveAck (batchID : string) (partIndex : Z) (rawOperationID : string) (ok : bool) : handler unit :=
  match ParseUint rawOperationID with
  | None => mret tt
  | Some operation =>
      if operation =? 0 then mret tt
      else
        b ← mgr_get albumBatch;
        match b with
        | None => mret tt
        | Some b =>
            modifies (fun w =>
              match w_batches w !! b with
              | Some (mkBatch id None) =>
                  if bool_decide (id = batchID)
                  then set_batches (<[b := mkBatch id (Some (mkAck partIndex operation ok))]> (w_batches w)) w else w
              | _ => w
              end)
        end
  end.

(** * Previews *)

Definition maxUint32 : Z := 2 ^ 32 - 1.

(** The next bytes of [io.MultiReader(first, pr)]. *)
Definition read_multi (first : bytes) (p : nat) (n : Z) : handler (read_result * bytes) :=
  match first with
  | [] => r ← pipe_read p n; mret (r, [])
  | _ => mret (RData (take (Z.to_nat n) first), drop (Z.to_nat n) first)
  end.

(** One turn of the copying of a preview, with the bytes so far and the unread
    first bytes: [None] is an early return.
    [agent/internal/transfer/manager.go:1284-1324] streamAssetPreviewFromReader *)
Definition preview_turn (ctx : context) (p : nat) (generation operation bufSize : Z) (requestID : string)
    (st : Z * bytes) : handler (Z * bytes + option (Z * bool)) :=
  let '(total, first) := st in
  done ← reads (ctx_done ctx);
  if (done : bool) then mret (inr None)
  else
    current ← mgr_get (fun m => currentGeneration (media m));
    if negb (current =? generation) then mret (inr None)
    else
      '(r, first) ← read_multi first p bufSize;
      match r with
      | RData b =>
          if 0 <? len b then
            stale ← reads (fun w => ctx_done ctx w || negb (mediaOperation (media (w_mgr w)) =? operation));
            if (stale : bool) then mret (inr None)
            else
              ok ← sendInteractiveMedia ctx operation (encodeChunkFrame operation generation b);
              mret (if (ok : bool) then inl (total + len b, first) else inr None)
          else mret (inl (total, first))
      | REnd None => mret (inr (Some (total, true)))
      | REnd (Some e) =>
          done ← reads (ctx_done ctx);
          _ ← (if (done : bool) then mret tt else sendMediaErrorIfActive operation requestID ("preview failed: " ++ e));
          mret (inr (Some (total, false)))
      end.

(** [agent/internal/transfer/manager.go:1274-1345] streamAssetPreviewFromReader *)
Definition streamAssetPreviewFromReader (ctx : context) (id : string) (first : bytes) (p : nat) (generation bufSize : Z)
    (operation : Z) (requestID : string) : handler unit :=
  let bufSize := if (bufSize <=? 0) || (chunkSize <? bufSize) then chunkSize else bufSize in
  with_defer (finishMedia operation) (
    r ← Iter (0, first) (preview_turn ctx p generation operation bufSize requestID) Done;
    match r with
    | Some (total, true) =>
        active ← reads (fun w => negb (ctx_done ctx w) && (mediaOperation (media (w_mgr w)) =? operation)
                                 && (currentGeneration (media (w_mgr w)) =? generation));
        if (active : bool)
        then _ ← sendMediaControlIfCurrent operation (preview_end id generation requestID operation total); mret tt
        else mret tt
    | _ => mret tt
    end).

(** [agent/internal/transfer/manager.go:1260-1270] streamAssetPreview *)
Definition streamAssetPreview (ctx : context) (id quality : string) (generation bufSize operation : Z) (requestID : string)
    : handler unit :=
  p ← pipe_new (SrcAsset id quality);
  with_defer (pipe_close_read p) (
    _ ← Spawn (run_stream ctx p (SrcAsset id quality)) (mret tt);
    streamAssetPreviewFromReader ctx id [] p generation bufSize operation requestID).

(** [agent/internal/transfer/manager.go:943-1056] handleAssetPreviewRequest *)
Definition handleAssetPreviewRequest (id quality : string) (generation : Z) (requestID : string) : handler unit :=
  if bool_decide (id = ""%string) then sendError "media" requestID "asset id required"
  else
    let '(quality, ok) := normalizePreviewQuality quality in
    if negb ok then sendError "media" requestID ("unsupported preview quality: " ++ quality)
    else if negb (has_gallery cfg) then sendError "media" requestID "share unavailable: client not initialized"
    else if (generation <? 0) || (maxUint32 <? generation) then sendError "media" requestID "preview generation out of range"
    else
      '(ctx, operation) ← beginMedia id quality generation;
      info ← backend_get (GetAssetInfo id);
      let previewSize := info.1.1.2 in
      let start (header : obj) (streamGeneration : Z) :=
        ok ← sendMediaControlIfCurrent operation header;
        if (ok : bool)
        then Spawn (streamAssetPreview ctx id quality streamGeneration chunkSize operation requestID) (mret tt)
        else finishMedia operation in
      if bool_decide (quality = "video"%string) then
        head ← backend_get (HeadVideoPlayback id);
        let size := match head with Ok n => if 0 <? n then n else 0 | Err _ => 0 end in
        start (preview_header id "video/mp4" size (Some (generation, 0)) requestID operation) generation
      else start (preview_header id "image/jpeg" previewSize None requestID operation) 0.

(** [io.ReadFull(pr, firstByte)].
    [agent/internal/transfer/manager.go:1206-1207] handleAssetPreviewSeek *)
Definition read_first (p : nat) : handler (result bytes string) :=
  Iter tt (fun _ =>
    r ← pipe_read p 1;
    mret match r with
         | RData [] => inl tt
         | RData b => inr (Ok b)
         | REnd None => inr (Err "EOF"%string)
         | REnd (Some e) => inr (Err e)
         end) Done.

(** [agent/internal/transfer/manager.go:1169-1258] handleAssetPreviewSeek *)
Definition handleAssetPreviewSeek (id quality : string) (startOffset generation : Z) (requestID : string)
    (parentOperation : Z) : handler unit :=
  let refuse m := sendMediaErrorIfActive parentOperation requestID m in
  if bool_decide (id = ""%string) || bool_decide (quality = ""%string)
  then refuse "asset_preview_seek: id and quality required"%string
  else if startOffset <? 0 then refuse "asset_preview_seek: start_offset must be >= 0"%string
  else
    let '(normalizedQuality, ok) := normalizePreviewQuality quality in
    if negb ok || negb (bool_decide (normalizedQuality = "video"%string))
    then refuse "asset_preview_seek: video quality required"%string
    else if (generation <=? 0) || (maxUint32 <? generation)
    then refuse "asset_preview_seek: generation out of range"%string
    else if negb (has_gallery cfg) then refuse "share unavailable: client not initialized"%string
    else
      current ← isCurrentMediaOperation parentOperation id normalizedQuality;
      if negb current then mret tt
      else
        p ← pipe_new (SrcRange id quality startOffset);
        _ ← Spawn (run_stream [] p (SrcRange id quality startOffset)) (mret tt);
        first ← read_first p;
        match first with
        | Err e =>
            _ ← pipe_close_read p;
            refuse ("preview seek failed: " ++ e)%string
        | Ok firstByte =>
            r ← beginMediaIfNewer parentOperation id normalizedQuality generation;
            match r with
            | None => pipe_close_read p
            | Some (ctx, operation) =>
                ok ← sendMediaControlIfCurrent operation
                       (preview_header id "video/mp4" 0 (Some (generation, startOffset)) requestID operation);
                if (ok : bool)
                then Spawn (streamAssetPreviewFromReader ctx id firstByte p generation chunkSize operation requestID) (mret tt)
                else _ ← pipe_close_read p; finishMedia operation
            end
        end.

(** * The gallery *)

Definition upd_thumbs (f : Thumbs -> Thumbs) (w : World) : World :=
  set_mgr (set_thumbs (f (thumbs (w_mgr w))) (w_mgr w)) w.

(** [galleryGeneration++], and again at zero. *)
Definition next_generation (g : Z) : Z := let n := wrap 64 (g + 1) in if n =? 0 then 1 else n.

(** [agent/internal/transfer/manager.go:194-208] handleClose *)
Definition handleClose : handler unit :=
  modifies (fun w =>
    let t := thumbs (w_mgr w) in
    let w := timer_stop (thumbnailFallback t) w in
    let w := cancel_opt (galleryCancel t) w in
    upd_thumbs (fun t => mkThumbs (galleryItems t) (wrap 64 (galleryGeneration t + 1)) (galleryContext t) None
                           (thumbMode t) false "" (thumbnailSeenRequestIDs t) None) w).

(** [agent/internal/transfer/manager.go:468-487] sendGallery *)
Definition begin_gallery (items : list GalleryItem) : handler Z :=
  atomic (fun w =>
    let t := thumbs (w_mgr w) in
    let w := timer_stop (thumbnailFallback t) w in
    let w := cancel_opt (galleryCancel t) w in
    let generation := next_generation (galleryGeneration t) in
    let '(ctx, w) := with_cancel [] w in
    (generation, upd_thumbs (fun _ => mkThumbs items generation ctx (head ctx) thumbnailModeWaiting false "" ∅ None) w)).

(** ** Sending thumbnails: a feeder, at most six workers, and the sender *)

Definition upd_run (r : nat) (f : thumb_run -> thumb_run) (w : World) : World := set_runs (alter f r (w_runs w)) w.
Definition get_run (r : nat) (w : World) : thumb_run := default (mkRun None true [] 0 0 true) (w_runs w !! r).

(** A worker: takes jobs until there are none or the work is cancelled.
    [agent/internal/transfer/manager.go:650-670] sendGalleryThumbnails *)
Definition thumb_worker (ctx : context) (r : nat) : handler unit :=
  with_defer (modifies (upd_run r (fun x => mkRun (r_job x) (r_jobs_closed x) (r_results x) (r_cap x)
                                            (pred (r_workers x)) (r_results_closed x)))) (
    Iter tt (fun _ =>
      j ← choices (fun w =>
        let x := get_run r w in
        match r_job x with
        | Some j => [(Some j, upd_run r (fun x => mkRun None (r_jobs_closed x) (r_results x) (r_cap x) (r_workers x) (r_results_closed x)) w)]
        | None => if r_jobs_closed x then [(None, w)] else []
        end);
      match j with
      | None => mret (inr tt)
      | Some (index, item) =>
          done ← reads (ctx_done ctx);
          if (done : bool) then mret (inr tt)
          else
            s ← choices (fun w => (GetThumbnail (gi_ID item) (w_backend w), w)
                                  :: if ctx_done ctx w then [(([], Some "context canceled"%string), w)] else []);
            put ← choices (fun w =>
              let x := get_run r w in
              (if (length (r_results x) <? r_cap x)%nat
               then [(true, upd_run r (fun x => mkRun (r_job x) (r_jobs_closed x) (r_results x ++ [mkResult index (concat s.1) s.2])
                                                  (r_cap x) (r_workers x) (r_results_closed x)) w)] else [])
              ++ if ctx_done ctx w then [(false, w)] else []);
            mret (if (put : bool) then inl tt else inr tt)
      end) Done).

(** Offers the jobs on an unbuffered channel: each is offered and then taken.
    [agent/internal/transfer/manager.go:673-682] sendGalleryThumbnails *)
Fixpoint feed_jobs (ctx : context) (r : nat) (index : Z) (items : list GalleryItem) : handler unit :=
  match items with
  | [] => mret tt
  | item :: rest =>
      _ ← modifies (upd_run r (fun x => mkRun (Some (index, item)) (r_jobs_closed x) (r_results x) (r_cap x) (r_workers x) (r_results_closed x)));
      taken ← choices (fun w =>
        match r_job (get_run r w) with
        | None => [(true, w)]
        | Some _ =>
            if ctx_done ctx w
            then [(false, upd_run r (fun x => mkRun None (r_jobs_closed x) (r_results x) (r_cap x) (r_workers x) (r_results_closed x)) w)]
            else []
        end);
      if (taken : bool) then feed_jobs ctx r (index + 1) rest else mret tt
  end.
Definition thumb_feeder (ctx : context) (r : nat) (offset : Z) (items : list GalleryItem) : handler unit :=
  _ ← feed_jobs ctx r offset items;
  modifies (upd_run r (fun x => mkRun (r_job x) true (r_results x) (r_cap x) (r_workers x) (r_results_closed x))).

(** [agent/internal/transfer/manager.go:684-687] sendGalleryThumbnails *)
Definition thumb_closer (r : nat) : handler unit :=
  choices (fun w => match r_workers (get_run r w) with
                    | O => [(tt, upd_run r (fun x => mkRun (r_job x) (r_jobs_closed x) (r_results x) (r_cap x) (r_workers x) true) w)]
                    | S _ => []
                    end).

Fixpoint spawn_workers (n : nat) (ctx : context) (r : nat) : handler unit :=
  match n with O => mret tt | S n' => Spawn (thumb_worker ctx r) (spawn_workers n' ctx r) end.

Record tally := mkTally { t_sent : Z; t_failed : Z; t_indices : list Z; t_accounted : list Z }.
Definition tally_failed (i : Z) (t : tally) : tally :=
  mkTally (t_sent t) (t_failed t + 1) (t_indices t ++ [i]) (i :: t_accounted t).

(** The sender's loop over the results.
    [agent/internal/transfer/manager.go:689-709] sendGalleryThumbnails *)
Definition collect_results (work : context) (own : nat) (r : nat) (generation : Z) : handler tally :=
  Iter (mkTally 0 0 [] []) (fun t =>
    x ← choices (fun w =>
      let run := get_run r w in
      match r_results run with
      | x :: rest => [(Some x, upd_run r (fun run => mkRun (r_job run) (r_jobs_closed run) rest (r_cap run) (r_workers run) (r_results_closed run)) w)]
      | [] => if r_results_closed run then [(None, w)] else []
      end);
    match x with
    | None => mret (inr t)
    | Some x =>
        let i := tr_index x in
        if tr_err x is Some _ then mret (inl (tally_failed i t))
        else
          ok ← sendThumbnailWithBackpressure work generation (encodeThumbnailFrame i (tr_data x));
          if (ok : bool) then mret (inl (mkTally (t_sent t + 1) (t_failed t) (t_indices t) (i :: t_accounted t)))
          else _ ← modifies (cancel own); mret (inl (tally_failed i t))
    end) Done.

(** The indices not accounted for, as failed.
    [agent/internal/transfer/manager.go:710-717] sendGalleryThumbnails *)
Definition tally_rest (offset : Z) (total : nat) (t : tally) : tally :=
  foldl (fun t i => if bool_decide (i ∈ t_accounted t) then t
                    else mkTally (t_sent t) (t_failed t + 1) (t_indices t ++ [i]) (t_accounted t))
    t ((fun k => offset + Z.of_nat k) <$> seq 0 total).

(** Sent, failed, and the failed indices in order.
    [agent/internal/transfer/manager.go:632-720] sendGalleryThumbnails *)
Definition sendGalleryThumbnails (ctx : context) (generation : Z) (items : list GalleryItem) (offset : Z)
    : handler (Z * Z * list Z) :=
  let total := length items in
  if (total =? 0)%nat then mret (0, 0, [])
  else
    work ← atomic (with_cancel ctx);
    let own := default 0%nat (head work) in
    with_defer (modifies (cancel own)) (
      let workers := Nat.min total maxConcurrentGalleryThumbnails in
      r ← atomic (fun w => (length (w_runs w), set_runs (w_runs w ++ [mkRun None false [] workers workers false]) w));
      _ ← spawn_workers workers work r;
      _ ← Spawn (thumb_feeder work r offset items) (mret tt);
      _ ← Spawn (thumb_closer r) (mret tt);
      t ← collect_results work own r generation;
      done ← reads (ctx_done ctx);
      let t := if (done : bool) then t else tally_rest offset total t in
      mret (t_sent t, t_failed t, merge_sort Z.le (t_indices t))).

(** [agent/internal/transfer/manager.go:510-543] startLegacyThumbnailFallback *)
Definition startLegacyThumbnailFallback (generation : Z) : handler unit :=
  r ← atomic (fun w =>
    let t := thumbs (w_mgr w) in
    if negb (galleryGeneration t =? generation) || negb (bool_decide (thumbMode t = thumbnailModeWaiting)) then (None, w)
    else
      let w := timer_stop (thumbnailFallback t) w in
      (Some (galleryItems t, galleryContext t),
       upd_thumbs (fun t => mkThumbs (galleryItems t) (galleryGeneration t) (galleryContext t) (galleryCancel t)
                              thumbnailModeLegacy (thumbnailBatchActive t) (thumbnailBatchRequestID t)
                              (thumbnailSeenRequestIDs t) None) w));
  match r with
  | None => mret tt
  | Some (items, ctx) =>
      '(sent, failed, indices) ← sendGalleryThumbnails ctx generation items 0;
      _ ← send_if (fun w =>
             let t := thumbs (w_mgr w) in
             (galleryGeneration t =? generation) && bool_decide (thumbMode t = thumbnailModeLegacy) && negb (ctx_done ctx w))
            (SentText (legacy_complete sent failed indices));
      mret tt
  end.

(** The last critical section: the answer is sent, and the batch is over.
    [agent/internal/transfer/manager.go:606-614] sendThumbnailBatch *)
Definition finish_batch (ctx : context) (generation : Z) (requestID : string) (answer : obj) : handler unit :=
  choices (fun w =>
    let t := thumbs (w_mgr w) in
    if negb (galleryGeneration t =? generation) || negb (bool_decide (thumbMode t = thumbnailModePull))
       || negb (bool_decide (thumbnailBatchRequestID t = requestID)) || ctx_done ctx w
    then [(tt, w)]
    else (fun r => (tt, upd_thumbs (fun t => mkThumbs (galleryItems t) (galleryGeneration t) (galleryContext t) (galleryCancel t)
                              (thumbMode t) false "" (thumbnailSeenRequestIDs t) (thumbnailFallback t)) (snd r)))
         <$> send_outcomes (SentText answer) w).

(** [agent/internal/transfer/manager.go:594-618] sendThumbnailBatch *)
Definition sendThumbnailBatch (ctx : context) (generation start : Z) (items : list GalleryItem) (requestID : string)
    : handler unit :=
  '(sent, failed, indices) ← sendGalleryThumbnails ctx generation items start;
  finish_batch ctx generation requestID (batch_complete requestID start (len items) sent failed indices).

Inductive batch_start :=
| BatchRefused (m : string)
| BatchStarted (ctx : context) (generation : Z) (items : list GalleryItem).

(** The critical section of a batch request.
    [agent/internal/transfer/manager.go:555-590] handleThumbnailBatchRequest *)
Definition begin_batch (start count : Z) (requestID : string) : handler batch_start :=
  atomic (fun w =>
    let t := thumbs (w_mgr w) in
    if len (galleryItems t) <=? start then (BatchRefused "thumbnail batch start outside gallery", w)
    else if bool_decide (thumbMode t = thumbnailModeLegacy)
    then (BatchRefused "thumbnail batch unavailable after legacy stream started", w)
    else if bool_decide (requestID ∈ thumbnailSeenRequestIDs t)
    then (BatchRefused "thumbnail batch request_id already used", w)
    else if thumbnailBatchActive t then (BatchRefused "thumbnail batch already active", w)
    else
      let waiting := bool_decide (thumbMode t = thumbnailModeWaiting) in
      let w := if waiting then timer_stop (thumbnailFallback t) w else w in
      let last := Z.min (start + count) (len (galleryItems t)) in
      let items := take (Z.to_nat (last - start)) (drop (Z.to_nat start) (galleryItems t)) in
      (BatchStarted (galleryContext t) (galleryGeneration t) items,
       upd_thumbs (fun t => mkThumbs (galleryItems t) (galleryGeneration t) (galleryContext t) (galleryCancel t)
                              (if waiting then thumbnailModePull else thumbMode t) true requestID
                              ({[requestID]} ∪ thumbnailSeenRequestIDs t)
                              (if waiting then None else thumbnailFallback t)) w)).

(** [agent/internal/transfer/manager.go:545-592] handleThumbnailBatchRequest *)
Definition handleThumbnailBatchRequest (start count : Z) (requestID : string) : handler unit :=
  if bool_decide (requestID = ""%string) then sendError "media" requestID "thumbnail batch request_id required"
  else if (start <? 0) || (count <? 1) || (maxThumbnailBatchSize <? count)
  then sendError "media" requestID "thumbnail batch range invalid"
  else
    r ← begin_batch start count requestID;
    match r with
    | BatchRefused m => sendError "media" requestID m
    | BatchStarted ctx generation items =>
        Spawn (sendThumbnailBatch ctx generation start items requestID) (mret tt)
    end.

(** [agent/internal/transfer/manager.go:457-508] sendGallery *)
Definition sendGallery : handler unit :=
  g ← backend_get ListGallery;
  match g with
  | Err e => sendError "media" "" ("share unavailable: " ++ e)
  | Ok g =>
      let g := mkGallery (g_AlbumName g) (g_AlbumDescription g) (take maxAdvertisedGalleryItems (g_Items g)) in
      generation ← begin_gallery (g_Items g);
      ok ← choices (send_outcomes (SentGallery "pull-v1" g));
      if negb ok then mret tt
      else
        t ← atomic (fun w =>
          let t := thumbs (w_mgr w) in
          if (galleryGeneration t =? generation) && bool_decide (thumbMode t = thumbnailModeWaiting)
          then let i := length (w_timers w) in
               (Some i, upd_thumbs (fun t => mkThumbs (galleryItems t) (galleryGeneration t) (galleryContext t) (galleryCancel t)
                                     (thumbMode t) (thumbnailBatchActive t) (thumbnailBatchRequestID t)
                                     (thumbnailSeenRequestIDs t) (Some i))
                          (set_timers (w_timers w ++ [mkTimer (w_now w + thumbnailGrace cfg) false]) w))
          else (None, w));
        match t with
        | Some i => Spawn (fire ← timer_wait i; if (fire : bool) then startLegacyThumbnailFallback generation else mret tt) (mret tt)
        | None => mret tt
        end
  end.

(** [agent/internal/transfer/manager.go:211-218] HandleOpen *)
Definition HandleOpen : handler unit :=
  if has_gallery cfg then Spawn sendGallery (mret tt)
  else _ ← send_text (typed "hello" []); mret tt.

(** * Messages from the browser *)

(** [agent/internal/transfer/manager.go:222-236] HandleMessage *)
Record message := mkMessage {
  m_Type : string; m_Path : string; m_ID : string; m_Quality : string; m_StartOffset : Z; m_Generation : Z;
  m_RequestID : string; m_OperationID : string; m_BatchID : string; m_PartIndex : Z; m_Start : Z; m_Count : Z;
  m_OK : bool }.

Definition decode_message_obj (o : obj) : option message :=
  type ← field dec_str "type" ""%string o;
  path ← field dec_str "path" ""%string o;
  id ← field dec_str "id" ""%string o;
  quality ← field dec_str "quality" ""%string o;
  offset ← field dec_int64 "start_offset" 0 o;
  generation ← field dec_int64 "generation" 0 o;
  request ← field dec_str "request_id" ""%string o;
  operation ← field dec_str "operation_id" ""%string o;
  batch ← field dec_str "batch_id" ""%string o;
  part ← field dec_int64 "part_index" 0 o;
  start ← field dec_int64 "start" 0 o;
  count ← field dec_int64 "count" 0 o;
  ok ← field dec_bool "ok" false o;
  Some (mkMessage type path id quality offset generation request operation batch part start count ok).

(** [json.Unmarshal(data, &msg)], of what the data is as JSON. *)
Definition decode_message (v : option json) : option message :=
  match v with
  | Some (JObj o) => decode_message_obj o
  | Some JNull => decode_message_obj []
  | _ => None
  end.

(** [agent/internal/transfer/manager.go:221-271] HandleMessage *)
Definition HandleMessage (data : option json) : handler unit :=
  match decode_message data with
  | None => sendError "connection" "" "invalid message format"
  | Some m =>
      let is_type t := bool_decide (m_Type m = t) in
      if is_type "list_request"%string then handleListRequest (m_Path m) (m_RequestID m)
      else if is_type "file_request"%string then handleFileRequest (m_Path m) (m_RequestID m)
      else if is_type "asset_request"%string then handleAssetRequest (m_ID m) (m_Quality m) (m_RequestID m)
      else if is_type "album_download_request"%string then handleAlbumDownloadRequest (m_RequestID m)
      else if is_type "album_archive_ack"%string
      then handleAlbumArchiveAck (m_BatchID m) (m_PartIndex m) (m_OperationID m) (m_OK m)
      else if is_type "thumbnail_batch_request"%string
      then handleThumbnailBatchRequest (m_Start m) (m_Count m) (m_RequestID m)
      else if is_type "asset_preview_request"%string
      then handleAssetPreviewRequest (m_ID m) (m_Quality m) (m_Generation m) (m_RequestID m)
      else if is_type "asset_preview_seek"%string then
        if bool_decide (m_OperationID m = ""%string)
        then sendError "media" (m_RequestID m) "asset_preview_seek: operation_id required"
        else
          match ParseUint (m_OperationID m) with
          | Some parent =>
              if parent =? 0 then sendError "media" (m_RequestID m) "asset_preview_seek: invalid operation_id"
              else handleAssetPreviewSeek (m_ID m) (m_Quality m) (m_StartOffset m) (m_Generation m) (m_RequestID m) parent
          | None => sendError "media" (m_RequestID m) "asset_preview_seek: invalid operation_id"
          end
      else sendError "connection" (m_RequestID m) ("unknown message type: " ++ m_Type m)
  end.

(** [agent/internal/transfer/manager.go:1631-1633] SetDownloadCount *)
Definition SetDownloadCount (n : Z) : handler unit := mgr_do (set_downloads (int32 n)).
End manager.
