(* ===== verification/TransferInv.v ===== *)
(** What holds of the agent's transfers in every interleaving of its
    goroutines, the logic: the invariant of the manager, the pipes and the log
    of sends; the tokens (a held bulk operation, the two ends of a pipe); and
    the rules for the actions, on the media lane, on the bulk lane and on pipes. *)

From Stdlib Require Import Ascii.
From stdpp Require Import pretty.
From S2P Require Import Prelude GoText Lanes Conc ConcOwn Json TransferState Transfer.
#[local] Open Scope Z_scope.

(** * Operation ids as text *)

(** An operation id survives being written out and parsed. *)
Lemma ParseUint_operation o : 0 < o < 2 ^ 64 -> ParseUint (operationIDString o) = Some o.
Proof.
  intros Ho. unfold ParseUint, operationIDString, pretty, pretty_N.
  rewrite decide_False by lia.
  assert (parse_digits 0 (pretty_N_go (Z.to_N o) "") = Some o) as Hp.
  { rewrite parse_pretty_go by lia. simpl. f_equal. lia. }
  rewrite bool_decide_false by (intros He; rewrite He in Hp; simpl in Hp; injection Hp as ?; lia).
  rewrite Hp. simpl. by rewrite (proj2 (Z.ltb_lt _ _)) by lia.
Qed.

(** * Reading messages and frames *)

(** The value of a key. *)
Fixpoint tget (k : string) (m : obj) : option json :=
  match m with
  | [] => None
  | (k', v) :: m' => if bool_decide (k' = k) then Some v else tget k m'
  end.

Lemma tget_app k a b : tget k (a ++ b) = match tget k a with Some v => Some v | None => tget k b end.
Proof. induction a as [|[k' v] a IH]; simpl; [done|]. by case_bool_decide. Qed.

Lemma tget_omit k k' v : k' <> k -> tget k (omit_empty k' v) = None.
Proof. intros Hk. unfold omit_empty. case_bool_decide; simpl; [done|]. by rewrite bool_decide_false. Qed.

(** The operation a message of a scope is about. *)
Definition scope_op (scope : string) (m : obj) : option Z :=
  match tget "scope" m, tget "operation_id" m with
  | Some (JStr s), Some (JStr i) => if bool_decide (s = scope) then ParseUint i else None
  | _, _ => None
  end.
Definition frame_op (data : bytes) : Z := be_get (take 8 (drop 2 data)).

(** The bulk and the media operation something sent is about. *)
Definition bulk_of (e : effect) : option Z :=
  match e with
  | SentBinary c d => if bool_decide (c = ClassBulk) then Some (frame_op d) else None
  | SentText m => scope_op "bulk" m
  | Streams o _ => Some o
  | _ => None
  end.
Definition media_of (e : effect) : option Z :=
  match e with
  | SentBinary c d => if bool_decide (c = ClassInteractiveMedia) then Some (frame_op d) else None
  | SentText m => scope_op "media" m
  | _ => None
  end.

Lemma frame_op_chunk o g d : 0 <= o < 2 ^ 64 -> frame_op (encodeChunkFrame o g d) = o.
Proof.
  intros Ho. unfold frame_op, encodeChunkFrame.
  change (drop 2 _) with (be_put 8 o ++ be_put 4 g ++ d). rewrite take_app_le by (rewrite length_be_put; lia).
  rewrite take_ge by (rewrite length_be_put; lia). rewrite be_get_put. apply Z.mod_small. lia.
Qed.

Lemma chunk_data o g d : drop 14 (encodeChunkFrame o g d) = d.
Proof.
  unfold encodeChunkFrame. change (drop 14 _) with (drop 12 (be_put 8 o ++ be_put 4 g ++ d)). rewrite app_assoc.
  rewrite drop_app_ge by (rewrite length_app, !length_be_put; lia).
  rewrite length_app, !length_be_put. done.
Qed.

Ltac read_text :=
  unfold scope_op, file_header, archive_header, chunk_end, archive_end, operation_error_obj, error_obj, preview_header,
    preview_end, typed; simpl; rewrite ?tget_app, ?tget_omit by done; simpl;
  rewrite ?tget_app, ?tget_omit by done; simpl; rewrite ?tget_app, ?tget_omit by done; simpl;
  try (by rewrite ParseUint_operation); try reflexivity.

Lemma bulk_file_header n sz mi sh r o : 0 < o < 2 ^ 64 -> scope_op "bulk" (file_header n sz mi sh r o) = Some o.
Proof. intros Ho. read_text. Qed.
Lemma bulk_archive_header n r e o i c : 0 < o < 2 ^ 64 -> scope_op "bulk" (archive_header n r e o i c) = Some o.
Proof. intros Ho. read_text. Qed.
Lemma bulk_chunk_end r o t : 0 < o < 2 ^ 64 -> scope_op "bulk" (chunk_end r o t) = Some o.
Proof. intros Ho. read_text. Qed.
Lemma bulk_archive_end r o t : 0 < o < 2 ^ 64 -> scope_op "bulk" (archive_end r o t) = Some o.
Proof. intros Ho. read_text. Qed.
Lemma op_error s s' r o t : 0 < o < 2 ^ 64 ->
  scope_op s (operation_error_obj s' r o t) = if bool_decide (s' = s) then Some o else None.
Proof. intros Ho. read_text. Qed.
Lemma media_header id mi sz v r o : 0 < o < 2 ^ 64 -> scope_op "media" (preview_header id mi sz v r o) = Some o
  /\ scope_op "bulk" (preview_header id mi sz v r o) = None.
Proof. intros Ho. destruct v as [[g off]|]; split; read_text. Qed.
Lemma media_end id g r o t : 0 < o < 2 ^ 64 -> scope_op "media" (preview_end id g r o t) = Some o
  /\ scope_op "bulk" (preview_end id g r o t) = None.
Proof. intros Ho. split; read_text. Qed.
Lemma plain_error s r m t : scope_op s (error_obj r m t) = None.
Proof. read_text. Qed.

(** * The invariant *)

(** Operations begun so far. *)
Definition is_issue (e : effect) : bool := match e with MediaBegan _ | BulkTaken _ => true | _ => false end.
Definition issued (l : list effect) : Z := len (filter (fun e => is_issue e = true) l).

(** Who holds the bulk lane, and the last media operation begun. *)
Definition holder (l : list effect) : option Z :=
  foldl (fun h e => match e with BulkTaken o => Some o | BulkFreed _ => None | _ => h end) None l.
Definition last_media (l : list effect) : option Z :=
  foldl (fun h e => match e with MediaBegan o => Some o | _ => h end) None l.

(** What was sent about a bulk operation, and the bytes of its frames. *)
Definition sends (o : Z) (l : list effect) : list effect := filter (fun e => bulk_of e = Some o) l.
Definition frame_bytes (e : effect) : bytes := match e with SentBinary _ d => drop 14 d | _ => [] end.
Definition payload (o : Z) (l : list effect) : bytes := sends o l ≫= frame_bytes.

Lemma sends_app o l1 l2 : sends o (l1 ++ l2) = sends o l1 ++ sends o l2.
Proof. apply filter_app. Qed.
Lemma payload_app o l1 l2 : payload o (l1 ++ l2) = payload o l1 ++ payload o l2.
Proof. unfold payload. by rewrite sends_app, bind_app. Qed.
Lemma issued_app l1 l2 : issued (l1 ++ l2) = issued l1 + issued l2.
Proof. unfold issued. by rewrite filter_app, len_app. Qed.
Lemma issued_nonneg l : 0 <= issued l.
Proof. apply len_nonneg. Qed.

(** A report that a download is complete. *)
Definition is_end (o n : Z) (e : effect) : Prop :=
  exists r, e = SentText (chunk_end r o n) \/ e = SentText (archive_end r o n).

Section safe.
Context `{Backend}.

(** The operation's frames are all of what some successful answer of the
    backend streams. *)
Definition complete (o n : Z) (past : list effect) : Prop :=
  exists src b chunks, Streams o src ∈ past /\ source_stream src b = (chunks, None)
    /\ payload o past = concat chunks /\ n = len (concat chunks).

(** What must hold when [e] follows [past] in the log. *)
Record good (past : list effect) (e : effect) : Prop := {
  good_bulk : forall o, bulk_of e = Some o -> holder past = Some o;
  good_media : forall o, media_of e = Some o -> last_media past = Some o;
  good_end : forall o n, is_end o n e -> complete o n past }.

Definition pipe_ok (p : pipe) : Prop :=
  (p_rclosed p = false -> p_hist p = p_read p ++ default [] (p_offer p))
  /\ (p_wclosed p = Some None -> exists b chunks, source_stream (p_src p) b = (chunks, None) /\ p_hist p = concat chunks).

Record Inv (w : World) : Prop := {
  iv_pipes : forall i p, w_pipes w !! i = Some p -> pipe_ok p;
  iv_issued : operationSequence (w_mgr w) = issued (w_log w) /\ issued (w_log w) < 2 ^ 64;
  iv_media : default 0 (last_media (w_log w)) = mediaOperation (media (w_mgr w));
  iv_holder : holder (w_log w) = if bulkTransfer (bulk (w_mgr w)) then Some (bulkOperation (bulk (w_mgr w))) else None;
  iv_bulk : if bulkTransfer (bulk (w_mgr w)) then 0 < bulkOperation (bulk (w_mgr w)) <= operationSequence (w_mgr w)
            else bulkOperation (bulk (w_mgr w)) = 0;
  iv_ops : forall e o, e ∈ w_log w -> bulk_of e = Some o -> 0 < o <= operationSequence (w_mgr w);
  iv_log : forall past e rest, w_log w = past ++ e :: rest -> good past e }.

(** Fewer than 2^64 operations: ids do not repeat. *)
Definition lim (w : World) : Prop := issued (w_log w) < 2 ^ 64.

(** * Tokens: a held bulk operation, and the two ends of a pipe *)

Inductive tok := TOp (o : Z) | TRd (p : nat) | TWr (p : nat).
#[export] Instance tok_eq : EqDecision tok.
Proof. solve_decision. Defined.
#[export] Instance tok_countable : Countable tok.
Proof.
  refine (inj_countable' (fun t => match t with TOp o => inl o | TRd p => inr (inl p) | TWr p => inr (inr p) end)
    (fun x => match x with inl o => TOp o | inr (inl p) => TRd p | inr (inr p) => TWr p end) _).
  by intros [].
Defined.

Definition holds (o : Z) (w : World) : Prop := bulkTransfer (bulk (w_mgr w)) = true /\ bulkOperation (bulk (w_mgr w)) = o.

Definition same (t : tok) (w w' : World) : Prop :=
  match t with
  | TOp o => (holds o w -> holds o w') /\ sends o (w_log w') = sends o (w_log w)
  | TRd p => p_rclosed (get_pipe p w') = p_rclosed (get_pipe p w) /\ p_read (get_pipe p w') = p_read (get_pipe p w)
  | TWr p => p_hist (get_pipe p w') = p_hist (get_pipe p w) /\ p_wclosed (get_pipe p w') = p_wclosed (get_pipe p w)
  end.

Definition fresh (t : tok) (w : World) : Prop :=
  match t with
  | TOp o => ~ (0 < o <= operationSequence (w_mgr w))
  | TRd p | TWr p => (length (w_pipes w) <= p)%nat
  end.

Record Rel (w w' : World) : Prop := {
  rel_log : w_log w `prefix_of` w_log w';
  rel_pipes : (length (w_pipes w) <= length (w_pipes w'))%nat;
  rel_src : forall p, (p < length (w_pipes w))%nat -> p_src (get_pipe p w') = p_src (get_pipe p w) }.

#[export] Instance Rel_pre : PreOrder Rel.
Proof.
  split; [by intros w; constructor|]. intros w1 w2 w3 [H1 H2 H3] [H4 H5 H6]. constructor; [by etransitivity|lia|].
  intros p Hp. rewrite H6, H3 by lia. done.
Qed.
#[export] Instance same_pre t : PreOrder (same t).
Proof.
  split; [by destruct t|]. intros w1 w2 w3. destruct t; simpl; intros [H1 H2] [H3 H4]; split; try congruence; auto.
Qed.

(** None of these tokens is a debt. *)
Definition owed (t : tok) (w : World) : Prop := False.
Abbreviation twp := (owp same fresh owed Rel Inv lim).
Abbreviation trely := (rely same Rel).
Abbreviation tguar := (guar same fresh Rel).
Abbreviation tmade := (made fresh).

Lemma trely_sub O O' w w' : O' ⊆ O -> trely O w w' -> trely O' w w'.
Proof. intros Hs [H1 H2]. split; [done|]. intros t Ht. by apply H2, Hs. Qed.

(** ** Steps *)

(** All the invariant and the tokens look at. *)
Definition core (w : World) :=
  (operationSequence (w_mgr w), mediaOperation (media (w_mgr w)), bulk (w_mgr w), w_pipes w, w_log w).

Lemma core_inv w w2 : core w2 = core w -> Inv w -> Inv w2.
Proof.
  unfold core. intros [= Hs Hm Hb Hp Hl] [H1 H2 H3 H4 H5 H6 H7]. constructor; rewrite ?Hs, ?Hm, ?Hb, ?Hp, ?Hl; done.
Qed.

Lemma core_same t w w2 : core w2 = core w -> same t w w2.
Proof.
  unfold core. intros [= Hs Hm Hb Hp Hl]. destruct t; simpl; unfold holds, get_pipe; by rewrite ?Hb, ?Hl, ?Hp.
Qed.

Lemma core_fresh t w w2 : core w2 = core w -> fresh t w2 -> fresh t w.
Proof. unfold core. intros [= Hs Hm Hb Hp Hl]. destruct t; simpl; by rewrite ?Hs, ?Hp. Qed.

Lemma core_rel w w2 : core w2 = core w -> Rel w w2.
Proof.
  unfold core. intros [= Hs Hm Hb Hp Hl]. constructor; rewrite ?Hl, ?Hp; [done..|]. intros p Hlt. unfold get_pipe. by rewrite Hp.
Qed.

Lemma core_guar O w w2 : core w2 = core w -> tmade O w -> tguar O O w w2.
Proof.
  intros Hc Hm. constructor; [by apply core_rel|intros; by apply core_same| |intros; by eapply core_fresh].
  intros t Ht. split; [|by left]. intros Hf. by eapply Hm, core_fresh.
Qed.

(** A world that differs in the log alone, by one entry. *)
Definition logs (e : effect) (w w2 : World) : Prop :=
  exists w1, core w1 = core w /\ w2 = add_log e w1.

Lemma logs_add e w : logs e w (add_log e w).
Proof. by exists w. Qed.

(** Entries that begin or end no operation. *)
Definition no_mark (e : effect) : Prop :=
  match e with MediaBegan _ | BulkTaken _ | BulkFreed _ => False | _ => True end.

Lemma mark_free e l : no_mark e ->
  issued (l ++ [e]) = issued l /\ holder (l ++ [e]) = holder l /\ last_media (l ++ [e]) = last_media l.
Proof. intros He. unfold issued, holder, last_media. rewrite filter_app, !foldl_app. destruct e; try done; simpl; rewrite app_nil_r; done. Qed.

(** Logging something good about operations one owns. *)
Lemma log_step O e w w2 :
  Inv w -> tmade O w -> logs e w w2 -> no_mark e -> good (w_log w) e ->
  (forall o, bulk_of e = Some o -> TOp o ∈ O) -> Inv w2 /\ tguar O O w w2.
Proof.
  intros Hi Hm (w1&Hc&->) He Hg Hown. pose proof (core_inv _ _ Hc Hi) as Hi1.
  assert (w_log w1 = w_log w) as Hl by (unfold core in Hc; congruence).
  destruct (mark_free e (w_log w) He) as (Hiss&Hho&Hme). split.
  - destruct Hi1 as [H1 H2 H3 H4 H5 H6 H7]. rewrite Hl in *. constructor; simpl; rewrite ?Hl, ?Hiss, ?Hho, ?Hme; try done.
    + intros e' o [Hin| ->%list_elem_of_singleton]%elem_of_app Ho; [by eapply H6|].
      apply (good_bulk _ _ Hg) in Ho. rewrite H4 in Ho. destruct (bulkTransfer _); [|done]. by injection Ho as <-.
    + intros past e' rest Heq. apply snoc_split in Heq as [[-> ->]|[rest' Heq]]; [done|by eapply H7].
  - constructor.
    + etransitivity; [by apply core_rel|]. constructor; simpl; [by eexists|done..].
    + intros t Ht _. etransitivity; [by apply core_same|]. destruct t as [o|p|p]; simpl; [|done..].
      split; [done|]. rewrite sends_app. unfold sends at 2. rewrite filter_cons_False, filter_nil, app_nil_r; [done|].
      intros Ho. by apply Ht, Hown.
    + intros t Ht. split; [|by left]. intros Hf. eapply Hm; [exact Ht|]. eapply core_fresh; [exact Hc|]. by destruct t.
    + intros t Hf. eapply core_fresh; [exact Hc|]. by destruct t.
Qed.

(** ** Actions *)

(** What a goroutine knows that does not change under it. *)
Definition stable (O : gset tok) (P : World -> Prop) : Prop := forall w w', trely O w w' -> P w -> P w'.

Lemma twp_choices {A} O (f : World -> list (A * World)) (Q : gset tok -> A -> World -> Prop) w :
  (forall w1, trely O w w1 -> Inv w1 -> tmade O w1 -> forall b w2, (b, w2) ∈ f w1 -> lim w2 ->
     Inv w2 /\ exists O', tguar O O' w1 w2 /\ forall w3, trely O' w2 w3 -> Q O' b w3) ->
  twp O (choices f) Q w.
Proof. intros Hf w1 Hw Hi Hm b w2 Hin Hl. destruct (Hf w1 Hw Hi Hm b w2 Hin Hl) as (?&O'&?&?). split; [done|]. exists O'. split_and!; [done|by intros ?|done]. Qed.

Lemma twp_atomic {A} O (f : World -> A * World) (Q : gset tok -> A -> World -> Prop) w :
  (forall w1 b w2, trely O w w1 -> Inv w1 -> tmade O w1 -> f w1 = (b, w2) -> lim w2 ->
     Inv w2 /\ exists O', tguar O O' w1 w2 /\ forall w3, trely O' w2 w3 -> Q O' b w3) ->
  twp O (atomic f) Q w.
Proof.
  intros Hf. unfold atomic. apply (twp_choices O (fun w => [f w])). intros w1 Hw Hi Hm b w2 Hin%list_elem_of_singleton Hl.
  by apply (Hf w1).
Qed.

Lemma twp_modifies O (f : World -> World) (Q : gset tok -> unit -> World -> Prop) w :
  (forall w1, trely O w w1 -> Inv w1 -> tmade O w1 -> lim (f w1) ->
     Inv (f w1) /\ exists O', tguar O O' w1 (f w1) /\ forall w3, trely O' (f w1) w3 -> Q O' tt w3) ->
  twp O (modifies f) Q w.
Proof.
  intros Hf. apply (twp_atomic O (fun w => (tt, f w))). intros w1 b w2 Hw Hi Hm [= <- <-] Hl. by apply Hf.
Qed.

(** An action that leaves the core alone. *)
Lemma twp_core {A} O (f : World -> list (A * World)) (Q : gset tok -> A -> World -> Prop) w :
  (forall w1 b w2, (b, w2) ∈ f w1 -> core w2 = core w1) ->
  (forall w1 b w2 w3, trely O w w1 -> Inv w1 -> (b, w2) ∈ f w1 -> trely O w2 w3 -> Q O b w3) ->
  twp O (choices f) Q w.
Proof.
  intros Hc HQ. apply twp_choices. intros w1 Hw Hi Hm b w2 Hin _. pose proof (Hc _ _ _ Hin) as Hcw.
  split; [by eapply core_inv|]. exists O. split; [by apply core_guar|]. intros w3 H3. by eapply HQ.
Qed.

(** Starting a goroutine with some of the tokens. *)
Lemma twp_spawn {A} O O1 O2 (q : proc World unit) (k : proc World A) Q w :
  O1 ## O2 -> O1 ∪ O2 ⊆ O ->
  (forall w1, trely O w w1 -> twp O1 q (fun _ _ _ => True) w1 /\ twp O2 k Q w1) -> twp O (Spawn q k) Q w.
Proof.
  intros Hd Hs Hp. exists O1, O2. split_and!; [done..|]. intros w1 Hw. destruct (Hp w1 Hw) as [Hq Hk].
  split; [by intros ? _ ?|]. split; [|done]. eapply owp_mono; [|exact Hq]. by intros ? ? ? _ ? _ ?.
Qed.

(** Pieces that need the tokens [T] and keep all there are. *)
Definition calm (T : gset tok) {A} (p : proc World A) : Prop :=
  forall O w, T ⊆ O -> twp O p (fun O' _ _ => O' = O) w.

Lemma calm_bind T {A B} (p : proc World A) (g : A -> proc World B) :
  calm T p -> (forall a, calm T (g a)) -> calm T (p ≫= g).
Proof.
  intros Hp Hg O w HT. apply owp_bind; [apply _..|]. eapply owp_mono; [|by apply Hp]. intros O' a w' ->. by apply Hg.
Qed.

Lemma calm_ret T {A} (a : A) : calm T (mret a).
Proof. by intros O w _ w1 _. Qed.

Lemma calm_core T {A} (f : World -> list (A * World)) :
  (forall w1 b w2, (b, w2) ∈ f w1 -> core w2 = core w1) -> calm T (choices f).
Proof. intros Hc O w _. by apply twp_core. Qed.

Lemma calm_reads T {A} (f : World -> A) : calm T (reads f).
Proof. unfold reads. apply (calm_core T (fun w => [(f w, w)])). by intros w1 b w2 [= -> ->]%list_elem_of_singleton. Qed.

Lemma calm_modifies T (f : World -> World) : (forall w, core (f w) = core w) -> calm T (modifies f).
Proof.
  intros Hf. unfold modifies. apply (calm_core T (fun w => [(tt, f w)])). by intros w1 b w2 [= -> ->]%list_elem_of_singleton.
Qed.

Lemma calm_atomic T {A} (f : World -> A * World) : (forall w, core (f w).2 = core w) -> calm T (atomic f).
Proof.
  intros Hf. unfold atomic. apply (calm_core T (fun w => [f w])). intros w1 b w2 Hin%list_elem_of_singleton.
  by rewrite <- (Hf w1), <- Hin.
Qed.

Lemma calm_iter T {S A B} (s : S) (body : S -> proc World (S + B)) (k : B -> proc World A) :
  (forall s, calm T (body s)) -> (forall b, calm T (k b)) -> calm T (Iter s body k).
Proof.
  intros Hb Hk O w HT. exists (fun _ O' _ => O' = O). split; [done|]. intros s' O' w1 ->.
  eapply owp_mono; [|by apply Hb]. intros O'' [s''|b] w2 ->; [done|]. by apply Hk.
Qed.

(** A goroutine that needs the tokens [T] to run. *)
Definition runs (T : gset tok) (p : proc World unit) : Prop := forall O w, T ⊆ O -> twp O p (fun _ _ _ => True) w.

Lemma calm_runs T p : calm T p -> runs T p.
Proof. intros Hp O w HT. by eapply owp_mono; [|by apply Hp]. Qed.

Lemma calm_spawn T {A} (q : proc World unit) (k : proc World A) : runs ∅ q -> calm T k -> calm T (Spawn q k).
Proof.
  intros Hq Hk O w HT. apply (twp_spawn O ∅ O); [set_solver|set_solver|]. intros w1 _. split; [by apply Hq|by apply Hk].
Qed.

Lemma runs_bind T {A} (p : proc World A) (g : A -> proc World unit) :
  calm T p -> (forall a, runs T (g a)) -> runs T (p ≫= g).
Proof.
  intros Hp Hg O w HT. apply owp_bind; [apply _..|]. eapply owp_mono; [|by apply Hp]. intros O' a w' ->. by apply Hg.
Qed.

Lemma runs_ret T : runs T (mret tt).
Proof. by intros O w _ w1 _. Qed.

(** Sends that say nothing about operations. *)
Definition quiet (e : effect) : Prop :=
  no_mark e /\ bulk_of e = None /\ media_of e = None /\ forall o n, ~ is_end o n e.

Lemma quiet_good e past : quiet e -> good past e.
Proof. intros (_&Hb&Hm&He). constructor; intros; [congruence|congruence|by destruct (He o n)]. Qed.

(** A send inside a critical section, good where its condition holds. *)
Lemma twp_send_if T (p : World -> bool) e O w :
  (forall w1, trely O w w1 -> Inv w1 -> p w1 = true -> good (w_log w1) e) -> no_mark e ->
  (forall o, bulk_of e = Some o -> TOp o ∈ O) -> T ⊆ O ->
  twp O (send_if p e) (fun O' ok w' => O' = O /\
    exists w1 w2, trely O w w1 /\ trely O w2 w' /\ if (ok : bool) then w2 = add_log e w1 else w2 = w1) w.
Proof.
  intros He Hmark Hown _. unfold send_if. apply twp_choices. intros w1 Hw Hi Hm b w2 Hin Hl.
  destruct (p w1) eqn:Hp; [apply elem_of_cons in Hin as [Hin|Hin%list_elem_of_singleton]
    |apply list_elem_of_singleton in Hin]; simplify_eq.
  - destruct (log_step O e w1 (add_log e w1)) as [H1 H2]; [done..|apply logs_add|done|by apply He|done|].
    split; [done|]. exists O. split; [done|]. intros w3 H3. split; [done|]. by exists w1, (add_log e w1).
  - split; [done|]. exists O. split; [by apply core_guar|]. intros w3 H3. split; [done|]. by exists w1, w1.
  - split; [done|]. exists O. split; [by apply core_guar|]. intros w3 H3. split; [done|]. by exists w1, w1.
Qed.

Lemma calm_send_if T (p : World -> bool) e : quiet e -> calm T (send_if p e).
Proof.
  intros He O w HT. eapply owp_mono; [|eapply (twp_send_if T)]; [by intros O' b w' [-> _]|..].
  - intros w1 _ _ _. by apply quiet_good.
  - apply He.
  - intros o Ho. destruct He as (_&Hb&_). congruence.
  - done.
Qed.

Lemma calm_send T e : quiet e -> calm T (choices (send_outcomes e)).
Proof. intros He. apply (calm_send_if T (fun _ => true) e He). Qed.

Lemma calm_log T e : quiet e -> calm T (modifies (add_log e)).
Proof.
  intros He O w HT. unfold modifies. apply (twp_choices O (fun w => [(tt, add_log e w)])).
  intros w1 Hw Hi Hm b w2 Hin Hl. apply list_elem_of_singleton in Hin. simplify_eq.
  destruct (log_step O e w1 (add_log e w1)) as [H1 H2]; try done; [apply logs_add|apply He|by apply quiet_good| |].
  - intros o Ho. destruct He as (_&Hb&_). congruence.
  - split; [done|]. by exists O.
Qed.

(** A text that is not a final one. *)
Lemma not_end o n m : tget "type" m <> Some (JStr "chunk_end") -> ~ is_end o n (SentText m).
Proof. intros Ht (r&[Hm|Hm]); injection Hm as ->; by apply Ht. Qed.

Lemma quiet_text m : scope_op "bulk" m = None -> scope_op "media" m = None ->
  tget "type" m <> Some (JStr "chunk_end") -> quiet (SentText m).
Proof. intros Hb Hm Ht. split_and!; [done..|]. intros o n. by apply not_end. Qed.

Lemma quiet_error s r m : quiet (SentText (error_obj s r m)).
Proof. apply quiet_text; [apply plain_error..|done]. Qed.

Lemma calm_error T s r m : calm T (sendError s r m).
Proof. apply calm_bind; [apply calm_send, quiet_error|intros _; apply calm_ret]. Qed.

(** ** Operations *)

Definition good_op (o : Z) : Prop := 0 < o < 2 ^ 64.

Lemma issued_mark l e : is_issue e = true -> issued (l ++ [e]) = issued l + 1.
Proof. intros He. rewrite issued_app. unfold issued at 2. by rewrite filter_cons_True. Qed.

(** The next id, while ids last. *)
Lemma next_id (w : World) (e : Z -> effect) :
  Inv w -> (forall o, is_issue (e o) = true) -> issued (w_log w ++ [e (operationSequence (w_mgr w) + 1)]) < 2 ^ 64 ->
  let o := operationSequence (w_mgr w) + 1 in
  nextOperationID (w_mgr w) = (o, set_sequence o (w_mgr w)) /\ good_op o.
Proof.
  intros Hi He Hl o. destruct (iv_issued w Hi) as [Hs _]. rewrite issued_mark in Hl by done.
  pose proof (issued_nonneg (w_log w)). unfold nextOperationID. fold o.
  assert (wrap 64 o = o) as -> by (apply wrap_small; unfold o; lia).
  rewrite (proj2 (Z.eqb_neq o 0)) by (unfold o; lia). split; [done|]. unfold good_op, o. lia.
Qed.

(** An operation begins: the sequence grows, the log notes it. *)
Lemma mark_step O O' w w2 e :
  Inv w -> tmade O w -> w_pipes w2 = w_pipes w -> w_log w2 = w_log w ++ [e] -> bulk_of e = None ->
  operationSequence (w_mgr w) <= operationSequence (w_mgr w2) ->
  (forall o, TOp o ∉ O -> ~ fresh (TOp o) w -> holds o w -> holds o w2) ->
  (forall t, t ∈ O' -> t ∈ O \/ exists o, t = TOp o /\ operationSequence (w_mgr w) < o <= operationSequence (w_mgr w2)) ->
  tguar O O' w w2.
Proof.
  intros Hi Hm Hp Hl He Hs Hh Ho. destruct (iv_issued w Hi) as [Hs0 _]. pose proof (issued_nonneg (w_log w)). constructor.
  - constructor; rewrite ?Hl, ?Hp; [by eexists|done|]. intros p _. unfold get_pipe. by rewrite Hp.
  - intros t Ht Hf. destruct t as [o|p|p]; simpl; [|unfold get_pipe; by rewrite Hp..].
    split; [by apply Hh|]. rewrite Hl, sends_app. unfold sends at 2.
    rewrite filter_cons_False, filter_nil, app_nil_r by (by rewrite He). done.
  - intros t Ht. destruct (Ho t Ht) as [Hin|(o&->&Hlt)]; simpl.
    + split; [|by left]. pose proof (Hm t Hin) as Hf. destruct t; simpl in *; [lia|by rewrite Hp..].
    + split; [lia|]. right. lia.
  - intros [o|p|p]; simpl; [lia|by rewrite Hp..].
Qed.

Lemma mark_good past e : bulk_of e = None -> media_of e = None -> ~ no_mark e -> good past e.
Proof.
  intros Hb Hm Hn. constructor; intros o; [congruence|congruence|].
  intros n (r&[->| ->]); by destruct Hn.
Qed.

(** The invariant after a mark. *)
Lemma mark_inv w w2 e :
  Inv w -> w_pipes w2 = w_pipes w -> w_log w2 = w_log w ++ [e] -> bulk_of e = None -> media_of e = None ->
  ~ no_mark e -> issued (w_log w2) = operationSequence (w_mgr w2) -> lim w2 ->
  operationSequence (w_mgr w) <= operationSequence (w_mgr w2) ->
  default 0 (last_media (w_log w2)) = mediaOperation (media (w_mgr w2)) ->
  holder (w_log w2) = (if bulkTransfer (bulk (w_mgr w2)) then Some (bulkOperation (bulk (w_mgr w2))) else None) ->
  (if bulkTransfer (bulk (w_mgr w2)) then 0 < bulkOperation (bulk (w_mgr w2)) <= operationSequence (w_mgr w2)
   else bulkOperation (bulk (w_mgr w2)) = 0) -> Inv w2.
Proof.
  intros [H1 H2 H3 H4 H5 H6 H7] Hp Hl Hb Hme Hn His Hlim Hs Hm Hho Hbu. constructor; rewrite ?Hp; try done.
  - intros e' o Hin Ho. rewrite Hl in Hin. apply elem_of_app in Hin as [Hin| ->%list_elem_of_singleton]; [|congruence].
    pose proof (H6 e' o Hin Ho). lia.
  - intros past e' rest Heq. rewrite Hl in Heq.
    apply snoc_split in Heq as [[-> ->]|[rest' Heq]]; [by apply mark_good|by eapply H7].
Qed.

Lemma begin_locked_spec O w ctx o w2 id quality generation :
  Inv w -> tmade O w -> lim w2 -> beginMediaLocked id quality generation w = ((ctx, o), w2) ->
  Inv w2 /\ tguar O O w w2 /\ good_op o.
Proof.
  intros Hi Hm Hl Hb. unfold beginMediaLocked in Hb.
  set (w1 := cancel_opt _ w) in Hb.
  assert (w_mgr w1 = w_mgr w /\ w_log w1 = w_log w /\ w_pipes w1 = w_pipes w) as (Hmg&Hlg&Hpi)
    by (unfold w1, cancel_opt; by destruct (mediaCancel _)).
  cbn [with_cancel fst snd w_mgr set_ctxs] in Hb. rewrite Hmg in Hb.
  destruct (nextOperationID (w_mgr w)) as [o' m'] eqn:Hn. injection Hb as <- <- <-.
  assert (issued (w_log w ++ [MediaBegan (operationSequence (w_mgr w) + 1)]) < 2 ^ 64) as Hl2.
  { unfold lim in Hl. simpl in Hl. rewrite Hlg in Hl. rewrite issued_mark in * by done. done. }
  destruct (next_id w MediaBegan Hi (fun _ => eq_refl) Hl2) as [Hnext Hgood]. cbv zeta in Hnext, Hgood.
  rewrite Hn in Hnext. injection Hnext as -> ->. split_and!; [|..|done].
  - apply (mark_inv w _ (MediaBegan (operationSequence (w_mgr w) + 1))); try done; simpl; rewrite ?Hlg, ?Hpi; try done; try lia.
    + rewrite issued_mark by done. by rewrite (proj1 (iv_issued w Hi)).
    + unfold last_media. by rewrite foldl_app.
    + unfold holder. rewrite foldl_app. apply (iv_holder w Hi).
    + pose proof (iv_bulk w Hi). destruct (bulkTransfer _); [lia|done].
  - apply (mark_step O O w _ (MediaBegan (operationSequence (w_mgr w) + 1))); try done; simpl; rewrite ?Hlg, ?Hpi; try done; [lia|].
    intros t Ht. by left.
Qed.

(** What the tokens not needed stand for is kept. *)
Lemma twp_keep T {A} (p : proc World A) (Q : A -> World -> Prop) O w :
  twp T p (fun O' a w' => O' = T /\ Q a w') w -> T ⊆ O ->
  twp O p (fun O' a w' => O' = O /\ trely (O ∖ T) w w' /\ Q a w') w.
Proof.
  intros Hp HT. pose proof (owp_frame same fresh owed Rel Inv lim T (O ∖ T) p _ w ltac:(set_solver) Hp) as Hf.
  assert (T ∪ O ∖ T = O) as HO by (symmetry; by apply union_difference_L).
  rewrite HO in Hf. eapply owp_mono; [|exact Hf]. by intros O' a w' (O1&->&_&HR&->&HQ).
Qed.

Lemma calm_keep T {A} (p : proc World A) O w : calm T p -> T ⊆ O ->
  twp O p (fun O' _ w' => O' = O /\ trely (O ∖ T) w w') w.
Proof.
  intros Hp HT. eapply owp_mono; [|apply (twp_keep T p (fun _ _ => True)); [|done]].
  - by intros O' a w' (->&HR&_).
  - eapply owp_mono; [|by apply Hp]. done.
Qed.

(** ** The media lane *)

Lemma media_current w o : Inv w -> 0 < o -> mediaOperation (media (w_mgr w)) = o -> last_media (w_log w) = Some o.
Proof. intros Hi Ho Hm. pose proof (iv_media w Hi) as Hl. destruct (last_media _); simpl in Hl; [by f_equal; lia|lia]. Qed.

Lemma calm_media T (p : World -> bool) e o :
  0 < o -> no_mark e -> bulk_of e = None -> media_of e = Some o -> (forall o n, ~ is_end o n e) ->
  (forall w, p w = true -> mediaOperation (media (w_mgr w)) = o) -> calm T (send_if p e).
Proof.
  intros Ho Hn Hb Hm He Hp O w HT. eapply owp_mono; [|eapply (twp_send_if T)]; [by intros O' b w' [-> _]|..]; [|done| |done].
  - intros w1 _ Hi Hw. constructor; [congruence| |by intros ?? ?%He].
    intros o' Ho'. rewrite Hm in Ho'. injection Ho' as <-. by apply media_current; [..|apply Hp].
  - intros o' Ho'. congruence.
Qed.

Lemma calm_begin_media T id quality generation O w : T ⊆ O ->
  twp O (beginMedia id quality generation) (fun O' r _ => O' = O /\ good_op r.2) w.
Proof.
  intros HT. apply twp_atomic. intros w1 [ctx o] w2 Hw Hi Hm Hb Hl.
  destruct (begin_locked_spec O w1 ctx o w2 id quality generation Hi Hm Hl Hb) as (?&?&?).
  split; [done|]. by exists O.
Qed.

Lemma calm_begin_newer T parent id quality generation O w : T ⊆ O ->
  twp O (beginMediaIfNewer parent id quality generation)
    (fun O' r _ => O' = O /\ match r with Some r => good_op r.2 | None => True end) w.
Proof.
  intros HT. apply twp_atomic. intros w1 r w2 Hw Hi Hm Hin Hl. cbv zeta in Hin.
  destruct (negb _ || _ || _ || _ || _); [simplify_eq; split; [done|]; exists O; split; [by apply core_guar|done]|].
  destruct (beginMediaLocked id quality generation w1) as [[ctx o] w3] eqn:Hb. injection Hin as <- <-.
  destruct (begin_locked_spec O w1 ctx o w3 id quality generation Hi Hm Hl Hb) as (?&?&?).
  split; [done|]. by exists O.
Qed.

Lemma calm_finish_media T o : calm T (finishMedia o).
Proof.
  apply calm_modifies. intros w. cbv zeta. destruct (mediaOperation _ =? _); [|done]. unfold cancel_opt. by destruct (mediaCancel _).
Qed.

Lemma calm_mgr_get T {A} (f : Manager -> A) : calm T (mgr_get f).
Proof. apply calm_reads. Qed.
Lemma calm_backend T {A} (f : backend -> A) : calm T (backend_get f).
Proof. apply calm_reads. Qed.

Lemma calm_wait_room T ctx lane : calm T (wait_room ctx lane).
Proof.
  apply calm_iter; [|intros b; apply calm_ret]. intros []. apply calm_bind; [apply calm_reads|]. intros b.
  destruct (maxBuffer <? b); [|apply calm_ret]. apply calm_core. intros w1 r w2 Hin. 
  apply elem_of_cons in Hin as [Hin|Hin]; [by simplify_eq|]. destruct (ctx_done _ _); [|by apply elem_of_nil in Hin].
  apply list_elem_of_singleton in Hin. by simplify_eq.
Qed.

Lemma media_error_good T o r m : good_op o -> calm T (sendMediaErrorIfActive o r m).
Proof.
  intros Ho. unfold good_op in Ho. apply calm_bind; [|intros _; apply calm_ret]. apply (calm_media T _ _ o); [lia|done|..]; simpl.
  - by rewrite op_error.
  - by rewrite op_error.
  - intros o' n. by apply not_end.
  - intros w [Hw _]%andb_prop. by apply Z.eqb_eq.
Qed.

Lemma media_control_good T o m : good_op o -> scope_op "media" m = Some o -> scope_op "bulk" m = None ->
  tget "type" m <> Some (JStr "chunk_end") -> calm T (sendMediaControlIfCurrent o m).
Proof.
  intros Ho Hm Hb He. unfold good_op in Ho. apply (calm_media T _ _ o); [lia|done|done|done|by intros o' n; apply not_end|].
  intros w Hw. by apply Z.eqb_eq.
Qed.

Lemma interactive_good T ctx o g b : good_op o -> calm T (sendInteractiveMedia ctx o (encodeChunkFrame o g b)).
Proof.
  intros Ho. unfold good_op in Ho. apply calm_bind; [apply calm_wait_room|]. intros [|]; cbn [negb]; [|apply calm_ret].
  apply (calm_media T _ _ o); [lia|done|done| | |].
  - unfold media_of. rewrite bool_decide_true by done. by rewrite frame_op_chunk by lia.
  - by intros o' n (r&[?|?]).
  - intros w [_ Hw]%andb_prop. by apply Z.eqb_eq.
Qed.

(** ** The bulk lane *)

(** A send about an operation one holds. *)
Lemma twp_bulk_send (p : World -> bool) e o O w :
  good_op o -> TOp o ∈ O -> holds o w -> no_mark e -> bulk_of e = Some o -> media_of e = None ->
  (forall o' n w1, is_end o' n e -> trely O w w1 -> complete o' n (w_log w1)) ->
  twp O (send_if p e) (fun O' ok w' => O' = O /\ holds o w' /\
    sends o (w_log w') = sends o (w_log w) ++ (if (ok : bool) then [e] else [])) w.
Proof.
  intros Ho HO Hh Hn Hb Hm He. eapply owp_mono; [|eapply (twp_send_if ∅)].
  - intros O' ok w' (->&w1&w2&H1&H2&Hok). split; [done|].
    destruct (proj2 H1 (TOp o) HO) as [Hh1 Hs1], (proj2 H2 (TOp o) HO) as [Hh2 Hs2]. rewrite Hs2.
    destruct ok; rewrite Hok in *.
    + split; [apply Hh2; simpl; by apply Hh1|]. simpl. rewrite sends_app, Hs1. unfold sends at 2. by rewrite filter_cons_True.
    + split; [auto|]. by rewrite Hs1, app_nil_r.
  - intros w1 Hw Hi _. constructor; [|congruence|by intros o' n ?%(He o' n w1)].
    intros o' Ho'. rewrite Hb in Ho'. injection Ho' as <-. destruct (proj2 Hw (TOp o) HO) as [Hh1 _].
    destruct (Hh1 Hh) as [Ht Hop]. rewrite (iv_holder w1 Hi), Ht. by rewrite Hop.
  - done.
  - intros o' Ho'. rewrite Hb in Ho'. by injection Ho' as <-.
  - set_solver.
Qed.

(** With an id taken from the sequence, the lane is held. *)
Lemma take_bulk O w :
  Inv w -> tmade O w -> (forall o, holds o w -> TOp o ∈ O) ->
  let '(o, m) := nextOperationID (w_mgr w) in
  let w2 := add_log (BulkTaken o) (set_mgr (set_bulk (mkBulk true o) m) w) in
  lim w2 ->
  Inv w2 /\ tguar O ({[TOp o]} ∪ O) w w2 /\ good_op o /\ holds o w2 /\ sends o (w_log w2) = [].
Proof.
  intros Hi Hm Hh. destruct (nextOperationID (w_mgr w)) as [o m] eqn:Hn. cbv zeta. intros Hl.
  assert (issued (w_log w ++ [BulkTaken (operationSequence (w_mgr w) + 1)]) < 2 ^ 64) as Hl2.
  { unfold lim in Hl. simpl in Hl. rewrite issued_mark in * by done. done. }
  destruct (next_id w BulkTaken Hi (fun _ => eq_refl) Hl2) as [Hnext Hgood]. cbv zeta in Hnext, Hgood.
  rewrite Hn in Hnext. injection Hnext as -> ->. split_and!; [| |done|done|].
  - apply (mark_inv w _ (BulkTaken (operationSequence (w_mgr w) + 1))); try done; simpl; try lia.
    + rewrite issued_mark by done. by rewrite (proj1 (iv_issued w Hi)).
    + unfold last_media. rewrite foldl_app. apply (iv_media w Hi).
    + unfold holder. by rewrite foldl_app.
    + destruct Hgood. lia.
  - apply (mark_step O _ w _ (BulkTaken (operationSequence (w_mgr w) + 1))); try done; simpl; [lia|..].
    + intros o Hno _ Hho. by destruct Hno; apply Hh.
    + intros t [->%elem_of_singleton|Ht]%elem_of_union; [right; eexists; split; [done|lia]|by left].
  - simpl. rewrite sends_app. unfold sends at 2. rewrite filter_cons_False, filter_nil, app_nil_r by done.
    unfold sends. apply elem_of_nil_inv. intros e [Hb Hin]%list_elem_of_filter. pose proof (iv_ops w Hi e _ Hin Hb). lia.
Qed.

(** What a goroutine that took the lane knows. *)
Definition began (O : gset tok) (r : option Z) (O' : gset tok) (w : World) : Prop :=
  match r with
  | None => O' = O
  | Some o => O' = {[TOp o]} ∪ O /\ good_op o /\ holds o w /\ sends o (w_log w) = []
  end.

Lemma began_rely O o w w' : trely ({[TOp o]} ∪ O) w w' ->
  began O (Some o) ({[TOp o]} ∪ O) w -> began O (Some o) ({[TOp o]} ∪ O) w'.
Proof.
  intros [_ Hs] (_&Ho&Hh&Hse). destruct (Hs (TOp o) ltac:(set_solver)) as [Hh' Hs'].
  split_and!; [done|done|by apply Hh'|]. by rewrite Hs'.
Qed.

Lemma acquire_spec r O w : twp O (acquireBulk r) (fun O' o w' => began O o O' w') w.
Proof.
  apply twp_choices. intros w1 Hw Hi Hm b w2 Hin Hl. pose proof (iv_holder w1 Hi) as Hho.
  destruct (bulkTransfer (bulk (w_mgr w1))) eqn:Hbt.
  - apply list_elem_of_fmap in Hin as ([ok w3]&[= -> ->]&Hin). simpl in *.
    assert (quiet (SentText (error_obj "bulk" r "transfer in progress"))) as Hq by apply quiet_error.
    apply elem_of_cons in Hin as [Hin|Hin%list_elem_of_singleton]; simplify_eq.
    + destruct (log_step O (SentText (error_obj "bulk" r "transfer in progress")) w1 _ Hi Hm (logs_add _ _)) as [? ?];
        [apply Hq|by apply quiet_good|destruct Hq as (_&Hb&_); congruence|].
      split; [done|]. by exists O.
    + split; [done|]. exists O. split; [by apply core_guar|done].
  - pose proof (take_bulk O w1 Hi Hm) as Ht. destruct (nextOperationID (w_mgr w1)) as [o m].
    apply list_elem_of_singleton in Hin. simplify_eq. destruct Ht as (?&?&?&?&?); [|done|].
    { intros o' [Hb _]. congruence. }
    split; [done|]. eexists. split; [done|]. intros w3 Hw3. by eapply began_rely.
Qed.

Lemma advance_spec o O w : TOp o ∈ O -> twp O (advanceBulkOperation o) (fun O' o' w' => began O o' O' w') w.
Proof.
  intros HO. apply twp_atomic. intros w1 b w2 Hw Hi Hm Hin Hl. 
  destruct (negb _ || negb _) eqn:Hc; [simplify_eq; split; [done|]; exists O; split; [by apply core_guar|done]|].
  apply orb_false_elim in Hc as [Hc1%negb_false_iff Hc2%negb_false_iff%Z.eqb_eq].
  pose proof (take_bulk O w1 Hi Hm) as Ht. destruct (nextOperationID (w_mgr w1)) as [o' m] eqn:Hn.
  assert (bulk m = bulk (w_mgr w1)) as Hbm by (unfold nextOperationID in Hn; by simplify_eq).
  rewrite Hbm, Hc1 in Hin. injection Hin as <- <-. destruct Ht as (?&?&?&?&?); [|done|].
  { intros o2 [_ Ho2]. by rewrite <- Ho2, Hc2. }
  split; [done|]. eexists. split; [done|]. intros w3 Hw3. by eapply began_rely.
Qed.

Lemma calm_release o : good_op o -> calm {[TOp o]} (releaseBulk o).
Proof.
  intros Ho O w HT. apply twp_modifies. intros w1 Hw Hi Hm Hl.
  destruct (bulkOperation (bulk (w_mgr w1)) =? o) eqn:Heq; [|split; [done|]; exists O; split; [by apply core_guar|done]].
  apply Z.eqb_eq in Heq. unfold good_op in Ho. pose proof (iv_bulk w1 Hi) as Hb.
  destruct (bulkTransfer (bulk (w_mgr w1))) eqn:Hbt; [|lia]. assert (TOp o ∈ O) as HO by set_solver.
  assert (forall l, issued (l ++ [BulkFreed o]) = issued l) as His.
  { intros l. rewrite issued_app. assert (issued [BulkFreed o] = 0) as -> by done. lia. }
  split.
  - apply (mark_inv w1 _ (BulkFreed o)); try done; simpl; try lia.
    + rewrite His. symmetry. apply (iv_issued w1 Hi).
    + unfold last_media. rewrite foldl_app. apply (iv_media w1 Hi).
    + unfold holder. by rewrite foldl_app.
  - exists O. split; [|done]. apply (mark_step O O w1 _ (BulkFreed o)); try done; simpl; try lia.
    + intros o' Hno _ [_ Ho']. by destruct Hno; rewrite <- Ho', Heq.
    + intros t Ht. by left.
Qed.

Lemma calm_bulk_error o r m : good_op o -> calm {[TOp o]} (sendBulkErrorIfActive o r m).
Proof.
  intros Ho. unfold good_op in Ho. apply calm_bind; [|intros _; apply calm_ret]. intros O w HT.
  eapply owp_mono; [|eapply (twp_send_if ∅)]; [by intros O' b w' [-> _]|..]; [|done| |set_solver].
  - intros w1 _ Hi [[Hw1%Z.eqb_eq Hw2]%andb_prop _]%andb_prop. constructor.
    + intros o' Ho'. simpl in Ho'. rewrite op_error in Ho' by done. injection Ho' as <-.
      by rewrite (iv_holder w1 Hi), Hw2, Hw1.
    + intros o' Ho'. simpl in Ho'. by rewrite op_error in Ho' by done.
    + intros o' n He. by apply not_end in He.
  - intros o' Ho'. simpl in Ho'. rewrite op_error in Ho' by done. injection Ho' as <-. set_solver.
Qed.

(** ** Pipes *)

Lemma get_put_eq p x (w : World) : (p < length (w_pipes w))%nat -> get_pipe p (put_pipe p x w) = x.
Proof. intros Hp. unfold get_pipe. simpl. by rewrite list_lookup_insert_eq. Qed.
Lemma get_put_ne p q x (w : World) : p <> q -> get_pipe q (put_pipe p x w) = get_pipe q w.
Proof. intros Hp. unfold get_pipe. simpl. by rewrite list_lookup_insert_ne. Qed.
Lemma get_pipe_ok p (w : World) : Inv w -> (p < length (w_pipes w))%nat -> pipe_ok (get_pipe p w).
Proof.
  intros Hi Hp. unfold get_pipe. destruct (w_pipes w !! p) as [x|] eqn:Hx; [by eapply iv_pipes|].
  apply lookup_ge_None in Hx. lia.
Qed.

(** An end's owner works on its pipe. *)
Lemma pipe_step O p x (w : World) :
  Inv w -> tmade O w -> (p < length (w_pipes w))%nat -> pipe_ok x -> p_src x = p_src (get_pipe p w) ->
  (TRd p ∉ O -> p_rclosed x = p_rclosed (get_pipe p w) /\ p_read x = p_read (get_pipe p w)) ->
  (TWr p ∉ O -> p_hist x = p_hist (get_pipe p w) /\ p_wclosed x = p_wclosed (get_pipe p w)) ->
  Inv (put_pipe p x w) /\ tguar O O w (put_pipe p x w).
Proof.
  intros Hi Hm Hp Hx Hsrc Hrd Hwr. split.
  - destruct Hi as [H1 H2 H3 H4 H5 H6 H7]. constructor; try done.
    intros i y Hy. apply list_lookup_insert_Some in Hy as [(_&<-&_)|[_ Hy]]; [done|by eapply H1].
  - constructor.
    + constructor; simpl; [done|by rewrite length_insert|]. intros q Hq. destruct (decide (p = q)) as [<-|Hne];
        [by rewrite get_put_eq|by rewrite get_put_ne].
    + intros t Ht _. destruct t as [o|q|q]; cbn [same]; [done|..];
        (destruct (decide (p = q)) as [<-|Hne]; [rewrite get_put_eq by done; auto|by rewrite get_put_ne]).
    + intros t Ht. split; [|by left]. pose proof (Hm t Ht) as Hf. destruct t; simpl in *; rewrite ?length_insert; done.
    + intros [o|q|q]; simpl; by rewrite ?length_insert.
Qed.

(** The tokens of other things are untouched by that. *)
Lemma pipe_other O p x (w : World) : (p < length (w_pipes w))%nat -> p_src x = p_src (get_pipe p w) ->
  trely (O ∖ {[TRd p; TWr p]}) w (put_pipe p x w).
Proof.
  intros Hp Hsrc. split.
  - constructor; simpl; [done|by rewrite length_insert|]. intros q Hq. destruct (decide (p = q)) as [<-|Hne];
      [by rewrite get_put_eq|by rewrite get_put_ne].
  - intros t Ht. destruct t as [o|q|q]; cbn [same]; [done|..]; rewrite get_put_ne; try done; set_solver.
Qed.

Lemma pipe_made O p (w : World) : tmade O w -> TRd p ∈ O \/ TWr p ∈ O -> (p < length (w_pipes w))%nat.
Proof. intros Hm [Hp|Hp]; apply Hm in Hp; simpl in Hp; lia. Qed.

Definition pipe_fresh (src : source) (p : nat) (w : World) : Prop :=
  (p < length (w_pipes w))%nat /\ p_src (get_pipe p w) = src /\ p_hist (get_pipe p w) = [] /\ p_wclosed (get_pipe p w) = None
  /\ p_read (get_pipe p w) = [] /\ p_rclosed (get_pipe p w) = false.

Lemma pipe_fresh_rely src p O w w' : TRd p ∈ O -> TWr p ∈ O -> trely O w w' -> pipe_fresh src p w -> pipe_fresh src p w'.
Proof.
  intros Hr Hw [HR Hs] (Hp&H1&H2&H3&H4&H5). destruct (Hs _ Hr) as [Hr1 Hr2], (Hs _ Hw) as [Hw1 Hw2].
  destruct HR as [_ Hlen Hsrc]. split_and!; [lia| |congruence..]. by rewrite Hsrc.
Qed.

Lemma pipe_new_spec src O w : twp O (pipe_new src) (fun O' p w' =>
  O' = {[TRd p; TWr p]} ∪ O /\ trely O w w' /\ pipe_fresh src p w' /\ (TRd p ∉ O) /\ (TWr p ∉ O)) w.
Proof.
  apply twp_atomic. intros w1 p w2 Hw Hi Hm [= <- <-] Hl. set (p := length (w_pipes w1)). set (x := mkPipe src [] [] None None false).
  set (w2 := set_pipes _ _).
  assert (forall q, (q < p)%nat -> get_pipe q w2 = get_pipe q w1) as Hold.
  { intros q Hq. unfold get_pipe. simpl. by rewrite lookup_app_l by done. }
  assert (get_pipe p w2 = x) as Hnew.
  { unfold get_pipe. simpl. unfold p. by rewrite list_lookup_middle. }
  assert (forall t, ~ fresh t w1 -> same t w1 w2) as Hsame.
  { intros [o|q|q] Hf; cbn [same fresh] in *; [done|..]; rewrite Hold by (unfold p; lia); done. }
  assert (Rel w1 w2) as HR.
  { constructor; [done|simpl; rewrite length_app; lia|]. intros q Hq. by rewrite Hold. }
  assert ((TRd p ∉ O) /\ (TWr p ∉ O)) as [Hnr Hnw].
  { split; intros Hin; apply Hm in Hin; simpl in Hin; unfold p in Hin; lia. }
  split.
  - destruct Hi as [H1 H2 H3 H4 H5 H6 H7]. constructor; try done.
    intros i y Hy. simpl in Hy. apply lookup_snoc_Some in Hy as [[_ Hy]|[_ <-]]; [by eapply H1|]. split; [done|]. by intros [=].
  - exists ({[TRd p; TWr p]} ∪ O). split.
    + constructor; [done|by intros; apply Hsame| |].
      * intros t [Ht|Ht]%elem_of_union.
        -- assert (t = TRd p \/ t = TWr p) as [-> | ->] by set_solver; split; simpl; rewrite ?length_app; simpl; unfold p;
             [lia|right; lia|lia|right; lia].
        -- split; [|by left]. pose proof (Hm t Ht) as Hf. destruct t; simpl in *; (rewrite ?length_app; (lia || done)).
      * intros [o|q|q]; simpl; (rewrite ?length_app; (lia || done)).
    + intros w3 Hw3. split; [done|]. split_and!; [| |done|done].
      * etransitivity; [exact Hw|]. etransitivity; [|eapply trely_sub; [|exact Hw3]; set_solver].
        split; [done|]. intros t Ht. by apply Hsame, Hm.
      * eapply pipe_fresh_rely; [..|exact Hw3|]; [set_solver..|]. unfold pipe_fresh. rewrite Hnew.
        split_and!; try done. simpl. rewrite length_app. simpl. unfold p. lia.
Qed.

(** The whole of some successful answer of the backend. *)
Definition all_of (src : source) (b : bytes) : Prop :=
  exists be chunks, source_stream src be = (chunks, None) /\ b = concat chunks.

Lemma read_spec p n O w : TRd p ∈ O ->
  twp O (pipe_read p n) (fun O' r w' => O' = O /\ trely (O ∖ {[TRd p]}) w w' /\
    match r with
    | RData b => p_read (get_pipe p w') = p_read (get_pipe p w) ++ b
    | REnd None => p_read (get_pipe p w') = p_read (get_pipe p w) /\ all_of (p_src (get_pipe p w')) (p_read (get_pipe p w'))
    | REnd (Some _) => True
    end) w.
Proof.
  intros HO. apply twp_choices. intros w1 Hw Hi Hm r w2 Hin Hl. cbv zeta in Hin. destruct (proj2 Hw _ HO) as [Hc1 Hr1].
  assert ((p < length (w_pipes w1))%nat) as Hp by (eapply pipe_made; eauto).
  pose proof (get_pipe_ok p w1 Hi Hp) as Hok. destruct Hok as [Hhist Heof].
  assert (trely (O ∖ {[TRd p]}) w w1) as Hw' by (eapply trely_sub; [|exact Hw]; set_solver).
  destruct (p_rclosed (get_pipe p w1)) eqn:Hc.
  { apply list_elem_of_singleton in Hin. injection Hin as -> ->. split; [done|]. exists O. split; [by apply core_guar|].
    intros w3 Hw3. split_and!; [done| |done]. etransitivity; [exact Hw'|]. eapply trely_sub; [|exact Hw3]. set_solver. }
  destruct (p_offer (get_pipe p w1)) as [b|] eqn:Hof.
  - apply list_elem_of_singleton in Hin. injection Hin as -> ->. set (x := mkPipe _ _ _ _ _ _).
    assert (pipe_ok x) as Hx.
    { split; [|done]. intros _. simpl. rewrite Hhist by done. simpl. rewrite <- app_assoc. f_equal.
      rewrite <- (take_drop (Z.to_nat n) b) at 1. f_equal. by case_bool_decide. }
    destruct (pipe_step O p x w1 Hi Hm Hp Hx) as [HI HG]; [done|done|done|]. split; [done|]. exists O. split; [done|].
    intros w3 Hw3. destruct (proj2 Hw3 _ HO) as [Hc3 Hr3]. rewrite get_put_eq in Hc3, Hr3 by done.
    split_and!; [done| |rewrite Hr3; simpl; by rewrite Hr1].
    etransitivity; [exact Hw'|]. etransitivity; [|eapply trely_sub; [|exact Hw3]; set_solver].
    split; [apply (gu_rel _ _ _ _ _ _ _ HG)|]. intros t Ht.
    destruct (decide (t = TWr p)) as [->|Hne]; [cbn [same]; by rewrite get_put_eq|].
    apply (pipe_other O p x w1 Hp); [done|set_solver].
  - destruct (p_wclosed (get_pipe p w1)) as [e|] eqn:Hwc; [|by apply elem_of_nil in Hin].
    apply list_elem_of_singleton in Hin. injection Hin as -> ->. split; [done|]. exists O. split; [by apply core_guar|].
    intros w3 Hw3. destruct (proj2 Hw3 _ HO) as [Hc3 Hr3]. split_and!; [done| |].
    { etransitivity; [exact Hw'|]. eapply trely_sub; [|exact Hw3]. set_solver. }
    destruct e as [e|]; [done|]. split; [congruence|]. rewrite Hr3.
    destruct Hw3 as [[_ _ Hsrc] _]. rewrite Hsrc by done. destruct (Heof eq_refl) as (be&chunks&Hs&Hh).
    exists be, chunks. split; [done|]. rewrite <- Hh, Hhist by done. simpl. by rewrite app_nil_r.
Qed.

Lemma calm_close_read p : calm {[TRd p]} (pipe_close_read p).
Proof.
  intros O w HT. apply twp_modifies. intros w1 Hw Hi Hm Hl. cbv zeta.
  assert ((p < length (w_pipes w1))%nat) as Hp by (eapply pipe_made; [done|left; set_solver]).
  destruct (get_pipe_ok p w1 Hi Hp) as [_ Heof].
  set (x := mkPipe _ _ _ _ _ _). destruct (pipe_step O p x w1 Hi Hm Hp) as [HI HG]; [by split|done|set_solver|done|].
  split; [done|]. by exists O.
Qed.

(** The writer's end. *)
Definition written (p : nat) (b : bytes) (w : World) : Prop :=
  p_hist (get_pipe p w) = b /\ p_wclosed (get_pipe p w) = None.

Lemma written_rely p b O w w' : TWr p ∈ O -> trely O w w' -> written p b w -> written p b w'.
Proof. intros HO [_ Hs] [H1 H2]. destruct (Hs _ HO). split; congruence. Qed.

Lemma close_write_spec p e b O w : TWr p ∈ O -> written p b w ->
  (e = None -> exists src, all_of src b /\ forall w1, trely O w w1 -> p_src (get_pipe p w1) = src) ->
  twp O (pipe_close_write p e) (fun O' _ _ => O' = O) w.
Proof.
  intros HO Hb He. apply twp_modifies. intros w1 Hw Hi Hm Hl. cbv zeta.
  destruct (written_rely _ _ _ _ _ HO Hw Hb) as [Hh Hc].
  assert ((p < length (w_pipes w1))%nat) as Hp by (eapply pipe_made; eauto).
  destruct (get_pipe_ok p w1 Hi Hp) as [Hhist _]. rewrite Hc.
  set (x := mkPipe _ _ _ _ _ _). destruct (pipe_step O p x w1 Hi Hm Hp) as [HI HG]; [|done|done|done|].
  - split; [done|]. simpl. intros [= ->]. destruct (He eq_refl) as (src&(be&chunks&Hs&->)&Hsrc).
    exists be, chunks. by rewrite Hsrc.
  - split; [done|]. by exists O.
Qed.

Lemma write_spec p b h O w : TWr p ∈ O -> written p h w ->
  twp O (pipe_write p b) (fun O' ok w' => O' = O /\ Rel w w' /\ exists h', written p h' w' /\ ((ok : bool) = true -> h' = h ++ b)) w.
Proof.
  intros HO Hb. unfold pipe_write. apply owp_bind; [apply _..|]. eapply owp_mono; [|apply (twp_choices O _ (fun O' ok w' =>
    O' = O /\ Rel w w' /\ written p (if (ok : bool) then h ++ b else h) w'))].
  - intros O' [|] w' (->&HR&Hb').
    + apply twp_core.
      * intros w1 r w2. destruct (p_rclosed _); [|destruct (p_offer _); [by intros ?%elem_of_nil|]];
          by intros [= -> ->]%list_elem_of_singleton.
      * intros w1 r w2 w3 Hw Hi Hin Hw3. assert (w2 = w1) as ->.
        { destruct (p_rclosed _); [|destruct (p_offer _); [by apply elem_of_nil in Hin|]];
            apply list_elem_of_singleton in Hin; by simplify_eq. }
        assert (trely O w' w3) as Hw' by (by etransitivity).
        split; [done|]. split; [etransitivity; [exact HR|apply Hw']|]. exists (h ++ b). split; [by eapply written_rely|done].
    + apply owp_ret. intros w1 Hw. split; [done|]. split; [etransitivity; [exact HR|apply Hw]|].
      exists h. split; [by eapply written_rely|done].
  - intros w1 Hw Hi Hm ok w2 Hin Hl. cbv zeta in Hin. pose proof (written_rely _ _ _ _ _ HO Hw Hb) as [Hh Hc].
    destruct (p_rclosed (get_pipe p w1)) eqn:Hrc.
    + apply list_elem_of_singleton in Hin. injection Hin as -> ->. split; [done|]. exists O. split; [by apply core_guar|].
      intros w3 Hw3. split; [done|]. split; [etransitivity; [apply Hw|apply Hw3]|]. by eapply written_rely.
    + destruct (p_offer (get_pipe p w1)) eqn:Hof; [by apply elem_of_nil in Hin|].
      apply list_elem_of_singleton in Hin. injection Hin as -> ->. set (x := mkPipe _ _ _ _ _ _).
      assert ((p < length (w_pipes w1))%nat) as Hp by (eapply pipe_made; eauto).
      destruct (get_pipe_ok p w1 Hi Hp) as [Hhist _].
      destruct (pipe_step O p x w1 Hi Hm Hp) as [HI HG]; [|done|done|done|].
      * split; simpl; [|congruence]. intros _. rewrite Hhist by done. by rewrite Hof, app_nil_r.
      * split; [done|]. exists O. split; [done|]. intros w3 Hw3. split; [done|].
        split; [etransitivity; [apply Hw|]; etransitivity; [apply HG|apply Hw3]|].
        eapply written_rely; [exact HO|exact Hw3|]. split; rewrite get_put_eq by done; [simpl; by rewrite Hh|done].
Qed.

Lemma twp_reads {A} O (f : World -> A) (Q : gset tok -> A -> World -> Prop) w :
  (forall w1 w3, trely O w w1 -> trely O w1 w3 -> Q O (f w1) w3) -> twp O (reads f) Q w.
Proof.
  intros Hf. unfold reads. apply (twp_core O (fun w => [(f w, w)])).
  - by intros w1 b w2 [= -> ->]%list_elem_of_singleton.
  - intros w1 b w2 w3 Hw _ [= -> ->]%list_elem_of_singleton Hw3. by apply Hf.
Qed.

(** Which pipe it is does not change. *)
Definition feeds (src : source) (p : nat) (w : World) : Prop :=
  (p < length (w_pipes w))%nat /\ p_src (get_pipe p w) = src.

Lemma feeds_rel src p w w' : Rel w w' -> feeds src p w -> feeds src p w'.
Proof. intros [_ Hl Hs] [Hp Hsrc]. split; [lia|]. by rewrite Hs. Qed.

Lemma close_failed p e b O w : TWr p ∈ O -> written p b w -> twp O (pipe_close_write p (Some e)) (fun _ _ _ => True) w.
Proof. intros HO Hb. eapply owp_mono; [|by eapply close_write_spec]. done. Qed.

Lemma write_chunks_spec ctx src be p e chunks past O w :
  TWr p ∈ O -> feeds src p w -> written p (concat past) w -> source_stream src be = (past ++ chunks, e) ->
  twp O (write_chunks ctx p chunks e) (fun _ _ _ => True) w.
Proof.
  intros HO. revert past w. induction chunks as [|b chunks IH]; intros past w Hf Hb Hs; cbn [write_chunks].
  - rewrite app_nil_r in Hs. eapply owp_mono; [|eapply (close_write_spec _ _ _ _ _ HO Hb)]; [done|].
    intros ->. exists src. split; [by exists be, past|]. intros w1 Hw. apply (feeds_rel src p w w1); [apply Hw|done].
  - apply owp_bind; [apply _..|].
    eapply owp_mono; [|apply (calm_keep ∅); [apply calm_core|set_solver]].
    2:{ intros w1 r w2 [[= -> ->]|Hin]%elem_of_cons; [done|]. destruct (ctx_done _ _); [|by apply elem_of_nil in Hin].
        by apply list_elem_of_singleton in Hin as [= -> ->]. }
    intros O' go w' [-> HR]. rewrite difference_empty_L in HR.
    pose proof (written_rely _ _ _ _ _ HO HR Hb) as Hb'. pose proof (feeds_rel _ _ _ _ (proj1 HR) Hf) as Hf'.
    destruct go; [|by eapply close_failed]. apply owp_bind; [apply _..|].
    eapply owp_mono; [|by apply (write_spec p b (concat past))]. intros O' ok w2 (->&HR2&h&Hh&Hok).
    destruct ok; [|by eapply close_failed]. rewrite (Hok eq_refl) in Hh.
    apply (IH (past ++ [b])); [by eapply feeds_rel| |by rewrite <- app_assoc]. by rewrite concat_app; simpl; rewrite app_nil_r.
Qed.

Lemma run_stream_spec ctx src p O w : TWr p ∈ O -> pipe_fresh src p w ->
  twp O (run_stream ctx p src) (fun _ _ _ => True) w.
Proof.
  intros HO (Hp&Hsrc&Hh&Hc&_). unfold run_stream, backend_get. apply owp_bind; [apply _..|]. apply twp_reads.
  intros w1 w3 Hw1 Hw3. assert (trely O w w3) as Hw by (by etransitivity).
  eapply (write_chunks_spec ctx src (w_backend w1) p _ _ []); [done| | |by apply surjective_pairing].
  - eapply feeds_rel; [apply Hw|done].
  - eapply written_rely; [done|exact Hw|done].
Qed.
End safe.
