(* ===== verification/TransferSafe.v ===== *)
(** What holds of the agent's transfers in every interleaving of its
    goroutines: the two data lanes never mix operations, and a download that
    is reported complete was sent in full. *)

From stdpp Require Import pretty.
From S2P Require Import Prelude GoText Lanes Conc ConcOwn Json TransferState Transfer TransferInv.
#[local] Open Scope Z_scope.

Section safe.
Context `{Backend}.
Abbreviation twp := (owp same fresh owed Rel Inv lim).
Abbreviation trely := (rely same Rel).

(** * Bulk transfers *)

(** What has been sent is the bytes read from the pipe. *)
Record copying (src : source) (o : Z) (p : nat) (w : World) : Prop := {
  cp_holds : holds o w;
  cp_sent : payload o (w_log w) = p_read (get_pipe p w);
  cp_from : Streams o src ∈ w_log w;
  cp_pipe : feeds src p w }.

Lemma log_incl (w w' : World) e : Rel w w' -> e ∈ w_log w -> e ∈ w_log w'.
Proof. intros [[l ->] _ _] He. apply elem_of_app. by left. Qed.

Lemma copying_rely src o p O w w' : TOp o ∈ O -> TRd p ∈ O -> trely O w w' -> copying src o p w -> copying src o p w'.
Proof.
  intros Ho Hp [HR Hs] [H1 H2 H3 H4]. destruct (Hs _ Ho) as [Hh Hse], (Hs _ Hp) as [_ Hrd]. constructor.
  - by apply Hh.
  - unfold payload. by rewrite Hse, Hrd.
  - by eapply log_incl.
  - by eapply feeds_rel.
Qed.

Lemma payload_rely o O w w' : TOp o ∈ O -> trely O w w' -> payload o (w_log w') = payload o (w_log w).
Proof. intros Ho [_ Hs]. destruct (Hs _ Ho) as [_ Hse]. unfold payload. by rewrite Hse. Qed.

Lemma holds_rely o O w w' : TOp o ∈ O -> trely O w w' -> holds o w -> holds o w'.
Proof. intros Ho [_ Hs]. destruct (Hs _ Ho) as [Hh _]. exact Hh. Qed.

(** A frame of the operation's data. *)
Lemma send_chunk ctx o b O w : good_op o -> TOp o ∈ O -> holds o w ->
  twp O (sendWithBackpressure ctx LaneBulk ClassBulk (encodeChunkFrame o 0 b))
    (fun O' ok w' => O' = O /\ trely (O ∖ {[TOp o]}) w w' /\ holds o w' /\
       payload o (w_log w') = payload o (w_log w) ++ (if (ok : bool) then b else [])) w.
Proof.
  intros Ho HO Hh. apply twp_keep; [|set_solver]. unfold sendWithBackpressure. apply owp_bind; [apply _..|].
  eapply owp_mono; [|apply (calm_keep ∅); [apply calm_wait_room|set_solver]]. intros O' room w1 [-> HR].
  rewrite difference_empty_L in HR. assert (TOp o ∈ ({[TOp o]} : gset tok)) as Hin by set_solver.
  assert (holds o w1 /\ payload o (w_log w1) = payload o (w_log w) ++ []) as [Hh1 Hp1]
    by (rewrite app_nil_r; split; [by eapply holds_rely|by eapply payload_rely]).
  destruct room; cbn [negb]; [|apply owp_ret; intros w2 Hw2; split_and!; [done|by eapply holds_rely|]; by erewrite payload_rely].
  apply owp_bind; [apply _..|]. apply twp_reads. intros w2 w3 Hw2 Hw3.
  assert (trely {[TOp o]} w1 w3) as Hw by (by etransitivity).
  assert (holds o w3 /\ payload o (w_log w3) = payload o (w_log w) ++ []) as [Hh3 Hp3]
    by (split; [by eapply holds_rely|by erewrite payload_rely]).
  destruct (ctx_done ctx w2).
  { apply owp_ret. intros w4 Hw4. split_and!; [done|by eapply holds_rely|]. by erewrite payload_rely. }
  unfold good_op in Ho. eapply owp_mono; [|apply (twp_bulk_send (fun _ => true) (SentBinary ClassBulk (encodeChunkFrame o 0 b)) o {[TOp o]} w3)];
    [|done|done|done|done| |done|].
  - intros O' ok w4 (->&Hh4&Hs). split_and!; [done..|]. unfold payload in *. rewrite Hs, bind_app, Hp3, app_nil_r. f_equal.
    destruct ok; [|done]. cbn [mbind list_bind frame_bytes]. by rewrite chunk_data, app_nil_r.
  - unfold bulk_of. rewrite bool_decide_true by done. by rewrite frame_op_chunk by lia.
  - by intros o' n w4 (r&[?|?]).
Qed.

Lemma copy_spec ctx src o p O w : good_op o -> TOp o ∈ O -> TRd p ∈ O -> copying src o p w -> payload o (w_log w) = [] ->
  twp O (copy_bulk ctx p o) (fun O' r w' => O' = O /\ holds o w' /\
    match r with (total, StreamEOF) => complete o total (w_log w') | _ => True end) w.
Proof.
  intros Ho HO HP Hc Hp. unfold copy_bulk.
  exists (fun total O' w' => O' = O /\ copying src o p w' /\ total = len (payload o (w_log w'))). split.
  { intros w1 Hw. split_and!; [done|by eapply copying_rely|]. by rewrite (payload_rely o O w w1), Hp. }
  intros total O' w1 (->&Hc1&->). apply owp_bind; [apply _..|]. eapply owp_mono; [|by apply read_spec].
  intros O' r w2 (->&HR&Hr). destruct Hc1 as [Hh1 Hs1 Hf1 Hp1].
  assert (TOp o ∈ O ∖ {[TRd p]}) as Hin by set_solver.
  pose proof (holds_rely _ _ _ _ Hin HR Hh1) as Hh2. pose proof (payload_rely _ _ _ _ Hin HR) as Hs2.
  pose proof (log_incl _ _ _ (proj1 HR) Hf1) as Hf2. pose proof (feeds_rel _ _ _ _ (proj1 HR) Hp1) as Hp2.
  destruct r as [b|[e|]].
  - destruct (0 <? len b) eqn:Hb.
    + apply owp_bind; [apply _..|]. eapply owp_mono; [|by apply send_chunk].
      intros O' ok w3 (->&HR3&Hh3&Hs3). destruct ok; apply owp_ret; intros w4 Hw4.
      * assert (copying src o p w3) as Hc3.
        { constructor; [done| |by eapply log_incl; [apply HR3|]|by eapply feeds_rel; [apply HR3|]].
          destruct (proj2 HR3 (TRd p) ltac:(set_solver)) as [_ Hrd]. by rewrite Hs3, Hs2, Hs1, Hrd, Hr. }
        split_and!; [done|by apply (copying_rely src o p O w3 w4)|]. by rewrite (payload_rely o O w3 w4), Hs3, Hs2, len_app.
      * intros w5 Hw5. split_and!; [done| |done]. apply (holds_rely o O w4 w5); [done..|]. by apply (holds_rely o O w3 w4).
    + apply owp_ret. intros w3 Hw3. assert (b = []) as -> by (destruct b as [|x b]; [done|]; apply Z.ltb_ge in Hb; rewrite len_cons in Hb; pose proof (len_nonneg b); lia).
      assert (copying src o p w2) as Hc2 by (constructor; [done|by rewrite Hs2, Hs1, Hr, app_nil_r|done..]).
      split_and!; [done|by apply (copying_rely src o p O w2 w3)|]. by rewrite (payload_rely o O w2 w3), Hs2.
  - apply owp_ret. intros w3' Hw3'. intros w3 Hw3. split_and!; [done| |done].
    apply (holds_rely o O w3' w3); [done..|]. by apply (holds_rely o O w2 w3').
  - apply owp_ret. intros w3' Hw3' w3 Hw3. assert (trely O w2 w3) as Hw by (by etransitivity).
    split_and!; [done|by apply (holds_rely o O w2 w3)|].
    destruct Hr as [Hrd (be&chunks&Hbe&Hall)]. destruct Hp2 as [Hlt Hsrc]. rewrite Hsrc in Hbe.
    exists src, be, chunks. rewrite (payload_rely o O w2 w3), Hs2, Hs1 by done. rewrite <- Hall, Hrd.
    split_and!; [eapply log_incl; [apply Hw|done]|done|done|done].
Qed.

(** ** The end of a download *)

Lemma complete_rely o n O w w' : TOp o ∈ O -> trely O w w' -> complete o n (w_log w) -> complete o n (w_log w').
Proof.
  intros HO HR (src&be&chunks&Hl&Hs&Hp&Hn). exists src, be, chunks. rewrite (payload_rely o O w w' HO HR).
  split_and!; [eapply log_incl; [apply HR|done]|done..].
Qed.

Lemma end_fields r o n m : m = chunk_end r o n \/ m = archive_end r o n ->
  tget "operation_id" m = Some (JStr (operationIDString o)) /\ tget "bytes_sent" m = Some (JStr (FormatInt n)).
Proof.
  intros [-> | ->]; [|done]. unfold chunk_end, typed. cbn [tget]. rewrite !bool_decide_false by done.
  rewrite !tget_app, !tget_omit by done. done.
Qed.

Lemma is_end_inj r o n m o' n' : good_op o -> m = chunk_end r o n \/ m = archive_end r o n ->
  is_end o' n' (SentText m) -> o' = o /\ n' = n.
Proof.
  intros Ho Hm (r'&Hm'). assert (m = chunk_end r' o' n' \/ m = archive_end r' o' n') as Hm2
    by (destruct Hm' as [[= ?]|[= ?]]; auto). clear Hm'.
  apply end_fields in Hm as [Hi Hb], Hm2 as [Hi' Hb']. rewrite Hi in Hi'. rewrite Hb in Hb'.
  injection Hi' as Hi'. injection Hb' as Hb'. unfold operationIDString in Hi'. unfold FormatInt in Hb'. apply (inj (pretty (A:=N))) in Hi'. apply (inj (pretty (A:=Z))) in Hb'. unfold good_op in Ho. split; [lia|done].
Qed.

(** Texts about an operation one holds. *)
Lemma send_bulk_text m o O w : good_op o -> TOp o ∈ O -> holds o w ->
  scope_op "bulk" m = Some o -> scope_op "media" m = None -> (forall o' n, is_end o' n (SentText m) -> complete o' n (w_log w) /\ o' = o) ->
  twp O (send_text m) (fun O' ok w' => O' = O /\ holds o w' /\ payload o (w_log w') = payload o (w_log w)) w.
Proof.
  intros Ho HO Hh Hb Hm He. eapply owp_mono; [|apply (twp_bulk_send (fun _ => true) (SentText m) o O w)]; try done.
  - intros O' ok w' (->&Hh'&Hs). split_and!; [done..|]. unfold payload. rewrite Hs, bind_app. destruct ok; by rewrite app_nil_r.
  - intros o' n w1 Hend HR. destruct (He _ _ Hend) as [Hc ->]. by eapply complete_rely.
Qed.

Lemma send_bulk_header m o O w : good_op o -> TOp o ∈ O -> holds o w ->
  scope_op "bulk" m = Some o -> scope_op "media" m = None -> tget "type" m <> Some (JStr "chunk_end") ->
  twp O (send_text m) (fun O' ok w' => O' = O /\ holds o w' /\ payload o (w_log w') = payload o (w_log w)) w.
Proof. intros Ho HO Hh Hb Hm He. apply send_bulk_text; try done. by intros o' n ?%not_end. Qed.

Lemma send_bulk_end r o n m O w : good_op o -> TOp o ∈ O -> holds o w -> complete o n (w_log w) ->
  m = chunk_end r o n \/ m = archive_end r o n ->
  twp O (send_text m) (fun O' ok w' => O' = O /\ holds o w') w.
Proof.
  intros Ho HO Hh Hc Hm. eapply owp_mono; [|apply (send_bulk_text m o O w); try done].
  - by intros O' ok w' (->&?&_).
  - destruct Hm as [-> | ->]; [by apply bulk_chunk_end|by apply bulk_archive_end].
  - destruct Hm as [-> | ->]; [|done]. unfold scope_op, chunk_end, typed. cbn [tget].
    rewrite !bool_decide_false by done. rewrite !bool_decide_true by done. rewrite !tget_app, !tget_omit by done. done.
  - intros o' n' He. destruct (is_end_inj r o n m o' n' Ho Hm He) as [-> ->]. done.
Qed.

Lemma quiet_mark e : no_mark e -> bulk_of e = None -> media_of e = None ->
  match e with SentText m => tget "type" m <> Some (JStr "chunk_end") | _ => True end -> quiet e.
Proof. intros Hn Hb Hm He. split_and!; [done..|]. intros o n Hend. destruct e as [m| | | | | | | |]; try (by destruct Hend as (r&[?|?])). by apply not_end in Hend. Qed.

Section manager.
Context (cfg : Setup) (stamp : Z -> string) (send_error : string).

Lemma calm_count T total : calm T (count_download cfg total).
Proof.
  apply calm_bind; [by apply calm_modifies|]. intros _. destruct (has_onDownload cfg); [|apply calm_ret].
  by apply calm_log, quiet_mark.
Qed.

Lemma calm_refuse T r : calm T (refuse_limit cfg r).
Proof.
  apply calm_bind; [apply calm_error|]. intros _. destruct (has_onExpired cfg); [|apply calm_ret].
  by apply calm_log, quiet_mark.
Qed.

(** What a transfer's goroutine starts with. *)
Definition ready (o : Z) (w : World) : Prop := holds o w /\ payload o (w_log w) = [].

Lemma ready_rely o O w w' : TOp o ∈ O -> trely O w w' -> ready o w -> ready o w'.
Proof. intros HO HR [H1 H2]. split; [by eapply holds_rely|]. by rewrite (payload_rely o O w w'). Qed.

(** The goroutine of a stream is started on its pipe, and the copying begins. *)
Lemma open_stream {A} ctx src o O w (k : nat -> proc World A) (Q : gset tok -> A -> World -> Prop) :
  good_op o -> TOp o ∈ O -> ready o w ->
  (forall p O' w', TOp o ∈ O' -> TRd p ∈ O' -> copying src o p w' -> payload o (w_log w') = [] -> twp O' (k p) Q w') ->
  twp O (_ ← modifies (add_log (Streams o src)); p ← pipe_new src; Spawn (run_stream ctx p src) (k p)) Q w.
Proof.
  intros Ho HO Hr Hk. apply owp_bind; [apply _..|]. apply twp_modifies. intros w1 Hw Hi Hm Hl.
  pose proof (ready_rely _ _ _ _ HO Hw Hr) as [Hh1 Hp1].
  destruct (log_step O (Streams o src) w1 _ Hi Hm (logs_add _ _)) as [HI HG]; [done| |intros o' [= <-]; done|].
  { constructor; [|done|by intros ?? (r&[?|?])]. intros o' [= <-]. destruct Hh1 as [Ht Hop].
    by rewrite (iv_holder w1 Hi), Ht, Hop. }
  split; [done|]. exists O. split; [done|]. intros w2 Hw2. set (wa := add_log (Streams o src) w1) in *.
  assert (ready o wa) as Hra.
  { split; [done|]. unfold wa. simpl. rewrite payload_app, Hp1. unfold payload, sends.
    by rewrite filter_cons_True by done. }
  assert (Streams o src ∈ w_log w2) as Hs2.
  { eapply log_incl; [apply Hw2|]. unfold wa. simpl. apply elem_of_app. right. by apply list_elem_of_singleton. }
  pose proof (ready_rely _ _ _ _ HO Hw2 Hra) as Hr2. clearbody wa. clear dependent w1 w.
  apply owp_bind; [apply _..|]. eapply owp_mono; [|apply pipe_new_spec]. intros O' p w3 (->&HR3&Hf&Hnr&Hnw).
  apply (twp_spawn _ {[TWr p]} ({[TRd p]} ∪ O)); [set_solver..|]. intros w5 Hw5.
  assert (pipe_fresh src p w5) as Hf5 by (eapply pipe_fresh_rely; [..|exact Hw5|exact Hf]; set_solver).
  split; [apply run_stream_spec; [set_solver|done]|].
  assert (trely O w2 w5) as Hw by (etransitivity; [exact HR3|]; eapply trely_sub; [|exact Hw5]; set_solver).
  pose proof (ready_rely _ _ _ _ HO Hw Hr2) as [Hh5 Hp5]. destruct Hf5 as (Hlt&Hsrc&_&_&Hread&_).
  apply Hk; [set_solver|set_solver| |done]. constructor; [done|by rewrite Hp5, Hread|by eapply log_incl; [apply Hw|]|done].
Qed.

(** A piece that keeps its tokens, then the rest. *)
Lemma twp_calm T {A B} (p : proc World A) (g : A -> proc World B) (Q : gset tok -> B -> World -> Prop) O w :
  calm T p -> T ⊆ O -> (forall a w', trely (O ∖ T) w w' -> twp O (g a) Q w') -> twp O (p ≫= g) Q w.
Proof.
  intros Hp HT Hg. apply owp_bind; [apply _..|]. eapply owp_mono; [|by apply (calm_keep T)].
  intros O' a w' [-> HR]. by apply Hg.
Qed.

Lemma twp_end T {A} (p : proc World A) O w : calm T p -> T ⊆ O -> twp O p (fun _ _ _ => True) w.
Proof. intros Hp HT. by eapply owp_mono; [|by apply Hp]. Qed.

Lemma finish_spec r o total e O w : good_op o -> TOp o ∈ O -> holds o w ->
  (e = StreamEOF -> complete o total (w_log w)) -> twp O (finish_bulk cfg r o total e) (fun O' _ _ => O' = O) w.
Proof.
  intros Ho HO Hh He. destruct e as [|e|]; [|apply (calm_bulk_error o); [done|set_solver]|by apply owp_ret].
  apply owp_bind; [apply _..|]. eapply owp_mono; [|apply (send_bulk_end r o total); auto].
  intros O' ok w' [-> _]. destruct ok; [|by apply owp_ret]. by apply (calm_count ∅).
Qed.

Lemma stream_spec src r o O w : good_op o -> TOp o ∈ O -> ready o w ->
  twp O (stream_bulk cfg src r o) (fun _ _ _ => True) w.
Proof.
  intros Ho HO Hr. unfold stream_bulk, with_defer at 1. apply owp_bind; [apply _..|].
  apply (open_stream [] src o O w (fun p => with_defer (pipe_close_read p)
    ('(total, e) ← copy_bulk [] p o; finish_bulk cfg r o total e))); [done..|].
  intros p O' w1 HO' HP Hc Hp. unfold with_defer. apply owp_bind; [apply _..|]. apply owp_bind; [apply _..|].
  eapply owp_mono; [|by apply (copy_spec [] src o p O' w1)]. intros O2 [total e] w2 (->&Hh&He).
  eapply owp_mono; [|apply finish_spec; try done; by intros ->]. intros O2 [] w3 ->.
  apply (twp_calm {[TRd p]}); [apply calm_close_read|set_solver|]. intros [] w4 _. apply owp_ret. intros w5 _.
  apply (twp_calm {[TOp o]}); [by apply calm_release|set_solver|]. intros [] w6 _. by apply owp_ret.
Qed.

Lemma abandon_spec o r m O w : good_op o -> TOp o ∈ O -> twp O (abandon o r m) (fun _ _ _ => True) w.
Proof.
  intros Ho HO. apply (twp_calm {[TOp o]}); [by apply calm_bulk_error|set_solver|]. intros [] w' _.
  apply (twp_end {[TOp o]}); [by apply calm_release|set_solver].
Qed.

Lemma start_bulk_spec o header go O w : good_op o -> TOp o ∈ O -> ready o w ->
  scope_op "bulk" header = Some o -> scope_op "media" header = None -> tget "type" header <> Some (JStr "chunk_end") ->
  (forall O' w', TOp o ∈ O' -> ready o w' -> twp O' go (fun _ _ _ => True) w') ->
  twp O (start_bulk o header go) (fun _ _ _ => True) w.
Proof.
  intros Ho HO Hr Hb Hm He Hgo. unfold start_bulk. apply owp_bind; [apply _..|].
  eapply owp_mono; [|apply (send_bulk_header header o O w); try done; apply Hr]. intros O' ok w1 (->&Hh&Hp).
  destruct ok; [|apply (twp_end {[TOp o]}); [by apply calm_release|set_solver]].
  apply (twp_spawn O O ∅); [set_solver..|]. intros w2 Hw2. split; [|by apply owp_ret]. apply Hgo; [done|].
  eapply ready_rely; [done|exact Hw2|]. split; [done|]. rewrite Hp. apply Hr.
Qed.

(** After the lane was taken: nothing, or the rest with the operation. *)
Lemma after_acquire r (k : option Z -> proc World unit) O w :
  (forall O' w', twp O' (k None) (fun _ _ _ => True) w') ->
  (forall o O' w', good_op o -> TOp o ∈ O' -> ready o w' -> twp O' (k (Some o)) (fun _ _ _ => True) w') ->
  twp O (acquireBulk r ≫= k) (fun _ _ _ => True) w.
Proof.
  intros Hn Hs. apply owp_bind; [apply _..|]. eapply owp_mono; [|apply acquire_spec].
  intros O' [o|] w'; [|intros _; apply Hn]. intros (->&Ho&Hh&Hse). apply Hs; [done|set_solver|].
  split; [done|]. unfold payload. by rewrite Hse.
Qed.

Lemma media_file_header n sz mi sh r o : scope_op "media" (file_header n sz mi sh r o) = None.
Proof. read_text. Qed.

(** The refusals before the lane is taken. *)
Ltac refusals :=
  repeat match goal with
  | |- context [if ?b then _ else _] => destruct b; [first [apply (twp_end ∅); [solve [apply calm_error | apply calm_refuse]|set_solver]]|]
  end.

Lemma file_request_spec path r O w : twp O (handleFileRequest cfg path r) (fun _ _ _ => True) w.
Proof.
  unfold handleFileRequest. apply (twp_calm ∅); [apply calm_mgr_get|set_solver|]. intros full w1 _. refusals.
  apply after_acquire; [intros; by apply owp_ret|]. intros o O' w2 Ho HO Hr. cbv zeta.
  destruct (negb (has_client cfg)); [by apply abandon_spec|]. set (dir := if bool_decide _ then _ else _).
  apply (twp_calm ∅); [apply calm_backend|set_solver|]. intros fs w3 Hw3. rewrite difference_empty_L in Hw3.
  destruct fs as [files|]; [|by apply abandon_spec]. destruct (head _) as [fi|]; [|by apply abandon_spec].
  apply (twp_calm ∅); [case_bool_decide; [apply calm_backend|apply calm_ret]|set_solver|].
  intros sha w4 Hw4. rewrite difference_empty_L in Hw4.
  apply start_bulk_spec; try done.
  - eapply ready_rely; [done|exact Hw4|]. by eapply ready_rely.
  - by apply bulk_file_header.
  - apply media_file_header.
  - intros O2 w5 HO2 Hr5. by apply stream_spec.
Qed.

Lemma asset_request_spec id quality r O w : twp O (handleAssetRequest cfg id quality r) (fun _ _ _ => True) w.
Proof.
  unfold handleAssetRequest. apply (twp_calm ∅); [apply calm_mgr_get|set_solver|]. intros full w1 _. refusals.
  destruct (normalizeAssetQuality quality) as [q ok]. refusals.
  apply after_acquire; [intros; by apply owp_ret|]. intros o O' w2 Ho HO Hr.
  destruct (negb (has_gallery cfg)); [by apply abandon_spec|].
  apply (twp_calm ∅); [apply calm_backend|set_solver|]. intros info w3 Hw3. rewrite difference_empty_L in Hw3.
  destruct info as [[[name size] mime] [e|]]; [by apply abandon_spec|]. apply start_bulk_spec; try done.
  - by eapply ready_rely.
  - by apply bulk_file_header.
  - apply media_file_header.
  - intros O2 w4 HO2 Hr4. by apply stream_spec.
Qed.

Lemma calm_list_request path r : calm ∅ (handleListRequest cfg path r).
Proof.
  unfold handleListRequest. apply calm_bind; [apply calm_mgr_get|]. intros [|]; [apply calm_refuse|].
  destruct (negb _); [apply calm_error|]. apply calm_bind; [apply calm_backend|]. intros [fs|e]; [|apply calm_error].
  apply calm_bind; [|intros _; apply calm_ret]. by apply calm_send, quiet_mark.
Qed.

(** ** Albums *)

Lemma archive_spec ctx ids o O w : good_op o -> TOp o ∈ O -> ready o w ->
  twp O (streamAlbumArchive send_error ctx ids o) (fun O' r w' => TOp o ∈ O' /\ holds o w' /\
    match r with (n, None) => complete o n (w_log w') | _ => True end) w.
Proof.
  intros Ho HO Hr. unfold streamAlbumArchive.
  apply (open_stream ctx (SrcArchive ids) o O w (fun p => with_defer (pipe_close_read p)
    ('(total, e) ← copy_bulk ctx p o;
     match e with
     | StreamEOF => mret (total, None)
     | StreamError e => mret (total, Some e)
     | SendFailed => _ ← pipe_close_read p; mret (total, Some send_error)
     end))); [done..|].
  intros p O' w1 HO' HP Hc Hp. unfold with_defer. apply owp_bind; [apply _..|]. apply owp_bind; [apply _..|].
  eapply owp_mono; [|by apply (copy_spec ctx (SrcArchive ids) o p O' w1)]. intros O2 [total e] w2 (->&Hh&He).
  eapply owp_mono; [|apply (fun H => H : twp O' _ (fun O2 r w3 => O2 = O' /\ holds o w3 /\
    match r with (n, None) => complete o n (w_log w3) | _ => True end) w2)].
  - intros O2 [n er] w3 (->&Hh3&Hr3). apply (twp_calm {[TRd p]}); [apply calm_close_read|set_solver|].
    intros [] w4 Hw4. apply owp_ret. intros w5 Hw5. assert (trely (O' ∖ {[TRd p]}) w3 w5) as Hw
      by (etransitivity; [exact Hw4|]; eapply trely_sub; [|exact Hw5]; set_solver).
    assert (TOp o ∈ O' ∖ {[TRd p]}) as Hin by set_solver. split_and!; [done|by eapply holds_rely|].
    destruct er; [done|by eapply complete_rely].
  - destruct e as [|e|].
    + apply owp_ret. intros w3 Hw3. split_and!; [done|by eapply holds_rely|by eapply complete_rely].
    + apply owp_ret. intros w3 Hw3. split_and!; [done|by eapply holds_rely|done].
    + apply (twp_calm {[TRd p]}); [apply calm_close_read|set_solver|]. intros [] w3 Hw3. apply owp_ret. intros w4 Hw4.
      assert (TOp o ∈ O' ∖ {[TRd p]}) as Hin by set_solver.
      split_and!; [done| |done]. eapply holds_rely; [|exact Hw4|by eapply holds_rely]. done.
Qed.

Lemma calm_wait_ack T ctx b : calm T (wait_ack ctx b).
Proof.
  apply calm_bind; [apply calm_reads|]. intros t0. apply calm_core. intros w1 r w2 Hin.
  apply elem_of_app in Hin as [Hin|[Hin|Hin]%elem_of_app].
  - destruct (w_batches w1 !! b) as [[id [ack|]]|]; [|by apply elem_of_nil in Hin..].
    by apply list_elem_of_singleton in Hin as [= -> ->].
  - destruct (_ <=? _); [|by apply elem_of_nil in Hin]. by apply list_elem_of_singleton in Hin as [= -> ->].
  - destruct (ctx_done _ _); [|by apply elem_of_nil in Hin]. by apply list_elem_of_singleton in Hin as [= -> ->].
Qed.

(** Of the operation an album ended under. *)
Definition ended (O : gset tok) (r : Z * option Z) : Prop := good_op r.1 /\ TOp r.1 ∈ O.

Lemma ended_ret O o (t : option Z) w : good_op o -> TOp o ∈ O ->
  twp O (mret (o, t)) (fun O' r _ => ended O' r) w.
Proof. intros Ho HO. by apply owp_ret. Qed.

Lemma parts_spec ctx b r name count parts index current total O w :
  good_op current -> TOp current ∈ O -> ((0 <? index) = false -> ready current w) -> 0 <= index ->
  twp O (album_parts stamp send_error ctx b r name count index parts current total) (fun O' r _ => ended O' r) w.
Proof.
  revert index current total O w. induction parts as [|archive rest IH]; intros index current total O w Ho HO Hr Hi;
    cbn [album_parts]; [by apply ended_ret|].
  apply owp_bind; [apply _..|].
  apply (owp_mono _ _ _ _ _ _ _ _ (fun O' next w' => match next with
    | Some o => good_op o /\ TOp o ∈ O' /\ ready o w' | None => TOp current ∈ O' end)).
  2:{ destruct (0 <? index) eqn:Hidx.
      - eapply owp_mono; [|by apply advance_spec]. intros O' [o|] w'; [|by intros ->].
        intros (->&Ho'&Hh&Hse). split_and!; [done|set_solver|]. split; [done|]. unfold payload. by rewrite Hse.
      - apply owp_ret. intros w1 Hw1. split_and!; [done..|]. eapply ready_rely; [|exact Hw1|auto]. done. }
  intros O' [o|] w1; [|intros HO'; by apply ended_ret]. intros (Ho'&HO'&Hr').
  apply (twp_calm ∅); [apply calm_reads|set_solver|]. intros now w2 Hw2. rewrite difference_empty_L in Hw2.
  pose proof (ready_rely _ _ _ _ HO' Hw2 Hr') as Hr2. apply owp_bind; [apply _..|].
  eapply owp_mono; [|apply (send_bulk_header _ o O' w2); try done; [apply Hr2|by apply bulk_archive_header]].
  intros O2 ok w3 (->&Hh3&Hp3). destruct ok; cbn [negb]; [|by apply ended_ret].
  apply owp_bind; [apply _..|].
  eapply owp_mono; [|apply archive_spec; [done|done|split; [done|by rewrite Hp3; apply Hr2]]].
  intros O2 [n [e|]] w4 (HO2&Hh4&Hc4).
  - apply (twp_calm {[TOp o]}); [by apply calm_bulk_error|set_solver|]. intros [] w5 _. by apply ended_ret.
  - apply owp_bind; [apply _..|]. eapply owp_mono; [|eapply send_bulk_end; eauto].
    intros O3 ok w5 (->&Hh5). destruct ok; cbn [negb]; [|by apply ended_ret].
    apply (twp_calm ∅); [apply calm_wait_ack|set_solver|]. intros [ack| |] w6 Hw6.
    + destruct (negb _ || _ || _); [by apply ended_ret|]. apply IH; [done|done| |lia].
      intros Hneg. apply Z.ltb_ge in Hneg. lia.
    + apply (twp_calm {[TOp o]}); [by apply calm_bulk_error|set_solver|]. intros [] w7 _. by apply ended_ret.
    + by apply ended_ret.
Qed.

Lemma calm_finish_batch b o : good_op o -> calm {[TOp o]} (finishAlbumBatch b o).
Proof.
  intros Ho. apply calm_bind; [|intros _; by apply calm_release]. apply calm_modifies. intros w. by case_bool_decide.
Qed.

Lemma album_stream_spec ctx b r o d O w : good_op o -> TOp o ∈ O -> ready o w ->
  twp O (streamAlbumDownload cfg stamp send_error ctx b r o d) (fun _ _ _ => True) w.
Proof.
  intros Ho HO Hr. unfold streamAlbumDownload. cbv zeta. apply owp_bind; [apply _..|].
  apply (owp_mono _ _ _ _ _ _ _ _ (fun O' r _ => ended O' r)).
  2:{ destruct (_ =? 0); [|by apply parts_spec].
      apply (twp_calm {[TOp o]}); [by apply calm_bulk_error|set_solver|]. intros [] w1 _. by apply ended_ret. }
  intros O' [o' total] w1 [Ho' HO']. simpl in Ho', HO'. apply (twp_calm ∅); [|set_solver|].
  - destruct total as [total|]; [|apply calm_ret]. apply calm_bind; [apply calm_count|]. intros _.
    apply calm_bind; [|intros _; apply calm_ret]. by apply calm_send, quiet_mark.
  - intros [] w2 _. apply (twp_end {[TOp o']}); [by apply calm_finish_batch|set_solver].
Qed.

Lemma album_request_spec r O w : twp O (handleAlbumDownloadRequest cfg stamp send_error r) (fun _ _ _ => True) w.
Proof.
  unfold handleAlbumDownloadRequest. apply (twp_calm ∅); [apply calm_mgr_get|set_solver|]. intros full w1 _. refusals.
  apply after_acquire; [intros; by apply owp_ret|]. intros o O' w2 Ho HO Hr.
  apply (twp_calm ∅); [by apply calm_atomic|set_solver|]. intros b w3 Hw3. rewrite difference_empty_L in Hw3.
  apply (twp_calm ∅); [by apply calm_modifies|set_solver|]. intros [] w4 Hw4. rewrite difference_empty_L in Hw4.
  apply (twp_spawn O' O' ∅); [set_solver..|]. intros w5 Hw5. split; [|by apply owp_ret].
  apply (twp_calm ∅); [apply calm_backend|set_solver|]. intros d w6 Hw6. rewrite difference_empty_L in Hw6.
  destruct d as [d|e].
  - apply album_stream_spec; [done..|]. eapply ready_rely; [done| |exact Hr].
    etransitivity; [exact Hw3|]. etransitivity; [exact Hw4|]. by etransitivity.
  - apply (twp_calm {[TOp o]}); [by apply calm_bulk_error|set_solver|]. intros [] w7 _.
    apply (twp_end {[TOp o]}); [by apply calm_finish_batch|set_solver].
Qed.

Lemma calm_ack T id part op ok : calm T (handleAlbumArchiveAck id part op ok).
Proof.
  unfold handleAlbumArchiveAck. destruct (ParseUint op) as [o|]; [|apply calm_ret]. destruct (o =? 0); [apply calm_ret|].
  apply calm_bind; [apply calm_mgr_get|]. intros [b|]; [|apply calm_ret]. apply calm_modifies. intros w.
  destruct (w_batches w !! b) as [[i [a|]]|]; [done| |done]. by case_bool_decide.
Qed.

(** * Previews *)

Lemma calm_read p n : calm {[TRd p]} (pipe_read p n).
Proof. intros O w HT. eapply owp_mono; [|apply read_spec; set_solver]. by intros O' r w' [-> _]. Qed.

Lemma calm_preview_turn ctx p g o n r st : good_op o -> calm {[TRd p]} (preview_turn ctx p g o n r st).
Proof.
  intros Ho. destruct st as [total first]. unfold preview_turn. apply calm_bind; [apply calm_reads|].
  intros [|]; [apply calm_ret|]. apply calm_bind; [apply calm_mgr_get|]. intros cur. destruct (negb _); [apply calm_ret|].
  apply calm_bind; [destruct first; [apply calm_bind; [apply calm_read|intros ?; apply calm_ret]|apply calm_ret]|].
  intros [[b|[e|]] rest]; [| |apply calm_ret].
  - destruct (0 <? len b); [|apply calm_ret]. apply calm_bind; [apply calm_reads|]. intros [|]; [apply calm_ret|].
    apply calm_bind; [by apply interactive_good|]. intros ok. apply calm_ret.
  - apply calm_bind; [apply calm_reads|]. intros [|]; (apply calm_bind; [|intros _; apply calm_ret]);
      [apply calm_ret|by apply media_error_good].
Qed.

Lemma calm_preview ctx id first p g n o r : good_op o ->
  calm {[TRd p]} (streamAssetPreviewFromReader ctx id first p g n o r).
Proof.
  intros Ho. unfold streamAssetPreviewFromReader. cbv zeta. unfold with_defer. apply calm_bind.
  - apply calm_bind; [apply calm_iter; [intros st; by apply calm_preview_turn|intros ?; apply calm_ret]|].
    intros [[total [|]]|]; [|apply calm_ret..]. apply calm_bind; [apply calm_reads|]. intros [|]; [|apply calm_ret].
    apply calm_bind; [|intros _; apply calm_ret]. unfold good_op in Ho.
    apply media_control_good; [done|by apply media_end..|done].
  - intros []. apply calm_bind; [apply calm_finish_media|]. intros _. apply calm_ret.
Qed.

(** A pipe for a preview, and its writer. *)
Lemma open_preview {A} ctx src O w (k : nat -> proc World A) (Q : gset tok -> A -> World -> Prop) :
  (forall p O' w', TRd p ∈ O' -> twp O' (k p) Q w') ->
  twp O (p ← pipe_new src; Spawn (run_stream ctx p src) (k p)) Q w.
Proof.
  intros Hk. apply owp_bind; [apply _..|]. eapply owp_mono; [|apply pipe_new_spec]. intros O' p w3 (->&_&Hf&Hnr&Hnw).
  apply (twp_spawn _ {[TWr p]} ({[TRd p]} ∪ O)); [set_solver..|]. intros w5 Hw5.
  assert (pipe_fresh src p w5) as Hf5 by (eapply pipe_fresh_rely; [..|exact Hw5|exact Hf]; set_solver).
  split; [apply run_stream_spec; [set_solver|done]|]. apply Hk. set_solver.
Qed.

Lemma preview_spec ctx id q g n o r O w : good_op o -> twp O (streamAssetPreview ctx id q g n o r) (fun _ _ _ => True) w.
Proof.
  intros Ho. unfold streamAssetPreview.
  apply (open_preview ctx (SrcAsset id q) O w (fun p => with_defer (pipe_close_read p)
    (streamAssetPreviewFromReader ctx id [] p g n o r))).
  intros p O' w' Hp. apply (twp_end {[TRd p]}); [|set_solver]. apply calm_bind; [by apply calm_preview|]. intros [].
  apply calm_bind; [apply calm_close_read|]. intros _. apply calm_ret.
Qed.

(** A preview's header, and its goroutine. *)
Lemma start_preview header go fin o O w : good_op o ->
  scope_op "media" header = Some o /\ scope_op "bulk" header = None -> tget "type" header <> Some (JStr "chunk_end") ->
  (forall O' w', O' = O -> twp O' go (fun _ _ _ => True) w') -> (forall O' w', O' = O -> twp O' fin (fun _ _ _ => True) w') ->
  twp O (ok ← sendMediaControlIfCurrent o header; if (ok : bool) then Spawn go (mret tt) else fin) (fun _ _ _ => True) w.
Proof.
  intros Ho [Hm Hb] He Hgo Hfin. apply (twp_calm ∅); [by apply media_control_good|set_solver|].
  intros [|] w1 _; [|by apply Hfin]. apply (twp_spawn O O ∅); [set_solver..|]. intros w2 _.
  split; [by apply Hgo|by apply owp_ret].
Qed.

Lemma preview_request_spec id q g r O w : twp O (handleAssetPreviewRequest cfg id q g r) (fun _ _ _ => True) w.
Proof.
  unfold handleAssetPreviewRequest. refusals. destruct (normalizePreviewQuality q) as [q' ok]. refusals.
  apply owp_bind; [apply _..|]. eapply owp_mono; [|by apply (calm_begin_media ∅)]. intros O' [ctx o] w1 [-> Ho]. simpl in Ho.
  apply (twp_calm ∅); [apply calm_backend|set_solver|]. intros info w2 _. cbv zeta.
  assert (0 < o < 2 ^ 64) as Ho' by done.
  destruct (bool_decide (q' = "video"%string)).
  - apply (twp_calm ∅); [apply calm_backend|set_solver|]. intros hd w3 _.
    apply start_preview; [done|by apply media_header|done|..]; intros O' w4 ->;
      [by apply preview_spec|apply (twp_end ∅); [apply calm_finish_media|set_solver]].
  - apply start_preview; [done|by apply media_header|done|..]; intros O' w4 ->;
      [by apply preview_spec|apply (twp_end ∅); [apply calm_finish_media|set_solver]].
Qed.

Lemma calm_read_first p : calm {[TRd p]} (read_first p).
Proof.
  apply calm_iter; [|intros b; apply calm_ret]. intros []. apply calm_bind; [apply calm_read|]. intros r. apply calm_ret.
Qed.

Lemma preview_seek_spec id q off g r parent O w : good_op parent ->
  twp O (handleAssetPreviewSeek cfg id q off g r parent) (fun _ _ _ => True) w.
Proof.
  intros Hp. unfold handleAssetPreviewSeek. cbv zeta.
  assert (forall T m, calm T (sendMediaErrorIfActive parent r m)) as Hrefuse by (intros; by apply media_error_good).
  destruct (normalizePreviewQuality q) as [q' ok].
  repeat match goal with
  | |- context [if ?b then sendMediaErrorIfActive _ _ _ else _] => destruct b; [by apply (twp_end ∅); [|set_solver]|]
  end.
  apply (twp_calm ∅); [apply calm_mgr_get|set_solver|]. intros [|] w1 _; cbn [negb]; [|by apply owp_ret].
  apply (open_preview [] (SrcRange id q off)). intros p O' w2 HO'.
  apply (twp_calm {[TRd p]}); [apply calm_read_first|set_solver|]. intros [b|e] w3 _.
  - apply owp_bind; [apply _..|]. eapply owp_mono; [|by apply (calm_begin_newer ∅)].
    intros O2 [[ctx o]|] w4 [-> Ho]; [|apply (twp_end {[TRd p]}); [apply calm_close_read|set_solver]]. simpl in Ho.
    assert (0 < o < 2 ^ 64) as Ho' by done.
    apply start_preview; [done|by apply media_header|done|..]; intros O2 w5 ->.
    + apply (twp_end {[TRd p]}); [by apply calm_preview|set_solver].
    + apply (twp_calm {[TRd p]}); [apply calm_close_read|set_solver|]. intros [] w6 _.
      apply (twp_end ∅); [apply calm_finish_media|set_solver].
  - apply (twp_calm {[TRd p]}); [apply calm_close_read|set_solver|]. intros [] w4 _. by apply (twp_end ∅); [|set_solver].
Qed.

(** * The gallery: nothing here is about an operation *)

Lemma core_timer t (w : World) : core (timer_stop t w) = core w.
Proof. by destruct t. Qed.
Lemma core_cancel t (w : World) : core (cancel_opt t w) = core w.
Proof. by destruct t. Qed.
Lemma core_thumbs f (w : World) : core (upd_thumbs f w) = core w.
Proof. done. Qed.

Lemma calm_thumb_send T ctx g b : calm T (sendThumbnailWithBackpressure ctx g b).
Proof.
  apply calm_bind; [apply calm_wait_room|]. intros [|]; cbn [negb]; [|apply calm_ret].
  by apply calm_send_if, quiet_mark.
Qed.

(** A choice of outcomes that leave the core alone. *)
Ltac core_choice :=
  apply calm_core; let w := fresh "w" in let Hin := fresh "Hin" in intros w ? ? Hin; cbv zeta in Hin;
  repeat (match type of Hin with
          | context [match ?x with _ => _ end] => destruct x
          end; cbn [app] in Hin);
  repeat (apply elem_of_cons in Hin as [Hin|Hin]; [by injection Hin as -> ->|]); by apply elem_of_nil in Hin.

Lemma calm_thumb_worker T ctx r : calm T (thumb_worker ctx r).
Proof.
  unfold thumb_worker, with_defer. apply calm_bind; [|intros a; apply calm_bind; [by apply calm_modifies|intros _; apply calm_ret]].
  apply calm_iter; [|intros ?; apply calm_ret]. intros []. apply calm_bind; [core_choice|].
  intros [[i item]|]; [|apply calm_ret]. apply calm_bind; [apply calm_reads|]. intros [|]; [apply calm_ret|].
  apply calm_bind; [core_choice|]. intros s. apply calm_bind; [core_choice|]. intros put. apply calm_ret.
Qed.

Lemma calm_feed T ctx r i items : calm T (thumb_feeder ctx r i items).
Proof.
  apply calm_bind; [|intros _; by apply calm_modifies]. revert i. induction items as [|x items IH]; intros i; cbn [feed_jobs];
    [apply calm_ret|]. apply calm_bind; [by apply calm_modifies|]. intros _. apply calm_bind; [core_choice|].
  intros [|]; [apply IH|apply calm_ret].
Qed.

Lemma calm_workers T n ctx r : calm T (spawn_workers n ctx r).
Proof.
  induction n as [|n IH]; cbn [spawn_workers]; [apply calm_ret|]. apply calm_spawn; [apply calm_runs, calm_thumb_worker|done].
Qed.

Lemma calm_collect T ctx own r g : calm T (collect_results ctx own r g).
Proof.
  apply calm_iter; [|intros ?; apply calm_ret]. intros t. apply calm_bind; [core_choice|]. intros [x|]; [|apply calm_ret].
  cbv zeta. destruct (tr_err x); [apply calm_ret|]. apply calm_bind; [apply calm_thumb_send|]. intros [|]; [apply calm_ret|].
  apply calm_bind; [by apply calm_modifies|]. intros _. apply calm_ret.
Qed.

Lemma calm_thumbnails T ctx g items off : calm T (sendGalleryThumbnails ctx g items off).
Proof.
  unfold sendGalleryThumbnails. cbv zeta. destruct (_ =? 0)%nat; [apply calm_ret|].
  apply calm_bind; [by apply calm_atomic|]. intros work. unfold with_defer. apply calm_bind.
  - apply calm_bind; [by apply calm_atomic|]. intros r. apply calm_bind; [apply calm_workers|]. intros _.
    apply calm_bind; [apply calm_spawn; [apply calm_runs, calm_feed|apply calm_ret]|]. intros _.
    apply calm_bind; [apply calm_spawn; [apply calm_runs; core_choice|apply calm_ret]|]. intros _.
    apply calm_bind; [apply calm_collect|]. intros t. apply calm_bind; [apply calm_reads|]. intros done. apply calm_ret.
  - intros a. apply calm_bind; [by apply calm_modifies|]. intros _. apply calm_ret.
Qed.

Lemma no_scope m s : tget "scope" m = None -> scope_op s m = None.
Proof. intros Hm. unfold scope_op. by rewrite Hm. Qed.

Lemma quiet_scopeless m : tget "scope" m = None -> tget "type" m <> Some (JStr "chunk_end") -> quiet (SentText m).
Proof. intros Hm He. apply quiet_text; [by apply no_scope..|done]. Qed.

Lemma tget_list_int k k' l : k' <> k -> tget k (list_int k' l) = None.
Proof. intros Hk. destruct l; simpl; [done|]. by rewrite bool_decide_false. Qed.

Lemma calm_legacy T g : calm T (startLegacyThumbnailFallback g).
Proof.
  unfold startLegacyThumbnailFallback. apply calm_bind.
  - apply calm_atomic. intros w. cbv zeta. destruct (negb _ || _); [done|]. simpl. by rewrite core_thumbs, core_timer.
  - intros [[items ctx]|]; [|apply calm_ret]. apply calm_bind; [apply calm_thumbnails|]. intros [[sent failed] ix].
    apply calm_bind; [|intros _; apply calm_ret]. apply calm_send_if, quiet_scopeless; [|done].
    unfold legacy_complete, typed. cbn [tget]. rewrite !bool_decide_false by done. simpl. by rewrite tget_list_int.
Qed.

Lemma scope_batch r s c se f ix : tget "scope" (batch_complete r s c se f ix) = None.
Proof.
  unfold batch_complete, typed. cbn [tget]. rewrite !bool_decide_false by done. rewrite tget_app, tget_omit by done. simpl.
  by rewrite tget_list_int.
Qed.

Lemma guar_core O O' (w w1 w2 : World) : guar same fresh Rel O O' w w1 -> core w2 = core w1 -> guar same fresh Rel O O' w w2.
Proof.
  intros [G1 G2 G3 G4] Hc. constructor.
  - etransitivity; [exact G1|by apply core_rel].
  - intros t Ht Hf. etransitivity; [by apply G2|by apply core_same].
  - intros t Ht. destruct (G3 t Ht) as [Hf ?]. split; [|done]. intros Hn. by eapply Hf, core_fresh.
  - intros t Hf. by eapply G4, core_fresh.
Qed.

Lemma calm_batch T ctx g start items r : calm T (sendThumbnailBatch ctx g start items r).
Proof.
  apply calm_bind; [apply calm_thumbnails|]. intros [[sent failed] ix]. intros O w HT.
  assert (quiet (SentText (batch_complete r start (len items) sent failed ix))) as Hq
    by (apply quiet_scopeless; [apply scope_batch|done]).
  set (answer := batch_complete _ _ _ _ _ _) in *. clearbody answer.
  apply twp_choices. intros w1 Hw Hi Hm b w2 Hin Hl. cbv zeta in Hin.
  destruct (negb _ || _ || _ || _).
  { apply list_elem_of_singleton in Hin. simplify_eq. split; [done|]. exists O. split; [by apply core_guar|done]. }
  apply list_elem_of_fmap in Hin as ([ok w3]&[= -> ->]&Hin). simpl in Hl.
  apply elem_of_cons in Hin as [Hin|Hin%list_elem_of_singleton]; simplify_eq.
  - destruct (log_step O (SentText answer) w1 (add_log (SentText answer) w1) Hi Hm (logs_add _ _)) as [HI HG];
      [apply Hq|by apply quiet_good|destruct Hq as (_&Hb&_); intros o Ho; congruence|].
    split; [by apply (core_inv (add_log (SentText answer) w1))|]. exists O. split; [|done]. by eapply guar_core.
  - split; [by apply (core_inv w1)|]. exists O. split; [by apply core_guar|done].
Qed.

Lemma batch_request_spec start count r O w : twp O (handleThumbnailBatchRequest start count r) (fun _ _ _ => True) w.
Proof.
  unfold handleThumbnailBatchRequest. refusals. apply (twp_end ∅); [|set_solver]. apply calm_bind.
  - apply calm_atomic. intros w1. cbv zeta. repeat (destruct (_ <=? _) || destruct (bool_decide _) || destruct (thumbnailBatchActive _); try done); simpl; by rewrite ?core_thumbs, ?core_timer.
  - intros [m|ctx g items]; [apply calm_error|]. apply calm_spawn; [apply calm_runs, calm_batch|apply calm_ret].
Qed.

Lemma calm_gallery T : calm T (sendGallery cfg).
Proof.
  apply calm_bind; [apply calm_backend|]. intros [g|e]; [|apply calm_error]. cbv zeta. apply calm_bind.
  - apply calm_atomic. intros w. cbv zeta. simpl. unfold core. simpl. by destruct (thumbnailFallback _), (galleryCancel _).
  - intros gen. apply calm_bind; [by apply calm_send, quiet_mark|]. intros [|]; cbn [negb]; [|apply calm_ret].
    apply calm_bind; [apply calm_atomic; intros w; cbv zeta; by destruct (_ && _)|]. intros [i|]; [|apply calm_ret].
    apply calm_spawn; [|apply calm_ret]. apply calm_runs, calm_bind; [core_choice|].
    intros [|]; [apply calm_legacy|apply calm_ret].
Qed.

Lemma open_spec O w : twp O (HandleOpen cfg) (fun _ _ _ => True) w.
Proof.
  apply (twp_end ∅); [|set_solver]. unfold HandleOpen. destruct (has_gallery cfg).
  - apply calm_spawn; [apply calm_runs, calm_gallery|apply calm_ret].
  - apply calm_bind; [|intros _; apply calm_ret]. by apply calm_send, quiet_mark.
Qed.

Lemma calm_close T : calm T handleClose.
Proof. apply calm_modifies. intros w. cbv zeta. by rewrite core_thumbs, core_cancel, core_timer. Qed.

(** * Messages *)

Lemma parse_digits_nonneg acc s n : 0 <= acc -> parse_digits acc s = Some n -> 0 <= n.
Proof.
  revert acc. induction s as [|c s IH]; intros acc Ha; simpl; [by intros [= <-]|].
  destruct ((0 <=? _) && _) eqn:Hd; [|done]. apply andb_prop in Hd as [Hd _]. apply Z.leb_le in Hd. apply IH. lia.
Qed.
Lemma ParseUint_range s n : ParseUint s = Some n -> 0 <= n < 2 ^ 64.
Proof.
  unfold ParseUint. case_bool_decide; [done|]. destruct (parse_digits 0 s) as [k|] eqn:Hp; simpl; [|done].
  destruct (k <? 2 ^ 64) eqn:Hk; [|done]. intros [= <-]. apply Z.ltb_lt in Hk. apply parse_digits_nonneg in Hp; lia.
Qed.

Lemma message_spec data O w : twp O (HandleMessage cfg stamp send_error data) (fun _ _ _ => True) w.
Proof.
  unfold HandleMessage. destruct (decode_message data) as [m|]; [|apply (twp_end ∅); [apply calm_error|set_solver]]. cbv zeta.
  case_bool_decide; [apply (twp_end ∅); [apply calm_list_request|set_solver]|].
  case_bool_decide; [apply file_request_spec|].
  case_bool_decide; [apply asset_request_spec|].
  case_bool_decide; [apply album_request_spec|].
  case_bool_decide; [apply (twp_end ∅); [apply calm_ack|set_solver]|].
  case_bool_decide; [apply batch_request_spec|].
  case_bool_decide; [apply preview_request_spec|].
  case_bool_decide; [|apply (twp_end ∅); [apply calm_error|set_solver]]. refusals.
  destruct (ParseUint (m_OperationID m)) as [o|] eqn:Ho; [|apply (twp_end ∅); [apply calm_error|set_solver]].
  apply ParseUint_range in Ho. destruct (o =? 0) eqn:Hz; [apply (twp_end ∅); [apply calm_error|set_solver]|].
  apply preview_seek_spec. apply Z.eqb_neq in Hz. unfold good_op. lia.
Qed.

(** * The transfers of a session *)

(** The goroutines the session starts: messages and the endpoint's events,
    and the daemon's count. *)
Inductive accepts : proc World unit -> World -> Prop :=
| accept_message data w : accepts (HandleMessage cfg stamp send_error data) w
| accept_open w : accepts (HandleOpen cfg) w
| accept_close w : accepts handleClose w
| accept_count n w : accepts (SetDownloadCount n) w.

(** Time passes, the endpoints drain, and the storage changes. *)
Definition outside (w w' : World) : Prop :=
  exists now buffered be, w_now w <= now
    /\ w' = mkWorld (w_mgr w) (w_ctxs w) (w_pipes w) (w_timers w) (w_batches w) (w_runs w) (w_log w) now buffered be.

(** A session that has begun fewer than 2^64 operations so far. *)
Definition session (w0 w : World) : Prop :=
  exists ps, rtc (counted lim accepts outside) ([], w0) (ps, w).

(** A new manager. *)
Definition started (w : World) : Prop := w_mgr w = new_state /\ w_pipes w = [] /\ w_log w = [].

Lemma started_inv w : started w -> Inv w.
Proof.
  intros (Hm&Hp&Hl). constructor; rewrite ?Hm, ?Hp, ?Hl; try done.
  - by intros x o ?%elem_of_nil.
  - by intros [|? ?] x rest.
Qed.

Lemma session_inv w0 w : started w0 -> session w0 w -> Inv w.
Proof.
  intros H0 [ps Hr]. cut (owned_ok same fresh owed Rel Inv lim (ps, w)); [by intros [? _]|].
  eapply owned_reach; [apply _..| | | |exact Hr].
  - intros w1 w2 Hi _ (now&buf&be&_&->). split; [by apply (core_inv w1)|]. split; [by apply core_rel|].
    split; [intros; by apply core_same|]. split; [intros t; by apply (core_fresh t w1)|done].
  - intros p w1 _ Ha. eapply (owp_mono _ _ _ _ _ _ ∅ p (fun _ _ _ => True)); [by intros ? ? ? _ ? _ ?|].
    destruct Ha as [data w2|w2|w2|n w2]; [apply message_spec|apply open_spec|apply (twp_end ∅); [apply calm_close|set_solver]|].
    apply (twp_end ∅); [by apply calm_modifies|set_solver].
  - split; [by apply started_inv|]. exists []. split; [constructor; [constructor|done|done]|by intros ?].
Qed.

(** C9 (safety). No stale media: whatever the interleaving of the messages,
    the goroutines and the backend, every preview frame, header, end and error
    sent on the media lane belongs to the operation begun last before it; a
    superseded preview sends nothing after the new one has begun. *)
Theorem media_no_stale w0 w past e rest o :
  started w0 -> session w0 w -> w_log w = past ++ e :: rest -> media_of e = Some o -> last_media past = Some o.
Proof. intros H0 Hs Hl. apply (good_media past e). eapply iv_log; [by eapply session_inv|exact Hl]. Qed.

(** C10 (invariant). The bulk lane is exclusive: every header, frame, end and
    error sent about a download was sent while that download's operation held
    the lane, so no two downloads are ever interleaved on it. *)
Theorem bulk_exclusive w0 w past e rest o :
  started w0 -> session w0 w -> w_log w = past ++ e :: rest -> bulk_of e = Some o -> holder past = Some o.
Proof. intros H0 Hs Hl. apply (good_bulk past e). eapply iv_log; [by eapply session_inv|exact Hl]. Qed.

(** C8 (functional). Complete downloads: when the end of a download is
    reported with [n] bytes, the frames sent under its operation are, in order,
    all the bytes of a successful answer of the backend to the request the
    operation streams, and there are [n] of them; a stream that failed, or a
    send that failed, is never reported as complete. *)
Theorem bulk_complete w0 w past e rest o n :
  started w0 -> session w0 w -> w_log w = past ++ e :: rest -> is_end o n e ->
  exists src be chunks, Streams o src ∈ past /\ source_stream src be = (chunks, None)
    /\ payload o past = concat chunks /\ n = len (concat chunks).
Proof. intros H0 Hs Hl. apply (good_end past e). eapply iv_log; [by eapply session_inv|exact Hl]. Qed.
End manager.
End safe.

(** * A concrete session *)

#[local] Instance demo_backend : Backend := {|
  backend := unit;
  ListFiles _ _ := Err "no files"%string;
  GetFile _ _ := ([], None);
  GetSHA1 _ _ := ""%string;
  ListGallery _ := Ok (mkGallery "Trip" "" []);
  GetThumbnail _ _ := ([], None);
  GetAsset _ _ _ := ([[x61; x62]; [x63]], None);
  GetAssetInfo _ _ := (("a.jpg"%string, 3, "image/jpeg"%string), None);
  HeadVideoPlayback _ _ := Err "no video"%string;
  GetAssetRange _ _ _ _ := ([], None);
  GetAlbumDownload _ := Err "no album"%string;
  StreamAlbumArchive _ _ := ([], None) |}.

Definition demo_setup : Setup := (NewGalleryManager false 0).1.
Definition demo_start : World := mkWorld new_state [] [] [] [] [] [] 0 (fun _ => 0) tt.
Definition demo_message (type generation : string) : json :=
  JObj [("type"%string, JStr type); ("id"%string, JStr "a"); ("request_id"%string, JStr generation)].
Definition demo_asks (type request : string) : proc World unit :=
  HandleMessage demo_setup (fun _ => ""%string) "" (Some (demo_message type request)).

(** Two previews asked for and a download. *)
Definition demo_run : list (proc World unit) * World :=
  run_first (fun w => issued (w_log w) <? 2 ^ 64) 400
    ([demo_asks "asset_preview_request" "p"; demo_asks "asset_preview_request" "q"; demo_asks "asset_request" "r"], demo_start).

Definition demo_log : list effect := w_log demo_run.2.

Lemma demo_session : started demo_start /\ session demo_setup (fun _ => ""%string) "" demo_start demo_run.2.
Proof.
  split; [done|]. exists demo_run.1.
  eapply rtc_l; [split; [by apply sys_accept, accept_message|done]|].
  eapply rtc_l; [split; [by apply sys_accept, accept_message|done]|].
  eapply rtc_l; [split; [by apply sys_accept, accept_message|done]|].
  rewrite <- surjective_pairing. apply run_first_counted. intros w. apply Z.ltb_lt.
Qed.

Lemma log_split (w : World) l k e : w_log w = l -> l !! k = Some e -> w_log w = take k l ++ e :: drop (S k) l.
Proof. intros -> He. by rewrite take_drop_middle. Qed.

Lemma demo_is_log : w_log demo_run.2 = demo_log.
Proof. unfold demo_log. reflexivity. Qed.

(** The second preview's first frame. *)
Lemma media_no_stale_witness : last_media (take 7 demo_log) = Some 2.
Proof.
  destruct demo_session as [H0 Hs].
  assert (demo_log !! 7%nat = Some (SentBinary ClassInteractiveMedia (encodeChunkFrame 2 0 [x61; x62]))) as He by (vm_compute; reflexivity).
  refine (media_no_stale _ _ _ _ _ _ _ _ _ H0 Hs (log_split _ _ _ _ demo_is_log He) _). vm_compute. reflexivity.
Defined.

(** The download's first frame. *)
Lemma bulk_exclusive_witness : holder (take 10 demo_log) = Some 3.
Proof.
  destruct demo_session as [H0 Hs].
  assert (demo_log !! 10%nat = Some (SentBinary ClassBulk (encodeChunkFrame 3 0 [x61; x62]))) as He by (vm_compute; reflexivity).
  refine (bulk_exclusive _ _ _ _ _ _ _ _ _ H0 Hs (log_split _ _ _ _ demo_is_log He) _). vm_compute. reflexivity.
Defined.

(** The download's end. *)
Lemma bulk_complete_witness : exists src be chunks, Streams 3 src ∈ take 12 demo_log
  /\ source_stream src be = (chunks, None) /\ payload 3 (take 12 demo_log) = concat chunks /\ 3 = len (concat chunks).
Proof.
  destruct demo_session as [H0 Hs].
  assert (demo_log !! 12%nat = Some (SentText (chunk_end "r" 3 3))) as He by (vm_compute; reflexivity).
  refine (bulk_complete _ _ _ _ _ _ _ _ _ _ H0 Hs (log_split _ _ _ _ demo_is_log He) _). exists "r"%string. by left.
Defined.

(** A limit of one download, and two requests. *)
Definition one_download : Setup := (NewGalleryManager false 1).1.
Definition one_asks (request : string) : proc World unit :=
  HandleMessage one_download (fun _ => ""%string) "" (Some (demo_message "asset_request" request)).
Definition race_schedule : list nat :=
  [1; 0; 0; 0; 0; 0; 2; 2; 2; 2; 3; 3; 3; 2; 2; 2; 2; 2; 2; 3; 3; 3; 2; 2; 2; 2; 2; 2; 3; 3; 2; 2; 2; 2; 2;
   1; 1; 1; 1; 4; 4; 4; 4; 5; 5; 5; 4; 4; 4; 4; 4; 4; 5; 5; 5; 4; 4; 4; 4; 4; 4; 5; 5; 4; 4; 4; 4; 4]%nat.

Lemma run_two limb l ps w p q (cfg : Setup) :
  (forall w, limb w = true -> lim w) -> accepts cfg (fun _ => ""%string) "" p demo_start ->
  accepts cfg (fun _ => ""%string) "" q demo_start ->
  run_schedule limb l ([p; q], demo_start) = Some (ps, w) -> session cfg (fun _ => ""%string) "" demo_start w.
Proof.
  intros Hlimb Hp Hq Hrun. exists ps.
  eapply rtc_l; [split; [exact (sys_accept _ _ [] p _ Hp)|done]|].
  eapply rtc_l; [split; [exact (sys_accept _ _ [p] q _ Hq)|done]|].
  eapply run_schedule_counted; [exact Hlimb|exact Hrun].
Qed.

(** The limit on downloads is not exact: there is a session of a
    share limited to one download in which two complete.  The limit is read
    before the lane is taken: the second request reads it, then the first
    transfer ends and is counted, and then the second takes the lane. *)
Theorem download_limit_race : exists w, started demo_start
  /\ session one_download (fun _ => ""%string) "" demo_start w /\ maxDownloads one_download = 1 /\ downloads (w_mgr w) = 2.
Proof.
  set (limb := fun w : World => issued (w_log w) <? 2 ^ 64).
  assert ((if run_schedule limb race_schedule ([one_asks "a"; one_asks "b"], demo_start) is Some c
           then downloads (w_mgr c.2) =? 2 else false) = true) as Hr by (vm_compute; reflexivity).
  pose proof (run_two limb race_schedule) as Hrun.
  destruct (run_schedule limb race_schedule ([one_asks "a"; one_asks "b"], demo_start)) as [[ps w]|] eqn:Hs; [|discriminate Hr].
  specialize (Hrun ps w (one_asks "a") (one_asks "b") one_download (fun w => proj1 (Z.ltb_lt _ _))
    (accept_message _ _ _ _ _) (accept_message _ _ _ _ _) Hs). clear Hs.
  exists w. split; [apply demo_session|]. split; [exact Hrun|]. split; [reflexivity|]. by apply Z.eqb_eq in Hr.
Qed.
