(* ===== verification/Peer.v ===== *)
(** The agent's end of a direct connection (agent/internal/peer/peer.go): one
    WebRTC peer connection with the three required lanes, its handshake
    responder (InstallHandshakeResponder in agent/internal/multilane/lane.go)
    and its callbacks.  The WebRTC library is outside: a call of it is an action
    that logs the call and its answer, and its callbacks (a channel opened or
    closed, a message, a candidate, a state) are programs that may start at any
    time.  A function the application installs is a number; calling it is an
    action, and what it calls of the peer is a program of its own. *)

From stdpp Require Import pretty.
From S2P Require Import Prelude GoText Lanes Conc Json TransferState.
#[local] Open Scope Z_scope.

(** * Data *)

(** [agent/internal/peer/peer.go:15-22] requiredLanes *)
Definition requiredLanes : list (Lane * string) :=
  [(LaneControl, "control"); (LaneMedia, "media"); (LaneBulk, "bulk")]%string.

(** A function the application installs, and a listener with the number of its
    registration. *)
Abbreviation func := Z.
Inductive callback := OnClosed (f : func) | Listener (n : nat) (f : func).

(** What handles an endpoint's messages: an application's function, or the
    handshake responder of an installation. *)
Inductive msg_handler := HandlerFunc (f : func) | HandshakeResponder (k : nat).

(** A sync.Once. *)
Inductive once := OnceFresh | OnceRunning | OnceDone.
#[export] Instance once_eq_dec : EqDecision once.
Proof. solve_decision. Defined.

(** [endpoints] has the handler of each endpoint made.
    [agent/internal/peer/peer.go:25-42] Peer *)
Record Peer := mkPeer {
  endpoints : gmap Lane (option msg_handler);
  opened : gset Lane;
  handshakeArmed : bool;
  ready : bool;
  onMessage : option func;
  closed : bool;
  openCallbackRunning : bool;
  closePending : bool;
  closeNotified : bool;
  onOpen : option func;
  onClosed : option func;
  closeListeners : list (nat * func);
  onICECandidate : option func }.

(** [agent/internal/peer/peer.go:62-66] New *)
Definition new_peer : Peer := mkPeer ∅ ∅ false false None false false false false None None [] None.

(** A call of the WebRTC library. *)
Inductive pion_call :=
| PcCreateDataChannel (label : string)
| PcCreateOffer
| PcSetLocalDescription (sdp : string)
| PcSetRemoteDescription (sdp : string)
| PcAddICECandidate (init : json)
| PcClose
| DcSendText (lane : Lane) (text : obj)
| DcSend (lane : Lane) (data : bytes).

Inductive effect :=
| Pion (c : pion_call) (err : option string)
| Opened (lane : Lane)
| Registered (n : nat)
| Late (n : nat)
| OpenCalled (f : func)
| OpenReturned
| CloseCalled (c : callback)
| Received (lane : Lane) (f : func) (data : option json)
| Candidate (f : func) (init : json).

(** The errors and the offers the WebRTC library can answer with. *)
Class WebRTC := { pion_errors : pion_call -> list string; pion_offers : list string }.

Record World := mkWorld { w_peer : Peer; w_onces : list once; w_next : nat; w_log : list effect }.

Definition set_peer (x : Peer) (w : World) : World := mkWorld x (w_onces w) (w_next w) (w_log w).
Definition add_log (e : effect) (w : World) : World := mkWorld (w_peer w) (w_onces w) (w_next w) (w_log w ++ [e]).
Definition new_world : World := mkWorld new_peer [] 0 [].

(** * Tuning of the library, from the environment *)

(** strconv.ParseUint(v, 10, 32) *)
Definition ParseUint32 (v : string) : option Z := n ← ParseUint v; if n <? 2 ^ 32 then Some n else None.

(** [agent/internal/peer/peer.go:106-117] sctpEnvUint *)
Definition sctpEnvUint (getenv : string -> string) (name : string) : Z :=
  let v := getenv name in
  if bool_decide (v = ""%string) then 0 else default 0 (ParseUint32 v).

Inductive sctp_setting :=
| SetSCTPCwndCAStep (v : Z) | SetSCTPMinCwnd (v : Z) | SetSCTPFastRtxWnd (v : Z) | SetSCTPMaxReceiveBufferSize (v : Z)
| SetSCTPMaxMessageSize (v : Z) | SetSCTPRTOMax (d : Z).

Definition tune (getenv : string -> string) (name label : string) (set : Z -> sctp_setting) : list (sctp_setting * string) :=
  let v := sctpEnvUint getenv name in if 0 <? v then [(set v, label +:+ "=" +:+ pretty v)%string] else [].
(** The settings applied, each with its text.
    [agent/internal/peer/peer.go:123-154] applySCTPTuning *)
Definition applySCTPTuning (getenv : string -> string) : list (sctp_setting * string) :=
  tune getenv "SB_SCTP_CA_STEP" "cwndCAStep" SetSCTPCwndCAStep
  ++ tune getenv "SB_SCTP_MIN_CWND" "minCwnd" SetSCTPMinCwnd
  ++ tune getenv "SB_SCTP_FAST_RTX_WND" "fastRtxWnd" SetSCTPFastRtxWnd
  ++ tune getenv "SB_SCTP_MAX_RX_BUF" "maxRxBuf" SetSCTPMaxReceiveBufferSize
  ++ tune getenv "SB_SCTP_MAX_MSG" "maxMsg" SetSCTPMaxMessageSize
  ++ let raw := getenv "SB_SCTP_RTO_MAX_MS"%string in
     if bool_decide (raw = ""%string) then []
     else match ParseUint32 raw with
          | Some n => if 0 <? n then [(SetSCTPRTOMax (n * 1000000), "rtoMax=" +:+ pretty n +:+ "ms")%string] else []
          | None => []
          end.

(** Which API makes the connections, read once: a tuned one, or the library's
    own when nothing is configured.
    [agent/internal/peer/peer.go:159-170] apiForPeers *)
Definition apiForPeers (cache : option (option (list sctp_setting))) (getenv : string -> string) :
    option (list sctp_setting) * option (option (list sctp_setting)) :=
  match cache with
  | Some api => (api, cache)
  | None => let applied := map fst (applySCTPTuning getenv) in
            let api := if bool_decide (applied = []) then None else Some applied in (api, Some api)
  end.

Inductive ice_policy := PolicyAll | PolicyRelay.
(** The library makes the connection, with the API and the policy.
    [agent/internal/peer/peer.go:52-85] New *)
Definition New {server} (newPeerConnection : option (list sctp_setting) -> list server -> ice_policy -> option string)
    (api : option (list sctp_setting)) (iceServers : list server) (relayOnly : bool) : result World string :=
  match newPeerConnection api iceServers (if relayOnly then PolicyRelay else PolicyAll) with
  | Some e => Err ("new peer connection: " +:+ e)%string
  | None => Ok new_world
  end.

(** Nothing is applied that is not configured, and every number applied is a
    positive 32-bit one (milliseconds, for the timeout). *)
Lemma tuning_in_range getenv s : s ∈ map fst (applySCTPTuning getenv) ->
  match s with
  | SetSCTPCwndCAStep v => getenv "SB_SCTP_CA_STEP"%string <> ""%string /\ 0 < v < 2 ^ 32
  | SetSCTPMinCwnd v => getenv "SB_SCTP_MIN_CWND"%string <> ""%string /\ 0 < v < 2 ^ 32
  | SetSCTPFastRtxWnd v => getenv "SB_SCTP_FAST_RTX_WND"%string <> ""%string /\ 0 < v < 2 ^ 32
  | SetSCTPMaxReceiveBufferSize v => getenv "SB_SCTP_MAX_RX_BUF"%string <> ""%string /\ 0 < v < 2 ^ 32
  | SetSCTPMaxMessageSize v => getenv "SB_SCTP_MAX_MSG"%string <> ""%string /\ 0 < v < 2 ^ 32
  | SetSCTPRTOMax d => getenv "SB_SCTP_RTO_MAX_MS"%string <> ""%string /\ 0 < d < 2 ^ 32 * 1000000
  end.
Proof.
  assert (forall v n, ParseUint32 v = Some n -> n < 2 ^ 32) as Hrange.
  { intros v n. unfold ParseUint32. destruct (ParseUint v) as [m|]; simpl; [|done].
    destruct (m <? 2 ^ 32) eqn:Hm; [|done]. intros [= <-]. by apply Z.ltb_lt. }
  assert (forall name label set x, x ∈ map fst (tune getenv name label set) -> exists v, x = set v /\ getenv name <> ""%string /\ 0 < v < 2 ^ 32) as Ht.
  { intros name label set x. unfold tune, sctpEnvUint. case_bool_decide; [by intros ?%elem_of_nil|].
    destruct (ParseUint32 (getenv name)) as [v|] eqn:Hv; simpl; [|by intros ?%elem_of_nil].
    destruct (0 <? v) eqn:Hpos; [|by intros ?%elem_of_nil]. intros ->%list_elem_of_singleton. exists v. apply Hrange in Hv. split_and!; [done|done|lia|done]. }
  unfold applySCTPTuning. rewrite !map_app, !elem_of_app.
  intros [Hs|[Hs|[Hs|[Hs|[Hs|Hs]]]]]; [by apply Ht in Hs as (v&->&?)..|].
  case_bool_decide; [by apply elem_of_nil in Hs|]. destruct (ParseUint32 _) as [n|] eqn:Hn; [|by apply elem_of_nil in Hs].
  destruct (0 <? n) eqn:Hpos; [|by apply elem_of_nil in Hs]. apply list_elem_of_singleton in Hs as ->. simpl. apply Hrange in Hn. split; [done|lia].
Qed.

Section peer.
Context `{WebRTC}.
Abbreviation handler := (proc World).

Definition log (e : effect) : handler unit := modifies (add_log e).

(** A call of the library, whatever it answers. *)
Definition pion (c : pion_call) : handler (option string) :=
  choices (fun w => map (fun r => (r, add_log (Pion c r) w)) (None :: map Some (pion_errors c))).

(** * Callbacks *)

Definition call_all (cs : list callback) : handler unit :=
  foldr (fun c k => _ ← log (CloseCalled c); k) (mret tt) cs.

(** [agent/internal/peer/peer.go:277-284] closeCallbacksLocked *)
Definition closeCallbacksLocked (p : Peer) : list callback :=
  match onClosed p with Some f => [OnClosed f] | None => [] end ++ map (fun x => Listener x.1 x.2) (closeListeners p).

(** [agent/internal/peer/peer.go:258-271] notifyClosed *)
Definition notify_locked (w : World) : list callback * World :=
  let p := w_peer w in
  if closed p then ([], w)
  else if openCallbackRunning p
  then ([], set_peer (mkPeer (endpoints p) (opened p) (handshakeArmed p) (ready p) (onMessage p) true (openCallbackRunning p) true (closeNotified p)
                        (onOpen p) (onClosed p) (closeListeners p) (onICECandidate p)) w)
  else (closeCallbacksLocked p,
        set_peer (mkPeer (endpoints p) (opened p) (handshakeArmed p) (ready p) (onMessage p) true (openCallbackRunning p) (closePending p) true
                    (onOpen p) (onClosed p) (closeListeners p) (onICECandidate p)) w).
(** [agent/internal/peer/peer.go:257-275] notifyClosed *)
Definition notifyClosed : handler unit := callbacks ← atomic notify_locked; call_all callbacks.

(** [agent/internal/peer/peer.go:349-353] Close *)
Definition Close : handler (option string) := err ← pion PcClose; _ ← notifyClosed; mret err.

(** [agent/internal/peer/peer.go:252-255] laneClosed *)
Definition laneClosed (lane : Lane) : handler unit := _ ← notifyClosed; _ ← pion PcClose; mret tt.

(** * Endpoints *)

(** The handler of a lane's endpoint is replaced.
    [agent/internal/peer/peer.go:406-410] SetOnMessage *)
Definition set_handler (lane : Lane) (h : option msg_handler) (p : Peer) : Peer :=
  mkPeer (alter (fun _ => h) lane (endpoints p)) (opened p) (handshakeArmed p) (ready p) (onMessage p) (closed p)
    (openCallbackRunning p) (closePending p) (closeNotified p) (onOpen p) (onClosed p) (closeListeners p) (onICECandidate p).
Definition endpoint_SetOnMessage (lane : Lane) (h : option msg_handler) : handler unit :=
  modifies (fun w => set_peer (set_handler lane h (w_peer w)) w).

(** [agent/internal/peer/peer.go:393-393] SendText *)
Definition endpoint_SendText (lane : Lane) (text : obj) : handler (option string) := pion (DcSendText lane text).
(** [agent/internal/peer/peer.go:394-394] SendBinary *)
Definition endpoint_SendBinary (lane : Lane) (data : bytes) : handler (option string) := pion (DcSend lane data).

Inductive send_error := SendClass (e : lane_error) | SendLane (class : TrafficClass) (lane endpoint : Lane) | SendFailed (e : string).
(** [agent/internal/peer/peer.go:395-404] SendBinaryClass *)
Definition endpoint_SendBinaryClass (lane : Lane) (class : TrafficClass) (data : bytes) : handler (option send_error) :=
  match LaneForClass class with
  | Err e => mret (Some (SendClass e))
  | Ok l => if bool_decide (l = lane) then err ← endpoint_SendBinary lane data; mret (option_map SendFailed err)
            else mret (Some (SendLane class l lane))
  end.

(** * The handshake responder *)

Definition decode_hello_obj (o : obj) : option transportHandshake :=
  type ← field dec_str "type" ""%string o; version ← field dec_int64 "version" 0 o;
  Some {| hs_type := type; hs_version := version |}.
(** What json.Unmarshal makes of a message, [None] when it is not JSON. *)
Definition decode_hello (data : option json) : option transportHandshake :=
  match data with Some (JObj o) => decode_hello_obj o | Some JNull => decode_hello_obj [] | _ => None end.

(** [agent/internal/multilane/lane.go:117-120] transportHandshake *)
Definition ready_obj : obj := [("type", JStr "transport_ready"); ("version", JNum ProtocolVersion)]%string.
(** [agent/internal/multilane/lane.go:122-126] transportError *)
Definition error_text (m : string) : obj := [("type", JStr "error"); ("scope", JStr "connection"); ("message", JStr m)]%string.

(** [agent/internal/multilane/lane.go:173-182] sendHandshakeError *)
Definition refuse (m : string) : handler unit :=
  _ ← endpoint_SendText LaneControl (error_text m); _ ← Close; mret tt.

(** The session becomes ready, unless it is closed: the control endpoint gets
    the application's handler.
    [agent/internal/peer/peer.go:224-233] laneOpened *)
Definition ready_locked (w : World) : bool * option func * World :=
  let p := w_peer w in
  if closed p then (false, None, w)
  else let q := set_handler LaneControl (HandlerFunc <$> onMessage p) p in
       (true, onOpen p,
        set_peer (mkPeer (endpoints q) (opened q) (handshakeArmed q) true (onMessage q) (closed q) true (closePending q)
                    (closeNotified q) (onOpen q) (onClosed q) (closeListeners q) (onICECandidate q)) w).
(** [agent/internal/peer/peer.go:238-245] laneOpened *)
Definition open_returned (w : World) : list callback * World :=
  let p := w_peer w in
  let notify := closePending p && negb (closeNotified p) in
  (if notify then closeCallbacksLocked p else [],
   set_peer (mkPeer (endpoints p) (opened p) (handshakeArmed p) (ready p) (onMessage p) (closed p) false (closePending p)
               (closeNotified p || notify) (onOpen p) (onClosed p) (closeListeners p) (onICECandidate p)) w).
(** The function laneOpened gives the responder.
    [agent/internal/peer/peer.go:223-249] laneOpened *)
Definition session_ready : handler unit :=
  '(is_open, on_open) ← atomic ready_locked;
  if (is_open : bool) then
    _ ← match on_open with Some f => _ ← log (OpenCalled f); log OpenReturned | None => mret tt end;
    callbacks ← atomic open_returned; call_all callbacks
  else mret tt.

(** [agent/internal/multilane/lane.go:144-168] InstallHandshakeResponder *)
Definition first_message (data : option json) : handler unit :=
  match decode_hello data with
  | None => refuse "expected transport_hello version 2"
  | Some hello =>
      if negb (bool_decide (hs_type hello = "transport_hello"%string)) then refuse "expected transport_hello version 2"
      else if negb (hs_version hello =? ProtocolVersion)
      then refuse ("incompatible transport version: " +:+ pretty (hs_version hello))
      else err ← endpoint_SendText LaneControl ready_obj;
           match err with
           | Some _ => _ ← Close; mret tt
           | None => _ ← endpoint_SetOnMessage LaneControl None; session_ready
           end
  end.

Definition set_onces (l : list once) (w : World) : World := mkWorld (w_peer w) l (w_next w) (w_log w).
(** The first call of the Once runs; the others wait until it is done. *)
Definition once_enter (k : nat) (w : World) : list (bool * World) :=
  match w_onces w !! k with
  | Some OnceFresh => [(true, set_onces (<[k := OnceRunning]> (w_onces w)) w)]
  | Some OnceDone => [(false, w)]
  | _ => []
  end.
(** [agent/internal/multilane/lane.go:142-170] InstallHandshakeResponder *)
Definition respond (k : nat) (data : option json) : handler unit :=
  go ← choices (once_enter k);
  if (go : bool) then
    with_defer (modifies (fun w => set_onces (<[k := OnceDone]> (w_onces w)) w)) (first_message data)
  else mret tt.

Definition endpoint_handler (lane : Lane) (w : World) : option msg_handler :=
  match endpoints (w_peer w) !! lane with Some h => h | None => None end.
(** [agent/internal/peer/peer.go:411-418] deliver *)
Definition deliver (lane : Lane) (data : option json) : handler unit :=
  h ← reads (endpoint_handler lane);
  match h with
  | None => mret tt
  | Some (HandlerFunc f) => log (Received lane f data)
  | Some (HandshakeResponder k) => respond k data
  end.

(** A new Once, and the responder as the control endpoint's handler.
    [agent/internal/multilane/lane.go:131-142] InstallHandshakeResponder *)
Definition InstallHandshakeResponder : handler unit :=
  modifies (fun w => set_peer (set_handler LaneControl (Some (HandshakeResponder (length (w_onces w)))) (w_peer w))
                       (set_onces (w_onces w ++ [OnceFresh]) w)).

(** [agent/internal/peer/peer.go:210-221] laneOpened *)
Definition lane_opened_locked (lane : Lane) (w : World) : bool * World :=
  let p := w_peer w in
  if closed p || negb (Lane_Valid lane) || bool_decide (lane ∈ opened p) then (false, w)
  else
    let opened' := {[lane]} ∪ opened p in
    let arm := bool_decide (size opened' = length requiredLanes) && negb (handshakeArmed p) in
    (arm, add_log (Opened lane)
            (set_peer (mkPeer (endpoints p) opened' (handshakeArmed p || arm) (ready p) (onMessage p) (closed p)
                         (openCallbackRunning p) (closePending p) (closeNotified p) (onOpen p) (onClosed p) (closeListeners p)
                         (onICECandidate p)) w)).
(** [agent/internal/peer/peer.go:209-250] laneOpened *)
Definition laneOpened (lane : Lane) : handler unit :=
  arm ← atomic (lane_opened_locked lane); if (arm : bool) then InstallHandshakeResponder else mret tt.

(** * The offer *)

Definition add_endpoint (lane : Lane) (w : World) : World :=
  let p := w_peer w in
  set_peer (mkPeer (<[lane := None]> (endpoints p)) (opened p) (handshakeArmed p) (ready p) (onMessage p) (closed p)
              (openCallbackRunning p) (closePending p) (closeNotified p) (onOpen p) (onClosed p) (closeListeners p)
              (onICECandidate p)) w.
(** [agent/internal/peer/peer.go:185-197] CreateOffer *)
Fixpoint create_channels (lanes : list (Lane * string)) : handler (option string) :=
  match lanes with
  | [] => mret None
  | (lane, label) :: rest =>
      err ← pion (PcCreateDataChannel label);
      match err with
      | Some e => _ ← Close; mret (Some ("create " +:+ label +:+ " data channel: " +:+ e)%string)
      | None => _ ← modifies (add_endpoint lane); create_channels rest
      end
  end.
(** The offer the library makes. *)
Definition pion_offer : handler (result string string) :=
  choices (fun w => map (fun sdp => (Ok sdp, add_log (Pion PcCreateOffer None) w)) pion_offers
                    ++ map (fun e => (Err e, add_log (Pion PcCreateOffer (Some e)) w)) (pion_errors PcCreateOffer)).
(** [agent/internal/peer/peer.go:181-207] CreateOffer *)
Definition CreateOffer : handler (result string string) :=
  n ← reads (fun w => size (endpoints (w_peer w)));
  if negb (bool_decide (n = 0%nat)) then mret (Err "create offer: data channels already created"%string)
  else
    failed ← (create_channels requiredLanes : handler (option string));
    match failed with
    | Some e => mret (Err e)
    | None =>
        offer ← pion_offer;
        match offer with
        | Err e => mret (Err ("create offer: " +:+ e)%string)
        | Ok sdp =>
            err ← pion (PcSetLocalDescription sdp);
            match err with
            | Some e => mret (Err ("set local description: " +:+ e)%string)
            | None => mret (Ok sdp)
            end
        end
    end.

(** [agent/internal/peer/peer.go:341-343] SetAnswer *)
Definition SetAnswer (sdp : string) : handler (option string) := pion (PcSetRemoteDescription sdp).
(** [agent/internal/peer/peer.go:345-347] AddICECandidate *)
Definition AddICECandidate (init : json) : handler (option string) := pion (PcAddICECandidate init).

(** * The application's functions *)

Definition set_on_open (f : option func) (p : Peer) : Peer :=
  mkPeer (endpoints p) (opened p) (handshakeArmed p) (ready p) (onMessage p) (closed p) (openCallbackRunning p) (closePending p)
    (closeNotified p) f (onClosed p) (closeListeners p) (onICECandidate p).
(** [agent/internal/peer/peer.go:291-295] SetOnOpen *)
Definition SetOnOpen (f : option func) : handler unit := modifies (fun w => set_peer (set_on_open f (w_peer w)) w).
Definition set_on_close (f : option func) (p : Peer) : Peer :=
  mkPeer (endpoints p) (opened p) (handshakeArmed p) (ready p) (onMessage p) (closed p) (openCallbackRunning p) (closePending p)
    (closeNotified p) (onOpen p) f (closeListeners p) (onICECandidate p).
(** [agent/internal/peer/peer.go:297-301] SetOnClose *)
Definition SetOnClose (f : option func) : handler unit := modifies (fun w => set_peer (set_on_close f (w_peer w)) w).
Definition set_on_candidate (f : option func) (p : Peer) : Peer :=
  mkPeer (endpoints p) (opened p) (handshakeArmed p) (ready p) (onMessage p) (closed p) (openCallbackRunning p) (closePending p)
    (closeNotified p) (onOpen p) (onClosed p) (closeListeners p) f.
(** [agent/internal/peer/peer.go:317-321] SetOnICECandidate *)
Definition SetOnICECandidate (f : option func) : handler unit :=
  modifies (fun w => set_peer (set_on_candidate f (w_peer w)) w).
Definition set_on_message (f : option func) (p : Peer) : Peer :=
  mkPeer (endpoints p) (opened p) (handshakeArmed p) (ready p) f (closed p) (openCallbackRunning p) (closePending p)
    (closeNotified p) (onOpen p) (onClosed p) (closeListeners p) (onICECandidate p).
(** [agent/internal/peer/peer.go:328-336] SetOnMessage *)
Definition SetOnMessage (f : option func) : handler unit :=
  is_ready ← atomic (fun w => (ready (w_peer w), set_peer (set_on_message f (w_peer w)) w));
  if (is_ready : bool) then endpoint_SetOnMessage LaneControl (HandlerFunc <$> f) else mret tt.

(** A listener joins the list, or is called at once.
    [agent/internal/peer/peer.go:307-314] AddOnClose *)
Definition add_listener (f : func) (w : World) : option nat * World :=
  let p := w_peer w in
  let n := w_next w in
  if closeNotified p then (Some n, mkWorld p (w_onces w) (S n) (w_log w ++ [Late n]))
  else (None, mkWorld (mkPeer (endpoints p) (opened p) (handshakeArmed p) (ready p) (onMessage p) (closed p) (openCallbackRunning p)
                         (closePending p) (closeNotified p) (onOpen p) (onClosed p) (closeListeners p ++ [(n, f)])
                         (onICECandidate p)) (w_onces w) (S n) (w_log w ++ [Registered n])).
(** [agent/internal/peer/peer.go:303-315] AddOnClose *)
Definition AddOnClose (f : option func) : handler unit :=
  match f with
  | None => mret tt
  | Some f => late ← atomic (add_listener f);
              match late with Some n => call_all [Listener n f] | None => mret tt end
  end.

(** [agent/internal/peer/peer.go:68-78] New *)
Definition candidate_found (init : option json) : handler unit :=
  match init with
  | None => mret tt
  | Some init => h ← reads (fun w => onICECandidate (w_peer w));
                 match h : option func with Some f => log (Candidate f init) | None => mret tt end
  end.
Inductive connection_state := StateFailed | StateClosed | StateOther.
(** [agent/internal/peer/peer.go:79-83] New *)
Definition state_changed (state : connection_state) : handler unit :=
  match state with StateFailed | StateClosed => notifyClosed | StateOther => mret tt end.

(** [agent/internal/peer/peer.go:325-325] SendBinary *)
Definition SendBinary (data : bytes) : handler (option string) := endpoint_SendBinary LaneControl data.
(** [agent/internal/peer/peer.go:326-326] SendText *)
Definition SendText (text : obj) : handler (option string) := endpoint_SendText LaneControl text.

(** * The system *)

Definition detach {A} (p : handler A) : handler unit := _ ← p; mret tt.

(** What needs a channel starts when it has been made. *)
Definition on_channel (lane : Lane) (p : handler unit) : handler unit :=
  _ ← choices (fun w => match endpoints (w_peer w) !! lane with Some _ => [(tt, w)] | None => [] end); p.

(** What the application and the library may start, at any time. *)
Inductive accepts : handler unit -> World -> Prop :=
| accept_offer w : accepts (detach CreateOffer) w
| accept_answer sdp w : accepts (detach (SetAnswer sdp)) w
| accept_add_candidate init w : accepts (detach (AddICECandidate init)) w
| accept_close w : accepts (detach Close) w
| accept_on_open f w : accepts (SetOnOpen f) w
| accept_on_close f w : accepts (SetOnClose f) w
| accept_on_candidate f w : accepts (SetOnICECandidate f) w
| accept_on_message f w : accepts (SetOnMessage f) w
| accept_add_close f w : accepts (AddOnClose f) w
| accept_text lane text w : accepts (on_channel lane (detach (endpoint_SendText lane text))) w
| accept_binary lane data w : accepts (on_channel lane (detach (endpoint_SendBinary lane data))) w
| accept_class lane class data w : accepts (on_channel lane (detach (endpoint_SendBinaryClass lane class data))) w
| accept_handler lane f w : accepts (on_channel lane (endpoint_SetOnMessage lane (HandlerFunc <$> f))) w
| accept_candidate init w : accepts (candidate_found init) w
| accept_state s w : accepts (state_changed s) w
| accept_opened lane w : accepts (on_channel lane (laneOpened lane)) w
| accept_closed lane w : accepts (on_channel lane (laneClosed lane)) w
| accept_message lane data w : accepts (on_channel lane (deliver lane data)) w.

Definition reachable (c : list (handler unit) * World) : Prop :=
  rtc (sys_step accepts (fun _ _ => False)) ([], new_world) c.
End peer.
