(* ===== verification/PeerSafe.v ===== *)
(** What the direct connection promises in every interleaving of the WebRTC
    library's callbacks and the application's calls: the open callback runs at
    most once, after the handshake and before any close callback, and every
    close listener is called exactly once when the connection closes. *)

From S2P Require Import Prelude Lanes Conc ConcOwn Json TransferState Peer.

Section safe.
Context `{WebRTC}.
Abbreviation handler := (proc World).

(** * Reading the log *)

(** Whose call a callback is: the owner's, or a listener's. *)
Definition key (c : callback) : option nat := match c with OnClosed _ => None | Listener n _ => Some n end.
Definition is_call (c : option nat) (e : effect) : bool :=
  match e with CloseCalled x => bool_decide (key x = c) | _ => false end.
Definition calls (c : option nat) (l : list effect) : list effect := filter (fun e => is_call c e = true) l.
Definition is_open (e : effect) : bool := match e with OpenCalled _ => true | _ => false end.
Definition opens (l : list effect) : list effect := filter (fun e => is_open e = true) l.
(** The open callback is running. *)
Definition running (l : list effect) : bool :=
  foldl (fun b e => match e with OpenCalled _ => true | OpenReturned => false | _ => b end) false l.

Lemma calls_split c l1 l2 : calls c (l1 ++ l2) = calls c l1 ++ calls c l2.
Proof. apply filter_app. Qed.
Lemma opens_app l1 l2 : opens (l1 ++ l2) = opens l1 ++ opens l2.
Proof. apply filter_app. Qed.

Lemma calls_none k l : (forall c, CloseCalled c ∉ l) -> calls k l = [].
Proof.
  intros Hl. destruct (calls k l) as [|e l'] eqn:He; [done|]. assert (e ∈ calls k l) as Hin by (rewrite He; left).
  apply list_elem_of_filter in Hin as [Hk Hin]. destruct e; try done. by destruct (Hl c).
Qed.

(** The handshake was accepted on three open lanes. *)
Definition shaken (l : list effect) : Prop :=
  (forall lane, Lane_Valid lane = true -> Opened lane ∈ l) /\ Pion (DcSendText LaneControl ready_obj) None ∈ l.

Record good (past : list effect) (e : effect) : Prop := {
  good_open : is_open e = true -> opens past = [] /\ (forall c, CloseCalled c ∉ past) /\ shaken past;
  good_close : forall c, e = CloseCalled c -> running past = false /\ calls (key c) past = [] }.

(** * The invariant *)

(** A listener, or the owner's callback, is to be called. *)
Definition due (c : option nat) (w : World) : Prop :=
  match c with
  | None => closeNotified (w_peer w) = true
  | Some n => Late n ∈ w_log w \/ (Registered n ∈ w_log w /\ closeNotified (w_peer w) = true)
  end.

Definition unopened (w : World) : Prop := w_onces w !! 0 = None \/ w_onces w !! 0 = Some OnceFresh.

Record Inv (w : World) : Prop := {
  iv_onces : length (w_onces w) <= 1;
  iv_armed : handshakeArmed (w_peer w) = false -> w_onces w = [];
  iv_lanes : handshakeArmed (w_peer w) = true -> forall lane, Lane_Valid lane = true -> Opened lane ∈ w_log w;
  iv_opened : forall lane, lane ∈ opened (w_peer w) -> Lane_Valid lane = true /\ Opened lane ∈ w_log w;
  iv_running : openCallbackRunning (w_peer w) = true -> w_onces w !! 0 = Some OnceRunning;
  iv_unopened : unopened w -> opens (w_log w) = [];
  iv_open : running (w_log w) = true -> openCallbackRunning (w_peer w) = true;
  iv_closed : closed (w_peer w) = true ->
    closeNotified (w_peer w) = true \/ (openCallbackRunning (w_peer w) = true /\ closePending (w_peer w) = true);
  iv_notified : closeNotified (w_peer w) = true -> closed (w_peer w) = true /\ openCallbackRunning (w_peer w) = false;
  iv_pending : closePending (w_peer w) = true -> closed (w_peer w) = true;
  iv_listeners : forall n, Registered n ∈ w_log w <-> n ∈ (closeListeners (w_peer w)).*1;
  iv_once : NoDup (closeListeners (w_peer w)).*1;
  iv_next : forall n, Registered n ∈ w_log w \/ Late n ∈ w_log w -> n < w_next w;
  iv_late : forall n, Late n ∈ w_log w -> closeNotified (w_peer w) = true /\ Registered n ∉ w_log w;
  iv_calls : forall c, CloseCalled c ∈ w_log w -> due (key c) w;
  iv_log : forall past e rest, w_log w = past ++ e :: rest -> good past e }.

Lemma due_notified c w : Inv w -> due c w -> closeNotified (w_peer w) = true.
Proof. intros Hi. destruct c as [n|]; [intros [Hl|[_ Hn]]; [by apply (iv_late w Hi n)|done]|done]. Qed.

(** * Tokens: arming the handshake, its Once, and a call that is due *)

Inductive tok := TArm | TOnce | TCall (c : option nat).
#[export] Instance tok_eq : EqDecision tok.
Proof. solve_decision. Defined.
#[export] Instance tok_countable : Countable tok.
Proof.
  refine (inj_countable' (fun t => match t with TArm => inl true | TOnce => inl false | TCall c => inr c end)
    (fun x => match x with inl true => TArm | inl false => TOnce | inr c => TCall c end) _).
  by intros [].
Defined.

Definition same (t : tok) (w w' : World) : Prop :=
  match t with
  | TArm => length (w_onces w') = length (w_onces w)
  | TOnce => w_onces w' !! 0 = w_onces w !! 0 /\ opens (w_log w') = opens (w_log w)
             /\ running (w_log w') = running (w_log w)
             /\ openCallbackRunning (w_peer w') = openCallbackRunning (w_peer w)
  | TCall c => calls c (w_log w') = calls c (w_log w)
  end.
Definition fresh (t : tok) (w : World) : Prop :=
  match t with
  | TArm => handshakeArmed (w_peer w) = false
  | TOnce => unopened w
  | TCall c => ~ due c w
  end.
(** An open callback must return; a listener that is due must be called. *)
Definition live (t : tok) (w : World) : Prop :=
  match t with
  | TArm | TCall None => False
  | TOnce => openCallbackRunning (w_peer w) = true
  | TCall (Some n) => due (Some n) w /\ calls (Some n) (w_log w) = []
  end.
Definition Rel (w w' : World) : Prop :=
  w_log w `prefix_of` w_log w' /\ (closeNotified (w_peer w) = true -> closeNotified (w_peer w') = true).

#[export] Instance Rel_pre : PreOrder Rel.
Proof. split; [by intros w; split|]. intros w1 w2 w3 [H1 H2] [H3 H4]. split; [by etransitivity|auto]. Qed.
#[export] Instance same_pre t : PreOrder (same t).
Proof. split; [by destruct t|]. intros w1 w2 w3. destruct t; simpl; naive_solver congruence. Qed.

Abbreviation pwp := (owp same fresh live Rel Inv (fun _ => True)).
Abbreviation prely := (rely same Rel).
Abbreviation pguar := (guar same fresh Rel).
Abbreviation pmade := (made fresh).
Abbreviation powing := (owing live).

Lemma log_keeps w w' e : Rel w w' -> e ∈ w_log w -> e ∈ w_log w'.
Proof. intros [[l ->] _] He. apply elem_of_app. by left. Qed.
Lemma due_rel c w w' : Rel w w' -> due c w -> due c w'.
Proof.
  intros HR. destruct c as [n|]; simpl; [|apply HR].
  intros [Hl|[Hr Hn]]; [left; by eapply log_keeps|right; split; [by eapply log_keeps|by apply HR]].
Qed.

(** * Steps *)

Definition step_ok (O O' : gset tok) (w w' : World) : Prop := Inv w' /\ pguar O O' w w' /\ powing O O' w w'.

Lemma pwp_choices {A} O (f : World -> list (A * World)) (Q : gset tok -> A -> World -> Prop) w :
  (forall w1, prely O w w1 -> Inv w1 -> pmade O w1 -> forall b w2, (b, w2) ∈ f w1 ->
     exists O', step_ok O O' w1 w2 /\ forall w3, prely O' w2 w3 -> Q O' b w3) ->
  pwp O (choices f) Q w.
Proof.
  intros Hf w1 Hw Hi Hm b w2 Hin _. destruct (Hf w1 Hw Hi Hm b w2 Hin) as (O'&(?&?&?)&?).
  split; [done|]. by exists O'.
Qed.
Lemma pwp_atomic {A} O (f : World -> A * World) (Q : gset tok -> A -> World -> Prop) w :
  (forall w1, prely O w w1 -> Inv w1 -> pmade O w1 ->
     exists O', step_ok O O' w1 (f w1).2 /\ forall w3, prely O' (f w1).2 w3 -> Q O' (f w1).1 w3) ->
  pwp O (atomic f) Q w.
Proof.
  intros Hf. apply (pwp_choices O (fun w => [f w])). intros w1 Hw Hi Hm b w2 Hin%list_elem_of_singleton.
  destruct (Hf w1 Hw Hi Hm) as (O'&Hs). exists O'. by rewrite <- Hin in Hs.
Qed.
Lemma pwp_modifies O (f : World -> World) (Q : gset tok -> unit -> World -> Prop) w :
  (forall w1, prely O w w1 -> Inv w1 -> pmade O w1 ->
     exists O', step_ok O O' w1 (f w1) /\ forall w3, prely O' (f w1) w3 -> Q O' tt w3) ->
  pwp O (modifies f) Q w.
Proof. apply (pwp_atomic O (fun w => (tt, f w))). Qed.

(** What the invariant and the tokens look at, but for the log. *)
Definition core (w : World) :=
  (opened (w_peer w), handshakeArmed (w_peer w), closed (w_peer w), openCallbackRunning (w_peer w), closePending (w_peer w),
   closeNotified (w_peer w), closeListeners (w_peer w), w_onces w, w_next w).

Definition quiet (e : effect) : Prop := match e with Pion _ _ | Received _ _ _ | Candidate _ _ => True | _ => False end.

Lemma app_split {A} (l1 l2 past rest : list A) e :
  l1 ++ l2 = past ++ e :: rest -> e ∈ l2 \/ exists rest', l1 = past ++ e :: rest'.
Proof.
  intros [(l&->&Hl)|(l&->&->)]%app_eq_inv; [|left; apply elem_of_app; right; left].
  destruct l as [|x l]; simpl in *; [left; subst; left|]. simplify_eq. right. eauto.
Qed.

Lemma quiet_app l1 l : Forall quiet l ->
  opens (l1 ++ l) = opens l1 /\ running (l1 ++ l) = running l1 /\ (forall c, calls c (l1 ++ l) = calls c l1)
  /\ (forall x, ~ quiet x -> x ∈ l1 ++ l <-> x ∈ l1).
Proof.
  intros Hl. unfold running. rewrite opens_app, foldl_app. split_and!.
  - assert (opens l = []) as -> by (induction Hl as [|[] l He _ IH]; done). by rewrite app_nil_r.
  - generalize (foldl (fun b e => match e with OpenCalled _ => true | OpenReturned => false | _ => b end) false l1).
    induction Hl as [|[] l He _ IH]; done.
  - intros c. rewrite calls_split. assert (calls c l = []) as -> by (induction Hl as [|[] l He _ IH]; done). by rewrite app_nil_r.
  - intros x Hx. rewrite elem_of_app. split; [intros [?|Hin]; [done|]|by left]. by eapply Forall_forall in Hin.
Qed.

Lemma quiet_entry_good past e : quiet e -> good past e.
Proof. destruct e; try done; intros _; constructor; intros; done. Qed.

(** A world that differs in the log of the library's calls. *)
Definition quiets (w w' : World) : Prop := core w' = core w /\ exists l, Forall quiet l /\ w_log w' = w_log w ++ l.

Lemma quiets_due c w w' : quiets w w' -> due c w' <-> due c w.
Proof.
  intros [Hc (l&Hl&Hw)]. destruct (quiet_app (w_log w) l Hl) as (_&_&_&Hx). unfold core in Hc.
  destruct c as [n|]; simpl; rewrite ?Hw, ?Hx by auto; naive_solver congruence.
Qed.

Lemma quiet_step O w w' : Inv w -> pmade O w -> quiets w w' -> step_ok O O w w'.
Proof.
  intros Hi Hm Hq. pose proof (fun c => quiets_due c w w' Hq) as Hdue. destruct Hq as [Hc (l&Hl&Hw)].
  destruct (quiet_app (w_log w) l Hl) as (Ho&Hr&Hcl&Hx). injection Hc as H1 H2 H3 H4 H5 H6 H7 H8 H9.
  assert (forall t, fresh t w' -> fresh t w) as Hf.
  { intros [| |c]; simpl; unfold unopened; rewrite ?H2, ?H8, ?Hdue; done. }
  split_and!; [destruct Hi as [I1 I2 I3 I4 I5 I6 I7 I8 I9 I10 I11 I12 I13 I14 I15 I16]|constructor|].
  - constructor; unfold unopened; rewrite ?H1, ?H2, ?H3, ?H4, ?H5, ?H6, ?H7, ?H8, ?H9, ?Hw, ?Ho, ?Hr; try done.
    + intros Ha lane. rewrite Hx by auto. by apply I3.
    + intros lane. rewrite Hx by auto. by apply I4.
    + intros n. rewrite Hx by auto. by apply I11.
    + intros n. rewrite !Hx by auto. by apply I13.
    + intros n. rewrite !Hx by auto. by apply I14.
    + intros c. rewrite Hx, Hdue by auto. apply I15.
    + intros past e rest [Hin|(rest'&?)]%app_split; [by apply quiet_entry_good, (Forall_forall quiet l)|by eapply I16].
  - split; [by eexists|by rewrite H6].
  - intros [| |c] _ _; simpl; [congruence|by rewrite H8, H4, Hw, Ho, Hr|by rewrite Hw].
  - intros t Ht. split; [|by left]. intros Hf'. by eapply Hm, Hf.
  - exact Hf.
  - intros t Ht. destruct (decide (t ∈ O)) as [|Hn]; [by left|right]. split; [done|].
    destruct t as [| |[n|]]; cbn [live] in *; rewrite ?H4, ?(Hdue (Some _)), ?Hw, ?Hcl in Ht; done.
Qed.

(** Programs that keep the tokens, and everything they stand for. *)
Definition still {A} (p : handler A) : Prop := forall O w, pwp O p (fun O' _ w' => O' = O /\ prely O w w') w.

Lemma still_ret {A} (a : A) : still (mret a).
Proof. intros O w w1 Hw. done. Qed.
Lemma still_bind {A B} (p : handler A) (g : A -> handler B) : still p -> (forall a, still (g a)) -> still (p ≫= g).
Proof.
  intros Hp Hg O w. apply owp_bind; [apply _..|]. eapply owp_mono; [|by apply Hp]. intros O' a w1 [-> Hw].
  eapply owp_mono; [|by apply Hg]. intros O' b w2 [-> Hw2]. split; [done|]. by etransitivity.
Qed.
Lemma pwp_still {A B} (p : handler A) (g : A -> handler B) O Q w :
  still p -> (forall a w', prely O w w' -> pwp O (g a) Q w') -> pwp O (p ≫= g) Q w.
Proof.
  intros Hp Hg. apply owp_bind; [apply _..|]. eapply owp_mono; [|by apply Hp]. intros O' a w1 [-> Hw]. by apply Hg.
Qed.

(** A step on tokens one does not have is within the rely. *)
Lemma prely_step O w w1 w2 w3 : prely O w w1 -> pmade O w1 -> Rel w1 w2 -> (forall t, t ∈ O -> same t w1 w2) ->
  prely O w2 w3 -> prely O w w3.
Proof. intros Hw Hm HR Hs H3. etransitivity; [exact Hw|]. etransitivity; [|exact H3]. by split. Qed.

Lemma still_choices {A} (f : World -> list (A * World)) :
  (forall w b w', Inv w -> (b, w') ∈ f w -> quiets w w') -> still (choices f).
Proof.
  intros Hf O w. apply pwp_choices. intros w1 Hw Hi Hm b w2 Hin. apply Hf in Hin; [|done].
  exists O. split; [by apply quiet_step|]. intros w3 H3. split; [done|].
  destruct Hin as [Hc (l&Hl&Hlog)]. destruct (quiet_app (w_log w1) l Hl) as (Ho&Hr&Hcl&Hx).
  injection Hc as H1 H2 H4 H5 H6 H7 H8 H9 H10. eapply prely_step; [exact Hw|exact Hm| | |exact H3].
  - split; [by eexists|by rewrite H7].
  - intros [| |c] _; simpl; [congruence|by rewrite H9, H5, Hlog, Ho, Hr|by rewrite Hlog].
Qed.
Lemma quiets_refl w : quiets w w.
Proof. split; [done|]. exists []. by rewrite app_nil_r. Qed.
Lemma quiets_log e w : quiet e -> quiets w (add_log e w).
Proof. intros He. split; [done|]. exists [e]. by repeat constructor. Qed.
Lemma still_modifies (f : World -> World) : (forall w, quiets w (f w)) -> still (modifies f).
Proof. intros Hf. apply (still_choices (fun w => [(tt, f w)])). by intros w b w' _ [= _ ->]%list_elem_of_singleton. Qed.
Lemma still_reads {A} (f : World -> A) : still (reads f).
Proof.
  apply (still_choices (fun w => [(f w, w)])). intros w b w' _ [= _ ->]%list_elem_of_singleton. apply quiets_refl.
Qed.
Lemma still_atomic {A} (f : World -> A * World) : (forall w, quiets w (f w).2) -> still (atomic f).
Proof.
  intros Hf. apply (still_choices (fun w => [f w])). intros w b w' _ Hin%list_elem_of_singleton. specialize (Hf w).
  by rewrite <- Hin in Hf.
Qed.
Lemma still_pion c : still (pion c).
Proof.
  apply still_choices. intros w b w' _ (r&[= -> ->]&_)%list_elem_of_fmap. by apply quiets_log.
Qed.

(** Entries that neither open nor close. *)
Definition inert (e : effect) : Prop :=
  match e with OpenCalled _ | OpenReturned | CloseCalled _ => False | _ => True end.
Lemma inert_snoc l e : inert e -> opens (l ++ [e]) = opens l /\ running (l ++ [e]) = running l
  /\ (forall c, calls c (l ++ [e]) = calls c l) /\ good l e.
Proof.
  intros He. unfold running. rewrite opens_app, foldl_app. split_and!.
  - assert (opens [e] = []) as -> by (by destruct e). by rewrite app_nil_r.
  - by destruct e.
  - intros c. rewrite calls_split. assert (calls c [e] = []) as -> by (by destruct e). by rewrite app_nil_r.
  - by destruct e.
Qed.

(** ** Calling the close callbacks *)

Lemma in_snoc (l : list effect) e x : x ∈ l ++ [e] <-> x ∈ l \/ x = e.
Proof. by rewrite elem_of_app, list_elem_of_singleton. Qed.
Lemma opens_snoc l e : is_open e = false -> opens (l ++ [e]) = opens l.
Proof. intros He. rewrite opens_app. unfold opens at 2. rewrite filter_cons_False by congruence. by rewrite app_nil_r. Qed.
Lemma running_call l c : running (l ++ [CloseCalled c]) = running l.
Proof. unfold running. by rewrite foldl_app. Qed.
Lemma calls_snoc c l e : is_call c e = false -> calls c (l ++ [e]) = calls c l.
Proof. intros He. rewrite calls_split. unfold calls at 2. rewrite filter_cons_False by congruence. by rewrite app_nil_r. Qed.
Lemma log_grows w e : (forall past e rest, w_log w = past ++ e :: rest -> good past e) -> good (w_log w) e ->
  forall past e' rest, w_log w ++ [e] = past ++ e' :: rest -> good past e'.
Proof. intros Hl He past e' rest [[-> ->]|(rest'&Heq)]%snoc_split; [done|by eapply Hl]. Qed.

Lemma call_step c O w : Inv w -> pmade ({[TCall (key c)]} ∪ O) w -> (TCall (key c) ∉ O) -> due (key c) w ->
  calls (key c) (w_log w) = [] -> step_ok ({[TCall (key c)]} ∪ O) O w (add_log (CloseCalled c) w).
Proof.
  intros Hi Hm Hn Hd Hc. pose proof (due_notified _ _ Hi Hd) as Hno. set (w' := add_log _ w).
  assert (Rel w w') as HR by (split; [by eexists|done]).
  assert (forall c', due c' w' <-> due c' w) as Hdue.
  { intros [n|]; unfold w'; simpl; [|done]. rewrite !in_snoc. naive_solver. }
  assert (calls (key c) (w_log w') <> []) as Hcalled.
  { unfold w'; simpl. rewrite calls_split, Hc. simpl. unfold calls. by rewrite filter_cons_True by (by apply bool_decide_eq_true). }
  split_and!; [destruct Hi as [I1 I2 I3 I4 I5 I6 I7 I8 I9 I10 I11 I12 I13 I14 I15 I16]|constructor|].
  - constructor; try done; unfold unopened; simpl; try setoid_rewrite in_snoc.
    + intros Ha lane Hv. left. auto.
    + intros lane Ho. destruct (I4 lane Ho). auto.
    + by rewrite opens_snoc.
    + unfold running. rewrite foldl_app. exact I7.
    + intros n. rewrite <- I11. naive_solver.
    + intros n Hor. apply I13. naive_solver.
    + intros n [Hl|Hl]; [|done]. apply I14 in Hl. naive_solver.
    + intros c' [Hl|[= ->]]; apply Hdue; auto.
    + apply log_grows; [done|]. constructor; [done|]. intros c' [= <-]. split; [|done].
      apply not_true_is_false. intros Hr%I7. destruct (I9 Hno). congruence.
  - exact HR.
  - intros [| |c'] Ht _; simpl; [done|by rewrite opens_snoc, running_call|]. apply calls_snoc. simpl.
    apply bool_decide_eq_false. intros Heq. rewrite Heq in Ht. set_solver.
  - intros t Ht. assert (t ∈ {[TCall (key c)]} ∪ O) as Ht' by set_solver. split; [|by left]. pose proof (Hm t Ht') as Hf.
    destruct t; cbn [fresh] in *; [done|done|by rewrite Hdue].
  - intros [| |c']; cbn [fresh]; [done|done|by rewrite Hdue].
  - intros t Ht. destruct (decide (t ∈ O)) as [|Hto]; [by left|right].
    destruct t as [| |[n|]]; cbn [live] in *; [done|split; [set_solver|done]| |done].
    destruct Ht as [Hd' Hc']. destruct (decide (Some n = key c)) as [Heq|Hne]; [by rewrite Heq in Hc'|].
    split; [set_solver|]. rewrite Hdue in Hd'. split; [done|]. unfold w' in Hc'. simpl in Hc'.
    rewrite calls_snoc in Hc'; [done|]. simpl. apply bool_decide_eq_false. congruence.
Qed.

(** Calls that are to be made, by whom owns them. *)
Definition to_call (cs : list callback) (w : World) : Prop :=
  NoDup (map key cs) /\ Forall (fun c => due (key c) w /\ calls (key c) (w_log w) = []) cs.
Definition toks (cs : list callback) : gset tok := list_to_set (map (fun c => TCall (key c)) cs).

Lemma elem_toks t cs : t ∈ toks cs <-> exists c, t = TCall (key c) /\ c ∈ cs.
Proof. unfold toks. rewrite elem_of_list_to_set. rewrite list_elem_of_fmap. done. Qed.

Lemma to_call_rely cs O w w' : toks cs ⊆ O -> prely O w w' -> to_call cs w -> to_call cs w'.
Proof.
  intros HO [HR Hs] [Hd Hc]. split; [done|]. apply Forall_forall. intros c Hin.
  pose proof (proj1 (Forall_forall _ _) Hc c Hin) as [H1 H2]. split; [by eapply due_rel|].
  assert (TCall (key c) ∈ O) as Ht by (apply HO, elem_toks; by exists c). rewrite <- H2. exact (Hs _ Ht).
Qed.

Lemma prely_sub O O' w w' : O' ⊆ O -> prely O w w' -> prely O' w w'.
Proof. intros Hs [H1 H2]. split; [done|]. intros t Ht. by apply H2, Hs. Qed.

Lemma call_all_spec cs : forall O w, toks cs ## O -> to_call cs w ->
  pwp (toks cs ∪ O) (call_all cs) (fun O' _ w' => O' = O /\ prely O w w') w.
Proof.
  induction cs as [|c cs IH]; intros O w Hd Hc; cbn [call_all foldr].
  { apply owp_ret. intros w1 Hw. split; [unfold toks; simpl; set_solver|]. eapply prely_sub; [|exact Hw]. set_solver. }
  assert (toks (c :: cs) = {[TCall (key c)]} ∪ toks cs) as Ht by done.
  assert (TCall (key c) ∉ toks cs) as Hn.
  { intros (c'&Hk&Hin)%elem_toks. destruct Hc as [Hnd _]. apply NoDup_cons in Hnd as [Hnd _]. apply Hnd.
    simplify_eq. rewrite Hk. by apply list_elem_of_fmap_2. }
  apply owp_bind; [apply _..|].
  eapply (owp_mono _ _ _ _ _ _ _ _ (fun O' _ w' => O' = toks cs ∪ O /\ prely O w w' /\ to_call cs w')).
  - intros O' [] w' (->&HR&Hc'). eapply owp_mono; [|apply IH; [set_solver|done]].
    intros O2 [] w2 [-> HR2]. split; [done|]. by etransitivity.
  - apply pwp_modifies. intros w1 Hw Hi Hm. exists (toks cs ∪ O).
    pose proof (to_call_rely _ _ _ _ (union_subseteq_l (toks (c :: cs)) O) Hw Hc) as Hc1. destruct Hc1 as [Hnd1 Hc1].
    apply Forall_cons in Hc1 as [[Hd1 Hc0] Hc1]. cbn [map] in Hnd1. apply NoDup_cons in Hnd1 as [_ Hnd1].
    rewrite Ht, <- (assoc_L (∪)) in Hm |- *.
    assert (TCall (key c) ∉ toks cs ∪ O) as Hn'.
    { intros [?|Ho]%elem_of_union; [done|]. apply (Hd (TCall (key c))); [rewrite Ht; set_solver|done]. }
    assert (step_ok ({[TCall (key c)]} ∪ (toks cs ∪ O)) (toks cs ∪ O) w1 (add_log (CloseCalled c) w1)) as Hst.
    { by apply call_step. }
    split; [done|]. intros w3 H3. destruct Hst as (_&Hg&_).
    assert (prely (toks cs ∪ O) w1 (add_log (CloseCalled c) w1)) as Hk.
    { split; [apply Hg|]. intros t Htin. destruct t as [| |k]; simpl; [done|by rewrite opens_snoc, running_call|].
      apply calls_snoc. simpl. apply bool_decide_eq_false. intros Heq. by rewrite Heq in Hn'. }
    split; [done|]. split.
    + etransitivity; [eapply prely_sub; [|exact Hw]; set_solver|]. etransitivity; [eapply prely_sub; [|exact Hk]; set_solver|].
      eapply prely_sub; [|exact H3]. set_solver.
    + eapply (to_call_rely cs (toks cs ∪ O) w1); [set_solver|by etransitivity|by split].
Qed.

(** ** Closing *)

(** The close callbacks become due. *)
Record notified (w w' : World) : Prop := {
  no_log : w_log w' = w_log w;
  no_onces : w_onces w' = w_onces w;
  no_next : w_next w' = w_next w;
  no_opened : opened (w_peer w') = opened (w_peer w);
  no_armed : handshakeArmed (w_peer w') = handshakeArmed (w_peer w);
  no_listeners : closeListeners (w_peer w') = closeListeners (w_peer w);
  no_closed : closed (w_peer w') = true;
  no_notified : closeNotified (w_peer w') = true;
  no_running : openCallbackRunning (w_peer w') = false }.

Lemma keys_locked (p : Peer) k : k ∈ map key (closeCallbacksLocked p) ->
  k = None \/ exists n, k = Some n /\ n ∈ (closeListeners p).*1.
Proof.
  unfold closeCallbacksLocked. rewrite map_app, elem_of_app, map_map. intros [Hk|Hk].
  - left. destruct (onClosed p); simpl in Hk; set_solver.
  - right. change (k ∈ (fun x : nat * func => Some x.1) <$> closeListeners p) in Hk.
    apply list_elem_of_fmap in Hk as (x&->&Hx). exists x.1. split; [done|]. by apply list_elem_of_fmap_2.
Qed.
Lemma listener_locked (p : Peer) n : n ∈ (closeListeners p).*1 -> TCall (Some n) ∈ toks (closeCallbacksLocked p).
Proof.
  intros ([m f]&->&Hx)%list_elem_of_fmap. apply elem_toks. exists (Listener m f). split; [done|].
  unfold closeCallbacksLocked. apply elem_of_app. right. apply list_elem_of_fmap. by exists (m, f).
Qed.
Lemma keys_once w : Inv w -> NoDup (map key (closeCallbacksLocked (w_peer w))).
Proof.
  intros Hi. unfold closeCallbacksLocked. rewrite map_app, map_map.
  assert (NoDup (map (fun x : nat * func => Some x.1) (closeListeners (w_peer w)))) as Hnd.
  { pose proof (NoDup_fmap_2 Some _ (iv_once w Hi)) as Hnd. by rewrite <- list_fmap_compose in Hnd. }
  destruct (onClosed (w_peer w)); simpl; [|done]. constructor; [|done].
  change (None ∉ (fun x : nat * func => Some x.1) <$> closeListeners (w_peer w)). by intros (?&?&?)%list_elem_of_fmap.
Qed.

Lemma not_due w n : Inv w -> closeNotified (w_peer w) = false -> ~ due (Some n) w.
Proof. intros Hi Hn [Hl|[_ Hl]]; [|congruence]. apply iv_late in Hl as [Hl _]; [congruence|done]. Qed.

Lemma notify_step O w w' : Inv w -> pmade O w -> closeNotified (w_peer w) = false -> notified w w' ->
  (openCallbackRunning (w_peer w) = true -> TOnce ∈ O /\ running (w_log w) = false) ->
  let cs := closeCallbacksLocked (w_peer w) in
  step_ok O (toks cs ∪ O) w w' /\ toks cs ## O /\ to_call cs w'.
Proof.
  intros Hi Hm Hn [E1 E2 E3 E4 E5 E6 E7 E8 E9] Hrun cs.
  assert (forall c, CloseCalled c ∉ w_log w) as Huncalled.
  { intros c Hc. apply iv_calls in Hc; [|done]. apply (due_notified _ _ Hi) in Hc. congruence. }
  assert (forall c, calls c (w_log w) = []) as Hcalls.
  { intros c. by apply calls_none. }
  assert (forall t, t ∈ toks cs -> fresh t w) as Hfresh.
  { intros t (c&->&Hin)%elem_toks. assert (key c ∈ map key cs) as Hk by (by apply list_elem_of_fmap_2).
    apply keys_locked in Hk as [->|(n&->&_)]; simpl; [congruence|by apply not_due]. }
  assert (forall t, t ∈ toks cs -> ~ fresh t w') as Hold.
  { intros t (c&->&Hin)%elem_toks. assert (key c ∈ map key cs) as Hk by (by apply list_elem_of_fmap_2).
    apply keys_locked in Hk as [->|(n&->&Hk)]; simpl; rewrite E8; [tauto|]. apply (iv_listeners w Hi) in Hk.
    rewrite E1. tauto. }
  assert (toks cs ## O) as Hd by (intros t Ht HO; by apply (Hm t HO), Hfresh).
  assert (Rel w w') as HR by (split; [by rewrite E1|congruence]).
  split_and!; [split_and!| |].
  - pose proof (fun c Hd => due_rel c _ _ HR Hd) as Hdue.
    destruct Hi as [I1 I2 I3 I4 I5 I6 I7 I8 I9 I10 I11 I12 I13 I14 I15 I16].
    constructor; unfold unopened; rewrite ?E1, ?E2, ?E3, ?E4, ?E5, ?E6, ?E7, ?E8, ?E9; try done; auto.
    + intros Hr. specialize (I7 Hr). apply Hrun in I7. naive_solver congruence.
    + intros n Hl. apply I14 in Hl as [? _]. congruence.
  - constructor; [done| | |].
    + intros [| |c] Ht _; simpl; [by rewrite E2| |by rewrite E1]. rewrite E1, E2, E9. split_and!; [done..|].
      destruct (openCallbackRunning (w_peer w)); [|done]. by destruct Ht, Hrun.
    + intros t [Ht|Ht]%elem_of_union; [auto|]. split; [|by left]. pose proof (Hm t Ht) as Hf.
      destruct t as [| |c]; cbn [fresh] in *; unfold unopened; rewrite ?E5, ?E2; [done|done|].
      intros Hnd. apply Hf. intros Hd'. by apply Hnd, (due_rel _ _ _ HR).
    + intros [| |c]; cbn [fresh]; unfold unopened; rewrite ?E5, ?E2; [done|done|].
      intros Hnd Hd'. by apply Hnd, (due_rel _ _ _ HR).
  - intros [| |[n|]]; cbn [live]; [done|congruence| |done]. intros [[Hl|[Hl _]] _].
    + rewrite E1 in Hl. apply (iv_late w Hi) in Hl as [Hl _]. congruence.
    + left. apply elem_of_union_l, listener_locked, (iv_listeners w Hi). by rewrite <- E1.
  - done.
  - split; [by apply keys_once|]. apply Forall_forall. intros c Hin. rewrite E1, Hcalls. split; [|done].
    assert (TCall (key c) ∈ toks cs) as Ht by (apply elem_toks; eauto). apply Hold in Ht. cbn [fresh] in Ht.
    assert (key c ∈ map key cs) as Hk by (by apply list_elem_of_fmap_2). apply keys_locked in Hk as [->|(n&->&Hk)]; simpl; [done|].
    right. rewrite E1. split; [by apply iv_listeners|done].
Qed.

(** Closing while the open callback runs: it is left to it. *)
Lemma defer_step O w : Inv w -> pmade O w -> closed (w_peer w) = false -> openCallbackRunning (w_peer w) = true ->
  step_ok O O w (notify_locked w).2 /\ prely O w (notify_locked w).2.
Proof.
  intros Hi Hm Hc Hr. unfold notify_locked. rewrite Hc, Hr. cbn [snd].
  match goal with |- step_ok _ _ _ ?x /\ _ => set (w' := x) end.
  assert (forall c, due c w' <-> due c w) as Hdue by (by intros [n|]).
  split; [split_and!|].
  - destruct Hi as [I1 I2 I3 I4 I5 I6 I7 I8 I9 I10 I11 I12 I13 I14 I15 I16].
    constructor; try done; simpl; auto. intros Hno. apply I9 in Hno. naive_solver congruence.
  - constructor; [done|by intros [] _ _|intros t Ht; split; [by apply (Hm t)|by left]|done].
  - intros t Ht. destruct (decide (t ∈ O)) as [|Hn]; [by left|right]. split; [done|]. by destruct t as [| |[n|]].
  - split; [done|]. by intros [].
Qed.

Lemma still_notify : still notifyClosed.
Proof.
  intros O w. unfold notifyClosed. apply owp_bind; [apply _..|].
  eapply (owp_mono _ _ _ _ _ _ _ _ (fun O' cs w' => O' = toks cs ∪ O /\ toks cs ## O /\ to_call cs w' /\ prely O w w')).
  { intros O' cs w' (->&Hd&Hc&Hw). eapply owp_mono; [|by apply call_all_spec]. intros O2 [] w2 [-> Hw2].
    split; [done|]. by etransitivity. }
  apply pwp_atomic. intros w1 Hw Hi Hm. unfold notify_locked. destruct (closed (w_peer w1)) eqn:Hcl; [|destruct (openCallbackRunning (w_peer w1)) eqn:Hr].
  - exists O. split; [by apply quiet_step, quiets_refl|]. intros w3 H3. simpl. unfold toks. simpl.
    split_and!; [set_solver..|split; constructor|by etransitivity].
  - exists O. destruct (defer_step O w1 Hi Hm Hcl Hr) as [Hs Hk]. unfold notify_locked in Hs, Hk. rewrite Hcl, Hr in Hs, Hk.
    split; [done|]. intros w3 H3. simpl in *. unfold toks. simpl.
    split_and!; [set_solver..|split; constructor|]. etransitivity; [exact Hw|]. by etransitivity.
  - exists (toks (closeCallbacksLocked (w_peer w1)) ∪ O). cbn [fst snd].
    match goal with |- step_ok _ _ _ ?x /\ _ => set (w2 := x) end.
    assert (closeNotified (w_peer w1) = false) as Hn.
    { apply not_true_is_false. intros Hn%iv_notified; [|done]. destruct Hn. congruence. }
    destruct (notify_step O w1 w2) as (Hs&Hd&Hc); [done|done|done|by constructor|congruence|].
    split; [done|]. intros w3 H3. split_and!; [done|done|by eapply to_call_rely; [apply union_subseteq_l|..]|].
    etransitivity; [exact Hw|]. etransitivity; [|eapply prely_sub; [apply union_subseteq_r|exact H3]].
    split; [apply Hs|]. intros [| |c] _; [done|simpl; by rewrite ?Hr|done].
Qed.

Lemma still_close : still Close.
Proof. apply still_bind; [apply still_pion|intros err]. apply still_bind; [apply still_notify|intros _]. apply still_ret. Qed.

(** ** Listeners *)

(** An entry that neither opens nor closes is nothing to the tokens. *)
Lemma inert_rely e w w' : inert e -> w_log w' = w_log w ++ [e] -> w_onces w' = w_onces w ->
  openCallbackRunning (w_peer w') = openCallbackRunning (w_peer w) -> closeNotified (w_peer w') = closeNotified (w_peer w) ->
  forall O, prely O w w'.
Proof.
  intros He Hl Ho Hr Hn O. destruct (inert_snoc (w_log w) e He) as (H1&H2&H3&_).
  split; [split; [by eexists|congruence]|].
  intros [| |c] _; simpl; rewrite ?Ho, ?Hl, ?Hr, ?H1, ?H2, ?H3; done.
Qed.

(** A number that has not been given out. *)
Lemma unknown w n : Inv w -> w_next w <= n ->
  (Registered n ∉ w_log w) /\ (Late n ∉ w_log w) /\ ~ due (Some n) w /\ calls (Some n) (w_log w) = []
  /\ (n ∉ (closeListeners (w_peer w)).*1).
Proof.
  intros Hi Hn. pose proof (iv_next w Hi n) as Hx.
  assert ((Registered n ∉ w_log w) /\ (Late n ∉ w_log w)) as [Hr Hl] by (split; intros ?; (enough (n < w_next w) by lia; auto)).
  assert (~ due (Some n) w) as Hd by (intros [?|[? _]]; done). split_and!; try done.
  - destruct (calls (Some n) (w_log w)) as [|e l] eqn:He; [done|].
    assert (e ∈ calls (Some n) (w_log w)) as [Hk Hin]%list_elem_of_filter by (rewrite He; left).
    destruct e; try done. simpl in Hk. apply bool_decide_eq_true in Hk. apply (iv_calls w Hi) in Hin. by rewrite Hk in Hin.
  - by intros Hin%(iv_listeners w Hi).
Qed.

Lemma late_step f O w : Inv w -> pmade O w -> closeNotified (w_peer w) = true ->
  let n := w_next w in let w' := (add_listener f w).2 in
  step_ok O ({[TCall (Some n)]} ∪ O) w w' /\ prely O w w' /\ (TCall (Some n) ∉ O) /\ to_call [Listener n f] w'.
Proof.
  intros Hi Hm Hno n. destruct (unknown w n Hi (Nat.le_refl _)) as (Hnr&Hnl&Hnd&Hnc&Hnin).
  unfold add_listener. rewrite Hno. cbn [snd]. fold n. set (w' := mkWorld _ _ _ _).
  destruct (inert_snoc (w_log w) (Late n) I) as (E1&E2&E3&E4).
  pose proof (inert_rely (Late n) w w' I eq_refl eq_refl eq_refl eq_refl) as Hk.
  assert (forall c, due c w' <-> due c w \/ c = Some n) as Hdue.
  { intros [m|]; simpl; [|rewrite Hno; naive_solver]. rewrite !in_snoc. naive_solver. }
  assert (TCall (Some n) ∉ O) as HO by (intros Ht; by apply (Hm _ Ht)).
  split_and!; [split_and!|done|done|split; [apply NoDup_singleton|]].
  - destruct Hi as [I1 I2 I3 I4 I5 I6 I7 I8 I9 I10 I11 I12 I13 I14 I15 I16].
    constructor; try done; unfold unopened; simpl; rewrite ?E1, ?E2; try setoid_rewrite in_snoc; try done.
    + intros Ha lane Hv. left. auto.
    + intros lane Ho. destruct (I4 lane Ho). auto.
    + intros m. rewrite <- I11. naive_solver.
    + intros m Hor. fold n. destruct (decide (m = n)) as [->|Hne]; [lia|]. enough (m < n) by lia. apply I13. naive_solver.
    + intros m [Hl|[= ->]]; [apply I14 in Hl; naive_solver|]. split; [done|]. by intros [?|?].
    + intros c [Hl|]; [|done]. apply Hdue. left. auto.
    + by apply log_grows.
  - constructor; [apply (Hk ∅)|intros t _ _; apply (Hk {[t]}); set_solver| |].
    + intros t [->%elem_of_singleton|Ht]%elem_of_union; [split; [simpl; set_solver|by right]|].
      split; [|by left]. pose proof (Hm t Ht) as Hf. destruct t as [| |c]; cbn [fresh] in *; [done|done|]. rewrite Hdue. naive_solver.
    + intros [| |c]; cbn [fresh]; [done|done|]. rewrite Hdue. naive_solver.
  - intros t Ht. destruct (decide (t ∈ {[TCall (Some n)]} ∪ O)) as [|Hto]; [by left|right]. split; [set_solver|].
    destruct t as [| |[m|]]; cbn [live] in *; [done|done| |done]. destruct Ht as [Hd Hc]. rewrite Hdue in Hd.
    split; [destruct Hd as [|[= ->]]; [done|set_solver]|]. simpl in Hc. by rewrite E3 in Hc.
  - apply Forall_singleton. split; [by apply Hdue; right|]. simpl. by rewrite E3.
Qed.

Lemma register_step f O w : Inv w -> pmade O w -> closeNotified (w_peer w) = false ->
  let w' := (add_listener f w).2 in step_ok O O w w' /\ prely O w w'.
Proof.
  intros Hi Hm Hno. set (n := w_next w). destruct (unknown w n Hi (Nat.le_refl _)) as (Hnr&Hnl&Hnd&Hnc&Hnin).
  unfold add_listener. rewrite Hno. cbn [snd]. fold n. set (w' := mkWorld _ _ _ _).
  destruct (inert_snoc (w_log w) (Registered n) I) as (E1&E2&E3&E4).
  assert (forall O, prely O w w') as Hk by (by apply (inert_rely (Registered n))).
  assert (forall c, due c w' <-> due c w) as Hdue.
  { intros [m|]; simpl; [|by rewrite Hno]. rewrite !in_snoc, Hno. naive_solver. }
  split; [split_and!|done].
  - destruct Hi as [I1 I2 I3 I4 I5 I6 I7 I8 I9 I10 I11 I12 I13 I14 I15 I16].
    constructor; try done; unfold unopened; simpl; rewrite ?E1, ?E2, ?Hno in *; try setoid_rewrite in_snoc; try done.
    + intros Ha lane Hv. left. auto.
    + intros lane Ho. destruct (I4 lane Ho). auto.
    + intros m. rewrite fmap_app, elem_of_app, <- I11. simpl. rewrite list_elem_of_singleton. naive_solver.
    + rewrite fmap_app. apply NoDup_app. split_and!; [done| |apply NoDup_singleton]. by intros m Hin ->%list_elem_of_singleton.
    + intros m Hor. fold n. destruct (decide (m = n)) as [->|Hne]; [lia|]. enough (m < n) by lia. apply I13. naive_solver.
    + intros m [Hl|]; [|done]. apply I14 in Hl as [? _]. done.
    + intros c [Hl|]; [|done]. apply Hdue. auto.
    + by apply log_grows.
  - constructor; [apply (Hk ∅)|intros t _ _; apply (Hk {[t]}); set_solver| |].
    + intros t Ht. split; [|by left]. pose proof (Hm t Ht) as Hf. destruct t as [| |c]; cbn [fresh] in *; [done|done|]. by rewrite Hdue.
    + intros [| |c]; cbn [fresh]; [done|done|]. by rewrite Hdue.
  - intros t Ht. destruct (decide (t ∈ O)) as [|Hto]; [by left|right]. split; [done|].
    destruct t as [| |[m|]]; cbn [live] in *; [done|done| |done]. destruct Ht as [Hd Hc]. rewrite Hdue in Hd. split; [done|].
    simpl in Hc. by rewrite E3 in Hc.
Qed.

Lemma still_add_close f : still (AddOnClose f).
Proof.
  destruct f as [f|]; [|apply still_ret]. intros O w. apply owp_bind; [apply _..|]. apply pwp_atomic. intros w1 Hw Hi Hm.
  destruct (closeNotified (w_peer w1)) eqn:Hno; [|].
  - destruct (late_step f O w1 Hi Hm Hno) as (Hs&Hk&Hd&Hc). unfold add_listener in *. rewrite Hno in *. cbn [fst snd] in *.
    exists ({[TCall (Some (w_next w1))]} ∪ O). split; [done|]. intros w3 H3.
    assert (toks [Listener (w_next w1) f] = {[TCall (Some (w_next w1))]}) as Ht by (unfold toks; simpl; set_solver).
    pose proof (call_all_spec [Listener (w_next w1) f] O w3) as Hcall. rewrite Ht in Hcall.
    eapply owp_mono; [|apply Hcall; [set_solver|]].
    + intros O' [] w4 [-> H4]. split; [done|]. etransitivity; [exact Hw|]. etransitivity; [exact Hk|].
      etransitivity; [eapply prely_sub; [apply union_subseteq_r|exact H3]|done].
    + eapply to_call_rely; [rewrite Ht; apply union_subseteq_l|exact H3|done].
  - destruct (register_step f O w1 Hi Hm Hno) as (Hs&Hk). unfold add_listener in *. rewrite Hno in *. cbn [fst snd] in *.
    exists O. split; [done|]. intros w3 H3. apply owp_ret. intros w4 H4. split; [done|].
    etransitivity; [exact Hw|]. etransitivity; [exact Hk|]. by etransitivity.
Qed.

(** ** The handshake *)

Lemma all_lanes (s : gset Lane) : (forall lane, lane ∈ s -> Lane_Valid lane = true) -> size s = 3 ->
  forall lane, Lane_Valid lane = true -> lane ∈ s.
Proof.
  intros Hs Hsize lane Hl. rewrite (set_subseteq_size_eq s ({[LaneControl; LaneMedia; LaneBulk]} : gset Lane)).
  - apply Lane_Valid_spec in Hl. set_solver.
  - intros x Hx. apply Hs, Lane_Valid_spec in Hx. set_solver.
  - by rewrite Hsize.
Qed.

Lemma lane_step lane O w : Inv w -> pmade O w ->
  let r := lane_opened_locked lane w in
  let T : gset tok := if r.1 then {[TArm]} else ∅ in
  step_ok O (T ∪ O) w r.2 /\ prely O w r.2 /\ T ## O /\ (r.1 = true -> w_onces r.2 = [] /\ handshakeArmed (w_peer r.2) = true).
Proof.
  intros Hi Hm. unfold lane_opened_locked.
  destruct (closed (w_peer w) || negb (Lane_Valid lane) || bool_decide (lane ∈ opened (w_peer w))) eqn:Hg; cbn [fst snd].
  { split_and!; [rewrite union_empty_l_L; by apply quiet_step, quiets_refl|done|set_solver|done]. }
  apply orb_false_iff in Hg as [[_ Hv%negb_false_iff]%orb_false_iff _].
  set (opened' := {[lane]} ∪ opened (w_peer w)). set (arm := bool_decide _ && _). set (w' := add_log _ _).
  destruct (inert_snoc (w_log w) (Opened lane) I) as (E1&E2&E3&E4).
  assert (forall O, prely O w w') as Hk by (by apply (inert_rely (Opened lane))).
  assert (forall c, due c w' <-> due c w) as Hdue by (intros [m|]; simpl; rewrite ?in_snoc; naive_solver).
  assert (forall l, l ∈ opened' -> Lane_Valid l = true /\ Opened l ∈ w_log w') as Hop.
  { intros l [->%elem_of_singleton|Hl]%elem_of_union; simpl; rewrite in_snoc; [by auto|].
    destruct (iv_opened w Hi l Hl). auto. }
  assert (arm = true -> handshakeArmed (w_peer w) = false /\ size opened' = 3) as Harm.
  { intros [Hs Ha]%andb_true_iff. apply bool_decide_eq_true in Hs. by apply negb_true_iff in Ha. }
  split_and!; [split_and!|done| |].
  - destruct Hi as [I1 I2 I3 I4 I5 I6 I7 I8 I9 I10 I11 I12 I13 I14 I15 I16].
    constructor; try done; unfold unopened; simpl; rewrite ?E1, ?E2; try setoid_rewrite in_snoc; try done.
    + intros [Ha _]%orb_false_iff. auto.
    + intros Ha l Hl. apply orb_true_iff in Ha as [Ha|Ha]; [left; auto|]. apply Harm in Ha as [_ Hs].
      assert (l ∈ opened') as Hin by (apply all_lanes; [intros x Hx; by apply Hop|done|done]).
      destruct (Hop l Hin) as [_ Hlog]. by apply in_snoc in Hlog.
    + intros n. rewrite <- I11. naive_solver.
    + intros n Hor. apply I13. naive_solver.
    + intros n [Hl|]; [|done]. apply I14 in Hl. naive_solver.
    + intros c [Hl|]; [|done]. apply Hdue. auto.
    + by apply log_grows.
  - constructor; [apply (Hk ∅)|intros t _ _; apply (Hk {[t]}); set_solver| |].
    + intros t [Ht|Ht]%elem_of_union.
      * destruct arm eqn:Ha; [|set_solver]. apply elem_of_singleton in Ht as ->. destruct Harm as [Harm _]; [done|].
        split; [simpl; by rewrite orb_true_r|by right].
      * split; [|by left]. pose proof (Hm t Ht) as Hf. destruct t as [| |c]; cbn [fresh] in *; [|done|by rewrite Hdue].
        simpl. by intros [? _]%orb_false_iff.
    + intros [| |c]; cbn [fresh]; [by intros [? _]%orb_false_iff|done|by rewrite Hdue].
  - intros t Ht. destruct (decide (t ∈ (if arm then {[TArm]} else ∅) ∪ O)) as [|Hto]; [by left|right]. split; [set_solver|].
    destruct t as [| |[m|]]; cbn [live] in *; [done|done| |done]. rewrite Hdue in Ht. simpl in Ht. by rewrite E3 in Ht.
  - destruct arm; [|set_solver]. intros t ->%elem_of_singleton HO. apply (Hm _ HO). by apply Harm.
  - intros Ha. destruct (Harm Ha) as [Hna _]. simpl. rewrite Ha, orb_true_r. split; [by apply iv_armed|done].
Qed.

(** Which of the invariant's parts a step of the Onces touches. *)
Lemma once_step O O' w w' l : Inv w -> w' = set_onces l w \/ (exists h, w' = set_peer (set_handler LaneControl h (w_peer w)) (set_onces l w)) ->
  length l <= 1 -> (handshakeArmed (w_peer w) = false -> l = []) ->
  (openCallbackRunning (w_peer w) = true -> l !! 0 = Some OnceRunning) ->
  (l !! 0 = None \/ l !! 0 = Some OnceFresh -> unopened w) ->
  (forall t, t ∉ O -> ~ fresh t w -> same t w w') -> (forall t, t ∈ O' -> ~ fresh t w' /\ (t ∈ O \/ fresh t w)) ->
  (TOnce ∈ O -> openCallbackRunning (w_peer w) = true -> TOnce ∈ O') -> (forall c, TCall c ∈ O -> TCall c ∈ O') ->
  step_ok O O' w w'.
Proof.
  intros Hi Hw H1 H2 H3 H4 Hs Ho Hlive Hkeep.
  assert (w_log w' = w_log w /\ core w' = (opened (w_peer w), handshakeArmed (w_peer w), closed (w_peer w),
    openCallbackRunning (w_peer w), closePending (w_peer w), closeNotified (w_peer w), closeListeners (w_peer w), l, w_next w))
    as [E0 Hc] by (by destruct Hw as [->|[h ->]]).
  injection Hc as E1 E2 E3 E4 E5 E6 E7 E8 E9. clear Hw.
  assert (forall c, due c w' <-> due c w) as Hdue by (intros [m|]; simpl; by rewrite ?E0, ?E6).
  split_and!.
  - destruct Hi as [I1 I2 I3 I4 I5 I6 I7 I8 I9 I10 I11 I12 I13 I14 I15 I16].
    constructor; unfold unopened; rewrite ?E0, ?E1, ?E2, ?E3, ?E4, ?E5, ?E6, ?E7, ?E8, ?E9; try done; auto.
    intros c Hin. apply Hdue. auto.
  - constructor; [split; [by rewrite E0|by rewrite E6]|done|done|].
    intros [| |c]; cbn [fresh]; unfold unopened; rewrite ?E2, ?E8; [done|done|by rewrite Hdue].
  - intros t Ht. destruct (decide (t ∈ O')) as [|Hn]; [by left|right].
    destruct t as [| |[m|]]; cbn [live] in *; [done| | |done].
    + rewrite E4 in Ht. split; [|done]. intros HO. by apply Hn, Hlive.
    + rewrite Hdue, E0 in Ht. split; [|done]. intros HO. by apply Hn, Hkeep.
Qed.

(** The responder's Once is running, and the session is not open. *)
Record in_once (w : World) : Prop := {
  io_once : w_onces w !! 0 = Some OnceRunning;
  io_opens : opens (w_log w) = [];
  io_log : running (w_log w) = false;
  io_running : openCallbackRunning (w_peer w) = false }.
Lemma in_once_rely O w w' : TOnce ∈ O -> prely O w w' -> in_once w -> in_once w'.
Proof. intros HO [_ Hs] [H1 H2 H3 H4]. destruct (Hs _ HO) as (E1&E2&E3&E4). constructor; congruence. Qed.
Lemma shaken_rel w w' : Rel w w' -> shaken (w_log w) -> shaken (w_log w').
Proof. intros HR [H1 H2]. split; [intros lane Hl; eapply log_keeps; [exact HR|auto]|by eapply log_keeps]. Qed.

Lemma ready_step O w : Inv w -> pmade O w -> TOnce ∈ O -> w_onces w !! 0 = Some OnceRunning -> closed (w_peer w) = false ->
  step_ok O O w (ready_locked w).2 /\ prely (O ∖ {[TOnce]}) w (ready_locked w).2.
Proof.
  intros Hi Hm HO Ho Hc. unfold ready_locked. rewrite Hc. cbn [snd]. set (w' := set_peer _ _).
  assert (forall c, due c w' <-> due c w) as Hdue by (by intros [m|]).
  assert (forall t, t <> TOnce -> same t w w') as Hs by (by intros []).
  split; [split_and!|split; [done|intros t Ht; apply Hs; set_solver]].
  - pose proof (iv_notified w Hi) as Hn. destruct Hi as [I1 I2 I3 I4 I5 I6 I7 I8 I9 I10 I11 I12 I13 I14 I15 I16].
    constructor; try done; simpl; auto; [by rewrite Hc|]. intros Hno. destruct (Hn Hno). congruence.
  - constructor; [done|intros t Ht _; apply Hs; by intros ->|intros t Ht; split; [by apply (Hm t)|by left]|done].
  - intros t Ht. destruct (decide (t ∈ O)) as [|Hto]; [by left|right]. split; [done|]. by destruct t as [| |[m|]].
Qed.

Lemma open_log_step e O w : Inv w -> pmade O w -> TOnce ∈ O -> openCallbackRunning (w_peer w) = true ->
  e = OpenReturned \/ (is_open e = true /\ opens (w_log w) = [] /\ shaken (w_log w)) ->
  step_ok O O w (add_log e w) /\ prely (O ∖ {[TOnce]}) w (add_log e w).
Proof.
  intros Hi Hm HO Hr He. set (w' := add_log e w). pose proof (iv_running w Hi Hr) as Hrun.
  assert (forall x, is_open x = false -> x <> OpenReturned -> x ∈ w_log w ++ [e] <-> x ∈ w_log w) as Hin.
  { intros x Hx Hx'. rewrite in_snoc. split; [|by left]. intros [?| ->]; [done|]. destruct He as [->|[He _]]; [done|congruence]. }
  assert (forall c, is_call c e = false) as Hcall by (intros c; destruct He as [->|[He _]]; [done|by destruct e]).
  assert (forall c, due c w' <-> due c w) as Hdue by (intros [m|]; simpl; rewrite ?Hin; done).
  assert (forall t, t <> TOnce -> same t w w') as Hs by (intros []; [done|done|intros _; by apply calls_snoc]).
  split; [split_and!|split; [split; [by eexists|done]|intros t Ht; apply Hs; set_solver]].
  - pose proof Hi as [I1 I2 I3 I4 I5 I6 I7 I8 I9 I10 I11 I12 I13 I14 I15 I16].
    constructor; try done; simpl; try (intros; apply Hdue; rewrite Hin in *; auto; fail).
    + intros Ha lane Hl. rewrite Hin by done. auto.
    + intros lane. rewrite Hin by done. auto.
    + unfold unopened. simpl. rewrite Hrun. intros [?|?]; done.
    + intros n. rewrite Hin by done. auto.
    + intros n. rewrite !Hin by done. auto.
    + intros n. rewrite !Hin by done. auto.
    + apply log_grows; [done|]. constructor.
      * destruct He as [->|(_&Ho&Hsh)]; [done|]. intros _. split_and!; [done| |done]. intros c Hc%I15%due_notified; [|done].
        apply I9 in Hc as [_ ?]. congruence.
      * intros c ->. by destruct He as [?|[? _]].
  - constructor; [split; [by eexists|done]|intros t Ht _; apply Hs; by intros ->| |].
    + intros t Ht. split; [|by left]. pose proof (Hm t Ht) as Hf. destruct t; cbn [fresh] in *; [done|done|by rewrite Hdue].
    + intros [| |c]; cbn [fresh]; [done|done|by rewrite Hdue].
  - intros t Ht. destruct (decide (t ∈ O)) as [|Hto]; [by left|right]. split; [done|].
    destruct t as [| |[m|]]; cbn [live] in *; [done|done| |done]. rewrite Hdue in Ht. simpl in Ht. by rewrite calls_snoc in Ht.
Qed.

(** The open callback has returned: nothing waits, or the close callbacks become due. *)
Lemma returned_step O w : Inv w -> pmade O w -> TOnce ∈ O -> openCallbackRunning (w_peer w) = true -> running (w_log w) = false ->
  let r := open_returned w in
  step_ok O (toks r.1 ∪ O) w r.2 /\ toks r.1 ## O /\ to_call r.1 r.2 /\ prely (O ∖ {[TOnce]}) w r.2
  /\ openCallbackRunning (w_peer r.2) = false.
Proof.
  intros Hi Hm HO Hr Hl. pose proof (iv_running w Hi Hr) as Hrun.
  assert (closeNotified (w_peer w) = false) as Hn.
  { apply not_true_is_false. intros [_ ?]%iv_notified; [congruence|done]. }
  unfold open_returned. rewrite Hn. cbn [negb]. rewrite andb_true_r. cbn [orb fst snd].
  destruct (closePending (w_peer w)) eqn:Hp.
  - set (w' := set_peer _ w). destruct (notify_step O w w') as (Hs&Hd&Hc); [done|done|done| |by intros _|].
    { constructor; try done. exact (iv_pending w Hi Hp). }
    split_and!; [done|done|done| |done]. split; [apply Hs|]. intros [| |c] Ht; [done|set_solver|done].
  - set (w' := set_peer _ w). assert (closed (w_peer w) = false) as Hc.
    { apply not_true_is_false. intros [?|[_ ?]]%iv_closed; [congruence|congruence|done]. }
    assert (forall c, due c w' <-> due c w) as Hdue by (intros [m|]; simpl; rewrite ?Hn; naive_solver).
    assert (Rel w w') as HR by (split; simpl; [done|congruence]).
    assert (forall t, t <> TOnce -> same t w w') as Hs by (by intros []).
    split_and!; [split_and!|unfold toks; simpl; set_solver|split; constructor|split; [done|intros t Ht; apply Hs; set_solver]|done].
    + pose proof Hi as [I1 I2 I3 I4 I5 I6 I7 I8 I9 I10 I11 I12 I13 I14 I15 I16].
      constructor; try done; simpl; try congruence; auto.
      * intros n Hlate. destruct (I14 n Hlate). congruence.
      * intros c Hcc. apply Hdue. auto.
    + constructor; [done|intros t Ht _; apply Hs; by intros ->| |].
      * intros t [?|Ht]%elem_of_union; [set_solver|]. split; [|by left]. pose proof (Hm t Ht) as Hf.
        destruct t; cbn [fresh] in *; [done|done|by rewrite Hdue].
      * intros [| |c]; cbn [fresh]; [done|done|by rewrite Hdue].
    + intros t Ht. destruct (decide (t ∈ O)) as [|Hto]; [left; set_solver|right]. split; [done|].
      destruct t as [| |[m|]]; cbn [live] in *; [done|done| |done]. by rewrite Hdue in Ht.
Qed.

(** The open callback is in its function, and its log says [b]. *)
Record in_open (b : bool) (w : World) : Prop := {
  in_running : openCallbackRunning (w_peer w) = true;
  in_log : running (w_log w) = b }.
Lemma in_open_rely b O w w' : TOnce ∈ O -> prely O w w' -> in_open b w -> in_open b w'.
Proof. intros HO [_ Hs] [H1 H2]. destruct (Hs _ HO) as (E1&E2&E3&E4). constructor; congruence. Qed.

(** What the responder leaves: its Once still running, the open callback not. *)
Record ready_post (O : gset tok) (w w' : World) : Prop := {
  rp_rely : prely (O ∖ {[TOnce]}) w w';
  rp_once : openCallbackRunning (w_peer w') = false }.
Lemma ready_post_rely O w w' w'' : TOnce ∈ O -> ready_post O w w' -> prely O w' w'' -> ready_post O w w''.
Proof.
  intros HO [H1 H2] Hw. constructor; [etransitivity; [exact H1|]; eapply prely_sub; [|exact Hw]; set_solver|].
  destruct (proj2 Hw _ HO) as (_&_&_&->). done.
Qed.

Lemma open_body_spec f O w : TOnce ∈ O -> in_open false w -> opens (w_log w) = [] -> shaken (w_log w) ->
  pwp O (match f with Some f => _ ← log (OpenCalled f); log OpenReturned | None => mret tt end)
    (fun O' _ w' => O' = O /\ prely (O ∖ {[TOnce]}) w w' /\ in_open false w') w.
Proof.
  intros HO Hin Hop Hsh. destruct f as [f|].
  - apply owp_bind; [apply _..|]. apply pwp_modifies. intros w1 Hw Hi Hm. exists O.
    pose proof (in_open_rely _ _ _ _ HO Hw Hin) as [Hr1 Hl1]. destruct (proj2 Hw _ HO) as (_&E2&_&_).
    destruct (open_log_step (OpenCalled f) O w1 Hi Hm HO Hr1) as [Hs Hk].
    { right. split_and!; [done|congruence|]. eapply shaken_rel; [apply Hw|done]. }
    split; [done|]. intros w2 Hw2. apply pwp_modifies. intros w3 Hw3 Hi3 Hm3. exists O.
    assert (in_open true w3) as [Hr3 Hl3].
    { eapply in_open_rely; [exact HO|etransitivity; [exact Hw2|exact Hw3]|]. constructor; [done|].
      simpl. unfold running. by rewrite foldl_app. }
    destruct (open_log_step OpenReturned O w3 Hi3 Hm3 HO Hr3) as [Hs3 Hk3]; [by left|].
    split; [done|]. intros w4 Hw4. split; [done|]. split.
    + etransitivity; [eapply prely_sub; [|exact Hw]; set_solver|]. etransitivity; [exact Hk|].
      etransitivity; [eapply prely_sub; [|etransitivity; [exact Hw2|exact Hw3]]; set_solver|].
      etransitivity; [exact Hk3|]. eapply prely_sub; [|exact Hw4]. set_solver.
    + eapply in_open_rely; [exact HO|exact Hw4|]. constructor; [done|]. simpl. unfold running. by rewrite foldl_app.
  - apply owp_ret. intros w1 Hw. split; [done|]. split; [eapply prely_sub; [|exact Hw]; set_solver|by eapply in_open_rely].
Qed.

Lemma session_ready_spec O w : TOnce ∈ O -> in_once w -> shaken (w_log w) ->
  pwp O session_ready (fun O' _ w' => O' = O /\ ready_post O w w') w.
Proof.
  intros HO Hin Hsh. apply owp_bind; [apply _..|]. apply pwp_atomic. intros w1 Hw Hi Hm. exists O.
  pose proof (in_once_rely _ _ _ HO Hw Hin) as [Ho1 Hop1 Hl1 Hr1].
  destruct (closed (w_peer w1)) eqn:Hc.
  { unfold ready_locked. rewrite Hc. cbn [fst snd]. split; [by apply quiet_step, quiets_refl|]. intros w2 Hw2.
    apply owp_ret. intros w3 Hw3. split; [done|]. apply (ready_post_rely O w w1); [done| |by etransitivity].
    constructor; [eapply prely_sub; [|exact Hw]; set_solver|done]. }
  destruct (ready_step O w1 Hi Hm HO Ho1 Hc) as [Hs Hk]. unfold ready_locked in *. rewrite Hc in *. cbn [fst snd] in *.
  set (wr := set_peer _ w1) in *. split; [done|]. intros w2 Hw2.
  assert (in_open false w2) as Hin2 by (eapply in_open_rely; [exact HO|exact Hw2|by constructor]).
  apply owp_bind; [apply _..|]. eapply owp_mono; [|apply open_body_spec; [done|done| |]].
  2:{ destruct (proj2 Hw2 _ HO) as (_&E&_). rewrite E. exact Hop1. }
  2:{ eapply shaken_rel; [apply Hw2|]. simpl. eapply shaken_rel; [apply Hw|done]. }
  intros O' [] w3 (->&Hw3&Hin3). apply owp_bind; [apply _..|]. apply pwp_atomic. intros w4 Hw4 Hi4 Hm4.
  destruct (in_open_rely _ _ _ _ HO Hw4 Hin3) as [Hr4 Hl4].
  destruct (returned_step O w4 Hi4 Hm4 HO Hr4 Hl4) as (Hs4&Hd4&Hc4&Hk4&Hn4).
  exists (toks (open_returned w4).1 ∪ O). split; [done|]. intros w5 Hw5.
  eapply owp_mono; [|apply call_all_spec; [done|]].
  - intros O' [] w6 [-> Hw6]. split; [done|].
    assert (prely O (open_returned w4).2 w6) as Hlast by (etransitivity; [eapply prely_sub; [|exact Hw5]; set_solver|exact Hw6]).
    eapply ready_post_rely; [done| |exact Hlast]. constructor; [|done].
    etransitivity; [eapply prely_sub; [|exact Hw]; set_solver|]. etransitivity; [exact Hk|].
    etransitivity; [eapply prely_sub; [|exact Hw2]; set_solver|]. etransitivity; [exact Hw3|].
    etransitivity; [eapply prely_sub; [|exact Hw4]; set_solver|exact Hk4].
  - eapply to_call_rely; [|exact Hw5|done]. set_solver.
Qed.

Lemma still_handler lane h : still (endpoint_SetOnMessage lane h).
Proof. apply still_modifies. intros w. split; [done|]. exists []. by rewrite app_nil_r. Qed.
Lemma still_refuse m : still (refuse m).
Proof. apply still_bind; [apply still_pion|intros _]. apply still_bind; [apply still_close|intros _]. apply still_ret. Qed.

(** A piece that keeps its tokens leaves the responder as it found it. *)
Lemma still_post {A} (p : handler A) O w : TOnce ∈ O -> in_once w -> still p ->
  pwp O p (fun O' _ w' => O' = O /\ ready_post O w w') w.
Proof.
  intros HO Hin Hp. eapply owp_mono; [|apply Hp]. intros O' a w' [-> Hw]. split; [done|].
  constructor; [eapply prely_sub; [|exact Hw]; set_solver|by apply (in_once_rely _ _ _ HO Hw Hin)].
Qed.

(** The library accepts a text. *)
Lemma pion_spec c O w : pwp O (pion c) (fun O' err w' => O' = O /\ prely O w w' /\ Pion c err ∈ w_log w') w.
Proof.
  apply pwp_choices. intros w1 Hw Hi Hm r w2 (r'&[= -> ->]&_)%list_elem_of_fmap. exists O.
  split; [by apply quiet_step, quiets_log|]. intros w3 H3. split; [done|].
  assert (prely O w1 (add_log (Pion c r') w1)) as Hk by (by apply (inert_rely (Pion c r'))).
  split; [etransitivity; [exact Hw|]; by etransitivity|]. eapply log_keeps; [apply H3|]. simpl. apply in_snoc. by right.
Qed.

Lemma first_message_spec data O w : TOnce ∈ O -> in_once w -> (forall lane, Lane_Valid lane = true -> Opened lane ∈ w_log w) ->
  pwp O (first_message data) (fun O' _ w' => O' = O /\ ready_post O w w') w.
Proof.
  intros HO Hin Hop. unfold first_message. destruct (decode_hello data) as [hello|]; [|by apply still_post, still_refuse].
  destruct (negb _); [by apply still_post, still_refuse|]. destruct (negb _); [by apply still_post, still_refuse|].
  apply owp_bind; [apply _..|]. eapply owp_mono; [|apply pion_spec]. intros O' err w1 (->&Hw&Hlog).
  pose proof (in_once_rely _ _ _ HO Hw Hin) as Hin1.
  assert (forall w2, ready_post O w1 w2 -> ready_post O w w2) as Hback.
  { intros w2 [H1 H2]. constructor; [|done]. etransitivity; [eapply prely_sub; [|exact Hw]; set_solver|exact H1]. }
  destruct err as [e|].
  { eapply owp_mono; [|apply still_post; [done|done|]]; [intros O' a w2 [-> Hp]; auto|].
    apply still_bind; [apply still_close|intros _; apply still_ret]. }
  apply pwp_still; [apply still_handler|]. intros [] w2 Hw2. eapply owp_mono; [|apply session_ready_spec; [done|by eapply in_once_rely|]].
  - intros O' [] w3 [-> [Hw3 Hr3]]. split; [done|]. apply Hback. constructor; [|done].
    etransitivity; [eapply prely_sub; [|exact Hw2]; set_solver|exact Hw3].
  - eapply shaken_rel; [apply Hw2|]. split; [intros lane Hl; eapply log_keeps; [apply Hw|auto]|done].
Qed.

Lemma enter_step O w : Inv w -> pmade O w -> w_onces w !! 0 = Some OnceFresh ->
  let w' := set_onces (<[0 := OnceRunning]> (w_onces w)) w in
  step_ok O ({[TOnce]} ∪ O) w w' /\ prely O w w' /\ (TOnce ∉ O) /\ in_once w'
  /\ (forall lane, Lane_Valid lane = true -> Opened lane ∈ w_log w').
Proof.
  intros Hi Hm Hf w'. assert (TOnce ∉ O) as HO by (intros Ht; apply (Hm _ Ht); by right).
  pose proof (lookup_lt_Some _ _ _ Hf) as Hlen.
  assert (forall t, t <> TOnce -> same t w w') as Hs by (intros []; simpl; rewrite ?length_insert; done).
  assert (<[0 := OnceRunning]> (w_onces w) !! 0 = Some OnceRunning) as Hrun by (by rewrite list_lookup_insert_eq).
  split_and!.
  - apply (once_step O _ w w' (<[0 := OnceRunning]> (w_onces w))); try done; simpl.
    + by left.
    + rewrite length_insert. by apply iv_onces.
    + intros Ha. by rewrite (iv_armed w Hi Ha).
    + intros [He|He]; rewrite Hrun in He; done.
    + intros t Ht Hnf. apply Hs. intros ->. apply Hnf. by right.
    + intros t [->%elem_of_singleton|Ht]%elem_of_union.
      * split; [|right; by right]. intros [He|He]; simpl in He; rewrite Hrun in He; done.
      * split; [|by left]. pose proof (Hm t Ht) as Hft. by destruct t.
    + intros c. set_solver.
  - split; [done|]. intros t Ht. apply Hs. by intros ->.
  - done.
  - constructor; [done|apply (iv_unopened w Hi); by right| |].
    + apply not_true_is_false. intros Hr%(iv_open w Hi)%(iv_running w Hi). congruence.
    + apply not_true_is_false. intros Hr%(iv_running w Hi). congruence.
  - apply (iv_lanes w Hi). apply not_false_is_true. intros Ha%(iv_armed w Hi). by rewrite Ha in Hf.
Qed.

Lemma leave_step O w : Inv w -> pmade ({[TOnce]} ∪ O) w -> (TOnce ∉ O) -> openCallbackRunning (w_peer w) = false ->
  let w' := set_onces (<[0 := OnceDone]> (w_onces w)) w in
  step_ok ({[TOnce]} ∪ O) O w w' /\ prely O w w'.
Proof.
  intros Hi Hm HO Hr w'.
  assert (forall t, t <> TOnce -> same t w w') as Hs by (intros []; simpl; rewrite ?length_insert; done).
  split.
  - apply (once_step _ _ w w' (<[0 := OnceDone]> (w_onces w))); try done; simpl.
    + by left.
    + rewrite length_insert. by apply iv_onces.
    + intros Ha. by rewrite (iv_armed w Hi Ha).
    + congruence.
    + destruct (w_onces w) as [|o l] eqn:Hl; simpl; [intros _; left; by rewrite Hl|]. intros [?|?]; done.
    + intros t Ht _. apply Hs. intros ->. set_solver.
    + intros t Ht. split; [|left; set_solver]. assert (t ∈ {[TOnce]} ∪ O) as Ht' by set_solver.
      pose proof (Hm t Ht') as Hft. destruct t; [done| |done]. done.
    + congruence.
    + intros c Hc. set_solver.
  - split; [done|]. intros t Ht. apply Hs. by intros ->.
Qed.

Lemma still_respond k data : still (respond k data).
Proof.
  intros O w. apply owp_bind; [apply _..|].
  eapply (owp_mono _ _ _ _ _ _ _ _ (fun O' (go : bool) w' => prely O w w' /\ if go then k = 0 /\ O' = {[TOnce]} ∪ O /\ (TOnce ∉ O) /\ in_once w'
    /\ (forall lane, Lane_Valid lane = true -> Opened lane ∈ w_log w') else O' = O)).
  2:{ apply pwp_choices. intros w1 Hw Hi Hm b w2 Hin. unfold once_enter in Hin. destruct (w_onces w1 !! k) as [[| |]|] eqn:Hk;
        [|by apply elem_of_nil in Hin| |by apply elem_of_nil in Hin]; apply list_elem_of_singleton in Hin as [= -> ->].
      - assert (k = 0) as -> by (apply lookup_lt_Some in Hk; pose proof (iv_onces w1 Hi); lia).
        destruct (enter_step O w1 Hi Hm Hk) as (Hs&Hk1&HO&Hin&Hop). exists ({[TOnce]} ∪ O). split; [done|]. intros w3 H3.
        split; [etransitivity; [exact Hw|]; etransitivity; [exact Hk1|eapply prely_sub; [|exact H3]; set_solver]|].
        split_and!; [done|done|done|eapply in_once_rely; [|exact H3|done]; set_solver|].
        intros lane Hl. eapply log_keeps; [apply H3|auto].
      - exists O. split; [by apply quiet_step, quiets_refl|]. intros w3 H3. split; [by etransitivity|done]. }
  intros O' [] w1 [Hw Hgo]; [|rewrite Hgo; apply owp_ret; intros w2 Hw2; split; [done|by etransitivity]].
  destruct Hgo as (->&->&HO&Hin&Hop). unfold with_defer. apply owp_bind; [apply _..|].
  eapply owp_mono; [|apply first_message_spec; [set_solver|done|done]]. intros O' [] w2 [-> Hp].
  apply owp_bind; [apply _..|]. apply pwp_modifies. intros w3 Hw3 Hi Hm. exists O.
  destruct (ready_post_rely ({[TOnce]} ∪ O) w1 w2 w3) as [Hp1 Hp2]; [set_solver|done|done|].
  destruct (leave_step O w3 Hi Hm HO Hp2) as [Hs Hk]. split; [done|]. intros w4 Hw4. apply owp_ret. intros w5 Hw5.
  split; [done|]. etransitivity; [exact Hw|]. etransitivity; [eapply prely_sub; [|exact Hp1]; set_solver|].
  etransitivity; [exact Hk|]. by etransitivity.
Qed.

Lemma still_deliver lane data : still (deliver lane data).
Proof.
  apply still_bind; [apply still_reads|]. intros [[f|k]|]; [|apply still_respond|apply still_ret].
  apply still_modifies. intros w. by apply quiets_log.
Qed.

Lemma install_step O w : Inv w -> pmade O w -> TArm ∈ O -> w_onces w = [] -> handshakeArmed (w_peer w) = true ->
  forall h, let w' := set_peer (set_handler LaneControl h (w_peer w)) (set_onces [OnceFresh] w) in
  step_ok O (O ∖ {[TArm]}) w w' /\ prely (O ∖ {[TArm]}) w w'.
Proof.
  intros Hi Hm HO Hn Ha h w'. assert (unopened w) as Hu by (left; by rewrite Hn).
  assert (forall c, same (TCall c) w w') as Hs by done.
  assert (TOnce ∉ O) as HnO by (intros Ht; by apply (Hm _ Ht)).
  split.
  - apply (once_step _ _ w w' [OnceFresh]); try done; simpl.
    + right. by exists h.
    + congruence.
    + intros Hr%(iv_running w Hi). by rewrite Hn in Hr.
    + intros [| |c] Ht Hf; [done|by destruct Hf|done].
    + intros t Ht. split; [|left; set_solver]. assert (t ∈ O) as Ht' by set_solver. pose proof (Hm t Ht') as Hf. by destruct t.
    + intros c Hc. set_solver.
  - split; [done|]. intros [| |c] Ht; [set_solver|set_solver|done].
Qed.

Lemma still_lane lane : still (laneOpened lane).
Proof.
  intros O w. apply owp_bind; [apply _..|]. apply pwp_atomic. intros w1 Hw Hi Hm.
  destruct (lane_step lane O w1 Hi Hm) as (Hs&Hk&Hd&Harm). destruct (lane_opened_locked lane w1) as [arm w2]. cbn [fst snd] in *.
  exists ((if arm then {[TArm]} else ∅) ∪ O). split; [done|]. intros w3 Hw3.
  assert (prely O w w3) as Hw' by (etransitivity; [exact Hw|]; etransitivity; [exact Hk|eapply prely_sub; [|exact Hw3]; set_solver]).
  destruct arm; [|rewrite union_empty_l_L; apply owp_ret; intros w4 Hw4; split; [done|by etransitivity]].
  destruct (Harm eq_refl) as [Hn Ha]. apply pwp_modifies. intros w4 Hw4 Hi4 Hm4. exists O.
  assert (prely ({[TArm]} ∪ O) w2 w4) as Hw24 by (by etransitivity).
  assert (w_onces w4 = []) as Hn4.
  { assert (same TArm w2 w4) as E by (apply Hw24; set_solver). simpl in E. rewrite Hn in E. by destruct (w_onces w4). }
  assert (handshakeArmed (w_peer w4) = true) as Ha4.
  { apply not_false_is_true. apply (Hm4 TArm). set_solver. }
  destruct (install_step ({[TArm]} ∪ O) w4 Hi4 Hm4 ltac:(set_solver) Hn4 Ha4 (Some (HandshakeResponder (length (w_onces w4))))) as [Hs4 Hk4].
  rewrite Hn4 in *. cbn [app length] in *.
  assert (({[TArm]} ∪ O) ∖ {[TArm]} = O) as Heq by (apply set_eq; intros t; specialize (Hd t); set_solver).
  rewrite Heq in *. split; [done|]. intros w5 Hw5. split; [done|]. etransitivity; [exact Hw'|].
  etransitivity; [eapply prely_sub; [|exact Hw4]; set_solver|]. by etransitivity.
Qed.

(** * The system *)

Lemma still_detach {A} (p : handler A) : still p -> still (detach p).
Proof. intros Hp. apply still_bind; [done|intros _; apply still_ret]. Qed.
Lemma still_channel lane p : still p -> still (on_channel lane p).
Proof.
  intros Hp. apply still_bind; [|by intros _]. apply still_choices. intros w b w' _.
  destruct (endpoints (w_peer w) !! lane); [|by intros ?%elem_of_nil]. intros [= _ ->]%list_elem_of_singleton. apply quiets_refl.
Qed.
Lemma quiets_core w w' : core w' = core w -> w_log w' = w_log w -> quiets w w'.
Proof. intros Hc Hl. split; [done|]. exists []. by rewrite app_nil_r. Qed.

Lemma still_channels lanes : still (create_channels lanes).
Proof.
  induction lanes as [|[lane label] lanes IH]; cbn [create_channels]; [apply still_ret|].
  apply still_bind; [apply still_pion|intros [e|]]; (apply still_bind; [|intros _]);
    [apply still_close|apply still_ret|apply still_modifies; intros w; by apply quiets_core|done].
Qed.
Lemma still_offer : still CreateOffer.
Proof.
  apply still_bind; [apply still_reads|intros n]. destruct (negb _); [apply still_ret|].
  apply still_bind; [apply still_channels|intros [e|]]; [apply still_ret|].
  apply still_bind; [|intros [sdp|e]; [|apply still_ret]].
  - apply still_choices. intros w b w' _ [Hin|Hin]%elem_of_app; apply list_elem_of_fmap in Hin as (x&[= -> ->]&_); by apply quiets_log.
  - apply still_bind; [apply still_pion|intros [e|]]; apply still_ret.
Qed.
Lemma still_class lane class data : still (endpoint_SendBinaryClass lane class data).
Proof.
  unfold endpoint_SendBinaryClass. destruct (LaneForClass class) as [l|e]; [case_bool_decide|]; try apply still_ret.
  apply still_bind; [apply still_pion|intros err; apply still_ret].
Qed.
Lemma still_message f : still (SetOnMessage f).
Proof. apply still_bind; [apply still_atomic; intros w; by apply quiets_core|intros [|]]; [apply still_handler|apply still_ret]. Qed.

Lemma still_candidate init : still (candidate_found init).
Proof.
  destruct init; [|apply still_ret]. apply still_bind; [apply still_reads|intros [f|]]; [|apply still_ret].
  apply still_modifies. intros w. by apply quiets_log.
Qed.
Lemma still_state s : still (state_changed s).
Proof. destruct s; [apply still_notify..|apply still_ret]. Qed.
Lemma still_closed lane : still (laneClosed lane).
Proof. apply still_bind; [apply still_notify|intros _]. apply still_bind; [apply still_pion|intros _; apply still_ret]. Qed.

Lemma accepts_still p w : accepts p w -> still p.
Proof.
  destruct 1;
    repeat match goal with
           | |- still (on_channel _ _) => apply still_channel
           | |- still (detach _) => apply still_detach
           | |- still (SetOnOpen _) => apply still_modifies; intros w1; by apply quiets_core
           | |- still (SetOnClose _) => apply still_modifies; intros w1; by apply quiets_core
           | |- still (SetOnICECandidate _) => apply still_modifies; intros w1; by apply quiets_core
           end; unfold SetAnswer, AddICECandidate, endpoint_SendText, endpoint_SendBinary;
    auto using still_offer, still_pion, still_close, still_message, still_add_close, still_class, still_handler, still_lane,
      still_deliver, still_candidate, still_state, still_closed.
Qed.

Lemma new_inv : Inv new_world.
Proof.
  constructor; try done.
  - simpl. lia.
  - intros n. by rewrite !elem_of_nil.
  - constructor.
  - by intros n [?%elem_of_nil|?%elem_of_nil].
  - by intros n ?%elem_of_nil.
  - by intros c ?%elem_of_nil.
  - by intros [|x past] e rest.
Qed.

Lemma reachable_ok c : reachable c -> owned_ok same fresh live Rel Inv (fun _ => True) c.
Proof.
  intros Hr. apply (owned_reach same fresh live Rel Inv (fun _ => True) accepts (fun _ _ => False)) with ([], new_world).
  - done.
  - intros p w _ Ha. eapply owp_mono; [|apply (accepts_still p w Ha)]. intros O [] w' [-> _]. by intros t ?%elem_of_empty.
  - split; [apply new_inv|]. exists []. split; [by constructor|]. by intros [| |[n|]]; simpl; [..|intros [[?%elem_of_nil|[?%elem_of_nil _]] _]|].
  - eapply rtc_subrel; [|exact Hr]. intros c1 c2 Hs. by split.
Qed.

Lemma calls_once k l : (forall past e rest, l = past ++ e :: rest -> good past e) -> length (calls k l) <= 1.
Proof.
  induction l as [|e l IH] using rev_ind; intros Hl; [simpl; lia|].
  assert (length (calls k l) <= 1) as Hlen.
  { apply IH. intros past x rest ->. apply (Hl past x (rest ++ [e])). by rewrite <- app_assoc. }
  destruct (is_call k e) eqn:He; [|by rewrite calls_snoc].
  destruct e as [| | | | | |c| |]; try done. simpl in He. apply bool_decide_eq_true in He.
  destruct (Hl l (CloseCalled c) []) as [_ Hgood]; [done|]. destruct (Hgood c eq_refl) as [_ Hnone]. rewrite He in Hnone.
  rewrite calls_split, Hnone. simpl. unfold calls. rewrite filter_cons. case_decide; simpl; lia.
Qed.

(** * Properties *)

(** C17 (safety). Callbacks in order: whatever the library's callbacks and the
    application's calls interleave, the open callback runs at most once, only
    after all three lanes have opened and the handshake reply was accepted, and
    before any close callback; a close callback, the owner's or a listener's,
    is called at most once, and never while the open callback runs. *)
Theorem peer_callbacks_in_order ps w past e rest : reachable (ps, w) -> w_log w = past ++ e :: rest ->
  (forall f, e = OpenCalled f -> opens past = [] /\ (forall c, CloseCalled c ∉ past)
     /\ (forall lane, Lane_Valid lane = true -> Opened lane ∈ past) /\ Pion (DcSendText LaneControl ready_obj) None ∈ past)
  /\ (forall c, e = CloseCalled c -> running past = false /\ calls (key c) past = []).
Proof.
  intros [Hi _]%reachable_ok Hl. destruct (iv_log w Hi past e rest Hl) as [Ho Hc]. split; [|done].
  intros f ->. destruct (Ho eq_refl) as (?&?&?&?). done.
Qed.

(** C18 (liveness). Closing reaches every listener: when the connection is
    closed and every goroutine has finished, each close listener ever
    registered, before the closing, during the open callback or after it, has
    been called exactly once, and the open callback is over. *)
Theorem peer_close_reaches_all ps w : reachable (ps, w) -> closed (w_peer w) = true -> Forall (fun p => p = Done tt) ps ->
  openCallbackRunning (w_peer w) = false
  /\ forall n, Registered n ∈ w_log w \/ Late n ∈ w_log w -> length (calls (Some n) (w_log w)) = 1.
Proof.
  intros Hok%reachable_ok Hc Hdone. destruct Hok as [Hi Hown] eqn:Hq. clear Hq.
  assert (forall t, ~ live t w) as Hlive by (by apply (owned_quiet same fresh live Rel Inv (fun _ => True) (ps, w))).
  simpl in Hi. assert (openCallbackRunning (w_peer w) = false) as Hr by (apply not_true_is_false, (Hlive TOnce)).
  split; [done|]. intros n Hn. assert (closeNotified (w_peer w) = true) as Hno.
  { destruct (iv_closed w Hi Hc) as [?|[? _]]; congruence. }
  pose proof (calls_once (Some n) (w_log w) (iv_log w Hi)) as Hle.
  destruct (calls (Some n) (w_log w)) as [|e l] eqn:He; [|simpl in *; lia].
  destruct (Hlive (TCall (Some n))). split; [destruct Hn; [right|left]; done|done].
Qed.
End safe.

(** * A session: the connection is closed while the open callback runs *)

Definition calls_only (l : list effect) : list effect :=
  filter (fun e => match e with OpenCalled _ | OpenReturned | CloseCalled _ | Registered _ | Late _ => true | _ => false end = true) l.
Definition finished (p : proc World unit) : bool := match p with Done _ => true | _ => false end.
Lemma finished_all ps : forallb finished ps = true -> Forall (fun p => p = Done tt) ps.
Proof.
  induction ps as [|p ps IH]; simpl; [constructor|]. intros [Hp Hps]%andb_true_iff. constructor; [|by apply IH].
  destruct p as [[]| | |]; done.
Qed.

Module demo.
#[export] Instance webrtc : WebRTC := {| pion_errors := fun _ => []; pion_offers := ["v=0"%string] |}.
Definition hello : option json := Some (JObj [("type", JStr "transport_hello"); ("version", JNum 2)]%string).
Definition runs (i n : nat) : list (move World) := replicate n (Run i 0).

Definition session : list (move World) :=
  [Accept (detach CreateOffer)] ++ runs 0 9
  ++ [Accept (SetOnOpen (Some 1%Z)); Run 1 0; Accept (SetOnClose (Some 2%Z)); Run 2 0; Accept (AddOnClose (Some 3%Z)); Run 3 0]
  ++ [Accept (on_channel LaneControl (laneOpened LaneControl))] ++ runs 4 2
  ++ [Accept (on_channel LaneMedia (laneOpened LaneMedia))] ++ runs 5 2
  ++ [Accept (on_channel LaneBulk (laneOpened LaneBulk))] ++ runs 6 3
  ++ [Accept (on_channel LaneControl (deliver LaneControl hello))] ++ runs 7 7
  ++ [Accept (detach Close)] ++ runs 8 2
  ++ [Accept (AddOnClose (Some 4%Z)); Run 9 0]
  ++ runs 7 6
  ++ [Accept (AddOnClose (Some 5%Z))] ++ runs 10 2.

Definition facts (c : list (proc World unit) * World) :=
  (calls_only (w_log c.2), closed (w_peer c.2), forallb finished c.1).
Definition outcome : list effect :=
  [Registered 0; OpenCalled 1; Registered 1; OpenReturned; CloseCalled (OnClosed 2); CloseCalled (Listener 0 3);
   CloseCalled (Listener 1 4); Late 2; CloseCalled (Listener 2 5)].

Lemma session_run : exists c, run_moves session ([], new_world) = Some c /\ facts c = (outcome, true, true).
Proof.
  assert (facts <$> run_moves session ([], new_world) = Some (outcome, true, true)) as Hf by (vm_compute; reflexivity).
  destruct (run_moves session ([], new_world)) as [c|]; [|done]. exists c. split; [done|]. by apply (inj Some) in Hf.
Qed.
Lemma session_reachable c : run_moves session ([], new_world) = Some c -> reachable c.
Proof.
  apply run_moves_reach. repeat (apply Forall_cons; split; [first [exact I|intros w; constructor]|]). by apply Forall_nil.
Qed.
End demo.
#[local] Existing Instance demo.webrtc.

(** The open callback runs, and the connection is closed meanwhile: the owner
    and both listeners are called after it, and one added later at once. *)
Lemma peer_callbacks_in_order_witness : exists c past rest, reachable c /\ w_log c.2 = past ++ OpenCalled 1 :: rest /\ opens past = [] /\
  (forall x, CloseCalled x ∉ past).
Proof.
  destruct demo.session_run as (c&Hrun&Hf). pose proof (demo.session_reachable c Hrun) as Hr.
  assert (OpenCalled 1 ∈ w_log c.2) as Hin.
  { assert (OpenCalled 1 ∈ calls_only (w_log c.2)) as Hin by (rewrite (f_equal (fun x => x.1.1) Hf : calls_only _ = _); right; left).
    by apply list_elem_of_filter in Hin as [_ ?]. }
  apply list_elem_of_split in Hin as (past&rest&Hl). exists c, past, rest. destruct c as [ps w].
  destruct (peer_callbacks_in_order ps w past _ rest Hr Hl) as [Ho _]. destruct (Ho 1%Z eq_refl) as (H1&H2&_).
  split_and!; assumption.
Defined.

Lemma peer_close_reaches_all_witness : exists c, reachable c /\ closed (w_peer c.2) = true /\
  length (calls (Some 0) (w_log c.2)) = 1 /\ length (calls (Some 1) (w_log c.2)) = 1 /\ length (calls (Some 2) (w_log c.2)) = 1.
Proof.
  destruct demo.session_run as (c&Hrun&Hf). pose proof (demo.session_reachable c Hrun) as Hr. destruct c as [ps w].
  injection Hf as Hl Hc Hd. apply finished_all in Hd. destruct (peer_close_reaches_all ps w Hr Hc Hd) as [_ Hn].
  assert (forall e, e ∈ demo.outcome -> e ∈ w_log w) as Hin.
  { intros e He. rewrite <- Hl in He. by apply list_elem_of_filter in He as [_ ?]. }
  exists (ps, w). split; [exact Hr|]. split; [exact Hc|].
  split; [apply Hn; left; apply Hin, (list_elem_of_lookup_2 demo.outcome 0 (Registered 0)); reflexivity|].
  split; apply Hn; [left; apply Hin, (list_elem_of_lookup_2 demo.outcome 2 (Registered 1)); reflexivity|right; apply Hin, (list_elem_of_lookup_2 demo.outcome 7 (Late 2)); reflexivity].
Defined.
