(* ===== verification/TimeText.v ===== *)
(** Times as text, the part of Go's time package that encoding/json uses for a
    [time.Time] (RFC 3339 with nanoseconds): the civil date of a day and back,
    writing an instant in a zone, and reading it again. *)

From Stdlib Require Import Ascii.
From S2P Require Import Prelude Json.
#[local] Open Scope Z_scope.

(** * Days and civil dates (proleptic Gregorian) *)

(** Years begin in March here: the day of the era, the year of the era, the day
    of the year and the month from it. *)
Definition era_days : Z := 146097.
Definition year_of_era (doe : Z) : Z := (doe - doe / 1460 + doe / 36524 - doe / 146096) / 365.
Definition year_start (yoe : Z) : Z := 365 * yoe + yoe / 4 - yoe / 100.
Definition month_start (mp : Z) : Z := (153 * mp + 2) / 5.

(** The date of a day counted from January 1, 1970. *)
Definition civil_of_days (n : Z) : Z * Z * Z :=
  let z := n + 719468 in
  let era := z / era_days in
  let doe := z mod era_days in
  let yoe := year_of_era doe in
  let doy := doe - year_start yoe in
  let mp := (5 * doy + 2) / 153 in
  let m := if mp <? 10 then mp + 3 else mp - 9 in
  (yoe + 400 * era + (if m <=? 2 then 1 else 0), m, doy - month_start mp + 1).

Definition days_of_civil (y m d : Z) : Z :=
  let y := if m <=? 2 then y - 1 else y in
  let mp := if m <=? 2 then m + 9 else m - 3 in
  (y / 400) * era_days + year_start (y mod 400) + month_start mp + d - 1 - 719468.

Lemma year_of_era_range doe : 0 <= doe < era_days ->
  0 <= year_of_era doe < 400 /\ 0 <= doe - year_start (year_of_era doe) < 366.
Proof. unfold year_of_era, year_start, era_days. intros Hd. Z.to_euclidean_division_equations. lia. Qed.

Lemma civil_fields n y m d : civil_of_days n = (y, m, d) -> 1 <= m <= 12 /\ 1 <= d <= 31.
Proof.
  unfold civil_of_days. set (doe := (n + 719468) mod era_days).
  assert (0 <= doe < era_days) as Hdoe by (apply Z.mod_pos_bound; done).
  destruct (year_of_era_range doe Hdoe) as [_ Hdoy]. set (doy := doe - _) in *. clearbody doy. cbv zeta.
  intros [= _ <- <-]. unfold month_start. split.
  - destruct (Z.ltb_spec ((5 * doy + 2) / 153) 10); Z.to_euclidean_division_equations; lia.
  - Z.to_euclidean_division_equations; lia.
Qed.

Lemma days_of_civil_of_days n y m d : civil_of_days n = (y, m, d) -> days_of_civil y m d = n.
Proof.
  unfold civil_of_days. set (z := n + 719468). set (era := z / era_days). set (doe := z mod era_days).
  assert (0 <= doe < era_days) as Hdoe by (apply Z.mod_pos_bound; done).
  destruct (year_of_era_range doe Hdoe) as [Hyoe Hdoy]. set (yoe := year_of_era doe) in *. set (doy := doe - _) in *.
  assert (z = era_days * era + doe) as Hz by (by apply Z.div_mod). cbv zeta.
  set (mp := (5 * doy + 2) / 153). assert (0 <= mp <= 11) as Hmp by (unfold mp; Z.to_euclidean_division_equations; lia).
  intros [= <- <- <-]. unfold days_of_civil.
  assert (forall a, (yoe + 400 * era + (if a : bool then 1 else 0)) - (if a then 1 else 0) = yoe + 400 * era) as Hy by (intros []; lia).
  destruct (Z.ltb_spec mp 10); [rewrite (proj2 (Z.leb_gt (mp + 3) 2)) by lia|rewrite (proj2 (Z.leb_le (mp - 9) 2)) by lia].
  - assert ((yoe + 400 * era + 0) / 400 = era) as -> by (symmetry; apply (Z.div_unique _ _ _ yoe); lia).
    assert ((yoe + 400 * era + 0) mod 400 = yoe) as -> by (symmetry; apply (Z.mod_unique _ _ era); lia).
    assert (mp + 3 - 3 = mp) as -> by lia. fold doy. unfold doy. unfold z in Hz. lia.
  - assert ((yoe + 400 * era + 1 - 1) / 400 = era) as -> by (symmetry; apply (Z.div_unique _ _ _ yoe); lia).
    assert ((yoe + 400 * era + 1 - 1) mod 400 = yoe) as -> by (symmetry; apply (Z.mod_unique _ _ era); lia).
    assert (mp - 9 + 9 = mp) as -> by lia. unfold doy. unfold z in Hz. lia.
Qed.

(** * Digits *)

Definition digit (d : Z) : ascii := ascii_of_nat (Z.to_nat (48 + d)).
Definition digit_of (c : ascii) : option Z :=
  let d := Z.of_nat (nat_of_ascii c) - 48 in if (0 <=? d) && (d <=? 9) then Some d else None.

Lemma digit_of_digit d : 0 <= d <= 9 -> digit_of (digit d) = Some d.
Proof.
  intros Hd. unfold digit_of, digit. rewrite nat_ascii_embedding by lia.
  rewrite (proj2 (Z.leb_le 0 _)), (proj2 (Z.leb_le _ 9)) by lia. simpl. f_equal. lia.
Qed.

(** [n] in [w] digits, before [s]. *)
Fixpoint digits (w : nat) (n : Z) (s : string) : string :=
  match w with O => s | S w' => digits w' (n / 10) (String (digit (n mod 10)) s) end.
Fixpoint take_digits (w : nat) (s : string) : option (Z * string) :=
  match w with
  | O => Some (0, s)
  | S w' =>
      '(n, s) ← take_digits w' s;
      match s with String c s' => d ← digit_of c; Some (10 * n + d, s') | EmptyString => None end
  end.

Lemma take_digits_spec w n s : 0 <= n < 10 ^ Z.of_nat w -> take_digits w (digits w n s) = Some (n, s).
Proof.
  revert n s. induction w as [|w IH]; intros n s Hn; cbn [digits take_digits]; [f_equal; f_equal; simpl in Hn; lia|].
  pose proof (Z.mod_pos_bound n 10 ltac:(lia)). rewrite IH.
  - simpl. rewrite digit_of_digit by lia. simpl. do 2 f_equal. pose proof (Z.div_mod n 10 ltac:(lia)). lia.
  - rewrite Nat2Z.inj_succ, Z.pow_succ_r in Hn by lia.
    split; [apply Z.div_pos; lia|apply Z.div_lt_upper_bound; lia].
Qed.

(** The digits of a fraction of [k] places, without trailing zeros. *)
Fixpoint frac (k : nat) (f : Z) (s : string) : string :=
  match k with
  | O => s
  | S k' => if f =? 0 then s else String (digit (f / 10 ^ Z.of_nat k')) (frac k' (f mod 10 ^ Z.of_nat k') s)
  end.
(** Reading one: digits beyond the places are dropped. *)
Fixpoint drop_digits (s : string) : string :=
  match s with String c s' => if digit_of c is Some _ then drop_digits s' else s | EmptyString => s end.
Fixpoint take_frac (k : nat) (s : string) : Z * string :=
  match k with
  | O => (0, drop_digits s)
  | S k' =>
      match s with
      | String c s' =>
          match digit_of c with
          | Some d => let '(f, r) := take_frac k' s' in (d * 10 ^ Z.of_nat k' + f, r)
          | None => (0, s)
          end
      | EmptyString => (0, s)
      end
  end.

Definition no_digit (s : string) : Prop := match s with String c _ => digit_of c = None | EmptyString => True end.

Lemma take_frac_end k s : no_digit s -> take_frac k s = (0, s).
Proof. destruct k, s as [|c s]; simpl; try done; by intros ->. Qed.

Lemma take_frac_spec k f s : no_digit s -> 0 <= f < 10 ^ Z.of_nat k -> take_frac k (frac k f s) = (f, s).
Proof.
  intros Hs. revert f. induction k as [|k IH]; intros f Hf; cbn [frac].
  - rewrite take_frac_end by done. f_equal. simpl in Hf. lia.
  - destruct (Z.eqb_spec f 0) as [->|Hne]; [by apply take_frac_end|]. cbn [take_frac].
    rewrite Nat2Z.inj_succ, Z.pow_succ_r in Hf by lia. pose proof (Z.pow_pos_nonneg 10 (Z.of_nat k) ltac:(lia) ltac:(lia)).
    pose proof (Z.mod_pos_bound f (10 ^ Z.of_nat k) ltac:(lia)). pose proof (Z.div_mod f (10 ^ Z.of_nat k) ltac:(lia)).
    rewrite digit_of_digit by (split; [apply Z.div_pos; lia|apply Z.lt_succ_r, Z.div_lt_upper_bound; lia]).
    rewrite IH by done. f_equal. lia.
Qed.

(** * Instants *)

Definition expect (c : ascii) (s : string) : option string :=
  match s with String c' s' => if bool_decide (c' = c) then Some s' else None | EmptyString => None end.

Lemma expect_same c s : expect c (String c s) = Some s.
Proof. simpl. by rewrite bool_decide_true. Qed.

(** The zone's offset, in minutes east of Greenwich. *)
Definition zone_text (off : Z) : string :=
  if off =? 0 then "Z"
  else String (if (off <? 0)%Z then "-" else "+")%char
         (digits 2 (Z.abs off / 60) (String ":" (digits 2 (Z.abs off mod 60) ""))).
Definition parse_zone (s : string) : option Z :=
  if bool_decide (s = "Z"%string) then Some 0
  else match s with
  | String c s =>
      sign ← (if bool_decide (c = "+"%char) then Some 1 else if bool_decide (c = "-"%char) then Some (-1) else None);
      '(h, s) ← take_digits 2 s; s ← expect ":" s; '(m, s) ← take_digits 2 s;
      if bool_decide (s = ""%string) && (h <? 24) && (m <? 60) then Some (sign * (60 * h + m)) else None
  | EmptyString => None
  end.

Definition Minute : Z := 60 * Second.
Definition Day : Z := 86400 * Second.

(** [t.MarshalJSON()] of an instant in a zone: an error for years RFC 3339 does
    not have and zones a day away. *)
Definition time_text (off : Z) (t : Z) : option string :=
  let local := t + off * Minute in
  let '(y, m, d) := civil_of_days (local / Day) in
  let rest := local mod Day in
  let secs := rest / Second in
  let nanos := rest mod Second in
  if (0 <=? y) && (y <? 10000) && (Z.abs off <? 24 * 60) then
    Some (digits 4 y (String "-" (digits 2 m (String "-" (digits 2 d (String "T"
            (digits 2 (secs / 3600) (String ":" (digits 2 (secs / 60 mod 60) (String ":"
               (digits 2 (secs mod 60)
                  (if nanos =? 0 then zone_text off else String "." (frac 9 nanos (zone_text off))))))))))))))
  else None.

Definition take_nanos (s : string) : option (Z * string) :=
  match s with
  | String c (String c' s') =>
      if bool_decide (c = "."%char) then _ ← digit_of c'; Some (take_frac 9 (String c' s')) else Some (0, s)
  | _ => Some (0, s)
  end.

(** [t.UnmarshalJSON]. *)
Definition parse_time (s : string) : option Z :=
  '(y, s) ← take_digits 4 s; s ← expect "-" s;
  '(m, s) ← take_digits 2 s; s ← expect "-" s;
  '(d, s) ← take_digits 2 s; s ← expect "T" s;
  '(hh, s) ← take_digits 2 s; s ← expect ":" s;
  '(mm, s) ← take_digits 2 s; s ← expect ":" s;
  '(ss, s) ← take_digits 2 s;
  '(nanos, s) ← take_nanos s;
  off ← parse_zone s;
  if bool_decide (civil_of_days (days_of_civil y m d) = (y, m, d)) && (hh <? 24) && (mm <? 60) && (ss <? 60)
  then Some (days_of_civil y m d * Day + (3600 * hh + 60 * mm + ss) * Second + nanos - off * Minute)
  else None.

Lemma zone_text_no_digit off : no_digit (zone_text off).
Proof. unfold zone_text. destruct (off =? 0); [done|]. by destruct (off <? 0). Qed.

Lemma parse_zone_text off : Z.abs off < 24 * 60 -> parse_zone (zone_text off) = Some off.
Proof.
  intros Ho. unfold zone_text. destruct (Z.eqb_spec off 0) as [->|Hne]; [done|].
  assert (0 <= Z.abs off / 60 < 24) as Hh by (split; [apply Z.div_pos; lia|apply Z.div_lt_upper_bound; lia]).
  pose proof (Z.mod_pos_bound (Z.abs off) 60 ltac:(lia)) as Hm. pose proof (Z.div_mod (Z.abs off) 60 ltac:(lia)) as Hd.
  set (body := digits 2 _ _). assert (parse_zone (String (if (off <? 0)%Z then "-" else "+")%char body) = Some off) as <-; [|done].
  transitivity (sign ← (if off <? 0 then Some (-1) else Some 1);
    '(h, s) ← take_digits 2 body; s ← expect ":" s; '(m, s) ← take_digits 2 s;
    if bool_decide (s = ""%string) && (h <? 24) && (m <? 60) then Some (sign * (60 * h + m)) else None).
  { by destruct (off <? 0). }
  unfold body. rewrite take_digits_spec by (simpl; lia). 
  destruct (Z.ltb_spec off 0); cbn [mbind option_bind]; rewrite expect_same; cbn [mbind option_bind];
    rewrite take_digits_spec by (simpl; lia); cbn [mbind option_bind]; rewrite bool_decide_true by done;
    rewrite (proj2 (Z.ltb_lt (Z.abs off / 60) 24)), (proj2 (Z.ltb_lt (Z.abs off mod 60) 60)) by lia; cbn [andb]; f_equal; lia.
Qed.

Lemma take_nanos_spec nanos off : 0 <= nanos < Second ->
  take_nanos (if nanos =? 0 then zone_text off else String "." (frac 9 nanos (zone_text off))) = Some (nanos, zone_text off).
Proof.
  intros Hn. destruct (Z.eqb_spec nanos 0) as [->|Hne].
  - unfold zone_text. destruct (off =? 0); [done|]. cbn [digits take_nanos]. by destruct (off <? 0)%Z.
  - pose proof (take_frac_spec 9 nanos (zone_text off) (zone_text_no_digit off) Hn) as Hf. rewrite <- Hf.
    cbn [frac]. rewrite (proj2 (Z.eqb_neq _ 0)) by done. unfold take_nanos. rewrite bool_decide_true by done.
    rewrite digit_of_digit; [done|]. split; [apply Z.div_pos; simpl; lia|].
    apply Z.lt_succ_r, Z.div_lt_upper_bound; simpl; unfold Second in Hn; lia.
Qed.

(** An instant survives being written and read again. *)
Lemma parse_time_text off t s : time_text off t = Some s -> parse_time s = Some t.
Proof.
  unfold time_text. set (local := t + off * Minute). destruct (civil_of_days (local / Day)) as [[y m] d] eqn:Hc.
  set (rest := local mod Day). set (secs := rest / Second). set (nanos := rest mod Second).
  destruct (_ && _ && _) eqn:Hok; [|done]. apply andb_prop in Hok as [[Hy1 Hy2]%andb_prop Ho].
  apply Z.leb_le in Hy1. apply Z.ltb_lt in Hy2, Ho. intros <-%(inj Some).
  pose proof (civil_fields _ _ _ _ Hc) as [Hm Hd]. pose proof (days_of_civil_of_days _ _ _ _ Hc) as Hdays.
  assert (0 <= rest < Day) as Hrest by (apply Z.mod_pos_bound; done).
  assert (0 <= nanos < Second) as Hn by (apply Z.mod_pos_bound; done).
  assert (0 <= secs < 86400) as Hs
    by (unfold secs; split; [apply Z.div_pos; unfold Second; lia|apply Z.div_lt_upper_bound; unfold Day, Second in *; lia]).
  assert (rest = Second * secs + nanos) as Hr by (by apply Z.div_mod).
  assert (local = Day * (local / Day) + rest) as Hl by (by apply Z.div_mod).
  assert (0 <= secs / 3600 < 24) as Hh by (split; [apply Z.div_pos; lia|apply Z.div_lt_upper_bound; lia]).
  pose proof (Z.mod_pos_bound (secs / 60) 60 ltac:(lia)) as Hmi. pose proof (Z.mod_pos_bound secs 60 ltac:(lia)) as Hse.
  assert (secs = 3600 * (secs / 3600) + 60 * (secs / 60 mod 60) + secs mod 60) as Hsum
    by (clear; Z.to_euclidean_division_equations; lia).
  unfold parse_time.
  repeat first [rewrite take_digits_spec by (simpl; lia) | rewrite expect_same | progress cbn [mbind option_bind]].
  rewrite take_nanos_spec by done.
  cbn [mbind option_bind]. rewrite parse_zone_text by lia. cbn [mbind option_bind].
  rewrite Hdays, Hc, bool_decide_true by done. rewrite (proj2 (Z.ltb_lt (secs / 3600) 24)), (proj2 (Z.ltb_lt (secs / 60 mod 60) 60)),
    (proj2 (Z.ltb_lt (secs mod 60) 60)) by lia. cbn [andb]. f_equal. unfold local in *. unfold Minute in *. lia.
Qed.
