(* ===== verification/Files.v ===== *)
(** Files that hold JSON, and programs that replace them: each file operation
    is one action, which may fail, and the process may stop between any two. *)

From S2P Require Import Prelude Conc Json.
#[local] Open Scope Z_scope.

(** A file's text, read as JSON; [None] when it is not JSON. *)
Abbreviation files := (gmap string (option json)).

Section files.
Context {W : Type}.

Section operations.
Context (get_files : W -> files) (set_files : files -> W -> W).

(** [os.WriteFile]: a failure may leave anything; [os.Rename] is atomic. *)
Definition put_file (path : string) (j : json) : proc W bool :=
  choices (fun w => [(true, set_files (<[path := Some j]> (get_files w)) w); (false, w);
                     (false, set_files (<[path := None]> (get_files w)) w)]).
Definition move_file (old new : string) : proc W bool :=
  choices (fun w => match get_files w !! old with
                    | Some c => [(true, set_files (<[new := c]> (delete old (get_files w))) w); (false, w)]
                    | None => [(false, w)]
                    end).
Definition drop_file (path : string) : proc W unit :=
  choices (fun w => [(tt, set_files (delete path (get_files w)) w); (tt, w)]).
End operations.

(** * A crash at any moment *)

(** Every state an operation passes through satisfies [I], it returns, and its
    result and last state satisfy [Q]. *)
Fixpoint throughout {A} (I : W -> Prop) (p : proc W A) (Q : A -> W -> Prop) (w : W) : Prop :=
  match p with
  | Done a => Q a w
  | Act f k => f w <> [] /\ forall b w', (b, w') ∈ f w -> I w' /\ throughout I (k b) Q w'
  | Spawn _ _ | Iter _ _ _ => False
  end.

(** The states an operation can be in. *)
Definition reaches {A} (p : proc W A) (w : W) (p' : proc W A) (w' : W) : Prop :=
  rtc (fun c c' => pstep c.1 c.2 c'.1 c'.2 []) (p, w) (p', w').

Lemma throughout_reaches {A} I (p p' : proc W A) Q w w' :
  I w -> throughout I p Q w -> reaches p w p' w' -> I w' /\ forall a, p' = Done a -> Q a w'.
Proof.
  intros HI Hp Hr. unfold reaches in Hr. remember (p, w) as c eqn:Hc. remember (p', w') as c' eqn:Hc'.
  revert p w Hc HI Hp. induction Hr as [c|c c1 c2 Hs Hr IH]; intros p w -> HI Hp.
  - injection Hc' as -> ->. split; [done|]. by intros a ->.
  - destruct c1 as [p1 w1]. simpl in Hs. destruct p as [a|B f k|q k|S B s body k]; cbn [pstep throughout] in *; [done| |done..].
    destruct Hs as (b&Hin&->&_). destruct Hp as [_ Hp]. destruct (Hp b w1 Hin). by eapply IH.
Qed.

Lemma throughout_weaken {A} (I I' : W -> Prop) (p : proc W A) (Q Q' : A -> W -> Prop) w :
  (forall w', I w' -> I' w') -> (forall a w', Q a w' -> Q' a w') -> throughout I p Q w -> throughout I' p Q' w.
Proof.
  intros HI HQ. revert w. induction p as [A a|A B f k IH|A q IHq k IH|A S B s body IHb k IH]; simpl; intros w; [by apply HQ| |done..].
  intros [Hne Hp]. split; [done|]. intros b w' Hin. destruct (Hp b w' Hin) as [? Hk]. split; [auto|]. by eapply IH.
Qed.

Lemma throughout_mono {A} I (p : proc W A) (Q Q' : A -> W -> Prop) w :
  (forall a w', Q a w' -> Q' a w') -> throughout I p Q w -> throughout I p Q' w.
Proof. by apply throughout_weaken. Qed.

Lemma throughout_bind {A B} I (p : proc W A) (g : A -> proc W B) Q w :
  throughout I p (fun a w' => throughout I (g a) Q w') w -> throughout I (p ≫= g) Q w.
Proof.
  change (p ≫= g) with (pbind p g). revert w.
  induction p as [A a|A C f k IH|A q IHq k IH|A S C s body IHb k IH]; cbn [pbind throughout]; intros w; [done| |done..].
  intros [Hne Hp]. split; [done|]. intros b w' Hin. destruct (Hp b w' Hin) as [HI Hk]. split; [done|]. by apply IH.
Qed.

Lemma throughout_reads {A} I (f : W -> A) (Q : A -> W -> Prop) w : I w -> Q (f w) w -> throughout I (reads f) Q w.
Proof. intros HI HQ. split; [done|]. by intros b w' [= -> ->]%list_elem_of_singleton. Qed.

Lemma throughout_ret {A} I (a : A) (Q : A -> W -> Prop) w : Q a w -> throughout I (mret a) Q w.
Proof. done. Qed.

Lemma throughout_choices {A} I (f : W -> list (A * W)) (Q : A -> W -> Prop) w :
  f w <> [] -> (forall b w', (b, w') ∈ f w -> I w' /\ Q b w') -> throughout I (choices f) Q w.
Proof. done. Qed.

Lemma throughout_returns {A} I (p : proc W A) (Q : A -> W -> Prop) w : throughout I p Q w -> returns p Q w.
Proof.
  revert w. induction p as [A a|A B f k IH|A q IHq k IH|A S B s body IHb k IH]; simpl; intros w; [done| |done..].
  intros [Hne Hp]. split; [done|]. intros b w2 Hin. apply IH. by apply Hp.
Qed.

Lemma throughout_read {A B} I (f : W -> A) (g : A -> proc W B) (Q : B -> W -> Prop) w :
  I w -> throughout I (g (f w)) Q w -> throughout I (reads f ≫= g) Q w.
Proof. intros HI Hg. apply throughout_bind. by apply throughout_reads. Qed.

Lemma run_reaches {A} n (p : proc W A) w a w' : run_alone n p w = Some (a, w') -> reaches p w (Done a) w'.
Proof.
  revert p w. induction n as [|n IH]; intros p w Hr; [done|]. destruct p as [b|B f k|q k|S B s body k]; cbn [run_alone] in Hr.
  - injection Hr as -> ->. apply rtc_refl.
  - destruct (pstep_fn 0 (Act f k) w) as [[[p1 w1] [|]]|] eqn:Hs; try done. apply pstep_fn_ok in Hs.
    apply (rtc_l _ _ (p1, w1)); [exact Hs|by apply IH].
  - done.
  - destruct (pstep_fn 0 (Iter s body k) w) as [[[p1 w1] [|]]|] eqn:Hs; try done. apply pstep_fn_ok in Hs.
    apply (rtc_l _ _ (p1, w1)); [exact Hs|by apply IH].
Qed.
End files.

(** The temporary file beside a file. *)
Definition temp_path (path : string) : string := (path ++ ".tmp")%string.
Lemma temp_ne path : temp_path path <> path.
Proof.
  unfold temp_path. intros Heq. apply (f_equal String.length) in Heq. 
  assert (forall a b, String.length (a ++ b) = String.length a + String.length b)%nat as Hl
    by (intros a b; induction a as [|c a IH]; simpl; [done|by rewrite IH]).
  rewrite Hl in Heq. simpl in Heq. lia.
Qed.

(** * Fields that are left out when empty *)

Definition opt_str (k v : string) : obj := if bool_decide (v = ""%string) then [] else [(k, JStr v)].
Definition opt_bool (k : string) (v : bool) : obj := if v then [(k, JBool true)] else [].
Definition opt_int (k : string) (v : Z) : obj := if v =? 0 then [] else [(k, JNum v)].

(** ** Reading them back *)

Lemma field_none {A} null (dec : json -> option A) name (o : obj) :
  foldl (fun acc kv => a ← acc; if same_name (fst kv) name then match snd kv with JNull => Some (null a) | v => dec v end else Some a) None o = None.
Proof. induction o as [|kv o IH]; [done|exact IH]. Qed.
Lemma field_app {A} (dec : json -> option A) name zero (o1 o2 : obj) :
  field dec name zero (o1 ++ o2) = z ← field dec name zero o1; field dec name z o2.
Proof.
  unfold field, field_with. rewrite foldl_app. destruct (foldl _ (Some zero) o1) as [z|]; [done|]. apply field_none.
Qed.
Lemma field_nil {A} (dec : json -> option A) name zero : field dec name zero [] = Some zero.
Proof. done. Qed.
Lemma field_cons_ne {A} (dec : json -> option A) k name v zero (o : obj) :
  same_name k name = false -> field dec name zero ((k, v) :: o) = field dec name zero o.
Proof. intros Hk. unfold field, field_with. simpl. by rewrite Hk. Qed.
Lemma field_cons_eq {A} (dec : json -> option A) k name v zero (o : obj) x :
  same_name k name = true -> v <> JNull -> dec v = Some x -> field dec name zero ((k, v) :: o) = field dec name x o.
Proof. intros Hk Hv Hd. unfold field, field_with. simpl. rewrite Hk. by destruct v; rewrite ?Hd. Qed.
Lemma field_opt_str_ne {A} (dec : json -> option A) k name v zero :
  same_name k name = false -> field dec name zero (opt_str k v) = Some zero.
Proof. intros Hk. unfold opt_str. case_bool_decide; [done|]. by rewrite field_cons_ne. Qed.
Lemma field_opt_int_ne {A} (dec : json -> option A) k name v zero :
  same_name k name = false -> field dec name zero (opt_int k v) = Some zero.
Proof. intros Hk. unfold opt_int. destruct (v =? 0); [done|]. by rewrite field_cons_ne. Qed.
Lemma field_opt_str k name v : same_name k name = true -> field dec_str name ""%string (opt_str k v) = Some v.
Proof. intros Hk. unfold opt_str. case_bool_decide; [by subst|]. by erewrite field_cons_eq. Qed.
Lemma field_opt_int k name v : same_name k name = true -> int_ok v -> field dec_int64 name 0 (opt_int k v) = Some v.
Proof.
  intros Hk Hv. unfold opt_int. destruct (Z.eqb_spec v 0) as [->|]; [done|]. erewrite field_cons_eq; [done|done|done|by apply dec_int64_ok].
Qed.

(** Looks a field up in an object written part by part. *)
Ltac read_fields :=
  repeat first
    [ rewrite field_app
    | rewrite field_nil
    | rewrite field_cons_ne by reflexivity
    | erewrite field_cons_eq by (first [reflexivity|discriminate|by apply dec_int64_ok])
    | rewrite field_opt_str_ne by reflexivity
    | rewrite field_opt_int_ne by reflexivity
    | rewrite field_opt_str by reflexivity
    | rewrite field_opt_int by (first [reflexivity|assumption])
    | progress cbn [mbind option_bind app] ];
  try reflexivity.

(** Fields keep what their decoder promises. *)
Lemma field_all {A} (P : A -> Prop) (dec : json -> option A) name zero (o : obj) x :
  P zero -> (forall v y, dec v = Some y -> P y) -> field dec name zero o = Some x -> P x.
Proof.
  intros Hz Hd. unfold field, field_with. revert zero Hz. induction o as [|[k v] o IH]; intros zero Hz; simpl; [by intros [= <-]|].
  destruct (same_name k name); [|by apply IH].
  destruct v as [| | | | |]; simpl; [by apply IH|..];
    match goal with |- context [dec ?j] => destruct (dec j) as [y|] eqn:Hy end; try (by apply IH; eapply Hd); by rewrite field_none.
Qed.
Lemma dec_int64_range v y : dec_int64 v = Some y -> int_ok y.
Proof. destruct v; simpl; try done. destruct ((- 2 ^ 63 <=? z) && (z <? 2 ^ 63)) eqn:Hz; [|done]. intros [= <-]. unfold int_ok. lia. Qed.
(** Two readings of a field, from different values, agree once it is there. *)
Lemma field_agree {A} (dec : json -> option A) name z1 z2 (o : obj) x1 x2 :
  field dec name z1 o = Some x1 -> field dec name z2 o = Some x2 -> x1 = x2 \/ (x1 = z1 /\ x2 = z2).
Proof.
  unfold field, field_with. revert z1 z2. induction o as [|[k v] o IH]; intros z1 z2; simpl; [intros [= <-] [= <-]; auto|].
  destruct (same_name k name); [|by apply IH].
  assert (forall y, foldl (fun acc kv => a ← acc; if same_name (fst kv) name then match snd kv with JNull => Some (id a) | v => dec v end else Some a)
    (Some y) o = Some x1 -> foldl (fun acc kv => a ← acc; if same_name (fst kv) name then match snd kv with JNull => Some (id a) | v => dec v end else Some a)
    (Some y) o = Some x2 -> x1 = x2) as Hsame by (intros y H1 H2; congruence).
  destruct v as [| | | | |]; simpl; [by apply IH|..];
    match goal with |- context [dec ?j] => destruct (dec j) as [y|] end; try (intros H1 H2; left; by apply (Hsame y)); by rewrite field_none.
Qed.
