(* ===== verification/Config.v ===== *)
(** The agent's settings (agent/internal/config/config.go): one JSON file with
    the environment's variables laid over it, replaced by writing a temporary
    file and renaming it. *)

From stdpp Require Import pretty.
From S2P Require Import Prelude GoText Conc Json Files.
#[local] Open Scope Z_scope.

(** [agent/internal/config/config.go:14-14] currentConfigVersion *)
Definition currentConfigVersion : Z := 1.

(** The three deprecated fields, which nothing reads, are left out.
    [agent/internal/config/config.go:18-40] Config *)
Record Config := mkConfig {
  ConfigVersion : Z; SignalingURL : string; APIKey : string; AllowedHost : string; NCAllowedHost : string;
  AgentAPIKey : string; ImmichURL : string; ImmichAllowedHost : string; ImmichAPIKey : string; ImmichPollInterval : Z;
  DefaultExpiry : Z; DefaultMaxDownloads : Z; DefaultRelayOnly : bool; UIPort : Z; UIAddr : string; UIPassword : string }.

(** The zero value, and the defaults that a file may override with zero.
    [agent/internal/config/config.go:114-120] load *)
Definition default_config : Config := mkConfig currentConfigVersion "" "" "" "" "" "" "" "" 0 24 10 true 0 "" "".

Definition set_agent_key (k : string) (c : Config) : Config :=
  mkConfig (ConfigVersion c) (SignalingURL c) (APIKey c) (AllowedHost c) (NCAllowedHost c) k (ImmichURL c) (ImmichAllowedHost c)
    (ImmichAPIKey c) (ImmichPollInterval c) (DefaultExpiry c) (DefaultMaxDownloads c) (DefaultRelayOnly c) (UIPort c) (UIAddr c) (UIPassword c).
Definition set_immich_key (k : string) (c : Config) : Config :=
  mkConfig (ConfigVersion c) (SignalingURL c) (APIKey c) (AllowedHost c) (NCAllowedHost c) (AgentAPIKey c) (ImmichURL c) (ImmichAllowedHost c)
    k (ImmichPollInterval c) (DefaultExpiry c) (DefaultMaxDownloads c) (DefaultRelayOnly c) (UIPort c) (UIAddr c) (UIPassword c).
Definition set_version (v : Z) (c : Config) : Config :=
  mkConfig v (SignalingURL c) (APIKey c) (AllowedHost c) (NCAllowedHost c) (AgentAPIKey c) (ImmichURL c) (ImmichAllowedHost c)
    (ImmichAPIKey c) (ImmichPollInterval c) (DefaultExpiry c) (DefaultMaxDownloads c) (DefaultRelayOnly c) (UIPort c) (UIAddr c) (UIPassword c).
Definition set_relay_only (b : bool) (c : Config) : Config :=
  mkConfig (ConfigVersion c) (SignalingURL c) (APIKey c) (AllowedHost c) (NCAllowedHost c) (AgentAPIKey c) (ImmichURL c) (ImmichAllowedHost c)
    (ImmichAPIKey c) (ImmichPollInterval c) (DefaultExpiry c) (DefaultMaxDownloads c) b (UIPort c) (UIAddr c) (UIPassword c).

(** * As JSON *)

(** [agent/internal/config/config.go:18-40] Config *)
Definition config_obj (c : Config) : obj :=
  [("config_version"%string, JNum (ConfigVersion c)); ("signaling_url"%string, JStr (SignalingURL c))]
  ++ opt_str "api_key" (APIKey c) ++ opt_str "allowed_host" (AllowedHost c) ++ opt_str "nc_allowed_host" (NCAllowedHost c)
  ++ opt_str "agent_api_key" (AgentAPIKey c) ++ opt_str "immich_url" (ImmichURL c)
  ++ opt_str "immich_allowed_host" (ImmichAllowedHost c) ++ opt_str "immich_api_key" (ImmichAPIKey c)
  ++ opt_int "immich_poll_interval" (ImmichPollInterval c)
  ++ [("default_expiry"%string, JNum (DefaultExpiry c)); ("default_max_downloads"%string, JNum (DefaultMaxDownloads c));
      ("default_relay_only"%string, JBool (DefaultRelayOnly c)); ("ui_port"%string, JNum (UIPort c))]
  ++ opt_str "ui_addr" (UIAddr c) ++ opt_str "ui_password" (UIPassword c).

(** Decoding over the settings there are. *)
Definition decode_config_obj (c : Config) (o : obj) : option Config :=
  version ← field dec_int64 "config_version" (ConfigVersion c) o;
  url ← field dec_str "signaling_url" (SignalingURL c) o;
  key ← field dec_str "api_key" (APIKey c) o;
  host ← field dec_str "allowed_host" (AllowedHost c) o;
  nc_host ← field dec_str "nc_allowed_host" (NCAllowedHost c) o;
  agent_key ← field dec_str "agent_api_key" (AgentAPIKey c) o;
  immich ← field dec_str "immich_url" (ImmichURL c) o;
  immich_host ← field dec_str "immich_allowed_host" (ImmichAllowedHost c) o;
  immich_key ← field dec_str "immich_api_key" (ImmichAPIKey c) o;
  poll ← field dec_int64 "immich_poll_interval" (ImmichPollInterval c) o;
  expiry ← field dec_int64 "default_expiry" (DefaultExpiry c) o;
  downloads ← field dec_int64 "default_max_downloads" (DefaultMaxDownloads c) o;
  relay ← field dec_bool "default_relay_only" (DefaultRelayOnly c) o;
  port ← field dec_int64 "ui_port" (UIPort c) o;
  addr ← field dec_str "ui_addr" (UIAddr c) o;
  password ← field dec_str "ui_password" (UIPassword c) o;
  Some (mkConfig version url key host nc_host agent_key immich immich_host immich_key poll expiry downloads relay port addr password).
Definition decode_config (c : Config) (v : json) : option Config :=
  match v with JObj o => decode_config_obj c o | JNull => Some c | _ => None end.
(** [agent/internal/config/config.go:134-136] load *)
Definition decode_version (v : json) : option Z :=
  match v with JObj o => field dec_int64 "config_version" 0 o | JNull => Some 0 | _ => None end.

(** * The environment *)

Abbreviation environment := (string -> string).

(** [agent/internal/config/config.go:257-262] getEnv *)
Definition getEnv (env : environment) (key def : string) : string :=
  let v := env key in if bool_decide (v = ""%string) then def else v.
(** [agent/internal/config/config.go:265-275] getEnvInt *)
Definition getEnvInt (env : environment) (key : string) (def : Z) : Z :=
  let v := env key in if bool_decide (v = ""%string) then def else default def (Atoi v).

(** [agent/internal/config/config.go:149-186] load *)
Definition apply_env (env : environment) (c : Config) : Config :=
  mkConfig (ConfigVersion c) (getEnv env "SIGNALING_SERVER" (SignalingURL c)) (getEnv env "SHAREBRIDGE_API_KEY" (APIKey c))
    (getEnv env "ALLOWED_SHAREBRIDGE_HOST" (AllowedHost c)) (getEnv env "NC_ALLOWED_SHAREBRIDGE_HOST" (NCAllowedHost c))
    (getEnv env "SHAREBRIDGE_AGENT_API_KEY" (AgentAPIKey c)) (getEnv env "IMMICH_URL" (ImmichURL c))
    (getEnv env "IMMICH_ALLOWED_HOST" (ImmichAllowedHost c)) (getEnv env "IMMICH_API_KEY" (ImmichAPIKey c))
    (getEnvInt env "IMMICH_POLL_INTERVAL" (ImmichPollInterval c)) (DefaultExpiry c) (DefaultMaxDownloads c) (DefaultRelayOnly c)
    (getEnvInt env "UI_PORT" (UIPort c)) (getEnv env "UI_ADDR" (UIAddr c)) (getEnv env "UI_PASSWORD" (UIPassword c)).

Definition or_str (v def : string) : string := if bool_decide (v = ""%string) then def else v.
Definition or_int (v def : Z) : Z := if v =? 0 then def else v.
(** [agent/internal/config/config.go:188-199] load *)
Definition fill (c : Config) : Config :=
  mkConfig (ConfigVersion c) (or_str (SignalingURL c) "wss://sharebridge.app") (APIKey c) (AllowedHost c) (NCAllowedHost c) (AgentAPIKey c)
    (ImmichURL c) (ImmichAllowedHost c) (ImmichAPIKey c) (or_int (ImmichPollInterval c) 30) (DefaultExpiry c) (DefaultMaxDownloads c)
    (DefaultRelayOnly c) (or_int (UIPort c) 7878) (or_str (UIAddr c) "0.0.0.0") (UIPassword c).

(** * The manager *)

Module Manager.

(** [agent/internal/config/config.go:43-49] Manager *)
Record Manager := mkManager {
  config : Config; configNeedsSave : bool; agentAPIKeyFromEnv : bool; immichAPIKeyFromEnv : bool }.

Inductive config_error := ErrHome | ErrRead | ErrMalformed | ErrVersion | ErrKey (e : string) | ErrDir | ErrWrite | ErrRename.

Definition is_set (env : environment) (key : string) : bool := negb (bool_decide (env key = ""%string)).

(** The settings a file's contents give, and whether they must be saved.
    [agent/internal/config/config.go:129-145] load *)
Definition read_config (c : option json) : result (Config * bool) config_error :=
  match c with
  | None => Err ErrMalformed
  | Some v =>
      match decode_config default_config v with
      | None => Err ErrMalformed
      | Some cfg =>
          match decode_version v with
          | None => Err ErrVersion
          | Some version =>
              if version <? currentConfigVersion
              then Ok (set_relay_only true (set_version currentConfigVersion cfg), true) else Ok (cfg, false)
          end
      end
  end.

(** With the file readable or absent.
    [agent/internal/config/config.go:112-202] load *)
Definition load (env : environment) (file : option (option json)) : result Manager config_error :=
  match match file with None => Ok (default_config, false) | Some c => read_config c end with
  | Err e => Err e
  | Ok (cfg, save) =>
      Ok (mkManager (fill (apply_env env cfg)) save (is_set env "SHAREBRIDGE_AGENT_API_KEY") (is_set env "IMMICH_API_KEY"))
  end.

(** What is written of the settings.
    [agent/internal/config/config.go:212-221] save *)
Definition persisted (m : Manager) : Config :=
  let c := if agentAPIKeyFromEnv m then set_agent_key "" (config m) else config m in
  if immichAPIKeyFromEnv m then set_immich_key "" c else c.

Record World := mkWorld { c_manager : Manager; c_files : files }.
Definition set_manager (m : Manager) (w : World) : World := mkWorld m (c_files w).
Definition set_files (f : files) (w : World) : World := mkWorld (c_manager w) f.
Definition set_config (c : Config) (w : World) : World :=
  let m := c_manager w in
  set_manager (mkManager c (configNeedsSave m) (agentAPIKeyFromEnv m) (immichAPIKeyFromEnv m)) w.

Section manager.
Context (filePath : string).

(** [agent/internal/config/config.go:205-237] save *)
Definition save : proc World (result unit config_error) :=
  made ← choices (fun w => [(true, w); (false, w)]);
  if negb made then mret (Err ErrDir)
  else
    j ← reads (fun w => JObj (config_obj (persisted (c_manager w))));
    written ← put_file c_files set_files (temp_path filePath) j;
    if negb written then mret (Err ErrWrite)
    else
      renamed ← move_file c_files set_files (temp_path filePath) filePath;
      mret (if (renamed : bool) then Ok tt else Err ErrRename).

(** [agent/internal/config/config.go:103-107] Save *)
Definition Save (cfg : Config) : proc World (result unit config_error) :=
  _ ← modifies (set_config (set_version currentConfigVersion cfg)); save.

(** [agent/internal/config/config.go:93-95] Get *)
Definition Get (w : World) : Config := config (c_manager w).

(** With what the random source gives.
    [agent/internal/config/config.go:279-285] generateAgentAPIKey *)
Definition generateAgentAPIKey (random : result bytes string) : result string config_error :=
  match random with Ok b => Ok ("sb_agent_" +:+ hex_encode b) | Err e => Err (ErrKey e) end.

(** [agent/internal/config/config.go:53-90] NewManager *)
Definition NewManager (home : bool) (env : environment) (random : result bytes string) : proc World (result unit config_error) :=
  if negb home then mret (Err ErrHome)
  else
    r ← choices (fun w => [(load env (c_files w !! filePath), w); (Err ErrRead, w)]);
    match r with
    | Err e => mret (Err e)
    | Ok m =>
        _ ← modifies (set_manager m);
        if bool_decide (AgentAPIKey (config m) = ""%string) then
          match generateAgentAPIKey random with
          | Err e => mret (Err e)
          | Ok key => _ ← modifies (set_config (set_agent_key key (config m))); _ ← save; mret (Ok tt)
          end
        else if configNeedsSave m then _ ← save; mret (Ok tt) else mret (Ok tt)
    end.

(** [agent/internal/config/config.go:245-251] Load *)
Definition env_only (env : environment) : Config :=
  mkConfig 0 (getEnv env "SIGNALING_SERVER" "wss://sharebridge.app") (getEnv env "SHAREBRIDGE_API_KEY" "")
    (getEnv env "ALLOWED_SHAREBRIDGE_HOST" "") "" "" "" "" "" 0 0 0 false (getEnvInt env "UI_PORT" 7878) "" (getEnv env "UI_PASSWORD" "").
(** [agent/internal/config/config.go:241-254] Load *)
Definition Load (home : bool) (env : environment) (random : result bytes string) : proc World Config :=
  r ← NewManager home env random;
  match r with Err _ => mret (env_only env) | Ok _ => reads Get end.
End manager.
End Manager.

(** * Well-formed settings *)

(** Numbers of a 64-bit int. *)
Definition ints_ok (c : Config) : Prop :=
  int_ok (ConfigVersion c) /\ int_ok (ImmichPollInterval c) /\ int_ok (DefaultExpiry c) /\ int_ok (DefaultMaxDownloads c) /\ int_ok (UIPort c).
(** The fields that always have a value. *)
Definition complete (c : Config) : Prop :=
  SignalingURL c <> ""%string /\ UIPort c <> 0 /\ ImmichPollInterval c <> 0 /\ UIAddr c <> ""%string.
Definition unset : environment := fun _ => ""%string.

Lemma decode_config_json c : ints_ok c -> 1 <= ConfigVersion c -> Manager.read_config (Some (JObj (config_obj c))) = Ok (c, false).
Proof.
  intros (H1&H2&H3&H4&H5) Hv. destruct c as [ver url key host nc ak im imh imk poll ex dl relay port addr pw].
  cbn [ConfigVersion ImmichPollInterval DefaultExpiry DefaultMaxDownloads UIPort] in *.
  set (o := config_obj _). unfold config_obj in o.
  cbn [ConfigVersion SignalingURL APIKey AllowedHost NCAllowedHost AgentAPIKey ImmichURL ImmichAllowedHost ImmichAPIKey ImmichPollInterval
    DefaultExpiry DefaultMaxDownloads DefaultRelayOnly UIPort UIAddr UIPassword] in o.
  assert (field dec_int64 "config_version" 0 o = Some ver) as E0 by (unfold o; read_fields).
  assert (field dec_int64 "config_version" currentConfigVersion o = Some ver) as E1 by (unfold o; read_fields).
  assert (field dec_str "signaling_url" "" o = Some url) as E2 by (unfold o; read_fields).
  assert (field dec_str "api_key" "" o = Some key) as E3 by (unfold o; read_fields).
  assert (field dec_str "allowed_host" "" o = Some host) as E4 by (unfold o; read_fields).
  assert (field dec_str "nc_allowed_host" "" o = Some nc) as E5 by (unfold o; read_fields).
  assert (field dec_str "agent_api_key" "" o = Some ak) as E6 by (unfold o; read_fields).
  assert (field dec_str "immich_url" "" o = Some im) as E7 by (unfold o; read_fields).
  assert (field dec_str "immich_allowed_host" "" o = Some imh) as E8 by (unfold o; read_fields).
  assert (field dec_str "immich_api_key" "" o = Some imk) as E9 by (unfold o; read_fields).
  assert (field dec_int64 "immich_poll_interval" 0 o = Some poll) as E10 by (unfold o; read_fields).
  assert (field dec_int64 "default_expiry" 24 o = Some ex) as E11 by (unfold o; read_fields).
  assert (field dec_int64 "default_max_downloads" 10 o = Some dl) as E12 by (unfold o; read_fields).
  assert (field dec_bool "default_relay_only" true o = Some relay) as E13 by (unfold o; read_fields).
  assert (field dec_int64 "ui_port" 0 o = Some port) as E14 by (unfold o; read_fields).
  assert (field dec_str "ui_addr" "" o = Some addr) as E15 by (unfold o; read_fields).
  assert (field dec_str "ui_password" "" o = Some pw) as E16 by (unfold o; read_fields).
  clearbody o. unfold Manager.read_config, decode_config, decode_config_obj, decode_version, default_config.
  cbn [ConfigVersion SignalingURL APIKey AllowedHost NCAllowedHost AgentAPIKey ImmichURL ImmichAllowedHost ImmichAPIKey ImmichPollInterval
    DefaultExpiry DefaultMaxDownloads DefaultRelayOnly UIPort UIAddr UIPassword].
  rewrite E1, E2, E3, E4, E5, E6, E7, E8, E9, E10, E11, E12, E13, E14, E15, E16. cbn [mbind option_bind]. rewrite E0.
  by rewrite (proj2 (Z.ltb_ge ver currentConfigVersion)).
Qed.

(** Settings as the rest of the agent may rely on them. *)
Definition well_formed (c : Config) : Prop := ints_ok c /\ complete c /\ 1 <= ConfigVersion c.

Lemma fill_complete c : complete c -> fill c = c.
Proof.
  intros (H1&H2&H3&H4). destruct c. unfold fill, or_str, or_int. simpl in *.
  rewrite !bool_decide_false by done. by rewrite (proj2 (Z.eqb_neq _ _) H2), (proj2 (Z.eqb_neq _ _) H3).
Qed.
Lemma fill_is_complete c : complete (fill c).
Proof.
  unfold complete, fill, or_str, or_int. simpl.
  repeat case_bool_decide; destruct (Z.eqb_spec (UIPort c) 0), (Z.eqb_spec (ImmichPollInterval c) 0); done.
Qed.
Lemma apply_unset c : apply_env unset c = c.
Proof. by destruct c. Qed.

Lemma getEnvInt_ok env k d : int_ok d -> int_ok (getEnvInt env k d).
Proof.
  intros Hd. unfold getEnvInt. case_bool_decide; [done|]. destruct (Atoi (env k)) as [n|] eqn:Hn; [|done]. by apply Atoi_range in Hn.
Qed.
Lemma fill_ints c : ints_ok c -> ints_ok (fill c).
Proof.
  intros (H1&H2&H3&H4&H5). unfold ints_ok, fill, or_int. simpl.
  split_and!; try done; case_match; try done; unfold int_ok; lia.
Qed.
Lemma env_ints env c : ints_ok c -> ints_ok (apply_env env c).
Proof. intros (H1&H2&H3&H4&H5). split_and!; simpl; auto using getEnvInt_ok. Qed.

Lemma decode_config_ints c v c' : ints_ok c -> decode_config c v = Some c' -> ints_ok c'.
Proof.
  intros Hc. destruct v as [| | | | |o]; simpl; try done; [by intros [= <-]|]. unfold decode_config_obj.
  repeat match goal with |- context [?f ≫= _] => destruct f eqn:?; cbn [mbind option_bind]; [|done] end.
  intros [= <-]. destruct Hc as (H1&H2&H3&H4&H5).
  split_and!; simpl; (eapply (field_all int_ok); [..|eassumption]; [done|apply dec_int64_range]).
Qed.

Lemma default_ints : ints_ok default_config.
Proof. unfold ints_ok, int_ok, default_config, currentConfigVersion. simpl. lia. Qed.

Lemma read_config_ok c cfg s : Manager.read_config c = Ok (cfg, s) -> ints_ok cfg /\ 1 <= ConfigVersion cfg.
Proof.
  destruct c as [v|]; [|done]. unfold Manager.read_config.
  destruct (decode_config default_config v) as [c|] eqn:Hd; [|done]. destruct (decode_version v) as [n|] eqn:Hv; [|done].
  apply decode_config_ints in Hd as Hi; [|apply default_ints]. destruct (Z.ltb_spec n currentConfigVersion) as [Hlt|Hge]; intros [= <- <-].
  - destruct Hi as (H1&H2&H3&H4&H5). split; [|done]. split_and!; simpl; try done; unfold int_ok, currentConfigVersion; lia.
  - split; [done|]. enough (ConfigVersion c = n \/ ConfigVersion c = 1) as [->| ->] by (unfold currentConfigVersion in *; lia).
    destruct v as [| | | | |o]; simpl in *; try done; [injection Hd as <-; by right|]. unfold decode_config_obj in Hd.
    destruct (field dec_int64 "config_version" (ConfigVersion default_config) o) as [x|] eqn:Hx; [|done]. cbn [mbind option_bind] in Hd.
    assert (x = ConfigVersion c) as ->.
    { repeat match type of Hd with context [?f ≫= _] => destruct f eqn:?; cbn [mbind option_bind] in Hd; [|done] end. by injection Hd as <-. }
    destruct (field_agree dec_int64 "config_version" (ConfigVersion default_config) 0 o _ _ Hx Hv) as [?|[? ?]]; auto.
Qed.

Lemma load_well_formed env file m : Manager.load env file = Ok m -> well_formed (Manager.config m).
Proof.
  unfold Manager.load. destruct (match file with None => _ | Some c => _ end) as [[cfg s]|] eqn:Hf; [|done]. intros [= <-]. simpl.
  assert (ints_ok cfg /\ 1 <= ConfigVersion cfg) as [Hi Hv].
  { destruct file as [c|]; [by apply read_config_ok in Hf|]. injection Hf as <- <-. split; [apply default_ints|done]. }
  split_and!; [by apply fill_ints, env_ints|apply fill_is_complete|done].
Qed.

Lemma persisted_well_formed m : well_formed (Manager.config m) -> well_formed (Manager.persisted m).
Proof. intros (H1&H2&H3). unfold Manager.persisted. by repeat case_match. Qed.

Section manager.
Context (filePath : string).
Abbreviation file w := (Manager.c_files w !! filePath).

(** Saving replaces the file by all of the settings, or leaves it. *)
Lemma save_file m w : Manager.c_manager w = m ->
  let new := Some (Some (JObj (config_obj (Manager.persisted m)))) in
  throughout (fun w' => Manager.c_manager w' = m /\ (file w' = file w \/ file w' = new)) (Manager.save filePath)
    (fun r w' => Manager.c_manager w' = m /\ match r with Ok _ => file w' = new | Err _ => file w' = file w end) w.
Proof.
  intros <- new. unfold Manager.save. apply throughout_bind, throughout_choices; [done|].
  intros made w1 Hin. assert (w1 = w) as -> by (apply elem_of_cons in Hin as [[= _ ->]|[= _ ->]%list_elem_of_singleton]; done).
  split; [by split; [|left]|]. destruct (negb made); [by apply throughout_ret|].
  apply throughout_read; [by split; [|left]|]. apply throughout_bind, throughout_choices; [done|]. intros written w2 Hin2.
  assert (Manager.c_manager w2 = Manager.c_manager w /\ file w2 = file w /\ (written = true ->
    Manager.c_files w2 !! temp_path filePath = Some (Some (JObj (config_obj (Manager.persisted (Manager.c_manager w))))))) as (Hm2&Hf2&Ht2).
  { apply elem_of_cons in Hin2 as [[= -> ->]|Hin2]; [|apply elem_of_cons in Hin2 as [[= -> ->]|[= -> ->]%list_elem_of_singleton]]; simpl;
      rewrite ?(lookup_insert_ne _ (temp_path filePath) filePath), ?lookup_insert_eq by apply temp_ne; done. }
  split; [by split; [|left]|]. destruct written; cbn [negb]; [|by apply throughout_ret]. specialize (Ht2 eq_refl).
  apply throughout_bind, throughout_choices; [by rewrite Ht2|]. intros renamed w3 Hin3. rewrite Ht2 in Hin3.
  apply elem_of_cons in Hin3 as [[= -> ->]|[= -> ->]%list_elem_of_singleton].
  - assert (file (Manager.set_files (<[filePath := Some (JObj (config_obj (Manager.persisted (Manager.c_manager w))))]>
      (delete (temp_path filePath) (Manager.c_files w2))) w2) = new) as Hn by (simpl; by rewrite lookup_insert_eq).
    split; [by split; [|right]|]. by apply throughout_ret.
  - split; [by split; [|left]|]. by apply throughout_ret.
Qed.

Lemma save_returns w (Q : result unit Manager.config_error -> Manager.World -> Prop) :
  (forall r w', Manager.c_manager w' = Manager.c_manager w -> Q r w') -> returns (Manager.save filePath) Q w.
Proof.
  intros HQ. eapply returns_mono; [|eapply throughout_returns, save_file; reflexivity]. intros r w' [Hm _]. by apply HQ.
Qed.

(** The settings the agent starts with: whatever the file and the
    environment hold, when the manager starts without an error, or with a file
    that cannot be saved, the settings have a server, a port, an address to
    listen on, a polling interval and an API key for the agent's own interface,
    numbers of a 64-bit int and a current version; a variable of the
    environment that is set is what its setting is. *)
Theorem config_well_formed env random w :
  returns (Manager.NewManager filePath true env random) (fun r w' => r = Ok tt ->
    let c := Manager.Get w' in
    well_formed c /\ AgentAPIKey c <> ""%string
    /\ (env "SIGNALING_SERVER" <> "" -> SignalingURL c = env "SIGNALING_SERVER")%string
    /\ (env "SHAREBRIDGE_API_KEY" <> "" -> APIKey c = env "SHAREBRIDGE_API_KEY")%string
    /\ (env "SHAREBRIDGE_AGENT_API_KEY" <> "" -> AgentAPIKey c = env "SHAREBRIDGE_AGENT_API_KEY")%string
    /\ (env "UI_PASSWORD" <> "" -> UIPassword c = env "UI_PASSWORD")%string) w.
Proof.
  apply tot_bind. apply tot_choices; [done|]. intros r w1 Hin.
  apply elem_of_cons in Hin as [[= -> ->]|[= -> ->]%list_elem_of_singleton]; [|by apply tot_ret].
  destruct (Manager.load env (file w)) as [m|e] eqn:Hl; [|by apply tot_ret]. pose proof (load_well_formed _ _ _ Hl) as Hwf.
  assert (exists c, Manager.config m = fill (apply_env env c)) as [c0 Hc0].
  { unfold Manager.load in Hl. destruct (match file w with None => _ | Some c => _ end) as [[cfg s]|]; [|done]. injection Hl as <-. by exists cfg. }
  assert (forall k v : string, getEnv env k v <> env k -> env k = ""%string) as Henv.
  { intros k v. unfold getEnv. by case_bool_decide. }
  assert ((env "SIGNALING_SERVER" <> "" -> SignalingURL (Manager.config m) = env "SIGNALING_SERVER")%string
    /\ (env "SHAREBRIDGE_API_KEY" <> "" -> APIKey (Manager.config m) = env "SHAREBRIDGE_API_KEY")%string
    /\ (env "SHAREBRIDGE_AGENT_API_KEY" <> "" -> AgentAPIKey (Manager.config m) = env "SHAREBRIDGE_AGENT_API_KEY")%string
    /\ (env "UI_PASSWORD" <> "" -> UIPassword (Manager.config m) = env "UI_PASSWORD")%string) as (E1&E2&E3&E4).
  { rewrite Hc0. simpl. unfold or_str, getEnv. split_and!; intros He; rewrite ?(bool_decide_false _ He); done. }
  apply tot_bind, tot_modifies. case_bool_decide as Hk.
  - destruct (Manager.generateAgentAPIKey random) as [key|e] eqn:Hg; [|by apply tot_ret].
    assert (key <> ""%string) as Hkey by (destruct random; [injection Hg as <-; done|done]).
    apply tot_bind, tot_modifies, tot_bind. apply (save_returns). intros r w2 Hm. apply tot_ret. intros _. unfold Manager.Get. rewrite Hm. simpl.
    split_and!; try done; [by apply Hwf..|]. intros He. specialize (E3 He). congruence.
  - destruct (Manager.configNeedsSave m); [apply tot_bind, save_returns; intros r w2 Hm|]; apply tot_ret; intros _;
      unfold Manager.Get; rewrite ?Hm; simpl; done.
Qed.

(** What a saved manager's file gives a start without variables. *)
Lemma load_persisted m : well_formed (Manager.config m) ->
  Manager.load unset (Some (Some (JObj (config_obj (Manager.persisted m))))) = Ok (Manager.mkManager (Manager.persisted m) false false false).
Proof.
  intros Hwf%persisted_well_formed. destruct Hwf as (Hi&Hc&Hv). unfold Manager.load. rewrite decode_config_json by done.
  by rewrite apply_unset, fill_complete.
Qed.

Definition saved (cfg : Config) (m : Manager.Manager) : Manager.Manager :=
  Manager.mkManager (set_version currentConfigVersion cfg) (Manager.configNeedsSave m) (Manager.agentAPIKeyFromEnv m)
    (Manager.immichAPIKeyFromEnv m).

(** The settings [cfg] of a manager that took its own key ([a]) or the Immich key
    ([i]) from the environment, as a later start finds them. *)
Definition kept_settings (a i : bool) (cfg : Config) : Config :=
  mkConfig currentConfigVersion (SignalingURL cfg) (APIKey cfg) (AllowedHost cfg) (NCAllowedHost cfg) (if a then "" else AgentAPIKey cfg)
    (ImmichURL cfg) (ImmichAllowedHost cfg) (if i then "" else ImmichAPIKey cfg) (ImmichPollInterval cfg) (DefaultExpiry cfg)
    (DefaultMaxDownloads cfg) (DefaultRelayOnly cfg) (UIPort cfg) (UIAddr cfg) (UIPassword cfg).

(** C34 (roundtrip). Settings survive being saved.  For settings that are
    complete (a server, a listen address, a port and a polling interval that are
    not zero, for which a start would fill in defaults) and of a 64-bit int's
    numbers: wherever the process stops, the file is the old one or loads, without
    variables in the environment, as the settings saved; when Save returns no
    error it does, and when it returns one the file is untouched.  The two keys
    are the exception: each that came from the environment is left out, so
    whatever key the file held before is gone, and no other setting is. *)
Theorem config_survives_save cfg w p' w' : ints_ok cfg -> complete cfg -> reaches (Manager.Save filePath cfg) w p' w' ->
  let m := Manager.c_manager w in
  let loads := Manager.load unset (file w') = Ok (Manager.mkManager
    (kept_settings (Manager.agentAPIKeyFromEnv m) (Manager.immichAPIKeyFromEnv m) cfg) false false false) in
  (file w' = file w \/ loads) /\ (p' = Done (Ok tt) -> loads) /\ (forall e, p' = Done (Err e) -> file w' = file w).
Proof.
  intros Hi Hc Hr m0 loads. set (m := saved cfg m0). assert (well_formed (Manager.config m)) as Hwf.
  { destruct Hi as (H1&H2&H3&H4&H5). split_and!; simpl; try done; unfold int_ok, currentConfigVersion; lia. }
  assert (file w' = Some (Some (JObj (config_obj (Manager.persisted m)))) -> loads) as Hloads.
  { intros Hf. unfold loads. rewrite Hf, load_persisted by done. unfold m, saved, Manager.persisted. cbn. by do 2 destruct (_ m0). }
  set (w1 := Manager.set_config (set_version currentConfigVersion cfg) w).
  assert (throughout (fun w2 => file w2 = file w \/ file w2 = Some (Some (JObj (config_obj (Manager.persisted m)))))
    (Manager.Save filePath cfg) (fun r w2 => match r with
      | Ok _ => file w2 = Some (Some (JObj (config_obj (Manager.persisted m)))) | Err _ => file w2 = file w end) w) as Hs.
  { unfold Manager.Save. apply throughout_bind, throughout_choices; [done|]. intros [] w2 [= ->]%list_elem_of_singleton. split; [by left|].
    refine (throughout_weaken _ _ _ _ _ _ _ _ (save_file m w1 eq_refl)); [by intros w3 [_ ?]|by intros r w3 [_ ?]]. }
  destruct (throughout_reaches _ _ _ _ _ _ (or_introl eq_refl) Hs Hr) as [Hf Hd]. split_and!.
  - destruct Hf; auto.
  - intros ->. apply Hloads. exact (Hd (Ok tt) eq_refl).
  - intros e ->. exact (Hd (Err e) eq_refl).
Qed.
End manager.

(** ** A start with an old file, and a save *)

Definition demo_file : json :=
  JObj [("signaling_url", JStr "wss://relay.example"); ("agent_api_key", JStr "old"); ("default_relay_only", JBool false); ("UI_Port", JNum 9000)]%string.
Definition demo_manager : Manager.Manager := Manager.mkManager default_config false false false.
Definition demo_start : Manager.World := Manager.mkWorld demo_manager {["config.json"%string := Some demo_file]}.
(** A manager that took the Immich key from the environment. *)
Definition demo_keyed : Manager.World := Manager.mkWorld (Manager.mkManager default_config false false true) {["config.json"%string := Some demo_file]}.
Definition demo_env : environment := fun k => if bool_decide (k = "UI_PASSWORD"%string) then "secret"%string else ""%string.

Example demo_load : Manager.load demo_env (Some (Some demo_file))
  = Ok (Manager.mkManager (mkConfig 1 "wss://relay.example" "" "" "" "old" "" "" "" 30 24 10 true 9000 "0.0.0.0" "secret") true false false).
Proof. vm_compute. reflexivity. Qed.

Lemma config_survives_save_witness : exists w', let cfg key := mkConfig 1 "wss://relay.example" "" "" "" "old" "" "" key 30 24 10 true 9000 "0.0.0.0" "" in
  reaches (Manager.Save "config.json" (cfg "secret")) demo_keyed (Done (Ok tt)) w'
  /\ Manager.load unset (Manager.c_files w' !! "config.json"%string) = Ok (Manager.mkManager (cfg "") false false false).
Proof.
  set (cfg := fun key : string => mkConfig 1 "wss://relay.example" "" "" "" "old" "" "" key 30 24 10 true 9000 "0.0.0.0" "").
  assert ((if run_alone 20 (Manager.Save "config.json" (cfg "secret")) demo_keyed is Some (Ok tt, _) then true else false) = true)
    as Hrun by (vm_compute; reflexivity).
  destruct (run_alone 20 _ demo_keyed) as [[[[]|] w']|] eqn:Hr; [|discriminate Hrun|discriminate Hrun].
  apply run_reaches in Hr. exists w'. intros cfg'. split; [exact Hr|].
  destruct (config_survives_save "config.json" (cfg "secret") demo_keyed (Done (Ok tt)) w') as (_&Hl&_).
  - unfold ints_ok, int_ok. simpl. lia.
  - unfold complete. simpl. split_and!; discriminate.
  - exact Hr.
  - exact (Hl eq_refl).
Defined.
