(* ===== verification/Store.v ===== *)
(** The agent's session store (agent/internal/store/store.go): the sessions,
    the agent's identity and its relay key in one JSON file, replaced by
    writing a temporary file and renaming it.  Each operation runs under
    [s.mu]; each file operation is one action, which may fail, and the process
    may stop between any two. *)

From Stdlib Require Import Ascii.
From S2P Require Import Prelude GoText Conc Json TimeText Files.
#[local] Open Scope Z_scope.

(** * Data *)

(** [agent/internal/store/store.go:21-33] SessionEntry *)
Record SessionEntry := mkSession {
  se_Code : string; se_ShareURL : string; se_ShareType : string; se_IsPasswordProtected : bool;
  se_FileID : string; se_Password : string; se_ExpiresAt : Z; se_MaxDownloads : Z; se_Downloads : Z;
  se_RelayOnly : bool; se_CreatedAt : Z }.

(** [agent/internal/store/store.go:35-39] storeData *)
Record storeData := mkData { AgentID : string; RelayStaticPrivateHex : string; Sessions : list SessionEntry }.

Definition empty_entry : SessionEntry := mkSession "" "" "" false "" "" zero_time 0 0 false zero_time.
Definition empty_data : storeData := mkData "" "" [].
Definition set_sessions (l : list SessionEntry) (d : storeData) : storeData := mkData (AgentID d) (RelayStaticPrivateHex d) l.

(** ** As JSON *)

Section json.
(** The offset of the zone an instant is written in. *)
Context (zone : Z -> Z).

(** [agent/internal/store/store.go:21-33] SessionEntry *)
Definition entry_json (e : SessionEntry) : option json :=
  expires ← time_text (zone (se_ExpiresAt e)) (se_ExpiresAt e);
  created ← time_text (zone (se_CreatedAt e)) (se_CreatedAt e);
  Some (JObj ([("code"%string, JStr (se_Code e)); ("share_url"%string, JStr (se_ShareURL e));
               ("share_type"%string, JStr (se_ShareType e))]
              ++ opt_bool "is_password_protected" (se_IsPasswordProtected e) ++ opt_str "file_id" (se_FileID e)
              ++ opt_str "password" (se_Password e) ++ [("expires_at"%string, JStr expires)]
              ++ opt_int "max_downloads" (se_MaxDownloads e)
              ++ [("downloads"%string, JNum (se_Downloads e)); ("relay_only"%string, JBool (se_RelayOnly e));
                  ("created_at"%string, JStr created)])).

(** No sessions are [null] when the slice was never made, an empty array after
    the last was removed; both are read as none.
    [agent/internal/store/store.go:35-39] storeData *)
Definition data_json (d : storeData) : option json :=
  l ← mapM entry_json (Sessions d);
  Some (JObj ([("agent_id"%string, JStr (AgentID d))] ++ opt_str "relay_static_private_hex" (RelayStaticPrivateHex d)
              ++ [("sessions"%string, match l with [] => JNull | _ => JArr l end)])).
End json.

Definition dec_time (v : json) : option Z := match v with JStr s => parse_time s | _ => None end.
(** [agent/internal/store/store.go:21-33] SessionEntry *)
Definition decode_entry (v : json) : option SessionEntry :=
  match v with
  | JObj o =>
      code ← field dec_str "code" ""%string o;
      url ← field dec_str "share_url" ""%string o;
      type ← field dec_str "share_type" ""%string o;
      protected ← field dec_bool "is_password_protected" false o;
      file ← field dec_str "file_id" ""%string o;
      password ← field dec_str "password" ""%string o;
      expires ← field dec_time "expires_at" zero_time o;
      maximum ← field dec_int64 "max_downloads" 0 o;
      downloads ← field dec_int64 "downloads" 0 o;
      relay ← field dec_bool "relay_only" false o;
      created ← field dec_time "created_at" zero_time o;
      Some (mkSession code url type protected file password expires maximum downloads relay created)
  | JNull => Some empty_entry
  | _ => None
  end.
Definition dec_entries (v : json) : option (list SessionEntry) :=
  match v with JArr l => mapM decode_entry l | _ => None end.

(** [agent/internal/store/store.go:35-39] storeData *)
Definition decode_data (v : json) : option storeData :=
  match v with
  | JObj o =>
      agent ← field dec_str "agent_id" ""%string o;
      key ← field dec_str "relay_static_private_hex" ""%string o;
      sessions ← field dec_entries "sessions" [] o;
      Some (mkData agent key sessions)
  | JNull => Some empty_data
  | _ => None
  end.

(** ** What is read is what was written *)

Definition entry_ok (e : SessionEntry) : Prop := int_ok (se_MaxDownloads e) /\ int_ok (se_Downloads e).
Definition data_ok (d : storeData) : Prop := Forall entry_ok (Sessions d).

Section roundtrip.
Context (zone : Z -> Z).

Lemma decode_entry_json e j : entry_ok e -> entry_json zone e = Some j -> decode_entry j = Some e /\ j <> JNull.
Proof.
  intros [Hmax Hdown]. destruct e as [code url type protected file password expires maximum downloads relay created].
  unfold entry_json. simpl in *. destruct (time_text (zone expires) expires) as [te|] eqn:He; simpl; [|done].
  destruct (time_text (zone created) created) as [tc|] eqn:Hc; simpl; [|done]. intros [= <-]. split; [|done].
  apply parse_time_text in He, Hc. pose proof (dec_int64_ok _ Hmax) as Hm. pose proof (dec_int64_ok _ Hdown) as Hd.
  unfold opt_str, opt_bool, opt_int. destruct protected; repeat case_bool_decide; destruct (Z.eqb_spec maximum 0); subst;
    lazy -[parse_time dec_int64]; rewrite ?Hm, ?He; lazy -[parse_time dec_int64]; rewrite ?Hd, ?He, ?Hm; lazy -[parse_time dec_int64]; rewrite ?Hc, ?Hd; reflexivity.
Qed.

Lemma decode_data_json d j : data_ok d -> data_json zone d = Some j -> decode_data j = Some d.
Proof.
  destruct d as [agent key l]. unfold data_ok, data_json. simpl. intros Hok.
  destruct (mapM (entry_json zone) l) as [js|] eqn:Hl; simpl; [|done]. intros [= <-].
  assert (mapM decode_entry js = Some l) as Hd.
  { revert js Hl. induction Hok as [|e l He Hok IH]; intros js Hl; simpl in Hl; [by injection Hl as <-|].
    destruct (entry_json zone e) as [j|] eqn:Hj; simpl in Hl; [|done].
    destruct (mapM (entry_json zone) l) as [js'|]; simpl in Hl; [|done]. injection Hl as <-. simpl.
    destruct (decode_entry_json e j He Hj) as [-> _]. simpl. by rewrite IH. }
  assert (js <> [] -> dec_entries (JArr js) = Some l) as Hs by done.
  unfold opt_str. case_bool_decide; subst; (destruct js as [|j js]; [by injection Hd as <-|]);
    specialize (Hs ltac:(done)); remember (JArr (j :: js)) as sj eqn:Hj; cbn -[dec_entries]; subst sj; rewrite Hs; reflexivity.
Qed.
End roundtrip.

(** * encoding/hex, reading *)

(** [hex.DecodeString]. *)
Fixpoint hex_decode (s : string) : option bytes :=
  match s with
  | EmptyString => Some []
  | String a (String b s') => x ← hex_value a; y ← hex_value b; l ← hex_decode s'; Some (byte_of_Z (16 * x + y) :: l)
  | _ => None
  end.

Lemma hex_value_digit x : 0 <= x < 16 -> hex_value (hex_digit x) = Some x.
Proof.
  intros Hx. unfold hex_value, hex_digit. rewrite nat_ascii_embedding by (destruct (x <? 10); lia).
  destruct (Z.ltb_spec x 10).
  - rewrite Z2Nat.id by lia. rewrite (proj2 (Z.leb_le 48 _)), (proj2 (Z.leb_le _ 57)) by lia. simpl. f_equal. lia.
  - rewrite Z2Nat.id by lia. rewrite (proj2 (Z.leb_gt (87 + x) 57)) by lia. rewrite andb_false_r.
    rewrite (proj2 (Z.leb_le 97 _)), (proj2 (Z.leb_le _ 102)) by lia. simpl. f_equal. lia.
Qed.

Lemma hex_decode_encode l : hex_decode (hex_encode l) = Some l.
Proof.
  induction l as [|b l IH]; simpl; [done|]. pose proof (byte_val_range b). pose proof (Z.div_mod (byte_val b) 16 ltac:(lia)).
  rewrite (hex_value_digit (byte_val b / 16)) by (split; [apply Z.div_pos; lia|apply Z.div_lt_upper_bound; lia]).
  rewrite (hex_value_digit (byte_val b mod 16)) by (apply Z.mod_pos_bound; lia). simpl. rewrite IH. simpl. do 2 f_equal. rewrite <- (byte_of_Z_val b) at 3. f_equal. lia.
Qed.

(** * The sessions *)

(** The place of the first session with a code. *)
Definition find_code (code : string) (l : list SessionEntry) : option nat :=
  fst <$> list_find (fun e => se_Code e = code) l.

(** [agent/internal/store/store.go:124-134] GetSession *)
Definition GetSession (code : string) (d : storeData) : option SessionEntry :=
  snd <$> list_find (fun e => se_Code e = code) (Sessions d).
(** [agent/internal/store/store.go:138-148] GetByShareURL *)
Definition GetByShareURL (shareURL : string) (d : storeData) : option SessionEntry :=
  snd <$> list_find (fun e => se_ShareURL e = shareURL) (Sessions d).
(** [agent/internal/store/store.go:151-167] ListSessions *)
Definition ListSessions (filterExpired : bool) (now : Z) (d : storeData) : list SessionEntry :=
  if filterExpired then filter (fun e => IsZero (se_ExpiresAt e) || (now <? se_ExpiresAt e) = true) (Sessions d)
  else Sessions d.

Definition put_session (e : SessionEntry) (l : list SessionEntry) : list SessionEntry :=
  match find_code (se_Code e) l with Some i => <[i := e]> l | None => l ++ [e] end.
Definition count_up (e : SessionEntry) : SessionEntry :=
  mkSession (se_Code e) (se_ShareURL e) (se_ShareType e) (se_IsPasswordProtected e) (se_FileID e) (se_Password e)
    (se_ExpiresAt e) (se_MaxDownloads e) ((se_Downloads e + 1 + 2 ^ 63) mod 2 ^ 64 - 2 ^ 63) (se_RelayOnly e) (se_CreatedAt e).

(** * The file *)

Record World := mkWorld { st_data : storeData; st_files : files }.
Definition set_data (d : storeData) (w : World) : World := mkWorld d (st_files w).
Definition set_files (f : files) (w : World) : World := mkWorld (st_data w) f.
Abbreviation write_file := (put_file st_files set_files).
Abbreviation rename_file := (move_file st_files set_files).
Abbreviation remove_file := (drop_file st_files set_files).

Inductive store_error := ErrMarshal | ErrWrite | ErrRename | ErrNotFound (code : string) | ErrKey (e : string).
Inductive load_error := ErrRead | ErrMalformed.

Section store.
Context (zone : Z -> Z) (filePath : string).
Abbreviation tempFile := (temp_path filePath).

(** [agent/internal/store/store.go:242-263] save *)
Definition save : proc World (result unit store_error) :=
  j ← reads (fun w => data_json zone (st_data w));
  match j with
  | None => mret (Err ErrMarshal)
  | Some j =>
      written ← write_file tempFile j;
      if negb written then mret (Err ErrWrite)
      else
        renamed ← rename_file tempFile filePath;
        if (renamed : bool) then mret (Ok tt)
        else _ ← remove_file tempFile; mret (Err ErrRename)
  end.

(** What the file holds. *)
Definition stored (f : files) : result storeData load_error :=
  match f !! filePath with
  | None => Ok empty_data
  | Some c => match c ≫= decode_data with Some d => Ok d | None => Err ErrMalformed end
  end.

(** The outcomes: the file may also be unreadable.
    [agent/internal/store/store.go:223-239] load *)
Definition load (f : files) : list (result storeData load_error) := [stored f; Err ErrRead].

(** What [New] starts with, once the directory is there.
    [agent/internal/store/store.go:66-81] New *)
Definition New (f : files) : list (result World load_error) := rmap (fun d => mkWorld d f) <$> load f.

Definition change (f : list SessionEntry -> list SessionEntry) : proc World (result unit store_error) :=
  _ ← modifies (fun w => set_data (set_sessions (f (Sessions (st_data w))) (st_data w)) w); save.

(** [agent/internal/store/store.go:171-186] SaveSession *)
Definition SaveSession (e : SessionEntry) : proc World (result unit store_error) := change (put_session e).

(** [agent/internal/store/store.go:189-203] DeleteSession *)
Definition DeleteSession (code : string) : proc World (result unit store_error) :=
  found ← reads (fun w => find_code code (Sessions (st_data w)));
  match found with
  | Some i => change (delete i)
  | None => mret (Ok tt)
  end.

(** The new count comes with or without an error.
    [agent/internal/store/store.go:206-219] IncrementDownloads *)
Definition IncrementDownloads (code : string) : proc World (Z * result unit store_error) :=
  found ← reads (fun w => find_code code (Sessions (st_data w)));
  match found with
  | Some i =>
      r ← change (alter count_up i);
      n ← reads (fun w => default 0 (se_Downloads <$> Sessions (st_data w) !! i));
      mret (n, r)
  | None => mret (0, Err (ErrNotFound code))
  end.

(** With the id the UUID library makes.
    [agent/internal/store/store.go:84-96] GetAgentID *)
Definition GetAgentID (uuid : string) : proc World string :=
  id ← reads (fun w => AgentID (st_data w));
  if bool_decide (id = ""%string) then
    _ ← modifies (fun w => set_data (mkData uuid (RelayStaticPrivateHex (st_data w)) (Sessions (st_data w))) w);
    _ ← save; mret uuid
  else mret id.

(** With the key the random source makes.
    [agent/internal/store/store.go:100-121] GetRelayStaticPrivateKey *)
Definition GetRelayStaticPrivateKey (made : result bytes string) : proc World (result bytes store_error) :=
  hex ← reads (fun w => RelayStaticPrivateHex (st_data w));
  if bool_decide (hex = ""%string) then
    match made with
    | Err e => mret (Err (ErrKey e))
    | Ok key =>
        _ ← modifies (fun w => set_data (mkData (AgentID (st_data w)) (hex_encode key) (Sessions (st_data w))) w);
        r ← save;
        mret (match r with Ok _ => Ok key | Err e => Err e end)
    end
  else mret (match hex_decode hex with Some raw => Ok raw | None => Err (ErrKey "encoding/hex") end).
End store.

Section safe.
Context (zone : Z -> Z) (filePath : string).
Abbreviation temp := (temp_path filePath).

(** Saving: the file is replaced in one step, by all of the data, or stays. *)
Lemma save_spec d0 w : data_ok (st_data w) -> stored filePath (st_files w) = Ok d0 ->
  let fine w' := st_data w' = st_data w
    /\ (stored filePath (st_files w') = Ok d0 \/ stored filePath (st_files w') = Ok (st_data w)) in
  throughout fine (save zone filePath) (fun r w' => fine w' /\
    match r with Ok _ => stored filePath (st_files w') = Ok (st_data w) | Err _ => stored filePath (st_files w') = Ok d0 end) w.
Proof.
  intros Hok H0 fine. assert (forall f, f !! filePath = st_files w !! filePath -> stored filePath f = Ok d0) as Hsame.
  { intros f Hf. rewrite <- H0. unfold stored. by rewrite Hf. }
  assert (fine w) as Hw by (by split; [|left]).
  unfold save. apply throughout_bind. apply throughout_reads; [done|].
  destruct (data_json zone (st_data w)) as [j|] eqn:Hj; [|by split].
  apply (decode_data_json zone) in Hj; [|done]. apply throughout_bind. split; [done|].
  assert (forall c, fine (set_files (<[temp := c]> (st_files w)) w)) as Hwrite.
  { intros c. split; [done|]. left. apply Hsame. simpl. apply lookup_insert_ne, temp_ne. }
  intros b w1 Hin. apply elem_of_cons in Hin as [[= -> ->]|Hin].
  2:{ apply elem_of_cons in Hin as [[= -> ->]|[= -> ->]%list_elem_of_singleton]; [by split; [done|split]|].
      split; [apply Hwrite|]. split; [apply Hwrite|]. apply Hsame. simpl. apply lookup_insert_ne, temp_ne. }
  split; [apply Hwrite|]. cbn [negb]. apply throughout_bind. split; [simpl; by rewrite lookup_insert_eq|].
  intros b w2 Hin. cbn [st_files set_files] in Hin. rewrite lookup_insert_eq in Hin.
  apply elem_of_cons in Hin as [[= -> ->]|[= -> ->]%list_elem_of_singleton].
  - assert (stored filePath (st_files (set_files (<[filePath := Some j]> (delete temp (<[temp := Some j]> (st_files w)))) w))
      = Ok (st_data w)) as Hnew by (unfold stored; simpl; rewrite lookup_insert_eq; simpl; by rewrite Hj).
    split; [split; [done|by right]|]. split; [split; [done|by right]|done].
  - split; [apply Hwrite|]. apply throughout_bind. split; [done|]. intros [] w3 Hin.
    apply elem_of_cons in Hin as [[= ->]|[= ->]%list_elem_of_singleton].
    + assert (stored filePath (st_files (set_files (delete temp (<[temp := Some j]> (st_files w))) w)) = Ok d0) as Hdel.
      { apply Hsame. simpl. rewrite lookup_delete_ne, lookup_insert_ne by apply temp_ne. done. }
      split; [split; [done|by left]|]. split; [split; [done|by left]|done].
    + split; [apply Hwrite|]. split; [apply Hwrite|]. apply Hsame. simpl. apply lookup_insert_ne, temp_ne.
Qed.

(** ** The store as a map *)

Definition as_map (d : storeData) : gmap string SessionEntry := list_to_map ((fun e => (se_Code e, e)) <$> Sessions d).
Definition codes (d : storeData) : list string := se_Code <$> Sessions d.
Definition store_wf (d : storeData) : Prop := data_ok d /\ NoDup (codes d).

Lemma GetSession_map c d : GetSession c d = as_map d !! c.
Proof.
  unfold GetSession, as_map. destruct d as [ag k l]. simpl. induction l as [|e l IH]; [done|]. cbn [list_find fmap list_fmap list_to_map foldr].
  destruct (decide (se_Code e = c)) as [<-|Hne]; [by rewrite lookup_insert_eq|].
  rewrite lookup_insert_ne, <- IH by done. by destruct (list_find _ l) as [[i x]|].
Qed.

Lemma as_map_elem d c e : NoDup (codes d) -> as_map d !! c = Some e <-> e ∈ Sessions d /\ se_Code e = c.
Proof.
  intros Hnd. unfold as_map. rewrite <- elem_of_list_to_map.
  - rewrite list_elem_of_fmap. split; [intros (x&[= -> ->]&Hx); done|intros [He <-]; by exists e].
  - rewrite <- list_fmap_compose. exact Hnd.
Qed.

Lemma find_code_Some c l i : find_code c l = Some i -> exists e, l !! i = Some e /\ se_Code e = c.
Proof.
  unfold find_code. destruct (list_find _ l) as [[j e]|] eqn:Hf; [|done]. intros [= ->].
  apply list_find_Some in Hf as (Hl&Hc&_). by exists e.
Qed.
Lemma find_code_None c l : find_code c l = None -> c ∉ se_Code <$> l.
Proof.
  unfold find_code. destruct (list_find _ l) as [|] eqn:Hf; [done|]. intros _ (e&->&He)%list_elem_of_fmap.
  apply list_find_None in Hf. by eapply Forall_forall in Hf.
Qed.

Lemma absent_map c d : store_wf d -> find_code c (Sessions d) = None -> as_map d !! c = None.
Proof.
  intros Hwf Hf%find_code_None. apply eq_None_not_Some. intros [x Hx]. apply as_map_elem in Hx as [Hx <-]; [|apply Hwf].
  apply Hf. by apply list_elem_of_fmap_2.
Qed.

(** One session replaced by another of the same code. *)
Lemma replace_map d i e0 e : store_wf d -> Sessions d !! i = Some e0 -> se_Code e = se_Code e0 -> entry_ok e ->
  store_wf (set_sessions (<[i := e]> (Sessions d)) d)
  /\ as_map (set_sessions (<[i := e]> (Sessions d)) d) = <[se_Code e := e]> (as_map d).
Proof.
  intros [Hok Hnd] Hi Hc He. assert (codes (set_sessions (<[i := e]> (Sessions d)) d) = codes d) as Hcodes.
  { unfold codes. simpl. rewrite list_fmap_insert, Hc. apply list_insert_id. by rewrite list_lookup_fmap, Hi. }
  split; [split; [by apply Forall_insert|by rewrite Hcodes]|]. apply map_eq. intros c. apply option_eq. intros x.
  rewrite as_map_elem by (by rewrite Hcodes). rewrite lookup_insert_Some, as_map_elem by done. simpl.
  assert (forall j y, Sessions d !! j = Some y -> se_Code y = se_Code e -> j = i) as Huniq.
  { intros j y Hj Hy. eapply (NoDup_lookup (codes d) j i (se_Code e)); [done| |]; unfold codes; rewrite list_lookup_fmap;
      [rewrite Hj|rewrite Hi]; simpl; congruence. }
  split.
  - intros [(j&Hj)%list_elem_of_lookup <-]. apply list_lookup_insert_Some in Hj as [(<-&<-&_)|[Hne Hj]]; [by left|].
    right. split; [intros Heq; by destruct Hne; symmetry; eapply Huniq|]. split; [by eapply list_elem_of_lookup_2|done].
  - intros [[<- <-]|[Hne [(j&Hj)%list_elem_of_lookup <-]]].
    + split; [|done]. apply (list_elem_of_lookup_2 _ i), list_lookup_insert_eq. by eapply lookup_lt_Some.
    + split; [|done]. apply (list_elem_of_lookup_2 _ j). rewrite list_lookup_insert_ne; [done|]. intros <-. simplify_eq.
Qed.

Lemma append_map d e : store_wf d -> se_Code e ∉ codes d -> entry_ok e ->
  store_wf (set_sessions (Sessions d ++ [e]) d)
  /\ as_map (set_sessions (Sessions d ++ [e]) d) = <[se_Code e := e]> (as_map d).
Proof.
  intros [Hok Hnd] Hc He. assert (NoDup (codes (set_sessions (Sessions d ++ [e]) d))) as Hnd'.
  { unfold codes. simpl. rewrite fmap_app. apply NoDup_app. split_and!; [done| |apply NoDup_singleton].
    intros x Hx ->%list_elem_of_singleton. by apply Hc. }
  split; [split; [by apply Forall_app; split; [|constructor]|done]|]. apply map_eq. intros c. apply option_eq. intros x.
  rewrite as_map_elem by done. rewrite lookup_insert_Some, as_map_elem by done. simpl. rewrite elem_of_app, list_elem_of_singleton.
  split; [|naive_solver]. intros [[Hx| ->] <-]; [|by left]. right. split; [|done]. intros Heq. apply Hc.
  rewrite Heq. by apply list_elem_of_fmap_2.
Qed.

Lemma delete_map d i e0 : store_wf d -> Sessions d !! i = Some e0 ->
  store_wf (set_sessions (delete i (Sessions d)) d)
  /\ as_map (set_sessions (delete i (Sessions d)) d) = delete (se_Code e0) (as_map d).
Proof.
  intros [Hok Hnd] Hi. pose proof (take_drop_middle _ _ _ Hi) as Hl. rewrite delete_take_drop.
  set (a := take i (Sessions d)) in *. set (b := drop (S i) (Sessions d)) in *. unfold codes, data_ok in *. rewrite <- Hl in Hok, Hnd.
  rewrite fmap_app, fmap_cons in Hnd. apply NoDup_app in Hnd as (Ha&Hab&Hb). apply NoDup_cons in Hb as [Hb0 Hb].
  assert (NoDup (codes (set_sessions (a ++ b) d))) as Hnd'.
  { unfold codes. simpl. rewrite fmap_app. apply NoDup_app. split_and!; [done| |done]. intros x Hx Hxb. apply (Hab x Hx). by right. }
  split; [split; [|done]|].
  - unfold data_ok. simpl. apply Forall_app in Hok as [H1 H2%Forall_cons_1]. apply Forall_app. split; [done|apply H2].
  - apply map_eq. intros c. apply option_eq. intros x. rewrite as_map_elem by done. rewrite lookup_delete_Some, as_map_elem.
    + simpl. rewrite <- Hl, !elem_of_app, elem_of_cons. split; [|naive_solver]. intros [Hx <-]. split; [|naive_solver].
      intros Heq. destruct Hx as [Hx|Hx].
      * eapply Hab; [by apply list_elem_of_fmap_2|]. rewrite <- Heq. left.
      * apply Hb0. rewrite Heq. by apply list_elem_of_fmap_2.
    + unfold codes. rewrite <- Hl, fmap_app, fmap_cons. apply NoDup_app. split_and!; [done|done|by constructor].
Qed.

Inductive store_op := OpSave (e : SessionEntry) | OpDelete (code : string) | OpCount (code : string).
Definition run_op (o : store_op) : proc World (result unit store_error) :=
  match o with
  | OpSave e => SaveSession zone filePath e
  | OpDelete code => DeleteSession zone filePath code
  | OpCount code => '(_, r) ← IncrementDownloads zone filePath code; mret r
  end.

(** What the operation means, on the map from codes to sessions. *)
Definition spec_op (o : store_op) (m : gmap string SessionEntry) : gmap string SessionEntry :=
  match o with
  | OpSave e => <[se_Code e := e]> m
  | OpDelete code => delete code m
  | OpCount code => alter count_up code m
  end.
Definition op_ok (o : store_op) : Prop := match o with OpSave e => entry_ok e | _ => True end.
(** It has something to do. *)
Definition op_hits (o : store_op) (d : storeData) : Prop :=
  match o with OpSave _ => True | OpDelete code | OpCount code => is_Some (as_map d !! code) end.

Lemma count_up_ok e : entry_ok e -> entry_ok (count_up e).
Proof.
  intros [H1 H2]. split; [done|]. unfold int_ok. simpl. pose proof (Z.mod_pos_bound (se_Downloads e + 1 + 2 ^ 63) (2 ^ 64) ltac:(lia)). lia.
Qed.

(** Changing the sessions to those of [d1], and saving. *)
Lemma change_spec f d0 w d1 : store_wf d1 -> d1 = set_sessions (f (Sessions (st_data w))) (st_data w) ->
  stored filePath (st_files w) = Ok d0 ->
  throughout (fun w' => stored filePath (st_files w') = Ok d0 \/ stored filePath (st_files w') = Ok d1) (change zone filePath f)
    (fun r w' => st_data w' = d1 /\ match r with Ok _ => stored filePath (st_files w') = Ok d1 | Err _ => stored filePath (st_files w') = Ok d0 end) w.
Proof.
  intros Hwf -> H0. unfold change. apply throughout_bind. split; [done|]. intros [] w1 [= ->]%list_elem_of_singleton.
  split; [by left|]. set (w1 := set_data _ w). pose proof (save_spec d0 w1 (proj1 Hwf) H0) as Hs. cbv zeta in Hs.
  refine (throughout_weaken _ _ _ _ _ _ _ _ Hs).
  - by intros w' [_ Hst].
  - intros r w' [[Hd _] Hr]. by split.
Qed.

Lemma nothing_spec d0 w (r : result unit store_error) (P : Prop) : stored filePath (st_files w) = Ok d0 -> ~ P ->
  throughout (fun w' => stored filePath (st_files w') = Ok d0 \/ stored filePath (st_files w') = Ok (st_data w)) (mret r)
    (fun r w' => st_data w' = st_data w /\ match r with
      | Ok _ => P -> stored filePath (st_files w') = Ok (st_data w) | Err _ => stored filePath (st_files w') = Ok d0 end) w.
Proof. intros H0 HP. split; [done|]. by destruct r. Qed.

Lemma op_spec o d0 w : store_wf (st_data w) -> op_ok o -> stored filePath (st_files w) = Ok d0 ->
  exists d1, store_wf d1 /\ as_map d1 = spec_op o (as_map (st_data w)) /\
    throughout (fun w' => stored filePath (st_files w') = Ok d0 \/ stored filePath (st_files w') = Ok d1) (run_op o)
      (fun r w' => st_data w' = d1 /\ match r with
        | Ok _ => op_hits o (st_data w) -> stored filePath (st_files w') = Ok d1
        | Err _ => stored filePath (st_files w') = Ok d0 end) w.
Proof.
  intros Hwf Ho H0. destruct o as [e|c|c]; cbn [spec_op run_op op_hits].
  - set (l := put_session e (Sessions (st_data w))). exists (set_sessions l (st_data w)).
    assert (store_wf (set_sessions l (st_data w)) /\ as_map (set_sessions l (st_data w)) = <[se_Code e := e]> (as_map (st_data w)))
      as [Hwf1 Hm1].
    { unfold l, put_session. destruct (find_code _ _) as [i|] eqn:Hf.
      - apply find_code_Some in Hf as (e0&Hi&Hc). by apply (replace_map _ i e0).
      - apply append_map; [done| |done]. by apply find_code_None in Hf. }
    split_and!; [done..|]. eapply throughout_mono; [|by apply (change_spec (put_session e))].
    intros r w' [Hd Hr]. split; [done|]. by destruct r.
  - unfold DeleteSession. destruct (find_code c (Sessions (st_data w))) as [i|] eqn:Hf.
    + apply find_code_Some in Hf as Hf'. destruct Hf' as (e0&Hi&<-). destruct (delete_map _ i e0 Hwf Hi) as [Hwf1 Hm1].
      exists (set_sessions (delete i (Sessions (st_data w))) (st_data w)). split_and!; [done..|].
      apply throughout_read; [by left|]. rewrite Hf. eapply throughout_mono; [|by apply (change_spec (delete i))].
      intros r w' [Hd Hr]. split; [done|]. by destruct r.
    + pose proof (absent_map c _ Hwf Hf) as Hmap.
      exists (st_data w). split_and!; [done|by rewrite delete_id|]. apply throughout_read; [by left|]. rewrite Hf.
      apply nothing_spec; [done|]. rewrite Hmap. by intros [? ?].
  - unfold IncrementDownloads. destruct (find_code c (Sessions (st_data w))) as [i|] eqn:Hf.
    + apply find_code_Some in Hf as Hf'. destruct Hf' as (e0&Hi&<-).
      assert (entry_ok (count_up e0)) as He by (apply count_up_ok; eapply (Forall_lookup_1 entry_ok); [apply Hwf|exact Hi]).
      destruct (replace_map _ i e0 (count_up e0) Hwf Hi eq_refl He) as [Hwf1 Hm1].
      assert (alter count_up i (Sessions (st_data w)) = <[i := count_up e0]> (Sessions (st_data w))) as Ha
        by (apply list_eq; intros j; destruct (decide (i = j)) as [<-|Hne];
            [rewrite list_lookup_alter_eq, list_lookup_insert_eq, Hi by (by eapply lookup_lt_Some); done
            |by rewrite list_lookup_alter_ne, list_lookup_insert_ne]).
      exists (set_sessions (alter count_up i (Sessions (st_data w))) (st_data w)). rewrite Ha. split_and!; [done| |].
      { rewrite Hm1. apply map_eq. intros c. assert (as_map (st_data w) !! se_Code e0 = Some e0) as Hl
          by (apply as_map_elem; [apply Hwf|]; split; [by eapply list_elem_of_lookup_2|done]).
        destruct (decide (se_Code e0 = c)) as [<-|Hne];
          [by rewrite lookup_alter_eq, Hl, lookup_insert_eq|by rewrite lookup_alter_ne, lookup_insert_ne]. }
      apply throughout_bind. apply throughout_read; [by left|]. rewrite Hf. apply throughout_bind.
      eapply throughout_mono; [|apply (change_spec (alter count_up i)); [exact Hwf1|by rewrite Ha|exact H0]].
      intros r w' [Hd Hr]. apply throughout_read; [destruct r; [by right|by left]|]. split; [done|]. by destruct r.
    + pose proof (absent_map c _ Hwf Hf) as Hmap.
      exists (st_data w). split_and!; [done| |].
      { apply map_eq. intros c'. destruct (decide (c = c')) as [<-|Hne]; [by rewrite lookup_alter_eq, Hmap|by rewrite lookup_alter_ne]. }
      apply throughout_bind. apply throughout_read; [by left|]. rewrite Hf.
      apply nothing_spec; [done|]. rewrite Hmap. by intros [? ?].
Qed.

(** C33 (refinement). The session store is a map from codes to sessions that
    survives a crash at any moment.  Saving, deleting and counting refine the
    map's insert, delete and update; wherever the process stops, reading the
    file gives all of the old data or all of the new, never anything else; and
    an operation that returns no error has the new data in the file, one that
    returns an error the old. *)
Theorem store_crash_safe o d0 w p' w' :
  store_wf (st_data w) -> op_ok o -> stored filePath (st_files w) = Ok d0 -> reaches (run_op o) w p' w' ->
  exists d1, store_wf d1 /\ (forall c, GetSession c d1 = spec_op o (as_map (st_data w)) !! c)
    /\ (stored filePath (st_files w') = Ok d0 \/ stored filePath (st_files w') = Ok d1)
    /\ (forall r, p' = Done r -> st_data w' = d1 /\
         match r with
         | Ok _ => op_hits o (st_data w) -> stored filePath (st_files w') = Ok d1
         | Err _ => stored filePath (st_files w') = Ok d0
         end).
Proof.
  intros Hwf Ho H0 Hr. destruct (op_spec o d0 w Hwf Ho H0) as (d1&Hwf1&Hmap&Hrun). exists d1. split; [done|].
  split; [intros c; by rewrite GetSession_map, Hmap|].
  destruct (throughout_reaches _ _ _ _ _ _ (or_introl H0) Hrun Hr) as [HI HQ]. by split.
Qed.
End safe.

(** ** A session saved in a new store *)

Definition demo_entry : SessionEntry :=
  mkSession "k7" "https://cloud.example/s/x" "nextcloud" true "" "secret" (1700000000 * Second + 120000000) 5 0 false (1699000000 * Second).
Definition demo_zone : Z -> Z := fun _ => 120.
Definition demo_world : World := mkWorld empty_data ∅.

Lemma store_crash_safe_witness : exists w' d1,
  reaches (run_op demo_zone "sessions.json" (OpSave demo_entry)) demo_world (Done (Ok tt)) w'
  /\ stored "sessions.json" (st_files w') = Ok d1 /\ GetSession "k7" d1 = Some demo_entry.
Proof.
  assert ((if run_alone 20 (run_op demo_zone "sessions.json" (OpSave demo_entry)) demo_world is Some (Ok tt, _) then true else false) = true)
    as Hrun by (vm_compute; reflexivity).
  destruct (run_alone 20 _ demo_world) as [[[[]|] w']|] eqn:Hr; [|discriminate Hrun|discriminate Hrun].
  apply run_reaches in Hr. exists w'.
  destruct (store_crash_safe demo_zone "sessions.json" (OpSave demo_entry) empty_data demo_world (Done (Ok tt)) w') as (d1&_&Hget&_&Hdone).
  - split; [constructor|constructor].
  - split; split; vm_compute; congruence.
  - vm_compute. reflexivity.
  - exact Hr.
  - destruct (Hdone _ eq_refl) as [_ Hst]. exists d1. split; [exact Hr|]. split; [by apply Hst|].
    rewrite Hget. vm_compute. reflexivity.
Defined.
