(* ===== verification/Backoff.v ===== *)
(** The reconnection delays of the agent
    (agent/internal/signaling/backoff.go), in IEEE binary64 as in Go. *)

From Stdlib Require Import Floats.SpecFloat.
From S2P Require Import Prelude Float64 Json.
#[local] Open Scope Z_scope.

(** [agent/internal/signaling/backoff.go:11-11] initialBackoff *)
Definition initialBackoff : Z := 1 * Second.
(** [agent/internal/signaling/backoff.go:12-12] maxBackoff *)
Definition maxBackoff : Z := 30 * Second.
(** The constant 0.2, as the nearest binary64.
    [agent/internal/signaling/backoff.go:14-14] jitter *)
Definition jitter : float64 := f64_div (f64_of_Z 2) (f64_of_Z 10).
(** [math.Pow(2, n)] for a natural number, exact until it overflows. *)
Definition pow2 (n : Z) : float64 := binary_normalize 53 1024 1 n false.

(** [agent/internal/signaling/backoff.go:18-21] Backoff *)
Record Backoff := mkBackoff { attempt : Z }.
(** [agent/internal/signaling/backoff.go:24-26] NewBackoff *)
Definition NewBackoff : Backoff := mkBackoff 0.

(** The delay before jitter.
    [agent/internal/signaling/backoff.go:35-40] Next *)
Definition base_delay (n : Z) : Z :=
  let duration := int64_of_f64 (f64_mul (f64_of_Z initialBackoff) (pow2 n)) in
  if maxBackoff <? duration then maxBackoff else duration.

(** With [rand.Float64()]'s value [u].
    [agent/internal/signaling/backoff.go:30-48] Next *)
Definition Next (u : float64) (b : Backoff) : Z * Backoff :=
  let duration := base_delay (attempt b) in
  let jitterFactor := f64_add (f64_of_Z 1) (f64_mul jitter (f64_sub (f64_mul (f64_of_Z 2) u) (f64_of_Z 1))) in
  (int64_of_f64 (f64_mul (f64_of_Z duration) jitterFactor), mkBackoff (attempt b + 1)).

(** [agent/internal/signaling/backoff.go:51-55] Reset *)
Definition Reset (b : Backoff) : Backoff := mkBackoff 0.

(** The base delays of the attempts from [n] on. *)
Definition run_base (n : Z) (k : nat) : Z := base_delay (n + Z.of_nat k).

Lemma base_table : forallb (fun k => run_base 0 k =? Z.min (2 ^ Z.of_nat k * Second) (30 * Second)) (seq 0 34) = true.
Proof. vm_compute. reflexivity. Qed.

Lemma base_overflow_table : forallb (fun k => run_base 34 k =? - 2 ^ 63) (seq 0 990) = true.
Proof. vm_compute. reflexivity. Qed.

Lemma pow2_infinite n : 1024 <= n -> pow2 n = S754_infinity false.
Proof.
  intros Hn. unfold pow2, binary_normalize, binary_round.
  assert (fexp 53 1024 (Z.pos (digits2_pos 1) + n) = n - 52) as -> by (unfold fexp, emin; simpl; lia).
  unfold shl_align. assert (n - 52 - n = -52) as -> by lia.
  unfold binary_round_aux, shr_fexp. set (m0 := Z.pos _). assert (m0 = 2 ^ 52) as -> by (vm_compute; reflexivity).
  assert (fexp 53 1024 (Zdigits2 (2 ^ 52) + (n - 52)) - (n - 52) = 0) as Hexp.
  { assert (Zdigits2 (2 ^ 52) = 53) as -> by (vm_compute; reflexivity). unfold fexp, emin. lia. }
  assert (forall r e, shr r e 0 = (r, e)) as Hshr by done. rewrite Hexp, Hshr. set (r := shr_record_of_loc _ _).
  assert (round_nearest_even (shr_m r) (loc_of_shr_record r) = 2 ^ 52) as -> by (vm_compute; reflexivity).
  rewrite Hexp, Hshr. assert (shr_m r = Z.pos (2 ^ 52)) as -> by (vm_compute; reflexivity).
  by rewrite (proj2 (Z.leb_gt (n - 52) (1024 - 53))) by lia.
Qed.

Lemma run_base_table n m k f : forallb (fun k => run_base n k =? f (Z.of_nat k)) (seq 0 m) = true -> (k < m)%nat ->
  base_delay (n + Z.of_nat k) = f (Z.of_nat k).
Proof.
  intros Ht Hk. rewrite forallb_forall in Ht. apply Z.eqb_eq, (Ht k). apply in_seq. lia.
Qed.

(** The delay doubles from a second up to thirty, for the first 34
    attempts.  From the 35th on, the doubled delay does not fit a Duration: its
    conversion gives the smallest one, which is below the cap, so without
    jitter the agent reconnects with no delay at all until it succeeds. *)
Theorem backoff_doubles_then_vanishes :
  (forall n, 0 <= n < 34 -> base_delay n = Z.min (2 ^ n * Second) maxBackoff)
  /\ (forall n, 34 <= n -> base_delay n = - 2 ^ 63
        /\ (Next (f64_div (f64_of_Z 1) (f64_of_Z 2)) (mkBackoff n)).1 = - 2 ^ 63).
Proof.
  split.
  - intros n Hn. pose proof (run_base_table 0 34 (Z.to_nat n) (fun k => Z.min (2 ^ k * Second) (30 * Second)) base_table) as Ht.
    rewrite Z2Nat.id in Ht by lia. apply Ht. lia.
  - intros n Hn. assert (base_delay n = - 2 ^ 63) as Hb.
    { destruct (Z.ltb_spec n 1024) as [Hlt|Hge].
      - pose proof (run_base_table 34 990 (Z.to_nat (n - 34)) (fun _ => - 2 ^ 63) base_overflow_table) as Ht.
        rewrite Z2Nat.id in Ht by lia. replace (34 + (n - 34)) with n in Ht by lia. apply Ht. lia.
      - unfold base_delay. rewrite pow2_infinite by done. vm_compute. reflexivity. }
    split; [done|]. unfold Next. cbn [attempt]. rewrite Hb. vm_compute. reflexivity.
Qed.
