(* ===== verification/SignalingClient.v ===== *)
(** The agent's side of the signaling connection
    (agent/internal/signaling/client.go): the messages, registering a share
    while [Listen] reads, and the start of a single session
    (agent/cmd/agent/main.go).  The websocket is third-party code: messages
    arrive by steps of the environment, and a write may fail. *)

From S2P Require Import Prelude Conc Json.
#[local] Open Scope Z_scope.

(** * Messages *)

(** [agent/internal/signaling/client.go:16-20] ICEServer *)
Record ICEServer := mkICE { URLs : list string; Username : string; Credential : string }.

(** [agent/internal/signaling/client.go:23-39] Message *)
Record Message := mkMessage {
  m_Type : string; m_SessionID : string; m_PeerID : string; m_SDP : string; m_Candidate : option json; m_Err : string;
  m_Code : string; m_ConnID : string; m_HMAC : string; m_Password : string; m_Reconnected : bool;
  m_ICEServers : list ICEServer; m_SID : string; m_RelayJWT : string; m_ExpiresAt : string }.

Definition dec_url (v : json) : option string := match v with JStr s => Some s | JNull => Some ""%string | _ => None end.
Definition dec_urls (v : json) : option (list string) := match v with JArr l => mapM dec_url l | _ => None end.
Definition dec_server (v : json) : option ICEServer :=
  match v with
  | JObj o =>
      urls ← field dec_urls "urls" [] o; name ← field dec_str "username" ""%string o;
      credential ← field dec_str "credential" ""%string o; Some (mkICE urls name credential)
  | JNull => Some (mkICE [] "" "")
  | _ => None
  end.
Definition dec_servers (v : json) : option (list ICEServer) := match v with JArr l => mapM dec_server l | _ => None end.

Definition decode_obj (o : obj) : option Message :=
  let str k := field dec_str k ""%string o in
  type ← str "type"%string; session ← str "session_id"%string; peer ← str "peer_id"%string; sdp ← str "sdp"%string;
  candidate ← field_with (const (Some JNull)) (fun v => Some (Some v)) "candidate" None o;
  err ← str "message"%string; code ← str "code"%string; conn ← str "conn_id"%string; hmac ← str "hmac"%string;
  password ← str "password"%string; reconnected ← field dec_bool "reconnected" false o;
  servers ← field dec_servers "ice_servers" [] o; sid ← str "sid"%string; jwt ← str "relay_jwt"%string;
  expires ← str "expires_at"%string;
  Some (mkMessage type session peer sdp candidate err code conn hmac password reconnected servers sid jwt expires).
(** [json.Unmarshal(data, &msg)], of what the data is as JSON.
    [agent/internal/signaling/client.go:23-39] Message *)
Definition decode_message (v : option json) : option Message :=
  match v with Some (JObj o) => decode_obj o | Some JNull => decode_obj [] | _ => None end.

(** [agent/internal/signaling/client.go:41-48] RegisterShareOptions *)
Record RegisterShareOptions := mkOptions {
  ShareURL : string; PreferredCode : string; ShareType : string; IsPasswordProtected : bool; RelayOnly : bool;
  RelayStaticPub : string }.

Definition if_set (k v : string) : obj := if bool_decide (v = ""%string) then [] else [(k, JStr v)].
(** [agent/internal/signaling/client.go:130-146] RegisterShareWithOptions *)
Definition register_obj (o : RegisterShareOptions) : obj :=
  [("type"%string, JStr "register_share"); ("share_url"%string, JStr (ShareURL o)); ("relay_only"%string, JBool (RelayOnly o))]
  ++ if_set "code" (PreferredCode o) ++ if_set "share_type" (ShareType o)
  ++ (if IsPasswordProtected o then [("is_password_protected"%string, JBool true)] else [])
  ++ if_set "relay_static_pub" (RelayStaticPub o).

(** * The client *)

Inductive connection := NoConn | Open | Closed.
(** [agent/internal/signaling/client.go:51-66] Client *)
Record Client := mkClient { c_agentID : string; c_conn : connection; iceServers : list ICEServer; pendingReg : option nat }.

Inductive effect :=
| Wrote (m : obj)
| Handled (m : Message)
| SessionReady (code : string) (reconnected : bool).

(** Registration channels hold one message.  [w_inbox] is what has arrived and
    not been read; a context is an index of [w_done]. *)
Record World := mkWorld {
  w_client : Client; w_chans : list (list Message); w_inbox : list (option json); w_done : list bool; w_log : list effect }.
Definition set_client c w := mkWorld c (w_chans w) (w_inbox w) (w_done w) (w_log w).
Definition set_chans x w := mkWorld (w_client w) x (w_inbox w) (w_done w) (w_log w).
Definition set_inbox x w := mkWorld (w_client w) (w_chans w) x (w_done w) (w_log w).
Definition set_done x w := mkWorld (w_client w) (w_chans w) (w_inbox w) x (w_log w).
Definition add_log e w := mkWorld (w_client w) (w_chans w) (w_inbox w) (w_done w) (w_log w ++ [e]).
Definition ctx_done (c : nat) (w : World) : bool := default false (w_done w !! c).
Definition with_conn (x : connection) (c : Client) : Client := mkClient (c_agentID c) x (iceServers c) (pendingReg c).
Definition with_servers (x : list ICEServer) (c : Client) : Client := mkClient (c_agentID c) (c_conn c) x (pendingReg c).
Definition with_pending (x : option nat) (c : Client) : Client := mkClient (c_agentID c) (c_conn c) (iceServers c) x.

Abbreviation handler := (proc World).

(** [agent/internal/signaling/client.go:68-74] New *)
Definition New (agentID : string) : Client := mkClient agentID NoConn [] None.

Inductive client_error := ErrWrite | ErrDial | ErrHello | ErrBusy | ErrSend | ErrServer (message : string) | ErrContext | ErrRead.

(** Before [Connect] the connection is nil and the call panics: it has no outcome.
    [agent/internal/signaling/client.go:176-182] Send *)
Definition Send (m : obj) : handler (result unit client_error) :=
  choices (fun w => match c_conn (w_client w) with
                    | NoConn => []
                    | Open => [(Ok tt, add_log (Wrote m) w); (Err ErrWrite, w)]
                    | Closed => [(Err ErrWrite, w)]
                    end).

(** [agent/internal/signaling/client.go:77-100] Connect *)
Definition Connect : handler (result unit client_error) :=
  dialed ← choices (fun w => [(true, set_client (with_conn Open (w_client w)) w); (false, w)]);
  if negb dialed then mret (Err ErrDial)
  else
    id ← reads (fun w => c_agentID (w_client w));
    sent ← Send [("type"%string, JStr "hello"); ("version"%string, JStr "1.0"); ("agent_id"%string, JStr id)];
    match sent with
    | Ok _ => mret (Ok tt)
    | Err _ => _ ← modifies (fun w => set_client (with_conn Closed (w_client w)) w); mret (Err ErrHello)
    end.

(** [agent/internal/signaling/client.go:115-160] RegisterShareWithOptions *)
Definition RegisterShareWithOptions (ctx : nat) (opts : RegisterShareOptions) : handler (result (string * bool) client_error) :=
  r ← atomic (fun w =>
    match pendingReg (w_client w) with
    | Some _ => (None, w)
    | None => let ch := length (w_chans w) in
              (Some ch, set_chans (w_chans w ++ [[]]) (set_client (with_pending (Some ch) (w_client w)) w))
    end);
  match r with
  | None => mret (Err ErrBusy)
  | Some ch =>
      with_defer (modifies (fun w => set_client (with_pending None (w_client w)) w)) (
        sent ← Send (register_obj opts);
        match sent with
        | Err _ => mret (Err ErrSend)
        | Ok _ =>
            r ← choices (fun w =>
              match w_chans w !! ch with
              | Some (m :: rest) => [(Some m, set_chans (<[ch := rest]> (w_chans w)) w)]
              | _ => []
              end ++ if ctx_done ctx w then [(None, w)] else []);
            match r with
            | None => mret (Err ErrContext)
            | Some m => if bool_decide (m_Type m = "error"%string) then mret (Err (ErrServer (m_Err m)))
                        else mret (Ok (m_Code m, m_Reconnected m))
            end
        end)
  end.

(** [agent/internal/signaling/client.go:106-113] RegisterShare *)
Definition RegisterShare (ctx : nat) (shareURL preferredCode : string) (relayOnly : bool) (relayStaticPub : string)
    : handler (result (string * bool) client_error) :=
  RegisterShareWithOptions ctx (mkOptions shareURL preferredCode "" false relayOnly relayStaticPub).

(** [agent/internal/signaling/client.go:162-164] UnregisterShare *)
Definition UnregisterShare (code : string) : handler (result unit client_error) :=
  Send [("type"%string, JStr "unregister_share"); ("code"%string, JStr code)].
(** [agent/internal/signaling/client.go:167-173] DownloadComplete *)
Definition DownloadComplete (code : string) (bytesTransferred : Z) : handler (result unit client_error) :=
  Send [("type"%string, JStr "download_complete"); ("code"%string, JStr code); ("bytes_transferred"%string, JNum bytesTransferred)].
(** [agent/internal/signaling/client.go:185-189] GetICEServers *)
Definition GetICEServers : handler (list ICEServer) := reads (fun w => iceServers (w_client w)).

(** A ping at each tick, until the context is done or a ping fails.
    [agent/internal/signaling/client.go:199-212] Listen *)
Definition keepalive (ctx own : nat) : handler unit :=
  Iter tt (fun _ =>
    tick ← choices (fun w => (true, w) :: if ctx_done ctx w || ctx_done own w then [(false, w)] else []);
    if (tick : bool)
    then choices (fun w => match c_conn (w_client w) with Open => [(inl tt, w); (inr tt, w)] | _ => [(inr tt, w)] end)
    else mret (inr tt)) Done.

(** What is done with a message; a registration takes it when one is waiting
    and its channel has room, and blocks when it has none.
    [agent/internal/signaling/client.go:224-252] Listen *)
Definition dispatch (onMessage : bool) (msg : Message) : handler unit :=
  _ ← (if bool_decide (m_Type msg = "welcome"%string) && (0 <? len (m_ICEServers msg))
       then modifies (fun w => set_client (with_servers (m_ICEServers msg) (w_client w)) w) else mret tt);
  ch ← (if bool_decide (m_Type msg = "share_registered"%string) || bool_decide (m_Type msg = "error"%string)
        then reads (fun w => pendingReg (w_client w)) else mret None);
  match ch with
  | Some ch =>
      choices (fun w => match w_chans w !! ch with
                        | Some [] => [(tt, set_chans (<[ch := [msg]]> (w_chans w)) w)]
                        | _ => []
                        end)
  | None => if onMessage then modifies (add_log (Handled msg)) else mret tt
  end.

(** [agent/internal/signaling/client.go:194-253] Listen *)
Definition Listen (ctx : nat) (onMessage : bool) : handler client_error :=
  own ← atomic (fun w => (length (w_done w), set_done (w_done w ++ [false]) w));
  with_defer (modifies (fun w => set_done (<[own := true]> (w_done w)) w)) (
    _ ← Spawn (keepalive ctx own) (mret tt);
    Iter tt (fun _ =>
      r ← choices (fun w =>
        match w_inbox w with data :: rest => [(Some data, set_inbox rest w)] | [] => [] end
        ++ match c_conn (w_client w) with Open => if ctx_done ctx w then [(None, w)] else [] | _ => [(None, w)] end);
      match r with
      | None => mret (inr ErrRead)
      | Some data =>
          match decode_message data with
          | None => mret (inl tt)
          | Some msg => _ ← dispatch onMessage msg; mret (inl tt)
          end
      end) Done).

(** * A single session *)

Section single.
Context (ctx : nat) (shareURL preferredCode : string) (relayStaticPub : result string string).

(** The start of a session without the daemon, up to the registration; the
    caller goes on with [Listen] when there is a code.
    [agent/cmd/agent/main.go:354-380] runSession *)
Definition runSession (relayOnly : bool) : handler (option string) :=
  if relayOnly then mret None
  else
    connected ← Connect;
    match connected, relayStaticPub with
    | Err _, _ | _, Err _ => mret None
    | Ok _, Ok pub =>
        r ← RegisterShare ctx shareURL preferredCode relayOnly pub;
        match r with
        | Err _ => mret None
        | Ok (code, reconnected) => _ ← modifies (add_log (SessionReady code reconnected)); mret (Some code)
        end
    end.

(** The session, and [Listen] after its start.
    [agent/cmd/agent/main.go:612-617] runSession *)
Definition single_session (relayOnly : bool) : handler unit :=
  code ← runSession relayOnly;
  match code with Some _ => _ ← Listen ctx true; mret tt | None => mret tt end.

(** Messages arrive, the connection closes, contexts are cancelled. *)
Definition network (w w' : World) : Prop :=
  exists inbox conn ds, w' = set_done ds (set_inbox inbox (set_client (with_conn conn (w_client w)) w)).

(** Nothing was handed to a registration. *)
Definition unanswered (w : World) : Prop := Forall (fun c => c = []) (w_chans w) /\ Forall (fun e => match e with SessionReady _ _ => False | _ => True end) (w_log w).

Abbreviation swp := (wp (fun _ _ => True) (fun _ _ => True) unanswered).
#[local] Instance any_pre : PreOrder (fun _ _ : World => True).
Proof. by split. Qed.

Lemma swp_choices {B} (f : World -> list (B * World)) (Q : B -> World -> Prop) w :
  (forall w1 b w2, unanswered w1 -> (b, w2) ∈ f w1 -> unanswered w2 /\ forall w3, Q b w3) -> swp (choices f) Q w.
Proof. intros Hf. apply wp_choices. intros w1 _ Hi b w2 Hin. destruct (Hf w1 b w2 Hi Hin). auto. Qed.

Lemma swp_bind {A B} (p : handler A) (g : A -> handler B) (Q : A -> World -> Prop) (Q' : B -> World -> Prop) w :
  swp p Q w -> (forall a w', Q a w' -> swp (g a) Q' w') -> swp (p ≫= g) Q' w.
Proof. intros Hp Hg. apply wp_mbind; [apply _|]. eapply wp_mono; [|exact Hp]. auto. Qed.

Lemma swp_ret {A} (a : A) (Q : A -> World -> Prop) w : (forall w, Q a w) -> swp (mret a) Q w.
Proof. intros HQ. by apply wp_mret. Qed.

Lemma unanswered_wrote m w : unanswered w -> unanswered (add_log (Wrote m) w).
Proof. intros [H1 H2]. split; [done|]. simpl. apply Forall_app. split; [done|]. by constructor. Qed.

Lemma swp_Send m Q w : (forall r w, Q r w) -> swp (Send m) Q w.
Proof.
  intros HQ. apply swp_choices. intros w1 r w2 Hi Hin. split; [|auto]. destruct (c_conn _).
  - by apply elem_of_nil in Hin.
  - apply elem_of_cons in Hin as [[= -> ->]|[= -> ->]%list_elem_of_singleton]; [by apply unanswered_wrote|done].
  - by apply list_elem_of_singleton in Hin as [= -> ->].
Qed.

Lemma swp_one {B} (f : World -> B * World) Q w : (forall w, unanswered w -> unanswered (f w).2) -> (forall b w, Q b w) -> swp (atomic f) Q w.
Proof.
  intros Hf HQ. apply swp_choices. intros w1 b w2 Hi Hin%list_elem_of_singleton. split; [|auto].
  specialize (Hf w1 Hi). by rewrite <- Hin in Hf.
Qed.

Lemma swp_Connect Q w : (forall r w, Q r w) -> swp Connect Q w.
Proof.
  intros HQ. unfold Connect. eapply (swp_bind _ _ (fun _ _ => True)).
  - apply swp_choices. intros w1 b w2 Hi Hin. split; [|done].
    by apply elem_of_cons in Hin as [[= -> ->]|[= -> ->]%list_elem_of_singleton].
  - intros [|] w1 _; cbn [negb]; [|by apply swp_ret]. eapply (swp_bind _ _ (fun _ _ => True)); [by apply (swp_one (fun w => (_, w)))|].
    intros id w2 _. eapply (swp_bind _ _ (fun _ _ => True)); [by apply swp_Send|]. intros [u|e] w3 _; [by apply swp_ret|].
    eapply (swp_bind _ _ (fun _ _ => True)); [|intros [] w4 _; by apply swp_ret]. by apply (swp_one (fun w => (tt, _ w))).
Qed.

(** Without [Listen], a registration is never answered. *)
Lemma swp_Register opts w : swp (RegisterShareWithOptions ctx opts) (fun r _ => is_ok r = false) w.
Proof.
  unfold RegisterShareWithOptions. eapply (swp_bind _ _ (fun _ _ => True)).
  { apply swp_one; [|done]. intros w1 [H1 H2]. destruct (pendingReg _); [done|]. split; [|done]. simpl.
    apply Forall_app. split; [done|]. by constructor. }
  intros [ch|] w1 _; [|by apply swp_ret]. unfold with_defer. eapply (swp_bind _ _ (fun r _ => is_ok r = false)).
  - eapply (swp_bind _ _ (fun _ _ => True)); [by apply swp_Send|]. intros [u|e] w2 _; [|by apply swp_ret].
    eapply (swp_bind _ _ (fun (r : option Message) _ => r = None)).
    + apply swp_choices. intros w3 r w4 Hi Hin. destruct (w_chans w3 !! ch) as [l|] eqn:Hl.
      * destruct Hi as [H1 H2]. pose proof (Forall_lookup_1 _ _ _ _ H1 Hl) as ->. simpl in Hin.
        destruct (ctx_done ctx w3); [|by apply elem_of_nil in Hin]. by apply list_elem_of_singleton in Hin as [= -> ->].
      * simpl in Hin. destruct (ctx_done ctx w3); [|by apply elem_of_nil in Hin]. by apply list_elem_of_singleton in Hin as [= -> ->].
    + intros r w3 ->. by apply swp_ret.
  - intros r w2 Hr. eapply (swp_bind _ _ (fun _ _ => True)); [by apply (swp_one (fun w => (tt, _ w)))|].
    intros [] w3 _. by apply swp_ret.
Qed.

(** A single session (the agent without its daemon) never
    becomes ready, whatever the server sends and whatever the network does: it
    waits for the answer to its registration, and the only reader of the
    connection is [Listen], which it starts after the answer. *)
Theorem single_session_never_ready relayOnly w0 ps w :
  w_chans w0 = [] -> w_log w0 = [] ->
  rtc (sys_step (fun _ _ => False) network) ([single_session relayOnly], w0) (ps, w) ->
  forall code reconnected, SessionReady code reconnected ∉ w_log w.
Proof.
  intros Hc Hl Hr code reconnected Hin.
  destruct (sys_reach_ok (fun _ _ => True) (fun _ _ => True) unanswered (fun _ _ => False) network) with (c := ([single_session relayOnly], w0)) (c' := (ps, w))
    as [[[_ Hlog] _] _]; [done|..|exact Hr|].
  - intros w1 w2 Hi (inbox&conn&ds&->). by split.
  - done.
  - split; [unfold unanswered; simpl; rewrite Hc, Hl; by split|]. constructor; [|constructor]. unfold single_session.
    eapply (swp_bind _ _ (fun r _ => r = None)).
    + unfold runSession. destruct relayOnly; [by apply swp_ret|]. eapply (swp_bind _ _ (fun _ _ => True)); [by apply swp_Connect|].
      intros [u|e] w1 _; [|by apply swp_ret]. destruct relayStaticPub as [pub|e]; [|by apply swp_ret].
      eapply (swp_bind _ _ (fun r _ => is_ok r = false)); [apply swp_Register|]. intros [[c b]|e] w2 Hok; [done|]. by apply swp_ret.
    + intros r w1 ->. by apply swp_ret.
  - simpl in Hlog. rewrite Forall_forall in Hlog. by apply (Hlog _ Hin).
Qed.
End single.

(** A session whose registration the server answers: the answer waits unread. *)
Definition demo_world : World := mkWorld (New "agent") [] [] [false] [].
Definition demo_answer : json := JObj [("type"%string, JStr "share_registered"); ("code"%string, JStr "k7")].
Definition demo_moves : list (move World) :=
  [Run 0 0; Run 0 0; Run 0 0; Run 0 0; Run 0 0; Env (set_inbox [Some demo_answer])]%nat.
Definition demo_program : proc World unit := single_session 0 "https://cloud.example/s/x" "" (Ok "04aa"%string) false.

Lemma single_session_never_ready_witness : exists ps w,
  rtc (sys_step (fun _ _ => False) network) ([demo_program], demo_world) (ps, w)
  /\ w_inbox w = [Some demo_answer] /\ length (w_log w) = 2%nat /\ SessionReady "k7" false ∉ w_log w.
Proof.
  assert ((if run_moves demo_moves ([demo_program], demo_world) is Some c
           then bool_decide (w_inbox c.2 = [Some demo_answer]) && (length (w_log c.2) =? 2)%nat else false) = true) as Hrun
    by (vm_compute; reflexivity).
  destruct (run_moves demo_moves ([demo_program], demo_world)) as [[ps w]|] eqn:Hm; [|discriminate Hrun].
  assert (rtc (sys_step (fun _ _ => False) network) ([demo_program], demo_world) (ps, w)) as Hreach.
  { eapply run_moves_reach; [|exact Hm]. repeat constructor. intros w1. exists [Some demo_answer], (c_conn (w_client w1)), (w_done w1).
    by destruct w1 as [[] ? ? ? ?]. }
  apply andb_prop in Hrun as [H1%bool_decide_eq_true_1 H2%Nat.eqb_eq]. exists ps, w. split_and!; [exact Hreach|exact H1|exact H2|].
  exact (single_session_never_ready 0 "https://cloud.example/s/x" "" (Ok "04aa"%string) false demo_world ps w eq_refl eq_refl Hreach "k7" false).
Defined.
