(* ===== verification/DaemonState.v ===== *)
(** The agent's daemon, its state (agent/internal/daemon/daemon.go): the
    sessions (shared objects, so references into a store), the nonces, the
    peers and relay channels that exist, and the log of what the daemon asks of
    the signaling server, the peers and the channels.  Each critical section,
    call of another package and send is one action. *)

From S2P Require Import Prelude Conc Json Config Store SignalingClient.
#[local] Open Scope Z_scope.

(** * Data *)

(** [agent/internal/daemon/daemon.go:32-35] nonceEntry *)
Record nonceEntry := mkNonce { n_nonce : string; n_expiresAt : Z }.

(** A shared link of the photo library. *)
Record SharedLink := mkLink { l_Key : string; l_Type : string; l_IsPasswordProtected : bool }.

(** The packages the daemon calls: the storage clients, with the state of the
    storages they ask, P-256, and which candidates the WebRTC library can read.
    [agent/internal/daemon/daemon.go:52-58] immichAuthenticator *)
Class Backends := {
  remote : Type;
  webdav : Type;
  new_webdav : string -> string -> list string -> string -> result webdav string;
  GetRootFileID : webdav -> remote -> result string string;
  immich : Type;
  new_immich : Config -> string -> result immich string;
  ValidatePassword : immich -> string -> remote -> result bool string;
  PollShares : immich -> remote -> result (list SharedLink) string;
  public_key : bytes -> result bytes string;
  candidate_ok : json -> bool }.

Section state.
Context `{Backends}.

(** A peer or a relay channel is its index.
    [agent/internal/daemon/daemon.go:215-234] Session *)
Record Session := mkSession {
  s_Code : string; s_ShareURL : string; s_ShareType : string; s_FileID : string; s_Password : string; s_ExpiresAt : Z;
  s_MaxDownloads : Z; s_RelayOnly : bool; s_CreatedAt : Z; s_IsPasswordProtected : bool;
  immichClient : option immich; webdavClient : option webdav;
  s_Downloads : Z; peers : gmap string nat; relayChannels : gmap string nat; closing : bool }.

(** What no one changes after a session is made. *)
Record share := mkShare {
  sh_Code : string; sh_Type : string; sh_Password : string; sh_Protected : bool; sh_RelayOnly : bool; sh_client : option immich }.
Definition share_of (s : Session) : share :=
  mkShare (s_Code s) (s_ShareType s) (s_Password s) (s_IsPasswordProtected s) (s_RelayOnly s) (immichClient s).

Definition with_resources (ps rs : gmap string nat) (c : bool) (s : Session) : Session :=
  mkSession (s_Code s) (s_ShareURL s) (s_ShareType s) (s_FileID s) (s_Password s) (s_ExpiresAt s) (s_MaxDownloads s)
    (s_RelayOnly s) (s_CreatedAt s) (s_IsPasswordProtected s) (immichClient s) (webdavClient s) (s_Downloads s) ps rs c.
Definition with_downloads (n : Z) (s : Session) : Session :=
  mkSession (s_Code s) (s_ShareURL s) (s_ShareType s) (s_FileID s) (s_Password s) (s_ExpiresAt s) (s_MaxDownloads s)
    (s_RelayOnly s) (s_CreatedAt s) (s_IsPasswordProtected s) (immichClient s) (webdavClient s) n (peers s) (relayChannels s) (closing s).

(** The peer connections made, with the [sync.Once] of their activation. *)
Record peer := mkPeer { p_session : nat; p_id : string; p_code : string; p_activated : bool }.
(** The relay channels made, with the two [sync.Once]s. *)
Record relay := mkRelay { r_session : nat; r_sid : string; r_activated : bool; r_removed : bool }.

(** What the daemon did, in order; [Received], [NonceStored], [NonceTaken],
    [Validated] and [Authorized] note what its decisions rest on. *)
Inductive effect :=
| Sent (m : obj)
| PeerMade (p : nat) (conn code : string) (servers : list ICEServer) (relayOnly : bool)
| PeerClosed (p : nat)
| PeerAnswer (p : nat) (sdp : string)
| PeerCandidate (p : nat) (candidate : json)
| RelayMade (c : nat) (sid jwt : string)
| RelayStarted (c : nat)
| RelayText (c : nat) (m : obj)
| RelayClosed (c : nat)
| Activated (s : nat) (gallery : bool) (maxDownloads downloads : Z)
| SessionAdded (s : nat)
| SessionRemoved (code : string)
| Received (m : Message)
| NonceStored (conn nonce : string) (now : Z)
| NonceTaken (conn nonce : string) (now : Z)
| Validated (s : nat) (password : string)
| Authorized (s : nat) (conn : string).

(** [w_answers] are the server's answers to registrations, [w_random] the bytes
    the random source gives, [w_offer] the offer the next peer makes. *)
Record World := mkWorld {
  d_config : Config; d_sessions : gmap string nat; d_heap : list Session; d_nonces : gmap string nonceEntry;
  d_peers : list peer; d_relays : list relay; d_store : storeData; d_connected : bool; d_hasTURN : bool;
  w_ice : list ICEServer; w_answers : list (result (string * bool) string); w_random : list bytes; w_offer : string;
  w_remote : remote; w_now : Z; w_done : bool; w_log : list effect }.

Definition set_config x w := mkWorld x (d_sessions w) (d_heap w) (d_nonces w) (d_peers w) (d_relays w) (d_store w) (d_connected w) (d_hasTURN w) (w_ice w) (w_answers w) (w_random w) (w_offer w) (w_remote w) (w_now w) (w_done w) (w_log w).
Definition set_table x w := mkWorld (d_config w) x (d_heap w) (d_nonces w) (d_peers w) (d_relays w) (d_store w) (d_connected w) (d_hasTURN w) (w_ice w) (w_answers w) (w_random w) (w_offer w) (w_remote w) (w_now w) (w_done w) (w_log w).
Definition set_heap x w := mkWorld (d_config w) (d_sessions w) x (d_nonces w) (d_peers w) (d_relays w) (d_store w) (d_connected w) (d_hasTURN w) (w_ice w) (w_answers w) (w_random w) (w_offer w) (w_remote w) (w_now w) (w_done w) (w_log w).
Definition set_nonces x w := mkWorld (d_config w) (d_sessions w) (d_heap w) x (d_peers w) (d_relays w) (d_store w) (d_connected w) (d_hasTURN w) (w_ice w) (w_answers w) (w_random w) (w_offer w) (w_remote w) (w_now w) (w_done w) (w_log w).
Definition set_peers x w := mkWorld (d_config w) (d_sessions w) (d_heap w) (d_nonces w) x (d_relays w) (d_store w) (d_connected w) (d_hasTURN w) (w_ice w) (w_answers w) (w_random w) (w_offer w) (w_remote w) (w_now w) (w_done w) (w_log w).
Definition set_relays x w := mkWorld (d_config w) (d_sessions w) (d_heap w) (d_nonces w) (d_peers w) x (d_store w) (d_connected w) (d_hasTURN w) (w_ice w) (w_answers w) (w_random w) (w_offer w) (w_remote w) (w_now w) (w_done w) (w_log w).
Definition set_store x w := mkWorld (d_config w) (d_sessions w) (d_heap w) (d_nonces w) (d_peers w) (d_relays w) x (d_connected w) (d_hasTURN w) (w_ice w) (w_answers w) (w_random w) (w_offer w) (w_remote w) (w_now w) (w_done w) (w_log w).
Definition set_connected x w := mkWorld (d_config w) (d_sessions w) (d_heap w) (d_nonces w) (d_peers w) (d_relays w) (d_store w) x (d_hasTURN w) (w_ice w) (w_answers w) (w_random w) (w_offer w) (w_remote w) (w_now w) (w_done w) (w_log w).
Definition set_turn x w := mkWorld (d_config w) (d_sessions w) (d_heap w) (d_nonces w) (d_peers w) (d_relays w) (d_store w) (d_connected w) x (w_ice w) (w_answers w) (w_random w) (w_offer w) (w_remote w) (w_now w) (w_done w) (w_log w).
Definition set_answers x w := mkWorld (d_config w) (d_sessions w) (d_heap w) (d_nonces w) (d_peers w) (d_relays w) (d_store w) (d_connected w) (d_hasTURN w) (w_ice w) x (w_random w) (w_offer w) (w_remote w) (w_now w) (w_done w) (w_log w).
Definition set_random x w := mkWorld (d_config w) (d_sessions w) (d_heap w) (d_nonces w) (d_peers w) (d_relays w) (d_store w) (d_connected w) (d_hasTURN w) (w_ice w) (w_answers w) x (w_offer w) (w_remote w) (w_now w) (w_done w) (w_log w).
Definition add_log e w := mkWorld (d_config w) (d_sessions w) (d_heap w) (d_nonces w) (d_peers w) (d_relays w) (d_store w) (d_connected w) (d_hasTURN w) (w_ice w) (w_answers w) (w_random w) (w_offer w) (w_remote w) (w_now w) (w_done w) (w_log w ++ [e]).

Definition upd_session (s : nat) (f : Session -> Session) (w : World) : World := set_heap (alter f s (d_heap w)) w.

Abbreviation handler := (proc World).

(** ** Actions *)

Definition log (e : effect) : handler unit := modifies (add_log e).
(** [d.signaling.Send], whose error is not looked at. *)
Definition send (m : obj) : handler unit := choices (fun w => [(tt, add_log (Sent m) w); (tt, w)]).
(** The same, where it is. *)
Definition send_err (m : obj) : handler (result unit string) :=
  choices (fun w => [(Ok tt, add_log (Sent m) w); (Err "write"%string, w)]).
Definition get_now : handler Z := reads w_now.
Definition ask {A} (f : remote -> A) : handler A := reads (fun w => f (w_remote w)).
Definition get_config : handler Config := reads d_config.
(** [crypto/rand.Read]: bytes, or an error; it waits for the source. *)
Definition random : handler (option bytes) :=
  choices (fun w => (None, w) :: match w_random w with b :: l => [(Some b, set_random l w)] | [] => [] end).
(** [RegisterShare] and [RegisterShareWithOptions]: the request, and its answer,
    unless the caller's context is done first. *)
Definition register (opts : RegisterShareOptions) : handler (result (string * bool) string) :=
  sent ← send_err (register_obj opts);
  match sent with
  | Err e => mret (Err e)
  | Ok _ => choices (fun w => match w_answers w with r :: l => [(r, set_answers l w)] | [] => [] end
                              ++ [(Err "context canceled"%string, w)])
  end.

(** In whatever order a map is ranged over. *)
Definition in_any_order {A} (f : World -> list A) : handler (list A) :=
  choices (fun w => (fun l => (l, w)) <$> permutations (f w)).

(** The session under a code. *)
Definition lookup (code : string) : handler (option nat) := reads (fun w => d_sessions w !! code).
Definition get_session (s : nat) (w : World) : option Session := d_heap w !! s.
(** Fields of a session: of one that does not exist, none. *)
Definition field_of {A} (f : Session -> A) (default : A) (s : nat) (w : World) : A :=
  match d_heap w !! s with Some x => f x | None => default end.

(** ** The store *)

(** An operation of the store that changes the sessions: it happens in memory,
    and saving it may fail. *)
Definition store_change (f : list SessionEntry -> list SessionEntry) : handler (result unit string) :=
  choices (fun w => let w := set_store (set_sessions (f (Sessions (d_store w))) (d_store w)) w in
                    [(Ok tt, w); (Err "save"%string, w)]).
Definition store_save (e : SessionEntry) : handler (result unit string) := store_change (put_session e).
Definition store_delete (code : string) : handler (result unit string) :=
  choices (fun w =>
    match find_code code (Sessions (d_store w)) with
    | Some i => let w := set_store (set_sessions (delete i (Sessions (d_store w))) (d_store w)) w in
                [(Ok tt, w); (Err "save"%string, w)]
    | None => [(Ok tt, w)]
    end).
Definition store_count (code : string) : handler (result unit string) :=
  choices (fun w =>
    match find_code code (Sessions (d_store w)) with
    | Some i => let w := set_store (set_sessions (alter count_up i (Sessions (d_store w))) (d_store w)) w in
                [(Ok tt, w); (Err "save"%string, w)]
    | None => [(Err "not found"%string, w)]
    end).
(** [d.store.GetRelayStaticPrivateKey()]: the key is made the first time. *)
Definition store_key : handler (result bytes string) :=
  choices (fun w =>
    let key := RelayStaticPrivateHex (d_store w) in
    if bool_decide (key = ""%string) then
      (Err "generate relay static key"%string, w)
      :: match w_random w with
         | b :: l => let w := set_random l (set_store (mkData (AgentID (d_store w)) (hex_encode b) (Sessions (d_store w))) w) in
                     [(Ok b, w); (Err "persist relay static key"%string, w)]
         | [] => []
         end
    else [(match hex_decode key with Some b => Ok b | None => Err "decode relay static key"%string end, w)]).
End state.

Arguments Session {_}.
Arguments World {_}.
