(* ===== verification/Daemon.v ===== *)
(** The agent's daemon, its operations (agent/internal/daemon/daemon.go): the
    messages of the signaling server, the callbacks of peers and relay
    channels, making and removing sessions, and the loops in the background,
    over the state of DaemonState.v. *)

From S2P Require Import Prelude Conc Json Sha256 Config Store SignalingClient DaemonState.
#[local] Open Scope Z_scope.

Section daemon.
Context `{Backends}.
Abbreviation handler := (proc World).

Fixpoint for_each {A} (l : list A) (f : A -> handler unit) : handler unit :=
  match l with [] => mret tt | x :: l' => _ ← f x; for_each l' f end.
(** Until an error. *)
Fixpoint try_each {A} (l : list A) (f : A -> handler (result unit string)) : handler (result unit string) :=
  match l with
  | [] => mret (Ok tt)
  | x :: l' => r ← f x; match r with Ok _ => try_each l' f | Err e => mret (Err e) end
  end.

(** * Messages to the server *)

Definition str (k v : string) : string * json := (k, JStr v).
(** [agent/internal/daemon/daemon.go:658-663] handleKnock *)
Definition nonce_obj (conn nonce : string) (has_password : bool) : obj :=
  [str "conn_id" conn; ("has_password"%string, JBool has_password); str "type" "nonce"; str "value" nonce].
(** [agent/internal/daemon/daemon.go:698-702] handleJoin *)
Definition auth_failed (conn : string) (code : option string) : obj :=
  match code with Some c => [str "code" c] | None => [] end ++ [str "conn_id" conn; str "type" "auth_failed"].
(** [agent/internal/daemon/daemon.go:745-745] handlePasswordSubmit *)
Definition auth_fail (conn code : string) : obj := [str "code" code; str "conn_id" conn; str "type" "auth_fail"].
(** [agent/internal/daemon/daemon.go:726-730] handleJoin *)
Definition auth_ok (conn code : string) : obj := [str "code" code; str "conn_id" conn; str "type" "auth_ok"].
(** [agent/internal/daemon/daemon.go:964-969] createPeer *)
Definition offer_obj (code conn sdp : string) : obj :=
  [str "peer_id" conn; str "sdp" sdp; str "session_id" code; str "type" "offer"].
(** [agent/internal/daemon/daemon.go:909-914] createPeer *)
Definition candidate_obj (code conn : string) (candidate : json) : obj :=
  [("candidate"%string, candidate); str "peer_id" conn; str "session_id" code; str "type" "ice_candidate"].
(** [agent/internal/daemon/daemon.go:837-841] activateTransferSession *)
Definition expired_obj (code peerID : string) : obj :=
  (if bool_decide (peerID = ""%string) then [] else [str "peer_id" peerID]) ++ [str "session_id" code; str "type" "session_expired"].
(** [agent/internal/daemon/daemon.go:559-562] RevokeSession *)
Definition code_obj (type code : string) : obj := [str "code" code; str "type" type].

(** * Joining a session *)

(** The sweep of expired nonces, and the new one, under one lock.
    [agent/internal/daemon/daemon.go:647-657] handleKnock *)
Definition store_nonce (connID nonce : string) : handler unit :=
  modifies (fun w =>
    let now := w_now w in
    let kept := filter (fun kv => (n_expiresAt (snd kv) <? now) = false) (d_nonces w) in
    add_log (NonceStored connID nonce now)
      (set_nonces (<[connID := mkNonce nonce (now + 60 * Second)]> kept) w)).

(** [agent/internal/daemon/daemon.go:629-668] handleKnock *)
Definition handleKnock (connID sessionCode : string) : handler unit :=
  s ← lookup sessionCode;
  match s with
  | None => mret tt
  | Some s =>
      b ← random;
      match b with
      | None => mret tt
      | Some b =>
          let nonce := hex_encode b in
          _ ← store_nonce connID nonce;
          password ← reads (field_of s_Password ""%string s);
          send (nonce_obj connID nonce (negb (bool_decide (password = ""%string))))
      end
  end.

(** [agent/internal/daemon/daemon.go:682-685] handleJoin *)
Definition take_nonce (connID : string) : handler (option nonceEntry) :=
  atomic (fun w =>
    match d_nonces w !! connID with
    | Some e => (Some e, add_log (NonceTaken connID (n_nonce e) (w_now w)) (set_nonces (delete connID (d_nonces w)) w))
    | None => (None, w)
    end).

(** The proof of a password: HMAC-SHA-256 of the nonce under it, in hex.
    [agent/internal/daemon/daemon.go:710-716] handleJoin *)
Definition proves (password nonce receivedHMAC : string) : bool :=
  match hex_decode receivedHMAC with
  | Some b => bool_decide (hmac_sha256 (String.list_byte_of_string password) (String.list_byte_of_string nonce) = b)
  | None => false
  end.

(** ** Peers *)

Definition close_peer (p : nat) : handler unit := log (PeerClosed p).
Definition close_relay (c : nat) : handler unit := log (RelayClosed c).

(** [agent/internal/daemon/daemon.go:797-806] directPeerCurrent *)
Definition directPeerCurrent (s : nat) (peerID : string) (candidate : nat) : handler bool :=
  reads (fun w => match d_heap w !! s with
                  | Some x => bool_decide (d_sessions w !! s_Code x = Some s) && negb (closing x)
                              && bool_decide (peers x !! peerID = Some candidate)
                  | None => false
                  end).
(** [agent/internal/daemon/daemon.go:786-795] relayChannelCurrent *)
Definition relayChannelCurrent (s : nat) (sid : string) (channel : nat) : handler bool :=
  reads (fun w => match d_heap w !! s with
                  | Some x => bool_decide (d_sessions w !! s_Code x = Some s) && negb (closing x)
                              && bool_decide (relayChannels x !! sid = Some channel)
                  | None => false
                  end).

Definition drop_peer (s : nat) (connID : string) (p : nat) : handler unit :=
  modifies (upd_session s (fun x => if bool_decide (peers x !! connID = Some p)
                                    then with_resources (delete connID (peers x)) (relayChannels x) (closing x) x else x)).
(** [agent/internal/daemon/daemon.go:808-816] removeRelayChannelIfCurrent *)
Definition removeRelayChannelIfCurrent (s : nat) (sid : string) (channel : nat) : handler unit :=
  modifies (upd_session s (fun x => if bool_decide (relayChannels x !! sid = Some channel)
                                    then with_resources (peers x) (delete sid (relayChannels x)) (closing x) x else x)).

(** Registers a peer with the session while it is current: [None] when it is
    not, else the peer it replaces.
    [agent/internal/daemon/daemon.go:915-937] createPeer *)
Definition register_peer (code : string) (s : nat) (connID : string) (p : nat) : handler (option (option nat)) :=
  atomic (fun w =>
    if negb (bool_decide (d_sessions w !! code = Some s)) then (None, w)
    else match d_heap w !! s with
         | Some x => if closing x then (None, w)
                     else (Some (peers x !! connID),
                           upd_session s (fun x => with_resources (<[connID := p]> (peers x)) (relayChannels x) (closing x) x) w)
         | None => (None, w)
         end).
(** [agent/internal/daemon/daemon.go:1121-1140] handleRelayPrepare *)
Definition register_relay (code : string) (s : nat) (sid : string) (c : nat) : handler (option (option nat)) :=
  atomic (fun w =>
    if negb (bool_decide (d_sessions w !! code = Some s)) then (None, w)
    else match d_heap w !! s with
         | Some x => if closing x then (None, w)
                     else (Some (relayChannels x !! sid),
                           upd_session s (fun x => with_resources (peers x) (<[sid := c]> (relayChannels x)) (closing x) x) w)
         | None => (None, w)
         end).

(** [peer.New] and the callbacks, which are the programs [peer_close],
    [peer_candidate] and [peer_open] below. *)
Definition new_peer (s : nat) (connID code : string) (servers : list ICEServer) (relayOnly : bool) : handler (option nat) :=
  choices (fun w => let p := length (d_peers w) in
    [(Some p, add_log (PeerMade p connID code servers relayOnly) (set_peers (d_peers w ++ [mkPeer s connID code false]) w)); (None, w)]).

(** [agent/internal/daemon/daemon.go:863-970] createPeer *)
Definition createPeer (connID sessionCode : string) : handler unit :=
  s ← lookup sessionCode;
  match s with
  | None => mret tt
  | Some s =>
      iceServers ← reads w_ice;
      let iceServers := if len iceServers =? 0 then [mkICE ["stun:stun.cloudflare.com:3478"%string] "" ""] else iceServers in
      relayOnly ← reads (field_of s_RelayOnly false s);
      made ← new_peer s connID sessionCode iceServers relayOnly;
      match made with
      | None => mret tt
      | Some p =>
          registered ← register_peer sessionCode s connID p;
          match registered with
          | None => close_peer p
          | Some old =>
              _ ← match old with Some o => if bool_decide (o = p) then mret tt else close_peer o | None => mret tt end;
              sdp ← choices (fun w => [(Some (w_offer w), w); (None, w)]);
              match sdp with
              | None => _ ← drop_peer s connID p; close_peer p
              | Some sdp =>
                  current ← directPeerCurrent s connID p;
                  if (current : bool) then send (offer_obj sessionCode connID sdp) else close_peer p
              end
          end
      end
  end.

(** [agent/internal/daemon/daemon.go:671-738] handleJoin *)
Definition handleJoin (connID sessionCode receivedHMAC : string) : handler unit :=
  s ← lookup sessionCode;
  match s with
  | None => mret tt
  | Some s =>
      entry ← take_nonce connID;
      now ← get_now;
      match entry with
      | None => send (auth_failed connID None)
      | Some entry =>
          if n_expiresAt entry <? now then send (auth_failed connID None)
          else
            '(immich, protected, password, relay_only) ← reads (fun w =>
              (bool_decide (field_of s_ShareType ""%string s w = "immich"%string), field_of s_IsPasswordProtected false s w,
               field_of s_Password ""%string s w, field_of s_RelayOnly false s w));
            if immich && protected then send (auth_failed connID (Some sessionCode))
            else if negb (bool_decide (password = ""%string)) && negb immich
                    && negb (proves password (n_nonce entry) receivedHMAC)
            then send (auth_failed connID None)
            else
              _ ← log (Authorized s connID);
              _ ← send (auth_ok connID sessionCode);
              if (relay_only : bool) then mret tt else Spawn (createPeer connID sessionCode) (mret tt)
      end
  end.

(** A session of the photo library, with its client. *)
Definition immich_session (s : option nat) (w : World) : option (nat * immich) :=
  match s with
  | None => None
  | Some s =>
      match d_heap w !! s with
      | Some x => if bool_decide (s_ShareType x = "immich"%string) then (pair s) <$> immichClient x else None
      | None => None
      end
  end.

(** [agent/internal/daemon/daemon.go:740-754] handlePasswordSubmit *)
Definition handlePasswordSubmit (connID sessionCode password : string) : handler unit :=
  s ← lookup sessionCode;
  c ← reads (immich_session s);
  match c with
  | None => send (auth_fail connID sessionCode)
  | Some (s, c) =>
      ok ← atomic (fun w => match ValidatePassword c password (w_remote w) with
                            | Ok true => (true, add_log (Validated s password) w)
                            | _ => (false, w)
                            end);
      if negb ok then send (auth_fail connID sessionCode)
      else _ ← log (Authorized s connID); send (auth_ok connID sessionCode)
  end.

(** ** Signals for a peer *)

(** The sessions are ranged over under their locks, until one has the peer. *)
Fixpoint session_with (peerID : string) (l : list (string * nat)) : handler (option nat) :=
  match l with
  | [] => mret None
  | (_, s) :: l' =>
      has ← reads (fun w => bool_decide (is_Some (field_of peers ∅ s w !! peerID)));
      if (has : bool) then mret (Some s) else session_with peerID l'
  end.
(** [agent/internal/daemon/daemon.go:975-1000] handleAnswer *)
Definition find_peer (peerID : string) : handler (option nat) :=
  l ← in_any_order (fun w => map_to_list (d_sessions w));
  s ← session_with peerID l;
  match s with
  | None => mret None
  | Some s => reads (fun w => field_of peers ∅ s w !! peerID)
  end.

(** [agent/internal/daemon/daemon.go:973-1005] handleAnswer *)
Definition handleAnswer (peerID sdp : string) : handler unit :=
  p ← find_peer peerID;
  match p with None => mret tt | Some p => log (PeerAnswer p sdp) end.

(** [agent/internal/daemon/daemon.go:1008-1046] handleICECandidate *)
Definition handleICECandidate (peerID : string) (candidate : option json) : handler unit :=
  p ← find_peer peerID;
  match p, candidate with
  | Some p, Some c => if candidate_ok c then log (PeerCandidate p c) else mret tt
  | _, _ => mret tt
  end.

(** ** Relay channels *)

(** [NewSecureRelayChannel] and the callbacks, which are the programs
    [relay_ready] and [relay_close] below. *)
Definition new_relay (s : nat) (sid jwt : string) : handler (option nat) :=
  choices (fun w => let c := length (d_relays w) in
    [(Some c, add_log (RelayMade c sid jwt) (set_relays (d_relays w ++ [mkRelay s sid false false]) w)); (None, w)]).

(** [agent/internal/daemon/daemon.go:1050-1157] handleRelayPrepare *)
Definition handleRelayPrepare (msg : Message) : handler unit :=
  s ← lookup (m_Code msg);
  match s with
  | None => mret tt
  | Some s =>
      key ← store_key;
      match (match key with Ok k => public_key k | Err e => Err e end) with
      | Err _ => mret tt
      | Ok _ =>
          made ← new_relay s (m_SID msg) (m_RelayJWT msg);
          match made with
          | None => mret tt
          | Some c =>
              registered ← register_relay (m_Code msg) s (m_SID msg) c;
              match registered with
              | None => close_relay c
              | Some old =>
                  _ ← match old with Some o => if bool_decide (o = c) then mret tt else close_relay o | None => mret tt end;
                  started ← choices (fun w => [(true, add_log (RelayStarted c) w); (false, w)]);
                  if negb started then removeRelayChannelIfCurrent s (m_SID msg) c
                  else
                    current ← relayChannelCurrent s (m_SID msg) c;
                    if (current : bool) then mret tt else close_relay c
              end
          end
      end
  end.

(** * Callbacks *)

(** The transfer manager of the session is made and opened, with its two
    callbacks, which are [session_expired] and [download_complete] below.
    [agent/internal/daemon/daemon.go:818-860] activateTransferSession *)
Definition activateTransferSession (s : nat) (close : handler unit) : handler unit :=
  '(gallery, client) ← reads (fun w => (bool_decide (field_of s_ShareType ""%string s w = "immich"%string),
                                        bool_decide (is_Some (field_of immichClient None s w))));
  if gallery && negb client then close
  else
    maximum ← reads (field_of s_MaxDownloads 0 s);
    downloads ← reads (field_of s_Downloads 0 s);
    log (Activated s gallery maximum downloads).

(** [agent/internal/daemon/daemon.go:833-842] activateTransferSession *)
Definition session_expired (s : nat) (peerID : string) : handler unit :=
  code ← reads (field_of s_Code ""%string s);
  send (expired_obj code peerID).

Definition complete_obj (code : string) (bytesTransferred : Z) : obj :=
  [str "type" "download_complete"; str "code" code; ("bytes_transferred"%string, JNum bytesTransferred)].
(** [agent/internal/daemon/daemon.go:843-854] activateTransferSession *)
Definition download_complete (s : nat) (bytesTransferred : Z) : handler unit :=
  _ ← modifies (upd_session s (fun x => with_downloads ((s_Downloads x + 1 + 2 ^ 63) mod 2 ^ 64 - 2 ^ 63) x));
  code ← reads (field_of s_Code ""%string s);
  _ ← store_count code;
  send (complete_obj code bytesTransferred).

(** The peer's lanes are open; only the first time counts.
    [agent/internal/daemon/daemon.go:758-769] wireDirectTransferSession *)
Definition peer_open (p : nat) : handler unit :=
  r ← atomic (fun w =>
    match d_peers w !! p with
    | Some x => if p_activated x then (None, w)
                else (Some x, set_peers (<[p := mkPeer (p_session x) (p_id x) (p_code x) true]> (d_peers w)) w)
    | None => (None, w)
    end);
  match r with
  | None => mret tt
  | Some x =>
      current ← directPeerCurrent (p_session x) (p_id x) p;
      if (current : bool) then activateTransferSession (p_session x) (close_peer p) else mret tt
  end.

(** [agent/internal/daemon/daemon.go:894-901] createPeer *)
Definition peer_close (p : nat) : handler unit :=
  x ← reads (fun w => d_peers w !! p);
  match x with None => mret tt | Some x => drop_peer (p_session x) (p_id x) p end.

(** [agent/internal/daemon/daemon.go:903-913] createPeer *)
Definition peer_candidate (p : nat) (candidate : json) : handler unit :=
  x ← reads (fun w => d_peers w !! p);
  match x with
  | None => mret tt
  | Some x =>
      current ← directPeerCurrent (p_session x) (p_id x) p;
      if negb current then mret tt
      else send (candidate_obj (p_code x) (p_id x) candidate)
  end.

(** The version handshake over the relay is done; only the first time counts.
    [agent/internal/daemon/daemon.go:774-784] wireRelayTransferSession *)
Definition relay_ready (c : nat) : handler unit :=
  r ← atomic (fun w =>
    match d_relays w !! c with
    | Some x => if r_activated x then (None, w)
                else (Some x, set_relays (<[c := mkRelay (r_session x) (r_sid x) true (r_removed x)]> (d_relays w)) w)
    | None => (None, w)
    end);
  match r with
  | None => mret tt
  | Some x =>
      current ← relayChannelCurrent (r_session x) (r_sid x) c;
      if (current : bool) then activateTransferSession (r_session x) (close_relay c) else mret tt
  end.

(** [agent/internal/daemon/daemon.go:1111-1119] handleRelayPrepare *)
Definition relay_close (c : nat) : handler unit :=
  r ← atomic (fun w =>
    match d_relays w !! c with
    | Some x => if r_removed x then (None, w)
                else (Some x, set_relays (<[c := mkRelay (r_session x) (r_sid x) (r_activated x) true]> (d_relays w)) w)
    | None => (None, w)
    end);
  match r with None => mret tt | Some x => removeRelayChannelIfCurrent (r_session x) (r_sid x) c end.

(** * Messages *)

(** [agent/internal/daemon/daemon.go:1632-1641] hasTURNServer *)
Definition hasTURNServer (servers : list ICEServer) : bool :=
  existsb (fun s => existsb (fun url => String.prefix "turn:" url || String.prefix "turns:" url) (URLs s)) servers.

(** [agent/internal/daemon/daemon.go:595-625] handleSignalingMessage *)
Definition handleSignalingMessage (msg : Message) : handler unit :=
  _ ← log (Received msg);
  let type_is t := bool_decide (m_Type msg = t) in
  if type_is "welcome"%string then
    _ ← modifies (set_connected true);
    servers ← reads w_ice;
    modifies (set_turn (hasTURNServer servers))
  else if type_is "knock"%string then Spawn (handleKnock (m_ConnID msg) (m_Code msg)) (mret tt)
  else if type_is "join"%string then Spawn (handleJoin (m_ConnID msg) (m_Code msg) (m_HMAC msg)) (mret tt)
  else if type_is "password_submit"%string then Spawn (handlePasswordSubmit (m_ConnID msg) (m_Code msg) (m_Password msg)) (mret tt)
  else if type_is "answer"%string then handleAnswer (m_PeerID msg) (m_SDP msg)
  else if type_is "ice_candidate"%string then handleICECandidate (m_PeerID msg) (m_Candidate msg)
  else if type_is "relay_prepare"%string then Spawn (handleRelayPrepare msg) (mret tt)
  else mret tt.
End daemon.
