(* ===== verification/DaemonShares.v ===== *)
(** The agent's daemon, its shares (agent/internal/daemon/daemon.go): making,
    loading, revoking and expiring sessions, following the photo library's
    shares, and closing what a session holds, over DaemonState.v and Daemon.v. *)

From S2P Require Import Prelude Conc Json TimeText Config Store SignalingClient DaemonState Daemon.
#[local] Open Scope Z_scope.

Section shares.
Context `{Backends}.
Abbreviation handler := (proc World).

(** An error with a prefix, as [fmt.Errorf("...: %w", err)] makes it. *)
Definition wrap_err {A} (prefix : string) (r : result A string) : result A string :=
  rmap_err (fun e => (prefix ++ ": " ++ e)%string) r.

(** * Closing a session *)

(** The session is closing, and what it held is the caller's to close.
    [agent/internal/daemon/daemon.go:1490-1504] closeSessionResourcesWithError *)
Definition detach (s : nat) : handler (list (string * nat) * list (string * nat)) :=
  choices (fun w =>
    ps ← permutations (map_to_list (field_of peers ∅ s w));
    rs ← permutations (map_to_list (field_of relayChannels ∅ s w));
    [((ps, rs), upd_session s (with_resources ∅ ∅ true) w)]).

Definition connection_error (message : string) : obj :=
  [str "message" message; str "scope" "connection"; str "type" "error"].
(** [control.SendText], when the channel has its control lane. *)
Definition relay_text (c : nat) (m : obj) : handler unit := choices (fun w => [(tt, add_log (RelayText c m) w); (tt, w)]).

(** [agent/internal/daemon/daemon.go:1489-1533] closeSessionResourcesWithError *)
Definition closeSessionResourcesWithError (s : nat) (message : string) : handler unit :=
  '(ps, rs) ← detach s;
  _ ← (if bool_decide (message = ""%string) then mret tt
       else for_each rs (fun r => relay_text (snd r) (connection_error message)));
  _ ← for_each ps (fun p => close_peer (snd p));
  for_each rs (fun r => close_relay (snd r)).
(** [agent/internal/daemon/daemon.go:1475-1477] closeSessionResources *)
Definition closeSessionResources (s : nat) : handler unit := closeSessionResourcesWithError s "".

(** [agent/internal/daemon/daemon.go:544-551] RevokeSession *)
Definition take_session (code : string) : handler (option nat) :=
  atomic (fun w => match d_sessions w !! code with
                   | Some s => (Some s, set_table (delete code (d_sessions w)) w)
                   | None => (None, w)
                   end).

(** [agent/internal/daemon/daemon.go:541-572] RevokeSession *)
Definition RevokeSession (code : string) : handler (result unit string) :=
  s ← take_session code;
  match s with
  | None => mret (Err ("session " ++ code ++ " not found")%string)
  | Some s =>
      _ ← closeSessionResources s;
      _ ← store_delete code;
      _ ← send (code_obj "deregister" code);
      _ ← log (SessionRemoved code);
      mret (Ok tt)
  end.

(** [agent/internal/daemon/daemon.go:358-383] Stop *)
Definition Stop : handler unit :=
  l ← in_any_order (fun w => map_to_list (d_sessions w));
  for_each l (fun cs => closeSessionResources (snd cs)).

(** [agent/internal/daemon/daemon.go:575-584] ListSessions *)
Definition ListSessions : handler (list nat) :=
  l ← in_any_order (fun w => map_to_list (d_sessions w)); mret (map snd l).
(** [agent/internal/daemon/daemon.go:587-591] GetSession *)
Definition GetSession (code : string) : handler (option nat) := lookup code.

(** ** Expiry *)

Definition expired (now : Z) (x : Session) : bool := negb (IsZero (s_ExpiresAt x)) && (s_ExpiresAt x <? now).
Definition is_expired (now : Z) (w : World) (cs : string * nat) : Prop :=
  match d_heap w !! snd cs with Some x => expired now x = true | None => False end.
#[export] Instance is_expired_dec now w cs : Decision (is_expired now w cs).
Proof. unfold is_expired. destruct (d_heap w !! _); apply _. Defined.
(** [agent/internal/daemon/daemon.go:1553-1565] pruneExpiredSessions *)
Definition take_expired (now : Z) : handler (list (string * nat)) :=
  choices (fun w =>
    let gone := filter (is_expired now w) (d_sessions w) in
    (fun l => (l, set_table (d_sessions w ∖ gone) w)) <$> permutations (map_to_list gone)).

(** [agent/internal/daemon/daemon.go:1551-1581] pruneExpiredSessions *)
Definition pruneExpiredSessions : handler unit :=
  now ← get_now;
  l ← take_expired now;
  for_each l (fun cs =>
    _ ← closeSessionResources (snd cs);
    _ ← store_delete (fst cs);
    _ ← send (code_obj "deregister" (fst cs));
    log (SessionRemoved (fst cs))).

(** A loop on a ticker, until the daemon's context is done. *)
Definition ticker_loop (body : handler unit) : handler unit :=
  Iter tt (fun _ =>
    tick ← choices (fun w => (true, w) :: if w_done w then [(false, w)] else []);
    if (tick : bool) then _ ← body; mret (inl tt) else mret (inr tt)) Done.
(** [agent/internal/daemon/daemon.go:1536-1548] runExpiryPruner *)
Definition runExpiryPruner : handler unit := ticker_loop pruneExpiredSessions.

(** * Making sessions *)

(** A session gets its place, and its entry under its code. *)
Definition add_session (x : Session) : handler nat :=
  atomic (fun w => let s := length (d_heap w) in
                   (s, set_table (<[s_Code x := s]> (d_sessions w)) (set_heap (d_heap w ++ [x]) w))).

(** [agent/internal/daemon/daemon.go:1644-1650] RelayStaticPubHex *)
Definition RelayStaticPubHex (rawPrivateKey : bytes) : result string string :=
  rmap hex_encode (wrap_err "import relay static key" (public_key rawPrivateKey)).
(** [agent/internal/daemon/daemon.go:1463-1473] relayStaticPubHex *)
Definition relayStaticPubHex : handler (result string string) :=
  key ← store_key;
  mret (match wrap_err "get relay static key" key with
        | Ok k => wrap_err "derive relay static public key" (RelayStaticPubHex k)
        | Err e => Err e
        end).

(** [signaling.UnregisterShare].
    [agent/internal/daemon/daemon.go:1443-1448] unregisterShare *)
Definition unregisterShare (code : string) : handler (result unit string) := send_err (code_obj "unregister_share" code).

(** [agent/internal/daemon/daemon.go:1450-1461] newImmichClient *)
Definition newImmichClient (code : string) : handler (result immich string) :=
  cfg ← get_config; mret (new_immich cfg code).
(** [agent/internal/daemon/daemon.go:1378-1387] getImmichPoller *)
Definition getImmichPoller : handler (result immich string) :=
  cfg ← get_config; mret (new_immich cfg "").

(** [agent/internal/daemon/daemon.go:1389-1441] registerImmichShare *)
Definition registerImmichShare (link : SharedLink) (relayStaticPub : string) : handler (result Session string) :=
  let shareURL := ("immich://" ++ l_Key link)%string in
  let passwordProtected := l_IsPasswordProtected link in
  cfg ← get_config;
  let relayOnly := DefaultRelayOnly cfg in
  registered ← register (mkOptions shareURL (l_Key link) "immich" passwordProtected relayOnly relayStaticPub);
  match registered with
  | Err e => mret (Err e)
  | Ok (code, _) =>
      client ← newImmichClient code;
      match client with
      | Err e => _ ← unregisterShare code; mret (Err e)
      | Ok client =>
          now ← get_now;
          saved ← store_save (Store.mkSession code shareURL "immich" passwordProtected "" "" zero_time 0 0 relayOnly now);
          match saved with
          | Err e => _ ← unregisterShare code; mret (Err e)
          | Ok _ =>
              mret (Ok (DaemonState.mkSession code shareURL "immich" "" "" zero_time 0 relayOnly now passwordProtected
                          (Some client) None 0 ∅ ∅ false))
          end
      end
  end.

(** [agent/internal/daemon/daemon.go:484-537] createManualImmichSession *)
Definition createManualImmichSession (shareURL : string) : handler (result string string) :=
  let key := String.substring (String.length "immich://") (String.length shareURL) shareURL in
  if negb (String.prefix "immich://" shareURL) || bool_decide (key = ""%string)
  then mret (Err "share_url must be immich://KEY for manual Immich shares"%string)
  else
    existing ← lookup key;
    old ← reads (fun w => match existing with
                          | Some s => if bool_decide (field_of s_ShareType ""%string s w = "immich"%string)
                                      then Some (field_of s_Code ""%string s w) else None
                          | None => None
                          end);
    match old with
    | Some code => mret (Ok code)
    | None =>
        poller ← getImmichPoller;
        match poller with
        | Err e => mret (Err e)
        | Ok poller =>
            links ← ask (PollShares poller);
            match links with
            | Err e => mret (Err e)
            | Ok links =>
                match find (fun l => bool_decide (l_Key l = key)) links with
                | None => mret (Err ("immich share " ++ key ++ " not found")%string)
                | Some link =>
                    pub ← relayStaticPubHex;
                    match pub with
                    | Err e => mret (Err e)
                    | Ok pub =>
                        made ← registerImmichShare link pub;
                        match made with
                        | Err e => mret (Err e)
                        | Ok x => s ← add_session x; _ ← log (SessionAdded s); mret (Ok (s_Code x))
                        end
                    end
                end
            end
        end
    end.

(** A share of a storage: the session, its place in the table, its entry in the store.
    [agent/internal/daemon/daemon.go:430-481] CreateSession *)
Definition store_new_session (code shareURL shareType fileID password : string) (expiryDuration maxDownloads : Z)
    (relayOnly : bool) (client : webdav) : handler (result string string) :=
  now ← get_now;
  s ← add_session (DaemonState.mkSession code shareURL shareType fileID password (now + expiryDuration) maxDownloads
                     relayOnly now false None (Some client) 0 ∅ ∅ false);
  _ ← store_save (Store.mkSession code shareURL shareType false fileID password (now + expiryDuration) maxDownloads 0 relayOnly now);
  _ ← log (SessionAdded s);
  mret (Ok code).

(** [agent/internal/daemon/daemon.go:387-482] CreateSession *)
Definition CreateSession (shareURL shareType password : string) (expiryDuration maxDownloads : Z) (relayOnly : bool)
    : handler (result string string) :=
  cfg ← get_config;
  if bool_decide (shareType = "immich"%string) then createManualImmichSession shareURL
  else
    let made := new_webdav shareType shareURL [AllowedHost cfg; NCAllowedHost cfg] password in
    let hosts := negb (bool_decide (AllowedHost cfg = ""%string)) || negb (bool_decide (NCAllowedHost cfg = ""%string)) in
    match wrap_err (if hosts then "validate share URL" else "create WebDAV client") made with
    | Err e => mret (Err e)
    | Ok client =>
        found ← ask (GetRootFileID client);
        let fileID := match found with Ok id => id | Err _ => ""%string end in
        pub ← relayStaticPubHex;
        match pub with
        | Err e => mret (Err e)
        | Ok pub =>
            registered ← register (mkOptions shareURL "" "" false relayOnly pub);
            match wrap_err "register share" registered with
            | Err e => mret (Err e)
            | Ok (code, _) =>
                store_new_session code shareURL shareType fileID password expiryDuration maxDownloads relayOnly client
            end
        end
    end.

(** ** Sessions of the store, when the daemon starts *)

Definition entry_session (code fileID password : string) (protected : bool) (e : SessionEntry) (i : option immich) (d : option webdav)
    : Session :=
  DaemonState.mkSession code (se_ShareURL e) (se_ShareType e) fileID password (se_ExpiresAt e) (se_MaxDownloads e)
    (se_RelayOnly e) (se_CreatedAt e) protected i d (se_Downloads e) ∅ ∅ false.

(** [agent/internal/daemon/daemon.go:1186-1233] loadSessionsFromStore *)
Definition load_immich (relayStaticPub : string) (e : SessionEntry) : handler unit :=
  client ← newImmichClient (se_Code e);
  match client with
  | Err _ => mret tt
  | Ok client =>
      registered ← register (mkOptions (se_ShareURL e) (se_Code e) "immich" (se_IsPasswordProtected e) (se_RelayOnly e) relayStaticPub);
      match registered with
      | Err _ => mret tt
      | Ok (code, _) => _ ← add_session (entry_session code "" "" (se_IsPasswordProtected e) e (Some client) None); mret tt
      end
  end.

(** [agent/internal/daemon/daemon.go:1235-1268] loadSessionsFromStore *)
Definition load_storage (cfg : Config) (relayStaticPub : string) (e : SessionEntry) : handler unit :=
  match new_webdav (se_ShareType e) (se_ShareURL e) [AllowedHost cfg; NCAllowedHost cfg] (se_Password e) with
  | Err _ => mret tt
  | Ok client =>
      registered ← register (mkOptions (se_ShareURL e) (se_Code e) "" false (se_RelayOnly e) relayStaticPub);
      match registered with
      | Err _ => mret tt
      | Ok (code, _) => _ ← add_session (entry_session code (se_FileID e) (se_Password e) false e None (Some client)); mret tt
      end
  end.

(** [agent/internal/daemon/daemon.go:1161-1278] loadSessionsFromStore *)
Definition loadSessionsFromStore : handler unit :=
  sessions ← reads (fun w => Store.ListSessions true (w_now w) (d_store w));
  key ← store_key;
  let relayStaticPub := match key with
                        | Ok k => match RelayStaticPubHex k with Ok p => p | Err _ => ""%string end
                        | Err _ => ""%string
                        end in
  cfg ← get_config;
  for_each sessions (fun e =>
    if bool_decide (se_ShareType e = ""%string) then mret tt
    else if bool_decide (se_ShareType e = "immich"%string) then load_immich relayStaticPub e
    else load_storage cfg relayStaticPub e).

(** * Following the photo library *)

(** The keys of the albums that are shared; the new ones become sessions.
    [agent/internal/daemon/daemon.go:1317-1343] syncImmichShares *)
Fixpoint sync_links (relayStaticPub : string) (seen : gset string) (links : list SharedLink)
    : handler (result (gset string) string) :=
  match links with
  | [] => mret (Ok seen)
  | link :: links' =>
      if bool_decide (l_Key link = ""%string) || negb (same_name (l_Type link) "ALBUM")
      then sync_links relayStaticPub seen links'
      else
        let seen := {[l_Key link]} ∪ seen in
        exists_ ← lookup (l_Key link);
        match exists_ with
        | Some _ => sync_links relayStaticPub seen links'
        | None =>
            made ← registerImmichShare link relayStaticPub;
            match made with
            | Err e => mret (Err e)
            | Ok x => s ← add_session x; _ ← log (SessionAdded s); sync_links relayStaticPub seen links'
            end
        end
  end.

Definition is_gone (seen : gset string) (w : World) (cs : string * nat) : Prop :=
  field_of s_ShareType ""%string (snd cs) w = "immich"%string /\ fst cs ∉ seen.
(** [agent/internal/daemon/daemon.go:1345-1354] syncImmichShares *)
Definition gone_sessions (seen : gset string) : handler (list nat) :=
  l ← in_any_order (fun w => filter (is_gone seen w) (map_to_list (d_sessions w))); mret (map snd l).

(** The entry of a session goes, if it is still this session's. *)
Definition drop_session (s : nat) (code : string) : handler unit :=
  modifies (fun w => if bool_decide (d_sessions w !! code = Some s) then set_table (delete code (d_sessions w)) w else w).
(** [agent/internal/daemon/daemon.go:1356-1373] syncImmichShares *)
Definition remove_gone (s : nat) : handler (result unit string) :=
  _ ← closeSessionResourcesWithError s "share has been removed";
  code ← reads (field_of s_Code ""%string s);
  unregistered ← unregisterShare code;
  match unregistered with
  | Err e => mret (Err e)
  | Ok _ =>
      deleted ← store_delete code;
      match deleted with
      | Err e => mret (Err e)
      | Ok _ => _ ← drop_session s code; _ ← log (SessionRemoved code); mret (Ok tt)
      end
  end.

(** [agent/internal/daemon/daemon.go:1302-1376] syncImmichShares *)
Definition syncImmichShares : handler (result unit string) :=
  poller ← getImmichPoller;
  match poller with
  | Err e => mret (Err e)
  | Ok poller =>
      links ← ask (PollShares poller);
      match links with
      | Err e => mret (Err e)
      | Ok links =>
          pub ← relayStaticPubHex;
          match pub with
          | Err e => mret (Err e)
          | Ok pub =>
              seen ← sync_links pub ∅ links;
              match seen with
              | Err e => mret (Err e)
              | Ok seen => removed ← gone_sessions seen; try_each removed remove_gone
              end
          end
      end
  end.

(** Once now, then at each tick.
    [agent/internal/daemon/daemon.go:1280-1300] runImmichPoller *)
Definition runImmichPoller : handler unit :=
  _ ← syncImmichShares; ticker_loop (_ ← syncImmichShares; mret tt).

(** * The daemon *)

(** The connection; then messages are handled while the sessions load.
    [agent/internal/daemon/daemon.go:310-355] Start *)
Definition Start : handler unit :=
  connected ← choices (fun w => [(true, w); (false, w)]);
  if negb connected then mret tt
  else
    _ ← loadSessionsFromStore;
    cfg ← get_config;
    let poll := negb (bool_decide (ImmichURL cfg = ""%string)) && negb (bool_decide (ImmichAPIKey cfg = ""%string)) in
    if poll then Spawn runImmichPoller (Spawn runExpiryPruner (mret tt)) else Spawn runExpiryPruner (mret tt).

(** [agent/internal/daemon/daemon.go:1617-1629] SaveConfig *)
Definition SaveConfig (cfg : Config) : handler (result unit string) :=
  _ ← modifies (set_config cfg); choices (fun w => [(Ok tt, w); (Err "save"%string, w)]).
(** [agent/internal/daemon/daemon.go:1584-1586] IsConnected *)
Definition IsConnected : handler bool := reads d_connected.
(** [agent/internal/daemon/daemon.go:1589-1591] HasTURN *)
Definition HasTURN : handler bool := reads d_hasTURN.
End shares.
