(* ===== verification/DaemonInv.v ===== *)
(** The daemon as a system of programs, and the invariant of its world: what
    must come before each effect of the log, the nonces, the table, and what the
    sessions hold.  Then the programs whose every step keeps it, whatever they
    know. *)

From S2P Require Import Prelude Conc Json TimeText Config Store SignalingClient DaemonState Daemon DaemonShares.
#[local] Open Scope Z_scope.

Section safe.
Context `{Backends}.
Abbreviation handler := (proc World).

(** * The daemon as a system *)

(** [agent/internal/daemon/daemon.go:262-278] New *)
Definition New (cfg : Config) (st : storeData) (w0 : remote) (now : Z) : World :=
  mkWorld cfg ∅ [] ∅ [] [] st false false [] [] [] "" w0 now false [].

(** What may start: the daemon itself, a message, a callback of a peer, of a
    relay channel or of a transfer, a request of the web interface. *)
Inductive accepted : handler unit -> World -> Prop :=
| acc_start w : accepted Start w
| acc_message msg w : accepted (handleSignalingMessage msg) w
| acc_peer_open p w : accepted (peer_open p) w
| acc_peer_close p w : accepted (peer_close p) w
| acc_peer_candidate p c w : accepted (peer_candidate p c) w
| acc_relay_ready c w : accepted (relay_ready c) w
| acc_relay_close c w : accepted (relay_close c) w
| acc_expired s peerID w : accepted (session_expired s peerID) w
| acc_complete s n w : accepted (download_complete s n) w
| acc_create url type password expiry maximum relay w :
    accepted (_ ← CreateSession url type password expiry maximum relay; mret tt) w
| acc_revoke code w : accepted (_ ← RevokeSession code; mret tt) w
| acc_config cfg w : accepted (_ ← SaveConfig cfg; mret tt) w
| acc_stop w : accepted Stop w.

(** Time passes; answers, random bytes and offers come; the storages and the
    ICE servers change; the daemon is told to stop. *)
Inductive env (w : World) : World -> Prop :=
| env_step ice answers random offer remote now done_ :
    w_now w <= now ->
    env w (mkWorld (d_config w) (d_sessions w) (d_heap w) (d_nonces w) (d_peers w) (d_relays w) (d_store w) (d_connected w)
             (d_hasTURN w) ice answers random offer remote now done_ (w_log w)).

Definition reachable (c : list (handler unit) * World) : Prop :=
  exists cfg st w0 now, rtc (sys_step accepted env) ([], New cfg st w0 now) c.

(** * The invariant *)

(** ** The log *)

(** The nonce a connection has, and when it was stored. *)
Definition nonce_after (conn : string) (acc : option (string * Z)) (e : effect) : option (string * Z) :=
  match e with
  | NonceStored c n t => if bool_decide (c = conn) then Some (n, t) else acc
  | NonceTaken c _ _ => if bool_decide (c = conn) then None else acc
  | _ => acc
  end.
Definition last_nonce (conn : string) (l : list effect) : option (string * Z) := foldl (nonce_after conn) None l.

(** A join with a nonce stored for this connection at most 60 seconds before
    and used by no one else, that proves the share's password. *)
Definition proved_by_nonce (l : list effect) (sh : share) (conn : string) : Prop :=
  exists l1 l2 nonce stored taken msg,
    l = l1 ++ NonceTaken conn nonce taken :: l2 /\ last_nonce conn l1 = Some (nonce, stored) /\
    taken <= stored + 60 * Second /\
    Received msg ∈ l /\ m_Type msg = "join"%string /\ m_ConnID msg = conn /\ m_Code msg = sh_Code sh /\
    (sh_Type sh = "immich"%string -> sh_Protected sh = false) /\
    (sh_Type sh <> "immich"%string -> sh_Password sh <> ""%string -> proves (sh_Password sh) nonce (m_HMAC msg) = true).

(** A password the photo library accepted. *)
Definition proved_by_password (l : list effect) (s : nat) (sh : share) (conn : string) : Prop :=
  exists msg, Received msg ∈ l /\ m_Type msg = "password_submit"%string /\ m_ConnID msg = conn /\ m_Code msg = sh_Code sh /\
    sh_Type sh = "immich"%string /\ Validated s (m_Password msg) ∈ l.

Definition share_at (w : World) (s : nat) (sh : share) : Prop := exists x, d_heap w !! s = Some x /\ share_of x = sh.

Definition authorized (w : World) (l : list effect) (conn code : string) : Prop :=
  exists s sh, share_at w s sh /\ sh_Code sh = code /\ Authorized s conn ∈ l.

Definition peer_at (w : World) (p s : nat) (conn code : string) : Prop :=
  exists y, d_peers w !! p = Some y /\ p_session y = s /\ p_id y = conn /\ p_code y = code.
Definition relay_at (w : World) (c s : nat) (sid : string) : Prop :=
  exists y, d_relays w !! c = Some y /\ r_session y = s /\ r_sid y = sid.

(** What must have happened before each effect. *)
Definition allowed (w : World) (l : list effect) (e : effect) : Prop :=
  match e with
  | Sent m => forall conn code, m = auth_ok conn code -> authorized w l conn code
  | PeerMade _ conn code _ _ => authorized w l conn code
  | Authorized s conn => exists sh, share_at w s sh /\ (proved_by_nonce l sh conn \/ proved_by_password l s sh conn)
  | Validated s password => exists sh c r, share_at w s sh /\ sh_client sh = Some c /\ ValidatePassword c password r = Ok true
  | NonceTaken conn nonce taken => exists stored, last_nonce conn l = Some (nonce, stored)
  | PeerAnswer p sdp => exists s conn code msg, peer_at w p s conn code /\ Received msg ∈ l /\ m_Type msg = "answer"%string /\
      m_PeerID msg = conn /\ m_SDP msg = sdp
  | PeerCandidate p c => exists s conn code msg, peer_at w p s conn code /\ Received msg ∈ l /\ m_Type msg = "ice_candidate"%string /\
      m_PeerID msg = conn /\ m_Candidate msg = Some c
  | _ => True
  end.

(** A closing session holds nothing; what a session holds was made for it. *)
Definition session_ok (w : World) (s : nat) (x : Session) : Prop :=
  (closing x = true -> peers x = ∅ /\ relayChannels x = ∅) /\
  (forall conn p, peers x !! conn = Some p -> peer_at w p s conn (s_Code x)) /\
  (forall sid c, relayChannels x !! sid = Some c -> relay_at w c s sid).

Record Inv (w : World) : Prop := mkInv {
  inv_table code s : d_sessions w !! code = Some s -> exists x, d_heap w !! s = Some x /\ s_Code x = code;
  inv_session s x : d_heap w !! s = Some x -> session_ok w s x;
  inv_nonces conn e : d_nonces w !! conn = Some e ->
    exists t, last_nonce conn (w_log w) = Some (n_nonce e, t) /\ n_expiresAt e = t + 60 * Second;
  inv_log i e : w_log w !! i = Some e -> allowed w (take i (w_log w)) e }.

(** What only grows. *)
Record R (w w' : World) : Prop := mkR {
  r_log : exists l, w_log w' = w_log w ++ l;
  r_share s x : d_heap w !! s = Some x ->
    exists x', d_heap w' !! s = Some x' /\ share_of x' = share_of x /\ (closing x = true -> closing x' = true);
  r_peer p s conn code : peer_at w p s conn code -> peer_at w' p s conn code;
  r_relay c s sid : relay_at w c s sid -> relay_at w' c s sid;
  r_now : w_now w <= w_now w' }.

#[export] Instance R_preorder : PreOrder R.
Proof.
  split.
  - intros w. constructor; eauto; [by exists []; rewrite app_nil_r|lia].
  - intros w1 w2 w3 [[l1 L1] S1 P1 C1 N1] [[l2 L2] S2 P2 C2 N2]. constructor; eauto; try lia.
    + exists (l1 ++ l2). by rewrite L2, L1, app_assoc.
    + intros s x Hx. destruct (S1 s x Hx) as (x1&H1&E1&Q1). destruct (S2 s x1 H1) as (x2&H2&E2&Q2).
      exists x2. split_and!; [done|congruence|auto].
Qed.

Lemma share_at_R w w' s sh : R w w' -> share_at w s sh -> share_at w' s sh.
Proof. intros HR (x&Hx&<-). destruct (r_share _ _ HR s x Hx) as (x'&?&?&?). by exists x'. Qed.

Lemma session_ok_R w w' s x : R w w' -> session_ok w s x -> session_ok w' s x.
Proof.
  intros HR (Hq&Hp&Hr). split_and!; [done|intros conn p Hl; by apply (r_peer _ _ HR), Hp|intros sid c Hl; by apply (r_relay _ _ HR), Hr].
Qed.

Lemma authorized_R w w' l l' conn code : R w w' -> l ⊆ l' -> authorized w l conn code -> authorized w' l' conn code.
Proof. intros HR Hl (s&sh&Hs&Hc&Hin). exists s, sh. split_and!; [by eapply share_at_R|done|by apply Hl]. Qed.

Lemma allowed_R w w' l e : R w w' -> allowed w l e -> allowed w' l e.
Proof.
  intros HR. destruct e; simpl; try done.
  - intros Ha conn code ->. by eapply authorized_R; [exact HR|reflexivity|apply Ha].
  - by apply authorized_R.
  - intros (s&conn&code&msg&Hp&?). exists s, conn, code, msg. split; [by eapply r_peer|done].
  - intros (s&conn&code&msg&Hp&?). exists s, conn, code, msg. split; [by eapply r_peer|done].
  - intros (sh&c&r&Hs&?). exists sh, c, r. split; [by eapply share_at_R|done].
  - intros (sh&Hs&?). exists sh. split; [by eapply share_at_R|done].
Qed.
(** ** Steps that keep it *)

Definition good (w w' : World) : Prop := Inv w' /\ R w w'.

Definition core (w : World) := (d_sessions w, d_heap w, d_nonces w, d_peers w, d_relays w, w_log w, w_now w).

Lemma good_core w w' : Inv w -> core w' = core w -> good w w'.
Proof.
  intros Hi [= E1 E2 E3 E4 E5 E6 E7].
  assert (R w w') as HR.
  { constructor; unfold peer_at, relay_at; rewrite ?E2, ?E4, ?E5, ?E6, ?E7; eauto; [by exists []; rewrite app_nil_r|lia]. }
  split; [|done]. destruct Hi as [It Is In Il].
  constructor; unfold peer_at, relay_at; rewrite ?E1, ?E2, ?E3, ?E4, ?E5, ?E6; try done.
  - intros s x Hx. by eapply session_ok_R, Is.
  - intros j e Hj. by eapply allowed_R, Il.
Qed.

Definition neutral (e : effect) : Prop := forall conn acc, nonce_after conn acc e = acc.

Lemma last_nonce_snoc conn l e : last_nonce conn (l ++ [e]) = nonce_after conn (last_nonce conn l) e.
Proof. unfold last_nonce. by rewrite foldl_app. Qed.

Lemma R_log e w : R w (add_log e w).
Proof. constructor; simpl; eauto. lia. Qed.

Lemma log_snoc w e i x : Inv w -> allowed w (w_log w) e ->
  (w_log w ++ [e]) !! i = Some x -> allowed w (take i (w_log w ++ [e])) x.
Proof.
  intros Hi Ha Hx. apply lookup_app_Some in Hx as [Hx|[Hlen Hx]].
  - rewrite take_app_le by (apply lookup_lt_Some in Hx; lia). by apply (inv_log w Hi).
  - destruct (i - length (w_log w))%nat as [|k] eqn:Hk; [|done]. injection Hx as <-.
    assert (i = length (w_log w)) as -> by lia. by rewrite take_app_length.
Qed.

Lemma good_log w e : Inv w -> neutral e -> allowed w (w_log w) e -> good w (add_log e w).
Proof.
  intros Hi He Ha. split; [|apply R_log]. pose proof (log_snoc w e) as Hs. destruct Hi as [It Is In Il].
  constructor; simpl; try done.
  - intros conn x Hx. rewrite last_nonce_snoc, He. by apply In.
  - intros i x Hx. eapply allowed_R; [apply R_log|]. by apply Hs.
Qed.

Lemma good_state w w' : Inv w -> R w w' -> w_log w' = w_log w ->
  (forall conn e, d_nonces w' !! conn = Some e -> d_nonces w !! conn = Some e) ->
  (forall code s, d_sessions w' !! code = Some s -> exists x, d_heap w' !! s = Some x /\ s_Code x = code) ->
  (forall s x, d_heap w' !! s = Some x -> session_ok w' s x) ->
  good w w'.
Proof.
  intros Hi HR Hl Hn Ht Hh. split; [|done]. constructor; rewrite ?Hl; eauto.
  - intros conn e Hx. by apply (inv_nonces w Hi), Hn.
  - intros i e He. by eapply allowed_R, (inv_log w Hi).
Qed.

Lemma good_upd w s f : Inv w ->
  (forall x, share_of (f x) = share_of x) -> (forall x, closing x = true -> closing (f x) = true) ->
  (forall x, d_heap w !! s = Some x -> session_ok w s (f x)) ->
  good w (upd_session s f w).
Proof.
  intros Hi Hsh Hcl Hf. apply good_state; [done|..|done|done| |].
  - constructor; simpl; eauto; [by exists []; rewrite app_nil_r| |lia]. intros s' x Hx.
    destruct (decide (s' = s)) as [->|Hne].
    + exists (f x). rewrite list_lookup_alter_eq, Hx. split_and!; [done|apply Hsh|apply Hcl].
    + exists x. by rewrite list_lookup_alter_ne.
  - simpl. intros code s' Hs. destruct (inv_table w Hi code s' Hs) as (x&Hx&Hc).
    destruct (decide (s' = s)) as [->|Hne].
    + exists (f x). rewrite list_lookup_alter_eq, Hx. split; [done|]. rewrite <- Hc; exact (f_equal sh_Code (Hsh x)).
    + exists x. by rewrite list_lookup_alter_ne.
  - simpl. intros s' x Hx. destruct (decide (s' = s)) as [->|Hne].
    + rewrite list_lookup_alter_eq in Hx. destruct (d_heap w !! s) as [y|] eqn:Hy; [|done]. injection Hx as <-.
      by apply Hf.
    + rewrite list_lookup_alter_ne in Hx by done. by apply (inv_session w Hi).
Qed.

Lemma good_table w t : Inv w -> (forall code s, t !! code = Some s -> d_sessions w !! code = Some s) -> good w (set_table t w).
Proof.
  intros Hi Ht. apply good_state; [done|..|done|done| |].
  - constructor; simpl; eauto; [by exists []; rewrite app_nil_r|lia].
  - intros code s Hs. by apply (inv_table w Hi), Ht.
  - intros s x. apply (inv_session w Hi).
Qed.

Lemma good_add w x : Inv w -> peers x = ∅ -> relayChannels x = ∅ ->
  good w (set_table (<[s_Code x := length (d_heap w)]> (d_sessions w)) (set_heap (d_heap w ++ [x]) w)).
Proof.
  intros Hi Hp Hr. apply good_state; [done|..|done|done| |].
  - constructor; simpl; eauto; [by exists []; rewrite app_nil_r| |lia]. intros s y Hy.
    exists y. split; [by apply lookup_app_l_Some|done].
  - simpl. intros code s Hs. destruct (decide (code = s_Code x)) as [->|Hne].
    + rewrite lookup_insert_eq in Hs. injection Hs as <-. exists x. by rewrite list_lookup_middle.
    + rewrite lookup_insert_ne in Hs by done. destruct (inv_table w Hi code s Hs) as (y&Hy&Hc).
      exists y. split; [by apply lookup_app_l_Some|done].
  - simpl. intros s y Hy. apply lookup_app_Some in Hy as [Hy|[_ Hy]].
    + by apply (inv_session w Hi).
    + apply list_lookup_singleton_Some in Hy as [_ <-]. unfold session_ok. rewrite Hp, Hr. split_and!; [done|intros conn p; done|intros sid c; done].
Qed.
(** * Programs that keep it *)

Abbreviation hwp := (wp R R Inv).
Definition steady {A} (p : handler A) : Prop := forall w, hwp p (fun _ _ => True) w.

Lemma wp_steady {A} (p : handler A) Q w : steady p -> (forall a w', R w w' -> Q a w') -> hwp p Q w.
Proof.
  intros Hp HQ. eapply wp_mono; [|apply (wp_since R R Inv p (fun _ _ => True) w w)]; [|done|reflexivity|apply Hp].
  intros a w' [HR _]. by apply HQ.
Qed.
Lemma wp_steady_bind {A B} (p : handler A) (g : A -> handler B) Q w :
  steady p -> (forall a w', R w w' -> hwp (g a) Q w') -> hwp (p ≫= g) Q w.
Proof. intros Hp Hg. apply wp_mbind; [typeclasses eauto|]. by apply wp_steady. Qed.
Lemma steady_bind {A B} (p : handler A) (g : A -> handler B) : steady p -> (forall a, steady (g a)) -> steady (p ≫= g).
Proof. intros Hp Hg w. apply wp_steady_bind; [done|]. intros a w' _. apply Hg. Qed.
Lemma steady_ret {A} (a : A) : steady (mret a).
Proof. done. Qed.
Lemma steady_choices {A} (f : World -> list (A * World)) :
  (forall w, Inv w -> Forall (fun o => good w (snd o)) (f w)) -> steady (choices f).
Proof. intros Hf w w1 _ Hi b w2 Hin. by destruct (proj1 (Forall_forall _ _) (Hf w1 Hi) (b, w2) Hin). Qed.
Lemma good_refl w : Inv w -> good w w.
Proof. by split. Qed.
#[local] Ltac outcomes := rewrite ?Forall_cons, ?Forall_nil; split_and!; [auto using good_refl..|exact I].
Lemma steady_reads {A} (f : World -> A) : steady (reads f).
Proof. apply (steady_choices (fun w => [(f w, w)])). intros w Hi. outcomes. Qed.
Lemma steady_modifies f : (forall w, Inv w -> good w (f w)) -> steady (modifies f).
Proof. intros Hf. apply (steady_choices (fun w => [(tt, f w)])). intros w Hi. outcomes. Qed.
Lemma steady_atomic {A} (f : World -> A * World) : (forall w, Inv w -> good w (f w).2) -> steady (atomic f).
Proof.
  intros Hf. apply (steady_choices (fun w => [f w])). intros w Hi. outcomes.
Qed.
Lemma steady_spawn {A} (q : handler unit) (k : handler A) : steady q -> steady k -> steady (Spawn q k).
Proof. intros Hq Hk w w1 _. split; [apply Hq|apply Hk]. Qed.
Lemma steady_for_each {A} (l : list A) f : (forall x, steady (f x)) -> steady (for_each l f).
Proof. intros Hf. induction l as [|x l IH]; [apply steady_ret|apply steady_bind; [apply Hf|done]]. Qed.
Lemma steady_try_each {A} (l : list A) f : (forall x, steady (f x)) -> steady (try_each l f).
Proof.
  intros Hf. induction l as [|x l IH]; [apply steady_ret|]. apply steady_bind; [apply Hf|]. intros [[]|e]; [done|apply steady_ret].
Qed.
Lemma steady_ticker body : steady body -> steady (ticker_loop body).
Proof.
  intros Hb w. exists (fun _ _ => True). split; [done|]. intros [] w1 _. apply wp_steady_bind.
  - apply steady_choices. intros w2 Hi. destruct (w_done w2); outcomes.
  - intros [] w2 _; [|done]. apply wp_steady_bind; [done|]. done.
Qed.

(** ** Actions *)

(** Effects that nothing has to precede. *)
Definition free (e : effect) : Prop := neutral e /\ forall w l, allowed w l e.
Lemma free_sent m : (forall conn code, m <> auth_ok conn code) -> free (Sent m).
Proof. intros Hm. split; [done|]. intros w l conn code E. by destruct (Hm conn code). Qed.
Lemma good_free w e : Inv w -> free e -> good w (add_log e w).
Proof. intros Hi [Hn Ha]. by apply good_log. Qed.
Lemma steady_log e : free e -> steady (log e).
Proof. intros He. apply steady_modifies. intros w Hi. by apply good_free. Qed.
Lemma steady_send m : (forall conn code, m <> auth_ok conn code) -> steady (send m).
Proof.
  intros Hm. apply steady_choices. intros w Hi. apply Forall_cons; split; [by apply good_free, free_sent|outcomes].
Qed.
Lemma steady_send_err m : (forall conn code, m <> auth_ok conn code) -> steady (send_err m).
Proof.
  intros Hm. apply steady_choices. intros w Hi. apply Forall_cons; split; [by apply good_free, free_sent|outcomes].
Qed.
(** Outcomes that leave the core alone. *)
Lemma steady_core {A} (f : World -> list (A * World)) :
  (forall w, Forall (fun o => core (snd o) = core w) (f w)) -> steady (choices f).
Proof.
  intros Hf. apply steady_choices. intros w Hi. eapply Forall_impl; [apply Hf|]. intros o Ho. by apply good_core.
Qed.
Lemma steady_order {A} (f : World -> list A) : steady (in_any_order f).
Proof. apply steady_core. intros w. apply Forall_fmap, Forall_forall. done. Qed.
Lemma steady_random : steady random.
Proof. apply steady_core. intros w. destruct (w_random w); repeat constructor. Qed.
Lemma steady_register o : steady (register o).
Proof.
  apply steady_bind; [by apply steady_send_err|]. intros [[]|e]; [|apply steady_ret].
  apply steady_core. intros w. destruct (w_answers w); repeat constructor.
Qed.
Lemma steady_change f : steady (store_change f).
Proof. apply steady_core. intros w. repeat constructor. Qed.
Lemma steady_delete code : steady (store_delete code).
Proof. apply steady_core. intros w. destruct (find_code _ _); repeat constructor. Qed.
Lemma steady_count code : steady (store_count code).
Proof. apply steady_core. intros w. destruct (find_code _ _); repeat constructor. Qed.
Lemma steady_key : steady store_key.
Proof. apply steady_core. intros w. cbv zeta. case_bool_decide; [destruct (w_random w)|]; repeat constructor. Qed.
Lemma steady_text c m : steady (relay_text c m).
Proof.
  apply steady_choices. intros w Hi. apply Forall_cons; split; [by apply good_free|outcomes].
Qed.

(** ** Sessions *)

Lemma steady_upd s f :
  (forall x, share_of (f x) = share_of x) -> (forall x, closing x = true -> closing (f x) = true) ->
  (forall w x, session_ok w s x -> session_ok w s (f x)) -> steady (modifies (upd_session s f)).
Proof.
  intros Hs Hc Hf. apply steady_modifies. intros w Hi. apply good_upd; [done..|]. intros x Hx.
  apply Hf. by apply (inv_session w Hi).
Qed.
Lemma steady_drop_peer s conn p : steady (drop_peer s conn p).
Proof.
  apply steady_upd; [by intros x; case_bool_decide..|]. intros w x (Hq&Hp&Hr). case_bool_decide; [|done].
  split_and!; [|simpl|done].
  - intros Hc. destruct (Hq Hc) as [E ?]. by rewrite E in *.
  - intros conn' p' Hl. apply lookup_delete_Some in Hl as [_ Hl]. by apply Hp.
Qed.
Lemma steady_remove_relay s sid c : steady (removeRelayChannelIfCurrent s sid c).
Proof.
  apply steady_upd; [by intros x; case_bool_decide..|]. intros w x (Hq&Hp&Hr). case_bool_decide; [|done].
  split_and!; [|done|simpl].
  - intros Hc. destruct (Hq Hc) as [? E]. by rewrite E in *.
  - intros sid' c' Hl. apply lookup_delete_Some in Hl as [_ Hl]. by apply Hr.
Qed.
Lemma steady_detach s : steady (detach s).
Proof.
  apply steady_choices. intros w Hi. apply Forall_bind, Forall_forall. intros ps _. apply Forall_bind, Forall_forall. intros rs _.
  apply Forall_singleton. by apply good_upd.
Qed.
Lemma steady_close_session s m : steady (closeSessionResourcesWithError s m).
Proof.
  apply steady_bind; [apply steady_detach|]. intros [ps rs]. apply steady_bind.
  { case_bool_decide; [apply steady_ret|]. apply steady_for_each. intros r. apply steady_text. }
  intros _. apply steady_bind; [|intros _]; apply steady_for_each; intros r; by apply steady_log.
Qed.
Lemma steady_add x : peers x = ∅ -> relayChannels x = ∅ -> steady (add_session x).
Proof. intros Hp Hr. apply steady_atomic. intros w Hi. by apply good_add. Qed.
Lemma steady_take_session code : steady (take_session code).
Proof.
  apply steady_atomic. intros w Hi. destruct (d_sessions w !! code); [|by apply good_refl]. simpl. apply good_table; [done|].
  by intros c s [_ Hl]%lookup_delete_Some.
Qed.
Lemma steady_drop_session s code : steady (drop_session s code).
Proof.
  apply steady_modifies. intros w Hi. case_bool_decide; [|by apply good_refl]. apply good_table; [done|].
  by intros c s' [_ Hl]%lookup_delete_Some.
Qed.
Lemma steady_take_expired now : steady (take_expired now).
Proof.
  apply steady_choices. intros w Hi. apply Forall_fmap, Forall_forall. intros l _.
  apply good_table; [done|]. by intros c s [Hl _]%lookup_difference_Some.
Qed.
End safe.
