(* ===== verification/DaemonSafe.v ===== *)
(** What the daemon guarantees in every interleaving: no browser is admitted,
    and no peer is made for one, without the proof its share asks for; signals
    reach the peer they name; a session that is closing holds nothing. *)

From S2P Require Import Prelude Conc Json TimeText Config Store SignalingClient DaemonState Daemon DaemonShares DaemonInv.
#[local] Open Scope Z_scope.

Section safe.
Context `{Backends}.
Abbreviation handler := (proc World).
Abbreviation hwp := (wp R R Inv).

(** * Shares *)

Create HintDb steady discriminated.
#[local] Hint Resolve steady_ret steady_reads steady_order steady_random steady_change steady_delete steady_count steady_key steady_text
  steady_drop_peer steady_remove_relay steady_detach steady_close_session steady_take_session steady_drop_session steady_take_expired : steady.
#[local] Ltac steady_step :=
  first [ solve [eauto with steady nocore]
        | match goal with
          | |- steady (_ ≫= _) => apply steady_bind; [|intros ?]
          | |- steady (Spawn _ _) => apply steady_spawn
          | |- steady (for_each _ _) => apply steady_for_each; intros ?
          | |- steady (try_each _ _) => apply steady_try_each; intros ?
          | |- steady (ticker_loop _) => apply steady_ticker
          | |- steady (log _) => by apply steady_log
          | |- steady (send _) => by apply steady_send
          | |- steady (send_err _) => by apply steady_send_err
          | |- steady (register _) => apply steady_register
          | |- steady (add_session _) => by apply steady_add
          | |- steady (choices _) => apply steady_core; intros ?; repeat (apply Forall_cons; split); [done..|apply Forall_nil; done]
          | |- steady (let '(_, _) := ?p in _) => destruct p
          | |- steady (match ?x with _ => _ end) => destruct x
          | |- steady (if ?x then _ else _) => destruct x
          end ].
#[local] Ltac steady := repeat steady_step.

Lemma steady_revoke code : steady (RevokeSession code).
Proof. unfold RevokeSession, closeSessionResources. steady. Qed.
Lemma steady_stop : steady Stop.
Proof. unfold Stop, closeSessionResources. steady. Qed.
Lemma steady_prune : steady pruneExpiredSessions.
Proof. unfold pruneExpiredSessions, get_now, closeSessionResources. steady. Qed.

(** A program whose result has a property, whatever it knows. *)
Definition gives {A} (P : A -> Prop) (p : handler A) : Prop := forall w, hwp p (fun a _ => P a) w.
Lemma gives_bind {A B} P (p : handler A) (g : A -> handler B) : steady p -> (forall a, gives P (g a)) -> gives P (p ≫= g).
Proof. intros Hp Hg w. apply wp_steady_bind; [done|]. intros a w' _. apply Hg. Qed.
Lemma gives_ret {A} (P : A -> Prop) (a : A) : P a -> gives P (mret a).
Proof. intros Ha w w1 _. exact Ha. Qed.
Lemma steady_gives {A B} P (p : handler A) (g : A -> handler B) : gives P p -> (forall a, P a -> steady (g a)) -> steady (p ≫= g).
Proof. intros Hp Hg w. apply wp_mbind; [typeclasses eauto|]. eapply wp_mono; [|apply Hp]. intros a w' Ha. by apply Hg. Qed.

Definition fresh (r : result Session string) : Prop := match r with Ok x => peers x = ∅ /\ relayChannels x = ∅ | Err _ => True end.
Lemma gives_register_share link pub : gives fresh (registerImmichShare link pub).
Proof.
  unfold registerImmichShare, newImmichClient, unregisterShare, get_config, get_now, store_save.
  repeat first [apply gives_ret; done|apply gives_bind; [steady|intros ?]
               |match goal with |- gives _ (match ?x with _ => _ end) => destruct x end].
Qed.

Lemma steady_static_pub : steady relayStaticPubHex.
Proof. unfold relayStaticPubHex. steady. Qed.
Lemma steady_manual url : steady (createManualImmichSession url).
Proof.
  unfold createManualImmichSession, getImmichPoller, get_config, ask, lookup. pose proof steady_static_pub.
  repeat first [apply (steady_gives fresh); [apply gives_register_share|intros [x|e] Hx]|steady_step].
  destruct Hx. by apply steady_add.
Qed.
Lemma steady_create url type password expiry maximum relay : steady (CreateSession url type password expiry maximum relay).
Proof.
  unfold CreateSession, store_new_session, get_config, get_now, ask, store_save.
  pose proof (steady_manual url). pose proof steady_static_pub. steady.
Qed.
Lemma steady_load : steady loadSessionsFromStore.
Proof. unfold loadSessionsFromStore, load_immich, load_storage, newImmichClient, get_config. steady. Qed.

Lemma steady_sync_links pub links : forall seen, steady (sync_links pub seen links).
Proof.
  induction links as [|link links IH]; intros seen; [apply steady_ret|]. cbn [sync_links]. unfold lookup.
  repeat first [apply (steady_gives fresh); [apply gives_register_share|intros [x|e] Hx]|steady_step].
  destruct Hx. by apply steady_add.
Qed.
Lemma steady_sync : steady syncImmichShares.
Proof.
  unfold syncImmichShares, getImmichPoller, get_config, ask, gone_sessions. pose proof steady_static_pub.
  pose proof steady_sync_links. unfold remove_gone, unregisterShare. steady.
Qed.
Lemma steady_start : steady Start.
Proof.
  unfold Start, runImmichPoller, runExpiryPruner, get_config. pose proof steady_load. pose proof steady_sync. pose proof steady_prune. steady.
Qed.
Lemma steady_config cfg : steady (SaveConfig cfg).
Proof. unfold SaveConfig. steady. apply steady_modifies. intros w Hi. by apply good_core. Qed.
(** * Callbacks *)

Lemma R_peer_flag w p x : d_peers w !! p = Some x ->
  R w (set_peers (<[p := mkPeer (p_session x) (p_id x) (p_code x) true]> (d_peers w)) w).
Proof.
  intros Hx. constructor; simpl; eauto; [by exists []; rewrite app_nil_r| |lia].
  intros q s conn code (y&Hy&Hs). destruct (decide (q = p)) as [->|Hne].
  - exists (mkPeer (p_session x) (p_id x) (p_code x) true). unfold set_peers. cbn [d_peers].
    rewrite list_lookup_insert_eq by (by eapply lookup_lt_Some). split; [done|]. by replace x with y by congruence.
  - exists y. split; [|done]. by etransitivity; [apply list_lookup_insert_ne|].
Qed.
Lemma R_relay_flag w c x a b : d_relays w !! c = Some x ->
  R w (set_relays (<[c := mkRelay (r_session x) (r_sid x) a b]> (d_relays w)) w).
Proof.
  intros Hx. constructor; simpl; eauto; [by exists []; rewrite app_nil_r| |lia].
  intros q s sid (y&Hy&Hs). destruct (decide (q = c)) as [->|Hne].
  - exists (mkRelay (r_session x) (r_sid x) a b). unfold set_relays. cbn [d_relays].
    rewrite list_lookup_insert_eq by (by eapply lookup_lt_Some). split; [done|]. by replace x with y by congruence.
  - exists y. split; [|done]. by etransitivity; [apply list_lookup_insert_ne|].
Qed.
(** A step that touches neither the table, the sessions, the nonces nor the log. *)
Lemma good_objects w w' : Inv w -> R w w' -> w_log w' = w_log w -> d_nonces w' = d_nonces w ->
  d_sessions w' = d_sessions w -> d_heap w' = d_heap w -> good w w'.
Proof.
  intros Hi HR El En Et Eh. apply good_state; [done..|by rewrite En| |]; rewrite ?Et, ?Eh; [by apply (inv_table w Hi)|].
  intros s x Hx. by eapply session_ok_R, (inv_session w Hi).
Qed.

Lemma steady_activate s close : steady close -> steady (activateTransferSession s close).
Proof. intros Hc. unfold activateTransferSession. steady. Qed.
Lemma steady_peer_open p : steady (peer_open p).
Proof.
  unfold peer_open. apply steady_bind.
  - apply steady_atomic. intros w Hi. destruct (d_peers w !! p) as [x|] eqn:Hx; [|by apply good_refl].
    destruct (p_activated x); [by apply good_refl|]. apply good_objects; [done|by apply R_peer_flag|done..].
  - intros [x|]; [|steady]. unfold directPeerCurrent. apply steady_bind; [steady|]. intros []; [|steady].
    apply steady_activate. unfold close_peer. steady.
Qed.
Lemma steady_peer_close p : steady (peer_close p).
Proof. unfold peer_close. steady. Qed.
Lemma steady_peer_candidate p c : steady (peer_candidate p c).
Proof. unfold peer_candidate, directPeerCurrent. steady. Qed.
Lemma steady_relay_ready c : steady (relay_ready c).
Proof.
  unfold relay_ready. apply steady_bind.
  - apply steady_atomic. intros w Hi. destruct (d_relays w !! c) as [x|] eqn:Hx; [|by apply good_refl].
    destruct (r_activated x); [by apply good_refl|]. apply good_objects; [done|by apply R_relay_flag|done..].
  - intros [x|]; [|steady]. unfold relayChannelCurrent. apply steady_bind; [steady|]. intros []; [|steady].
    apply steady_activate. unfold close_relay. steady.
Qed.
Lemma steady_relay_close c : steady (relay_close c).
Proof.
  unfold relay_close. apply steady_bind; [|intros [x|]; steady].
  apply steady_atomic. intros w Hi. destruct (d_relays w !! c) as [x|] eqn:Hx; [|by apply good_refl].
  destruct (r_removed x); [by apply good_refl|]. apply good_objects; [done|by apply R_relay_flag|done..].
Qed.
Lemma steady_expired s peerID : steady (session_expired s peerID).
Proof. unfold session_expired, expired_obj. steady. apply steady_send. intros conn code. by case_bool_decide. Qed.
Lemma steady_complete s n : steady (download_complete s n).
Proof. unfold download_complete. steady. by apply steady_upd. Qed.
(** * What a program knows, and keeps knowing *)

Definition received (msg : Message) (w : World) : Prop := Received msg ∈ w_log w.

(** A chain of moves from one world to another. *)
#[local] Ltac chain :=
  first [assumption | reflexivity
        | match goal with Hab : R ?a ?b |- R ?a ?c => transitivity b; [exact Hab|]; clear Hab; chain end].

Lemma log_R w w' : R w w' -> w_log w ⊆ w_log w'.
Proof. intros HR e He. destruct (r_log _ _ HR) as (l&->). apply elem_of_app. by left. Qed.
Lemma received_R msg w w' : R w w' -> received msg w -> received msg w'.
Proof. intros HR. apply (log_R w w' HR). Qed.

(** A session whose share has this code. *)
Definition under (code : string) (s : nat) (w : World) : Prop := exists sh, share_at w s sh /\ sh_Code sh = code.
Lemma under_R code s w w' : R w w' -> under code s w -> under code s w'.
Proof. intros HR (sh&Hs&Hc). exists sh. split; [by eapply share_at_R|done]. Qed.

(** An action with one outcome. *)
Lemma wp_one {A B} (f : World -> A * World) (g : A -> handler B) Q w :
  (forall w1 a w2, R w w1 -> Inv w1 -> f w1 = (a, w2) -> good w1 w2 /\ forall w3, R w2 w3 -> hwp (g a) Q w3) ->
  hwp (atomic f ≫= g) Q w.
Proof.
  intros Hf. apply wp_mbind; [typeclasses eauto|]. apply wp_atomic.
  intros w1 a w2 HR Hi E. by destruct (Hf w1 a w2 HR Hi E) as [[]?].
Qed.
Lemma wp_read {A B} (f : World -> A) (g : A -> handler B) Q w :
  (forall w1, R w w1 -> Inv w1 -> forall w3, R w1 w3 -> hwp (g (f w1)) Q w3) -> hwp (reads f ≫= g) Q w.
Proof.
  intros Hf. apply (wp_one (fun w => (f w, w))). intros w1 a w2 HR Hi [= <- <-]. split; [by apply good_refl|].
  intros w3 HR3. exact (Hf w1 HR Hi w3 HR3).
Qed.
Lemma wp_lookup {B} code (g : option nat -> handler B) Q w :
  (forall r w1, R w w1 -> match r with Some s => under code s w1 | None => True end -> hwp (g r) Q w1) ->
  hwp (lookup code ≫= g) Q w.
Proof.
  intros Hg. apply wp_read. intros w1 HR Hi w3 HR3. apply Hg; [by etransitivity|].
  destruct (d_sessions w1 !! code) as [s|] eqn:Hs; [|done]. apply (under_R _ _ _ _ HR3).
  destruct (inv_table w1 Hi code s Hs) as (x&Hx&Hc). exists (share_of x). split; [by exists x|done].
Qed.
(** An effect that is allowed. *)
Lemma wp_log e w (g : unit -> handler unit) Q :
  neutral e -> (forall w1, R w w1 -> Inv w1 -> allowed w1 (w_log w1) e) ->
  (forall w1, R w w1 -> e ∈ w_log w1 -> hwp (g tt) Q w1) -> hwp (log e ≫= g) Q w.
Proof.
  intros He Ha Hg. apply (wp_one (fun w => (tt, add_log e w))). intros w1 a w2 HR Hi [= <- <-].
  pose proof (good_log w1 e Hi He (Ha w1 HR Hi)) as Hgood. split; [done|].
  intros w3 HR3. apply Hg; [etransitivity; [exact HR|]; etransitivity; [apply Hgood|done]|].
  apply (log_R _ _ HR3). simpl. apply elem_of_app. right. by apply list_elem_of_singleton.
Qed.
Lemma wp_sent m w : (forall w1, R w w1 -> Inv w1 -> allowed w1 (w_log w1) (Sent m)) -> hwp (send m) (fun _ _ => True) w.
Proof.
  intros Ha. apply wp_choices. intros w1 HR Hi b w2 Hin. rewrite !elem_of_cons in Hin.
  destruct Hin as [[= -> ->]|[[= -> ->]|[]%elem_of_nil]]; [|done].
  by destruct (good_log w1 (Sent m) Hi (fun _ _ => eq_refl) (Ha w1 HR Hi)).
Qed.
Lemma wp_send m (g : unit -> handler unit) Q w :
  (forall w1, R w w1 -> Inv w1 -> allowed w1 (w_log w1) (Sent m)) -> (forall w1, R w w1 -> hwp (g tt) Q w1) ->
  hwp (send m ≫= g) Q w.
Proof.
  intros Ha Hg. apply wp_mbind; [typeclasses eauto|].
  eapply wp_mono; [|apply (wp_since R R Inv (send m) (fun _ _ => True) w w)]; [|done|reflexivity|by apply wp_sent].
  intros [] w1 [HR _]. by apply Hg.
Qed.
(** ** Making a peer *)

Definition admitted (conn code : string) (w : World) : Prop := authorized w (w_log w) conn code.
Lemma admitted_R conn code w w' : R w w' -> admitted conn code w -> admitted conn code w'.
Proof. intros HR. apply authorized_R; [done|by apply log_R]. Qed.

Lemma R_objects w w' : w_log w' = w_log w -> d_heap w' = d_heap w -> w_now w' = w_now w ->
  (exists l, d_peers w' = d_peers w ++ l) -> (exists l, d_relays w' = d_relays w ++ l) -> R w w'.
Proof.
  intros El Eh En [lp Ep] [lr Er]. constructor; rewrite ?El, ?En; [by exists []; rewrite app_nil_r| | | |lia].
  - intros s x Hx. rewrite Eh. eauto.
  - intros p s conn code (y&Hy&?). exists y. rewrite Ep. split; [by apply lookup_app_l_Some|done].
  - intros c s sid (y&Hy&?). exists y. rewrite Er. split; [by apply lookup_app_l_Some|done].
Qed.

Lemma wp_new_peer s conn code servers relay (g : option nat -> handler unit) Q w :
  admitted conn code w ->
  (forall r w1, R w w1 -> match r with Some p => peer_at w1 p s conn code | None => True end -> hwp (g r) Q w1) ->
  hwp (new_peer s conn code servers relay ≫= g) Q w.
Proof.
  intros Ha Hg. apply wp_mbind; [typeclasses eauto|]. apply wp_choices. intros w1 HR Hi b w2 Hin. cbv zeta in Hin.
  rewrite !elem_of_cons in Hin. destruct Hin as [[= -> ->]|[[= -> ->]|[]%elem_of_nil]].
  2: { split_and!; [done|reflexivity|]. intros w3 HR3. apply Hg; [chain|done]. }
  set (y := mkPeer s conn code false). set (w2 := set_peers (d_peers w1 ++ [y]) w1).
  assert (good w1 w2) as [Hi2 HR2].
  { apply good_objects; [done| |done..]. apply R_objects; [done..|by exists [y]|by exists []; rewrite app_nil_r]. }
  destruct (good_log w2 (PeerMade (length (d_peers w1)) conn code servers relay) Hi2 (fun _ _ => eq_refl)) as [Hi3 HR3].
  { apply (admitted_R _ _ w); [chain|done]. }
  split_and!; [done|by etransitivity|]. intros w4 HR4. apply Hg.
  - chain.
  - apply (r_peer _ _ HR4), (r_peer _ _ HR3). exists y. split; [|done]. by apply list_lookup_middle.
Qed.

Lemma wp_register_peer code s conn p (g : option (option nat) -> handler unit) w :
  under code s w -> peer_at w p s conn code -> (forall r, steady (g r)) ->
  hwp (register_peer code s conn p ≫= g) (fun _ _ => True) w.
Proof.
  intros Hs Hp Hg. apply wp_one. intros w1 a w2 HR Hi E.
  assert (good w1 w2) as Hgood; [|split; [done|]; intros w3 _; apply Hg].
  case_bool_decide; [|injection E as <- <-; by apply good_refl]. simpl in E.
  destruct (d_heap w1 !! s) as [x|] eqn:Hx; [|injection E as <- <-; by apply good_refl].
  destruct (closing x) eqn:Hc; injection E as <- <-; [by apply good_refl|].
  apply good_upd; [done..|]. intros x' Hx'. assert (x' = x) as -> by congruence.
  destruct (inv_session w1 Hi s x Hx) as (_&Hps&Hrs). split_and!; [by rewrite Hc| |done].
  simpl. intros conn' p' Hl. apply lookup_insert_Some in Hl as [[<- <-]|[_ Hl]]; [|by apply Hps].
  destruct (under_R _ _ _ _ HR Hs) as (sh&(y&Hy&<-)&<-). assert (y = x) as -> by congruence.
  by apply (r_peer _ _ HR).
Qed.

Lemma wp_createPeer conn code w : admitted conn code w -> hwp (createPeer conn code) (fun _ _ => True) w.
Proof.
  intros Ha. unfold createPeer. apply wp_lookup. intros [s|] w1 HR1 Hs; [|apply steady_ret].
  apply wp_steady_bind; [apply steady_reads|]. intros servers w2 HR2. cbv zeta.
  apply wp_steady_bind; [apply steady_reads|]. intros relay w3 HR3.
  assert (R w w3) as HR by chain.
  apply wp_new_peer; [by apply (admitted_R _ _ w)|]. intros [p|] w4 HR4 Hp; [|apply steady_ret].
  apply wp_register_peer; [|done|].
  { apply (under_R _ _ w1); [|done]. chain. }
  intros r. unfold close_peer, directPeerCurrent. steady.
Qed.

(** ** Joining *)

Lemma steady_store_nonce conn nonce : steady (store_nonce conn nonce).
Proof.
  apply steady_modifies. intros w Hi. cbv zeta. set (kept := filter _ _).
  assert (R w (add_log (NonceStored conn nonce (w_now w)) (set_nonces (<[conn := mkNonce nonce (w_now w + 60 * Second)]> kept) w))) as HR.
  { constructor; simpl; eauto. lia. }
  split; [|done]. constructor; simpl.
  - apply (inv_table w Hi).
  - apply (inv_session w Hi).
  - intros c e Hc. rewrite last_nonce_snoc. simpl. case_bool_decide as E; [subst c|].
    + rewrite lookup_insert_eq in Hc. injection Hc as <-. eauto.
    + rewrite lookup_insert_ne in Hc by done. apply map_lookup_filter_Some in Hc as [Hc _]. by apply (inv_nonces w Hi).
  - intros i e Hl. eapply allowed_R; [exact HR|]. by apply (log_snoc w).
Qed.
Lemma steady_knock conn code : steady (handleKnock conn code).
Proof.
  unfold handleKnock, lookup. pose proof steady_store_nonce. steady; try done. 
Qed.

(** The nonce was taken in time to be used until [n_expiresAt]. *)
Definition taken (conn : string) (e : nonceEntry) (w : World) : Prop :=
  exists l1 l2 stored t, w_log w = l1 ++ NonceTaken conn (n_nonce e) t :: l2 /\ last_nonce conn l1 = Some (n_nonce e, stored) /\
    n_expiresAt e = stored + 60 * Second /\ t <= w_now w.
Lemma taken_R conn e w w' : R w w' -> taken conn e w -> taken conn e w'.
Proof.
  intros HR (l1&l2&st&t&El&Hl&He&Ht). destruct (r_log _ _ HR) as (l&El'). pose proof (r_now _ _ HR).
  exists l1, (l2 ++ l), st, t. rewrite El', El, <- app_assoc. split_and!; [done..|lia].
Qed.

Lemma wp_take_nonce conn (g : option nonceEntry -> handler unit) Q w :
  (forall r w1, R w w1 -> match r with Some e => taken conn e w1 | None => True end -> hwp (g r) Q w1) ->
  hwp (take_nonce conn ≫= g) Q w.
Proof.
  intros Hg. apply wp_one. intros w1 a w2 HR Hi E. destruct (d_nonces w1 !! conn) as [e|] eqn:He; injection E as <- <-.
  2: { split; [by apply good_refl|]. intros w3 HR3. apply Hg; [chain|done]. }
  destruct (inv_nonces w1 Hi conn e He) as (st&Hst&Hexp).
  set (w2 := add_log _ _). assert (R w1 w2) as HR2 by (constructor; simpl; eauto; lia).
  split.
  - split; [|done]. constructor; simpl.
    + apply (inv_table w1 Hi).
    + apply (inv_session w1 Hi).
    + intros c e' Hc. apply lookup_delete_Some in Hc as [Hne Hc]. rewrite last_nonce_snoc. simpl.
      rewrite bool_decide_eq_false_2 by done. by apply (inv_nonces w1 Hi).
    + intros i x Hl. eapply allowed_R; [exact HR2|]. apply (log_snoc w1); [done| |done]. by exists st.
  - intros w3 HR3. apply Hg; [chain|].
    apply (taken_R _ _ _ _ HR3). exists (w_log w1), [], st, (w_now w1). split_and!; [done..|simpl; lia].
Qed.
Lemma share_field {A} (f : Session -> A) (g : share -> A) d s sh w :
  (forall x, f x = g (share_of x)) -> share_at w s sh -> field_of f d s w = g sh.
Proof. intros Hf (x&Hx&<-). unfold field_of. by rewrite Hx, Hf. Qed.

Lemma wp_handleJoin msg w : received msg w -> m_Type msg = "join"%string ->
  hwp (handleJoin (m_ConnID msg) (m_Code msg) (m_HMAC msg)) (fun _ _ => True) w.
Proof.
  intros Hm Ht. unfold handleJoin. apply wp_lookup. intros [s|] w1 HR1 Hs; [|apply steady_ret].
  apply wp_take_nonce. intros r w2 HR2 Hr. apply wp_read. intros w3 HR3 _ w4 HR4.
  destruct r as [e|]; [|by apply steady_send].
  destruct (Z.ltb_spec (n_expiresAt e) (w_now w3)) as [|Hexp]; [by apply steady_send|].
  assert (taken (m_ConnID msg) e w3) as (l1&l2&st&t&El&Hl&He&Hle) by (by apply (taken_R _ _ w2)).
  apply wp_read. intros w5 HR5 _ w6 HR6.
  assert (R w3 w6) as HR36 by chain.
  assert (R w1 w5) as HR15 by chain.
  destruct Hs as (sh&Hsh&Hcode). pose proof (share_at_R _ _ _ _ HR15 Hsh) as Hsh5.
  rewrite (share_field s_ShareType sh_Type _ s sh), (share_field s_IsPasswordProtected sh_Protected _ s sh),
    (share_field s_Password sh_Password _ s sh), (share_field s_RelayOnly sh_RelayOnly _ s sh) by done.
  destruct (bool_decide (sh_Type sh = "immich"%string) && sh_Protected sh) eqn:Himm; [by apply steady_send|].
  destruct (_ && negb (proves _ _ _)) eqn:Hpw; [by apply steady_send|].
  apply wp_log; [done| |].
  { intros w7 HR7 _. exists sh. assert (R w3 w7) as HR37 by chain.
    split; [apply (share_at_R w5); [chain|done]|left].
    destruct (r_log _ _ HR37) as (l&El'). exists l1, (l2 ++ l), (n_nonce e), st, t, msg.
    split_and!; try done; [by rewrite El', El, <- app_assoc|lia| | |].
    - apply (log_R w); [|done]. chain.
    - intros E. rewrite bool_decide_eq_true_2 in Himm by done. by destruct (sh_Protected sh).
    - intros Ei Ep. rewrite !bool_decide_eq_false_2 in Hpw by done. simpl in Hpw. by destruct (proves _ _ _). }
  intros w7 HR7 Hauth.
  assert (admitted (m_ConnID msg) (m_Code msg) w7) as Had.
  { exists s, sh. split_and!; [apply (share_at_R w5); [chain|done]|done|done]. }
  apply wp_send.
  { intros w8 HR8 _ conn code [= <- <-]. by apply (admitted_R _ _ w7). }
  intros w8 HR8. destruct (sh_RelayOnly sh); [apply steady_ret|].
  intros w9 HR9. split; [|apply steady_ret]. apply wp_createPeer. apply (admitted_R _ _ w7); [chain|done].
Qed.

(** The photo library said yes to this password of the share. *)
Lemma wp_handlePasswordSubmit msg w : received msg w -> m_Type msg = "password_submit"%string ->
  hwp (handlePasswordSubmit (m_ConnID msg) (m_Code msg) (m_Password msg)) (fun _ _ => True) w.
Proof.
  intros Hm Ht. unfold handlePasswordSubmit. apply wp_lookup. intros r w1 HR1 Hs.
  apply wp_read. intros w2 HR2 _ w3 HR3. destruct (immich_session r w2) as [[s c]|] eqn:Him; [|by apply steady_send].
  assert (exists sh, share_at w2 s sh /\ sh_Code sh = m_Code msg /\ sh_Type sh = "immich"%string /\ sh_client sh = Some c)
    as (sh&Hsh&Hcode&Htype&Hclient).
  { destruct r as [s'|]; [|done]. simpl in Him. destruct (d_heap w2 !! s') as [x|] eqn:Hx; [|done].
    case_bool_decide as Hty; [|done]. destruct (immichClient x) eqn:Hc; [|done]. injection Him as -> ->.
    exists (share_of x). destruct (under_R _ _ _ _ HR2 Hs) as (sh&(y&Hy&<-)&Hcode). replace y with x in * by congruence.
    split_and!; [by exists x|done..]. }
  apply wp_one. intros w4 ok w5 HR4 Hi E.
  assert (R w2 w4) as HR24 by chain.
  destruct (ValidatePassword c (m_Password msg) (w_remote w4)) as [[]|] eqn:Hv; injection E as <- <-;
    [|split; [by apply good_refl|]; intros w6 HR6; by apply steady_send..].
  pose proof (share_at_R _ _ _ _ HR24 Hsh) as Hsh4.
  destruct (good_log w4 (Validated s (m_Password msg)) Hi (fun _ _ => eq_refl)) as [Hi5 HR5].
  { by exists sh, c, (w_remote w4). }
  split; [done|]. intros w6 HR6. cbn [negb]. assert (R w4 w6) as HR46 by chain.
  assert (Validated s (m_Password msg) ∈ w_log w6) as Hval.
  { apply (log_R _ _ HR6). simpl. apply elem_of_app. right. by apply list_elem_of_singleton. }
  assert (Received msg ∈ w_log w6) as Hrec.
  { apply (log_R w); [|done]. chain. }
  apply wp_log; [done| |].
  { intros w7 HR7 _. exists sh. split; [apply (share_at_R w4); [chain|done]|right].
    exists msg. split_and!; try done; by apply (log_R w6). }
  intros w7 HR7 Hauth. apply wp_sent. intros w8 HR8 _ conn code [= <- <-].
  exists s, sh. split_and!; [|done|by apply (log_R w7)].
  apply (share_at_R w4); [|done]. chain.
Qed.

(** ** Signals *)

(** A peer made for this connection. *)
Definition peer_of (conn : string) (r : option nat) (w : World) : Prop :=
  match r with Some p => exists s code, peer_at w p s conn code | None => True end.
Lemma peer_of_R conn r w w' : R w w' -> peer_of conn r w -> peer_of conn r w'.
Proof. intros HR. destruct r; [|done]. intros (s&code&Hp). exists s, code. by apply (r_peer _ _ HR). Qed.

Lemma steady_session_with conn l : steady (session_with conn l).
Proof. induction l as [|[code s] l IH]; cbn [session_with]; steady. Qed.
Lemma wp_find_peer conn (g : option nat -> handler unit) w :
  (forall r w1, R w w1 -> peer_of conn r w1 -> hwp (g r) (fun _ _ => True) w1) ->
  hwp (find_peer conn ≫= g) (fun _ _ => True) w.
Proof.
  intros Hg. apply wp_mbind; [typeclasses eauto|]. apply wp_steady_bind; [apply steady_order|]. intros l w1 HR1.
  apply wp_steady_bind; [apply steady_session_with|]. intros [s|] w2 HR2.
  2: { apply wp_mret. intros w3 HR3. apply Hg; [|done]. chain. }
  apply wp_reads. intros w3 HR3 Hi. split; [reflexivity|]. intros w4 HR4.
  apply Hg; [chain|].
  apply (peer_of_R _ _ w3); [done|]. unfold field_of. destruct (d_heap w3 !! s) as [x|] eqn:Hx; [|done].
  destruct (peers x !! conn) as [p|] eqn:Hp; [|done]. exists s, (s_Code x).
  destruct (inv_session w3 Hi s x Hx) as (_&Hps&_). by apply Hps.
Qed.
Lemma wp_logged e w : neutral e -> (forall w1, R w w1 -> allowed w1 (w_log w1) e) -> hwp (log e) (fun _ _ => True) w.
Proof. intros He Ha. apply wp_modifies. intros w1 HR Hi. by destruct (good_log w1 e Hi He (Ha w1 HR)). Qed.

Lemma wp_handleAnswer msg w : received msg w -> m_Type msg = "answer"%string ->
  hwp (handleAnswer (m_PeerID msg) (m_SDP msg)) (fun _ _ => True) w.
Proof.
  intros Hm Ht. apply wp_find_peer. intros [p|] w1 HR1 Hp; [|apply steady_ret]. apply wp_logged; [done|].
  intros w2 HR2. destruct (peer_of_R _ _ _ _ HR2 Hp) as (s&code&Hp2). exists s, (m_PeerID msg), code, msg.
  split_and!; try done. apply (log_R w); [chain|done].
Qed.
Lemma wp_handleICECandidate msg w : received msg w -> m_Type msg = "ice_candidate"%string ->
  hwp (handleICECandidate (m_PeerID msg) (m_Candidate msg)) (fun _ _ => True) w.
Proof.
  intros Hm Ht. apply wp_find_peer. intros [p|] w1 HR1 Hp; [|apply steady_ret].
  destruct (m_Candidate msg) as [c|] eqn:Hc; [|apply steady_ret]. destruct (candidate_ok c); [|apply steady_ret].
  apply wp_logged; [done|].
  intros w2 HR2. destruct (peer_of_R _ _ _ _ HR2 Hp) as (s&code&Hp2). exists s, (m_PeerID msg), code, msg.
  split_and!; try done. apply (log_R w); [chain|done].
Qed.
(** ** Relay channels *)

Lemma wp_new_relay s sid jwt (g : option nat -> handler unit) Q w :
  (forall r w1, R w w1 -> match r with Some c => relay_at w1 c s sid | None => True end -> hwp (g r) Q w1) ->
  hwp (new_relay s sid jwt ≫= g) Q w.
Proof.
  intros Hg. apply wp_mbind; [typeclasses eauto|]. apply wp_choices. intros w1 HR Hi b w2 Hin. cbv zeta in Hin.
  rewrite !elem_of_cons in Hin. destruct Hin as [[= -> ->]|[[= -> ->]|[]%elem_of_nil]].
  2: { split_and!; [done|reflexivity|]. intros w3 HR3. apply Hg; [chain|done]. }
  set (y := mkRelay s sid false false). set (w2 := set_relays (d_relays w1 ++ [y]) w1).
  assert (good w1 w2) as [Hi2 HR2].
  { apply good_objects; [done| |done..]. apply R_objects; [done..|by exists []; rewrite app_nil_r|by exists [y]]. }
  destruct (good_log w2 (RelayMade (length (d_relays w1)) sid jwt) Hi2 (fun _ _ => eq_refl) I) as [Hi3 HR3].
  split_and!; [done|chain|]. intros w4 HR4. apply Hg; [chain|].
  apply (r_relay _ _ HR4), (r_relay _ _ HR3). exists y. split; [|done]. by apply list_lookup_middle.
Qed.

Lemma wp_register_relay code s sid c (g : option (option nat) -> handler unit) w :
  relay_at w c s sid -> (forall r, steady (g r)) ->
  hwp (register_relay code s sid c ≫= g) (fun _ _ => True) w.
Proof.
  intros Hp Hg. apply wp_one. intros w1 a w2 HR Hi E.
  assert (good w1 w2) as Hgood; [|split; [done|]; intros w3 _; apply Hg].
  case_bool_decide; [|injection E as <- <-; by apply good_refl]. simpl in E.
  destruct (d_heap w1 !! s) as [x|] eqn:Hx; [|injection E as <- <-; by apply good_refl].
  destruct (closing x) eqn:Hc; injection E as <- <-; [by apply good_refl|].
  apply good_upd; [done..|]. intros x' Hx'. assert (x' = x) as -> by congruence.
  destruct (inv_session w1 Hi s x Hx) as (_&Hps&Hrs). split_and!; [by rewrite Hc|done|].
  simpl. intros sid' c' Hl. apply lookup_insert_Some in Hl as [[<- <-]|[_ Hl]]; [|by apply Hrs].
  by apply (r_relay _ _ HR).
Qed.

Lemma steady_handleRelayPrepare msg : steady (handleRelayPrepare msg).
Proof.
  unfold handleRelayPrepare, lookup. apply steady_bind; [steady|]. intros [s|]; [|steady].
  apply steady_bind; [steady|]. intros key. destruct (match key with Ok k => _ | Err e => _ end) as [k|e]; [|steady].
  intros w. apply wp_new_relay. intros [c|] w1 HR1 Hc; [|apply steady_ret]. apply wp_register_relay; [done|].
  intros [old|]; [|by apply steady_log]. unfold close_relay, relayChannelCurrent.
  apply steady_bind; [steady|]. intros _. apply steady_bind; [|intros []; steady].
  apply steady_choices. intros w2 Hi. apply Forall_cons. split; [by apply good_free|]. apply Forall_singleton. by apply good_refl.
Qed.

(** ** Messages, and the whole system *)

Lemma wp_message msg w : hwp (handleSignalingMessage msg) (fun _ _ => True) w.
Proof.
  unfold handleSignalingMessage. apply wp_log; [done..|]. intros w1 HR1 Hm. change (received msg w1) in Hm. cbv zeta.
  assert (forall A (q : handler unit) (k : handler A), (forall w2, received msg w2 -> hwp q (fun _ _ => True) w2) -> steady k ->
    hwp (Spawn q k) (fun _ _ => True) w1) as Hspawn.
  { intros A q k Hq Hk w2 HR2. split; [by apply Hq, (received_R _ w1)|apply Hk]. }
  case_bool_decide; [|case_bool_decide; [|case_bool_decide; [|case_bool_decide; [|case_bool_decide;
    [|case_bool_decide; [|case_bool_decide]]]]]].
  - apply wp_steady_bind; [apply steady_modifies; intros w2 Hi; by apply good_core|]. intros [] w2 HR2.
    apply wp_steady_bind; [apply steady_reads|]. intros servers w3 HR3. apply steady_modifies. intros w4 Hi. by apply good_core.
  - apply Hspawn; [|apply steady_ret]. intros w2 _. apply steady_knock.
  - apply Hspawn; [|apply steady_ret]. intros w2 Hm2. by apply wp_handleJoin.
  - apply Hspawn; [|apply steady_ret]. intros w2 Hm2. by apply wp_handlePasswordSubmit.
  - by apply wp_handleAnswer.
  - by apply wp_handleICECandidate.
  - apply Hspawn; [|apply steady_ret]. intros w2 _. apply steady_handleRelayPrepare.
  - apply steady_ret.
Qed.

Lemma wp_accepted p w : accepted p w -> hwp p (fun _ _ => True) w.
Proof.
  intros [].
  - apply steady_start.
  - apply wp_message.
  - apply steady_peer_open.
  - apply steady_peer_close.
  - apply steady_peer_candidate.
  - apply steady_relay_ready.
  - apply steady_relay_close.
  - apply steady_expired.
  - apply steady_complete.
  - apply steady_bind; [apply steady_create|intros _; apply steady_ret].
  - apply steady_bind; [apply steady_revoke|intros _; apply steady_ret].
  - apply steady_bind; [apply steady_config|intros _; apply steady_ret].
  - apply steady_stop.
Qed.

Lemma good_env w w' : Inv w -> env w w' -> good w w'.
Proof.
  intros Hi [ice answers rand offer rem now done_ Hnow].
  apply good_state; [done| |done|done|apply (inv_table _ Hi)|apply (inv_session _ Hi)].
  constructor; simpl; eauto. by exists []; rewrite app_nil_r.
Qed.

Definition sound (c : list (handler unit) * World) : Prop := sys_ok R R Inv c.
Lemma sound_moves c c' : sound c -> rtc (sys_step accepted env) c c' -> sound c' /\ R c.2 c'.2.
Proof.
  intros Hc Hr. refine (sys_reach_ok R R Inv accepted env _ _ _ c c' Hc Hr); [done|apply good_env|].
  intros p w _. apply wp_accepted.
Qed.
Lemma reachable_sound c : reachable c -> sound c.
Proof.
  intros (cfg&st&w0&now&Hr). refine (proj1 (sound_moves _ _ _ Hr)). split; [|constructor]. constructor; simpl; by intros.
Qed.
Lemma reachable_inv c : reachable c -> Inv c.2.
Proof. intros Hr. apply (reachable_sound c Hr). Qed.
Lemma reachable_moves c c' : reachable c -> rtc (sys_step accepted env) c c' -> Inv c'.2 /\ R c.2 c'.2.
Proof. intros Hr Hm. destruct (sound_moves c c' (reachable_sound c Hr) Hm) as [[Hi _] HR]. done. Qed.
End safe.
