(* ===== verification/DaemonSpec.v ===== *)
(** The daemon's theorems: who is admitted, what the sessions hold, and what
    revoking a share does, with concrete runs. *)

From S2P Require Import Prelude Conc Json TimeText Config Store SignalingClient DaemonState Daemon DaemonShares DaemonInv DaemonSafe.
#[local] Open Scope Z_scope.

Section spec.
Context `{Backends}.
Abbreviation handler := (proc World).

(** * Who is admitted *)

(** What opens a share to a connection: the answer the server passes on, which
    a relay grant needs, and a peer of its own. *)
Inductive grants (conn code : string) : effect -> Prop :=
| grant_auth : grants conn code (Sent (auth_ok conn code))
| grant_peer p servers relay : grants conn code (PeerMade p conn code servers relay).

Lemma proved_by_nonce_app l l' sh conn : proved_by_nonce l sh conn -> proved_by_nonce (l ++ l') sh conn.
Proof.
  intros (l1&l2&n&st&t&msg&->&H1&H2&H3&H4). exists l1, (l2 ++ l'), n, st, t, msg.
  split_and!; [by rewrite <- app_assoc|done|done| |apply H4..]. apply elem_of_app. by left.
Qed.
Lemma proved_by_password_app l l' s sh conn : proved_by_password l s sh conn -> proved_by_password (l ++ l') s sh conn.
Proof.
  intros (msg&H1&H2&H3&H4&H5&H6). exists msg. rewrite !elem_of_app. split_and!; [by left|done..|by left].
Qed.

(** C2 (safety). Nobody is let into a share without the proof it asks for.
    Whatever the interleaving of the server's messages, the callbacks and the
    requests of the web interface, when the daemon reports a connection as
    authorized for a code, or makes a peer for it, it has before received either
    a join of that connection and code, with a nonce stored for the connection
    at most 60 seconds before and not used since, whose HMAC proves the
    password of a share under the code (when it has one), and never for a
    protected share of the photo library; or a password of that connection that
    the photo library accepted for a share under the code. *)
Theorem daemon_admits_proved c i e conn code :
  reachable c -> w_log c.2 !! i = Some e -> grants conn code e ->
  exists s sh, share_at c.2 s sh /\ sh_Code sh = code /\
    (proved_by_nonce (take i (w_log c.2)) sh conn \/ proved_by_password (take i (w_log c.2)) s sh conn).
Proof.
  intros Hr Hi Hg. pose proof (reachable_inv c Hr) as Hinv.
  assert (authorized c.2 (take i (w_log c.2)) conn code) as (s&sh&Hs&Hc&(j&Hj)%list_elem_of_lookup).
  { pose proof (inv_log _ Hinv i e Hi) as Ha. destruct Hg; [by apply Ha|done]. }
  apply lookup_take_Some in Hj as [Hj Hlt]. destruct (inv_log _ Hinv j _ Hj) as (sh'&(x&Hx&<-)&Hp).
  destruct Hs as (x'&Hx'&<-). replace x' with x in * by congruence. exists s, (share_of x).
  split_and!; [by exists x|done|].
  rewrite <- (take_drop j (take i (w_log c.2))), take_take, Nat.min_l by lia.
  destruct Hp; [left; by apply proved_by_nonce_app|right; by apply proved_by_password_app].
Qed.

(** C26 (invariant). The table and the sessions agree, in every reachable state:
    the session under a code has that code; a closing session holds no peer and
    no relay channel, and never gets one; every peer a session holds was made
    for it and for the connection it is held under, every relay channel for
    its own id; and an answer or a candidate is given to a peer only when a
    message for that peer's connection carried it. *)
Theorem daemon_holds_its_own c :
  reachable c ->
  (forall code s, d_sessions c.2 !! code = Some s -> exists x, d_heap c.2 !! s = Some x /\ s_Code x = code) /\
  (forall s x, d_heap c.2 !! s = Some x ->
     (closing x = true -> peers x = ∅ /\ relayChannels x = ∅) /\
     (forall conn p, peers x !! conn = Some p -> peer_at c.2 p s conn (s_Code x)) /\
     (forall sid r, relayChannels x !! sid = Some r -> relay_at c.2 r s sid)) /\
  (forall p sdp, PeerAnswer p sdp ∈ w_log c.2 ->
     exists s conn code msg, peer_at c.2 p s conn code /\ Received msg ∈ w_log c.2 /\ m_Type msg = "answer"%string /\
       m_PeerID msg = conn /\ m_SDP msg = sdp) /\
  (forall p candidate, PeerCandidate p candidate ∈ w_log c.2 ->
     exists s conn code msg, peer_at c.2 p s conn code /\ Received msg ∈ w_log c.2 /\ m_Type msg = "ice_candidate"%string /\
       m_PeerID msg = conn /\ m_Candidate msg = Some candidate) /\
  (forall c' s x, rtc (sys_step accepted env) c c' -> d_heap c.2 !! s = Some x -> closing x = true ->
     exists x', d_heap c'.2 !! s = Some x' /\ peers x' = ∅ /\ relayChannels x' = ∅).
Proof.
  intros Hr. pose proof (reachable_inv c Hr) as Hi.
  assert (forall i, take i (w_log c.2) ⊆ w_log c.2) as Htake by (intros i; apply subseteq_take).
  split_and!.
  - apply (inv_table _ Hi).
  - apply (inv_session _ Hi).
  - intros p sdp (i&Hl)%list_elem_of_lookup. destruct (inv_log _ Hi i _ Hl) as (s&conn&code&msg&?&Hm&?).
    exists s, conn, code, msg. split_and!; try apply Htake in Hm; naive_solver.
  - intros p cand (i&Hl)%list_elem_of_lookup. destruct (inv_log _ Hi i _ Hl) as (s&conn&code&msg&?&Hm&?).
    exists s, conn, code, msg. split_and!; try apply Htake in Hm; naive_solver.
  - intros c' s x Hrtc Hx Hc. destruct (reachable_moves c c' Hr Hrtc) as [Hi' HR].
    destruct (r_share _ _ HR s x Hx) as (x'&Hx'&_&Hc'). exists x'. split; [done|]. by apply (inv_session _ Hi' s x'), Hc'.
Qed.
(** * Revoking a share *)

Definition logs (l : list effect) (w : World) : World := foldl (fun w e => add_log e w) w l.

Lemma log_logs l w : w_log (logs l w) = w_log w ++ l.
Proof. revert w. induction l as [|e l IH]; intros w; simpl; [by rewrite app_nil_r|]. rewrite IH. simpl. by rewrite <- app_assoc. Qed.
Lemma logs_rest l w : d_sessions (logs l w) = d_sessions w /\ d_heap (logs l w) = d_heap w /\ d_store (logs l w) = d_store w.
Proof. revert w. induction l as [|e l IH]; intros w; [done|]. simpl. by destruct (IH (add_log e w)) as (->&->&->). Qed.

Lemma tot_for_each_log {A} (l : list A) (f : A -> effect) (Q : unit -> World -> Prop) w :
  Q tt (logs (f <$> l) w) -> returns (for_each l (fun x => log (f x))) Q w.
Proof.
  revert w. induction l as [|x l IH]; intros w HQ; [by apply tot_ret|]. cbn [for_each]. apply tot_bind, tot_modifies. by apply IH.
Qed.

(** Closing a session alone: it returns, and everything the session held is closed. *)
Lemma tot_close_session s x (Q : unit -> World -> Prop) w :
  d_heap w !! s = Some x ->
  (forall ps rs, ps ≡ₚ map_to_list (peers x) -> rs ≡ₚ map_to_list (relayChannels x) ->
     Q tt (logs ((PeerClosed ∘ snd <$> ps) ++ (RelayClosed ∘ snd <$> rs)) (upd_session s (with_resources ∅ ∅ true) w))) ->
  returns (closeSessionResources s) Q w.
Proof.
  intros Hx HQ. unfold closeSessionResources, closeSessionResourcesWithError. apply tot_bind.
  apply tot_choices; unfold field_of; rewrite Hx.
  - intros E. eapply (not_elem_of_nil (map_to_list (peers x), map_to_list (relayChannels x), upd_session s (with_resources ∅ ∅ true) w)).
    rewrite <- E. apply list_elem_of_bind. eexists. split; [|apply permutations_refl].
    apply list_elem_of_bind. eexists. split; [|apply permutations_refl]. by apply list_elem_of_singleton.
  - intros [ps rs] w2 Hin. apply list_elem_of_bind in Hin as (ps'&Hin&Hps%permutations_Permutation).
    apply list_elem_of_bind in Hin as (rs'&Hin&Hrs%permutations_Permutation).
    apply list_elem_of_singleton in Hin as [= -> -> ->].
    rewrite bool_decide_eq_true_2 by done. apply tot_bind, tot_ret, tot_bind, tot_for_each_log, tot_for_each_log.
    specialize (HQ ps' rs' (symmetry Hps) (symmetry Hrs)). unfold logs in *. by rewrite foldl_app in HQ.
Qed.

Lemma tot_notify m (Q : unit -> World -> Prop) w : Q tt w -> Q tt (add_log (Sent m) w) -> returns (send m) Q w.
Proof.
  intros H1 H2. apply tot_choices; [done|]. intros [] w2 Hin. rewrite !elem_of_cons in Hin.
  by destruct Hin as [[= ->]|[[= ->]|[]%elem_of_nil]].
Qed.
Lemma tot_delete code (Q : result unit string -> World -> Prop) w : store_wf (d_store w) ->
  (forall r st, store_wf st -> as_map st = delete code (as_map (d_store w)) -> Q r (set_store st w)) ->
  returns (store_delete code) Q w.
Proof.
  intros Hwf HQ. apply tot_choices; [by destruct (find_code _ _)|]. intros r w2 Hin.
  destruct (find_code code (Sessions (d_store w))) as [i|] eqn:Hf.
  - destruct (find_code_Some _ _ _ Hf) as (e&Hl&<-). destruct (delete_map _ _ _ Hwf Hl) as [Hwf' Hmap]. cbv zeta in Hin.
    rewrite !elem_of_cons in Hin. by destruct Hin as [[= -> ->]|[[= -> ->]|[]%elem_of_nil]]; apply HQ.
  - apply list_elem_of_singleton in Hin as [= -> ->]. replace w with (set_store (d_store w) w) by by destruct w.
    apply HQ; [done|]. symmetry. by apply delete_id, absent_map.
Qed.

(** C16 (functional). Revoking a share always returns.  For a code no session
    has, it is an error and nothing changes.  Else it succeeds, the code has no
    session any more, every other session stays as it is, the session is closing
    and holds nothing, every peer and every relay channel it held was closed,
    and the store loses exactly the entry of that code, even when saving the
    store or telling the server fails. *)
Theorem revoke_closes_everything code w :
  store_wf (d_store w) -> (forall s, d_sessions w !! code = Some s -> is_Some (d_heap w !! s)) ->
  returns (RevokeSession code) (fun r w' =>
    match d_sessions w !! code with
    | None => r = Err ("session " ++ code ++ " not found")%string /\ w' = w
    | Some s =>
        r = Ok tt /\ d_sessions w' = delete code (d_sessions w) /\
        d_heap w' = alter (with_resources ∅ ∅ true) s (d_heap w) /\
        (forall x conn p, d_heap w !! s = Some x -> peers x !! conn = Some p -> PeerClosed p ∈ w_log w') /\
        (forall x sid c, d_heap w !! s = Some x -> relayChannels x !! sid = Some c -> RelayClosed c ∈ w_log w') /\
        as_map (d_store w') = delete code (as_map (d_store w))
    end) w.
Proof.
  intros Hwf Hheap. unfold RevokeSession. apply tot_bind, tot_atomic.
  destruct (d_sessions w !! code) as [s|] eqn:Hs; [|by apply tot_ret]. destruct (Hheap s eq_refl) as [x Hx]. cbn [fst snd].
  apply tot_bind, (tot_close_session s x); [done|]. intros ps rs Hps Hrs. set (l := _ ++ _).
  set (w1 := upd_session _ _ _). destruct (logs_rest l w1) as (E1&E2&E3).
  apply tot_bind, tot_delete; [by rewrite E3|]. intros r st Hst Hmap. rewrite E3 in Hmap.
  assert (forall e, e ∈ l -> e ∈ w_log (set_store st (logs l w1))) as Hin.
  { intros e He. change (w_log (set_store st (logs l w1))) with (w_log (logs l w1)). rewrite log_logs. apply elem_of_app. by right. }
  assert (forall x' conn p, d_heap w !! s = Some x' -> peers x' !! conn = Some p -> PeerClosed p ∈ l) as Hp.
  { intros x' conn p Hx' Hl. replace x' with x in * by congruence. apply elem_of_app. left. apply list_elem_of_fmap.
    exists (conn, p). split; [done|]. rewrite Hps. by apply elem_of_map_to_list. }
  assert (forall x' sid c, d_heap w !! s = Some x' -> relayChannels x' !! sid = Some c -> RelayClosed c ∈ l) as Hr.
  { intros x' sid c Hx' Hl. replace x' with x in * by congruence. apply elem_of_app. right. apply list_elem_of_fmap.
    exists (sid, c). split; [done|]. rewrite Hrs. by apply elem_of_map_to_list. }
  apply tot_bind, tot_notify; apply tot_bind, tot_modifies, tot_ret; simpl; rewrite E1, E2;
    (split_and!; [done..| | |done]; intros; rewrite ?elem_of_app; eauto 6).
Qed.
End spec.

(** * Runs *)

(** A storage that is always there, and a photo library whose password is "pw". *)
#[local] Instance demo_backends : Backends :=
  {| remote := unit; webdav := unit; new_webdav := fun _ _ _ _ => Ok tt; GetRootFileID := fun _ _ => Ok "f1"%string;
     immich := unit; new_immich := fun _ _ => Ok tt; ValidatePassword := fun _ p _ => Ok (bool_decide (p = "pw"%string));
     PollShares := fun _ _ => Ok []; public_key := Ok; candidate_ok := fun _ => true |}.

Definition demo_config : Config := mkConfig 1 "wss://relay.example" "key" "" "" "agent" "" "" "" 30 24 10 false 7878 "127.0.0.1" "".
Definition demo_store : storeData := mkData "agent" "0a" [].
Definition demo_start : World := New demo_config demo_store tt 0.
(** The server's answer, and random bytes, come. *)
Definition demo_env (w : World) : World :=
  mkWorld (d_config w) (d_sessions w) (d_heap w) (d_nonces w) (d_peers w) (d_relays w) (d_store w) (d_connected w) (d_hasTURN w)
    [] [Ok ("k7"%string, false)] [[x01; x02]] "v=0" (w_remote w) (w_now w) (w_done w) (w_log w).
Definition demo_message (type : string) (hmac : string) : Message :=
  mkMessage type "" "" "" None "" "k7" "c1" hmac "" false [] "" "" "".
Definition demo_hmac : string := hex_encode (Sha256.hmac_sha256 (String.list_byte_of_string "secret") (String.list_byte_of_string "0102")).

(** A share with a password is made; a browser knocks and joins. *)
Definition demo_moves : list (move World) :=
  [Accept (_ ← CreateSession "https://cloud.example/s/x" "opencloud" "secret" (3600 * Second) 0 false; mret tt); Env demo_env]
  ++ replicate 9 (Run 0 0)
  ++ [Accept (handleSignalingMessage (demo_message "knock" "")); Run 1 0; Run 1 0; Run 2 0; Run 2 1; Run 2 0; Run 2 0; Run 2 0]
  ++ [Accept (handleSignalingMessage (demo_message "join" demo_hmac)); Run 3 0; Run 3 0] ++ replicate 7 (Run 4 0)
  ++ replicate 7 (Run 5 0).

Definition demo_facts (c : list (proc World unit) * World) :=
  (w_log c.2 !! 9%nat, d_sessions c.2 !! "k7"%string, s_Code <$> d_heap c.2 !! 0%nat,
   d_heap c.2 !! 0%nat ≫= (fun x => peers x !! "c1"%string),
   (fun e => (se_Code e, se_MaxDownloads e, se_Downloads e)) <$> Sessions (d_store c.2)).
Lemma demo_run : exists c, run_moves demo_moves ([], demo_start) = Some c /\
  demo_facts c = (Some (PeerMade 0 "c1" "k7" [mkICE ["stun:stun.cloudflare.com:3478"%string] "" ""] false),
                  Some 0%nat, Some "k7"%string, Some 0%nat, [("k7"%string, 0, 0)]).
Proof.
  assert (demo_facts <$> run_moves demo_moves ([], demo_start)
          = Some (Some (PeerMade 0 "c1" "k7" [mkICE ["stun:stun.cloudflare.com:3478"%string] "" ""] false),
                  Some 0%nat, Some "k7"%string, Some 0%nat, [("k7"%string, 0, 0)])) as Hrun by (vm_compute; reflexivity).
  destruct (run_moves demo_moves ([], demo_start)) as [c|]; [|discriminate Hrun]. exists c. split; [reflexivity|].
  exact (inj Some _ _ Hrun).
Qed.

Lemma demo_run_reachable c : run_moves demo_moves ([], demo_start) = Some c -> reachable c.
Proof.
  intros Hrun. exists demo_config, demo_store, tt, 0. eapply run_moves_reach; [|exact Hrun].
  unfold demo_moves. repeat first [apply Forall_cons; split|apply Forall_app; split|apply Forall_nil; exact I|apply Forall_replicate];
    cbn [move_ok]; try exact I; intros w;
    match goal with
    | |- accepted (handleSignalingMessage _) _ => apply acc_message
    | |- accepted _ _ => apply acc_create
    | |- env _ _ => constructor; reflexivity
    end.
Qed.

Lemma daemon_admits_proved_witness : exists c s sh, reachable c /\
  w_log c.2 !! 9%nat = Some (PeerMade 0 "c1" "k7" [mkICE ["stun:stun.cloudflare.com:3478"%string] "" ""] false) /\
  share_at c.2 s sh /\ sh_Code sh = "k7"%string /\
  (proved_by_nonce (take 9 (w_log c.2)) sh "c1" \/ proved_by_password (take 9 (w_log c.2)) s sh "c1").
Proof.
  destruct demo_run as (c&Hrun&[= Hlog _ _ _ _]). pose proof (demo_run_reachable c Hrun) as Hr.
  destruct (daemon_admits_proved c 9 _ "c1" "k7" Hr Hlog (grant_peer _ _ _ _ _)) as (s&sh&H1&H2&H3).
  exists c, s, sh. split_and!; assumption.
Defined.

Lemma daemon_holds_its_own_witness : exists c, reachable c /\ d_sessions c.2 !! "k7"%string = Some 0%nat /\ peer_at c.2 0 0 "c1" "k7".
Proof.
  destruct demo_run as (c&Hrun&[= _ Ht Hcode Hp _]). pose proof (demo_run_reachable c Hrun) as Hr.
  destruct (daemon_holds_its_own c Hr) as (_&Hs&_). exists c. split; [exact Hr|]. split; [exact Ht|].
  destruct (d_heap c.2 !! 0%nat) as [x|] eqn:Hx; [|discriminate Hp]. apply (inj Some) in Hcode.
  rewrite <- Hcode. destruct (Hs 0%nat x Hx) as (_&Hps&_). exact (Hps _ _ Hp).
Defined.

Lemma revoke_closes_everything_witness : exists w, d_sessions w !! "k7"%string = Some 0%nat /\
  (d_heap w !! 0%nat) ≫= (fun x => peers x !! "c1"%string) = Some 0%nat /\
  returns (RevokeSession "k7") (fun r w' => r = Ok tt /\ d_sessions w' !! "k7"%string = None /\ PeerClosed 0 ∈ w_log w') w.
Proof.
  destruct demo_run as (c&Hrun&[= _ Ht _ Hp Hst]). exists c.2. split; [exact Ht|]. split; [exact Hp|].
  assert (store_wf (d_store c.2)) as Hwf.
  { unfold store_wf, data_ok, codes. destruct (Sessions (d_store c.2)) as [|e [|]]; [discriminate Hst| |discriminate Hst].
    injection Hst as Hcode Hmax Hdown. split; [|apply NoDup_singleton].
    apply Forall_singleton. unfold entry_ok, int_ok. rewrite Hmax, Hdown. lia. }
  eapply returns_mono; [|apply (revoke_closes_everything "k7" c.2 Hwf)].
  - intros r w' HQ. rewrite Ht in HQ. destruct HQ as (Hr&Htab&_&Hclosed&_). split; [exact Hr|]. split.
    + rewrite Htab. apply lookup_delete_eq.
    + destruct (d_heap c.2 !! 0%nat) as [x|] eqn:Hx; [|discriminate Hp]. exact (Hclosed x _ _ eq_refl Hp).
  - intros s Hs. rewrite Ht in Hs. injection Hs as <-. destruct (d_heap c.2 !! 0%nat) as [x|]; [exists x; reflexivity|discriminate Hp].
Defined.
