(* ===== verification/WebDav.v ===== *)
(** The client of the cloud storages (agent/internal/cloudwebdav/client.go):
    public shares of OpenCloud and Nextcloud over WebDAV.  The XML a server
    answers is what encoding/xml decodes of it.  Text beyond ASCII has no
    spaces and no capitals here. *)

From Stdlib Require Import Ascii.
From S2P Require Import Prelude GoText Json GoUrl Base64 Http Lanes Conc TransferState.
#[local] Open Scope Z_scope.

(** * Text *)

(** [strings.Fields]. *)
Fixpoint fields_from (word : string) (s : string) : list string :=
  let flush l := if bool_decide (word = ""%string) then l else word :: l in
  match s with
  | EmptyString => flush []
  | String c t => if is_space c then flush (fields_from "" t) else fields_from (word +:+ String c "") t
  end.
Definition Fields : string -> list string := fields_from "".
Fixpoint take_while (f : ascii -> bool) (s : string) : string :=
  match s with String c t => if f c then String c (take_while f t) else EmptyString | EmptyString => EmptyString end.

(** [fmt.Sscanf(s, "%d", &n)] into an [int64]: spaces but no newline, a sign, digits. *)
Definition Sscanf_d (s : string) : option Z :=
  let s := drop_while (fun c => is_space c && negb (bool_decide (c = "010"%char))) s in
  let '(negative, s) := match s with String "-" t => (true, t) | String "+" t => (false, t) | _ => (false, s) end in
  let digits := take_while is_digit s in
  if bool_decide (digits = ""%string) then None
  else
    n ← parse_digits 0 digits;
    let n := if (negative : bool) then - n else n in
    if (- 2 ^ 63 <=? n) && (n <? 2 ^ 63) then Some n else None.

(** * The answers of a server *)

(** [agent/internal/cloudwebdav/client.go:318-335] response *)
Record response := mkResponse {
  Href : string; DisplayName : string; ContentLength : string; ContentType : string; Collection : bool;
  ChecksumsValue : string; ChecksumsChecksum : string; FileID : string }.
(** A body as XML, and the [sha1] of a body as JSON. *)
Record document := mkDoc { doc_xml : result (list response) string; doc_sha1 : option string }.
Abbreviation webdav_server := (requests -> http_request -> result (http_response document) string).

(** * The client *)

(** [agent/internal/cloudwebdav/client.go:32-35] Backend *)
Inductive CloudBackend := BackendOpenCloud | BackendNextcloud.

(** [agent/internal/cloudwebdav/client.go:49-56] Client *)
Record Client := mkClient { baseURL : string; selfPath : string; token : string; password : string; backend_of : CloudBackend }.

(** The last element of a path, without its outer slashes. *)
Definition last_element (p : string) : string :=
  default ""%string (last (split_slash (trim_by (fun c => bool_decide (c = "/"%char)) p))).

(** [agent/internal/cloudwebdav/client.go:67-118] New *)
Definition New (shareType shareURL : string) (allowedHosts : list string) (password : string) : result Client string :=
  match url_Parse shareURL with
  | Err e => Err ("invalid URL: " +:+ e)%string
  | Ok u =>
      if negb (existsb (fun host => negb (bool_decide (host = ""%string)) && bool_decide (u_host u = host)) allowedHosts)
      then Err ("host " +:+ u_host u +:+ " not in allowed list")%string
      else
        let token := last_element (unescape (u_path u)) in
        if bool_decide (token = ""%string) then Err "could not extract token from URL"%string
        else
          let client prefix backend :=
            Ok (mkClient ("https://" +:+ u_host u +:+ prefix +:+ token) (prefix +:+ token) token password backend)%string in
          if bool_decide (shareType = "opencloud"%string) then client "/remote.php/dav/public-files/"%string BackendOpenCloud
          else if bool_decide (shareType = "nextcloud"%string) then client "/public.php/dav/files/"%string BackendNextcloud
          else Err ("unsupported share type " +:+ shareType)%string
  end.

(** [agent/internal/cloudwebdav/client.go:122-125] authHeader *)
Definition authHeader (c : Client) : string * string := ("Authorization", "Basic " +:+ std_encode (String.list_byte_of_string (token c +:+ ":" +:+ password c)))%string.

(** * Requests *)

(** [agent/internal/cloudwebdav/client.go:17-27] propfindBody *)
Definition propfindBody : string :=
  let q := String "034"%char "" in
  let nl := String "010"%char "" in
  ("<?xml version=" +:+ q +:+ "1.0" +:+ q +:+ " encoding=" +:+ q +:+ "UTF-8" +:+ q +:+ "?>" +:+ nl
   +:+ "<D:propfind xmlns:D=" +:+ q +:+ "DAV:" +:+ q +:+ " xmlns:oc=" +:+ q +:+ "http://owncloud.org/ns" +:+ q +:+ ">" +:+ nl
   +:+ "  <D:prop>" +:+ nl +:+ "    <D:displayname/>" +:+ nl +:+ "    <D:getcontentlength/>" +:+ nl +:+ "    <D:getcontenttype/>" +:+ nl
   +:+ "    <D:resourcetype/>" +:+ nl +:+ "    <oc:checksums/>" +:+ nl +:+ "    <oc:fileid/>" +:+ nl +:+ "  </D:prop>" +:+ nl +:+ "</D:propfind>")%string.

Definition of_dir (base sub : string) : string := (if bool_decide (sub = "") then base else base +:+ "/" +:+ sub)%string.

(** ** Listings *)

(** [agent/internal/cloudwebdav/client.go:400-409] extractSHA1 *)
Definition extractSHA1 (checksumStr : string) : string :=
  match find (has_prefix "SHA1:") (Fields checksumStr) with Some token => lower (str_drop 5 token) | None => ""%string end.
(** [agent/internal/cloudwebdav/client.go:411-419] checksumString *)
Definition checksumString (r : response) : string :=
  if bool_decide (ChecksumsChecksum r = ""%string) then TrimSpace (ChecksumsValue r) else ChecksumsChecksum r.
(** [agent/internal/cloudwebdav/client.go:391-395] parseInt64 *)
Definition parseInt64 (s : string) : Z := default 0 (Sscanf_d s).

(** One entry of a listing, unless it is left out.
    [agent/internal/cloudwebdav/client.go:349-386] parsePROPFIND *)
Definition entry_of (selfPath : string) (r : response) : option FileInfo :=
  let href := PathUnescape (Href r) in
  let self := bool_decide (path_Clean href = path_Clean selfPath) in
  if Collection r then
    if self then None else Some (mkFileInfo (path_Base href) 0 "" true "" "")
  else
    let requestPath := TrimPrefix (TrimPrefix (path_Clean href) (path_Clean selfPath)) "/" in
    let name := if self && negb (bool_decide (DisplayName r = ""%string)) then DisplayName r else path_Base href in
    if bool_decide (name = ""%string) || bool_decide (name = "."%string) then None
    else Some (mkFileInfo name (if bool_decide (ContentLength r = ""%string) then 0 else parseInt64 (ContentLength r)) (ContentType r) false
                 (extractSHA1 (checksumString r)) (if self then ""%string else requestPath)).
(** [agent/internal/cloudwebdav/client.go:341-389] parsePROPFIND *)
Definition parsePROPFIND (data : result (list response) string) (selfPath : string) : result (list FileInfo) string :=
  match data with
  | Err e => Err ("parse XML: " +:+ e)%string
  | Ok l => Ok (omap (entry_of selfPath) l)
  end.

(** * Calls *)

Section calls.
Context (server : webdav_server) (c : Client).

(** The client's own [http.Client]: ten requests, whatever the hosts. *)
Definition do_request : http_request -> net (result (http_response document) string) := Do server 10 ten_redirects.
Definition propfind_headers (depth : string) : list (string * string) :=
  [("Depth", depth); authHeader c; ("Content-Type", "application/xml")]%string.

(** [agent/internal/cloudwebdav/client.go:129-163] ListFiles *)
Definition ListFiles (subpath : string) : net (result (list FileInfo) string) :=
  match NewRequest "PROPFIND" (of_dir (baseURL c) subpath) (propfind_headers "1") (TextBody propfindBody) with
  | Err e => mret (Err e)
  | Ok rq =>
      resp ← do_request rq;
      mret (match resp with
            | Err e => Err ("PROPFIND request failed: " +:+ e)%string
            | Ok resp => if negb (rs_status resp =? 207) then Err ("PROPFIND returned " +:+ rs_text resp)%string
                         else parsePROPFIND (doc_xml (rs_doc resp)) (of_dir (selfPath c) subpath)
            end)
  end.

(** What is copied to the writer, and the error.
    [agent/internal/cloudwebdav/client.go:167-190] GetFile *)
Definition GetFile (name : string) : net (list bytes * option string) :=
  match NewRequest "GET" (of_dir (baseURL c) name) [authHeader c] NoBody with
  | Err e => mret ([], Some e)
  | Ok rq =>
      resp ← do_request rq;
      mret (match resp with
            | Err e => ([], Some ("GET request failed: " +:+ e)%string)
            | Ok resp => if negb (rs_status resp =? 200) then ([], Some ("GET returned " +:+ rs_text resp)%string) else rs_data resp
            end)
  end.

(** [agent/internal/cloudwebdav/client.go:256-264] propfindFileID *)
Definition first_file_id (depth : string) (l : list response) : string :=
  default ""%string (head (filter (fun id => id <> ""%string)
    (map FileID (filter (fun r => ~ (depth = "1"%string /\ has_suffix "/" (PathUnescape (Href r)) = true)) l)))).
(** [agent/internal/cloudwebdav/client.go:222-266] propfindFileID *)
Definition propfindFileID (depth : string) : net (result string string) :=
  match NewRequest "PROPFIND" (baseURL c) (propfind_headers depth) (TextBody propfindBody) with
  | Err e => mret (Err e)
  | Ok rq =>
      resp ← do_request rq;
      mret (match resp with
            | Err e => Err ("PROPFIND request failed: " +:+ e)%string
            | Ok resp =>
                if negb (rs_status resp =? 207) then Err ("PROPFIND returned " +:+ rs_text resp)%string
                else match doc_xml (rs_doc resp) with
                     | Err e => Err ("parse XML: " +:+ e)%string
                     | Ok l => Ok (first_file_id depth l)
                     end
            end)
  end.
(** [agent/internal/cloudwebdav/client.go:205-217] GetRootFileID *)
Definition GetRootFileID : net (result string string) :=
  fileID ← propfindFileID "0";
  match fileID with
  | Err e => mret (Err e)
  | Ok id => if bool_decide (id = ""%string) then propfindFileID "1" else mret (Ok id)
  end.

(** [agent/internal/cloudwebdav/client.go:275-310] GetSHA1 *)
Definition GetSHA1 (subpath : string) : net string :=
  match backend_of c with
  | BackendOpenCloud => mret ""%string
  | BackendNextcloud =>
      match url_Parse (baseURL c) with
      | Err _ => mret ""%string
      | Ok u =>
          let params := (if bool_decide (subpath = ""%string) then [] else [("path"%string, subpath)]) ++ [("token"%string, token c)] in
          match NewRequest "GET" ("https://" +:+ u_host u +:+ "/apps/sharebridge/api/public/share-checksum")%string [] NoBody with
          | Err _ => mret ""%string
          | Ok rq =>
              let u := rq_url rq in
              resp ← do_request (mkReq "GET" (mkURL (u_scheme u) (u_host u) (u_path u) (u_query u) params) [] NoBody);
              mret (match resp with
                    | Ok resp => if rs_status resp =? 200 then default ""%string (doc_sha1 (rs_doc resp)) else ""%string
                    | Err _ => ""%string
                    end)
          end
      end
  end.
End calls.
