(* ===== verification/Immich.v ===== *)
(** The client of the photo library (agent/internal/immich/client.go): the
    shared links it polls, passwords, galleries and their pages, assets and
    archives.  A client is a value; a call that learns the server's version or a
    password returns the new one.  A JSON body is the part of it that is read,
    with its numbers whole; [strconv.ParseFloat] is a parameter. *)

From Stdlib Require Import Ascii Floats.SpecFloat.
From stdpp Require Import pretty.
From S2P Require Import Prelude GoText Json GoUrl Base64 Float64 Http.
#[local] Open Scope Z_scope.

(** * Data *)

(** [agent/internal/immich/client.go:22-28] Config *)
Record Config := mkConfig { BaseURL : string; AllowedHost : string; APIKey : string; ShareKey : string; Password : string }.
(** [agent/internal/immich/client.go:43-48] serverVersion *)
Record serverVersion := mkVersion { Major : Z; Minor : Z; Patch : Z; Prerelease : option Z }.
(** [agent/internal/immich/client.go:30-41] Client *)
Record Client := mkClient {
  baseURL : URL; allowed : string; apiKey : string; shareKey : string; password : string; version : option serverVersion }.
(** [agent/internal/immich/client.go:58-62] Album *)
Record Album := mkAlbum { al_ID : string; al_Name : string; al_Description : string }.
(** [agent/internal/immich/client.go:76-79] assetDuration *)
Record assetDuration := mkDuration { legacy : string; milliseconds : option float64 }.
(** [agent/internal/immich/client.go:128-132] ExifInfo *)
Record ExifInfo := mkExif { ExifImageWidth : Z; ExifImageHeight : Z; FileSizeInByte : Z }.
(** [agent/internal/immich/client.go:64-72] Asset *)
Record Asset := mkAsset {
  as_ID : string; OriginalFileName : string; OriginalMimeType : string; as_Type : string; Duration : assetDuration;
  Checksum : string; exifInfo : option ExifInfo }.
(** [agent/internal/immich/client.go:50-56] SharedLink *)
Record SharedLink := mkLink { Key : string; link_Password : string; link_Type : string; link_Album : option Album; Assets : list Asset }.
(** [agent/internal/immich/client.go:151-160] GalleryItem *)
Record GalleryItem := mkItem {
  it_ID : string; Name : string; MimeType : string; Width : Z; Height : Z; Size : Z; it_Duration : option float64; SHA1 : string }.
(** [agent/internal/immich/client.go:145-149] Gallery *)
Record Gallery := mkGallery { AlbumName : string; AlbumDescription : string; Items : list GalleryItem }.
(** [agent/internal/immich/client.go:162-165] DownloadArchive *)
Record DownloadArchive := mkArchive { AssetIDs : list string; ar_Size : Z }.
(** [agent/internal/immich/client.go:167-171] AlbumDownload *)
Record AlbumDownload := mkDownload { dl_AlbumName : string; TotalSize : Z; Archives : list DownloadArchive }.

(** [agent/internal/immich/client.go:134-139] FileSize *)
Definition FileSize (a : Asset) : Z := match exifInfo a with Some e => FileSizeInByte e | None => 0 end.
(** [agent/internal/immich/client.go:141-143] IsPasswordProtected *)
Definition IsPasswordProtected (s : SharedLink) : bool := negb (bool_decide (link_Password s = ""%string)).

(** ** Decoding *)

(** A list, whose [null] elements are [zero]. *)
Definition dec_list {A} (zero : A) (dec : json -> option A) (v : json) : option (list A) :=
  match v with JArr l => mapM (fun v => match v with JNull => Some zero | _ => dec v end) l | _ => None end.
Definition of_object {A} (dec : obj -> option A) (v : json) : option A := match v with JObj o => dec o | _ => None end.

Definition no_duration : assetDuration := mkDuration "" None.
Definition infinite (x : float64) : bool := match x with S754_infinity _ | S754_nan => true | _ => false end.
(** [agent/internal/immich/client.go:91-114] UnmarshalJSON *)
Definition dec_duration (v : json) : option assetDuration :=
  match v with
  | JNull => Some no_duration
  | JStr s => Some (mkDuration s None)
  | JNum n => if (n <? 0) || infinite (f64_of_Z n) then None else Some (mkDuration "" (Some (f64_of_Z n)))
  | _ => None
  end.
Definition dec_exif (o : obj) : option ExifInfo :=
  w ← field dec_int64 "exifImageWidth" 0 o; h ← field dec_int64 "exifImageHeight" 0 o; s ← field dec_int64 "fileSizeInByte" 0 o;
  Some (mkExif w h s).
Definition no_asset : Asset := mkAsset "" "" "" "" no_duration "" None.
Definition dec_asset (o : obj) : option Asset :=
  id ← field dec_str "id" ""%string o; name ← field dec_str "originalFileName" ""%string o;
  mime ← field dec_str "originalMimeType" ""%string o; type ← field dec_str "type" ""%string o;
  duration ← field_with (const no_duration) dec_duration "duration" no_duration o;
  checksum ← field dec_str "checksum" ""%string o; exif ← field_ptr (of_object dec_exif) "exifInfo" o;
  Some (mkAsset id name mime type duration checksum exif).
Definition dec_assets : json -> option (list Asset) := dec_list no_asset (of_object dec_asset).
Definition dec_album (o : obj) : option Album :=
  id ← field dec_str "id" ""%string o; name ← field dec_str "albumName" ""%string o;
  description ← field dec_str "description" ""%string o; Some (mkAlbum id name description).
Definition no_link : SharedLink := mkLink "" "" "" None [].
Definition dec_link (o : obj) : option SharedLink :=
  key ← field dec_str "key" ""%string o; pw ← field dec_str "password" ""%string o; type ← field dec_str "type" ""%string o;
  album ← field_ptr (of_object dec_album) "album" o; assets ← field_with (const []) dec_assets "assets" [] o;
  Some (mkLink key pw type album assets).
Definition dec_links : json -> option (list SharedLink) := dec_list no_link (of_object dec_link).
Definition dec_version (o : obj) : option serverVersion :=
  major ← field dec_int64 "major" 0 o; minor ← field dec_int64 "minor" 0 o; patch ← field dec_int64 "patch" 0 o;
  pre ← field_ptr dec_int64 "prerelease" o; Some (mkVersion major minor patch pre).
(** The assets of an album; a page of a search, with the next page's number. *)
Definition dec_album_assets (o : obj) : option (list Asset) := field_with (const []) dec_assets "assets" [] o.
Definition dec_page (o : obj) : option (list Asset * option string) :=
  field (of_object (fun o => items ← field_with (const []) dec_assets "items" [] o;
                             next ← field_ptr dec_str "nextPage" o; Some (items, next))) "assets" ([], None) o.
Definition dec_archive (o : obj) : option DownloadArchive :=
  ids ← field_with (const []) (dec_list ""%string dec_str) "assetIds" [] o; size ← field dec_int64 "size" 0 o; Some (mkArchive ids size).
(** Into a download that already has the album's name. *)
Definition dec_download (name : string) (o : obj) : option AlbumDownload :=
  name ← field dec_str "AlbumName" name o; total ← field dec_int64 "totalSize" 0 o;
  archives ← field_with (const []) (dec_list (mkArchive [] 0) (of_object dec_archive)) "archives" [] o;
  Some (mkDownload name total archives).
(** The top of a body: [null] leaves the zero value. *)
Definition top {A} (zero : A) (dec : json -> option A) (v : option json) : option A :=
  match v with Some JNull => Some zero | Some v => dec v | None => None end.

(** * Items *)

(** [agent/internal/immich/client.go:697-703] decodeBase64SHA1 *)
Definition decodeBase64SHA1 (input : string) : string :=
  match std_decode input with Some raw => if (length raw =? 20)%nat then hex_encode raw else ""%string | None => ""%string end.

(** [strings.Split] at colons. *)
Fixpoint split_colon (s : string) : list string :=
  match s with
  | EmptyString => [EmptyString]
  | String c s' =>
      if bool_decide (c = ":"%char) then EmptyString :: split_colon s'
      else match split_colon s' with e :: l => String c e :: l | [] => [String c EmptyString] end
  end.
Definition wrap64 (n : Z) : Z := (n + 2 ^ 63) mod 2 ^ 64 - 2 ^ 63.

Section items.
Context (ParseFloat : string -> option float64).

(** [agent/internal/immich/client.go:705-727] parseDurationSeconds *)
Definition parseDurationSeconds (input : string) : option float64 :=
  match split_colon input with
  | [h; m; s] =>
      hours ← Atoi h; minutes ← Atoi m; seconds ← ParseFloat s;
      Some (f64_add (f64_of_Z (wrap64 (hours * 3600 + minutes * 60))) seconds)
  | _ => None
  end.
(** [agent/internal/immich/client.go:116-122] seconds *)
Definition seconds (d : assetDuration) : option float64 :=
  match milliseconds d with Some ms => Some (f64_div ms (f64_of_Z 1000)) | None => parseDurationSeconds (legacy d) end.

(** [agent/internal/immich/client.go:534-548] galleryItemFromAsset *)
Definition galleryItemFromAsset (a : Asset) : GalleryItem :=
  mkItem (as_ID a) (OriginalFileName a) (OriginalMimeType a)
    (match exifInfo a with Some e => ExifImageWidth e | None => 0 end)
    (match exifInfo a with Some e => ExifImageHeight e | None => 0 end)
    (FileSize a) (seconds (Duration a)) (decodeBase64SHA1 (Checksum a)).
End items.

(** * The client *)

(** [agent/internal/immich/client.go:218-220] canonicalHost *)
Definition canonicalHost (host : string) : string := lower (TrimSuffix host ".").
(** [agent/internal/immich/client.go:211-216] hostAllowed *)
Definition hostAllowed (got allowed : string) : bool :=
  negb (bool_decide (allowed = ""%string)) && bool_decide (canonicalHost got = canonicalHost allowed).

(** [agent/internal/immich/client.go:175-209] New *)
Definition New (cfg : Config) : result Client string :=
  match url_Parse (BaseURL cfg) with
  | Err e => Err ("invalid base URL: " +:+ e)%string
  | Ok u =>
      if bool_decide (u_scheme u = ""%string) || bool_decide (u_host u = ""%string)
      then Err "invalid base URL: missing scheme or host"%string
      else if negb (hostAllowed (u_host u) (AllowedHost cfg)) then Err ("host " +:+ u_host u +:+ " not allowed")%string
      else Ok (mkClient u (AllowedHost cfg) (APIKey cfg) (ShareKey cfg) (Password cfg) None)
  end.
(** [agent/internal/immich/client.go:194-199] New *)
Definition CheckRedirect (allowed : string) (_ : nat) (u : URL) : option string :=
  if hostAllowed (u_host u) allowed then None else Some ("redirect host " +:+ u_host u +:+ " not allowed")%string.

Definition set_version (v : serverVersion) (c : Client) : Client :=
  mkClient (baseURL c) (allowed c) (apiKey c) (shareKey c) (password c) (Some v).
Definition set_password (p : string) (c : Client) : Client :=
  mkClient (baseURL c) (allowed c) (apiKey c) (shareKey c) p (version c).

(** [agent/internal/immich/client.go:679-686] addSharedLinkParams *)
Definition shared_params (c : Client) : list (string * string) :=
  ("key"%string, shareKey c) :: (if bool_decide (password c = ""%string) then [] else [("password"%string, password c)]).
Definition at_path (c : Client) (p : string) (params : list (string * string)) : URL := resolve (baseURL c) p params.
(** [agent/internal/immich/client.go:673-677] buildSharedLinkURL *)
Definition buildSharedLinkURL (c : Client) : URL := at_path c "/api/shared-links/me" (shared_params c).
(** [agent/internal/immich/client.go:688-695] assetURL *)
Definition assetURL (c : Client) (id suffix : string) : URL :=
  at_path c ("/api/assets/" +:+ PathEscape id +:+ suffix)%string (shared_params c).

(** * Calls *)

(** A document is the body's JSON, when it is JSON. *)
Abbreviation immich_server := (requests -> http_request -> result (http_response (option json)) string).

Section calls.
Context (ParseFloat : string -> option float64) (server : immich_server) (fuel : nat).

(** The client's [http.Client]: any number of redirects, to the allowed host. *)
Definition do_request (c : Client) : http_request -> net (result (http_response (option json)) string) :=
  Do server fuel (CheckRedirect (allowed c)).

(** [agent/internal/immich/client.go:668-671] responseStatusError *)
Definition responseStatusError (rq : http_request) (resp : http_response (option json)) : string :=
  (rq_method rq +:+ " " +:+ unescape (u_path (rq_url rq)) +:+ " returned " +:+ rs_text resp +:+ ": "
   +:+ TrimSpace (String.string_of_list_byte (take (4 * 1024) (concat (rs_data resp).1))))%string.

(** [agent/internal/immich/client.go:653-666] doJSONStatus *)
Definition doJSONStatus {A} (c : Client) (rq : http_request) (st : Z) (zero : A) (dec : json -> option A) : net (result A string) :=
  resp ← do_request c rq;
  mret (match resp with
        | Err e => Err e
        | Ok resp => if negb (rs_status resp =? st) then Err (responseStatusError rq resp)
                     else match top zero dec (rs_doc resp) with Some x => Ok x | None => Err "decode response"%string end
        end).
(** [agent/internal/immich/client.go:637-651] doJSON *)
Definition doJSON {A} (c : Client) (rq : http_request) (zero : A) (dec : json -> option A) : net (result A string) :=
  doJSONStatus c rq 200 zero dec.

(** [agent/internal/immich/client.go:223-240] PollShares *)
Definition PollShares (c : Client) : net (result (list SharedLink) string) :=
  doJSON c (request_to "GET" (at_path c "/api/shared-links" [])
              (if bool_decide (apiKey c = ""%string) then [] else [("x-api-key"%string, apiKey c)]) NoBody) [] dec_links.

(** [agent/internal/immich/client.go:244-270] ValidatePassword *)
Definition ValidatePassword (c : Client) (pw : string) : net (Client * result bool string) :=
  let u := buildSharedLinkURL c in
  let u := mkURL (u_scheme u) (u_host u) (u_path u) (u_query u) [("key", shareKey c); ("password", pw)]%string in
  resp ← do_request c (request_to "GET" u [] NoBody);
  mret (match resp with
        | Err e => (c, Err e)
        | Ok resp => if negb (rs_status resp =? 200) then (c, Ok false) else (set_password pw c, Ok true)
        end).

(** [agent/internal/immich/client.go:446-457] getSharedLink *)
Definition getSharedLink (c : Client) : net (result SharedLink string) :=
  doJSON c (request_to "GET" (buildSharedLinkURL c) [] NoBody) no_link (of_object dec_link).

(** ** The server's version *)

(** [agent/internal/immich/client.go:375-386] fetchServerVersion *)
Definition fetchServerVersion (c : Client) : net (result serverVersion string) :=
  doJSON c (request_to "GET" (at_path c "/api/server/version" []) [] NoBody) (mkVersion 0 0 0 None) (of_object dec_version).
(** For one caller.
    [agent/internal/immich/client.go:336-373] getServerVersion *)
Definition getServerVersion (c : Client) : net (Client * result serverVersion string) :=
  match version c with
  | Some v => mret (c, Ok v)
  | None => v ← fetchServerVersion c; mret (match v with Ok v => (set_version v c, Ok v) | Err e => (c, Err e) end)
  end.

(** ** Galleries *)

(** [agent/internal/immich/client.go:459-477] listAlbumAssets *)
Definition listAlbumAssets (c : Client) (albumID : string) : net (result (list Asset) string) :=
  doJSON c (request_to "GET" (at_path c (escape_path ("/api/albums/" +:+ albumID)) (shared_params c)) [] NoBody) [] (of_object dec_album_assets).

(** One page of a search.
    [agent/internal/immich/client.go:490-505] searchAlbumAssets *)
Definition search_request (c : Client) (albumID : string) (page : Z) : http_request :=
  request_to "POST" (at_path c "/api/search/metadata" (shared_params c)) [("Content-Type", "application/json")]%string
    (JSONBody (JObj [("albumIds", JArr [JStr albumID]); ("page", JNum page); ("size", JNum 1000); ("withExif", JBool true)]%string)).
(** What comes after a page.
    [agent/internal/immich/client.go:517-525] searchAlbumAssets *)
Definition next_page (next : option string) : result (option Z) string :=
  match next with
  | None => Ok None
  | Some s => match Atoi s with
              | Some n => if n <? 1 then Err ("invalid Immich search nextPage " +:+ s)%string else Ok (Some n)
              | None => Err ("invalid Immich search nextPage " +:+ s)%string
              end
  end.
(** [agent/internal/immich/client.go:484-527] searchAlbumAssets *)
Fixpoint search_pages (pages : nat) (c : Client) (albumID : string) (page : Z) (seenPages : gset Z) (assets : list Asset)
    : net (result (list Asset) string) :=
  match pages with
  | O => fun _ => None
  | S pages' =>
      if bool_decide (page ∈ seenPages) then mret (Err ("Immich search pagination repeated page " +:+ pretty page)%string)
      else
        r ← doJSON c (search_request c albumID page) ([], None) (of_object dec_page);
        match r with
        | Err e => mret (Err e)
        | Ok (items, next) =>
            match next_page next with
            | Err e => mret (Err e)
            | Ok None => mret (Ok (assets ++ items))
            | Ok (Some n) => search_pages pages' c albumID n ({[page]} ∪ seenPages) (assets ++ items)
            end
        end
  end.
(** At most [pages] rounds.
    [agent/internal/immich/client.go:479-483] searchAlbumAssets *)
Definition searchAlbumAssets (pages : nat) (c : Client) (albumID : string) : net (result (list Asset) string) :=
  search_pages pages c albumID 1 ∅ [].

(** Paginated when the server says it is of version 3 or later; without a
    version, whichever answers.
    [agent/internal/immich/client.go:307-334] loadAlbumAssets *)
Definition loadAlbumAssets (pages : nat) (c : Client) (albumID : string) : net (Client * result (list Asset) string) :=
  '(c, v) ← getServerVersion c;
  match v with
  | Ok v => r ← (if 3 <=? Major v then searchAlbumAssets pages c albumID else listAlbumAssets c albumID); mret (c, r)
  | Err _ =>
      old ← listAlbumAssets c albumID;
      match old with
      | Ok (a :: l) => mret (c, Ok (a :: l))
      | _ =>
          new ← searchAlbumAssets pages c albumID;
          mret (c, match old, new with
                   | Err e, Err e' => Err ("legacy album API failed: " +:+ e +:+ "; paginated asset search API failed: " +:+ e')%string
                   | _, _ => new
                   end)
      end
  end.

(** [agent/internal/immich/client.go:529-532] setAlbum *)
Definition gallery_of (album : option Album) (items : list GalleryItem) : Gallery :=
  match album with Some a => mkGallery (al_Name a) (al_Description a) items | None => mkGallery "" "" items end.
(** [strings.EqualFold(link.Type, "ALBUM")], and an album that has an id. *)
Definition album_of (link : SharedLink) : option Album :=
  a ← link_Album link;
  if bool_decide (lower (link_Type link) = "album"%string) && negb (bool_decide (al_ID a = ""%string)) then Some a else None.
(** [agent/internal/immich/client.go:274-305] ListGallery *)
Definition ListGallery (pages : nat) (c : Client) : net (Client * result Gallery string) :=
  link ← getSharedLink c;
  match link with
  | Err e => mret (c, Err e)
  | Ok link =>
      '(c, assets) ← match Assets link, album_of link with
                     | [], Some a => loadAlbumAssets pages c (al_ID a)
                     | l, _ => mret (c, Ok l)
                     end;
      mret (c, match assets with
               | Err e => Err e
               | Ok l => Ok (gallery_of (link_Album link) (map (galleryItemFromAsset ParseFloat) l))
               end)
  end.

(** ** Archives *)

Definition json_content : list (string * string) := [("Content-Type", "application/json")]%string.
(** [agent/internal/immich/client.go:388-416] GetAlbumDownloadInfo *)
Definition GetAlbumDownloadInfo (c : Client) : net (result AlbumDownload string) :=
  link ← getSharedLink c;
  match link with
  | Err e => mret (Err e)
  | Ok link =>
      match album_of link with
      | None => mret (Err "shared link is not an album"%string)
      | Some a =>
          doJSONStatus c (request_to "POST" (at_path c "/api/download/info" (shared_params c)) json_content
                            (JSONBody (JObj [("albumId"%string, JStr (al_ID a))])))
            201 (mkDownload (al_Name a) 0 []) (of_object (dec_download (al_Name a)))
      end
  end.

(** What is copied to the writer, and the error. *)
Abbreviation stream := (list bytes * option string)%type.

(** [agent/internal/immich/client.go:418-444] DownloadArchive *)
Definition DownloadArchive_ (c : Client) (assetIDs : list string) : net stream :=
  let rq := request_to "POST" (at_path c "/api/download/archive" (shared_params c))
              (json_content ++ [("Accept", "application/octet-stream")]%string)
              (JSONBody (JObj [("assetIds", JArr (map JStr assetIDs)); ("edited", JBool true)]%string)) in
  resp ← do_request c rq;
  mret (match resp with
        | Err e => ([], Some e)
        | Ok resp => if negb (rs_status resp =? 200) then ([], Some (responseStatusError rq resp)) else rs_data resp
        end).

(** ** Assets *)

(** [agent/internal/immich/client.go:613-635] getAsset *)
Definition getAsset (c : Client) (u : URL) (startOffset : Z) : net stream :=
  let rq := request_to "GET" u (if 0 <? startOffset then [("Range", "bytes=" +:+ pretty startOffset +:+ "-")]%string else []) NoBody in
  resp ← do_request c rq;
  mret (match resp with
        | Err e => ([], Some e)
        | Ok resp =>
            if rs_status resp =? 416 then ([], Some ("range not satisfiable: start_offset=" +:+ pretty startOffset)%string)
            else if negb (rs_status resp =? 200) && negb (rs_status resp =? 206) then ([], Some (responseStatusError rq resp))
            else rs_data resp
        end).

(** [agent/internal/immich/client.go:550-552] GetThumbnail *)
Definition GetThumbnail (c : Client) (id : string) : net stream := getAsset c (assetURL c id "/thumbnail") 0.
(** [agent/internal/immich/client.go:554-560] GetPreview *)
Definition GetPreview (c : Client) (id : string) : net stream :=
  let u := assetURL c id "/thumbnail" in
  getAsset c (mkURL (u_scheme u) (u_host u) (u_path u) (u_query u) (u_params u ++ [("size", "preview")]%string)) 0.
(** [agent/internal/immich/client.go:579-581] GetFile *)
Definition GetFile (c : Client) (id : string) : net stream := getAsset c (assetURL c id "/original") 0.
(** [agent/internal/immich/client.go:584-586] GetVideoPlayback *)
Definition GetVideoPlayback (c : Client) (id : string) : net stream := getAsset c (assetURL c id "/video/playback") 0.
(** [agent/internal/immich/client.go:590-592] GetVideoPlaybackRange *)
Definition GetVideoPlaybackRange (c : Client) (id : string) (startOffset : Z) : net stream :=
  getAsset c (assetURL c id "/video/playback") startOffset.
(** [agent/internal/immich/client.go:597-611] HeadVideoPlayback *)
Definition HeadVideoPlayback (c : Client) (id : string) : net (result Z string) :=
  resp ← do_request c (request_to "HEAD" (assetURL c id "/video/playback") [] NoBody);
  mret (match resp with
        | Err e => Err e
        | Ok resp => if negb (rs_status resp =? 200) then Err ("HEAD /video/playback returned " +:+ rs_text resp)%string
                     else Ok (rs_length resp)
        end).
(** [agent/internal/immich/client.go:562-577] GetAssetInfo *)
Definition GetAssetInfo (c : Client) (id : string) : net (result Asset string) :=
  doJSON c (request_to "GET" (assetURL c id "") [] NoBody) no_asset (of_object dec_asset).
End calls.
