(* ===== verification/Clouds.v ===== *)
(** The storages behind the agent's two interfaces: the transfer manager's
    [Backend] and the daemon's [Backends], by the WebDAV client and, through
    the daemon's adapter (agent/internal/daemon/daemon.go), the photo library's.
    A call of the photo library that does not end before its context does is the
    context's error; how far it gets is any [fuel] and any number of [pages]. *)

From Stdlib Require Import Floats.SpecFloat.
From S2P Require Import Prelude Float64 GoUrl Http Json Lanes Conc TransferState WebDav Immich Config Store SignalingClient DaemonState.
#[local] Open Scope Z_scope.

(** What a call returns when it is the first on the connection. *)
Definition run {A} (late : A) (p : net A) : A := match p [] with Some (a, _) => a | None => late end.
Definition late {A} : result A string := Err "context deadline exceeded"%string.
Definition late_stream : TransferState.stream := ([], Some "context deadline exceeded"%string).

(** * The adapter *)

(** [immichTransferAdapter]: the photo library's client as a backend. *)
Module ImmichAdapter.
Section calls.
Context (ParseFloat : string -> option float64) (fuel pages : nat) (server : immich_server) (client : Immich.Client).

(** [agent/internal/daemon/daemon.go:64-66] ValidatePassword *)
Definition ValidatePassword (password : string) : net (Immich.Client * result bool string) :=
  Immich.ValidatePassword server fuel client password.

(** [agent/internal/daemon/daemon.go:74-85] ListGallery *)
Definition item_of (i : Immich.GalleryItem) : TransferState.GalleryItem :=
  TransferState.mkItem (it_ID i) (Name i) (MimeType i) (Width i) (Height i) (Size i) (it_Duration i) (SHA1 i).
(** [agent/internal/daemon/daemon.go:68-91] ListGallery *)
Definition ListGallery : net (result TransferState.Gallery string) :=
  '(_, g) ← Immich.ListGallery ParseFloat server fuel pages client;
  mret (match g with
        | Err e => Err e
        | Ok g => Ok (TransferState.mkGallery (Immich.AlbumName g) (AlbumDescription g) (map item_of (Items g)))
        end).

(** [agent/internal/daemon/daemon.go:93-95] GetThumbnail *)
Definition GetThumbnail (id : string) : net TransferState.stream := Immich.GetThumbnail server fuel client id.

(** [agent/internal/daemon/daemon.go:97-103] GetAssetInfo *)
Definition GetAssetInfo (id : string) : net ((string * Z * string) * option string) :=
  asset ← Immich.GetAssetInfo server fuel client id;
  mret (match asset with
        | Err e => ((""%string, 0, ""%string), Some e)
        | Ok a => ((OriginalFileName a, FileSize a, OriginalMimeType a), None)
        end).

(** [agent/internal/daemon/daemon.go:105-118] GetAsset *)
Definition GetAsset (id quality : string) : net TransferState.stream :=
  if bool_decide (quality ∈ [""; "original"]%string) then Immich.GetFile server fuel client id
  else if bool_decide (quality = "preview"%string) then Immich.GetPreview server fuel client id
  else if bool_decide (quality = "thumbnail"%string) then Immich.GetThumbnail server fuel client id
  else if bool_decide (quality = "video"%string) then Immich.GetVideoPlayback server fuel client id
  else mret ([], Some ("unsupported asset quality: " +:+ quality)%string).

(** [agent/internal/daemon/daemon.go:120-122] HeadVideoPlayback *)
Definition HeadVideoPlayback (id : string) : net (result Z string) := Immich.HeadVideoPlayback server fuel client id.

(** [agent/internal/daemon/daemon.go:124-129] GetAssetRange *)
Definition GetAssetRange (id quality : string) (startOffset : Z) : net TransferState.stream :=
  if bool_decide (quality = "video"%string) then Immich.GetVideoPlaybackRange server fuel client id startOffset
  else GetAsset id quality.

(** [agent/internal/daemon/daemon.go:131-148] GetAlbumDownload *)
Definition GetAlbumDownload : net (result TransferState.AlbumDownload string) :=
  download ← Immich.GetAlbumDownloadInfo server fuel client;
  mret (match download with
        | Err e => Err e
        | Ok d => Ok (TransferState.mkAlbum (dl_AlbumName d) (Immich.TotalSize d)
                        (map (fun a => TransferState.mkArchive (Immich.AssetIDs a) (ar_Size a)) (Immich.Archives d)))
        end).

(** [agent/internal/daemon/daemon.go:150-152] StreamAlbumArchive *)
Definition StreamAlbumArchive (assetIDs : list string) : net TransferState.stream := DownloadArchive_ server fuel client assetIDs.
End calls.
End ImmichAdapter.

(** * The backends *)

Section backends.
Context (ParseFloat : string -> option float64) (fuel pages : nat).

(** ** The transfer manager's backends *)

Inductive storage :=
| Cloud (server : webdav_server) (c : WebDav.Client)
| Photos (server : immich_server) (c : Immich.Client).

(** What the manager has for the other kind of share: nothing. *)
Definition no_file : TransferState.stream := ([], Some "share unavailable: client not initialized"%string).
Definition no_answer {A} : result A string := Err "share unavailable: client not initialized"%string.

Definition storage_backend : Backend := {|
  backend := storage;
  TransferState.ListFiles sub s := match s with Cloud sv c => run late (WebDav.ListFiles sv c sub) | _ => no_answer end;
  TransferState.GetFile name s := match s with Cloud sv c => run late_stream (WebDav.GetFile sv c name) | _ => no_file end;
  TransferState.GetSHA1 sub s := match s with Cloud sv c => run ""%string (WebDav.GetSHA1 sv c sub) | _ => ""%string end;
  TransferState.ListGallery s := match s with Photos sv c => run late (ImmichAdapter.ListGallery ParseFloat fuel pages sv c) | _ => no_answer end;
  TransferState.GetThumbnail id s := match s with Photos sv c => run late_stream (ImmichAdapter.GetThumbnail fuel sv c id) | _ => no_file end;
  TransferState.GetAsset id q s := match s with Photos sv c => run late_stream (ImmichAdapter.GetAsset fuel sv c id q) | _ => no_file end;
  TransferState.GetAssetInfo id s :=
    match s with
    | Photos sv c => run ((""%string, 0, ""%string), Some "context deadline exceeded"%string) (ImmichAdapter.GetAssetInfo fuel sv c id)
    | _ => ((""%string, 0, ""%string), Some "share unavailable: client not initialized"%string)
    end;
  TransferState.HeadVideoPlayback id s := match s with Photos sv c => run late (ImmichAdapter.HeadVideoPlayback fuel sv c id) | _ => no_answer end;
  TransferState.GetAssetRange id q o s := match s with Photos sv c => run late_stream (ImmichAdapter.GetAssetRange fuel sv c id q o) | _ => no_file end;
  TransferState.GetAlbumDownload s := match s with Photos sv c => run late (ImmichAdapter.GetAlbumDownload fuel sv c) | _ => no_answer end;
  TransferState.StreamAlbumArchive ids s := match s with Photos sv c => run late_stream (ImmichAdapter.StreamAlbumArchive fuel sv c ids) | _ => no_file end |}.

(** ** The daemon's *)

Context (public : bytes -> result bytes string) (candidate : json -> bool).

(** [agent/internal/daemon/daemon.go:1450-1461] newImmichClient *)
Definition immich_config (cfg : Config.Config) (code : string) : Immich.Config :=
  Immich.mkConfig (ImmichURL cfg) (ImmichAllowedHost cfg) (ImmichAPIKey cfg) code "".

Definition daemon_backends : Backends := {|
  remote := webdav_server * immich_server;
  webdav := WebDav.Client;
  new_webdav := WebDav.New;
  DaemonState.GetRootFileID c sv := run late (WebDav.GetRootFileID sv.1 c);
  immich := Immich.Client;
  new_immich cfg code := Immich.New (immich_config cfg code);
  DaemonState.ValidatePassword c pw sv := (run (c, late) (ImmichAdapter.ValidatePassword fuel sv.2 c pw)).2;
  DaemonState.PollShares c sv :=
    match run late (Immich.PollShares sv.2 fuel c) with
    | Err e => Err e
    | Ok l => Ok (map (fun k => DaemonState.mkLink (Immich.Key k) (link_Type k) (Immich.IsPasswordProtected k)) l)
    end;
  public_key := public;
  candidate_ok := candidate |}.

(** The password a validation leaves in the client is for the transfers, which
    [storage_backend] makes with the client as it then is.  None of the daemon's
    own calls depends on it, so that they may start from the client without. *)
Lemma daemon_calls_no_password pw c sv :
  (forall pw', DaemonState.ValidatePassword (Backends := daemon_backends) (Immich.set_password pw c) pw' sv =
               DaemonState.ValidatePassword (Backends := daemon_backends) c pw' sv) /\
  DaemonState.PollShares (Backends := daemon_backends) (Immich.set_password pw c) sv =
  DaemonState.PollShares (Backends := daemon_backends) c sv.
Proof.
  split; [intros pw'|reflexivity]. cbn [DaemonState.ValidatePassword daemon_backends].
  unfold ImmichAdapter.ValidatePassword, Immich.ValidatePassword, run, mbind, net_bind.
  change (Immich.do_request sv.2 fuel (Immich.set_password pw c)) with (Immich.do_request sv.2 fuel c).
  change (u_scheme (Immich.buildSharedLinkURL (Immich.set_password pw c))) with (u_scheme (Immich.buildSharedLinkURL c)).
  change (u_host (Immich.buildSharedLinkURL (Immich.set_password pw c))) with (u_host (Immich.buildSharedLinkURL c)).
  change (u_path (Immich.buildSharedLinkURL (Immich.set_password pw c))) with (u_path (Immich.buildSharedLinkURL c)).
  change (u_query (Immich.buildSharedLinkURL (Immich.set_password pw c))) with (u_query (Immich.buildSharedLinkURL c)).
  change (Immich.shareKey (Immich.set_password pw c)) with (Immich.shareKey c).
  destruct (Immich.do_request _ _ _ _ _) as [[[resp|e] l]|]; [|done..]. cbn. by destruct (negb _).
Qed.
End backends.
