(* ===== verification/CloudSafe.v ===== *)
(** What the storage clients promise: where their requests go, that their calls
    end, that a listed file is the one asked for, and that an album is whole
    whichever way it is loaded. *)

From Stdlib Require Import Ascii.
From stdpp Require Import pretty.
From S2P Require Import Prelude GoText Json GoUrl Float64 Http Lanes Conc TransferState WebDav Immich Clouds.
#[local] Open Scope Z_scope.

(** * The photo library's host *)

Section photos.
Context (ParseFloat : string -> option float64) (server : immich_server) (fuel : nat).

(** The request goes to the allowed host, or to it without its empty port. *)
Definition goes_to (allowed : string) (rq : http_request) : Prop :=
  exists h, hostAllowed h allowed = true /\ u_host (rq_url rq) ∈ [h; removeEmptyPort h].
Definition bound_to (allowed : string) (c : Immich.Client) : Prop :=
  Immich.allowed c = allowed /\ hostAllowed (u_host (Immich.baseURL c)) allowed = true.

Lemma new_bound cfg c : Immich.New cfg = Ok c -> bound_to (Immich.AllowedHost cfg) c.
Proof.
  unfold Immich.New. destruct (url_Parse _) as [u|]; [|done]. destruct (_ || _); [done|].
  destruct (hostAllowed _ _) eqn:Hh; [|done]. by intros [= <-].
Qed.

Lemma sends_request_to c h method u hdrs body : bound_to h c -> u_host u = u_host (Immich.baseURL c) ->
  sends (goes_to h) (do_request server fuel c (request_to method u hdrs body)) (fun _ => True).
Proof.
  intros [Ha Hb] Hu. apply sends_Do.
  - exists (u_host u). rewrite Hu. split; [done|]. cbn. rewrite Hu. set_solver.
  - intros n u' m strip bd Hc _. exists (u_host u'). unfold CheckRedirect in Hc. rewrite Ha in Hc.
    destruct (hostAllowed (u_host u') h) eqn:Hh; [|done]. split; [done|]. cbn. set_solver.
Qed.

Lemma sends_doJSON {A} c h method u hdrs body st (zero : A) dec : bound_to h c -> u_host u = u_host (Immich.baseURL c) ->
  sends (goes_to h) (doJSONStatus server fuel c (request_to method u hdrs body) st zero dec) (fun _ => True).
Proof. intros Hb Hu. eapply sends_bind; [by apply sends_request_to|]. intros r _. by apply sends_ret. Qed.

Lemma sends_getAsset c h u off : bound_to h c -> u_host u = u_host (Immich.baseURL c) -> sends (goes_to h) (getAsset server fuel c u off) (fun _ => True).
Proof. intros Hb Hu. eapply sends_bind; [by apply sends_request_to|]. intros r _. by apply sends_ret. Qed.

Lemma sends_version c h : bound_to h c -> sends (goes_to h) (getServerVersion server fuel c) (fun r => bound_to h r.1).
Proof.
  intros Hb. unfold getServerVersion. destruct (version c); [by apply sends_ret|].
  eapply sends_bind; [by apply sends_doJSON|]. intros [v|e] _; by apply sends_ret.
Qed.

Lemma sends_search c h albumID pages page seen l : bound_to h c ->
  sends (goes_to h) (search_pages server fuel pages c albumID page seen l) (fun _ => True).
Proof.
  intros Hb. revert page seen l. induction pages as [|n IH]; intros page seen l; [done|]. cbn [search_pages].
  case_bool_decide; [by apply sends_ret|]. eapply sends_bind; [by apply sends_doJSON|].
  intros [[items next]|e] _; [|by apply sends_ret]. destruct (next_page next) as [[m|]|e]; [apply IH|by apply sends_ret..].
Qed.

Lemma sends_load c h albumID pages : bound_to h c ->
  sends (goes_to h) (loadAlbumAssets server fuel pages c albumID) (fun r => bound_to h r.1).
Proof.
  intros Hb. eapply sends_bind; [by apply sends_version|]. intros [c' [v|e]] Hb'; cbn [fst] in Hb'.
  - eapply (sends_bind _ _ _ (fun _ => True)); [|intros r _; by apply sends_ret].
    destruct (3 <=? Major v); [by apply sends_search|by apply sends_doJSON].
  - eapply sends_bind; [by apply sends_doJSON|].
    intros [[|a l]|e'] _; [|by apply sends_ret|]; (eapply sends_bind; [by apply sends_search|]; intros r _; by apply sends_ret).
Qed.

Lemma sends_gallery c h pages : bound_to h c -> sends (goes_to h) (Immich.ListGallery ParseFloat server fuel pages c) (fun r => bound_to h r.1).
Proof.
  intros Hb. eapply sends_bind; [by apply sends_doJSON|]. intros [link|e] _; [|by apply sends_ret].
  eapply (sends_bind _ _ _ (fun r => bound_to h r.1)); [|intros [c' assets] Hb'; by apply sends_ret].
  destruct (Assets link); [|by apply sends_ret]. destruct (album_of link); [by apply sends_load|by apply sends_ret].
Qed.

(** C14 (safety). A photo library's client only ever talks to the host it is
    allowed: every request of every call, those a redirect makes included, goes
    there, whatever the server answers; and the client a call leaves behind, with
    a password or a version more, is as bound. *)
Theorem photos_stay_on_host cfg c0 : Immich.New cfg = Ok c0 ->
  bound_to (Immich.AllowedHost cfg) c0 /\
  forall c, bound_to (Immich.AllowedHost cfg) c ->
    sends (goes_to (Immich.AllowedHost cfg)) (Immich.PollShares server fuel c) (fun _ => True) /\
    (forall pw, sends (goes_to (Immich.AllowedHost cfg)) (Immich.ValidatePassword server fuel c pw) (fun r => bound_to (Immich.AllowedHost cfg) r.1)) /\
    (forall pages, sends (goes_to (Immich.AllowedHost cfg)) (Immich.ListGallery ParseFloat server fuel pages c) (fun r => bound_to (Immich.AllowedHost cfg) r.1)) /\
    sends (goes_to (Immich.AllowedHost cfg)) (GetAlbumDownloadInfo server fuel c) (fun _ => True) /\
    (forall ids, sends (goes_to (Immich.AllowedHost cfg)) (DownloadArchive_ server fuel c ids) (fun _ => True)) /\
    (forall id, sends (goes_to (Immich.AllowedHost cfg)) (Immich.GetAssetInfo server fuel c id) (fun _ => True)) /\
    (forall id, sends (goes_to (Immich.AllowedHost cfg)) (Immich.HeadVideoPlayback server fuel c id) (fun _ => True)) /\
    (forall id quality, sends (goes_to (Immich.AllowedHost cfg)) (ImmichAdapter.GetAsset fuel server c id quality) (fun _ => True)) /\
    (forall id quality off, sends (goes_to (Immich.AllowedHost cfg)) (ImmichAdapter.GetAssetRange fuel server c id quality off) (fun _ => True)).
Proof.
  intros Hnew. split; [by apply new_bound|]. intros c Hb.
  assert (forall id quality, sends (goes_to (Immich.AllowedHost cfg)) (ImmichAdapter.GetAsset fuel server c id quality) (fun _ => True)) as Hasset.
  { intros id quality. unfold ImmichAdapter.GetAsset. repeat case_bool_decide; solve [by apply sends_getAsset|by apply sends_ret]. }
  split_and!; [by apply sends_doJSON| |by intros; apply sends_gallery| | |by intros; apply sends_doJSON| |exact Hasset|].
  - intros pw. eapply sends_bind; [by apply sends_request_to|]. intros [r|e] _; [destruct (rs_status r =? 200)|]; by apply sends_ret.
  - eapply sends_bind; [by apply sends_doJSON|]. intros [link|e] _; [|by apply sends_ret].
    destruct (album_of link); [by apply sends_doJSON|by apply sends_ret].
  - intros ids. eapply sends_bind; [by apply sends_request_to|]. intros r _. by apply sends_ret.
  - intros id. eapply sends_bind; [by apply sends_request_to|]. intros r _. by apply sends_ret.
  - intros id quality off. unfold ImmichAdapter.GetAssetRange. case_bool_decide; [by apply sends_getAsset|apply Hasset].
Qed.
End photos.

(** * The cloud's calls *)

Section clouds.
Context (server : webdav_server).

Lemma within_file_id c depth : within 10 (propfindFileID server c depth) (fun _ => True).
Proof. unfold propfindFileID. destruct (NewRequest _ _ _ _); [apply within_call|by apply within_ret]. Qed.

(** Every call of a cloud's client returns, whatever the
    server answers and however it redirects: a listing, a file or a checksum
    after at most ten requests, the root's file id after at most twenty. *)
Theorem cloud_calls_return c :
  (forall subpath, within 10 (WebDav.ListFiles server c subpath) (fun _ => True)) /\
  (forall name, within 10 (WebDav.GetFile server c name) (fun _ => True)) /\
  (forall subpath, within 10 (WebDav.GetSHA1 server c subpath) (fun _ => True)) /\
  within 20 (WebDav.GetRootFileID server c) (fun _ => True).
Proof.
  split_and!.
  - intros subpath. unfold WebDav.ListFiles. destruct (NewRequest _ _ _ _); [apply within_call|by apply within_ret].
  - intros name. unfold WebDav.GetFile. destruct (NewRequest _ _ _ _); [apply within_call|by apply within_ret].
  - intros subpath. unfold WebDav.GetSHA1. destruct (backend_of c); [by apply within_ret|].
    destruct (url_Parse _); [|by apply within_ret]. destruct (NewRequest _ _ _ _); [apply within_call|by apply within_ret].
  - change 20%nat with (10 + 10)%nat. eapply within_bind; [apply within_file_id|]. intros [id|e] _; [|by apply within_ret].
    case_bool_decide; [apply within_file_id|by apply within_ret].
Qed.

(** ** Credentials *)

(** The host is of the site of [h]: it, or a subdomain. *)
Definition of_site (h host : string) : Prop :=
  hostname host = hostname (removeEmptyPort h) \/ has_suffix ("." +:+ hostname (removeEmptyPort h)) (hostname host) = true.
(** What a request with the share's credentials must be. *)
Definition credentials_stay (h : string) (rq : http_request) : Prop :=
  "Authorization"%string ∈ (rq_headers rq).*1 -> of_site h (u_host (rq_url rq)).

Lemma new_paths type url hosts pw c : WebDav.New type url hosts pw = Ok c ->
  exists u p, url_Parse url = Ok u /\ u_host u ∈ hosts /\ selfPath c = String "/" p /\ WebDav.baseURL c = "https://" +:+ u_host u +:+ selfPath c.
Proof.
  unfold WebDav.New. destruct (url_Parse url) as [u|]; [|done]. destruct (existsb _ hosts) eqn:Hex; [|done]. cbn [negb].
  apply existsb_exists in Hex as (h&Hin%list_elem_of_In&[_ Hh%bool_decide_eq_true_1]%andb_prop).
  case_bool_decide; [done|]. rewrite <- Hh in Hin. set (tok := last_element _). clearbody tok.
  repeat case_bool_decide; intros [= <-]; exists u; eexists; (split_and!; [reflexivity|exact Hin|reflexivity..]).
Qed.

Lemma new_base type url hosts pw c : WebDav.New type url hosts pw = Ok c ->
  exists u p, url_Parse url = Ok u /\ u_host u ∈ hosts /\ WebDav.baseURL c = "https://" +:+ u_host u +:+ "/" +:+ p.
Proof. intros (u&p&Hu&Hin&Hp&Hb)%new_paths. exists u, p. by rewrite Hb, Hp. Qed.

Lemma of_dir_slash h p sub : exists p', of_dir ("https://" +:+ h +:+ "/" +:+ p) sub = "https://" +:+ h +:+ "/" +:+ p'.
Proof. unfold of_dir. case_bool_decide; [by exists p|]. exists (p +:+ "/" +:+ sub). by rewrite !app_assoc_str. Qed.

Lemma sends_cloud {A} h p method hdrs body rq (f : _ -> A) :
  str_all host_char h = true -> NewRequest method ("https://" +:+ h +:+ "/" +:+ p) hdrs body = Ok rq ->
  sends (credentials_stay h) (r ← WebDav.do_request server rq; mret (f r)) (fun _ => True).
Proof.
  unfold NewRequest. intros Hh Hrq. destruct (url_Parse _) as [u|] eqn:Hu; [|done]. injection Hrq as <-.
  apply parse_https in Hu as [_ Hu]; [|done]. apply sends_call, sends_Do.
  - intros _. left. cbn. by rewrite Hu.
  - intros n u' m strip bd _ Hsite Hauth. destruct strip.
    + exfalso. cbn [redirected rq_headers] in Hauth. apply list_elem_of_fmap in Hauth as (kv&Hk&Hkv).
      apply list_elem_of_filter in Hkv as [[Hs _] _]. apply Hs; [done|]. rewrite <- Hk. set_solver.
    + specialize (Hsite eq_refl). unfold same_site in Hsite. cbn in Hsite. rewrite Hu in Hsite.
      cbn. apply orb_true_iff in Hsite as [Hb%bool_decide_eq_true_1|Hs]; [by left|by right].
Qed.

(** C13 (safety). The Basic authorization of a share, its token and password, only goes to the
    host the share's link names, which is one of the allowed ones, or to its
    subdomains: every request of every call that carries them does, those a
    redirect makes included. *)
Theorem cloud_credentials_stay type url hosts pw c :
  Forall (fun h => str_all host_char h = true) hosts -> WebDav.New type url hosts pw = Ok c ->
  exists link, url_Parse url = Ok link /\ u_host link ∈ hosts /\
  (forall subpath, sends (credentials_stay (u_host link)) (WebDav.ListFiles server c subpath) (fun _ => True)) /\
  (forall name, sends (credentials_stay (u_host link)) (WebDav.GetFile server c name) (fun _ => True)) /\
  (forall subpath, sends (credentials_stay (u_host link)) (WebDav.GetSHA1 server c subpath) (fun _ => True)) /\
  sends (credentials_stay (u_host link)) (WebDav.GetRootFileID server c) (fun _ => True).
Proof.
  intros Hok Hnew. destruct (new_base _ _ _ _ _ Hnew) as (link&p&Hlink&Hin&Hbase). exists link. split; [done|]. split; [done|].
  set (h := u_host link) in *. assert (str_all host_char h = true) as Hh by exact (proj1 (Forall_forall _ _) Hok h Hin).
  assert (forall depth, sends (credentials_stay h) (propfindFileID server c depth) (fun _ => True)) as Hid.
  { intros depth. unfold propfindFileID. rewrite Hbase. destruct (NewRequest _ _ _ _) eqn:Hrq; [|by apply sends_ret]. by eapply sends_cloud. }
  split_and!.
  - intros sub. unfold WebDav.ListFiles. rewrite Hbase. destruct (of_dir_slash h p sub) as [p' ->].
    destruct (NewRequest _ _ _ _) eqn:Hrq; [|by apply sends_ret]. by eapply sends_cloud.
  - intros sub. unfold WebDav.GetFile. rewrite Hbase. destruct (of_dir_slash h p sub) as [p' ->].
    destruct (NewRequest _ _ _ _) eqn:Hrq; [|by apply sends_ret]. by eapply sends_cloud.
  - intros sub. unfold WebDav.GetSHA1. destruct (backend_of c); [by apply sends_ret|].
    destruct (url_Parse (WebDav.baseURL c)); [|by apply sends_ret]. destruct (NewRequest _ _ _ _); [|by apply sends_ret].
    apply sends_call, sends_Do; [intros []%not_elem_of_nil|]. intros n u' m strip bd _ _ Hauth. exfalso. revert Hauth. cbn. set_solver.
  - eapply sends_bind; [apply Hid|]. intros [id|e] _; [|by apply sends_ret]. case_bool_decide; [apply Hid|by apply sends_ret].
Qed.
End clouds.

(** * Listed files *)

(** A host as it is configured. *)
Definition proper_host (h : string) : Prop := str_all host_char h = true /\ parse_host h = Ok h.

Lemma app_same s t : s +:+ t = s -> t = ""%string.
Proof. induction s as [|c s IH]; [done|]. intros [= Hs]. by apply IH. Qed.

(** The path a listing gives a file is the one it is fetched
    by: the request of [GetFile], for a file listed anywhere below the share's
    root and asked for as the transfer manager does, is for the very path the
    server named in the listing, on the share's host, unless the name has a
    character that means something in a URL. *)
Theorem listed_file_requested type url hosts pw c sub r f rel :
  WebDav.New type url hosts pw = Ok c -> Forall proper_host hosts ->
  entry_of (of_dir (selfPath c) sub) r = Some f -> Collection r = false ->
  PathUnescape (Href r) = of_dir (selfPath c) sub +:+ String "/" rel -> rel <> ""%string ->
  path_Clean (of_dir (selfPath c) sub) = of_dir (selfPath c) sub -> path_Clean (PathUnescape (Href r)) = PathUnescape (Href r) ->
  path_Clean (sub +:+ "/" +:+ rel) = sub +:+ "/" +:+ rel -> plain_path (PathUnescape (Href r)) ->
  exists rq h, NewRequest "GET" (of_dir (WebDav.baseURL c) (resolveRequestPath sub f)) [authHeader c] NoBody = Ok rq /\
    unescape (u_path (rq_url rq)) = PathUnescape (Href r) /\ h ∈ hosts /\ u_host (rq_url rq) = removeEmptyPort h.
Proof.
  intros Hnew Hok He Hfile Hpu Hrel Hself Hclean Hjoin Hplain. destruct (new_paths _ _ _ _ _ Hnew) as (u0&p&_&Hin&Hp&Hbase).
  set (h := u_host u0) in *. destruct (proj1 (Forall_forall _ _) Hok h Hin) as [Hh Hhost].
  assert (fi_RequestPath f = rel) as Hpath.
  { unfold entry_of in He. rewrite Hfile, Hclean, Hself in He. rewrite Hpu in He.
    rewrite (bool_decide_false (_ +:+ _ = _)) in He by (intros Heq; by apply app_same in Heq).
    cbn [andb] in He. destruct (_ || _); [done|]. injection He as <-. cbn. by rewrite !TrimPrefix_app. }
  assert (of_dir (WebDav.baseURL c) (resolveRequestPath sub f) = "https://" +:+ h +:+ PathUnescape (Href r)) as Hurl.
  { unfold resolveRequestPath. rewrite Hpath, (bool_decide_false (rel = _)) by done. rewrite Hpu, Hbase.
    case_bool_decide as Hsub.
    - unfold of_dir. rewrite (bool_decide_false (rel = _)), (bool_decide_true (sub = _)) by done. by rewrite !app_assoc_str.
    - unfold path_Join. rewrite !bool_decide_false by done. cbn [andb]. change (sub ++ "/" ++ rel)%string with (sub +:+ "/" +:+ rel).
      rewrite Hjoin. unfold of_dir. rewrite (bool_decide_false (sub = _)) by done. rewrite bool_decide_false by (by destruct sub).
      by rewrite !app_assoc_str. }
  assert (exists q, PathUnescape (Href r) = String "/" q) as [q Hq].
  { rewrite Hpu. unfold of_dir. case_bool_decide; rewrite Hp; by eexists. }
  unfold NewRequest. rewrite Hurl, Hq. change (h +:+ String "/" q) with (h +:+ "/" +:+ q).
  rewrite Hq in Hplain. assert (plain_path q) as Hpq by exact Hplain. rewrite (parse_https_plain h q h) by done.
  eexists _, h. split; [reflexivity|]. split; [|split; [done|reflexivity]]. change (unescape (String "/" q) = String "/" q). apply unescape_free. by destruct Hplain as (_&_&?&_).
Qed.

(** * Searches *)

Section searches.
Context (server : immich_server) (fuel : nat) (c : Immich.Client) (albumID : string).

(** Pages are in the range of an [int]. *)
Definition page_limit : Z := 2 ^ 63.
Definition pages_ok (seen : gset Z) : Prop := forall p, p ∈ seen -> 1 <= p < page_limit.

Lemma pages_bound seen : pages_ok seen -> Z.of_nat (size seen) <= page_limit.
Proof.
  intros Hok. enough (size seen <= Z.to_nat page_limit)%nat by (unfold page_limit in *; lia).
  change (size seen) with (length (elements seen)).
  rewrite <- (length_seq (Z.to_nat page_limit) 0), <- (length_fmap Z.to_nat (elements seen)). apply submseteq_length, NoDup_submseteq.
  - apply NoDup_fmap_2_strong; [|apply NoDup_elements]. intros x y Hx%elem_of_elements%Hok Hy%elem_of_elements%Hok. lia.
  - intros n (p&->&Hp%elem_of_elements%Hok)%list_elem_of_fmap. apply list_elem_of_In, in_seq. lia.
Qed.

Lemma next_page_range next n : next_page next = Ok (Some n) -> 1 <= n < page_limit.
Proof.
  unfold next_page. destruct next as [s|]; [|done]. destruct (Atoi s) as [m|] eqn:Hm; [|done].
  apply Atoi_range in Hm. destruct (Z.ltb_spec m 1); [done|]. intros [= <-]. unfold page_limit. lia.
Qed.

(** Every request of the client is answered, after the redirects. *)
Definition answered : Prop := forall rq l, exists r l', Immich.do_request server fuel c rq l = Some (r, l').

Lemma answered_json {A} rq (zero : A) dec l : answered -> exists r l', doJSON server fuel c rq zero dec l = Some (r, l').
Proof. intros Ha. destruct (Ha rq l) as (r&l1&Hr). unfold doJSON, doJSONStatus, mbind, net_bind. rewrite Hr. by eexists _, _. Qed.

(** One round of the search of a new page, as far as its answer is known. *)
Ltac one_round := cbn [search_pages]; rewrite bool_decide_false by done; unfold mbind, net_bind.

Lemma search_returns n page seen assets l : answered -> pages_ok seen -> 1 <= page < page_limit ->
  page_limit - Z.of_nat (size seen) <= Z.of_nat n ->
  exists pages r l', search_pages server fuel pages c albumID page seen assets l = Some (r, l').
Proof.
  intros Ha. revert page seen assets l. induction n as [|n IH]; intros page seen assets l Hok Hp Hn.
  - exists 1%nat. cbn [search_pages]. case_bool_decide as Hin; [by eexists _, _|]. exfalso.
    assert (pages_ok ({[page]} ∪ seen)) as Hok' by (intros q [->%elem_of_singleton|Hq]%elem_of_union; [done|by apply Hok]).
    apply pages_bound in Hok'. rewrite size_union, size_singleton in Hok' by set_solver. lia.
  - destruct (decide (page ∈ seen)) as [Hin|Hin]; [exists 1%nat; cbn [search_pages]; rewrite bool_decide_true by done; by eexists _, _|].
    destruct (answered_json (search_request c albumID page) ([], None) (of_object dec_page) l Ha) as ([[items next]|e]&l1&Hr).
    + destruct (next_page next) as [[m|]|e] eqn:Hnext.
      * destruct (IH m ({[page]} ∪ seen) (assets ++ items) l1) as (pages&r&l2&Hs).
        { intros q [->%elem_of_singleton|Hq]%elem_of_union; [done|by apply Hok]. }
        { by eapply next_page_range. }
        { rewrite size_union, size_singleton by set_solver. lia. }
        exists (S pages), r, l2. one_round. by rewrite Hr, Hnext.
      * exists 1%nat. one_round. rewrite Hr, Hnext. by eexists _, _.
      * exists 1%nat. one_round. rewrite Hr, Hnext. by eexists _, _.
    + exists 1%nat. one_round. rewrite Hr. by eexists _, _.
Qed.

(** C35 (termination). A search of an album's pages ends, whatever pages the
    server names next, as long as each of its requests is answered: a page is
    never asked for twice, so it cannot go round. *)
Theorem photo_search_ends : answered ->
  forall l, exists pages r l', searchAlbumAssets server fuel pages c albumID l = Some (r, l').
Proof.
  intros Ha l. apply (search_returns (Z.to_nat page_limit)); [done|by intros p []%not_elem_of_empty|by unfold page_limit|].
  rewrite size_empty. unfold page_limit. lia.
Qed.

(** ** An album, either way *)

(** An answer that decodes to [x]. *)
Definition gives {A} (zero : A) (dec : json -> option A) (x : A) (rq : http_request) : Prop :=
  forall l, exists resp l', Immich.do_request server fuel c rq l = Some (Ok resp, l') /\ rs_status resp = 200 /\ top zero dec (rs_doc resp) = Some x.

Lemma gives_json {A} (zero : A) dec x rq l : gives zero dec x rq -> exists l', doJSON server fuel c rq zero dec l = Some (Ok x, l').
Proof.
  intros Hg. destruct (Hg l) as (resp&l'&Hr&Hs&Hd). exists l'. unfold doJSON, doJSONStatus, mbind, net_bind. rewrite Hr, Hs. cbn. by rewrite Hd.
Qed.

(** The server pages an album: page [i+1] is the [i]-th chunk and names the
    next, but the last. *)
Definition serves_pages (chunks : list (list Asset)) : Prop :=
  forall i chunk, chunks !! i = Some chunk ->
    gives ([], None) (of_object dec_page)
      (chunk, if decide (S i = length chunks) then None else Some (pretty (Z.of_nat i + 2))) (search_request c albumID (Z.of_nat i + 1)).
(** The server's older call lists the album. *)
Definition serves_album (assets : list Asset) : Prop :=
  gives [] (of_object dec_album_assets) assets
    (request_to "GET" (at_path c (escape_path ("/api/albums/" +:+ albumID)) (shared_params c)) [] NoBody).

Lemma search_whole chunks i seen assets pages l : serves_pages chunks -> Z.of_nat (length chunks) < page_limit - 2 ->
  (i < length chunks)%nat -> (forall p, p ∈ seen -> 1 <= p <= Z.of_nat i) -> (length chunks - i <= pages)%nat ->
  exists l', search_pages server fuel pages c albumID (Z.of_nat i + 1) seen assets l = Some (Ok (assets ++ concat (drop i chunks)), l').
Proof.
  intros Hserves Hlim. remember (length chunks - i)%nat as k eqn:Hk. revert i seen assets pages l Hk.
  induction k as [|k IH]; intros i seen assets pages l Hk Hi Hseen Hpages; [lia|].
  destruct pages as [|pages]; [lia|]. destruct (lookup_lt_is_Some_2 chunks i Hi) as [chunk Hc].
  assert (Z.of_nat i + 1 ∉ seen) as Hnew by (intros Hin%Hseen; lia).
  rewrite (drop_S _ _ _ Hc). destruct (gives_json _ _ _ _ l (Hserves i chunk Hc)) as [l1 Hr].
  destruct (decide (S i = length chunks)) as [Hlast|Hmore].
  - exists l1. one_round. rewrite Hr. cbn [next_page]. rewrite drop_ge by lia. cbn [concat]. by rewrite app_nil_r.
  - destruct (IH (S i) ({[Z.of_nat i + 1]} ∪ seen) (assets ++ chunk) pages l1) as [l2 Hs]; [lia|lia| |lia|].
    { intros p [->%elem_of_singleton|Hp%Hseen]%elem_of_union; lia. }
    exists l2. one_round. rewrite Hr. unfold next_page. rewrite Atoi_pretty by (unfold page_limit in *; lia).
    rewrite (proj2 (Z.ltb_ge _ 1)) by lia. replace (Z.of_nat i + 2) with (Z.of_nat (S i) + 1) by lia. rewrite Hs. cbn [concat].
    by rewrite <- app_assoc.
Qed.

(** Knowing the version changes no request. *)
Lemma search_version v pages page seen assets l :
  search_pages server fuel pages (set_version v c) albumID page seen assets l = search_pages server fuel pages c albumID page seen assets l.
Proof.
  revert page seen assets l. induction pages as [|n IH]; intros page seen assets l; [done|]. cbn [search_pages].
  case_bool_decide; [done|]. unfold mbind, net_bind.
  change (doJSON server fuel (set_version v c) (search_request (set_version v c) albumID page)) with (doJSON (A := list Asset * option string) server fuel c (search_request c albumID page)).
  destruct (doJSON _ _ _ _ _ _ l) as [[[[items next]|e] l1]|]; [|done..]. destruct (next_page next) as [[m|]|e]; [apply IH|done..].
Qed.

(** C23 (equivalence). An album is whole whichever way it is loaded: from a
    server that pages it, in whatever chunks, and that lists it in the older
    call, loading gives the same assets in the same order when the server says
    it is of version 3 or later, when it says it is older, when the client knew
    the version already, and when the version could not be had. *)
Theorem album_whole_either_way chunks pages l : answered -> chunks <> [] -> serves_pages chunks -> serves_album (concat chunks) ->
  Z.of_nat (length chunks) < page_limit - 2 -> (length chunks <= pages)%nat ->
  exists c' l', loadAlbumAssets server fuel pages c albumID l = Some ((c', Ok (concat chunks)), l').
Proof.
  intros Ha Hne Hpages Halbum Hlim Hn.
  assert (forall l, exists l', searchAlbumAssets server fuel pages c albumID l = Some (Ok (concat chunks), l')) as Hsearch.
  { intros l0. apply (search_whole chunks 0 ∅ [] pages l0); [done|done|by destruct chunks; [|simpl; lia]|by intros p []%not_elem_of_empty|lia]. }
  assert (forall l, exists l', listAlbumAssets server fuel c albumID l = Some (Ok (concat chunks), l')) as Hlist by (intros l0; by apply gives_json).
  destruct chunks as [|chunk chunks]; [done|]. set (whole := concat (chunk :: chunks)) in *.
  assert (forall v l0, exists l', (if 3 <=? Major v then searchAlbumAssets server fuel pages (set_version v c) albumID
                               else listAlbumAssets server fuel (set_version v c) albumID) l0 = Some (Ok whole, l')) as Hknown.
  { intros v l0. destruct (3 <=? Major v); [|apply Hlist]. unfold searchAlbumAssets. rewrite search_version. apply Hsearch. }
  clearbody whole. unfold loadAlbumAssets, getServerVersion. unfold mbind, net_bind. destruct (version c) as [v|] eqn:Hv.
  - exists c. assert (set_version v c = c) as Hsame by (unfold set_version; rewrite <- Hv; by destruct c).
    destruct (Hknown v l) as [l' Hl]. rewrite Hsame in Hl. exists l'. cbn. by rewrite Hl.
  - destruct (answered_json (request_to "GET" (at_path c "/api/server/version" []) [] NoBody) (mkVersion 0 0 0 None) (of_object dec_version) l Ha)
      as ([v|e]&l1&Hr); unfold fetchServerVersion; rewrite Hr; cbn.
    + destruct (Hknown v l1) as [l' Hl]. rewrite Hl. by eexists _, _.
    + destruct (Hlist l1) as [l2 Hl]. rewrite Hl. destruct whole as [|x whole'] eqn:Hw; [|by eexists _, _].
      destruct (Hsearch l2) as [l3 Hs]. rewrite Hs. by eexists _, _.
Qed.
End searches.

(** * Examples *)

(** A cloud that redirects every request to another host. *)
Definition demo_redirects (status : Z) (target : string) : webdav_server := fun _ _ =>
  Ok (mkResp _ status "Found" (Some (url_Parse target)) 0 (mkDoc (Err "EOF"%string) None) ([], None)).
Definition demo_cloud : WebDav.Client :=
  WebDav.mkClient "https://cloud.example/remote.php/dav/public-files/abc" "/remote.php/dav/public-files/abc" "abc" "pw" BackendOpenCloud.
Definition demo_entry (name : string) : response :=
  mkResponse ("/remote.php/dav/public-files/abc/docs/" +:+ name) "" "12" "text/plain" false "" "SHA1:AB MD5:CD" "".

(** Only the allowed host is checked when the client is made: a server of it that
    redirects sends the agent wherever it wants, here inside its own network. *)
Lemma cloud_follows_anywhere : exists l, WebDav.GetFile (demo_redirects 302 "http://169.254.169.254/latest") demo_cloud "f" [] =
    Some (([], Some "GET request failed: stopped after 10 redirects"%string), l) /\
  u_host <$> (rq_url <$> l !! 1%nat) = Some "169.254.169.254"%string.
Proof. eexists. vm_compute. split; reflexivity. Qed.

(** A file whose name has a question mark is asked for by what comes before it. *)
Definition demo_file (name : string) : FileInfo := mkFileInfo name 12 "text/plain" false "ab" name.
Definition path_asked (f : FileInfo) : result string string :=
  match NewRequest "GET" (of_dir (WebDav.baseURL demo_cloud) (resolveRequestPath "docs" f)) [authHeader demo_cloud] NoBody with
  | Ok rq => Ok (unescape (u_path (rq_url rq)))
  | Err e => Err e
  end.
Lemma question_mark_lost :
  entry_of (of_dir (selfPath demo_cloud) "docs") (demo_entry "who%3F.txt") = Some (demo_file "who?.txt") /\
  path_asked (demo_file "who?.txt") = Ok "/remote.php/dav/public-files/abc/docs/who"%string.
Proof. split; vm_compute; reflexivity. Qed.

Lemma demo_cloud_new : WebDav.New "opencloud" "https://cloud.example/s/abc" ["cloud.example"%string] "pw" = Ok demo_cloud.
Proof. vm_compute. reflexivity. Qed.

(** The link names the second of two hosts that are allowed. *)
Lemma cloud_credentials_stay_witness : exists l, WebDav.GetFile (demo_redirects 302 "http://169.254.169.254/latest") demo_cloud "f" [] =
    Some (([], Some "GET request failed: stopped after 10 redirects"%string), l) /\
  Forall (credentials_stay "cloud.example"%string) l.
Proof.
  destruct cloud_follows_anywhere as (l&Hl&_). exists l. split; [exact Hl|].
  destruct (cloud_credentials_stay (demo_redirects 302 "http://169.254.169.254/latest") "opencloud" "https://cloud.example/s/abc"
              ["files.example"; "cloud.example"]%string "pw" demo_cloud) as (link&Hlink&_&_&Hget&_&_).
  - repeat apply Forall_cons_2; [vm_compute; reflexivity|vm_compute; reflexivity|apply Forall_nil_2].
  - vm_compute. reflexivity.
  - assert (u_host link = "cloud.example"%string) as <-.
    { vm_compute in Hlink. injection Hlink as <-. reflexivity. }
    destruct (Hget "f"%string [] _ l Hl) as (_&new&Hnew&Hall). cbn in Hnew. rewrite Hnew. exact Hall.
Defined.

Lemma listed_file_requested_witness : exists f rq h,
  entry_of (of_dir (selfPath demo_cloud) "docs") (demo_entry "who.txt") = Some f /\
  NewRequest "GET" (of_dir (WebDav.baseURL demo_cloud) (resolveRequestPath "docs" f)) [authHeader demo_cloud] NoBody = Ok rq /\
  unescape (u_path (rq_url rq)) = PathUnescape (Href (demo_entry "who.txt")) /\ h ∈ ["cloud.example"%string] /\ u_host (rq_url rq) = removeEmptyPort h.
Proof.
  exists (demo_file "who.txt").
  destruct (listed_file_requested "opencloud" "https://cloud.example/s/abc" ["cloud.example"%string] "pw" demo_cloud "docs" (demo_entry "who.txt")
              (demo_file "who.txt") "who.txt") as (rq&h&Hrq).
  - exact demo_cloud_new.
  - apply Forall_singleton. split; vm_compute; reflexivity.
  - vm_compute. reflexivity.
  - reflexivity.
  - vm_compute. reflexivity.
  - discriminate.
  - vm_compute. reflexivity.
  - vm_compute. reflexivity.
  - vm_compute. reflexivity.
  - repeat split; vm_compute; reflexivity.
  - exists rq, h. split; [vm_compute; reflexivity|exact Hrq].
Defined.

(** A library that answers every search with the same two pages, for ever. *)
Definition demo_photos : immich_server := fun _ rq =>
  Ok (mkResp _ 200 "OK" None 0
        (Some (JObj [("assets", JObj [("items", JArr []); ("nextPage", JStr "2")])]%string)) ([], None)).
Definition demo_library : Immich.Config := Immich.mkConfig "https://photos.example" "photos.example" "key" "share" "".
Definition demo_client : Immich.Client := Immich.mkClient (mkURL "https" "photos.example" "" "" []) "photos.example" "key" "share" "" None.

Lemma demo_answered : answered demo_photos 1 demo_client.
Proof. intros rq l. by eexists _, _. Qed.

Lemma photos_stay_on_host_witness : Immich.New demo_library = Ok demo_client /\
  sends (goes_to "photos.example") (Immich.PollShares demo_photos 1 demo_client) (fun _ => True).
Proof.
  assert (Immich.New demo_library = Ok demo_client) as Hnew by (vm_compute; reflexivity). split; [exact Hnew|].
  destruct (photos_stay_on_host (fun _ => None) demo_photos 1 demo_library demo_client Hnew) as [Hb Hall].
  exact (proj1 (Hall demo_client Hb)).
Defined.

Lemma photo_search_ends_witness : exists pages r l', searchAlbumAssets demo_photos 1 pages demo_client "a1" [] = Some (r, l').
Proof. exact (photo_search_ends demo_photos 1 demo_client "a1" demo_answered []). Defined.

(** An album in two pages, from a library of version 3, and listed whole. *)
Definition demo_asset (id : string) : json := JObj [("id", JStr id)]%string.
Definition demo_album : immich_server := fun _ rq =>
  let ok v := Ok (mkResp _ 200 "OK" None 0 (Some v) ([], None)) in
  let page l next := ok (JObj [("assets", JObj [("items", JArr l); ("nextPage", next)])]%string) in
  match rq_body rq with
  | JSONBody (JObj [_; (_, JNum 1); _; _]) => page [demo_asset "x"; demo_asset "y"] (JStr "2")
  | JSONBody _ => page [demo_asset "z"] JNull
  | _ => ok (JObj [("major", JNum 3); ("assets", JArr [demo_asset "x"; demo_asset "y"; demo_asset "z"])]%string)
  end.
Definition demo_named (id : string) : Asset := mkAsset id "" "" "" no_duration "" None.

Lemma demo_album_answered : answered demo_album 1 demo_client.
Proof.
  intros rq l. assert (exists d, demo_album l rq = Ok (mkResp _ 200 "OK" None 0 d ([], None))) as [d Hd]
    by (unfold demo_album; repeat case_match; by eexists).
  unfold Immich.do_request, Do. cbn [follow]. unfold mbind, net_bind, send_request. rewrite Hd. by eexists _, _.
Qed.

Lemma album_whole_either_way_witness : exists c' l',
  loadAlbumAssets demo_album 1 2 demo_client "a1" [] = Some ((c', Ok [demo_named "x"; demo_named "y"; demo_named "z"]), l').
Proof.
  apply (album_whole_either_way demo_album 1 demo_client "a1" [[demo_named "x"; demo_named "y"]; [demo_named "z"]] 2 []).
  - exact demo_album_answered.
  - discriminate.
  - intros [|[|i]] chunk Hc; [| |discriminate Hc]; injection Hc as <-; intros l; (eexists _, _; split; [reflexivity|split; vm_compute; reflexivity]).
  - intros l. eexists _, _. split; [reflexivity|split; vm_compute; reflexivity].
  - reflexivity.
  - simpl. lia.
Defined.
