(* ===== verification/Web.v ===== *)
(** The agent's web interface (agent/internal/web): routing, the middlewares
    and the handlers, over the daemon.  A request is what net/http gives of it
    (its method, its escaped path, header, form and query look-ups, the Basic
    credentials and the decoded body); a page or a fragment is a value, not its
    HTML; asking the server for the relay quota is the daemon's environment. *)

From Stdlib Require Import Ascii Floats.SpecFloat.
From stdpp Require Import pretty.
From S2P Require Import Prelude GoText GoUrl Float64 Conc Json TimeText Config Store SignalingClient DaemonState Daemon DaemonShares.
#[local] Open Scope Z_scope.

(** * Requests *)

(** A request.  [r_path] is the escaped path between its slashes: [/] is
    [[""]], [/a/] is [["a"; ""]]. *)
Record request := mkRequest {
  r_method : string; r_path : list string; r_header : string -> string; r_basic : option (string * string);
  r_form : option (string -> string); r_query : string -> string; r_body : option json }.

(** [r.URL.Path], and the path's segments as the router decodes them. *)
Definition url_path (r : request) : string := unescape (foldr (fun s t => "/" +:+ s +:+ t)%string ""%string (r_path r)).
Definition segments (r : request) : list string := map unescape (r_path r).

(** The router only serves a path that [path.Clean] leaves alone. *)
Fixpoint clean_path (l : list string) : bool :=
  match l with
  | [] => true
  | s :: l' => negb (bool_decide (s = "."%string)) && negb (bool_decide (s = ".."%string))
               && (negb (bool_decide (s = ""%string)) || bool_decide (l' = [])) && clean_path l'
  end.

(** * Routing *)

Inductive route :=
| RStatic | RDashboard | RSettings | RHistory
| RListShares | RCreateShare | RRevokeShare (code : string)
| RShareForm | RStatus | RTurnStatus | RSaveSettings | RRelayQuota | RQuotaWidget | RQuotaInline
| RV1ListShares | RV1CreateShare | RV1RevokeShare (code : string) | RV1Settings | RV1Preflight.

Inductive routed := Routed (x : route) | TemporaryRedirect | MethodNotAllowed.

Definition one_segment (s : string) : bool := negb (bool_decide (s = ""%string)) && negb (bool_decide (s = "/"%string)).

(** The patterns without a wildcard, under their methods, and the two that take
    a share's code. *)
Definition get_patterns : list (list string * route) :=
  [(["settings"], RSettings); (["history"], RHistory); (["api"; "shares"], RListShares); (["api"; "share-form"], RShareForm);
   (["api"; "status"], RStatus); (["api"; "turn-status"], RTurnStatus); (["api"; "relay-quota"], RRelayQuota);
   (["api"; "quota-widget"], RQuotaWidget); (["api"; "quota-inline"], RQuotaInline);
   (["api"; "v1"; "shares"], RV1ListShares); (["api"; "v1"; "settings"], RV1Settings)]%string.
Definition post_patterns : list (list string * route) :=
  [(["api"; "shares"], RCreateShare); (["api"; "v1"; "shares"], RV1CreateShare)]%string.
Definition put_patterns : list (list string * route) := [(["api"; "settings"], RSaveSettings)]%string.
Definition delete_patterns : list (list string * (string -> route)) :=
  [(["api"; "shares"], RRevokeShare); (["api"; "v1"; "shares"], RV1RevokeShare)]%string.
Definition exact {A} (t : list (list string * A)) (segs : list string) : option A :=
  snd <$> find (fun p => bool_decide (p.1 = segs)) t.
Definition or_405 (o : option route) : routed := match o with Some x => Routed x | None => MethodNotAllowed end.

(** The most specific pattern; [GET] patterns also serve [HEAD], and one of them
    is every path's.  A path without the final slash of the only pattern that
    would match it is redirected there.
    [agent/internal/web/server.go:144-190] registerRoutes *)
Definition registerRoutes (method : string) (segs : list string) : routed :=
  if bool_decide (method = "GET"%string) || bool_decide (method = "HEAD"%string) then
    if bool_decide (segs = ["static"%string]) then TemporaryRedirect
    else if bool_decide (head segs = Some "static"%string) then Routed RStatic
    else Routed (default RDashboard (exact get_patterns segs))
  else if bool_decide (method = "POST"%string) then or_405 (exact post_patterns segs)
  else if bool_decide (method = "DELETE"%string) then
    or_405 (code ← last segs; f ← exact delete_patterns (removelast segs); if one_segment code then Some (f code) else None)
  else if bool_decide (method = "PUT"%string) then or_405 (exact put_patterns segs)
  else if bool_decide (method = "OPTIONS"%string) then
    if bool_decide (segs = ["api"; "v1"]%string) then TemporaryRedirect
    else if bool_decide (take 2 segs = ["api"; "v1"]%string) then Routed RV1Preflight
    else MethodNotAllowed
  else MethodNotAllowed.

(** * Answers *)

(** [agent/internal/web/handlers.go:44-52] sessionData *)
Record sessionData := mkCard {
  c_Code : string; c_ShareURL : string; c_PublicURL : string; c_Downloads : Z; c_MaxDownloads : Z; c_RelayOnly : bool;
  c_ExpiresAtFormatted : string }.
(** [agent/internal/web/handlers.go:24-34] configData *)
Record configData := mkConfigData {
  cd_SignalingURL : string; cd_APIKey : string; cd_AllowedHost : string; cd_NCAllowedHost : string; cd_AgentAPIKey : string;
  cd_DefaultExpiry : Z; cd_DefaultMaxDownloads : Z; cd_DefaultRelayOnly : bool; cd_UIPort : Z }.
(** [agent/internal/web/handlers.go:36-41] envManagedData *)
Record envManagedData := mkEnvManaged {
  em_SignalingURL : string; em_APIKey : string; em_AllowedHost : string; em_NCAllowedHost : string }.
(** [agent/internal/web/handlers.go:12-21] pageData *)
Record pageData := mkPage {
  pd_Title : string; pd_ActivePage : string; pd_Version : string; pd_Uptime : string; pd_GoVersion : string; pd_ConfigPath : string;
  pd_Config : configData; pd_EnvManaged : envManagedData }.
(** [agent/internal/web/api.go:447-454] quotaResponse *)
Record quotaResponse := mkQuota {
  LimitGB : float64; UsedGB : float64; RemainingGB : float64; PeriodStart : Z; PeriodEnd : Z; PercentageUsed : float64 }.
(** What the two quota fragments show; the numbers are printed with [%.1f],
    [%.2f] and [%.0f]. *)
Record quotaBar := mkQuotaBar {
  qb_class : string; qb_remainingPercent : float64; qb_remaining : float64; qb_limit : float64; qb_resets : string }.

Inductive content :=
| Empty
| Text (s : string)                 (* http.Error, or a fragment without data *)
| StaticFile
| Page (name : string) (d : pageData)
| Cards (l : list sessionData)
| ShareForm (relayOnly : bool)
| QuotaFragment (widget : bool) (b : quotaBar)
| QuotaJSON (q : quotaResponse)
| JSON (v : json).
Record response := mkResponse { status : Z; allow_origin : option string; body : content }.

Definition answer (code : Z) (b : content) : response := mkResponse code None b.
Definition http_error (msg : string) (code : Z) : response := answer code (Text msg).

(** [agent/internal/web/api_v1.go:45-48] v1ErrorResponse *)
Definition v1_error (msg code : string) (st : Z) : response :=
  answer st (JSON (JObj [("error", JStr msg); ("code", JStr code)]%string)).

(** * Text *)

(** [agent/internal/web/handlers.go:183-205] derivePublicURL *)
Definition derivePublicURL (signalingURL code shareType : string) : string :=
  let url := if has_prefix "ws://" signalingURL then "http://" +:+ str_drop 5 signalingURL
             else if has_prefix "wss://" signalingURL then "https://" +:+ str_drop 6 signalingURL else signalingURL in
  let url := if has_suffix "/ws" url then TrimSuffix url "/ws" else TrimSuffix url "/" in
  if bool_decide (shareType = "immich"%string) then (url +:+ "/i/" +:+ code)%string else (url +:+ "/s/" +:+ code)%string.

Definition Hour : Z := 3600 * Second.
(** [time.Duration.Hours] and [Minutes], and [time.Time.Sub]. *)
Definition in_units (unit d : Z) : float64 :=
  f64_add (f64_of_Z (Z.quot d unit)) (f64_div (f64_of_Z (Z.rem d unit)) (f64_of_Z unit)).
Definition clamp64 (d : Z) : Z := Z.max (- 2 ^ 63) (Z.min (2 ^ 63 - 1) d).

Definition plural (n : Z) (unit : string) : string := (pretty n +:+ " " +:+ unit)%string.
(** [agent/internal/web/api.go:332-365] formatExpiry *)
Definition formatExpiry (now expiresAt : Z) : string :=
  if IsZero expiresAt then "Never"%string
  else if expiresAt <? now then "Expired"%string
  else
    let duration := clamp64 (expiresAt - now) in
    let hours := int64_of_f64 (in_units Hour duration) in
    if 24 <=? hours then
      let days := Z.quot hours 24 in if days =? 1 then "1 day"%string else plural days "days"
    else if 1 <=? hours then if hours =? 1 then "1 hour"%string else plural hours "hours"
    else
      let minutes := int64_of_f64 (in_units Minute duration) in
      if minutes <=? 1 then "<1 min"%string else plural minutes "min".

(** [agent/internal/web/handlers.go:159-179] formatUptime *)
Definition formatUptime (duration : Z) : string :=
  let hours := int64_of_f64 (in_units Hour duration) in
  let minutes := Z.rem (int64_of_f64 (in_units Minute duration)) 60 in
  if 24 <=? hours then
    let days := Z.quot hours 24 in
    let hours := Z.rem hours 24 in
    if 0 <? hours then (pretty days +:+ "d " +:+ pretty hours +:+ "h")%string else (pretty days +:+ "d")%string
  else if 0 <? hours then (pretty hours +:+ "h " +:+ pretty minutes +:+ "m")%string
  else (pretty minutes +:+ "m")%string.

Definition months : list string :=
  ["Jan"; "Feb"; "Mar"; "Apr"; "May"; "Jun"; "Jul"; "Aug"; "Sep"; "Oct"; "Nov"; "Dec"]%string.
(** The year and month of an instant, in UTC. *)
Definition year_month (t : Z) : Z * Z := let '(y, m, _) := civil_of_days (t / Day) in (y, m).
(** The layouts ["Jan 7"] and ["Jan 7, 2006"]: the month's name, and the
    character 7, which is no field of a layout.
    [agent/internal/web/api.go:397-400] quotaInlineHandler *)
Definition resets_text (now periodEnd : Z) : string :=
  let '(y, m) := year_month periodEnd in
  let text := (default "" (months !! Z.to_nat (m - 1)) +:+ " 7")%string in
  if y =? (year_month now).1 then text else (text +:+ ", " +:+ pretty y)%string.

(** [agent/internal/web/api.go:170-182] validateShareType *)
Definition validateShareType (shareType : string) (cfg : Config) : option string :=
  if bool_decide (shareType = "opencloud"%string) || bool_decide (shareType = "nextcloud"%string) then None
  else if bool_decide (shareType = "immich"%string) then
    if bool_decide (ImmichURL cfg = ""%string) || bool_decide (ImmichAllowedHost cfg = ""%string) || bool_decide (ImmichAPIKey cfg = ""%string)
    then Some "immich is not configured"%string else None
  else Some "share_type must be 'opencloud', 'nextcloud', or 'immich'"%string.

(** The one error of the daemon that is a validation error.
    [agent/internal/web/api.go:184-189] isValidationError *)
Definition isValidationError (err : string) : bool :=
  bool_decide (err = "share_url must be immich://KEY for manual Immich shares"%string).

(** [time.Duration(h)*time.Hour], which wraps. *)
Definition hours_duration (h : Z) : Z := (h * Hour + 2 ^ 63) mod 2 ^ 64 - 2 ^ 63.
Definition form_int (form : string -> string) (key : string) (ok : Z -> bool) (def : Z) : Z :=
  match Atoi (form key) with Some n => if ok n then n else def | None => def end.

(** * The server *)

(** [agent/internal/web/server.go:40-48] WebServer *)
Record WebServer := mkServer { ws_ready : bool; ws_password : string; ws_env : environment; ws_configPath : string; ws_start : Z }.

(** The relay quota, asked over HTTP: the status and the decoded answer; and
    which URLs net/http can make a request of. *)
Class QuotaServer `{Backends} := {
  get_quota : string -> remote -> result (Z * option quotaResponse) string;
  url_ok : string -> bool }.

Section web.
Context `{QuotaServer} (ws : WebServer).
Abbreviation handler := (proc World).

(** ** Pages *)

Definition no_config : configData := mkConfigData "" "" "" "" "" 0 0 false 0.
Definition no_env : envManagedData := mkEnvManaged "" "" "" "".

(** [agent/internal/web/handlers.go:57-92] renderPage *)
Definition renderPage (name : string) (d : pageData) : handler response :=
  now ← get_now;
  let uptime := if bool_decide (pd_Uptime d = ""%string)
                then if ws_ready ws then formatUptime (clamp64 (now - ws_start ws)) else "unknown"%string else pd_Uptime d in
  mret (answer 200 (Page name (mkPage (pd_Title d) (pd_ActivePage d) (or_str (pd_Version d) "dev") uptime (pd_GoVersion d)
                                 (pd_ConfigPath d) (pd_Config d) (pd_EnvManaged d)))).

(** [agent/internal/web/handlers.go:95-101] dashboardHandler *)
Definition dashboardHandler : handler response :=
  renderPage "dashboard.html" (mkPage "Dashboard" "dashboard" "" "" "" "" no_config no_env).
(** [agent/internal/web/handlers.go:150-156] historyHandler *)
Definition historyHandler : handler response :=
  renderPage "history.html" (mkPage "History" "history" "" "" "" "" no_config no_env).

(** [agent/internal/web/handlers.go:142-147] envVarNameIfSet *)
Definition envVarNameIfSet (name : string) : string := if Manager.is_set (ws_env ws) name then name else ""%string.
Definition config_data (c : Config) : configData :=
  mkConfigData (SignalingURL c) (APIKey c) (AllowedHost c) (NCAllowedHost c) (AgentAPIKey c) (DefaultExpiry c) (DefaultMaxDownloads c)
    (DefaultRelayOnly c) (UIPort c).
(** [agent/internal/web/handlers.go:104-140] settingsHandler *)
Definition settingsHandler : handler response :=
  c ← get_config;
  renderPage "settings.html"
    (mkPage "Settings" "settings" "" "" "go1.26.1" (if ws_ready ws then ws_configPath ws else ""%string)
       (if ws_ready ws then config_data c else no_config)
       (mkEnvManaged (envVarNameIfSet "SIGNALING_SERVER") (envVarNameIfSet "SHAREBRIDGE_API_KEY")
          (envVarNameIfSet "ALLOWED_SHAREBRIDGE_HOST") (envVarNameIfSet "NC_ALLOWED_SHAREBRIDGE_HOST"))).

(** ** Shares *)

Definition card (signalingURL : string) (s : nat) (w : World) : sessionData :=
  mkCard (field_of s_Code ""%string s w) (field_of s_ShareURL ""%string s w)
    (derivePublicURL signalingURL (field_of s_Code ""%string s w) (field_of s_ShareType ""%string s w))
    (field_of s_Downloads 0 s w) (field_of s_MaxDownloads 0 s w) (field_of s_RelayOnly false s w)
    (formatExpiry (w_now w) (field_of s_ExpiresAt zero_time s w)).
Fixpoint read_all {A} (f : nat -> World -> A) (l : list nat) : handler (list A) :=
  match l with [] => mret [] | s :: l' => x ← reads (f s); xs ← read_all f l'; mret (x :: xs) end.

(** [agent/internal/web/api.go:18-65] listSharesHandler *)
Definition listSharesHandler : handler response :=
  if negb (ws_ready ws) then mret (answer 200 (Text "No daemon available"))
  else
    sessions ← ListSessions;
    if bool_decide (sessions = []) then mret (answer 200 (Text "No active shares"))
    else cfg ← get_config; l ← read_all (card (SignalingURL cfg)) sessions; mret (answer 200 (Cards l)).

(** What the form's values make.
    [agent/internal/web/api.go:99-168] createShareHandler *)
Definition create_share (shareURL shareType password : string) (expiryHours maxDownloads : Z) (relayOnly : bool) : handler response :=
  cfg ← get_config;
  match validateShareType shareType cfg with
  | Some e => mret (http_error e 400)
  | None =>
      made ← CreateSession shareURL shareType password (hours_duration expiryHours) maxDownloads relayOnly;
      match made with
      | Err e => mret (http_error ("create session: " +:+ e) (if isValidationError e then 400 else 500))
      | Ok code =>
          session ← GetSession code;
          match session with
          | None => mret (http_error "Session not found after creation" 500)
          | Some s => cfg ← get_config; c ← reads (card (SignalingURL cfg) s); mret (answer 200 (Cards [c]))
          end
      end
  end.
(** [agent/internal/web/api.go:69-127] createShareHandler *)
Definition createShareHandler (r : request) : handler response :=
  if negb (ws_ready ws) then mret (http_error "Daemon not available" 500)
  else
    match r_form r with
    | None => mret (http_error "parse form" 400)
    | Some form =>
        let shareType := form "share_type"%string in
        if bool_decide (shareType = ""%string) then mret (http_error "share_type is required" 400)
        else create_share (form "share_url"%string) shareType (form "password"%string) (form_int form "expiry_hours" (Z.ltb 0) 24)
               (form_int form "max_downloads" (Z.leb 0) 10) (bool_decide (form "relay_only"%string = "true"%string))
    end.

(** [agent/internal/web/api.go:192-211] revokeShareHandler *)
Definition revokeShareHandler (code : string) : handler response :=
  if negb (ws_ready ws) then mret (http_error "Daemon not available" 500)
  else if bool_decide (code = ""%string) then mret (http_error "Missing share code" 400)
  else
    done ← RevokeSession code;
    match done with
    | Err e => mret (http_error ("revoke session: " +:+ e) 500)
    | Ok _ => mret (answer 200 Empty)
    end.

(** [agent/internal/web/api.go:218-238] shareFormHandler *)
Definition shareFormHandler : handler response :=
  cfg ← get_config; mret (answer 200 (ShareForm (if ws_ready ws then DefaultRelayOnly cfg else true))).

(** [agent/internal/web/api.go:241-254] statusHandler *)
Definition statusHandler : handler response :=
  if negb (ws_ready ws) then mret (answer 200 (Text "Offline"))
  else connected ← IsConnected; mret (answer 200 (Text (if (connected : bool) then "Connected" else "Connecting..."))).
(** [agent/internal/web/api.go:257-272] turnStatusHandler *)
Definition turnStatusHandler : handler response :=
  turn ← HasTURN; mret (answer 200 (JSON (JObj [("available"%string, JBool (ws_ready ws && turn))]))).

(** ** Settings *)

(** The settings after the form: a field the environment manages stays, the
    text fields become what the form has, the numbers if it has good ones.
    [agent/internal/web/api.go:287-318] saveSettingsHandler *)
Definition form_settings (form : string -> string) (c : Config) : Config :=
  let text env_key key old := if Manager.is_set (ws_env ws) env_key then old else form key in
  mkConfig (ConfigVersion c) (text "SIGNALING_SERVER" "signaling_url" (SignalingURL c))%string
    (text "SHAREBRIDGE_API_KEY" "api_key" (APIKey c))%string (text "ALLOWED_SHAREBRIDGE_HOST" "allowed_host" (AllowedHost c))%string
    (text "NC_ALLOWED_SHAREBRIDGE_HOST" "nc_allowed_host" (NCAllowedHost c))%string (AgentAPIKey c) (ImmichURL c) (ImmichAllowedHost c)
    (ImmichAPIKey c) (ImmichPollInterval c) (form_int form "default_expiry_hours" (Z.ltb 0) (DefaultExpiry c))
    (form_int form "default_max_downloads" (Z.leb 0) (DefaultMaxDownloads c))
    (bool_decide (form "default_relay_only"%string = "true"%string)) (UIPort c) (UIAddr c) (UIPassword c).
(** The daemon's settings are changed in place, then saved.
    [agent/internal/web/api.go:275-329] saveSettingsHandler *)
Definition saveSettingsHandler (r : request) : handler response :=
  if negb (ws_ready ws) then mret (http_error "Daemon not available" 500)
  else
    match r_form r with
    | None => mret (http_error "parse form" 400)
    | Some form =>
        cfg ← atomic (fun w => let c := form_settings form (d_config w) in (c, set_config c w));
        saved ← SaveConfig cfg;
        match saved with
        | Err e => mret (http_error ("save config: " +:+ e) 500)
        | Ok _ => mret (answer 200 (Text "Settings saved successfully!"))
        end
    end.

(** ** The relay quota *)

(** [agent/internal/web/api.go:420-426] fetchQuotaFromSignalingServer *)
Definition quota_url (cfg : Config) : string :=
  let u := SignalingURL cfg in
  let u := if has_prefix "wss://" u then "https://" +:+ TrimPrefix u "wss://"
           else if has_prefix "ws://" u then "http://" +:+ TrimPrefix u "ws://" else u in
  (TrimSuffix u "/" +:+ "/api/account/quota?api_key=" +:+ APIKey cfg)%string.
(** [agent/internal/web/api.go:419-445] fetchQuotaFromSignalingServer *)
Definition fetchQuotaFromSignalingServer (cfg : Config) : handler (result quotaResponse string) :=
  r ← ask (get_quota (quota_url cfg));
  match r with
  | Err e => mret (Err e)
  | Ok (st, q) =>
      if negb (st =? 200) then mret (Err ("status " +:+ pretty st)%string)
      else match q with Some q => mret (Ok q) | None => mret (Err "decode"%string) end
  end.

Definition no_quota_server (cfg : Config) : bool :=
  bool_decide (SignalingURL cfg = ""%string) || bool_decide (APIKey cfg = ""%string).
(** [agent/internal/web/api.go:389-400] quotaInlineHandler *)
Definition quota_bar (now : Z) (q : quotaResponse) : quotaBar :=
  let remaining := f64_sub (f64_of_Z 100) (PercentageUsed q) in
  mkQuotaBar (if f64_ge (f64_of_Z 10) remaining then "quota-bar-critical" else if f64_ge (f64_of_Z 30) remaining then "quota-bar-warning" else "")%string
    remaining (RemainingGB q) (LimitGB q) (resets_text now (PeriodEnd q)).
(** [agent/internal/web/api.go:458-509] quotaWidgetHandler *)
Definition quota_fragment (widget : bool) : handler response :=
  if negb (ws_ready ws) then mret (answer 200 (Text "Agent not ready"))
  else
    cfg ← get_config;
    if no_quota_server cfg then mret (answer 200 (Text "No signaling server or API key configured"))
    else
      q ← fetchQuotaFromSignalingServer cfg;
      match q with
      | Err _ => mret (answer 200 (Text "Unable to load quota"))
      | Ok q => now ← get_now; mret (answer 200 (QuotaFragment widget (quota_bar now q)))
      end.
(** [agent/internal/web/api.go:369-416] quotaInlineHandler *)
Definition quotaInlineHandler : handler response := quota_fragment false.
Definition quotaWidgetHandler : handler response := quota_fragment true.

(** Without a request, the call panics, and net/http drops the connection. *)
Definition aborted : response := answer 0 Empty.
(** [agent/internal/web/api.go:514-574] relayQuotaHandler *)
Definition relayQuotaHandler : handler response :=
  if negb (ws_ready ws) then mret (answer 204 Empty)
  else
    cfg ← get_config;
    if no_quota_server cfg then mret (answer 204 Empty)
    else if negb (url_ok (quota_url cfg)) then mret aborted
    else
      q ← fetchQuotaFromSignalingServer cfg;
      match q with Err _ => mret (answer 204 Empty) | Ok q => mret (answer 200 (QuotaJSON q)) end.

(** ** The extension's API *)

(** [agent/internal/web/api_v1.go:11-21] v1ShareResponse *)
Record v1ShareResponse := mkV1Share {
  v1_Code : string; v1_PublicURL : string; v1_ShareURL : string; v1_FileID : string; v1_Downloads : Z; v1_MaxDownloads : Z;
  v1_RelayOnly : bool; v1_ExpiresAt : Z; v1_CreatedAt : Z }.
(** [agent/internal/web/api_v1.go:73-83] v1ListSharesHandler *)
Definition v1_share (signalingURL : string) (s : nat) (w : World) : v1ShareResponse :=
  mkV1Share (field_of s_Code ""%string s w)
    (derivePublicURL signalingURL (field_of s_Code ""%string s w) (field_of s_ShareType ""%string s w))
    (field_of s_ShareURL ""%string s w) (field_of s_FileID ""%string s w) (field_of s_Downloads 0 s w) (field_of s_MaxDownloads 0 s w)
    (field_of s_RelayOnly false s w) (field_of s_ExpiresAt zero_time s w) (field_of s_CreatedAt zero_time s w).
(** An instant is written in UTC. *)
Definition json_time (t : Z) : json := match time_text 0 t with Some s => JStr s | None => JNull end.
Definition v1_share_json (x : v1ShareResponse) : json :=
  JObj [("code", JStr (v1_Code x)); ("public_url", JStr (v1_PublicURL x)); ("share_url", JStr (v1_ShareURL x));
        ("file_id", JStr (v1_FileID x)); ("downloads", JNum (v1_Downloads x)); ("max_downloads", JNum (v1_MaxDownloads x));
        ("relay_only", JBool (v1_RelayOnly x)); ("expires_at", json_time (v1_ExpiresAt x)); ("created_at", json_time (v1_CreatedAt x))]%string.

Definition unavailable : response := v1_error "Service unavailable" "UNAVAILABLE" 503.

(** [agent/internal/web/api_v1.go:59-87] v1ListSharesHandler *)
Definition v1ListSharesHandler (r : request) : handler response :=
  if negb (ws_ready ws) then mret unavailable
  else
    let fileID := r_query r "file_id"%string in
    cfg ← get_config;
    sessions ← ListSessions;
    l ← read_all (v1_share (SignalingURL cfg)) sessions;
    mret (answer 200 (JSON (JArr (map v1_share_json
      (filter (fun x => fileID = ""%string \/ v1_FileID x = fileID) l))))).

(** [agent/internal/web/api_v1.go:23-30] v1CreateShareRequest *)
Record v1CreateShareRequest := mkV1Create {
  q_ShareURL : string; q_ShareType : string; q_Password : string; q_ExpiryHours : Z; q_MaxDownloads : Z; q_RelayOnly : bool }.
Definition decode_v1_obj (o : obj) : option v1CreateShareRequest :=
  url ← field dec_str "share_url" ""%string o;
  type ← field dec_str "share_type" ""%string o;
  password ← field dec_str "password" ""%string o;
  hours ← field dec_int64 "expiry_hours" 0 o;
  downloads ← field dec_int64 "max_downloads" 0 o;
  relay ← field dec_bool "relay_only" false o;
  Some (mkV1Create url type password hours downloads relay).
Definition decode_v1 (v : option json) : option v1CreateShareRequest :=
  match v with Some (JObj o) => decode_v1_obj o | Some JNull => decode_v1_obj [] | _ => None end.

(** [agent/internal/web/api_v1.go:90-149] v1CreateShareHandler *)
Definition v1CreateShareHandler (r : request) : handler response :=
  if negb (ws_ready ws) then mret unavailable
  else
    match decode_v1 (r_body r) with
    | None => mret (v1_error "Invalid request body" "BAD_REQUEST" 400)
    | Some req =>
        if bool_decide (q_ShareURL req = ""%string) then mret (v1_error "share_url is required" "BAD_REQUEST" 400)
        else if bool_decide (q_ShareType req = ""%string) then mret (v1_error "share_type is required" "BAD_REQUEST" 400)
        else
          cfg ← get_config;
          match validateShareType (q_ShareType req) cfg with
          | Some e => mret (v1_error e "BAD_REQUEST" 400)
          | None =>
              expiryHours ← (if q_ExpiryHours req <=? 0 then reads (fun w => DefaultExpiry (d_config w)) else mret (q_ExpiryHours req));
              made ← CreateSession (q_ShareURL req) (q_ShareType req) (q_Password req) (hours_duration expiryHours) (q_MaxDownloads req)
                       (q_RelayOnly req);
              match made with
              | Err e => mret (if isValidationError e then v1_error e "BAD_REQUEST" 400 else v1_error e "INTERNAL_ERROR" 500)
              | Ok code =>
                  session ← GetSession code;
                  match session with
                  | None => mret (v1_error "Session not found after creation" "INTERNAL_ERROR" 500)
                  | Some s =>
                      cfg ← get_config;
                      x ← reads (v1_share (SignalingURL cfg) s);
                      mret (answer 201 (JSON (JObj [("code", JStr (v1_Code x)); ("public_url", JStr (v1_PublicURL x));
                                                    ("expires_at", json_time (v1_ExpiresAt x))]%string)))
                  end
              end
          end
    end.

(** [agent/internal/web/api_v1.go:152-170] v1RevokeShareHandler *)
Definition v1RevokeShareHandler (code : string) : handler response :=
  if negb (ws_ready ws) then mret unavailable
  else if bool_decide (code = ""%string) then mret (v1_error "Missing share code" "BAD_REQUEST" 400)
  else
    done ← RevokeSession code;
    mret (match done with Err _ => v1_error "Share not found" "NOT_FOUND" 404 | Ok _ => answer 204 Empty end).

(** [agent/internal/web/api_v1.go:173-186] v1SettingsHandler *)
Definition v1SettingsHandler : handler response :=
  if negb (ws_ready ws) then mret unavailable
  else
    cfg ← get_config; turn ← HasTURN;
    mret (answer 200 (JSON (JObj [("default_expiry_hours", JNum (DefaultExpiry cfg)); ("default_max_downloads", JNum (DefaultMaxDownloads cfg));
                                  ("default_relay_only", JBool (DefaultRelayOnly cfg)); ("turn_available", JBool turn)]%string))).

(** ** Middlewares *)

(** [agent/internal/web/server.go:195-207] csrfMiddleware *)
Definition csrfMiddleware (next : handler response) (r : request) : handler response :=
  if negb (bool_decide (r_method r = "GET"%string)) && negb (bool_decide (r_method r = "HEAD"%string))
     && negb (bool_decide (r_header r "HX-Request"%string = "true"%string))
     && negb (bool_decide (r_header r "X-Requested-With"%string = "XMLHttpRequest"%string))
  then mret (http_error "Forbidden - CSRF check failed" 403)
  else next.

Definition https (host : string) : string := ("https://" +:+ host)%string.
(** [agent/internal/web/server.go:235-270] corsMiddleware *)
Definition corsMiddleware (next : handler response) (r : request) : handler response :=
  if negb (ws_ready ws) then mret unavailable
  else
    cfg ← get_config;
    if bool_decide (AllowedHost cfg = ""%string) then mret (v1_error "AllowedHost not configured" "MISCONFIGURED" 503)
    else
      let origin := r_header r "Origin"%string in
      let allowed := if negb (bool_decide (NCAllowedHost cfg = ""%string)) && bool_decide (origin = https (NCAllowedHost cfg))
                     then origin else https (AllowedHost cfg) in
      resp ← (if bool_decide (r_method r = "OPTIONS"%string) then mret (answer 204 Empty) else next);
      mret (mkResponse (status resp) (Some allowed) (body resp)).

(** [agent/internal/web/server.go:274-292] apiKeyMiddleware *)
Definition apiKeyMiddleware (next : handler response) (r : request) : handler response :=
  if negb (ws_ready ws) then mret unavailable
  else
    cfg ← get_config;
    let provided := r_header r "X-API-Key"%string in
    if bool_decide (provided = ""%string) || negb (bool_decide (provided = AgentAPIKey cfg))
    then mret (v1_error "Invalid API key" "UNAUTHORIZED" 401)
    else next.

(** [agent/internal/web/server.go:179-181] registerRoutes *)
Definition v1 (h : handler response) (r : request) : handler response := corsMiddleware (apiKeyMiddleware h r) r.

(** [agent/internal/web/server.go:144-190] registerRoutes *)
Definition dispatch (x : route) (r : request) : handler response :=
  match x with
  | RStatic => mret (answer 200 StaticFile)
  | RDashboard => dashboardHandler
  | RSettings => settingsHandler
  | RHistory => historyHandler
  | RListShares => csrfMiddleware listSharesHandler r
  | RCreateShare => csrfMiddleware (createShareHandler r) r
  | RRevokeShare code => csrfMiddleware (revokeShareHandler code) r
  | RShareForm => shareFormHandler
  | RStatus => statusHandler
  | RTurnStatus => turnStatusHandler
  | RSaveSettings => csrfMiddleware (saveSettingsHandler r) r
  | RRelayQuota => relayQuotaHandler
  | RQuotaWidget => quotaWidgetHandler
  | RQuotaInline => quotaInlineHandler
  | RV1ListShares => v1 (v1ListSharesHandler r) r
  | RV1CreateShare => v1 (v1CreateShareHandler r) r
  | RV1RevokeShare code => v1 (v1RevokeShareHandler code) r
  | RV1Settings => v1 v1SettingsHandler r
  | RV1Preflight => corsMiddleware (mret (answer 204 Empty)) r
  end.

Definition mux (r : request) : handler response :=
  if negb (clean_path (r_path r)) then mret (answer 307 Empty)
  else
    match registerRoutes (r_method r) (segments r) with
    | Routed x => dispatch x r
    | TemporaryRedirect => mret (answer 307 Empty)
    | MethodNotAllowed => mret (http_error "Method Not Allowed" 405)
    end.

(** [agent/internal/web/server.go:211-229] authMiddleware *)
Definition authMiddleware (next : handler response) (r : request) : handler response :=
  if has_prefix "/static/" (url_path r) then next
  else match r_basic r with
       | Some (_, password) => if bool_decide (password = ws_password ws) then next else mret (http_error "Unauthorized" 401)
       | None => mret (http_error "Unauthorized" 401)
       end.

(** [agent/internal/web/server.go:86-105] Start *)
Definition serve (r : request) : handler response :=
  if bool_decide (ws_password ws = ""%string) then mux r else authMiddleware (mux r) r.
End web.
