(* ===== verification/WebSafe.v ===== *)
(** What the web interface guards: with a password, a request that does not
    carry it sees the static files and the empty dashboard and nothing else; a
    request that carries neither the headers of a script nor the API key
    changes nothing, and no share is listed or made for it over the extension's
    API. *)

From Stdlib Require Import Ascii.
From S2P Require Import Prelude GoText GoUrl Conc Json Config Store SignalingClient DaemonState Daemon DaemonShares DaemonInv DaemonSpec Web.
#[local] Open Scope Z_scope.

(** * Paths *)

(** A path under [/static/] has [static] first, or first of its first segment:
    it is no other handler's. *)
Lemma static_first r : Forall (fun s => escaped s = true) (r_path r) -> has_prefix "/static/" (url_path r) = true ->
  exists u l, segments r = ("static" +:+ u)%string :: l.
Proof.
  unfold url_path, segments. destruct (r_path r) as [|s l]; [done|]. intros Hl Hp. apply Forall_cons_1 in Hl as [Hs _].
  cbn [foldr map] in Hp |- *. set (rest := foldr _ _ l) in Hp.
  assert (unescape rest = ""%string \/ exists v, unescape rest = String "/" v) as Hslash.
  { unfold rest. destruct l as [|s' l]; [by left|right; by eexists]. }
  change ("/" +:+ s +:+ rest) with (String "/" (s +:+ rest)) in Hp.
  rewrite unescape_char, unescape_app in Hp by done. generalize dependent (unescape rest). intros v Hp Hslash.
  exists (str_drop 6 (unescape s)), (map unescape l). f_equal.
  clear Hs. generalize dependent (unescape s). clear s. intros x Hp.
  apply prefix_char in Hp as (?&[= <-]&Hp).
  do 6 (apply prefix_char in Hp as (?&Hx&Hp); destruct x as [|? x]; simpl in Hx;
    [exfalso; destruct Hslash as [->|[? ->]]; discriminate Hx|injection Hx as -> <-]).
  reflexivity.
Qed.

(** * Requests that change nothing *)

(** What the answer to anyone may be: a refusal, a static file, or the
    dashboard's frame, which has none of the settings. *)
Definition discloses_nothing (resp : response) : Prop :=
  body resp = Empty \/ body resp = StaticFile \/ body resp = Text "Unauthorized" \/ body resp = Text "Method Not Allowed" \/
  exists d, body resp = Page "dashboard.html" d /\ pd_Config d = no_config /\ pd_ConfigPath d = ""%string.

(** A script sent the request: a page of another origin cannot add the header. *)
Definition from_script (r : request) : bool :=
  bool_decide (r_header r "HX-Request"%string = "true"%string) ||
  bool_decide (r_header r "X-Requested-With"%string = "XMLHttpRequest"%string).

Section guards.
Context `{QuotaServer} (ws : WebServer).

Definition keyed (r : request) (w : World) : Prop :=
  r_header r "X-API-Key"%string <> ""%string /\ r_header r "X-API-Key"%string = AgentAPIKey (d_config w).

(** The routes that change something or are the extension's. *)
Definition guarded (x : route) : bool :=
  match x with
  | RCreateShare | RRevokeShare _ | RSaveSettings
  | RV1ListShares | RV1CreateShare | RV1RevokeShare _ | RV1Settings => true
  | _ => false
  end.

Lemma exact_in {A} (t : list (list string * A)) segs x : exact t segs = Some x -> (segs, x) ∈ t.
Proof.
  unfold exact. intros (p&Hf&->)%fmap_Some_1. apply find_some in Hf as [Hin <-%bool_decide_eq_true_1].
  apply list_elem_of_In in Hin. by destruct p.
Qed.

Definition allowed_method (x : route) (method : string) : Prop :=
  match x with
  | RV1Preflight => True
  | RCreateShare | RRevokeShare _ | RSaveSettings => method <> "GET"%string /\ method <> "HEAD"%string
  | _ => method <> "OPTIONS"%string
  end.
Lemma route_method method segs x : registerRoutes method segs = Routed x -> allowed_method x method.
Proof.
  unfold registerRoutes. intros Hr.
  case_bool_decide as Hget; [|case_bool_decide as Hhead]; cbn [orb] in Hr; subst.
  1,2: repeat case_bool_decide; [discriminate Hr|injection Hr as <-; done|injection Hr as <-];
    destruct (exact get_patterns segs) eqn:Hx; [apply exact_in in Hx; set_solver|done].
  case_bool_decide as Hm; [subst method|].
  { destruct (exact post_patterns segs) eqn:Hx; [|discriminate Hr]. injection Hr as <-. apply exact_in in Hx. set_solver. }
  case_bool_decide as Hm2; [subst method|].
  { destruct (last segs) as [code|]; [|discriminate Hr]. cbn [option_bind mbind] in Hr.
    destruct (exact delete_patterns (removelast segs)) as [f|] eqn:Hx; [|discriminate Hr]. cbn [option_bind mbind] in Hr.
    destruct (one_segment code); [|discriminate Hr]. injection Hr as <-. apply exact_in in Hx. set_solver. }
  case_bool_decide as Hm3; [subst method|].
  { destruct (exact put_patterns segs) eqn:Hx; [|discriminate Hr]. injection Hr as <-. apply exact_in in Hx. set_solver. }
  by repeat case_bool_decide; simplify_eq.
Qed.

(** ** Programs that only answer *)

(** Whatever the others do while [I] holds, the program changes nothing and what
    it returns satisfies [Q]. *)
Definition answers (I : World -> Prop) {A} (p : proc World A) (Q : A -> Prop) : Prop :=
  forall w, wp (fun _ _ => True) (fun w1 w2 => w2 = w1) I p (fun a _ => Q a) w.

Lemma any_preorder : PreOrder (fun _ _ : World => True).
Proof. by split. Qed.

Lemma ans_ret I {A} (a : A) (Q : A -> Prop) : Q a -> answers I (mret a) Q.
Proof. intros HQ w. by apply wp_mret. Qed.

Lemma ans_bind I {A B} (p : proc World A) (g : A -> proc World B) (P : A -> Prop) Q :
  answers I p P -> (forall a, P a -> answers I (g a) Q) -> answers I (p ≫= g) Q.
Proof. intros Hp Hg w. apply wp_mbind; [exact any_preorder|]. eapply wp_mono; [|apply Hp]. intros a w' Ha. by apply Hg. Qed.

Lemma ans_choices I {A} (f : World -> list (A * World)) (Q : A -> Prop) :
  (forall w b w', I w -> (b, w') ∈ f w -> w' = w /\ Q b) -> answers I (choices f) Q.
Proof. intros Hf w. apply wp_choices. intros w1 _ HI b w2 Hin. destruct (Hf w1 b w2 HI Hin) as [-> HQ]. by split_and!. Qed.

Lemma ans_reads I {A} (f : World -> A) (Q : A -> Prop) : (forall w, I w -> Q (f w)) -> answers I (reads f) Q.
Proof. intros Hf. apply ans_choices. intros w b w' HI [= -> ->]%list_elem_of_singleton. eauto. Qed.

Lemma ans_mono I {A} (p : proc World A) (P Q : A -> Prop) : (forall a, P a -> Q a) -> answers I p P -> answers I p Q.
Proof. intros HPQ Hp w. eapply wp_mono; [|apply Hp]. eauto. Qed.

Lemma ans_read_all I {A} (f : nat -> World -> A) l : answers I (read_all f l) (fun _ => True).
Proof.
  induction l as [|s l IH]; [by apply ans_ret|]. cbn [read_all].
  eapply ans_bind; [by apply (ans_reads _ _ (fun _ => True))|]. intros x _. eapply ans_bind; [exact IH|]. intros xs _. by apply ans_ret.
Qed.

Lemma ans_ListSessions I : answers I ListSessions (fun _ => True).
Proof.
  eapply ans_bind; [|intros l _; by apply ans_ret]. apply (ans_choices _ _ (fun _ => True)).
  intros w b w' _ (l&[= -> ->]&_)%list_elem_of_fmap. by split.
Qed.

Lemma ans_page I name d (Q : response -> Prop) :
  (forall up, Q (answer 200 (Page name (mkPage (pd_Title d) (pd_ActivePage d) (or_str (pd_Version d) "dev") up (pd_GoVersion d)
                                         (pd_ConfigPath d) (pd_Config d) (pd_EnvManaged d))))) -> answers I (renderPage ws name d) Q.
Proof. intros HQ. eapply ans_bind; [by apply (ans_reads _ _ (fun _ => True))|]. intros now _. by apply ans_ret. Qed.

Lemma ans_fetch I cfg : answers I (fetchQuotaFromSignalingServer cfg) (fun _ => True).
Proof.
  eapply ans_bind; [by apply (ans_reads _ _ (fun _ => True))|]. intros [[st [q|]]|e] _; try by apply ans_ret.
  all: destruct (negb (st =? 200)); by apply ans_ret.
Qed.

(** The handlers that look things up. *)
Ltac answering :=
  repeat match goal with
  | |- answers _ (mret _) _ => by apply ans_ret
  | |- answers _ (reads _) _ => by apply (ans_reads _ _ (fun _ => True))
  | |- answers _ (renderPage _ _ _) _ => by apply ans_page
  | |- answers _ ((read_all _ _) ≫= _) _ => eapply ans_bind; [apply ans_read_all|intros ? _]
  | |- answers _ (ListSessions ≫= _) _ => eapply ans_bind; [apply ans_ListSessions|intros ? _]
  | |- answers _ (fetchQuotaFromSignalingServer _ ≫= _) _ => eapply ans_bind; [apply ans_fetch|intros [?|?] _]
  | |- answers _ ((if ?b then _ else _) ≫= _) _ => destruct b
  | |- answers _ (mret _ ≫= _) _ => eapply ans_bind; [by apply (ans_ret _ _ (fun _ => True))|intros ? _]
  | |- answers _ (_ ≫= _) _ => eapply ans_bind; [by apply (ans_reads _ _ (fun _ => True))|intros ? _]
  | |- answers _ (if ?b then _ else _) _ => destruct b
  end.

(** *** The guards *)

Lemma ans_key I r (h : proc World response) (Q : response -> Prop) :
  r_method r <> "OPTIONS"%string -> (forall w, I w -> ~ keyed r w) ->
  (forall code, code ∈ [401; 503] -> forall o b, Q (mkResponse code o b)) -> answers I (v1 ws h r) Q.
Proof.
  intros Hm HI HQ. unfold v1, corsMiddleware. destruct (ws_ready ws) eqn:Hready; cbn [negb]; [|apply ans_ret, HQ; set_solver].
  eapply ans_bind; [by apply (ans_reads _ _ (fun _ => True))|]. intros cfg _. case_bool_decide; [apply ans_ret, HQ; set_solver|].
  rewrite (bool_decide_false (r_method r = _)) by done.
  eapply (ans_bind _ _ _ (fun resp => status resp ∈ [401; 503])); [|intros resp Hs; apply ans_ret, HQ, Hs].
  unfold apiKeyMiddleware. rewrite Hready. cbn [negb].
  eapply ans_bind; [apply (ans_reads _ _ (fun cfg => r_header r "X-API-Key"%string = ""%string \/ r_header r "X-API-Key"%string <> AgentAPIKey cfg))|].
  { intros w Hw%HI. destruct (decide (r_header r "X-API-Key"%string = ""%string)); [by left|right; intros ?; by apply Hw]. }
  intros c [Hc|Hc].
  - rewrite bool_decide_true by done. apply ans_ret. set_solver.
  - rewrite (bool_decide_false (_ = AgentAPIKey c)), orb_true_r by done. apply ans_ret. set_solver.
Qed.

Lemma ans_csrf I r (h : proc World response) (Q : response -> Prop) :
  r_method r <> "GET"%string -> r_method r <> "HEAD"%string -> from_script r = false ->
  Q (http_error "Forbidden - CSRF check failed" 403) -> answers I (csrfMiddleware h r) Q.
Proof.
  intros H1 H2 Hs HQ. unfold csrfMiddleware. apply orb_false_elim in Hs as [-> ->].
  rewrite !bool_decide_false by done. by apply ans_ret.
Qed.

Lemma ans_dispatch r x : from_script r = false -> allowed_method x (r_method r) ->
  answers (fun w => ~ keyed r w) (dispatch ws x r) (fun resp => guarded x = true -> status resp ∈ [401; 403; 503]).
Proof.
  intros Hs Hm. destruct x; cbn [dispatch guarded allowed_method] in *;
    try (apply ans_key; [done|by auto|intros st Hst o b _; simpl; set_solver]);
    try (apply ans_csrf; [by destruct Hm..|done|intros _; simpl; set_solver]).
  all: unfold dashboardHandler, settingsHandler, historyHandler, csrfMiddleware, listSharesHandler, shareFormHandler, statusHandler,
    turnStatusHandler, relayQuotaHandler, quotaWidgetHandler, quotaInlineHandler, quota_fragment, corsMiddleware; answering.
Qed.

(** C11 (safety). A request that neither carries a script's header nor the API
    key changes nothing in the daemon, whatever else happens meanwhile and
    whatever the request is; and if it asks for anything that creates, revokes
    or configures, or for the extension's API, the answer is a refusal. *)
Theorem web_changes_guarded r : from_script r = false ->
  answers (fun w => ~ keyed r w) (serve ws r)
    (fun resp => forall x, registerRoutes (r_method r) (segments r) = Routed x -> guarded x = true ->
                 status resp ∈ [307; 401; 403; 503]).
Proof.
  intros Hs. assert (answers (fun w => ~ keyed r w) (mux ws r)
    (fun resp => forall x, registerRoutes (r_method r) (segments r) = Routed x -> guarded x = true ->
                 status resp ∈ [307; 401; 403; 503])) as Hmux.
  { unfold mux. destruct (clean_path (r_path r)); cbn [negb]; [|apply ans_ret; intros; simpl; set_solver].
    destruct (registerRoutes (r_method r) (segments r)) as [x| |] eqn:Hr; [|by apply ans_ret..].
    eapply ans_mono; [|apply ans_dispatch; [done|by eapply route_method]]. intros resp Hg y [= <-] Hy. set_solver. }
  unfold serve. case_bool_decide; [done|]. unfold authMiddleware. destruct (has_prefix _ _); [done|].
  destruct (r_basic r) as [[u p]|]; [case_bool_decide; [done|]|]; apply ans_ret; intros; simpl; set_solver.
Qed.

Lemma not_in_patterns {A} (t : list (list string * A)) s l x :
  Forall (fun p => forall u, head p.1 <> Some ("static" +:+ u)%string) t -> exact t (("static" +:+ s)%string :: l) = Some x -> False.
Proof. intros Ht Hx%exact_in. by destruct (proj1 (Forall_forall _ _) Ht _ Hx s). Qed.

Lemma static_route method u l x : registerRoutes method (("static" +:+ u)%string :: l) = Routed x -> x = RStatic \/ x = RDashboard.
Proof.
  unfold registerRoutes. intros Hr. destruct (_ || _).
  { repeat case_bool_decide; simplify_eq; eauto. }
  case_bool_decide.
  { destruct (exact post_patterns _) eqn:Hx; [|discriminate Hr]. apply not_in_patterns in Hx as []. by repeat constructor. }
  case_bool_decide.
  { exfalso. destruct l as [|code l]; [discriminate Hr|]. revert Hr.
    cbn [removelast]. destruct (last _); [|done]. cbn [mbind option_bind].
    destruct (exact delete_patterns _) eqn:Hx; [|done]. apply not_in_patterns in Hx as []. by repeat constructor. }
  case_bool_decide.
  { destruct (exact put_patterns _) eqn:Hx; [|discriminate Hr]. apply not_in_patterns in Hx as []. by repeat constructor. }
  by repeat case_bool_decide; simplify_eq.
Qed.

Lemma static_mux I r : Forall (fun s => escaped s = true) (r_path r) -> has_prefix "/static/" (url_path r) = true ->
  answers I (mux ws r) discloses_nothing.
Proof.
  intros He Hp. destruct (static_first r He Hp) as (u&l&Hseg). unfold mux. rewrite Hseg.
  destruct (clean_path (r_path r)); cbn [negb]; [|apply ans_ret; by left].
  destruct (registerRoutes _ _) as [x| |] eqn:Hr; [|apply ans_ret; by left|apply ans_ret; do 3 right; by left].
  apply static_route in Hr as [-> | ->]; [apply ans_ret; right; by left|]. apply ans_page. intros up. do 4 right. by eexists.
Qed.

(** With a password set, a request that does not carry it changes
    nothing, and what it is answered is a refusal, a redirection, a static file or
    the frame of the dashboard, with no share and no setting in it. *)
Theorem web_needs_password r : ws_password ws <> ""%string ->
  (forall user password, r_basic r = Some (user, password) -> password <> ws_password ws) ->
  Forall (fun s => escaped s = true) (r_path r) ->
  answers (fun _ => True) (serve ws r) discloses_nothing.
Proof.
  intros Hpw Hb He. unfold serve. rewrite bool_decide_false by done. unfold authMiddleware.
  destruct (has_prefix _ _) eqn:Hp; [by apply static_mux|].
  destruct (r_basic r) as [[u p]|]; [rewrite bool_decide_false by eauto|]; apply ans_ret; do 2 right; by left.
Qed.
End guards.

(** * Requests *)

#[local] Existing Instance demo_backends.
Definition demo_quota : QuotaServer := {| get_quota := fun _ _ => Err "refused"%string; url_ok := fun _ => true |}.
#[local] Existing Instance demo_quota.
Definition demo_web (password : string) : WebServer := mkServer true password (fun _ => ""%string) "/data/config.json" 0.
(** Another site's page posts to the agent with the user's browser. *)
Definition demo_request (method : string) (path : list string) : request :=
  mkRequest method path (fun _ => ""%string) None None (fun _ => ""%string) None.

Lemma web_changes_guarded_witness : from_script (demo_request "DELETE" ["api"; "shares"; "k7"]%string) = false /\
  ~ keyed (demo_request "DELETE" ["api"; "shares"; "k7"]%string) demo_start /\
  answers (fun w => ~ keyed (demo_request "DELETE" ["api"; "shares"; "k7"]%string) w)
    (serve (demo_web "") (demo_request "DELETE" ["api"; "shares"; "k7"]%string)) (fun resp => status resp ∈ [307; 401; 403; 503]).
Proof.
  split; [reflexivity|]. split; [by intros [Hne _]|]. eapply ans_mono; [|apply web_changes_guarded; reflexivity].
  intros resp Hr. apply (Hr (RRevokeShare "k7")); reflexivity.
Defined.

Lemma web_needs_password_witness : ws_password (demo_web "pw") <> ""%string /\
  answers (fun _ => True) (serve (demo_web "pw") (demo_request "GET" ["settings"%string])) discloses_nothing.
Proof.
  split; [done|]. apply web_needs_password; [done|done|]. by repeat constructor.
Defined.
