(* ===== verification/Wire.v ===== *)
(** The wire between an agent and the server: what each side writes (Daemon.v,
    SignalingClient.v, AgentWS.v, BrowserWS.v), read by the other.  The two
    programs share no code, only these messages. *)

From S2P Require Import Prelude Conc Json Tokens Registry Hub Db Server Accounting AgentWS BrowserWS ApiKeysSpec HandlerSpec AttemptsSpec BrowserGate Config Store SignalingClient DaemonState Daemon DaemonShares DaemonSpec.
#[local] Open Scope Z_scope.

(** A message as it arrives; [json.Marshal] writes an object. *)
Definition text_frame (m : obj) : frame := mkFrame false [] (Some (JObj m)).
Definition at_agent (m : obj) : option Message := decode_message (Some (JObj m)).

(** * From the agent *)

(** Everything an agent writes, and how it is written. *)
Inductive agent_message :=
| MHello (id : string) | MRegister (o : RegisterShareOptions) | MUnregister (code : string)
| MNonce (conn nonce : string) (has_password : bool) | MAuthOK (conn code : string)
| MAuthFail (conn code : string) | MAuthFailed (conn : string) (code : option string)
| MOffer (code conn sdp : string) | MCandidate (code conn : string) (candidate : json)
| MExpired (code conn : string) | MComplete (code : string) (bytes : Z) | MDeregister (code : string).
Definition wire (m : agent_message) : obj :=
  match m with
  | MHello id => [("type"%string, JStr "hello"); ("version"%string, JStr "1.0"); ("agent_id"%string, JStr id)]
  | MRegister o => register_obj o
  | MUnregister code => [("type"%string, JStr "unregister_share"); ("code"%string, JStr code)]
  | MNonce conn nonce has => nonce_obj conn nonce has
  | MAuthOK conn code => auth_ok conn code
  | MAuthFail conn code => auth_fail conn code
  | MAuthFailed conn code => auth_failed conn code
  | MOffer code conn sdp => offer_obj code conn sdp
  | MCandidate code conn c => candidate_obj code conn c
  | MExpired code conn => expired_obj code conn
  | MComplete code bytes => complete_obj code bytes
  | MDeregister code => code_obj "deregister" code
  end.

Section to_server.
Context `{PocketBase} `{JWT} `{TimeText}.
Context (cfg : ServerConfig) (has_reg : bool) (k acct a : string) (conn : nat).
Abbreviation handler := (proc Server.World).

(** What the server does with a message on the socket of an agent. *)
Definition server_does (m : obj) : option (handler string) :=
  (fun msg => agent_dispatch cfg has_reg k acct a msg conn) <$> decode_agent_msg (text_frame m).

(** Fields the server reads that the message does not have. *)
Definition plain_msg (type code connID : string) : agentMsg :=
  mkAgentMsg type "" code "" None "" "" JNull connID "" "" false None "" "" false.
Definition registration (o : RegisterShareOptions) : agentMsg :=
  mkAgentMsg "register_share" "" (PreferredCode o) (ShareURL o) None "" "" JNull "" "" "" false
    (Some (RelayOnly o)) (RelayStaticPub o) (ShareType o) (IsPasswordProtected o).
Definition to_conn (connID : string) (m : obj) : handler unit := _ ← ForwardToBrowserByConnID k (Some conn) connID m; mret tt.
Definition to_session (code : string) (m : obj) : handler unit := _ ← ForwardToBrowser k (Some conn) code m; mret tt.

(** What each message is for. *)
Definition meaning (m : agent_message) : handler unit :=
  match m with
  | MHello _ => mret tt
  | MRegister o => handleRegisterShare k acct a (registration o) conn
  | MUnregister code => handleUnregisterShare k code conn
  | MNonce connID nonce has =>
      to_conn connID (typed "nonce" [("conn_id"%string, JStr connID); ("value"%string, JStr nonce); ("has_password"%string, JBool has)])
  | MAuthOK connID code => handleAuthOK cfg has_reg k acct a (plain_msg "auth_ok" code connID) conn
  | MAuthFail connID code => handleAuthFailure IncrementImmichAuthFailure 5 "auth_fail" k (plain_msg "auth_fail" code connID) conn
  | MAuthFailed connID code =>
      handleAuthFailure IncrementAuthFailure 3 "auth_failed" k (plain_msg "auth_failed" (default "" code)%string connID) conn
  | MOffer code _ sdp => to_session code (typed "offer" [("sdp"%string, JStr sdp)])
  | MCandidate code _ c => to_session code (typed "ice_candidate" [("candidate"%string, c)])
  | MExpired _ _ | MComplete _ _ | MDeregister _ => mret tt
  end.
End to_server.

Section understood.
Context `{PocketBase} `{JWT} `{TimeText}.
Context (cfg : ServerConfig) (has_reg : bool) (k acct a : string) (conn : nat).

Lemma enrolled_meaning m : a <> ""%string ->
  server_does cfg has_reg k acct a conn (wire m) = Some (_ ← meaning cfg has_reg k acct a conn m; mret a).
Proof.
  intros Ha. unfold server_does, wire, meaning.
  destruct m as [id|o|code|c n h|c code|c code|c [code|]|code c sdp|code c x|code c|code n|code].
  2: { unfold register_obj, if_set, registration. destruct o as [url code type prot only pub].
       cbn [ShareURL PreferredCode ShareType IsPasswordProtected RelayOnly RelayStaticPub].
       repeat case_bool_decide; subst; destruct prot; cbn; unfold agent_dispatch; cbn; by rewrite (bool_decide_false (a = ""%string) Ha). }
  all: unfold expired_obj; try case_bool_decide; cbn; unfold agent_dispatch; cbn; rewrite (bool_decide_false (a = ""%string) Ha); done.
Qed.

(** C4 (functional). The two programs agree on the wire: whatever an agent
    writes, the server decodes with every field where it belongs and runs the
    operation the message is for, the greeting first and everything else after
    it.  Three kinds of message it does not know and drops: that a share has
    expired, that a download is complete, and that a share is deregistered.  A
    registration never has an expiry. *)
Theorem agent_messages_understood m :
  (forall id, m = MHello id ->
     server_does cfg has_reg k acct "" conn (wire m) = Some (_ ← handleHello cfg k id conn; mret id)) /\
  (a <> ""%string -> server_does cfg has_reg k acct a conn (wire m) = Some (_ ← meaning cfg has_reg k acct a conn m; mret a)).
Proof. split; [by intros id ->|apply enrolled_meaning]. Qed.
End understood.

(** * From the server *)

Section to_agent.
Context `{Backends}.
Abbreviation handler := (proc DaemonState.World).

(** What the daemon does with a message of the server: it logs it, and then. *)
Definition daemon_does (m : obj) (call : handler unit) : Prop :=
  exists am, at_agent m = Some am /\ handleSignalingMessage am = (_ ← log (Received am); call).

(** A call a browser can cause: in its own name and for its own share. *)
Inductive browser_call (connID code : string) : handler unit -> Prop :=
| call_knock : browser_call connID code (Spawn (handleKnock connID code) (mret tt))
| call_join hmac : browser_call connID code (Spawn (handleJoin connID code hmac) (mret tt))
| call_password pw : browser_call connID code (Spawn (handlePasswordSubmit connID code pw) (mret tt))
| call_answer sdp : browser_call connID code (handleAnswer connID sdp)
| call_candidate c : browser_call connID code (handleICECandidate connID c).

Lemma does_knock c code : daemon_does (typed "knock" [("conn_id", JStr c); ("code", JStr code)])%string (Spawn (handleKnock c code) (mret tt)).
Proof. by eexists. Qed.
Lemma does_join c code hmac :
  daemon_does (typed "join" [("conn_id", JStr c); ("code", JStr code); ("hmac", JStr hmac)])%string (Spawn (handleJoin c code hmac) (mret tt)).
Proof. by eexists. Qed.
Lemma does_password c code pw :
  daemon_does (typed "password_submit" [("conn_id", JStr c); ("code", JStr code); ("password", JStr pw)])%string
    (Spawn (handlePasswordSubmit c code pw) (mret tt)).
Proof. by eexists. Qed.
Lemma does_answer c code sdp :
  daemon_does (typed "answer" [("session_id", JStr code); ("peer_id", JStr c); ("sdp", JStr sdp)])%string (handleAnswer c sdp).
Proof. by eexists. Qed.
Lemma does_candidate c code x :
  daemon_does (typed "ice_candidate" [("session_id", JStr code); ("peer_id", JStr c); ("candidate", x)])%string (handleICECandidate c (Some x)).
Proof. eexists. split; [by destruct x|done]. Qed.
End to_agent.

(** * What a browser can say to an agent *)

Section browser.
Context `{PocketBase} `{TimeText} `{Backends}.
Context (s : browser_session).

(** What the handler of a browser may do: read, write and close the browser's
    socket, and write to another one what the agent takes as a call of this
    browser, for the share it has opened. *)
Inductive speaks : Server.effect -> Prop :=
| speaks_read f : speaks (Server.Got (bs_conn s) f)
| speaks_close st re : speaks (Server.Closed (bs_conn s) st re)
| speaks_own m : speaks (Server.WroteJson (bs_conn s) m)
| speaks_agent c m call : daemon_does m call -> browser_call (bs_connID s) (bs_code s) call -> speaks (Server.WroteJson c m)
| speaks_nil : speaks Server.NilDeref.

Abbreviation gwp p := (forall w : Server.World, wp anyR (gate_step speaks) (fun _ => True) p (fun _ _ => True) w).

Lemma speaks_to_agent m call : daemon_does m call -> browser_call (bs_connID s) (bs_code s) call ->
  gwp (BrowserWS.to_agent s m) /\ gwp (to_paired_agent s m) /\ gwp (SendToAgent (bs_apiKeyID s) m).
Proof.
  intros Hm Hc. assert (forall (t : option wsconn) d, gwp (match t with None => mret d | Some c => Server.send true c m end)) as Ht.
  { intros [c|] d; [|apply gwp_ret]. apply gwp_send; [constructor|]. intros. by eapply speaks_agent. }
  assert (gwp (SendToAgent (bs_apiKeyID s) m)) as Hsend by (apply gwp_bind; [apply gwp_reads|intros t; apply Ht]).
  assert (gwp (ForwardToAgent (bs_code s) m)) as Hforward by (apply gwp_bind; [apply gwp_reads|intros t; apply Ht]).
  split_and!; [..|done]; (apply gwp_bind; [done|intros _; apply gwp_ret]).
Qed.

Lemma gwp_own m : gwp (hub_SendDirect (Some (bs_conn s)) m).
Proof. apply gwp_direct; constructor. Qed.

Lemma gwp_own_fail m : gwp (BrowserWS.auth_fail s m).
Proof. apply gwp_bind; [apply gwp_own|intros _; apply gwp_ret]. Qed.

Lemma gwp_own_refuse m st re : gwp (refuse_browser (bs_conn s) m st re).
Proof. apply gwp_bind; [apply gwp_own|intros _; apply gwp_close; constructor]. Qed.

Lemma speaks_dispatch msg : gwp (browser_dispatch s msg).
Proof.
  unfold browser_dispatch.
  repeat case_match; try apply gwp_own_fail; try apply gwp_ret.
  - exact (proj1 (speaks_to_agent _ _ (does_knock _ _) (call_knock _ _))).
  - exact (proj1 (speaks_to_agent _ _ (does_password _ _ _) (call_password _ _ _))).
  - exact (proj1 (speaks_to_agent _ _ (does_join _ _ _) (call_join _ _ _))).
  - exact (proj1 (proj2 (speaks_to_agent _ _ (does_answer _ _ _) (call_answer _ _ _)))).
  - exact (proj1 (proj2 (speaks_to_agent _ _ (does_candidate _ _ _) (call_candidate _ _ _)))).
Qed.

Lemma speaks_ice cfg relayOnly q e :
  gwp (sendBrowserIceConfigAndMaybeKnock cfg (bs_conn s) (bs_apiKeyID s) (bs_code s) (bs_connID s) relayOnly q e).
Proof.
  unfold sendBrowserIceConfigAndMaybeKnock. apply gwp_bind; [apply gwp_own|]. intros _. destruct relayOnly; [|apply gwp_ret].
  apply gwp_bind; [|intros _; apply gwp_ret].
  exact (proj2 (proj2 (speaks_to_agent _ _ (does_knock _ _) (call_knock _ _)))).
Qed.

Lemma speaks_serve cfg relayOnly : gwp (serve_browser cfg s relayOnly).
Proof.
  unfold serve_browser. apply gwp_bind; [apply gwp_reads|]. intros [r|]; [|apply gwp_own_refuse].
  case_bool_decide; [apply gwp_own_refuse|].
  apply gwp_bind; [apply gwp_reads|]. intros [u|]; [|apply gwp_own_refuse].
  destruct (checkRelayQuota u) as [q e]. destruct (relayOnly && q); [apply gwp_own_refuse|].
  apply gwp_bind; [destruct (_ && _); [apply gwp_bind; [apply gwp_own|intros _; apply gwp_ret]|apply speaks_ice]|].
  intros _ w. exists (fun _ _ => True). split; [done|]. intros _ w1 _.
  apply wp_mbind; [apply _|]. eapply wp_mono; [|apply gwp_read; constructor]. intros [f|] w2 _; [|by repeat intro].
  destruct (decode_browser_msg f) as [msg|]; [|by repeat intro].
  apply wp_mbind; [apply _|]. eapply wp_mono; [|apply speaks_dispatch]. intros _ w3 _. by repeat intro.
Qed.
End browser.

Section impersonation.
Context `{PocketBase} `{TimeText} `{Backends}.

(** C3 (safety). A browser speaks only for itself, from its socket to the
    agent's code: while the handler of a browser runs, and whatever the rest of
    the server does between its steps, everything it writes to a socket other
    than the browser's is a message that the agent's daemon decodes and takes
    as a knock, a join, a password, an answer or a candidate of this browser's
    own connection and of the share it opened, whatever connection, share or
    peer its JSON names. *)
Theorem browser_speaks_for_itself cfg (s : browser_session) relayOnly (w w1 w2 : Server.World) ps p p' ts :
  rtc (sys_step (fun _ _ => False) (fun _ _ => True)) ([serve_browser cfg s relayOnly], w) (ps, w1) ->
  p ∈ ps -> pstep p w1 p' w2 ts -> gate_step (speaks s) w1 w2.
Proof.
  by apply gwp_system, speaks_serve.
Qed.
End impersonation.

(** * Two browsers at one share *)

Section two_browsers.
Context `{PocketBase} `{JWT} `{TimeText}.

(** What the server does with a message of an enrolled agent, to the end. *)
Definition on_message cfg has_reg k acct a conn (m : agent_message) (Q : Server.World -> Prop) (w : Server.World) : Prop :=
  exists prog, server_does cfg has_reg k acct a conn (wire m) = Some prog /\ returns prog (fun _ w' => Q w') w.
Lemma on_message_meaning cfg has_reg k acct a conn m (Q : Server.World -> Prop) w : a <> ""%string ->
  returns (meaning cfg has_reg k acct a conn m) (fun _ w' => Q w') w -> on_message cfg has_reg k acct a conn m Q w.
Proof.
  intros Ha Hm. eexists. split; [by apply enrolled_meaning|]. apply tot_bind. eapply returns_mono; [|exact Hm].
  intros [] w' HQ. by apply tot_ret.
Qed.

(** A wrong password, as the agent reports it. *)
Definition failed_msg (ck : check) (conn code : string) : agent_message :=
  match ck with OwnPassword => MAuthFailed conn (Some code) | ImmichPassword => MAuthFail conn code end.

(** Where the two browsers of one share are. *)
Lemma two_targets k code cA cB conn bA bB h h1 h2 : k <> ""%string -> cA <> cB -> agents h !! k = Some (Some conn) ->
  PairSession code cA k (Some bA) h = (Ok tt, h1) -> PairSession code cB k (Some bB) h1 = (Ok tt, h2) ->
  browser_target k (Some conn) code h2 = Some (Some bB) /\ conn_target k (Some conn) cA h2 = Some (Some bA).
Proof.
  intros Hk Hc Hagent HA HB.
  destruct (PairSession_spec code cA k (Some bA) h) as [[e He]|(x&_&Hx&_&_&_&HaA&HcA&HpA&HbA&HoA)]; [congruence|].
  destruct (PairSession_spec code cB k (Some bB) h1) as [[e He]|(y&Hown&Hy&_&_&_&HaB&HcB&HpB&HbB&HoB)]; [congruence|].
  rewrite HA in *. rewrite HB in *. cbn [fst snd] in *. rewrite Hagent in Hx. injection Hx as <-. rewrite HaA, Hagent in Hy. injection Hy as <-.
  assert (agents h2 !! k = Some (Some conn)) as Hag by (by rewrite HaB, HaA).
  assert (Hub.codes h2 !! code = Some k) as Hcode by (by rewrite HcB).
  assert (agentOwnsSessionLocked k (Some conn) code h2 = true) as Howns.
  { unfold agentOwnsSessionLocked, code_owner, agent_conn, mlookup. rewrite Hag, Hcode. by rewrite !bool_decide_false, !bool_decide_true by done. }
  split.
  - unfold browser_target. rewrite HpB, lookup_insert_eq, Howns. cbn [andb p_agentConn p_browserConn]. by rewrite bool_decide_true by done.
  - unfold conn_target, browserForAgentLocked, mlookup. rewrite HoB, HbB, !lookup_insert_ne by done. rewrite HoA, HbA, !lookup_insert_eq.
    cbn [default o_apiKeyID o_agentConn o_sessionID]. rewrite Howns, !bool_decide_true by done. done.
Qed.

(** C5 (functional). Which browser an offer reaches.  The daemon answers a
    browser's join with an offer that names the browser's connection, but the
    server looks at the share only: it writes the offer, and every candidate, to
    the browser that paired with the share last, once, unless that browser's
    socket is closed, and to nobody else.  When a second browser opens
    the share while the first one joins, the first never sees its offer and the
    second is sent one for a connection that is not its own.  What the server
    routes by connection still reaches the first: its nonce, and how many
    attempts are left after its first wrong password. *)
Theorem offer_reaches_last_browser cfg has_reg k acct a conn code cA cB bA bB w h h1 :
  a <> ""%string -> k <> ""%string -> cA <> cB -> agents h !! k = Some (Some conn) ->
  PairSession code cA k (Some bA) h = (Ok tt, h1) -> PairSession code cB k (Some bB) h1 = (Ok tt, w_hub w) ->
  let on := on_message cfg has_reg k acct a conn in
  (forall sdp, on (MOffer code cA sdp) (sent bB (typed "offer" [("sdp"%string, JStr sdp)]) w) w) /\
  (forall c, on (MCandidate code cA c) (sent bB (typed "ice_candidate" [("candidate"%string, c)]) w) w) /\
  (forall nonce has, on (MNonce cA nonce has) (sent bA (typed "nonce"
     [("conn_id"%string, JStr cA); ("value"%string, JStr nonce); ("has_password"%string, JBool has)]) w) w) /\
  (forall ck, counter ck (w_hub w) !! cA = None -> on (failed_msg ck cA code) (after ck bA cA w 1) w).
Proof.
  intros Ha Hk Hc Hagent HA HB on. destruct (two_targets _ _ _ _ _ _ _ _ _ _ Hk Hc Hagent HA HB) as [Hsession Hconn].
  assert (forall m, returns (to_session k conn code m) (fun _ w' => sent bB m w w') w) as Hlast.
  { intros m. unfold to_session, ForwardToBrowser. apply tot_bind, tot_bind, tot_hub_get. rewrite Hsession.
    eapply returns_mono; [|apply tot_sent]. intros ok w' Hs. by apply tot_ret. }
  split_and!; intros; apply on_message_meaning; cbn [meaning]; auto.
  - unfold to_conn. apply tot_bind. eapply returns_mono; [|by apply tot_forward]. intros ok w' Hs. by apply tot_ret.
  - assert (after ck bA cA w 0 w) as Hnone by (by apply after_none).
    destruct ck; cbn [failed_msg meaning].
    + by apply (one_failure OwnPassword k conn bA cA w Hconn 0).
    + by apply (one_failure ImmichPassword k conn bA cA w Hconn 0).
Qed.
End two_browsers.

(** * Witnesses *)

#[local] Existing Instance demo_backends.
Definition demo_cfg : ServerConfig := mkServerConfig "stun:stun.example" "secret".

Lemma agent_messages_understood_witness :
  server_does demo_cfg true "key" "alice" "" 1 (wire (MHello "agent-1")) = Some (_ ← handleHello demo_cfg "key" "agent-1" 1; mret "agent-1"%string)
  /\ server_does demo_cfg true "key" "alice" "agent-1" 1 (wire (MExpired "code1234" "conn"))
     = Some (_ ← meaning demo_cfg true "key" "alice" "agent-1" 1 (MExpired "code1234" "conn"); mret "agent-1"%string).
Proof.
  split.
  - apply (proj1 (agent_messages_understood demo_cfg true "key" "alice" "agent-1" 1 (MHello "agent-1"))). reflexivity.
  - apply (proj2 (agent_messages_understood demo_cfg true "key" "alice" "agent-1" 1 (MExpired "code1234" "conn"))). discriminate.
Defined.

(** A browser that names another connection and another share. *)
Definition demo_open : browser_session := mkBrowserSession 2 "code1234" "conn" "key" false false.
Definition demo_forged : obj := [("type", JStr "join"); ("conn_id", JStr "other"); ("code", JStr "code9999"); ("hmac", JStr "00")]%string.
Definition demo_speak_world : Server.World :=
  Server.mkWorld demo_routes (NewRegistry (7 * Second))
    (mkMem (<[("users", "alice")%string := ∅]> (<[("api_keys", "key")%string := demo_key]> ∅)) 0)
    (<[1%nat := mkSock [] true]> (<[2%nat := mkSock [text_frame demo_forged] true]> ∅)) [] 5 [] [].
Definition demo_speaker : proc Server.World unit := serve_browser demo_cfg demo_open false.
Definition forwarded_join (w : Server.World) : bool :=
  match last (Server.w_log w) with
  | Some (WroteJson 1 m) => bool_decide (m = typed "join" [("conn_id", JStr "conn"); ("code", JStr "code1234"); ("hmac", JStr "00")]%string)
  | _ => false
  end.

Lemma browser_speaks_for_itself_witness :
  exists ps w1 p p' w2 ts,
    rtc (sys_step (fun _ _ => False) (fun _ _ => True)) ([demo_speaker], demo_speak_world) (ps, w1)
    /\ p ∈ ps /\ pstep p w1 p' w2 ts /\ forwarded_join w2 = true /\ gate_step (speaks demo_open) w1 w2.
Proof.
  assert ((if run_moves (demo_gate_moves 9) ([demo_speaker], demo_speak_world) is Some ([p], w1)
           then if pstep_fn 0 p w1 is Some (_, w2, _) then forwarded_join w2 else false else false) = true) as Hrun
    by (vm_compute; reflexivity).
  destruct (run_moves (demo_gate_moves 9) _) as [[[|p [|q ps]] w1]|] eqn:Hmoves; [discriminate Hrun| |discriminate Hrun..].
  destruct (pstep_fn 0 p w1) as [[[p' w2] ts]|] eqn:Hstep; [|discriminate Hrun].
  assert (rtc (sys_step (fun _ _ => False) (fun _ _ => True)) ([demo_speaker], demo_speak_world) ([p], w1)) as Hreach.
  { refine (run_moves_reach _ _ (demo_gate_moves 9) _ _ _ Hmoves). apply Forall_replicate. exact I. }
  pose proof (pstep_fn_ok 0 p p' w1 w2 ts Hstep) as Hp.
  exists [p], w1, p, p', w2, ts. split; [exact Hreach|]. split; [constructor|]. split; [exact Hp|]. split; [exact Hrun|].
  exact (browser_speaks_for_itself demo_cfg demo_open false demo_speak_world w1 w2 [p] p p' ts Hreach (list_elem_of_here _ _) Hp).
Defined.

Definition demo_hub_two : Hub := set_codes {["code1234" := "key"]} (set_agents {["key" := Some 1%nat]} Hub.New).
Definition demo_paired_A : Hub := snd (PairSession "code1234" "cA" "key" (Some 10%nat) demo_hub_two).
Definition demo_two_world : Server.World :=
  Server.mkWorld (snd (PairSession "code1234" "cB" "key" (Some 11%nat) demo_paired_A)) (NewRegistry (7 * Second)) (mkMem ∅ 0)
    (<[10%nat := mkSock [] true]> (<[11%nat := mkSock [] true]> ∅)) [] 5 [] [].

Lemma offer_reaches_last_browser_witness :
  let on := on_message demo_cfg true "key" "alice" "agent-1" 1 in
  up (sock demo_two_world 10) = true /\ up (sock demo_two_world 11) = true /\
  (forall sdp, on (MOffer "code1234" "cA" sdp) (sent 11 (typed "offer" [("sdp"%string, JStr sdp)]) demo_two_world) demo_two_world) /\
  on (failed_msg OwnPassword "cA" "code1234") (after OwnPassword 10 "cA" demo_two_world 1) demo_two_world.
Proof.
  intros on. split; [reflexivity|]. split; [reflexivity|].
  destruct (offer_reaches_last_browser demo_cfg true "key" "alice" "agent-1" 1 "code1234" "cA" "cB" 10 11 demo_two_world demo_hub_two demo_paired_A
    ltac:(discriminate) ltac:(discriminate) ltac:(discriminate) ltac:(vm_compute; reflexivity) ltac:(vm_compute; reflexivity) ltac:(vm_compute; reflexivity))
    as (Ho&_&_&Hf).
  split; [exact Ho|]. apply Hf. vm_compute. reflexivity.
Defined.
