(* ===== verification/ServerMain.v ===== *)
(** The signaling server's program (signaling-server/cmd/server/main.go, with
    internal/config/config.go and the files of internal/handler/rest.go): its
    settings, the clean-up of expired shares, a new account's quota, where a
    share's link leads, and which files are served. *)

From Stdlib Require Import Ascii Floats.SpecFloat.
From S2P Require Import Prelude GoText Float64 Conc Json Tokens Hub Db Server Accounting RelayWS AgentWS BrowserWS ApiKeys ApiKeysSpec HandlerSpec.
#[local] Open Scope Z_scope.

(** * Settings *)

(** [signaling-server/internal/config/config.go:9-26] Config *)
Record Config := mkConfig {
  Port : string; STUNURL : string; DataDir : string; c_RelayJWTSecret : string; RelayPendingWaitWindow : Z;
  SMTPHost : string; SMTPPort : string; SMTPUser : string; SMTPPassword : string; DefaultQuotaGB : float64 }.

Section settings.
Context (env : string -> string) (ParseFloat : string -> option float64) (ParseDuration : string -> option Z).

(** [signaling-server/internal/config/config.go:46-51] getEnv *)
Definition getEnv (key def : string) : string := let v := env key in if bool_decide (v = ""%string) then def else v.
(** [signaling-server/internal/config/config.go:53-61] getEnvFloat *)
Definition getEnvFloat (key : string) (def : float64) : float64 :=
  let v := env key in if bool_decide (v = ""%string) then def else default def (ParseFloat v).
(** [signaling-server/internal/config/config.go:63-71] getEnvDuration *)
Definition getEnvDuration (key : string) (def : Z) : Z :=
  let v := env key in if bool_decide (v = ""%string) then def else default def (ParseDuration v).
(** [signaling-server/internal/config/config.go:28-44] Load *)
Definition Load : Config :=
  mkConfig (getEnv "PORT" "8080") (getEnv "STUN_URL" "stun:stun.cloudflare.com:3478") (getEnv "DATA_DIR" "./pb_data")
    (getEnv "RELAY_JWT_SECRET" "") (getEnvDuration "RELAY_PENDING_WAIT_WINDOW" (7 * Second))
    (getEnv "SMTP_HOST" "") (getEnv "SMTP_PORT" "587") (getEnv "SMTP_USER" "") (getEnv "SMTP_PASSWORD" "")
    (getEnvFloat "DEFAULT_QUOTA_GB" (f64_of_Z 50)).
End settings.

(** [signaling-server/internal/config/config.go:74-76] HasSMTP *)
Definition HasSMTP (c : Config) : bool := negb (bool_decide (SMTPHost c = ""%string)).
(** What the handlers are given of the settings. *)
Definition handlers_config (c : Config) : ServerConfig := mkServerConfig (STUNURL c) (c_RelayJWTSecret c).

(** * Files *)

(** What a route that serves files answers. *)
Inductive answer := Served (path : string) (no_store : bool) | Redirected (status : Z) (to : string) | NotFound | ServerError.

(** [signaling-server/internal/handler/rest.go:14-19] ServeFile *)
Definition ServeFile (path : string) : answer := Served path false.
(** [signaling-server/internal/handler/rest.go:24-30] ServeFileNoCache *)
Definition ServeFileNoCache (path : string) : answer := Served path true.

Definition inside (rel : string) : bool :=
  negb (bool_decide (rel = "."%string)) && negb (bool_decide (rel = ""%string))
  && negb (has_prefix "../" rel) && negb (bool_decide (rel = ".."%string)).
(** [signaling-server/internal/handler/rest.go:63-75] ServeDir *)
Definition ServeDir (root path : string) : answer :=
  let rel := path_Clean path in if inside rel then Served (path_Join root rel) false else NotFound.
(** [signaling-server/internal/handler/rest.go:79-92] ServeDirNoCache *)
Definition ServeDirNoCache (root path : string) : answer :=
  let rel := path_Clean path in if inside rel then Served (path_Join root rel) true else NotFound.

(** * The database *)

(** All the records of a collection. *)
Class AllRecords `{PocketBase} := { FindAllRecords : string -> db -> result (list record) db_error }.
Class AllRecordsLaws `{AllRecords} : Prop := {
  all_spec : forall c d rs, FindAllRecords c d = Ok rs ->
    forall r, r ∈ rs <-> FindRecordById c (r_id r) d = Ok r;
  all_nodup : forall c d rs, FindAllRecords c d = Ok rs -> NoDup (r_id <$> rs) }.
#[export] Instance mem_all : AllRecords := {| FindAllRecords c d := Ok (mem_records c d) |}.
#[export] Instance mem_all_laws : AllRecordsLaws.
Proof.
  constructor; intros c d rs [= <-]; [intros r; apply mem_records_spec|]. unfold mem_records.
  pose proof (NoDup_fst_map_to_list (m_tbl d)) as Hnd. induction (map_to_list (m_tbl d)) as [|[[c' i] f] l IH]; [constructor|].
  rewrite fmap_cons in Hnd. apply NoDup_cons in Hnd as [Hnew Hnd]. cbn [omap list_omap fst snd].
  destruct (bool_decide (c' = c) && negb (bool_decide (i = ""%string))) eqn:Hci; [|by apply IH].
  apply andb_true_iff in Hci as [->%bool_decide_eq_true _]. rewrite fmap_cons. apply NoDup_cons. split; [|by apply IH]. contradict Hnew.
  apply list_elem_of_fmap in Hnew as (r&Hi&([[c' j] f']&Hin&Hr)%list_elem_of_omap). cbn [fst snd] in Hr. revert Hr. case_match eqn:Hj; [|done].
  apply andb_true_iff in Hj as [->%bool_decide_eq_true _]. intros [= <-]. cbn [r_id] in Hi. subst j. by apply (list_elem_of_fmap_2 fst) in Hin.
Qed.

Section server.
Context `{PocketBase} `{!AllRecords}.
Abbreviation handler := (proc World).

(** [signaling-server/cmd/server/main.go:179-182] deleteExpiredSessions *)
Definition share_expired (now : Z) (r : record) : bool :=
  let t := GetDateTime r "expires_at" in negb (IsZero t) && negb (now <? t).
(** One after the other, until one cannot be deleted. *)
Fixpoint delete_each (now : Z) (rs : list record) : handler (result unit string) :=
  match rs with
  | [] => mret (Ok tt)
  | r :: rs' =>
      if share_expired now r then
        deleted ← db_act (Delete r);
        match deleted with
        | Err e => mret (Err ("delete expired session " +:+ r_id r +:+ ": " +:+ e)%string)
        | Ok _ => delete_each now rs'
        end
      else delete_each now rs'
  end.
(** [signaling-server/cmd/server/main.go:171-189] deleteExpiredSessions *)
Definition deleteExpiredSessions : handler (result unit string) :=
  rs ← db_get (FindAllRecords "sessions");
  match rs with
  | Err e => mret (Err e)
  | Ok rs => now ← get_now; delete_each now rs
  end.

(** A new user's record, before it is saved.
    [signaling-server/cmd/server/main.go:147-155] main *)
Definition new_user (cfg : Config) (now : Z) (r : record) : record :=
  let r := rset "relay_quota_gb" (VFloat (DefaultQuotaGB cfg)) r in
  let r := rset "current_period_usage_gb" (VFloat (S754_zero false)) r in
  let r := rset "quota_period_start" (VTime now) r in
  let r := rset "quota_period_end" (VTime (now + 30 * 24 * 3600 * Second)) r in
  rset "turn_baseline_bytes" (VFloat (S754_zero false)) r.

(** [signaling-server/cmd/server/main.go:193-212] serveShareRedirect *)
Definition serveShareRedirect (code : string) : handler answer :=
  if bool_decide (code = ""%string) then mret NotFound
  else
    rs ← db_get (FindRecords "sessions" [("code"%string, code)] 1);
    mret (match rs with
          | Ok (r :: _) => Redirected 302 ((if bool_decide (GetString r "share_type" = "immich"%string) then "/i/" else "/s/") +:+ code)%string
          | _ => NotFound
          end).

(** [signaling-server/internal/handler/rest.go:34-59] ServeSessionFileNoCache *)
Definition ServeSessionFileNoCache (path code shareType : string) : handler answer :=
  if bool_decide (code = ""%string) then mret NotFound
  else
    rs ← db_get (FindRecords "sessions"
                   ((("code"%string, code) :: if bool_decide (shareType = ""%string) then [] else [("share_type"%string, shareType)])) 1);
    mret (match rs with Err _ => ServerError | Ok [] => NotFound | Ok (_ :: _) => Served path true end).
End server.

(** * The routes *)

(** PocketBase's mail settings: enabled, host, port, user and password.
    [signaling-server/cmd/server/main.go:34-44] main *)
Definition smtp_settings (c : Config) : option (bool * string * Z * string * string) :=
  if HasSMTP c then Some (true, SMTPHost c, default 0 (Atoi (SMTPPort c)), SMTPUser c, SMTPPassword c) else None.

Inductive endpoint :=
| WsAgent | WsClient | WsRelay
| SessionInfo (code : string) | ShareRedirect (code : string) | SessionFile (path code shareType : string)
| File (path : string) | Dir (root path : string)
| KeysCreate | KeysList | KeysRotate (id : string) | KeysRevoke (id : string) | Account | AccountQuota.

(** A pattern's literal segments, and what its wildcard makes of the rest: one
    segment that is not empty, or with [...] all that remain. *)
Definition page (p : string) : endpoint := File ("./web/" +:+ p).
Definition exact_routes : list (list string * endpoint) :=
  [(["ws"; "agent"], WsAgent); (["ws"; "client"], WsClient); (["ws"; "relay"], WsRelay);
   ([""], page "home.html"); (["join"], page "index.html"); (["sw.js"], page "sw.js"); (["app.js"], page "app.js");
   (["register"], page "register.html"); (["login"], page "login.html"); (["account"], page "account.html");
   (["api"; "keys"], KeysList); (["api"; "account"], Account); (["api"; "account"; "quota"], AccountQuota)]%string.
Definition one (s : string) (e : endpoint) : option endpoint := if bool_decide (s = ""%string) then None else Some e.
Definition get_route (segs : list string) : option endpoint :=
  match snd <$> find (fun p => bool_decide (p.1 = segs)) exact_routes with
  | Some e => Some e
  | None =>
      match segs with
      | ["sessions"; code] => one code (SessionInfo code)
      | ["share"; code] => one code (ShareRedirect code)
      | ["s"; code] => one code (page "index.html")
      | ["i"; key] => one key (SessionFile "./web/index.html" key "immich")
      | "src" :: rest => match rest with [] => None | _ => Some (Dir "./web/src" (join_slash rest)) end
      | "noise-p256" :: rest => match rest with [] => None | _ => Some (Dir "./web/noise-p256" (join_slash rest)) end
      | _ => None
      end%string
  end.
(** The server's own routes; [None] is left to PocketBase.
    [signaling-server/cmd/server/main.go:48-111] main *)
Definition route (method : string) (segs : list string) : option endpoint :=
  if bool_decide (method = "GET"%string) then get_route segs
  else if bool_decide (method = "POST"%string) then
    match segs with ["api"; "keys"] => Some KeysCreate | ["api"; "keys"; id; "rotate"] => one id (KeysRotate id) | _ => None end%string
  else if bool_decide (method = "DELETE"%string) then
    match segs with ["api"; "keys"; id] => one id (KeysRevoke id) | _ => None end%string
  else None.

(** A call: who is signed in, the key in the query, the label of the body, the
    share in the query, and what [websocket.Accept] gives for it. *)
Record call := mkCall { hc_auth : option record; hc_key : string; hc_label : string; hc_share : string; hc_conn : option nat }.

Section serve.
Context `{PocketBase} `{JWT} `{TimeText} `{Bcrypt}.
Context (cfg : ServerConfig).
Abbreviation handler := (proc World).

Inductive outcome := Json (r : response) | Page (a : answer) | Report (account email : string) (q : QuotaInfo) | Quota (q : QuotaInfo) | Socket (r : http_result).

(** [apis.RequireAuth()]. *)
Definition require_auth (c : call) (h : handler outcome) : handler outcome :=
  match hc_auth c with
  | None => mret (Json (err_resp 401 "The request requires valid record authorization token."))
  | Some _ => h
  end.
(** The middleware of the API key around a handler. *)
Definition require_key (c : call) (h : string -> string -> handler outcome) : handler outcome :=
  r ← APIKeyAuth (hc_key c);
  match r with Err e => mret (Json e) | Ok (key, account) => h key account end.
Definition json (h : handler response) : handler outcome := r ← h; mret (Json r).
Definition socket (h : handler http_result) : handler outcome := r ← h; mret (Socket r).

(** [signaling-server/cmd/server/main.go:51-129] main *)
Definition serve (e : endpoint) (c : call) : handler outcome :=
  match e with
  | WsAgent => require_key c (fun key account => socket (AgentWS cfg true key account (hc_conn c)))
  | WsClient => socket (BrowserWS cfg (hc_share c) (hc_conn c))
  | WsRelay => socket (_ ← (match hc_conn c with Some conn => RelayWS (RelayJWTSecret cfg) conn | None => mret tt end); mret Upgraded)
  | SessionInfo code => json (GetSessionInfo code)
  | ShareRedirect code => a ← serveShareRedirect code; mret (Page a)
  | SessionFile path code type => a ← ServeSessionFileNoCache path code type; mret (Page a)
  | File path => mret (Page (ServeFileNoCache path))
  | Dir root path => mret (Page (ServeDirNoCache root path))
  | KeysCreate => require_auth c (json (CreateAPIKey (hc_auth c) (hc_label c)))
  | KeysList => require_auth c (json (ListAPIKeys (hc_auth c)))
  | KeysRotate id => require_auth c (json (RotateAPIKey (hc_auth c) id))
  | KeysRevoke id => require_auth c (json (RevokeAPIKey (hc_auth c) id))
  | Account => require_auth c (mret (match GetAccount (hc_auth c) with Ok (i, m, q) => Report i m q | Err e => Json e end))
  | AccountQuota => require_key c (fun _ account =>
      r ← GetAccountQuota account; mret (match r with Ok q => Quota q | Err e => Json e end))
  end.

(** What only a signed-in user or an agent with a good key may reach; the
    sockets that ask for a share or a token; the rest is public. *)
Definition guarded (e : endpoint) : bool :=
  match e with WsAgent | KeysCreate | KeysList | KeysRotate _ | KeysRevoke _ | Account | AccountQuota => true | _ => false end.
Definition public (e : endpoint) : bool :=
  match e with SessionInfo _ | ShareRedirect _ | SessionFile _ _ _ | File _ | Dir _ _ => true | _ => false end.

(** The middleware lets nobody pass without a live key: the one of the record
    its id names, by the record's hash. *)
Definition good_key (k : string) (d : db) : Prop :=
  exists i s r, splitAPIKey k = Some (i, s) /\ FindRecordById "api_keys" i d = Ok r
    /\ GetBool r "is_active" = true /\ bcrypt_compare (GetString r "key_hash") k = true.
(** A share that has not expired and whose agent is connected. *)
Definition live_share (code : string) (w : World) : Prop :=
  exists share rest, FindRecords "sessions" [("code"%string, code)] 1 (w_db w) = Ok (share :: rest)
    /\ (IsZero (GetDateTime share "expires_at") = true \/ w_now w <= GetDateTime share "expires_at")
    /\ is_Some (GetAgentConn code (w_hub w)).
(** A first message with a token that verifies now. *)
Definition good_hello (f : frame) (now : Z) : Prop :=
  exists token, decode_hello f = Some token /\
    (is_ok (VerifyAgentRelayJWT (RelayJWTSecret cfg) token now) = true \/ is_ok (VerifyBrowserPolicyJWT (RelayJWTSecret cfg) token now) = true).
(** The socket's first message is no such one, or it is gone without a message. *)
Definition bad_hello (conn : nat) (w : World) : Prop :=
  match inq (sock w conn) with f :: _ => ~ good_hello f (w_now w) | [] => up (sock w conn) = false end.

(** Nobody but the caller's own socket notices. *)
Record refused (conn : option nat) (w w' : World) : Prop := {
  rf_db : w_db w' = w_db w;
  rf_reg : w_reg w' = w_reg w;
  rf_routes : same_routes (w_hub w) (w_hub w');
  rf_fails : connFails (w_hub w') = connFails (w_hub w) /\ connImmichFails (w_hub w') = connImmichFails (w_hub w);
  rf_socks : forall s, conn <> Some s -> sock w' s = sock w s }.
Definition closed (conn : option nat) (w : World) : Prop := forall s, conn = Some s -> up (sock w s) = false.
(** A browser that is refused: a 404 or a 500 before the upgrade, or a closed
    socket after it. *)
Definition turned_away (conn : option nat) (o : outcome) (w w' : World) : Prop :=
  (exists j st, o = Socket (HttpError j st) /\ (st = 404 \/ st = 500) /\ w' = w) \/ (o = Socket Upgraded /\ closed conn w').

Lemma auth_refuses k w : ~ good_key k (w_db w) -> returns (APIKeyAuth k) (fun r w' => is_ok r = false /\
  (exists m, r = Err (err_resp 401 m)) /\ w' = w) w.
Proof.
  intros Hbad. unfold APIKeyAuth. case_bool_decide; [apply tot_ret; eauto|]. destruct (splitAPIKey k) as [[i s]|] eqn:Hs; [|apply tot_ret; eauto].
  apply tot_bind, tot_db_get. destruct (FindRecordById "api_keys" i (w_db w)) as [r|e] eqn:Hr; [|apply tot_ret; eauto].
  destruct (GetBool r "is_active") eqn:Ha; cbn [negb]; [|apply tot_ret; eauto].
  destruct (bcrypt_compare (GetString r "key_hash") k) eqn:Hc; cbn [negb]; [|apply tot_ret; eauto].
  destruct Hbad. exists i, s, r. auto.
Qed.

(** Without a user or a key. *)
Lemma guarded_refuses e c w : hc_auth c = None -> ~ good_key (hc_key c) (w_db w) -> guarded e = true ->
  returns (serve e c) (fun o w' => (exists m, o = Json (err_resp 401 m)) /\ w' = w) w.
Proof.
  intros Ha Hk Hg. assert (forall k, returns (require_key c k) (fun o w' => (exists m, o = Json (err_resp 401 m)) /\ w' = w) w) as Hkey.
  { intros k. apply tot_bind. eapply returns_mono; [|by apply auth_refuses]. intros r w' (_&[m ->]&->). apply tot_ret. eauto. }
  assert (forall p, returns (require_auth c p) (fun o w' => (exists m, o = Json (err_resp 401 m)) /\ w' = w) w) as Hauth.
  { intros p. unfold require_auth. rewrite Ha. apply tot_ret. eauto. }
  destruct e; try done; first [apply Hkey|apply Hauth].
Qed.

Lemma public_reads e c w : public e = true -> returns (serve e c) (fun _ w' => w' = w) w.
Proof.
  intros Hg. destruct e; try done; try (by apply tot_ret); apply tot_bind.
  - unfold GetSessionInfo. case_bool_decide; [by repeat apply tot_ret|]. apply tot_bind, tot_db_get.
    destruct (FindRecords _ _ _ _) as [[|s l]|]; [by repeat apply tot_ret| |by repeat apply tot_ret].
    apply tot_bind, tot_now, tot_bind, tot_hub_get. by repeat apply tot_ret.
  - unfold serveShareRedirect. case_bool_decide; [by repeat apply tot_ret|]. apply tot_bind, tot_db_get. by repeat apply tot_ret.
  - unfold ServeSessionFileNoCache. case_bool_decide; [by repeat apply tot_ret|]. apply tot_bind, tot_db_get. by repeat apply tot_ret.
Qed.

(** Closing the caller's socket, after whatever went on with it alone. *)
Lemma refused_close conn w w1 : (forall s, s <> conn -> sock w1 s = sock w s) -> w_db w1 = w_db w -> w_reg w1 = w_reg w ->
  same_routes (w_hub w) (w_hub w1) -> connFails (w_hub w1) = connFails (w_hub w) -> connImmichFails (w_hub w1) = connImmichFails (w_hub w) ->
  refused (Some conn) w (add_log (ClosedNow conn) (hang_up conn w1)) /\ closed (Some conn) (add_log (ClosedNow conn) (hang_up conn w1)).
Proof.
  intros Hs. split; [constructor; try done|].
  - intros s Hne. change (sock (add_log ?e ?x) s) with (sock x s). rewrite sock_hang_up, bool_decide_false by congruence.
    apply Hs. congruence.
  - intros s [= ->]. change (sock (add_log ?e ?x) s) with (sock x s). by rewrite sock_hang_up, bool_decide_true.
Qed.
Lemma refused_nothing conn w : refused conn w w.
Proof. by constructor. Qed.

Lemma and_impl (P Q R : Prop) : (Q -> R) -> P /\ Q -> P /\ R.
Proof. tauto. Qed.

Lemma turned_back conn j st w : st = 404 \/ st = 500 ->
  refused conn w w /\ turned_away conn (Socket (HttpError j st)) w w.
Proof. intros Hst. split; [apply refused_nothing|left; eauto]. Qed.

Lemma client_refuses c w : ~ live_share (hc_share c) w -> returns (serve WsClient c) (fun o w' => refused (hc_conn c) w w' /\ turned_away (hc_conn c) o w w') w.
Proof.
  intros Hno. apply tot_bind. unfold BrowserWS. apply tot_bind, tot_db_get.
  destruct (FindRecords _ _ _ _) as [[|share rest]|e] eqn:Hf; [by apply tot_ret, tot_ret, turned_back; auto| |by apply tot_ret, tot_ret, turned_back; auto].
  apply tot_bind, tot_now. destruct (negb _ && _) eqn:Hexp; [by apply tot_ret, tot_ret, turned_back; auto|].
  destruct (hc_conn c) as [conn|]; [|by apply tot_ret, tot_ret; split; [apply refused_nothing|right]].
  apply tot_bind, tot_bind, tot_hub_get. destruct (GetAgentConn (hc_share c) (w_hub w)) as [x|] eqn:Hx.
  { destruct Hno. exists share, rest. split; [done|]. split; [|by eexists].
    apply andb_false_iff in Hexp as [Hz|Ha]; [left; by apply negb_false_iff|right; by apply Z.ltb_ge]. }
  apply tot_bind. unfold refuse_browser. apply tot_bind. eapply returns_mono; [|apply tot_sent].
  intros ok w1 []. apply tot_close, tot_ret, tot_bind, tot_modifies, tot_ret, tot_ret.
  apply (and_impl _ _ _ (fun Hx => or_intror (conj eq_refl Hx))), refused_close; cbn [w_db w_reg w_hub add_log hang_up set_socks]; try done; try apply se_fails.
  intros s Hs. change (sock (add_log ?e ?y) s) with (sock y s). rewrite sock_hang_up, bool_decide_false by done. auto.
Qed.

(** What the relay does when it refuses: one close, and the deferred one. *)
Lemma relay_hang_up conn r w w1 : w_db w1 = w_db w -> w_reg w1 = w_reg w -> w_hub w1 = w_hub w -> (forall s, s <> conn -> sock w1 s = sock w s) ->
  returns (ws_close (Some conn) StatusPolicyViolation r) (fun (_ : unit) w2 =>
    returns (_ ← ws_close_now (Some conn); mret tt) (fun (_ : unit) w3 => refused (Some conn) w w3 /\ closed (Some conn) w3) w2) w1.
Proof.
  intros Hdb Hreg Hhub Hs. apply tot_close, tot_bind, tot_modifies, tot_ret.
  apply refused_close; cbn [w_db w_reg w_hub add_log hang_up set_socks]; rewrite ?Hhub; try done.
  intros s Hne. change (sock (add_log ?e ?y) s) with (sock y s). rewrite sock_hang_up, bool_decide_false by done. auto.
Qed.

Lemma hello_refuses conn w : bad_hello conn w ->
  returns (RelayWS (RelayJWTSecret cfg) conn) (fun _ w' => refused (Some conn) w w' /\ closed (Some conn) w') w.
Proof.
  unfold bad_hello, RelayWS, with_defer. intros Hno. apply tot_bind, tot_bind, tot_now, tot_bind, tot_choices.
  { destruct (inq (sock w conn)); [by rewrite Hno|done]. }
  intros b w1 [Hin|Hin]%elem_of_app.
  2: { destruct (_ && _); [by apply not_elem_of_nil in Hin|]. apply list_elem_of_singleton in Hin as [= -> ->]. by apply relay_hang_up. }
  destruct (inq (sock w conn)) as [|f q] eqn:Hq; [by apply not_elem_of_nil in Hin|].
  apply list_elem_of_singleton in Hin as [= -> ->].
set (w1 := set_socks _ _).
  assert (forall s, s <> conn -> sock (add_log (Got conn f) w1) s = sock w s) as Hs.
  { intros s Hne. unfold sock, w1, mlookup. cbn. by rewrite lookup_insert_ne by congruence. }
  destruct (decode_hello f) as [token|] eqn:Ht; [|by apply relay_hang_up].
  assert (forall A E (v : result A E), is_ok v = false -> exists e, v = Err e) as Hbad by (intros A E [v|e]; [done|eauto]).
  destruct (Hbad _ _ (VerifyAgentRelayJWT (RelayJWTSecret cfg) token (w_now w))) as [e1 He1].
  { apply not_true_iff_false. intros Hv. apply Hno. exists token. auto. }
  destruct (Hbad _ _ (VerifyBrowserPolicyJWT (RelayJWTSecret cfg) token (w_now w))) as [e2 He2].
  { apply not_true_iff_false. intros Hv. apply Hno. exists token. auto. }
  apply tot_bind, tot_now. change (w_now (add_log _ w1)) with (w_now w). rewrite He1, He2. by apply relay_hang_up.
Qed.

(** C12 (safety). Nothing the server serves is changed by one who may not.  A
    call of the key and account endpoints or of the agents' socket, without a
    signed-in user and without a live API key, gets a 401 and leaves database,
    hub, registry and sockets as they were.  A browser that asks for a share
    which is unknown, expired or has no agent connected, and a socket of the
    relay whose first message carries no token that verifies, or that goes without
    one, is refused (a browser
    with a 404 or 500, or, when it was upgraded, by closing its socket; a relay socket by
    closing it) and the database, the registry, the hub's maps and everybody
    else's socket are as they were.  The pages and the
    share's summary change nothing, whoever calls. *)
Theorem server_asks_who e c w :
  match e with
  | SessionInfo _ | ShareRedirect _ | SessionFile _ _ _ | File _ | Dir _ _ => returns (serve e c) (fun _ w' => w' = w) w
  | WsClient => ~ live_share (hc_share c) w -> returns (serve e c) (fun o w' => refused (hc_conn c) w w' /\ turned_away (hc_conn c) o w w') w
  | WsRelay => (forall conn, hc_conn c = Some conn -> bad_hello conn w) -> returns (serve e c) (fun _ w' => refused (hc_conn c) w w' /\ closed (hc_conn c) w') w
  | _ => hc_auth c = None -> ~ good_key (hc_key c) (w_db w) ->
      returns (serve e c) (fun o w' => (exists m, o = Json (err_resp 401 m)) /\ w' = w) w
  end.
Proof.
  destruct e; try (intros Ha Hk; by apply guarded_refuses); try (by apply public_reads); [apply client_refuses|].
  intros Hno. apply tot_bind, tot_bind. destruct (hc_conn c) as [conn|].
  - eapply returns_mono; [|apply hello_refuses; auto]. intros [] w' Hr. by repeat apply tot_ret.
  - repeat apply tot_ret. by split; [apply refused_nothing|].
Qed.
End serve.

(** * Expired shares *)

Section expired.
Context `{PocketBase} `{!PocketBaseLaws} `{!AllRecords} `{!AllRecordsLaws}.

(** A share has ended: it has an expiry, and the expiry is not to come. *)
Definition ended (now : Z) (s : record) : Prop := GetDateTime s "expires_at" <> zero_time /\ GetDateTime s "expires_at" <= now.

Lemma share_expired_ended now s : share_expired now s = true <-> ended now s.
Proof. unfold share_expired, ended, IsZero. rewrite andb_true_iff, !negb_true_iff, Z.eqb_neq, Z.ltb_ge. done. Qed.

(** What a clean-up may do to the database: only expired shares go. *)
Definition only_expired (now : Z) (d d' : db) : Prop :=
  (forall c i s, FindRecordById c i d' = Ok s -> FindRecordById c i d = Ok s) /\
  (forall c i s, FindRecordById c i d = Ok s -> c <> "sessions"%string \/ ~ ended now s -> FindRecordById c i d' = Ok s).

(** Nothing hangs on a share. *)
Lemma delete_share r d d' : r_coll r = "sessions"%string -> Delete r d = (Ok tt, d') ->
  (forall s, FindRecordById "sessions" (r_id r) d' <> Ok s) /\
  (forall c i, (c, i) <> ("sessions"%string, r_id r) -> FindRecordById c i d' = FindRecordById c i d).
Proof.
  intros Hc Hd. destruct (delete_ok _ _ _ Hd) as (Hgone&Hrest&_). rewrite Hc in *. split; [done|].
  intros c i Hne. apply Hrest; [done|apply not_elem_of_nil].
Qed.

Lemma only_expired_delete now d d1 d2 r : FindRecordById "sessions" (r_id r) d = Ok r -> share_expired now r = true ->
  Delete r d = (Ok tt, d1) -> only_expired now d1 d2 -> only_expired now d d2.
Proof.
  intros Hr He Hd [Hsub Hkept]. destruct (find_id _ _ _ _ Hr) as (Hc&_&_). destruct (delete_share _ _ _ Hc Hd) as [Hgone Hrest].
  assert (forall c i s, FindRecordById c i d1 = Ok s -> FindRecordById c i d = Ok s) as Hback.
  { intros c i s Hs. destruct (decide ((c, i) = ("sessions"%string, r_id r))) as [[= -> ->]|Hne]; [by destruct (Hgone s)|]. by rewrite <- Hrest. }
  split; [intros c i s Hs; by apply Hback, Hsub|]. intros c i s Hs Hk. apply Hkept; [|done].
  destruct (decide ((c, i) = ("sessions"%string, r_id r))) as [[= -> ->]|Hne]; [|by rewrite Hrest].
  rewrite Hr in Hs. injection Hs as ->. apply share_expired_ended in He. by destruct Hk.
Qed.

Lemma delete_each_spec now rs w : NoDup (r_id <$> rs) -> Forall (fun r => FindRecordById "sessions" (r_id r) (w_db w) = Ok r) rs ->
  returns (delete_each now rs) (fun res w' => only_expired now (w_db w) (w_db w') /\
    (res = Ok tt -> forall r, r ∈ rs -> ended now r -> forall s, FindRecordById "sessions" (r_id r) (w_db w') <> Ok s)) w.
Proof.
  revert w. induction rs as [|r rs IH]; intros w Hnd Hall.
  { apply tot_ret. split; [by split|]. intros _ r []%not_elem_of_nil. }
  rewrite fmap_cons in Hnd. apply NoDup_cons in Hnd as [Hnew Hnd]. apply Forall_cons_1 in Hall as [Hr Hall]. cbn [delete_each].
  destruct (share_expired now r) eqn:He.
  - apply tot_bind, tot_db_act. destruct (Delete r (w_db w)) as [[[]|e] d1] eqn:Hd; cbn [fst snd].
    + eapply returns_mono; [|apply IH; [done|]].
      * cbn [w_db set_db]. intros res w' [Honly Hgone]. split; [by eapply only_expired_delete|].
        intros Hok r' [->|Hin]%elem_of_cons He'; [|by apply Hgone]. intros s Hs. apply Honly in Hs.
        destruct (find_id _ _ _ _ Hr) as (Hc&_&_). destruct (delete_share _ _ _ Hc Hd) as [Hgone' _]. by destruct (Hgone' s).
      * cbn [w_db set_db]. rewrite Forall_forall in Hall |- *. intros r' Hin. destruct (find_id _ _ _ _ Hr) as (Hc&_&_).
        destruct (delete_share _ _ _ Hc Hd) as [_ Hrest]. rewrite Hrest; [by apply Hall|]. intros [= Hid]. apply Hnew. rewrite <- Hid.
        by apply list_elem_of_fmap_2.
    + apply tot_ret. cbn [w_db set_db]. apply delete_err in Hd as ->. by repeat split.
  - eapply returns_mono; [|by apply IH]. intros res w' [Honly Hgone]. split; [done|].
    intros Hok r' [->|Hin]%elem_of_cons He'; [apply share_expired_ended in He'; congruence|by apply Hgone].
Qed.

(** The clean-up removes the expired shares and nothing else:
    after it, unless it reports an error, the shares are exactly those of before
    that have no expiry or one that is still to come; even after an error
    nothing that is not an expired share is gone or changed. *)
Theorem expired_sessions_deleted w :
  returns deleteExpiredSessions (fun res w' => only_expired (w_now w) (w_db w) (w_db w') /\
    (res = Ok tt -> forall i s, FindRecordById "sessions" i (w_db w') = Ok s <->
       FindRecordById "sessions" i (w_db w) = Ok s /\ ~ ended (w_now w) s)) w.
Proof.
  apply tot_bind, tot_db_get. destruct (FindAllRecords "sessions" (w_db w)) as [rs|e] eqn:Hall; [|apply tot_ret; by repeat split].
  apply tot_bind, tot_now. eapply returns_mono; [|apply delete_each_spec; [by eapply all_nodup|]].
  - intros res w' [[Hback Hkeep] Hgone]. split; [done|]. intros Hok i s. split.
    + intros Hs. pose proof (Hback _ _ _ Hs) as Hs0. split; [done|]. destruct (find_id _ _ _ _ Hs0) as (_&<-&_).
      intros He. eapply Hgone; [done| |done|exact Hs]. by apply (all_spec _ _ _ Hall).
    + intros [Hs He]. by apply Hkeep; [|right].
  - apply Forall_forall. intros r Hr. by apply (all_spec _ _ _ Hall).
Qed.
End expired.

(** The witness's shares: one expired at 3, one that expires at 9, one that
    never does; a user's record with the same field stays. *)
Definition demo_shares : memdb :=
  let share c i t := ((c, i), <["expires_at"%string := VTime t]> (∅ : gmap string value)) in
  mkMem (list_to_map [share "sessions" "s1" 3; share "sessions" "s2" 9; share "sessions" "s3" zero_time; share "users" "s1" 3]%string) 0.
Definition demo_main_world : World := mkWorld Hub.New (Registry.NewRegistry (7 * Second)) demo_shares ∅ [] 5 [] [].

Lemma expired_sessions_deleted_witness :
  returns deleteExpiredSessions (fun res w' => only_expired (w_now demo_main_world) demo_shares (w_db w') /\
    (res = Ok tt -> forall i s, FindRecordById "sessions" i (w_db w') = Ok s <->
       FindRecordById "sessions" i demo_shares = Ok s /\ ~ ended (w_now demo_main_world) s)) demo_main_world
  /\ option_map (fun rw : result unit string * World => (rw.1, (fun i => is_ok (FindRecordById "sessions" i (w_db rw.2))) <$> ["s1"; "s2"; "s3"]%string))
       (run_alone 20 deleteExpiredSessions demo_main_world) = Some (Ok tt, [false; true; true]).
Proof. split; [apply (expired_sessions_deleted demo_main_world)|vm_compute; reflexivity]. Defined.

(** A stranger tries to revoke a key that exists, asks for a share that does
    not, and greets the relay without a token. *)
Definition demo_secret : ServerConfig := mkServerConfig "stun" "secret".
Definition demo_stranger : call := mkCall None "k1.guess" "" "nosuch" (Some 7%nat).
Definition demo_keys_world : World :=
  mkWorld Hub.New (Registry.NewRegistry (7 * Second)) (mkMem {[("api_keys", "k1")%string := <["is_active"%string := VBool true]> ∅]} 0)
    {[7%nat := mkSock [mkFrame false [] (Some (JStr "hello"))] true]} [] 5 [] [].

Lemma server_asks_who_witness :
  route "DELETE" ["api"; "keys"; "k1"]%string = Some (KeysRevoke "k1") /\
  returns (serve demo_secret (KeysRevoke "k1") demo_stranger) (fun o w' => (exists m, o = Json (err_resp 401 m)) /\ w' = demo_keys_world) demo_keys_world /\
  returns (serve demo_secret WsClient demo_stranger)
    (fun o w' => refused (Some 7%nat) demo_keys_world w' /\ turned_away (Some 7%nat) o demo_keys_world w') demo_keys_world /\
  returns (serve demo_secret WsRelay demo_stranger)
    (fun _ w' => refused (Some 7%nat) demo_keys_world w' /\ closed (Some 7%nat) w') demo_keys_world.
Proof.
  split; [reflexivity|]. split; [|split].
  - apply (server_asks_who demo_secret (KeysRevoke "k1") demo_stranger demo_keys_world); [reflexivity|].
    intros (i&s&r&Hs&Hr&Ha&Hc). vm_compute in Hs. injection Hs as <- <-. vm_compute in Hr. injection Hr as <-. vm_compute in Hc. discriminate Hc.
  - apply (server_asks_who demo_secret WsClient demo_stranger demo_keys_world).
    intros (s&l&Hs&_). vm_compute in Hs. discriminate Hs.
  - apply (server_asks_who demo_secret WsRelay demo_stranger demo_keys_world).
    intros c [= <-]. refine (_ : ~ good_hello demo_secret (mkFrame false [] (Some (JStr "hello"))) 5).
    intros (t&Ht&_). vm_compute in Ht. discriminate Ht.
Defined.

(** * Paths that stay inside *)

(** An element of a path below a root: it does not lead out. *)
Definition no_slash (e : string) : Prop := split_slash e = [e].
Definition plain_elem (e : string) : Prop := no_slash e /\ e <> ""%string /\ e <> "."%string /\ e <> ".."%string.

Lemma split_slash_ne s : split_slash s <> [].
Proof. destruct s as [|c s]; simpl; [done|]. case_bool_decide; [done|]. by destruct (split_slash s). Qed.
Lemma split_slash_app a b : split_slash (a ++ "/" ++ b) = split_slash a ++ split_slash b.
Proof.
  change ("/" ++ b)%string with (String "/"%char b). induction a as [|c a IH]; [done|].
  change (String c a ++ String "/"%char b)%string with (String c (a ++ String "/"%char b)). cbn [split_slash]. rewrite IH. case_bool_decide; [done|].
  pose proof (split_slash_ne a). by destruct (split_slash a).
Qed.
Lemma split_slash_parts s : Forall no_slash (split_slash s).
Proof.
  induction s as [|c s IH]; [by repeat constructor|]. cbn [split_slash]. case_bool_decide as Hc; [constructor; [done|exact IH]|].
  pose proof (split_slash_ne s). destruct (split_slash s) as [|e l]; [done|]. apply Forall_cons_1 in IH as [He Hl].
  constructor; [|done]. unfold no_slash. cbn [split_slash]. by rewrite bool_decide_false, He.
Qed.
Lemma split_slash_join l : l <> [] -> Forall no_slash l -> split_slash (join_slash l) = l.
Proof.
  unfold join_slash. induction l as [|e [|e' l] IH]; intros Hne Hl; [done|by apply Forall_cons_1 in Hl as [Hl _]|].
  apply Forall_cons_1 in Hl as [He Hl]. change (String.concat "/" (e :: e' :: l)) with (e ++ "/" ++ String.concat "/" (e' :: l))%string.
  rewrite split_slash_app, He, IH by done. done.
Qed.

Lemma clean_elems_app root acc l1 l2 : clean_elems root acc (l1 ++ l2) = clean_elems root (clean_elems root acc l1) l2.
Proof.
  revert acc. induction l1 as [|e l IH]; intros acc; [done|]. rewrite <- app_comm_cons. cbn [clean_elems]. repeat case_match; apply IH.
Qed.
Lemma clean_plain root acc l : Forall plain_elem l -> clean_elems root acc l = reverse l ++ acc.
Proof.
  revert acc. induction l as [|e l IH]; intros acc Hl; [done|]. apply Forall_cons_1 in Hl as [(_&H1&H2&H3) Hl]. cbn [clean_elems].
  rewrite !bool_decide_false by done. cbn [orb]. rewrite IH by done. by rewrite reverse_cons, <- app_assoc.
Qed.
(** A cleaned path goes up first, and only when it is not rooted. *)
Lemma clean_shape root l : Forall no_slash l -> exists ps n, clean_elems root [] l = ps ++ replicate n ".."%string
  /\ Forall plain_elem ps /\ (root = true -> n = 0%nat).
Proof.
  intros Hl. cut (forall acc, (exists ps n, acc = ps ++ replicate n ".."%string /\ Forall plain_elem ps /\ (root = true -> n = 0%nat)) ->
    exists ps n, clean_elems root acc l = ps ++ replicate n ".."%string /\ Forall plain_elem ps /\ (root = true -> n = 0%nat)).
  { intros Hc. apply Hc. by exists [], 0%nat. }
  induction Hl as [|e l He Hl IH]; intros acc Hacc; [done|]. cbn [clean_elems].
  destruct Hacc as (ps&n&->&Hps&Hn). case_bool_decide as H1; [apply IH; eauto|]. case_bool_decide as H2; [apply IH; eauto|]. cbn [orb].
  case_bool_decide as H3.
  - destruct ps as [|p ps].
    + destruct n as [|n]; cbn [app replicate].
      * destruct root; apply IH; [by exists [], 0%nat|by exists [], 1%nat; subst].
      * rewrite bool_decide_true by done. apply IH. exists [], (S (S n)). subst e. split; [done|]. split; [done|]. intros Hr. by apply Hn in Hr.
    + apply Forall_cons_1 in Hps as [(_&_&_&Hp) Hps]. cbn [app]. rewrite bool_decide_false by done. apply IH. eauto.
  - apply IH. exists (e :: ps), n. split; [done|]. split; [by repeat constructor|done].
Qed.

(** The elements of a cleaned path, and the path they make. *)
Definition path_elems (s : string) : list string := reverse (clean_elems (rooted s) [] (split_slash s)).
Definition render (root : bool) (l : list string) : string :=
  if root then ("/" ++ join_slash l)%string else if bool_decide (join_slash l = ""%string) then "."%string else join_slash l.

(** A path that [ServeDir] lets through has only plain elements. *)
Lemma inside_elems path : inside (path_Clean path) = true -> exists l, Forall plain_elem l /\ path_Clean path <> ""%string
  /\ forall root acc, clean_elems root acc (split_slash (path_Clean path)) = reverse l ++ acc.
Proof.
  destruct (clean_shape (rooted path) (split_slash path) (split_slash_parts path)) as (ps&n&Hps&Hpl&Hn).
  change (path_Clean path) with (render (rooted path) (path_elems path)). unfold path_elems. rewrite Hps, reverse_app, reverse_replicate.
  assert (Forall no_slash (reverse ps)) as Hns by (apply Forall_reverse; eapply Forall_impl; [exact Hpl|]; by intros e []).
  destruct (rooted path); unfold render.
  - rewrite Hn by done. intros _. exists (reverse ps). split; [by apply Forall_reverse|]. split; [done|]. intros root acc. cbn [replicate app].
    destruct (decide (reverse ps = [])) as [->|Hne]; [done|].
    change (split_slash ("/" ++ join_slash (reverse ps))%string) with (""%string :: split_slash (join_slash (reverse ps))).
    rewrite split_slash_join by done. cbn [clean_elems]. apply clean_plain. by apply Forall_reverse.
  - destruct n as [|n]; cbn [replicate app].
    + case_bool_decide as Hj; [done|]. intros _. exists (reverse ps). split; [by apply Forall_reverse|]. split; [done|]. intros root acc.
      rewrite split_slash_join; [|by intros He; rewrite He in Hj|done]. apply clean_plain. by apply Forall_reverse.
    + intros Hin. exfalso. revert Hin. clear. destruct (replicate n ".."%string ++ reverse ps) as [|e l]; [by vm_compute|].
      change (join_slash (".."%string :: e :: l)) with (".." ++ "/" ++ join_slash (e :: l))%string. generalize (join_slash (e :: l)). done.
Qed.

(** A directory's files are served from that directory only: what
    is answered for any path is a file below the root, reached by elements of
    which none is a step up, and without the root's own elements changing. *)
Theorem served_inside root path p c : root <> ""%string ->
  ServeDir root path = Served p c \/ ServeDirNoCache root path = Served p c ->
  exists l, Forall plain_elem l /\ p = render (rooted root) (path_elems root ++ l).
Proof.
  intros Hroot Hs. assert (inside (path_Clean path) = true /\ p = path_Join root (path_Clean path)) as [Hin ->].
  { revert Hs. unfold ServeDir, ServeDirNoCache. destruct (inside (path_Clean path)); naive_solver. }
  destruct (inside_elems _ Hin) as (l&Hl&Hne&Hc). exists l. split; [done|]. unfold path_Join.
  rewrite !bool_decide_false by done. cbn [andb]. unfold path_Clean at 1.
  change (render (rooted (root ++ "/" ++ path_Clean path)) (path_elems (root ++ "/" ++ path_Clean path)) = render (rooted root) (path_elems root ++ l)).
  assert (rooted (root ++ "/" ++ path_Clean path) = rooted root) as Hr by (by destruct root).
  unfold path_elems. rewrite Hr, split_slash_app, clean_elems_app, Hc, reverse_app, reverse_involutive. done.
Qed.

Lemma served_inside_witness :
  ServeDir "./web/src" "a/../lib//x.js" = Served "web/src/lib/x.js" false /\
  (exists l, Forall plain_elem l /\ "web/src/lib/x.js"%string = render (rooted "./web/src") (path_elems "./web/src" ++ l))
  /\ ServeDir "./web/src" "a/../../../main.go" = NotFound.
Proof.
  split; [vm_compute; reflexivity|]. split; [|vm_compute; reflexivity].
  apply (served_inside "./web/src" "a/../lib//x.js" "web/src/lib/x.js" false); [discriminate|]. left. vm_compute. reflexivity.
Defined.
