(* ===== verification/Migrations.v ===== *)
(** The database's schema (signaling-server/migrations): the six migrations as
    programs over the collections, that they lead from any older release to the
    schema the handlers rely on, that the records the handlers make fit it, and
    one rule of the schema the accounting does not keep. *)

From Stdlib Require Import Floats.SpecFloat.
From S2P Require Import Prelude GoText Float64 Conc Json Registry Hub Db Server Accounting AgentWS ApiKeys ServerMain.
#[local] Open Scope Z_scope.
#[local] Open Scope go_scope.

(** * Collections *)

(** PocketBase's field types, with the settings the migrations use. *)
Inductive field_kind :=
| RelationField (CollectionId : string) (CascadeDelete : bool) (MaxSelect : Z)
| TextField | DateField | BoolField | NumberField
| AutodateField (OnCreate OnUpdate : bool).
Record schema_field := mkField { sf_Name : string; sf_Kind : field_kind; sf_Required : bool; sf_System : bool }.
#[export] Instance field_kind_dec : EqDecision field_kind.
Proof. solve_decision. Defined.
#[export] Instance schema_field_dec : EqDecision schema_field.
Proof. solve_decision. Defined.

(** A collection with its API rules: list, view, create, update, delete. *)
Record collection := mkCollection {
  c_Id : string; c_Name : string; c_Fields : list schema_field; c_Indexes : list string; c_Rules : list (option string) }.
Definition with_fields (l : list schema_field) (c : collection) : collection := mkCollection (c_Id c) (c_Name c) l (c_Indexes c) (c_Rules c).
Definition with_rules (l : list (option string)) (c : collection) : collection := mkCollection (c_Id c) (c_Name c) (c_Fields c) (c_Indexes c) l.
Definition with_indexes (l : list string) (c : collection) : collection := mkCollection (c_Id c) (c_Name c) (c_Fields c) l (c_Rules c).
Definition no_rules : list (option string) := [None; None; None; None; None].
Definition NewBaseCollection (name : string) : collection :=
  mkCollection "" name [mkField "id" TextField true true] [] no_rules.

Definition GetByName (c : collection) (name : string) : option schema_field :=
  find (fun f => bool_decide (sf_Name f = name)) (c_Fields c).
(** [Fields.Add]: a field of the same name is replaced. *)
Fixpoint put_field (f : schema_field) (l : list schema_field) : list schema_field :=
  match l with
  | [] => [f]
  | g :: l' => if bool_decide (sf_Name g = sf_Name f) then f :: l' else g :: put_field f l'
  end.
Definition Add (fs : list schema_field) (c : collection) : collection := with_fields (foldl (fun l f => put_field f l) (c_Fields c) fs) c.

(** The collections of the database, and what the filter of the third
    migration finds: users without a quota. *)
Class Schema `{PocketBase} := {
  FindCollectionByNameOrId : string -> db -> result collection db_error;
  SaveCollection : collection -> db -> result unit db_error * db;
  FindUsersWithoutQuota : nat -> db -> result (list record) db_error }.

Definition field_of `{Schema} (d : db) (n x : string) : option schema_field :=
  match FindCollectionByNameOrId n d with Ok c => GetByName c x | Err _ => None end.

Class SchemaLaws `{Schema} : Prop := {
  col_name : forall n d c, FindCollectionByNameOrId n d = Ok c -> c_Name c = n;
  save_col_ok : forall c d d', SaveCollection c d = (Ok tt, d') ->
    (exists i, FindCollectionByNameOrId (c_Name c) d' = Ok (mkCollection i (c_Name c) (c_Fields c) (c_Indexes c) (c_Rules c)))
    /\ forall n, n <> c_Name c -> FindCollectionByNameOrId n d' = FindCollectionByNameOrId n d;
  (** a table that gets columns keeps its rows; a new column reads as the zero value *)
  save_col_records : forall c d d', SaveCollection c d = (Ok tt, d') ->
    (forall x f, field_of d (c_Name c) x = Some f -> GetByName c x = Some f) ->
    forall n i r, FindRecordById n i d = Ok r -> exists r', FindRecordById n i d' = Ok r' /\ kept r r';
  save_col_err : forall c d e d', SaveCollection c d = (Err e, d') -> d' = d;
  save_schema : forall r d x d', Save r d = (x, d') -> forall n, FindCollectionByNameOrId n d' = FindCollectionByNameOrId n d;
  save_refused : forall r d e d', Save r d = (Err e, d') -> d' = d;
  save_stored : forall r d r' d', Save r d = (Ok r', d') -> r_id r <> ""%string ->
    (exists s, FindRecordById (r_coll r) (r_id r) d' = Ok s /\ kept r s) /\
    forall n i, (n, i) <> (r_coll r, r_id r) -> FindRecordById n i d' = FindRecordById n i d;
  (** a required number is not zero *)
  save_required : forall r d r' d' f k, Save r d = (Ok r', d') -> field_of d (r_coll r) k = Some f ->
    sf_Kind f = NumberField -> sf_Required f = true -> r_fields r !! k <> Some (VInt 0);
  users_spec : forall n d rs, FindUsersWithoutQuota n d = Ok rs -> (length rs <= n)%nat /\ NoDup (r_id <$> rs) /\
    Forall (fun r => r_coll r = "users"%string /\ r_id r <> ""%string /\ FindRecordById "users" (r_id r) d = Ok r) rs }.

(** * The migrations *)

Section migrations.
Context `{Schema}.
Abbreviation migration := (GoM db db_error unit).

Definition find_col (n : string) : GoM db db_error collection := let! d := gget in glift (FindCollectionByNameOrId n d).
Definition save_col (c : collection) : migration := SaveCollection c.
(** [err != nil] as a value. *)
Definition try {A} (p : GoM db db_error A) : GoM db db_error (result A db_error) :=
  fun d => match p d with (r, d') => (Ok r, d') end.

(** Adds the fields that are not there, and saves when there was one. *)
Definition missing (c : collection) (fs : list schema_field) : list schema_field := filter (fun f => GetByName c (sf_Name f) = None) fs.
Definition add_missing (fs : list schema_field) (c : collection) : migration :=
  match missing c fs with [] => gret tt | l => save_col (Add l c) end.

Definition created_field : schema_field := mkField "created" (AutodateField true false) false true.
Definition updated_field : schema_field := mkField "updated" (AutodateField true true) false true.
Definition relation (name target : string) : schema_field := mkField name (RelationField target true 1) true false.
Definition own_keys : option string := Some "@request.auth.id != '' && account_id.id = @request.auth.id"%string.

(** [signaling-server/migrations/1_create_collections.go:31-75] CreateCollections *)
Definition api_keys_collection (users : collection) : collection :=
  with_rules [own_keys; own_keys; own_keys; own_keys; own_keys]
    (Add [relation "account_id" (c_Id users); mkField "key_hash" TextField false false; mkField "label" TextField false false;
          mkField "last_used_at" DateField false false; mkField "is_active" BoolField false false; created_field; updated_field]
       (NewBaseCollection "api_keys")).
(** [signaling-server/migrations/1_create_collections.go:87-122] CreateCollections *)
Definition sessions_collection (apiKeys : collection) : collection :=
  with_rules no_rules
    (with_indexes ["CREATE UNIQUE INDEX `idx_sessions_code` ON `{{COLLECTION}}` (`code`)"%string]
       (Add [mkField "code" TextField true false; relation "api_key_id" (c_Id apiKeys); mkField "agent_id" TextField false false;
             mkField "expires_at" DateField false false; mkField "updated" (AutodateField false true) false false]
          (NewBaseCollection "sessions"))).

(** [signaling-server/migrations/1_create_collections.go:17-130] CreateCollections *)
Definition CreateCollections : migration :=
  let! found := try (find_col "api_keys") in
  if is_ok found then gret tt
  else
    let! users := try (find_col "users") in
    match users with
    | Err e => gfail ("users collection not found: " +:+ e)%string
    | Ok users =>
        do! save_col (api_keys_collection users) in
        let! apiKeys := try (find_col "api_keys") in
        match apiKeys with
        | Err e => gfail ("failed to reload api_keys collection: " +:+ e)%string
        | Ok apiKeys =>
            let! saved := try (save_col (sessions_collection apiKeys)) in
            match saved with
            | Err e => if contains "already exists" e then gret tt else gfail e
            | Ok _ => gret tt
            end
        end
    end.

(** [signaling-server/migrations/2_add_api_key_timestamps.go:14-46] AddAPIKeyTimestamps *)
Definition AddAPIKeyTimestamps : migration :=
  let! col := try (find_col "api_keys") in
  match col with Err _ => gret tt | Ok c => add_missing [created_field; updated_field] c end.

(** [signaling-server/migrations/3_add_quota_fields.go:43-89] addQuotaFieldsToUsers *)
Definition quota_fields : list schema_field :=
  [mkField "relay_quota_gb" NumberField false false; mkField "current_period_usage_gb" NumberField false false;
   mkField "quota_period_start" DateField false false; mkField "quota_period_end" DateField false false;
   mkField "turn_baseline_bytes" NumberField false false].
(** [signaling-server/migrations/3_add_quota_fields.go:35-96] addQuotaFieldsToUsers *)
Definition addQuotaFieldsToUsers : migration :=
  let! users := try (find_col "users") in
  match users with
  | Err e => gfail ("users collection not found: " +:+ e)%string
  | Ok users => add_missing quota_fields users
  end.

(** [signaling-server/migrations/3_add_quota_fields.go:112-143] createBandwidthUsageCollection *)
Definition usage_collection (users : collection) : collection :=
  with_rules no_rules
    (Add [relation "account_id" (c_Id users); mkField "period_start" DateField true false; mkField "period_end" DateField true false;
          mkField "bytes_transferred" NumberField true false; created_field] (NewBaseCollection "bandwidth_usage")).
(** [signaling-server/migrations/3_add_quota_fields.go:99-150] createBandwidthUsageCollection *)
Definition createBandwidthUsageCollection : migration :=
  let! found := try (find_col "bandwidth_usage") in
  if is_ok found then gret tt
  else
    let! users := try (find_col "users") in
    match users with
    | Err e => gfail ("users collection not found: " +:+ e)%string
    | Ok users =>
        let! saved := try (save_col (usage_collection users)) in
        match saved with Err e => gfail ("failed to save bandwidth_usage collection: " +:+ e)%string | Ok _ => gret tt end
    end.

(** [signaling-server/migrations/3_add_quota_fields.go:168-174] backfillExistingUsers *)
Definition backfilled (now : Z) (r : record) : record :=
  rset "turn_baseline_bytes" (VFloat (S754_zero false)) (rset "quota_period_end" (VTime (now + 30 * 24 * 3600 * Second))
    (rset "quota_period_start" (VTime now) (rset "current_period_usage_gb" (VFloat (S754_zero false))
      (rset "relay_quota_gb" (VFloat (f64_of_Z 50)) r)))).
(** A quota of 0. *)
Definition unset (r : record) : bool :=
  f64_ge (GetFloat r "relay_quota_gb") (S754_zero false) && f64_ge (S754_zero false) (GetFloat r "relay_quota_gb").
Fixpoint backfill_each (now : Z) (rs : list record) : migration :=
  match rs with
  | [] => gret tt
  | r :: rs' =>
      if unset r then
        let! saved := try (Save (backfilled now r)) in
        match saved with
        | Err e => gfail ("failed to backfill user " +:+ r_id r +:+ ": " +:+ e)%string
        | Ok _ => backfill_each now rs'
        end
      else backfill_each now rs'
  end.
(** [signaling-server/migrations/3_add_quota_fields.go:152-182] backfillExistingUsers *)
Definition backfillExistingUsers (now : Z) : migration :=
  let! rs := try (let! d := gget in glift (FindUsersWithoutQuota 500 d)) in
  match rs with
  | Err e => gfail ("failed to fetch users for backfill: " +:+ e)%string
  | Ok rs => backfill_each now rs
  end.

(** [signaling-server/migrations/3_add_quota_fields.go:17-32] AddQuotaFields *)
Definition AddQuotaFields (now : Z) : migration :=
  do! addQuotaFieldsToUsers in do! createBandwidthUsageCollection in backfillExistingUsers now.

Definition on_sessions (fs : list schema_field) : migration := let! c := find_col "sessions" in add_missing fs c.
(** [signaling-server/migrations/4_add_relay_only.go:12-28] AddRelayOnly *)
Definition AddRelayOnly : migration := on_sessions [mkField "relay_only" BoolField false false].
(** [signaling-server/migrations/5_add_session_relay_static_pub.go:12-28] AddSessionRelayStaticPub *)
Definition AddSessionRelayStaticPub : migration := on_sessions [mkField "relay_static_pub" TextField false false].
(** [signaling-server/migrations/6_add_immich_session_fields.go:12-31] AddImmichSessionFields *)
Definition AddImmichSessionFields : migration :=
  on_sessions [mkField "share_type" TextField false false; mkField "is_password_protected" BoolField false false].

(** The library runs them in the order of their files. *)
Definition migrate (now : Z) : migration :=
  do! CreateCollections in do! AddAPIKeyTimestamps in do! AddQuotaFields now in
  do! AddRelayOnly in do! AddSessionRelayStaticPub in AddImmichSessionFields.
End migrations.

(** * The schema the handlers rely on *)

(** The collections and fields, a relation's target left open. *)
Definition keys_base : list schema_field :=
  [relation "account_id" ""; mkField "key_hash" TextField false false; mkField "label" TextField false false;
   mkField "last_used_at" DateField false false; mkField "is_active" BoolField false false].
Definition sessions_base : list schema_field :=
  [mkField "code" TextField true false; relation "api_key_id" ""; mkField "agent_id" TextField false false; mkField "expires_at" DateField false false].
Definition usage_base : list schema_field :=
  [relation "account_id" ""; mkField "period_start" DateField true false; mkField "period_end" DateField true false;
   mkField "bytes_transferred" NumberField true false].
Definition in_col (n : string) (fs : list schema_field) : list (string * schema_field) := (fun f => (n, f)) <$> fs.
Definition expected : list (string * schema_field) :=
  in_col "api_keys" (keys_base ++ [created_field; updated_field]) ++ in_col "sessions" (sessions_base ++
     [mkField "relay_only" BoolField false false; mkField "relay_static_pub" TextField false false;
      mkField "share_type" TextField false false; mkField "is_password_protected" BoolField false false])
  ++ in_col "bandwidth_usage" usage_base ++ in_col "users" quota_fields.

(** The same type, whatever a relation points to, and required alike. *)
Definition alike (f g : schema_field) : bool :=
  eqb (sf_Required f) (sf_Required g) &&
  match sf_Kind f, sf_Kind g with
  | RelationField _ a b, RelationField _ a' b' => eqb a a' && (b =? b')
  | a, b => bool_decide (a = b)
  end.

Lemma get_put f l x : find (fun g => bool_decide (sf_Name g = x)) (put_field f l) =
  if bool_decide (sf_Name f = x) then Some f else find (fun g => bool_decide (sf_Name g = x)) l.
Proof.
  induction l as [|g l IH]; cbn [put_field find]; [done|]. destruct (bool_decide_reflect (sf_Name g = sf_Name f)) as [Hg|Hg]; cbn [find].
  - rewrite Hg. by case_bool_decide.
  - rewrite IH. repeat case_bool_decide; congruence.
Qed.

Lemma get_Add fs c x : NoDup (sf_Name <$> fs) ->
  GetByName (Add fs c) x = match find (fun g => bool_decide (sf_Name g = x)) fs with Some f => Some f | None => GetByName c x end.
Proof.
  unfold Add, GetByName. cbn [with_fields c_Fields]. generalize (c_Fields c). induction fs as [|f fs IH]; intros l Hnd; [done|].
  rewrite fmap_cons in Hnd. apply NoDup_cons in Hnd as [Hf Hnd]. cbn [foldl find]. rewrite IH by done.
  destruct (find _ fs) as [g|] eqn:Hg.
  - apply find_some in Hg as [Hin Hx%bool_decide_eq_true]. rewrite bool_decide_false; [done|]. intros He. apply Hf. rewrite He, <- Hx.
    apply list_elem_of_fmap_2, list_elem_of_In, Hin.
  - rewrite get_put. by case_bool_decide.
Qed.

Section growing.
Context `{SchemaLaws}.

Definition exists_col (d : db) (n : string) : bool := is_ok (FindCollectionByNameOrId n d).
Definition keeps_guards (d d' : db) : Prop := forall n c, FindCollectionByNameOrId n d = Ok c ->
  exists c', FindCollectionByNameOrId n d' = Ok c' /\ c_Rules c' = c_Rules c /\ c_Indexes c' = c_Indexes c.
(** The collections of an older release are still there, with all their fields
    as they were, the same API rules and the same indexes. *)
Definition extends (d d' : db) : Prop :=
  (forall n x f, field_of d n x = Some f -> field_of d' n x = Some f) /\ keeps_guards d d'.
(** So are its records, with their content; only a user with a quota of 0 is
    given the default one. *)
Definition keeps_records (d d' : db) : Prop := forall n i r, FindRecordById n i d = Ok r -> exists r', FindRecordById n i d' = Ok r' /\ kept r r'.
Definition survives (now : Z) (d d' : db) : Prop := forall n i r, FindRecordById n i d = Ok r ->
  exists r', FindRecordById n i d' = Ok r' /\ (kept r r' \/ (n = "users"%string /\ unset r = true /\ kept (backfilled now r) r')).
Definition present (d : db) (e : string * schema_field) : Prop := exists g, field_of d e.1 (sf_Name e.2) = Some g /\ alike e.2 g = true.
(** No field has another type than expected. *)
Definition agrees (d : db) : Prop := forall n f g, (n, f) ∈ expected -> field_of d n (sf_Name f) = Some g -> alike f g = true.
Definition fits_expected (n : string) (fs : list schema_field) : bool :=
  forallb (fun e => forallb (fun g => negb (bool_decide (e.1 = n)) || negb (bool_decide (sf_Name e.2 = sf_Name g)) || alike e.2 g) fs) expected.

(** The collection [n] gets the fields [fs] where they were not there. *)
Record grows (n : string) (fs : list schema_field) (d d' : db) : Prop := {
  gr_keeps : forall m x f, field_of d m x = Some f -> field_of d' m x = Some f;
  gr_has : forall f, f ∈ fs -> exists g, field_of d' n (sf_Name f) = Some g;
  gr_new : forall m x g, field_of d' m x = Some g -> field_of d m x = Some g \/ (m = n /\ g ∈ fs /\ sf_Name g = x);
  gr_col : exists_col d' n = true;
  gr_guards : keeps_guards d d';
  gr_records : keeps_records d d';
  gr_other : forall m, m <> n -> exists_col d' m = exists_col d m }.

Lemma grows_extends n fs d d' : grows n fs d d' -> extends d d'.
Proof. intros []. by split. Qed.

Lemma grows_agrees n fs d d' : grows n fs d d' -> fits_expected n fs = true -> agrees d -> agrees d'.
Proof.
  intros Hg Hf Ha m f g Hin Hx. destruct (gr_new _ _ _ _ Hg _ _ _ Hx) as [Hold|(->&Hg2&Hn)]; [by eapply Ha|].
  unfold fits_expected in Hf. rewrite forallb_forall in Hf. specialize (Hf (n, f) (proj1 (list_elem_of_In _ _) Hin)).
  rewrite forallb_forall in Hf. specialize (Hf g (proj1 (list_elem_of_In _ _) Hg2)). cbn [fst snd] in Hf. by rewrite !bool_decide_true in Hf.
Qed.

(** Fields with the names of those that were added. *)
Lemma grows_present n fs d d' fs' : grows n fs d d' -> agrees d' ->
  forallb (fun f => bool_decide (sf_Name f ∈ sf_Name <$> fs) && bool_decide ((n, f) ∈ expected)) fs' = true -> Forall (present d') (in_col n fs').
Proof.
  intros Hg Ha Hall. apply Forall_fmap, Forall_forall. intros f Hf. rewrite forallb_forall in Hall. apply list_elem_of_In, Hall in Hf.
  apply andb_true_iff in Hf as [Hn%bool_decide_eq_true He%bool_decide_eq_true]. apply list_elem_of_fmap in Hn as (f'&Hn&Hf').
  destruct (gr_has _ _ _ _ Hg f' Hf') as [g Hx]. rewrite <- Hn in Hx. exists g. split; [done|]. by eapply Ha.
Qed.

Lemma extends_present d d' e : extends d d' -> present d e -> present d' e.
Proof. intros [Hk _] (g&Hg&Ha). exists g. auto. Qed.
#[export] Instance extends_pre : PreOrder extends.
Proof.
  split; [intros d; split; [done|intros n c Hc; eauto]|]. intros d1 d2 d3 [Ha Hb] [Hc Hd]. split; [auto|].
  intros n c (c2&(c3&H3&Hr3&Hi3)%Hd&Hr2&Hi2)%Hb. exists c3. by rewrite Hr3, Hi3.
Qed.

Lemma unset_kept r r' : kept r r' -> unset r' = unset r.
Proof. intros Hk. unfold unset. by rewrite (kp_float _ _ Hk) by content. Qed.
#[export] Instance backfilled_kept now : Proper (kept ==> kept) (backfilled now).
Proof. intros r r' Hk. unfold backfilled. by rewrite Hk. Qed.
Lemma unset_backfilled now r : unset (backfilled now r) = false.
Proof.
  unfold unset, backfilled, GetFloat. cbn [rset r_fields]. rewrite !lookup_insert_ne by done. by rewrite lookup_insert_eq.
Qed.
#[export] Instance survives_pre now : PreOrder (survives now).
Proof.
  split; [intros d n i r Hr; exists r; split; [done|by left]|]. intros d1 d2 d3 H12 H23 n i r1 (r2&(r3&H3&Hk3)%H23&Hk2)%H12.
  exists r3. split; [done|]. destruct Hk2 as [Hk2|(Hn&Hu&Hk2)], Hk3 as [Hk3|(Hn'&Hu'&Hk3)].
  - left. by etrans.
  - right. split; [done|]. split; [by rewrite <- (unset_kept _ _ Hk2)|]. etrans; [by apply backfilled_kept|done].
  - right. split; [done|]. split; [done|]. by etrans.
  - by rewrite (unset_kept _ _ Hk2), unset_backfilled in Hu'.
Qed.
Lemma keeps_survives now d d' : keeps_records d d' -> survives now d d'.
Proof. intros Hk n i r (r'&Hr'&Hrr)%Hk. eauto. Qed.

Lemma saved_fields c d d' m x : SaveCollection c d = (Ok tt, d') ->
  field_of d' m x = if bool_decide (m = c_Name c) then GetByName c x else field_of d m x.
Proof.
  intros Hs. destruct (save_col_ok _ _ _ Hs) as [[i Hi] Ho]. unfold field_of. case_bool_decide as Hm; [subst m; by rewrite Hi|by rewrite Ho].
Qed.

(** Either way of growing: a collection saved with more fields than it had. *)
Lemma save_grows n fs c d d' : SaveCollection c d = (Ok tt, d') -> c_Name c = n ->
  (forall c0, FindCollectionByNameOrId n d = Ok c0 -> c_Rules c = c_Rules c0 /\ c_Indexes c = c_Indexes c0) ->
  (forall x, GetByName c x = match field_of d n x with Some g => Some g | None => find (fun g => bool_decide (sf_Name g = x)) fs end) ->
  grows n fs d d'.
Proof.
  intros Hs Hn Hg Hc. constructor.
  - intros m x f Hx. rewrite (saved_fields _ _ _ _ _ Hs), Hn. case_bool_decide; [subst m|done]. by rewrite Hc, Hx.
  - intros f Hf. rewrite (saved_fields _ _ _ _ _ Hs), Hn, bool_decide_true, Hc by done. destruct (field_of d n (sf_Name f)) as [g|]; [eauto|].
    destruct (find _ fs) as [g|] eqn:Hfind; [eauto|]. apply list_elem_of_In, (find_none _ _ Hfind) in Hf. by rewrite bool_decide_true in Hf.
  - intros m x g. rewrite (saved_fields _ _ _ _ _ Hs), Hn. case_bool_decide; [subst m|by left]. rewrite Hc. destruct (field_of d n x); [by left|].
    intros [Hin Hx%bool_decide_eq_true]%find_some. right. by rewrite list_elem_of_In.
  - unfold exists_col. destruct (save_col_ok _ _ _ Hs) as [[i Hi] _]. rewrite <- Hn. by rewrite Hi.
  - intros m c0 Hm. destruct (save_col_ok _ _ _ Hs) as [[i Hi] Ho]. rewrite Hn in *. destruct (decide (m = n)) as [->|Hne]; [|rewrite Ho by done; eauto].
    eexists. split; [exact Hi|]. by apply Hg.
  - intros m i r0 Hr. eapply save_col_records; [exact Hs| |exact Hr]. intros x f Hx. rewrite Hn in Hx. by rewrite Hc, Hx.
  - intros m Hm. unfold exists_col. destruct (save_col_ok _ _ _ Hs) as [_ Ho]. rewrite Ho; [done|]. by rewrite Hn.
Qed.

Lemma created_grows c d d' : exists_col d (c_Name c) = false -> SaveCollection c d = (Ok tt, d') -> grows (c_Name c) (c_Fields c) d d'.
Proof.
  intros Hno Hs. eapply save_grows; [exact Hs|done|intros c0 Hc0; unfold exists_col in Hno; by rewrite Hc0 in Hno|]. intros x. unfold field_of. unfold exists_col in Hno.
  by destruct (FindCollectionByNameOrId (c_Name c) d).
Qed.

Lemma find_missing c fs x : find (fun g => bool_decide (sf_Name g = x)) (missing c fs) =
  match GetByName c x with Some _ => None | None => find (fun g => bool_decide (sf_Name g = x)) fs end.
Proof.
  induction fs as [|f fs IH]; [by destruct (GetByName c x)|]. unfold missing. rewrite filter_cons. cbn [find].
  destruct (decide (GetByName c (sf_Name f) = None)) as [Hm|Hm]; cbn [find]; case_bool_decide as Hx; fold (missing c fs); rewrite ?IH; [by rewrite <- Hx, Hm|done| |done].
  subst x. by destruct (GetByName c (sf_Name f)).
Qed.

Lemma add_missing_grows n fs c d d' : FindCollectionByNameOrId n d = Ok c -> NoDup (sf_Name <$> fs) ->
  add_missing fs c d = (Ok tt, d') -> grows n fs d d'.
Proof.
  intros Hc Hnd. assert (forall x, field_of d n x = GetByName c x) as Hof by (intros x; unfold field_of; by rewrite Hc).
  unfold add_missing. pose proof (find_missing c fs) as Hfm. destruct (missing c fs) as [|f l] eqn:Hl.
  - intros [= <-]. constructor; [done| |by left| | | |done]; [|unfold exists_col; by rewrite Hc|intros m c0; eauto|intros m i r0 Hr0; by exists r0].
    intros f Hf. rewrite Hof. specialize (Hfm (sf_Name f)). cbn [find] in Hfm. destruct (GetByName c (sf_Name f)) as [g|]; [eauto|].
    symmetry in Hfm. apply list_elem_of_In, (find_none _ _ Hfm) in Hf. by rewrite bool_decide_true in Hf.
  - intros Hs. assert (NoDup (sf_Name <$> f :: l)) as Hnd'.
    { rewrite <- Hl. eapply sublist_NoDup; [exact Hnd|]. apply fmap_sublist, sublist_filter. }
    eapply save_grows; [exact Hs|exact (col_name _ _ _ Hc)|intros c0; rewrite Hc; by intros [= <-]|]. intros x. rewrite get_Add, Hof, Hfm by done. destruct (GetByName c x); [done|]. by destruct (find _ fs).
Qed.
End growing.

(** * From an older release *)

Section upgrade.
Context `{SchemaLaws} (now : Z).

(** What a data directory of an older release may be: without the two first
    collections or with both, and with the usage collection as it was made. *)
Definition older (d : db) : Prop :=
  (exists_col d "api_keys" = true -> Forall (present d) (in_col "api_keys" keys_base) /\ Forall (present d) (in_col "sessions" sessions_base)) /\
  (exists_col d "api_keys" = false -> exists_col d "sessions" = false) /\
  (exists_col d "bandwidth_usage" = true -> Forall (present d) (in_col "bandwidth_usage" usage_base)).

(** One migration: nothing is lost, no field gets another type, and the fields
    [es] are there after it. *)
Definition step_ok (d d' : db) (es : list (string * schema_field)) : Prop :=
  (extends d d' /\ survives now d d') /\ agrees d' /\ Forall (present d') es.

Lemma step_trans d d1 d2 es1 es2 : step_ok d d1 es1 -> step_ok d1 d2 es2 -> step_ok d d2 (es1 ++ es2).
Proof.
  intros ([Hx1 Hs1]&_&Hp1) ([Hx2 Hs2]&Ha2&Hp2). split; [split; by etrans|]. split; [done|]. apply Forall_app. split; [|done].
  eapply Forall_impl; [exact Hp1|]. intros e. by apply extends_present.
Qed.

Lemma grows_step n fs fs' d d' : grows n fs d d' -> agrees d -> fits_expected n fs = true ->
  forallb (fun f => bool_decide (sf_Name f ∈ sf_Name <$> fs) && bool_decide ((n, f) ∈ expected)) fs' = true -> step_ok d d' (in_col n fs').
Proof.
  intros Hg Ha Hf Hall. assert (agrees d') as Ha' by (by eapply grows_agrees). split; [split; [by eapply grows_extends|apply keeps_survives, Hg]|]. split; [done|].
  by eapply grows_present.
Qed.

Lemma add_missing_step n fs c d d' : FindCollectionByNameOrId n d = Ok c -> add_missing fs c d = (Ok tt, d') -> agrees d ->
  bool_decide (NoDup (sf_Name <$> fs)) && fits_expected n fs
    && forallb (fun f => bool_decide (sf_Name f ∈ sf_Name <$> fs) && bool_decide ((n, f) ∈ expected)) fs = true ->
  step_ok d d' (in_col n fs) /\ forall m, m <> n -> exists_col d' m = exists_col d m.
Proof.
  intros Hc Hs Ha [[Hnd%bool_decide_eq_true Hf]%andb_true_iff Hall]%andb_true_iff.
  assert (grows n fs d d') as Hg by (by eapply add_missing_grows). split; [by eapply grows_step|apply Hg].
Qed.

Lemma created_step c d d' fs : exists_col d (c_Name c) = false -> SaveCollection c d = (Ok tt, d') -> agrees d ->
  fits_expected (c_Name c) (c_Fields c)
    && forallb (fun f => bool_decide (sf_Name f ∈ sf_Name <$> c_Fields c) && bool_decide ((c_Name c, f) ∈ expected)) fs = true ->
  step_ok d d' (in_col (c_Name c) fs) /\ forall m, m <> c_Name c -> exists_col d' m = exists_col d m.
Proof.
  intros Hno Hs Ha [Hf Hall]%andb_true_iff. assert (grows (c_Name c) (c_Fields c) d d') as Hg by (by eapply created_grows).
  split; [by eapply grows_step|apply Hg].
Qed.

Lemma create_ok d d' : agrees d -> older d -> CreateCollections d = (Ok tt, d') ->
  step_ok d d' (in_col "api_keys" keys_base) /\ exists_col d' "bandwidth_usage" = exists_col d "bandwidth_usage"
  /\ (exists_col d' "sessions" = true -> Forall (present d') (in_col "sessions" sessions_base)).
Proof.
  intros Ha (Hboth&Hnone&Husage). unfold CreateCollections, try, find_col, save_col, gbind, gget, glift, gret, gfail.
  unfold exists_col in Hboth, Hnone. destruct (FindCollectionByNameOrId "api_keys" d) as [k|e] eqn:Hk.
  { lazy beta iota zeta delta [is_ok]. intros [= <-]. cbn [is_ok] in Hboth. destruct (Hboth eq_refl). split; [by split|]. auto. }
  lazy beta iota zeta delta [is_ok]. specialize (Hnone eq_refl). destruct (FindCollectionByNameOrId "users" d) as [u|e2] eqn:Hu; [|done].
  unfold save_col. destruct (SaveCollection (api_keys_collection u) d) as [[[]|e1] d1] eqn:Hs; [|done].
  assert (exists_col d (c_Name (api_keys_collection u)) = false) as Hno by (unfold exists_col; cbn; by rewrite Hk).
  destruct (created_step _ _ _ keys_base Hno Hs Ha) as [Hstep Hother]; [vm_compute; reflexivity|].
  destruct (FindCollectionByNameOrId "api_keys" d1) as [k1|e3]; [|done].
  destruct (SaveCollection (sessions_collection k1) d1) as [[[]|e4] d2] eqn:Hs2.
  - intros [= <-]. assert (exists_col d1 (c_Name (sessions_collection k1)) = false) as Hno2.
    { rewrite Hother by done. cbn. done. }
    destruct (created_step _ _ _ sessions_base Hno2 Hs2 (proj1 (proj2 Hstep))) as [Hstep2 Hother2]; [vm_compute; reflexivity|].
    pose proof (step_trans _ _ _ _ _ Hstep Hstep2) as (Hx&Ha2&Hp). apply Forall_app in Hp as [Hp1 Hp2].
    split; [by split|]. split; [by rewrite Hother2, Hother|done].
  - apply save_col_err in Hs2 as ->. destruct (contains _ _); [|done]. intros [= <-]. split; [done|]. split; [by rewrite Hother|].
    rewrite Hother by done. unfold exists_col. by rewrite Hnone.
Qed.

Lemma present_col d n fs : Forall (present d) (in_col n fs) -> fs <> [] -> exists_col d n = true.
Proof.
  destruct fs as [|f fs]; [done|]. intros [(g&Hg&_) _]%Forall_cons_1 _. unfold field_of in Hg. unfold exists_col. cbn [fst] in Hg.
  by destruct (FindCollectionByNameOrId n d).
Qed.

Lemma timestamps_ok d d' : agrees d -> exists_col d "api_keys" = true -> AddAPIKeyTimestamps d = (Ok tt, d') ->
  step_ok d d' (in_col "api_keys" [created_field; updated_field]) /\ forall m, m <> "api_keys"%string -> exists_col d' m = exists_col d m.
Proof.
  intros Ha Hk. unfold AddAPIKeyTimestamps, try, find_col, gbind, gget, glift. unfold exists_col in Hk.
  destruct (FindCollectionByNameOrId "api_keys" d) as [c|e] eqn:Hc; [|done]. intros Hs.
  eapply add_missing_step; [exact Hc|exact Hs|done|vm_compute; reflexivity].
Qed.

Lemma quota_ok d d' : agrees d -> addQuotaFieldsToUsers d = (Ok tt, d') ->
  step_ok d d' (in_col "users" quota_fields) /\ forall m, m <> "users"%string -> exists_col d' m = exists_col d m.
Proof.
  intros Ha. unfold addQuotaFieldsToUsers, try, find_col, gbind, gget, glift, gfail.
  destruct (FindCollectionByNameOrId "users" d) as [c|e] eqn:Hc; [|done]. intros Hs.
  eapply add_missing_step; [exact Hc|exact Hs|done|vm_compute; reflexivity].
Qed.

Lemma usage_ok d d' : agrees d -> (exists_col d "bandwidth_usage" = true -> Forall (present d) (in_col "bandwidth_usage" usage_base)) ->
  createBandwidthUsageCollection d = (Ok tt, d') ->
  step_ok d d' (in_col "bandwidth_usage" usage_base) /\ forall m, m <> "bandwidth_usage"%string -> exists_col d' m = exists_col d m.
Proof.
  intros Ha Hold. unfold createBandwidthUsageCollection, try, find_col, save_col, gbind, gget, glift, gret, gfail.
  unfold exists_col in Hold. destruct (FindCollectionByNameOrId "bandwidth_usage" d) as [c|e] eqn:Hc.
  { lazy beta iota zeta delta [is_ok]. intros [= <-]. split; [|done]. split; [done|]. split; [done|by apply Hold]. }
  lazy beta iota zeta delta [is_ok]. destruct (FindCollectionByNameOrId "users" d) as [u|e2]; [|done].
  destruct (SaveCollection (usage_collection u) d) as [[[]|e3] d1] eqn:Hs; [|done]. intros [= <-].
  apply (created_step (usage_collection u)); [unfold exists_col; cbn; by rewrite Hc|done|done|vm_compute; reflexivity].
Qed.

Lemma same_schema d d' : survives now d d' -> (forall n, FindCollectionByNameOrId n d' = FindCollectionByNameOrId n d) -> agrees d ->
  step_ok d d' [] /\ forall m, exists_col d' m = exists_col d m.
Proof.
  intros Hrec Hs Ha. assert (forall n x, field_of d' n x = field_of d n x) as Hf by (intros n x; unfold field_of; by rewrite Hs).
  assert (forall m, exists_col d' m = exists_col d m) as Hc by (intros m; unfold exists_col; by rewrite Hs).
  split; [|done]. split; [split; [split; [intros n x f; by rewrite Hf|intros n c; rewrite Hs; eauto]|done]|]. split; [|done]. intros n f g Hin. rewrite Hf. by apply Ha.
Qed.

Lemma backfill_each_survives rs d d' r : NoDup (r_id <$> rs) ->
  Forall (fun u => r_coll u = "users"%string /\ r_id u <> ""%string /\ FindRecordById "users" (r_id u) d = Ok u) rs ->
  backfill_each now rs d = (r, d') -> survives now d d'.
Proof.
  revert d. induction rs as [|u rs IH]; intros d Hnd Hall; cbn [backfill_each]; [by intros [= _ <-]|].
  rewrite fmap_cons in Hnd. apply NoDup_cons in Hnd as [Hnew Hnd]. apply Forall_cons_1 in Hall as [(Hc&Hi&Hu) Hall].
  destruct (unset u) eqn:Hun; [|by apply IH]. unfold try, gbind, gfail. destruct (Save (backfilled now u) d) as [[r1|e] d1] eqn:Hs.
  2: { apply save_refused in Hs as ->. by intros [= _ <-]. }
  intros Hb. destruct (save_stored _ _ _ _ Hs Hi) as [(s&Hf&Hk) Ho]. unfold backfilled in Hf, Ho. cbn [rset r_coll r_id] in Hf, Ho. rewrite Hc in *.
  etrans; [|eapply IH; [done| |exact Hb]].
  - intros n i r0 Hr0. destruct (decide ((n, i) = ("users"%string, r_id u))) as [[= -> ->]|Hne]; [|exists r0; rewrite Ho by done; by split; [|left]].
    rewrite Hu in Hr0. injection Hr0 as <-. exists s. auto.
  - rewrite Forall_forall in Hall |- *. intros u' Hin. destruct (Hall u' Hin) as (?&?&?). split; [done|]. split; [done|]. rewrite Ho; [done|].
    intros [= Hid]. apply Hnew. rewrite <- Hid. by apply list_elem_of_fmap_2.
Qed.

Lemma backfill_survives d d' r : backfillExistingUsers now d = (r, d') -> survives now d d'.
Proof.
  unfold backfillExistingUsers, try, gbind, gget, glift, gfail. destruct (FindUsersWithoutQuota 500 d) as [rs|e] eqn:Hrs; [|by intros [= _ <-]].
  destruct (users_spec _ _ _ Hrs) as (_&Hnd&Hall). by apply backfill_each_survives.
Qed.

Lemma backfill_each_schema rs d d' r : backfill_each now rs d = (r, d') -> forall n, FindCollectionByNameOrId n d' = FindCollectionByNameOrId n d.
Proof.
  revert d. induction rs as [|u rs IH]; intros d; cbn [backfill_each]; [by intros [= _ <-]|]. destruct (unset u); [|apply IH].
  unfold try, gbind, gfail. destruct (Save (backfilled now u) d) as [[r1|e] d1] eqn:Hs.
  - intros Hb n. rewrite (IH _ Hb). by eapply save_schema.
  - intros [= _ <-] n. by eapply save_schema.
Qed.

Lemma backfill_schema d d' r : backfillExistingUsers now d = (r, d') -> forall n, FindCollectionByNameOrId n d' = FindCollectionByNameOrId n d.
Proof.
  unfold backfillExistingUsers, try, gbind, gget, glift, gfail. destruct (FindUsersWithoutQuota 500 d) as [rs|e]; [apply backfill_each_schema|by intros [= _ <-]].
Qed.

Lemma on_sessions_ok fs d d' : agrees d -> on_sessions fs d = (Ok tt, d') ->
  bool_decide (NoDup (sf_Name <$> fs)) && fits_expected "sessions" fs
    && forallb (fun f => bool_decide (sf_Name f ∈ sf_Name <$> fs) && bool_decide (("sessions"%string, f) ∈ expected)) fs = true ->
  step_ok d d' (in_col "sessions" fs) /\ exists_col d "sessions" = true.
Proof.
  intros Ha. unfold on_sessions, find_col, gbind, gget, glift. destruct (FindCollectionByNameOrId "sessions" d) as [c|e] eqn:Hc; [|done].
  intros Hs Hok. split; [by eapply add_missing_step|unfold exists_col; by rewrite Hc].
Qed.

(** One after the other: where a run that succeeds went through. *)
Lemma then_ok {A} (p : GoM db db_error A) (k : A -> GoM db db_error unit) d d' : gbind p k d = (Ok tt, d') -> exists a d1, p d = (Ok a, d1) /\ k a d1 = (Ok tt, d').
Proof. unfold gbind. destruct (p d) as [[a|e] d1]; [eauto|done]. Qed.


Lemma agrees_compute d : forallb (fun e => match field_of d e.1 (sf_Name e.2) with Some g => alike e.2 g | None => true end) expected = true -> agrees d.
Proof. rewrite forallb_forall. intros Hall n f g Hin Hg. apply list_elem_of_In, Hall in Hin. cbn [fst snd] in Hin. by rewrite Hg in Hin. Qed.
Lemma present_compute d es : forallb (fun e => match field_of d e.1 (sf_Name e.2) with Some g => alike e.2 g | None => false end) es = true -> Forall (present d) es.
Proof.
  rewrite forallb_forall, Forall_forall. intros Hall e Hin. apply list_elem_of_In, Hall in Hin. unfold present.
  destruct (field_of d e.1 (sf_Name e.2)) as [g|]; [by exists g|done].
Qed.

(** ** Records that fit *)

Definition value_fits (v : value) (k : field_kind) : bool :=
  match v, k with
  | VStr _, (TextField | RelationField _ _ _) | VBool _, BoolField | (VFloat _ | VInt _), NumberField | VTime _, (DateField | AutodateField _ _) => true
  | _, _ => false
  end.
(** Every field the record sets is one of its collection, of the value's type. *)
Definition fits (d : db) (r : record) : Prop :=
  forall k v, r_fields r !! k = Some v -> exists f, field_of d (r_coll r) k = Some f /\ value_fits v (sf_Kind f) = true.
Definition settable (n k : string) (v : value) : bool :=
  existsb (fun e => bool_decide (e.1 = n) && bool_decide (sf_Name e.2 = k) && value_fits v (sf_Kind e.2)) expected.

Lemma fits_new d n : fits d (NewRecord n).
Proof. by intros k v Hv. Qed.

Lemma fits_rset d r k v : Forall (present d) expected -> fits d r -> settable (r_coll r) k v = true -> fits d (rset k v r).
Proof.
  intros Hd Hr Hset k' v' Hk. cbn [rset r_fields r_coll] in *. destruct (decide (k = k')) as [->|Hne].
  - rewrite lookup_insert_eq in Hk. injection Hk as <-. apply existsb_exists in Hset as (e&Hin&Hset).
    apply andb_true_iff in Hset as [[Hn%bool_decide_eq_true Hname%bool_decide_eq_true]%andb_true_iff Hv].
    rewrite Forall_forall in Hd. apply list_elem_of_In, Hd in Hin as (g&Hg&Ha). rewrite Hn, Hname in Hg. exists g. split; [done|].
    unfold alike in Ha. apply andb_true_iff in Ha as [_ Ha]. destruct (sf_Kind e.2), (sf_Kind g), v; cbn in *; try done; by apply bool_decide_eq_true in Ha.
  - rewrite lookup_insert_ne in Hk by done. by apply Hr.
Qed.

(** The records the server makes or changes, whatever it puts into them. *)
Record server_records_fit (d : db) : Prop := {
  fit_session : forall code key agent expires only pub type prot, fits d (session_record code key agent expires only pub type prot);
  fit_key : forall acct label, fits d (key_record acct label);
  fit_hash : forall r hash, r_coll r = "api_keys"%string -> fits d r -> fits d (rset "key_hash" (VStr hash) r);
  fit_used : forall r t, r_coll r = "api_keys"%string -> fits d r -> fits d (rset "last_used_at" (VTime t) r);
  fit_user : forall cfg now r, r_coll r = "users"%string -> fits d r -> fits d (new_user cfg now r);
  fit_backfill : forall now r, r_coll r = "users"%string -> fits d r -> fits d (backfilled now r);
  fit_archive : forall u, fits d (archive_of u);
  fit_period : forall now r, r_coll r = "users"%string -> fits d r -> fits d (reset_period now r) }.

Lemma records_fit d : Forall (present d) expected -> server_records_fit d.
Proof.
  intros Hd. split; intros; unfold session_record, key_record, new_user, backfilled, archive_of, reset_period; cbv zeta.
  1: destruct expires.
  all: repeat (apply fits_rset; [done| |cbn [rset r_coll]; repeat match goal with E : r_coll _ = _ |- _ => rewrite E end; reflexivity]); first [done|apply fits_new].
Qed.

(** C22 (type). The migrations lead to the schema the server relies on: from a
    data directory of any older release, empty or with collections as an
    earlier version made them, a run of the six that succeeds leaves every
    collection and field the handlers use, of the right type and required where
    they always set it.  The collections that were there keep their fields, API
    rules and indexes, and the records keep their content, but that a user whose
    quota is 0 may be given the default quota and a new period.  Every record the
    server then makes, of a share, a key, a user or a period, sets only fields of
    its collection, to values of their types. *)
Theorem migrations_reach_schema d d' : agrees d -> older d -> migrate now d = (Ok tt, d') ->
  extends d d' /\ survives now d d' /\ Forall (present d') expected /\ server_records_fit d'.
Proof.
  intros Ha Hold Hm. unfold migrate in Hm.
  apply then_ok in Hm as ([]&d1&Hr1&Hm). destruct (create_ok _ _ Ha Hold Hr1) as (Hs1&Hu1&Hsess1).
  apply then_ok in Hm as ([]&d2&Hr2&Hm).
  destruct (timestamps_ok d1 d2 (proj1 (proj2 Hs1))) as [Hs2 Ho2]; [eapply present_col; [apply Hs1|done]|done|].
  apply then_ok in Hm as ([]&d5&H345&Hm). unfold AddQuotaFields in H345.
  apply then_ok in H345 as ([]&d3&Hr3&H345). destruct (quota_ok d2 d3 (proj1 (proj2 Hs2)) Hr3) as [Hs3 Ho3].
  apply then_ok in H345 as ([]&d4&Hr4&Hr5).
  destruct (usage_ok d3 d4 (proj1 (proj2 Hs3))) as [Hs4 Ho4]; [|done|].
  { rewrite Ho3, Ho2, Hu1 by done. intros Hex. pose proof (step_trans _ _ _ _ _ (step_trans _ _ _ _ _ Hs1 Hs2) Hs3) as ([Hx _]&_&_).
    eapply Forall_impl; [by apply Hold|]. intros e. by apply extends_present. }
  destruct (same_schema d4 d5 (backfill_survives _ _ _ Hr5) (backfill_schema _ _ _ Hr5) (proj1 (proj2 Hs4))) as [Hs5 Ho5].
  apply then_ok in Hm as ([]&d6&Hr6&Hm). destruct (on_sessions_ok _ _ _ (proj1 (proj2 Hs5)) Hr6) as [Hs6 Hex]; [vm_compute; reflexivity|].
  apply then_ok in Hm as ([]&d7&Hr7&Hm). destruct (on_sessions_ok _ _ _ (proj1 (proj2 Hs6)) Hr7) as [Hs7 _]; [vm_compute; reflexivity|].
  destruct (on_sessions_ok _ _ _ (proj1 (proj2 Hs7)) Hm) as [Hs8 _]; [vm_compute; reflexivity|].
  rewrite Ho5, Ho4, Ho3, Ho2 in Hex by done. assert (step_ok d1 d1 (in_col "sessions" sessions_base)) as Hs1' by (split; [by split|]; split; [apply Hs1|by apply Hsess1]).
  pose proof (step_trans _ _ _ _ _ Hs1 (step_trans _ _ _ _ _ Hs1' (step_trans _ _ _ _ _ Hs2 (step_trans _ _ _ _ _ Hs3 (step_trans _ _ _ _ _ Hs4
    (step_trans _ _ _ _ _ Hs5 (step_trans _ _ _ _ _ Hs6 (step_trans _ _ _ _ _ Hs7 Hs8)))))))) as ([Hx Hsv]&_&Hp).
  split; [done|]. split; [done|]. cut (Forall (present d') expected); [intros Hd; split; [done|by apply records_fit]|].
  rewrite Forall_forall in Hp |- *. intros e He. apply Hp. revert e He. apply Forall_forall. vm_compute. repeat constructor.
Qed.
End upgrade.

(** * What the schema refuses *)

Section idle.
Context `{SchemaLaws}.

(** C21 (error). A required number may not be zero, and a period's archive has
    the bytes of the period as a required number: an account that used nothing
    in a period that is over never gets a new one.  Charging it for relayed
    bytes fails, every time, and changes nothing: its usage stays at zero and
    its quota is never reached. *)
Theorem idle_period_never_ends acct bytes now u w :
  Forall (present (w_db w)) expected -> FindRecordById "users" acct (w_db w) = Ok u ->
  IsZero (GetDateTime u "quota_period_end") = false -> GetDateTime u "quota_period_end" < now ->
  int64_of_f64 (f64_mul (GetFloat u "current_period_usage_gb") GB) = 0 ->
  returns (ApplyRelayBytes acct bytes now) (fun r w' => is_ok r = false /\ w_db w' = w_db w) w.
Proof.
  intros Hd Hu Hz Hpast Hidle. apply tot_bind, tot_db_get. rewrite Hu. cbv zeta. rewrite Hz. unfold After. rewrite (proj2 (Z.ltb_lt _ _)) by done. cbn [negb andb].
  apply tot_bind, tot_bind, tot_db_get. destruct (FindCollection "bandwidth_usage" (w_db w)) as [[]|e]; [|by repeat apply tot_ret].
  apply tot_bind, tot_db_act. destruct (Save (archive_of u) (w_db w)) as [[r|e] d1] eqn:Hs; cbn [fst snd].
  - exfalso. rewrite Forall_forall in Hd.
    destruct (Hd ("bandwidth_usage", mkField "bytes_transferred" NumberField true false)%string) as (g&Hg&Ha); [apply list_elem_of_In; vm_compute; tauto|].
    unfold alike in Ha. apply andb_true_iff in Ha as [Hreq Hkind]. cbn [fst snd sf_Required sf_Kind sf_Name] in *.
    eapply (save_required _ _ _ _ _ "bytes_transferred"%string Hs Hg).
    + destruct (sf_Kind g); try done; by apply bool_decide_eq_true in Hkind.
    + by apply eqb_prop in Hreq.
    + unfold archive_of. cbn [rset r_fields]. by rewrite lookup_insert_eq, Hidle.
  - apply save_refused in Hs as ->. repeat apply tot_ret. cbn. by destruct w.
Qed.
End idle.

(** * In memory *)

(** The in-memory database with its collections, which refuses blank required
    values. *)
Abbreviation mem_schema := (memdb * gmap string collection)%type.
Definition blank (v : option value) : bool :=
  match v with
  | None | Some (VStr "") | Some (VInt 0) | Some (VFloat (S754_zero _)) => true
  | Some (VTime t) => IsZero t
  | _ => false
  end.
(** A record's id is filled in when it is saved. *)
Definition refused (f : schema_field) (v : option value) : bool :=
  sf_Required f && blank v && match sf_Kind f with TextField => negb (bool_decide (sf_Name f = "id"%string)) | _ => true end.
Definition blank_fields (r : record) (d : mem_schema) : list schema_field :=
  match d.2 !! r_coll r with
  | Some c => filter (fun f => Is_true (refused f (r_fields r !! sf_Name f))) (c_Fields c)
  | None => []
  end.
Definition lift {A} (f : memdb -> A * memdb) (d : mem_schema) : A * mem_schema := let '(a, m) := f d.1 in (a, (m, d.2)).

#[local] Instance schema_pocketbase : PocketBase := {|
  db := mem_schema;
  FindCollection n d := match d.2 !! n with Some _ => Ok tt | None => Err "not found"%string end;
  FindRecordById c i d := mem_find c i d.1;
  FindRecords c q n d := Db.FindRecords (PocketBase := mem_pocketbase) c q n d.1;
  FindNewest c q n d := Db.FindNewest (PocketBase := mem_pocketbase) c q n d.1;
  ExpandedOne _ _ := None;
  Save r d := match blank_fields r d with [] => lift (mem_save r) d | _ => (Err "cannot be blank"%string, d) end;
  Delete r := lift (mem_delete r);
  SelectOwner code d := Db.SelectOwner (PocketBase := mem_pocketbase) code d.1;
  MoveSessions new old := lift (Db.MoveSessions (PocketBase := mem_pocketbase) new old);
  AddUsage inc i := lift (Db.AddUsage (PocketBase := mem_pocketbase) inc i) |}.
Definition mem_collection (n : string) (d : mem_schema) : result collection string :=
  match d.2 !! n with
  | Some c => if bool_decide (c_Name c = n) then Ok c else Err "renamed"%string
  | None => Err "sql: no rows in result set"%string
  end.
Definition mem_save_collection (c : collection) (d : mem_schema) : result unit string * mem_schema :=
  let i := if bool_decide (c_Id c = ""%string) then ("pbc_" +:+ c_Name c)%string else c_Id c in
  (Ok tt, (d.1, <[c_Name c := mkCollection i (c_Name c) (c_Fields c) (c_Indexes c) (c_Rules c)]> d.2)).
Definition mem_unset (n : nat) (d : mem_schema) : result (list record) string :=
  Ok (take n (filter (fun r => Is_true (f64_ge (S754_zero false) (GetFloat r "relay_quota_gb"))) (mem_records "users" d.1))).
#[local] Instance schema_collections : @Schema schema_pocketbase :=
  @Build_Schema schema_pocketbase mem_collection mem_save_collection mem_unset.

#[local] Instance schema_collections_laws : @SchemaLaws schema_pocketbase schema_collections.
Proof.
  split.
  - intros n [m cs] c. cbn. unfold mem_collection. cbn [snd]. destruct (cs !! n); [|done]. case_bool_decide; [|done]. by intros [= <-].
  - intros c [m cs] d'. cbn. intros [= <-]. unfold mem_collection. cbn. split; [eexists; by rewrite lookup_insert_eq, bool_decide_true|].
    intros n Hn. by rewrite lookup_insert_ne.
  - intros c [m cs] d' [= <-] _ n i r Hr. by exists r.
  - by intros c d e d'.
  - intros r [m cs] x d' Hs n. cbn in *. destruct (blank_fields r (m, cs)); [|by injection Hs as <- <-]. unfold lift in Hs. cbn in Hs.
    destruct (mem_save r m). by injection Hs as <- <-.
  - intros r [m cs] e d' Hs. cbn in Hs. destruct (blank_fields r (m, cs)); [|by injection Hs as _ <-]. unfold lift in Hs. cbn in Hs.
    unfold mem_save in Hs. repeat case_match; by simplify_eq.
  - intros r [m cs] r' d' Hs Hi. cbn in Hs. destruct (blank_fields r (m, cs)); [|done]. unfold lift in Hs. cbn in Hs.
    destruct (mem_save r m) as [x m'] eqn:Hm. injection Hs as -> <-.
    destruct (@save_ok mem_pocketbase mem_laws _ _ _ _ Hm) as (_&_&Hid&_&Hst&Ho). rewrite (Hid Hi) in Hst, Ho. by split.
  - intros r [m cs] r' d' f k Hs Hf Hkind Hreq Hv. cbn in *. destruct (blank_fields r (m, cs)) as [|g l] eqn:Hb; [|done].
    unfold field_of in Hf. cbn in Hf. unfold mem_collection in Hf. cbn [snd] in Hf. unfold blank_fields in Hb. cbn in Hb. destruct (cs !! r_coll r) as [c|]; [|done]. case_bool_decide; [|done].
    apply find_some in Hf as [Hin Hname%bool_decide_eq_true]. apply list_elem_of_In in Hin.
    assert (f ∈ ([] : list schema_field)) as Hbad; [|by apply not_elem_of_nil in Hbad]. rewrite <- Hb. apply list_elem_of_filter. split; [|done].
    unfold refused. by rewrite Hreq, Hname, Hv, Hkind.
  - intros n [m cs] rs [= <-]. split; [rewrite length_take; lia|]. split.
    + eapply sublist_NoDup; [exact (all_nodup "users" m _ eq_refl)|]. apply fmap_sublist. etrans; [apply sublist_take|apply sublist_filter].
    + apply Forall_take, Forall_forall. intros r [_ Hr]%list_elem_of_filter. apply mem_records_spec in Hr. pose proof Hr as (_&Hc&_&Hi)%mem_find_ok. auto.
Qed.

(** ** Witnesses *)

(** A new data directory: only the users' collection, with one user. *)
Definition demo_users : collection :=
  mkCollection "_pb_users_auth_" "users" [mkField "id" TextField true true; mkField "email" TextField true true] [] no_rules.
Definition demo_fresh : mem_schema := (mkMem {[("users", "u1")%string := {["email"%string := VStr "a@b"]}]} 0, {["users"%string := demo_users]}).
Definition demo_migrated : mem_schema := (migrate 5 demo_fresh).2.

Lemma migrations_reach_schema_witness : migrate 5 demo_fresh = (Ok tt, demo_migrated) /\
  extends demo_fresh demo_migrated /\ survives 5 demo_fresh demo_migrated /\ Forall (present demo_migrated) expected /\ server_records_fit demo_migrated.
Proof.
  assert (migrate 5 demo_fresh = (Ok tt, demo_migrated)) as Hrun by (vm_compute; reflexivity).
  split; [exact Hrun|]. apply (@migrations_reach_schema schema_pocketbase schema_collections schema_collections_laws 5 demo_fresh demo_migrated).
  - apply (@agrees_compute schema_pocketbase schema_collections). vm_compute. reflexivity.
  - split; [discriminate|]. split; [reflexivity|discriminate].
  - exact Hrun.
Defined.

(** Its period ended at 3, without anything used. *)
Definition demo_idle_fields : gmap string value := <["quota_period_end"%string := VTime 3]> ∅.
Definition demo_idle_world : World :=
  mkWorld Hub.New (Registry.NewRegistry (7 * Second))
    ((mkMem {[("users", "alice")%string := demo_idle_fields]} 0, demo_migrated.2) : @db schema_pocketbase) ∅ [] 5 [] [].

Lemma idle_period_never_ends_witness :
  returns (ApplyRelayBytes "alice" 1000 5) (fun r w' => is_ok r = false /\ w_db w' = w_db demo_idle_world) demo_idle_world.
Proof.
  apply (@idle_period_never_ends schema_pocketbase schema_collections schema_collections_laws "alice" 1000 5 (mkRecord "users" "alice" demo_idle_fields)); try (vm_compute; reflexivity).
  apply (@present_compute schema_pocketbase schema_collections). vm_compute. reflexivity.
Defined.
