(* ===== verification/Shaper.v ===== *)
(** The shaped link of the measuring program (agent/cmd/benchdirect/shim.go):
    a bottleneck with delay, loss, jitter, a rate and a bounded queue, shared by
    flows of datagrams between two peers each.  Its critical sections, its drain
    loop as a state machine, and the system they run in with time and the
    callers; then what the link promises, and where it gets stuck. *)

From Stdlib Require Import Floats.SpecFloat.
From S2P Require Import Prelude Float64 Json.
#[local] Open Scope Z_scope.

(** * State *)

(** What [sameUDPAddr] compares of an address. *)
Record addr := mkAddr { a_IP : Z; a_Port : Z }.
#[export] Instance addr_dec : EqDecision addr.
Proof. solve_decision. Defined.

(** [agent/cmd/benchdirect/shim.go:14-22] flowState *)
Record flowState := mkFlow { fl_a : option addr; fl_b : option addr; forwarded : Z; writeErrs : Z; dropped : Z }.
(** With where it came from; the code keeps where it goes.
    [agent/cmd/benchdirect/shim.go:24-29] packet *)
Record packet := mkPacket { pk_data : bytes; pk_flow : nat; pk_src : addr; pk_addr : addr; pk_due : Z }.
(** [agent/cmd/benchdirect/shim.go:32-37] rateLimiter *)
Record rateLimiter := mkLimiter { rl_rate : float64; rl_burst : float64; rl_tokens : float64; rl_last : Z }.

(** [agent/cmd/benchdirect/shim.go:72-89] Shaper *)
Record Shaper := mkShaper {
  delay : Z; loss : float64; jitter : Z; queue : list packet; notify : bool; closed : bool;
  limiter : option nat; rateBps : Z; queueOverride : Z; maxQueueBytes : Z; queueBytes : Z; flows : list flowState }.

(** Where the drain loop is. *)
Inductive drain :=
| Idle | Popping
| Waiting (p : packet) (l : option nat) (until : Z) | Checking (p : packet) (l : option nat)
| Taking (p : packet) (l : nat) | Sleeping (p : packet) (l : nat) (until : Z)
| Writing (p : packet)
| Stopped (p : option packet).

(** [limiters] are what pointers to a limiter point to; [accepted] and [written]
    are all datagrams ever queued and ever written, in order. *)
Record World := mkWorld { sh : Shaper; limiters : list rateLimiter; dr : drain; now : Z; accepted : list packet; written : list packet }.

Definition set_queue q n s := mkShaper (delay s) (loss s) (jitter s) q (notify s) (closed s) (limiter s) (rateBps s) (queueOverride s) (maxQueueBytes s) n (flows s).
Definition set_notify b s := mkShaper (delay s) (loss s) (jitter s) (queue s) b (closed s) (limiter s) (rateBps s) (queueOverride s) (maxQueueBytes s) (queueBytes s) (flows s).
Definition set_flows f s := mkShaper (delay s) (loss s) (jitter s) (queue s) (notify s) (closed s) (limiter s) (rateBps s) (queueOverride s) (maxQueueBytes s) (queueBytes s) f.
Definition set_jitter j s := mkShaper (delay s) (loss s) j (queue s) (notify s) (closed s) (limiter s) (rateBps s) (queueOverride s) (maxQueueBytes s) (queueBytes s) (flows s).
Definition set_rate l r s := mkShaper (delay s) (loss s) (jitter s) (queue s) (notify s) (closed s) l r (queueOverride s) (maxQueueBytes s) (queueBytes s) (flows s).
Definition set_limits o m s := mkShaper (delay s) (loss s) (jitter s) (queue s) (notify s) (closed s) (limiter s) (rateBps s) o m (queueBytes s) (flows s).
Definition set_closed s := mkShaper (delay s) (loss s) (jitter s) (queue s) (notify s) true (limiter s) (rateBps s) (queueOverride s) (maxQueueBytes s) (queueBytes s) (flows s).

(** * The rate limiter *)

(** [agent/cmd/benchdirect/shim.go:39-42] newRateLimiter *)
Definition newRateLimiter (bytesPerSec : float64) (now : Z) : rateLimiter :=
  let burst := f64_mul bytesPerSec (f64_div (f64_of_Z 1) (f64_of_Z 10)) in mkLimiter bytesPerSec burst burst now.
(** [Duration.Seconds]. *)
Definition seconds (d : Z) : float64 :=
  f64_add (f64_of_Z (Z.quot d Second)) (f64_div (f64_of_Z (Z.rem d Second)) (f64_of_Z 1000000000)).
(** One turn of the loop: whether the tokens were there, and how long to sleep.
    [agent/cmd/benchdirect/shim.go:44-64] take *)
Definition take_turn (n : Z) (now : Z) (r : rateLimiter) : bool * Z * rateLimiter :=
  let tokens := f64_add (rl_tokens r) (f64_mul (seconds (now - rl_last r)) (rl_rate r)) in
  let tokens := if f64_gt tokens (rl_burst r) then rl_burst r else tokens in
  if f64_ge tokens (f64_of_Z n) then (true, 0, mkLimiter (rl_rate r) (rl_burst r) (f64_sub tokens (f64_of_Z n)) now)
  else
    let deficit := f64_sub (f64_of_Z n) tokens in
    (false, int64_of_f64 (f64_mul (f64_div deficit (rl_rate r)) (f64_of_Z Second)), mkLimiter (rl_rate r) (rl_burst r) tokens now).
Definition no_rate (r : rateLimiter) : bool := f64_ge (S754_zero false) (rl_rate r).

(** * The shaper's operations *)

(** [agent/cmd/benchdirect/shim.go:92-105] NewShaper *)
Definition NewShaper (delay : Z) (loss : float64) : result Shaper string :=
  if f64_lt loss (S754_zero false) || f64_gt loss (f64_of_Z 1) then Err "loss must be between 0 and 1"%string
  else Ok (mkShaper delay loss 0 [] false false None 0 0 0 0 []).
(** [agent/cmd/benchdirect/shim.go:117-140] NewFlow *)
Definition NewFlow (s : Shaper) : result Shaper string :=
  if closed s then Err "shaper closed"%string else Ok (set_flows (flows s ++ [mkFlow None None 0 0 0]) s).
(** [agent/cmd/benchdirect/shim.go:144-148] SetPeerA *)
Definition SetPeerA (f : nat) (a : addr) (s : Shaper) : Shaper :=
  set_flows (alter (fun x => mkFlow (Some a) (fl_b x) (forwarded x) (writeErrs x) (dropped x)) f (flows s)) s.
(** [agent/cmd/benchdirect/shim.go:156-160] SetJitter *)
Definition SetJitter (j : Z) (s : Shaper) : Shaper := set_jitter j s.
(** [agent/cmd/benchdirect/shim.go:188-199] applyQueueLocked *)
Definition applyQueueLocked (s : Shaper) : Shaper :=
  set_limits (queueOverride s)
    (if 0 <? queueOverride s then queueOverride s else if 0 <? rateBps s then Z.quot (rateBps s) 10 else 0) s.
(** [agent/cmd/benchdirect/shim.go:162-175] SetBandwidth *)
Definition SetBandwidth (bytesPerSec : Z) (w : World) : World :=
  if bytesPerSec <=? 0
  then mkWorld (applyQueueLocked (set_rate None 0 (sh w))) (limiters w) (dr w) (now w) (accepted w) (written w)
  else mkWorld (applyQueueLocked (set_rate (Some (length (limiters w))) bytesPerSec (sh w)))
         (limiters w ++ [newRateLimiter (f64_of_Z bytesPerSec) (now w)]) (dr w) (now w) (accepted w) (written w).
(** [agent/cmd/benchdirect/shim.go:177-186] SetQueueBytes *)
Definition SetQueueBytes (n : Z) (s : Shaper) : Shaper := applyQueueLocked (set_limits n (maxQueueBytes s) s).
(** [agent/cmd/benchdirect/shim.go:201-212] Stats *)
Definition Stats (s : Shaper) : Z * Z * Z :=
  foldl (fun '(f, e, d) x => (f + forwarded x, e + writeErrs x, d + dropped x)) (0, 0, 0) (flows s).

(** [agent/cmd/benchdirect/shim.go:214-216] sameUDPAddr *)
Definition sameUDPAddr (x y : option addr) : bool :=
  match x, y with Some x, Some y => bool_decide (a_Port x = a_Port y) && bool_decide (a_IP x = a_IP y) | _, _ => false end.

(** Where a datagram goes, and its flow, which may have learned its second peer.
    [agent/cmd/benchdirect/shim.go:243-260] ingest *)
Definition target_of (src : addr) (x : flowState) : option addr * flowState :=
  if sameUDPAddr (Some src) (fl_a x) then (fl_b x, x)
  else if sameUDPAddr (Some src) (fl_b x) then (fl_a x, x)
  else match fl_b x, fl_a x with
       | None, Some a => (Some a, mkFlow (fl_a x) (Some src) (forwarded x) (writeErrs x) (dropped x))
       | _, _ => (None, x)
       end.

(** [r1] and [r2] are what [rand.Float64] gives.
    [agent/cmd/benchdirect/shim.go:232-283] ingest *)
Definition ingest (f : nat) (src : addr) (data : bytes) (r1 r2 : float64) (w : World) : World :=
  let s := sh w in
  match flows s !! f with
  | None => w
  | Some x =>
      if closed s || f64_lt r1 (loss s) then w
      else
        let '(target, x') := target_of src x in
        let s := set_flows (<[f := x']> (flows s)) s in
        let keep s := mkWorld s (limiters w) (dr w) (now w) (accepted w) (written w) in
        match target with
        | None => keep s
        | Some target =>
            if (0 <? maxQueueBytes s) && (maxQueueBytes s <? queueBytes s + len data)
            then keep (set_flows (<[f := mkFlow (fl_a x') (fl_b x') (forwarded x') (writeErrs x') (dropped x' + 1)]> (flows s)) s)
            else
              let d := if 0 <? jitter s
                       then delay s + int64_of_f64 (f64_mul (f64_sub (f64_mul r2 (f64_of_Z 2)) (f64_of_Z 1)) (f64_of_Z (jitter s)))
                       else delay s in
              let p := mkPacket data f src target (now w + d) in
              let s' := set_queue (queue s ++ [p]) (queueBytes s + len data) s in
              let s' := if bool_decide (queue s = []) then set_notify true s' else s' in
              mkWorld s' (limiters w) (dr w) (now w) (accepted w ++ [p]) (written w)
        end
  end.

(** * The drain loop *)

Definition with_dr (d : drain) (w : World) : World := mkWorld (sh w) (limiters w) d (now w) (accepted w) (written w).
Definition with_sh (s : Shaper) (w : World) : World := mkWorld s (limiters w) (dr w) (now w) (accepted w) (written w).
Definition count_write (ok : bool) (p : packet) (s : Shaper) : Shaper :=
  set_flows (alter (fun x => if ok then mkFlow (fl_a x) (fl_b x) (forwarded x + 1) (writeErrs x) (dropped x)
                             else mkFlow (fl_a x) (fl_b x) (forwarded x) (writeErrs x + 1) (dropped x)) (pk_flow p) (flows s)) s.

(** The next thing it does; [stop] is what a [select] takes when the link is
    closed, [ok] how a write ends.  No result while it has to wait.
    [agent/cmd/benchdirect/shim.go:285-334] drainLoop *)
Definition drain_step (stop ok : bool) (w : World) : option World :=
  let s := sh w in
  match dr w with
  | Idle =>
      if stop && closed s then Some (with_dr (Stopped None) w)
      else if notify s then Some (with_dr Popping (with_sh (set_notify false s) w)) else None
  | Popping =>
      match queue s with
      | [] => Some (with_dr Idle w)
      | p :: q =>
          let w := with_sh (set_queue q (queueBytes s - len (pk_data p)) s) w in
          Some (with_dr (if now w <? pk_due p then Waiting p (limiter s) (pk_due p) else Checking p (limiter s)) w)
      end
  | Waiting p l until =>
      if stop && closed s then Some (with_dr (Stopped (Some p)) w)
      else if until <=? now w then Some (with_dr (Checking p l) w) else None
  | Checking p l =>
      if closed s then Some (with_dr (Stopped (Some p)) w)
      else Some (with_dr (match l with Some l => Taking p l | None => Writing p end) w)
  | Taking p l =>
      r ← limiters w !! l;
      if no_rate r then Some (with_dr (Writing p) w)
      else
        let '(got, sleep, r) := take_turn (len (pk_data p)) (now w) r in
        let w := mkWorld s (<[l := r]> (limiters w)) (dr w) (now w) (accepted w) (written w) in
        Some (with_dr (if got : bool then Writing p else Sleeping p l (now w + sleep)) w)
  | Sleeping p l until => if until <=? now w then Some (with_dr (Taking p l) w) else None
  | Writing p => Some (mkWorld (count_write ok p s) (limiters w) Popping (now w) (accepted w) (written w ++ [p]))
  | Stopped _ => None
  end.

(** * The system *)

Inductive event :=
| Tick (d : N) | Recv (f : nat) (src : addr) (data : bytes) (r1 r2 : float64) | Drain (stop ok : bool)
| DoNewFlow | DoSetPeerA (f : nat) (a : addr) | DoSetJitter (j : Z) | DoSetBandwidth (n : Z) | DoSetQueueBytes (n : Z)
| DoClose.
(** What [Close] does before it waits for the loops.
    [agent/cmd/benchdirect/shim.go:336-352] Close *)
Definition begin_close (s : Shaper) : Shaper := set_closed s.
Definition exec (e : event) (w : World) : option World :=
  match e with
  | Tick d => Some (mkWorld (sh w) (limiters w) (dr w) (now w + Z.of_N d) (accepted w) (written w))
  | Recv f src data r1 r2 => Some (ingest f src data r1 r2 w)
  | Drain stop ok => drain_step stop ok w
  | DoNewFlow => match NewFlow (sh w) with Ok s => Some (with_sh s w) | Err _ => Some w end
  | DoSetPeerA f a => Some (with_sh (SetPeerA f a (sh w)) w)
  | DoSetJitter j => Some (with_sh (SetJitter j (sh w)) w)
  | DoSetBandwidth n => Some (SetBandwidth n w)
  | DoSetQueueBytes n => Some (with_sh (SetQueueBytes n (sh w)) w)
  | DoClose => Some (with_sh (begin_close (sh w)) w)
  end.
Definition start (s : Shaper) (t : Z) : World := mkWorld s [] Idle t [] [].
Inductive reachable (w0 : World) : World -> Prop :=
| reach_start : reachable w0 w0
| reach_step e w w' : reachable w0 w -> exec e w = Some w' -> reachable w0 w'.
Fixpoint run (es : list event) (w : World) : option World :=
  match es with [] => Some w | e :: es' => w' ← exec e w; run es' w' end.

(** * What the link promises *)

Definition held (d : drain) : list packet :=
  match d with
  | Waiting p _ _ | Checking p _ | Taking p _ | Sleeping p _ _ | Writing p | Stopped (Some p) => [p]
  | Idle | Popping | Stopped None => []
  end.
Definition bytes_of (q : list packet) : Z := foldr (fun p n => len (pk_data p) + n) 0 q.
Lemma bytes_of_app q1 q2 : bytes_of (q1 ++ q2) = bytes_of q1 + bytes_of q2.
Proof. unfold bytes_of. induction q1 as [|p q1 IH]; cbn; [done|lia]. Qed.

Record inv (w : World) : Prop := {
  iv_order : written w ++ held (dr w) ++ queue (sh w) = accepted w;
  iv_bytes : queueBytes (sh w) = bytes_of (queue (sh w));
  iv_wake : dr w = Idle -> queue (sh w) <> [] -> notify (sh w) = true }.

Lemma inv_ingest f src data r1 r2 w : inv w -> inv (ingest f src data r1 r2 w).
Proof.
  intros [Ho Hb Hw]. unfold ingest. destruct (flows (sh w) !! f) as [x|]; [|by split]. destruct (_ || _); [by split|].
  destruct (target_of src x) as [[t|] x']; [|by split]. cbv zeta. destruct (_ && _); [by split|].
  set (p := mkPacket _ _ _ _ _). assert (pk_data p = data) as Hp by done. clearbody p.
  split.
  - cbn [written dr accepted sh]. rewrite <- Ho. case_bool_decide; cbn [queue set_queue set_notify]; by rewrite !app_assoc.
  - cbn [sh]. case_bool_decide; cbn; rewrite bytes_of_app; cbn; rewrite Hp; lia.
  - cbn [dr sh]. intros Hd _. case_bool_decide as Hq; [done|]. cbn in Hq |- *. by apply Hw.
Qed.

Lemma inv_drain stop ok w w' : inv w -> drain_step stop ok w = Some w' -> inv w'.
Proof.
  intros [Ho Hb Hw]. unfold drain_step. destruct (dr w) as [| |p l u|p l|p l|p l u|p|q] eqn:Hd; cbn [held] in Ho.
  - destruct (stop && closed (sh w)); [intros [= <-]; by split|]. destruct (notify (sh w)) eqn:Hn; [|done]. intros [= <-]. by split.
  - destruct (queue (sh w)) as [|p q] eqn:Hq; intros [= <-]; [split; cbn; rewrite ?Hq; done|].
    cbn in Hb.
    split; cbn; [by destruct (_ <? _)|unfold bytes_of; lia|by destruct (_ <? _)].
  - destruct (stop && closed (sh w)); [intros [= <-]; by split|]. destruct (u <=? now w); [|done]. intros [= <-]. by split.
  - destruct (closed (sh w)); intros [= <-]; [by split|]. by destruct l; split.
  - destruct (limiters w !! l) as [r|]; [|done]. cbn [mbind option_bind]. destruct (no_rate r); [intros [= <-]; by split|].
    destruct (take_turn _ _ r) as [[got sleep] r']. intros [= <-]. by destruct got; split.
  - destruct (u <=? now w); [|done]. intros [= <-]. by split.
  - intros [= <-]. split; cbn; [by rewrite <- Ho, <- app_assoc|done|done].
  - done.
Qed.

Lemma inv_exec e w w' : inv w -> exec e w = Some w' -> inv w'.
Proof.
  intros Hi. destruct e as [d|f src data r1 r2|stop ok| |f a|j|n|n|]; cbn [exec]; [..|by apply inv_drain| | | | | |]; try (intros [= <-]).
  - by destruct Hi; split.
  - by apply inv_ingest.
  - unfold NewFlow. destruct (closed (sh w)); intros [= <-]; by destruct Hi; split.
  - by destruct Hi; split.
  - by destruct Hi; split.
  - unfold SetBandwidth. destruct (n <=? 0); by destruct Hi; split.
  - by destruct Hi; split.
  - by destruct Hi; split.
Qed.

(** C40 (invariant). The link is a queue: whatever the jitter and however the
    senders, the settings and the drain loop interleave, what has been written,
    what the loop holds and what is queued are together, in this order, exactly
    the datagrams that were accepted, none twice and none before another, and
    the bytes counted are those queued.  No wake-up is lost either: the loop does
    not sleep while something is queued without being notified. *)
Theorem shaper_is_fifo d l s t w : NewShaper d l = Ok s -> reachable (start s t) w ->
  written w ++ held (dr w) ++ queue (sh w) = accepted w /\ queueBytes (sh w) = bytes_of (queue (sh w)) /\
  (dr w = Idle -> queue (sh w) <> [] -> notify (sh w) = true).
Proof.
  intros Hs Hr. assert (inv w) as [Ho Hb Hw]; [|done]. induction Hr as [|e w w' Hr IH He]; [|by eapply inv_exec].
  unfold NewShaper in Hs. destruct (_ || _); [done|]. by injection Hs as <-.
Qed.

(** ** A datagram that is too big for the limiter *)

Lemma SFcompare_lt_le x y z : SFltb x y = true -> SFleb y z = true -> SFltb x z = true.
Proof.
  unfold SFltb, SFleb, SFcompare.
  destruct x as [sx|sx| |sx mx ex], y as [sy|sy| |sy my ey], z as [sz|sz| |sz mz ez]; try done;
    try destruct sx; try destruct sy; try destruct sz; try done;
    repeat match goal with |- context [Z.compare ?a ?b] => destruct (Z.compare_spec a b) end; subst; try done; try lia;
    repeat match goal with |- context [Pos.compare_cont Eq ?a ?b] => change (Pos.compare_cont Eq a b) with (Pos.compare a b); destruct (Pos.compare_spec a b) end; subst; try done; try lia.
Qed.

(** The loop waits for the tokens of [p], which the limiter [l] cannot have. *)
Definition at_take (p : packet) (l : nat) (d : drain) : Prop := d = Taking p l \/ exists u, d = Sleeping p l u.
Definition too_big (p : packet) (r : rateLimiter) : Prop :=
  no_rate r = false /\ f64_lt (rl_burst r) (f64_of_Z (len (pk_data p))) = true.
Definition starved (p : packet) (l : nat) (w : World) : Prop :=
  at_take p l (dr w) /\ exists r, limiters w !! l = Some r /\ too_big p r.

Lemma take_starves n t r : f64_lt (rl_burst r) (f64_of_Z n) = true ->
  exists sleep r', take_turn n t r = (false, sleep, r') /\ rl_rate r' = rl_rate r /\ rl_burst r' = rl_burst r.
Proof.
  intros Hn. unfold take_turn. set (tokens := f64_add _ _). clearbody tokens.
  destruct (f64_gt tokens (rl_burst r)) eqn:Hcap.
  - assert (f64_ge (rl_burst r) (f64_of_Z n) = false) as ->; [|by repeat eexists].
    apply not_true_iff_false. intros Hge. pose proof (SFcompare_lt_le _ _ _ Hn Hge) as Hirr.
    clear -Hirr. unfold SFltb, SFcompare in Hirr. destruct (rl_burst r) as [b|b| |b m e]; try done; destruct b; try done;
      rewrite Z.compare_refl in Hirr; by (rewrite Pos.compare_cont_refl in Hirr || rewrite Pos.compare_refl in Hirr).
  - assert (f64_ge tokens (f64_of_Z n) = false) as ->; [|by repeat eexists].
    apply not_true_iff_false. intros Hge. pose proof (SFcompare_lt_le _ _ _ Hn Hge) as Hlt. unfold f64_gt in Hcap. congruence.
Qed.

Lemma starved_exec p l e w w' : starved p l w -> exec e w = Some w' -> starved p l w' /\ written w' = written w.
Proof.
  intros [Hd (r&Hr&Hbig)] He. assert (Hkeep : forall w1, dr w1 = dr w -> limiters w1 = limiters w -> written w1 = written w -> starved p l w1 /\ written w1 = written w).
  { intros w1 Hd1 Hl1 Hw1. split; [|done]. split; [by rewrite Hd1|]. rewrite Hl1. eauto. }
  destruct e as [d|f src data r1 r2|stop ok| |f a|j|n|n|]; cbn [exec] in He; try (injection He as <-; by apply Hkeep).
  - injection He as <-. apply Hkeep; unfold ingest; repeat case_match; done.
  - unfold drain_step in He. destruct Hd as [Hd|[u Hd]]; rewrite Hd in He.
    + rewrite Hr in He. cbn [mbind option_bind] in He. destruct Hbig as [Hrate Hburst]. rewrite Hrate in He.
      destruct (take_starves (len (pk_data p)) (now w) r Hburst) as (sleep&r'&Ht&Hr1&Hb1). rewrite Ht in He. injection He as <-.
      split; [|done]. split; [right; by eexists|]. exists r'. cbn. split; [apply list_lookup_insert_eq; by eapply lookup_lt_Some|].
      unfold too_big, no_rate. rewrite Hr1, Hb1. done.
    + destruct (u <=? now w); [|done]. injection He as <-. split; [|done]. split; [by left|]. eauto.
  - unfold NewFlow in He. destruct (closed (sh w)); injection He as <-; by apply Hkeep.
  - injection He as <-. unfold SetBandwidth. destruct (n <=? 0); [by apply Hkeep|]. split; [|done]. split; [done|]. exists r. split; [|done].
    cbn. by apply lookup_app_l_Some.
Qed.

(** Where the link stops for good: a datagram bigger than a
    tenth of a second of the rate never gets its tokens, which are capped there.
    Once the loop waits for them, nothing is ever written again, whatever time
    passes and whatever is received, set or closed; closing the link, which
    waits for the loop, does not return. *)
Theorem big_datagram_never_sent p l r w es w' : at_take p l (dr w) -> limiters w !! l = Some r -> no_rate r = false ->
  f64_lt (rl_burst r) (f64_of_Z (len (pk_data p))) = true -> run es w = Some w' ->
  written w' = written w /\ forall q, dr w' <> Stopped q.
Proof.
  intros Hd Hr Hrate Hbig. assert (starved p l w) as Hs by (split; [done|exists r; done]). clear Hd Hr Hrate Hbig. revert w Hs.
  induction es as [|e es IH]; intros w Hs; cbn [run].
  - intros [= <-]. split; [done|]. intros q Hq. destruct Hs as [[Hd|[u Hd]] _]; congruence.
  - destruct (exec e w) as [w1|] eqn:He; [|done]. cbn [mbind option_bind]. intros Hrun. destruct (starved_exec _ _ _ _ _ Hs He) as [Hs1 Hw].
    destruct (IH _ Hs1 Hrun) as [Hw1 Hq]. split; [congruence|done].
Qed.

(** * Witnesses *)

Definition demo_A : addr := mkAddr 1 5000.
Definition demo_B : addr := mkAddr 1 6000.
Definition demo_link : Shaper := mkShaper 0 (S754_zero false) 0 [] false false None 0 0 0 0 [].
(** 8000 bytes a second, a queue of 5000, and a datagram of 1200 bytes. *)
Definition demo_setup : list event :=
  [DoNewFlow; DoSetPeerA 0 demo_A; DoSetBandwidth 8000; DoSetQueueBytes 5000;
   Recv 0 demo_B (replicate 1200 x00) (S754_zero false) (S754_zero false); Drain false true; Drain false true; Drain false true].
Definition demo_stuck : World := default (start demo_link 0) (run demo_setup (start demo_link 0)).

Lemma run_reachable es w0 w w' : reachable w0 w -> run es w = Some w' -> reachable w0 w'.
Proof.
  revert w. induction es as [|e es IH]; intros w Hw; cbn [run]; [by intros [= <-]|]. destruct (exec e w) as [w1|] eqn:He; [|done].
  cbn [mbind option_bind]. apply IH. by eapply reach_step.
Qed.

Lemma shaper_is_fifo_witness : NewShaper 0 (S754_zero false) = Ok demo_link /\ length (accepted demo_stuck) = 1%nat /\
  written demo_stuck ++ held (dr demo_stuck) ++ queue (sh demo_stuck) = accepted demo_stuck /\
  queueBytes (sh demo_stuck) = bytes_of (queue (sh demo_stuck)) /\
  (dr demo_stuck = Idle -> queue (sh demo_stuck) <> [] -> notify (sh demo_stuck) = true).
Proof.
  split; [reflexivity|]. split; [vm_compute; reflexivity|].
  apply (shaper_is_fifo 0 (S754_zero false) demo_link 0 demo_stuck); [reflexivity|].
  apply (run_reachable demo_setup _ (start demo_link 0)); [constructor|]. vm_compute. reflexivity.
Defined.

Definition demo_later : list event := [Drain false true; Tick 10000000000; Drain false true; DoClose; Drain true true].
Lemma big_datagram_never_sent_witness :
  exists p w', dr demo_stuck = Taking p 0 /\ run demo_later demo_stuck = Some w' /\ written w' = written demo_stuck /\ forall q, dr w' <> Stopped q.
Proof.
  destruct (run demo_later demo_stuck) as [w'|] eqn:Hrun; [|vm_compute in Hrun; discriminate Hrun].
  exists (mkPacket (replicate 1200 x00) 0 demo_B demo_A 0), w'. assert (dr demo_stuck = Taking (mkPacket (replicate 1200 x00) 0 demo_B demo_A 0) 0) as Hd by (vm_compute; reflexivity).
  split; [exact Hd|]. split; [reflexivity|].
  destruct (limiters demo_stuck !! 0%nat) as [r|] eqn:Hr; [|vm_compute in Hr; discriminate Hr].
  apply (big_datagram_never_sent (mkPacket (replicate 1200 x00) 0 demo_B demo_A 0) 0 r demo_stuck demo_later w').
  - left. exact Hd.
  - exact Hr.
  - vm_compute in Hr. injection Hr as <-. vm_compute. reflexivity.
  - vm_compute in Hr. injection Hr as <-. vm_compute. reflexivity.
  - exact Hrun.
Defined.
