(* ===== verification/Bench.v ===== *)
(** The measuring program (agent/cmd/benchdirect) besides its shaped link
    (Shaper.v): sizes on the command line, the checks of a run, shards and
    shapers, the pump, the rewriting of candidates, the pages' server, the
    connection it gives the transfer manager, and the figures it reports.
    Starting the browser and the WebRTC connections is not modelled. *)

From Stdlib Require Import Ascii Floats.SpecFloat.
From stdpp Require Import pretty.
From S2P Require Import Prelude GoText Float64 Conc Json Lanes Shaper.
#[local] Open Scope Z_scope.

(** * The command line *)

Definition max_int64 : Z := 2 ^ 63 - 1.
Definition wrap64 (z : Z) : Z := (z + 2 ^ 63) mod 2 ^ 64 - 2 ^ 63.
(** [strings.ToUpper] of ASCII text. *)
Definition ToUpper : string -> string := str_map (fun c => String (if in_range 97 122 c then ascii_of_nat (nat_of_ascii c - 32) else c) "").
Definition units : list (string * Z) :=
  [("KIB", 1024); ("MIB", 1048576); ("GIB", 1073741824); ("KB", 1000); ("MB", 1000000); ("GB", 1000000000); ("B", 1)]%string.
(** The unit a size ends with.
    [agent/cmd/benchdirect/main.go:228-240] parseByteSize *)
Definition unit_of (s : string) : option (string * Z) := find (fun u => has_suffix u.1 (ToUpper s)) units.
(** [ParseInt]'s errors are one.
    [agent/cmd/benchdirect/main.go:221-256] parseByteSize *)
Definition parseByteSize (s : string) : result Z string :=
  let s := TrimSpace s in
  let parse v := match Atoi v with Some n => Ok n | None => Err "invalid syntax"%string end in
  if bool_decide (s = ""%string) then Err "empty size"%string
  else
    match unit_of s with
    | Some (u, mult) =>
        let v := TrimSpace (String.substring 0 (String.length s - String.length u) s) in
        if bool_decide (v = ""%string) then Err "missing numeric value"%string
        else match parse v with
             | Err e => Err e
             | Ok n => if Z.quot max_int64 mult <? n then Err "overflows int64"%string else Ok (wrap64 (n * mult))
             end
    | None => parse s
    end.

(** [agent/cmd/benchdirect/rawbench.go:17-34] runConfig *)
Record runConfig := mkRun {
  mode : string; rttMs : Z; rc_loss : float64; size : Z; chunk : Z; backpressure : string; deadline : Z; window : Z;
  minCwnd : Z; rc_jitter : Z; bandwidth : Z; rc_queue : Z; rtoMax : Z; cwndCAStep : Z; conns : Z; sharing : string }.
(** [agent/cmd/benchdirect/main.go:199-201] chunkFitsInt *)
Definition chunkFitsInt (b : Z) : bool := b <=? max_int64.

(** The flags as they come. *)
Record Flags := mkFlags {
  g_mode : string; g_rtt : Z; g_loss : float64; g_size : string; g_chunk : string; g_backpressure : string; g_deadline : Z;
  g_window : string; g_mincwnd : string; g_jitter : Z; g_bandwidth : string; g_queue : string; g_rtomax : option Z;
  g_cwndcastep : string; g_conns : Z; g_sharing : string }.
Definition flag {A} (name : string) (r : result A string) : result A string := rmap_err (fun e => ("invalid -" +:+ name +:+ ": " +:+ e)%string) r.
Section flags.
#[local] Open Scope go_scope.
(** [g_rtomax] is what [time.ParseDuration] makes of its flag.
    [agent/cmd/benchdirect/main.go:36-98] main *)
Definition run_of (g : Flags) : result runConfig string :=
  let? sizeBytes := flag "size" (parseByteSize (g_size g)) in
  let? chunkBytes := flag "chunk" (parseByteSize (g_chunk g)) in
  if negb (chunkFitsInt chunkBytes) then Err "invalid -chunk: value exceeds platform int range"%string else
  let? windowBytes := flag "window" (parseByteSize (g_window g)) in
  let? minCwndBytes := flag "mincwnd" (parseByteSize (g_mincwnd g)) in
  let? bandwidthBytes := flag "bandwidth" (parseByteSize (g_bandwidth g)) in
  let? queueBytes := flag "queue" (parseByteSize (g_queue g)) in
  let? rtoMaxDur := match g_rtomax g with Some d => Ok d | None => Err "invalid -rtomax"%string end in
  let? cwndCAStepBytes := flag "cwndcastep" (parseByteSize (g_cwndcastep g)) in
  Ok (mkRun (g_mode g) (g_rtt g) (g_loss g) sizeBytes chunkBytes (g_backpressure g) (wrap64 (g_deadline g * Second)) windowBytes
        minCwndBytes (wrap64 (g_jitter g * 1000000)) bandwidthBytes queueBytes rtoMaxDur cwndCAStepBytes (g_conns g) (g_sharing g)).
End flags.

Definition is_nan (x : float64) : bool := match x with S754_nan => true | _ => false end.
Definition is_inf (x : float64) : bool := match x with S754_infinity _ => true | _ => false end.
(** The first check that fails names its flag.
    [agent/cmd/benchdirect/main.go:139-195] validateRunConfig *)
Definition validateRunConfig (c : runConfig) : option string :=
  let checks := [
    (negb (bool_decide (mode c ∈ ["raw"; "prod"]%string)), "-mode"%string); (rttMs c <? 0, "-rtt"%string); (size c <=? 0, "-size"%string); (chunk c <=? 0, "-chunk"%string);
    (window c <=? 0, "-window"%string); (minCwnd c <? 0, "-mincwnd"%string); (bandwidth c <? 0, "-bandwidth"%string); (rc_queue c <? 0, "-queue"%string);
    (rtoMax c <? 0, "-rtomax"%string); (cwndCAStep c <? 0, "-cwndcastep"%string); (deadline c <=? 0, "-deadline"%string);
    (is_nan (rc_loss c) || is_inf (rc_loss c), "-loss"%string); (f64_lt (rc_loss c) (S754_zero false) || f64_gt (rc_loss c) (f64_of_Z 1), "-loss"%string);
    (bool_decide (mode c = "raw"%string) && negb (bool_decide (backpressure c ∈ ["event"; "poll"]%string)), "-backpressure"%string);
    (conns c <? 1, "-conns"%string); (negb (bool_decide (sharing c ∈ ["shared"; "independent"]%string)), "-sharing"%string)] in
  snd <$> find (fun x => x.1) checks.

(** * Shards and shapers *)

(** For a positive number of shards.
    [agent/cmd/benchdirect/rawbench.go:169-183] shardSizes *)
Definition shardSizes (total : Z) (n : Z) : list Z :=
  let base := Z.quot total n in
  let rem := Z.rem total n in
  (fun i => if Z.of_nat i <? rem then base + 1 else base) <$> seq 0 (Z.to_nat n).

(** A link with its settings.
    [agent/cmd/benchdirect/rawbench.go:90-96] newShapers *)
Definition shaped (c : runConfig) (delay now : Z) : result World string :=
  rmap (fun s => let w := SetBandwidth (bandwidth c) (start (SetJitter (rc_jitter c) s) now) in with_sh (SetQueueBytes (rc_queue c) (sh w)) w)
    (NewShaper delay (rc_loss c)).
(** A flow of each of these links.
    [agent/cmd/benchdirect/rawbench.go:99-110] newShapers *)
Fixpoint add_flows (assigned : list nat) (ws : list World) : result (list World) string :=
  match assigned with
  | [] => Ok ws
  | i :: rest =>
      match ws !! i with
      | None => Err "index out of range"%string
      | Some w => match NewFlow (sh w) with Err e => Err e | Ok s => add_flows rest (<[i := with_sh s w]> ws) end
      end
  end.
(** The links, and which one each flow is of.
    [agent/cmd/benchdirect/rawbench.go:82-112] newShapers *)
Definition newShapers (c : runConfig) (n : nat) (delay now : Z) : result (list World * list nat) string :=
  let independent := bool_decide (sharing c = "independent"%string) in
  let assigned := (fun i => if independent then i else 0%nat) <$> seq 0 n in
  match shaped c delay now with
  | Err e => Err e
  | Ok w => rmap (fun ws => (ws, assigned)) (add_flows assigned (replicate (if independent then n else 1%nat) w))
  end.

(** * The pump *)

(** A data channel while it is pumped: the context, what is buffered, whether a
    low-buffer event is pending, and the sizes of what was sent. *)
Record Channel := mkChannel { ctxDone : bool; buffered : Z; lowCh : bool; sends : list Z }.
Section pump.
Context (c : runConfig).
Abbreviation handler := (proc Channel).

(** Until the buffer is below the window; [false] when the context is done.
    [agent/cmd/benchdirect/rawbench.go:131-146] pump *)
Definition await_window : handler bool :=
  Iter tt (fun _ =>
    full ← reads (fun w => window c <? buffered w);
    if (full : bool) then
      choices (fun w =>
        (if ctxDone w then [(inr false, w)] else [])
        ++ if bool_decide (backpressure c = "poll"%string) then [(inl tt, w)]
           else if lowCh w then [(inl tt, mkChannel (ctxDone w) (buffered w) false (sends w))] else [])
    else mret (inr true)) Done.

(** What was sent, and whether it stopped with an error.
    [agent/cmd/benchdirect/rawbench.go:115-157] pump *)
Definition pump (total : Z) : handler (Z * bool) :=
  Iter 0 (fun sent =>
    if total <=? sent then mret (inr (sent, false))
    else
      stopped ← reads ctxDone;
      if (stopped : bool) then mret (inr (sent, true))
      else
        open ← await_window;
        if negb open then mret (inr (sent, true))
        else
          let n := Z.min (chunk c) (total - sent) in
          ok ← choices (fun w => [(true, mkChannel (ctxDone w) (buffered w + n) (lowCh w) (sends w ++ [n])); (false, w)]);
          mret (if (ok : bool) then inl (sent + n) else inr (sent, true))) Done.
End pump.

(** * Candidates *)

Section candidates.
Context (isIPv4 : string -> bool).

Fixpoint fields_go (cur : string) (s : string) : list string :=
  match s with
  | EmptyString => if bool_decide (cur = ""%string) then [] else [String.rev cur]
  | String c t => if is_space c then (if bool_decide (cur = ""%string) then [] else [String.rev cur]) ++ fields_go "" t
                  else fields_go (String c cur) t
  end.
(** [strings.Fields]. *)
Definition Fields (s : string) : list string := fields_go "" s.
Fixpoint split_crlf_go (cur : string) (s : string) : list string :=
  match s with
  | EmptyString => [String.rev cur]
  | String a ((String b t) as u) =>
      if bool_decide (a = "013"%char) && bool_decide (b = "010"%char) then String.rev cur :: split_crlf_go "" t else split_crlf_go (String a cur) u
  | String a t => split_crlf_go (String a cur) t
  end.
Definition crlf : string := String "013" (String "010" "").
Definition is_candidate (line : string) : bool := has_prefix "a=candidate:" line.
(** The fields of an IPv4 host candidate over UDP.
    [agent/cmd/benchdirect/sdp.go:24-25] RewriteHostCandidate *)
Definition host_fields (line : string) : option (list string) :=
  let fields := Fields line in
  if (8 <=? length fields)%nat && bool_decide (fields !! 2%nat = Some "udp"%string) && bool_decide (fields !! 7%nat = Some "host"%string)
     && isIPv4 (default ""%string (fields !! 4%nat)) then Some fields else None.

(** [agent/cmd/benchdirect/sdp.go:21-42] RewriteHostCandidate *)
Fixpoint rewrite_lines (newPort : Z) (found : option (string * Z)) (lines : list string) : result (list string * option (string * Z)) string :=
  match lines with
  | [] => Ok ([], found)
  | line :: rest =>
      if is_candidate line then
        match found, host_fields line with
        | None, Some fields =>
            match Atoi (default ""%string (fields !! 5%nat)) with
            | None => Err "parse candidate port"%string
            | Some port =>
                let line' := String.concat " " (<[5%nat := pretty newPort]> (<[4%nat := "127.0.0.1"%string]> fields)) in
                rmap (fun r => (line' :: r.1, r.2)) (rewrite_lines newPort (Some (default ""%string (fields !! 4%nat), port)) rest)
            end
        | _, _ => rewrite_lines newPort found rest
        end
      else rmap (fun r => (line :: r.1, r.2)) (rewrite_lines newPort found rest)
  end.
(** [agent/cmd/benchdirect/sdp.go:15-47] RewriteHostCandidate *)
Definition RewriteHostCandidate (sdp : string) (newPort : Z) : result (string * string * Z) string :=
  match rewrite_lines newPort None (split_crlf_go "" sdp) with
  | Err e => Err e
  | Ok (_, None) => Err "no IPv4 host candidate found"%string
  | Ok (out, Some (ip, port)) => Ok (String.concat crlf out, ip, port)
  end.
End candidates.


(** * The server of the page *)

(** [agent/cmd/benchdirect/server.go:15-18] answerMsg *)
Record answerMsg := mkAnswer { Index : Z; SDP : string }.
(** [answerCh] is what the buffered channel holds, [answerCap] its capacity.
    [agent/cmd/benchdirect/server.go:20-27] benchServer *)
Record benchServer := mkServer { offers : list string; answerCh : list answerMsg; answerCap : nat; sv_mode : string; sv_size : Z; sv_chunk : Z }.
Definition with_answers l s := mkServer (offers s) l (answerCap s) (sv_mode s) (sv_size s) (sv_chunk s).
(** [agent/cmd/benchdirect/server.go:29-31] newBenchServer *)
Definition newBenchServer (offers : list string) (cap : nat) : benchServer := mkServer offers [] cap "" 0 0.
Inductive reply := Error (status : Z) (text : string) | Encoded (j : json) | Empty | File.
(** What the decoder makes of the body of an answer; [None] when it is not JSON.
    [agent/cmd/benchdirect/server.go:57-64] handler *)
Definition answer_body (body : option json) : option answerMsg :=
  match body with
  | Some (JObj o) => i ← field dec_int64 "i" 0 o; sdp ← field dec_str "sdp" ""%string o; Some (mkAnswer i sdp)
  | Some JNull => Some (mkAnswer 0 "")
  | _ => None
  end.
Definition in_offers (s : benchServer) (i : Z) : bool := (0 <=? i) && (i <? Z.of_nat (length (offers s))).
Section handler.
#[local] Open Scope string_scope.
(** [i] is the query's; the text for a body that does not decode is the decoder's.
    [agent/cmd/benchdirect/server.go:33-77] handler *)
Definition serve_bench (path method i : string) (body : option json) (s : benchServer) : reply * benchServer :=
  if bool_decide (path = "/start") then
    if negb (bool_decide (method = "POST")) then (Error 405 "method not allowed", s)
    else (Encoded (JObj [("chunk", JNum (sv_chunk s)); ("count", JNum (Z.of_nat (length (offers s)))); ("mode", JStr (sv_mode s)); ("size", JNum (sv_size s))]), s)
  else if bool_decide (path = "/offer") then
    match Atoi i with
    | Some n => if in_offers s n then (Encoded (JObj [("offer", JStr (default "" (offers s !! Z.to_nat n)))]), s)
                else (Error 400 "bad offer index", s)
    | None => (Error 400 "bad offer index", s)
    end
  else if bool_decide (path = "/answer") then
    if negb (bool_decide (method = "POST")) then (Error 405 "method not allowed", s)
    else
      match answer_body body with
      | None => (Error 400 "invalid body", s)
      | Some a =>
          if negb (in_offers s (Index a)) then (Error 400 "bad answer index", s)
          else (Empty, if (length (answerCh s) <? answerCap s)%nat then with_answers (answerCh s ++ [a])%list s else s)
      end
  else (File, s).
End handler.

(** * The answers *)

(** [got] of each connection, and how many are missing; [accepts] is what the
    connection says of the description with the link's own port. *)
Section answers.
Context (isIPv4 : string -> bool) (port_of : nat -> Z) (accepts : nat -> string -> bool).
(** One answer; no result where the index panics.
    [agent/cmd/benchdirect/rawbench.go:300-314] runRaw *)
Definition take_answer (a : answerMsg) (got : list bool) : option (result (list bool) string) :=
  g ← (if Index a <? 0 then None else got !! Z.to_nat (Index a));
  let i := Z.to_nat (Index a) in
  if g : bool then Some (Ok got)
  else
    Some (match RewriteHostCandidate isIPv4 (SDP a) (port_of i) with
          | Err _ => Err "rewrite answer"%string
          | Ok (sdp, _, _) => if accepts i sdp then Ok (<[i := true]> got) else Err "set remote description"%string
          end).
(** With the answers that come before the deadline.
    [agent/cmd/benchdirect/rawbench.go:297-320] runRaw *)
Fixpoint await_answers (l : list answerMsg) (got : list bool) : option (result (list bool) string) :=
  if forallb id got then Some (Ok got)
  else match l with
       | [] => Some (Err "timed out waiting for browser answers"%string)
       | a :: l' => r ← take_answer a got; match r with Err e => Some (Err e) | Ok got' => await_answers l' got' end
       end.
End answers.

(** * What the transfer manager is given *)

(** Callbacks are named; a chain of them is run in order.
    [agent/cmd/benchdirect/prodbench.go:22-30] benchChannelSet *)
Record benchChannelSet := mkSet { bs_onOpen : option (list nat); bs_onClose : option (list nat); openCount : Z; openFired : bool; bs_closed : bool }.
(** [agent/cmd/benchdirect/prodbench.go:33] SetOnOpen *)
Definition SetOnOpen (f : option (list nat)) (c : benchChannelSet) := mkSet f (bs_onClose c) (openCount c) (openFired c) (bs_closed c).
(** [agent/cmd/benchdirect/prodbench.go:34] SetOnClose *)
Definition SetOnClose (f : option (list nat)) (c : benchChannelSet) := mkSet (bs_onOpen c) f (openCount c) (openFired c) (bs_closed c).
(** And what it calls.
    [agent/cmd/benchdirect/prodbench.go:36-49] noteOpen *)
Definition noteOpen (c : benchChannelSet) : list nat * benchChannelSet :=
  let n := openCount c + 1 in
  if (n =? 3) && bool_decide (is_Some (bs_onOpen c)) && negb (openFired c)
  then (default [] (bs_onOpen c), mkSet (bs_onOpen c) (bs_onClose c) n true (bs_closed c))
  else ([], mkSet (bs_onOpen c) (bs_onClose c) n (openFired c) (bs_closed c)).
(** And what it calls.
    [agent/cmd/benchdirect/prodbench.go:51-63] noteClose *)
Definition noteClose (c : benchChannelSet) : list nat * benchChannelSet :=
  if bs_closed c then ([], c)
  else (default [] (bs_onClose c), mkSet (bs_onOpen c) (bs_onClose c) (openCount c) (openFired c) true).
(** [agent/cmd/benchdirect/prodbench.go:65-78] AddOnClose *)
Definition AddOnClose (f : nat) (c : benchChannelSet) : benchChannelSet := SetOnClose (Some (default [] (bs_onClose c) ++ [f])) c.
(** Whether the bytes go on the channel of [lane].
    [agent/cmd/benchdirect/prodbench.go:96-105] SendBinaryClass *)
Definition SendBinaryClass (lane : Lane) (class : TrafficClass) : result unit (lane_error + string) :=
  match LaneForClass class with
  | Err e => Err (inl e)
  | Ok l => if bool_decide (l = lane) then Ok tt else Err (inr "traffic class maps to another lane"%string)
  end.

Section storage.
(** [size] bytes of nothing; [write] is the writer, over its own state. *)
Context {S : Type} (write : Z -> S -> option S) (size : Z).
(** [agent/cmd/benchdirect/fakebackend.go:20-32] GetFile *)
Fixpoint write_file (fuel : nat) (written : Z) (st : S) : Z * bool * S :=
  if size <=? written then (written, true, st)
  else match fuel with
       | O => (written, false, st)
       | Datatypes.S fuel =>
           let n := Z.min 65536 (size - written) in
           match write n st with None => (written, false, st) | Some st' => write_file fuel (written + n) st' end
       end.
(** [agent/cmd/benchdirect/fakebackend.go:16-33] GetFile *)
Definition GetFile (filePath : string) (st : S) : Z * bool * S :=
  if negb (bool_decide (filePath = "bench.bin"%string)) then (0, false, st)
  else write_file (Z.to_nat size) 0 st.
End storage.

(** * The figures *)

(** [agent/cmd/benchdirect/rawbench.go:387-391] runRaw *)
Record perConn := mkPer { p_Received : Z; FirstByteTs : float64; LastByteTs : float64 }.
(** [agent/cmd/benchdirect/rawbench.go:40-53] connStat *)
Record connStat := mkStat {
  st_Index : Z; ShardBytes : Z; SentBytes : Z; Received : Z; FirstByteMs : float64; LastByteMs : float64; Mbps : float64; SendMs : float64;
  SendErr : string; ShimFwd : Z; ShimDrop : Z; ShimWriteErr : Z }.
Definition f0 : float64 := S754_zero false.
Definition positive (x : float64) : bool := f64_gt x f0.
Definition is_zero (x : float64) : bool := match x with S754_zero _ => true | _ => false end.
(** [agent/cmd/benchdirect/rawbench.go:410-415] runRaw *)
Definition first_ts (l : list perConn) : float64 :=
  foldl (fun t p => if positive (FirstByteTs p) && (is_zero t || f64_lt (FirstByteTs p) t) then FirstByteTs p else t) f0 l.
(** Times, and megabits a second, of one connection.
    [agent/cmd/benchdirect/rawbench.go:424-430] runRaw *)
Definition conn_times (first : float64) (p : perConn) : float64 * float64 * float64 :=
  if positive first && positive (FirstByteTs p) then
    let d := f64_div (f64_sub (LastByteTs p) (FirstByteTs p)) (f64_of_Z 1000) in
    (f64_sub (FirstByteTs p) first, f64_sub (LastByteTs p) first,
     if positive d then f64_div (f64_div (f64_mul (f64_of_Z (p_Received p)) (f64_of_Z 8)) d) (f64_of_Z 1000000) else f0)
  else (f0, f0, f0).
(** What was sent on a connection, and what its flow counted.
    [agent/cmd/benchdirect/rawbench.go:416-434] runRaw *)
Definition conn_stat (summary : list perConn) (i : nat) (shard sent : Z) (sendMs : float64) (err : string) (x : flowState) : connStat :=
  let st r t := mkStat (Z.of_nat i) shard sent r t.1.1 t.1.2 t.2 sendMs err (forwarded x) (dropped x) (writeErrs x) in
  match summary !! i with
  | Some p => st (p_Received p) (conn_times (first_ts summary) p)
  | None => st 0 (f0, f0, f0)
  end.

(** [agent/cmd/benchdirect/rawbench.go:55-77] rawResult *)
Record rawResult := mkResult {
  r_Mode : string; r_RTT : Z; r_Loss : float64; r_JitterMs : Z; r_Bandwidth : Z; r_Queue : Z; r_RtoMaxMs : Z; r_CwndCAStep : Z;
  r_Conns : Z; r_Sharing : string; r_SentBytes : Z; r_Received : Z; r_Mbps : float64; r_WallMbps : float64; r_ElapsedMs : float64;
  r_ChromeCPUSec : float64; r_ChromeCores : float64; r_GoCPUSec : float64; r_PerConn : list connStat; r_Samples : list Z; r_Err : string }.
(** What the page says at the end.
    [agent/cmd/benchdirect/rawbench.go:379-392] runRaw *)
Record pageSummary := mkSummary { s_Received : Z; s_ElapsedMs : float64; s_Mbps : float64; s_WallMs : float64; s_WallMbps : float64; s_Samples : list Z; s_PerConn : list perConn }.
(** The connections' own figures are added after.
    [agent/cmd/benchdirect/rawbench.go:186-198] runRaw *)
Definition raw_start (c : runConfig) : rawResult :=
  let n := if conns c <? 1 then 1 else conns c in
  let sharing := if bool_decide (sharing c = ""%string) then "shared"%string else sharing c in
  mkResult "raw" (rttMs c) (rc_loss c) (Z.quot (rc_jitter c) 1000000) (bandwidth c) (rc_queue c) (Z.quot (rtoMax c) 1000000) (cwndCAStep c) n sharing
    0 0 f0 f0 f0 f0 f0 f0 [] [] "".
(** A run the receiver did not finish is measured over the wall clock.
    [agent/cmd/benchdirect/rawbench.go:397-408] runRaw *)
Definition raw_finish (c : runConfig) (m : pageSummary) (sent : Z) (chromeSec chromeCores goCPU : float64) (timedOut : bool) (stats : list connStat) (r : rawResult) : rawResult :=
  mkResult (r_Mode r) (r_RTT r) (r_Loss r) (r_JitterMs r) (r_Bandwidth r) (r_Queue r) (r_RtoMaxMs r) (r_CwndCAStep r) (r_Conns r) (r_Sharing r)
    sent (s_Received m) (if timedOut then s_WallMbps m else s_Mbps m) (s_WallMbps m) (s_ElapsedMs m) chromeSec chromeCores goCPU stats (s_Samples m)
    (if timedOut then "receiver timeout: " +:+ pretty (s_Received m) +:+ "/" +:+ pretty (size c) +:+ " bytes" else r_Err r)%string.

(** ** Processor time *)

Section cpu.
Context (ParseFloat : string -> option float64).
Fixpoint split_colon_go (cur s : string) : list string :=
  match s with
  | EmptyString => [String.rev cur]
  | String c t => if bool_decide (c = ":"%char) then String.rev cur :: split_colon_go "" t else split_colon_go (String c cur) t
  end.
(** [agent/cmd/benchdirect/cpu.go:38-48] parseCPUTime *)
Definition parseCPUTime (s : string) : float64 :=
  default f0 (foldl (fun total part => t ← total; v ← ParseFloat part; Some (f64_add (f64_mul t (f64_of_Z 60)) v)) (Some f0) (split_colon_go "" (TrimSpace s))).
Definition split_first_space (s : string) : option (string * string) :=
  (fix go (cur s : string) := match s with EmptyString => None | String c t => if bool_decide (c = " "%char) then Some (String.rev cur, t) else go (String c cur) t end) ""%string s.
Fixpoint split_lines_go (cur s : string) : list string :=
  match s with
  | EmptyString => [String.rev cur]
  | String c t => if bool_decide (c = "010"%char) then String.rev cur :: split_lines_go "" t else split_lines_go (String c cur) t
  end.
(** [out] is what [ps] prints.
    [agent/cmd/benchdirect/cpu.go:14-35] chromeCPUSeconds *)
Definition chromeCPUSeconds (out : option string) : float64 :=
  match out with
  | None => f0
  | Some out =>
      foldl (fun total line =>
        match split_first_space (TrimSpace line) with
        | Some (time, comm) => if contains "Google Chrome" comm || contains "Chromium" comm then f64_add total (parseCPUTime time) else total
        | None => total
        end) f0 (split_lines_go "" out)
  end.
(** [agent/cmd/benchdirect/cpu.go:91-104] Stop *)
Definition cpu_Stop (lastCPU startCPU elapsed : float64) : float64 * float64 :=
  let seconds := f64_sub lastCPU startCPU in
  let cores := if positive elapsed then f64_div seconds elapsed else f0 in
  if f64_lt seconds f0 then (f0, f0) else (seconds, cores).
(** [agent/cmd/benchdirect/cpu.go:106-108] timevalSeconds *)
Definition timevalSeconds (sec usec : Z) : float64 := f64_add (f64_of_Z sec) (f64_div (f64_of_Z usec) (f64_of_Z 1000000)).
End cpu.

(** * Sizes *)

(** A size with a unit, when its number is not negative, is exactly that many
    units, within an int64. *)
Lemma parseByteSize_exact s u mult n r : unit_of (TrimSpace s) = Some (u, mult) ->
  Atoi (TrimSpace (String.substring 0 (String.length (TrimSpace s) - String.length u) (TrimSpace s))) = Some n -> 0 <= n ->
  parseByteSize s = Ok r -> r = n * mult /\ r <= max_int64.
Proof.
  intros Hu Hn H0. unfold parseByteSize. rewrite Hu, Hn. repeat case_bool_decide; try done.
  destruct (_ <? n) eqn:Hlt; [done|]. intros [= <-]. apply Z.ltb_ge in Hlt.
  assert (0 < mult) as Hm.
  { unfold unit_of in Hu. apply find_some in Hu as [Hin _]. apply list_elem_of_In in Hin.
    unfold units in Hin. set_unfold in Hin. naive_solver lia. }
  unfold max_int64 in *. assert (n * mult <= 2 ^ 63 - 1) as Hle.
  { rewrite Z.quot_div_nonneg in Hlt by lia. pose proof (Z.mul_div_le (2 ^ 63 - 1) mult Hm). nia. }
  assert (wrap64 (n * mult) = n * mult) as Hw; [|by rewrite Hw].
  unfold wrap64. rewrite Z.mod_small; nia.
Qed.
(** Only the upper bound is checked: a negative size wraps around. *)
Example negative_size : parseByteSize "-18014398509481983KiB" = Ok 1024.
Proof. vm_compute. reflexivity. Qed.

Definition sum (l : list Z) : Z := foldr Z.add 0 l.
Lemma sum_app l1 l2 : sum (l1 ++ l2) = sum l1 + sum l2.
Proof. unfold sum. induction l1 as [|x l1 IH]; cbn; lia. Qed.
Lemma sum_steps base rem k : 0 <= rem ->
  sum ((fun i => if Z.of_nat i <? rem then base + 1 else base) <$> seq 0 k) = base * Z.of_nat k + Z.min rem (Z.of_nat k).
Proof.
  intros Hr. induction k as [|k IH]; [cbn; lia|]. rewrite seq_S, fmap_app, sum_app, IH. cbn.
  destruct (Z.of_nat k <? rem) eqn:Hlt; [apply Z.ltb_lt in Hlt|apply Z.ltb_ge in Hlt]; lia.
Qed.
(** The shards are as many as asked, sum to the whole and differ by one byte at most. *)
Lemma shards_sum total n : 0 <= total -> 0 < n ->
  Z.of_nat (length (shardSizes total n)) = n /\ sum (shardSizes total n) = total /\
  Forall (fun x => total / n <= x <= total / n + 1) (shardSizes total n).
Proof.
  intros Ht Hn. unfold shardSizes. rewrite Z.quot_div_nonneg, Z.rem_mod_nonneg by lia.
  split_and!.
  - rewrite length_fmap, length_seq. lia.
  - rewrite sum_steps by (apply Z.mod_pos_bound; lia). pose proof (Z.mod_pos_bound total n). pose proof (Z.div_mod total n). lia.
  - apply Forall_fmap, Forall_forall. intros i _. cbn. destruct (_ <? _); lia.
Qed.

Lemma find_none_Forall {A} (f : A -> bool) l : find f l = None -> Forall (fun x => f x = false) l.
Proof. intros H. apply Forall_forall. intros x Hx. apply (find_none _ _ H). by apply list_elem_of_In. Qed.
(** What a run that passes its checks has. *)
Lemma valid_config c : validateRunConfig c = None ->
  0 < size c /\ 0 < chunk c /\ 0 < window c /\ 0 < deadline c /\ 1 <= conns c /\ 0 <= bandwidth c /\ (sharing c = "shared" \/ sharing c = "independent")%string.
Proof.
  unfold validateRunConfig. intros H. rewrite fmap_None in H. apply find_none_Forall in H.
  rewrite !Forall_cons in H. cbn [fst] in H. destruct_and! H.
  repeat match goal with Hx : negb _ = false |- _ => apply negb_false_iff, bool_decide_eq_true in Hx end.
  split_and!; [lia..|]. set_solver.
Qed.

(** * The pump *)

Section pump_ok.
Context (c : runConfig) (total : Z).
Hypothesis chunk_pos : 0 < chunk c.
(** The others change what is buffered, the event and the context. *)
Definition others (w1 w2 : Channel) : Prop := sends w1 = sends w2.
#[local] Instance others_pre : PreOrder others.
Proof. split; [done|]. intros ??? H1 H2. unfold others in *. congruence. Qed.
Abbreviation pwp := (wp others (fun _ _ => True) (fun _ => True)).
(** [sent] bytes went out since [s0], in chunks. *)
Definition pumped (s0 : list Z) (sent : Z) (w : Channel) : Prop :=
  exists new, sends w = s0 ++ new /\ sum new = sent /\ Forall (fun n => 0 < n <= chunk c) new /\ sent <= total.
Lemma pumped_others s0 sent w w' : others w w' -> pumped s0 sent w -> pumped s0 sent w'.
Proof. unfold others, pumped. intros <-. done. Qed.

Lemma await_window_keeps s0 sent w : pumped s0 sent w -> pwp (await_window c) (fun _ w' => pumped s0 sent w') w.
Proof.
  intros Hw. unfold await_window. exists (fun _ => pumped s0 sent). split; [intros w1 H1; by eapply pumped_others|].
  intros [] w1 Hw1. apply wp_mbind; [apply _|]. apply wp_reads. intros w2 H2 _. split; [done|]. intros w3 H3.
  assert (pumped s0 sent w3) as Hw3 by (do 2 (eapply pumped_others; [eassumption|]); done). clear Hw Hw1 H2 H3 w w1.
  destruct (window c <? buffered w2).
  - apply wp_choices. intros w4 H4 _ b w5 Hin. split; [done|]. split; [done|]. intros w6 H6.
    assert (sends w5 = sends w4) as H5.
    { rewrite elem_of_app in Hin. destruct Hin as [Hin|Hin]; [destruct (ctxDone w4)|destruct (bool_decide _); [|destruct (lowCh w4)]];
        rewrite ?list_elem_of_singleton, ?elem_of_nil in Hin; by simplify_eq. }
    assert (others w3 w6) as H36 by (unfold others in *; congruence).
    apply (pumped_others _ _ _ _ H36) in Hw3. destruct b as [|b]; [done|]. intros w7 H7. by eapply pumped_others.
  - apply wp_mret. intros w4 H4 w5 H5. do 2 (eapply pumped_others; [eassumption|]); done.
Qed.

(** Whatever the buffer, the events and the context do, what the pump says it
    sent is what went on the channel, in chunks of the size asked for or less,
    and it is the whole shard unless the pump ended with an error. *)
Lemma pump_exact s0 w : 0 <= total -> sends w = s0 ->
  pwp (pump c total) (fun r w' => pumped s0 r.1 w' /\ (r.2 = false -> r.1 = total)) w.
Proof.
  intros Ht Hs. unfold pump. exists (pumped s0). split.
  { intros w1 H1. exists []. rewrite app_nil_r. split; [unfold others in H1; congruence|done]. }
  clear Hs w. intros sent w Hw.
  assert (Hstop : forall w1, pumped s0 sent w1 -> pwp (mret (inr (sent, true)) : proc Channel (Z + (Z * bool)))
    (fun r w2 => match r with inl s => pumped s0 s w2 | inr b => pwp (Done b) (fun r w' => pumped s0 r.1 w' /\ (r.2 = false -> r.1 = total)) w2 end) w1).
  { intros w1 H1. apply wp_mret. intros w2 H2 w3 H3. split; [|done]. do 2 (eapply pumped_others; [eassumption|]); done. }
  destruct (total <=? sent) eqn:Hdone.
  { apply wp_mret. intros w1 H1 w2 H2. assert (pumped s0 sent w2) as Hw2 by (do 2 (eapply pumped_others; [eassumption|]); done).
    split; [done|]. intros _. cbn. destruct Hw2 as (new&_&_&_&?). apply Z.leb_le in Hdone. lia. }
  apply Z.leb_gt in Hdone.
  apply wp_mbind; [apply _|]. apply wp_reads. intros w1 H1 _. split; [done|]. intros w2 H2. apply (pumped_others _ _ _ _ H1) in Hw. apply (pumped_others _ _ _ _ H2) in Hw.
  destruct (ctxDone w1); [by apply Hstop|].
  apply wp_mbind; [apply _|]. eapply wp_mono; [|by apply await_window_keeps]. intros b w3 Hw3. destruct b; cbn [negb]; [|by apply Hstop].
  apply wp_mbind; [apply _|]. apply wp_choices. intros w4 H4 _ ok w5 Hin. split; [done|]. split; [done|]. intros w6 H6.
  apply (pumped_others _ _ _ _ H4) in Hw3. rewrite elem_of_cons, list_elem_of_singleton in Hin. destruct Hin as [Hin|Hin]; simplify_eq; [|apply Hstop; by eapply pumped_others].
  destruct Hw3 as (new&Hn&Hsum&Hch&Hle). apply wp_mret. intros w7 H7. exists (new ++ [Z.min (chunk c) (total - sent)]). split.
  { unfold others in *. rewrite <- H7, <- H6. cbn. rewrite Hn. by rewrite app_assoc. }
  rewrite sum_app, Hsum. split; [cbn; lia|]. split; [|lia]. apply Forall_app. split; [done|]. constructor; [lia|done].
Qed.
End pump_ok.

(** * Candidates and answers *)

Definition keeps (l : list string) : list string := filter (fun line => is_candidate line = false) l.
Lemma rewrite_found isIPv4 port o lines : rewrite_lines isIPv4 port (Some o) lines = Ok (keeps lines, Some o).
Proof.
  unfold keeps. induction lines as [|line lines IH]; cbn [rewrite_lines]; [done|].
  destruct (is_candidate line) eqn:Hc; rewrite IH; [by rewrite filter_cons_False by congruence|by rewrite filter_cons_True].
Qed.
Lemma host_fields_long isIPv4 line fields : host_fields isIPv4 line = Some fields -> (8 <= length fields)%nat.
Proof.
  unfold host_fields. set (f := Fields line). destruct (_ && _) eqn:Hg; [|done]. intros [= <-].
  rewrite !andb_true_iff, Nat.leb_le in Hg. tauto.
Qed.
(** What the browser gets: every line but the candidates, and in place of the
    first IPv4 host candidate over UDP the same candidate at the link. *)
Lemma rewrite_exact isIPv4 port lines out ip p : rewrite_lines isIPv4 port None lines = Ok (out, Some (ip, p)) ->
  exists pre line fields post, lines = pre ++ line :: post /\ Forall (fun l => is_candidate l = true -> host_fields isIPv4 l = None) pre /\
    is_candidate line = true /\ host_fields isIPv4 line = Some fields /\ fields !! 4%nat = Some ip /\ Atoi (default ""%string (fields !! 5%nat)) = Some p /\
    out = keeps pre ++ String.concat " " (<[5%nat := pretty port]> (<[4%nat := "127.0.0.1"%string]> fields)) :: keeps post.
Proof.
  revert out. induction lines as [|line lines IH]; intros out; cbn [rewrite_lines]; [done|].
  destruct (is_candidate line) eqn:Hc; [destruct (host_fields isIPv4 line) as [fields|] eqn:Hf|].
  - destruct (Atoi _) as [q|] eqn:Hq; [|done]. rewrite rewrite_found. cbn. intros [= <- Hip <-].
    exists [], line, fields, lines. split_and!; try done.
    apply host_fields_long in Hf. destruct (lookup_lt_is_Some_2 fields 4) as [x Hx]; [lia|]. rewrite Hx in Hip |- *. cbn in Hip. congruence.
  - intros Hr. destruct (IH _ Hr) as (pre&l&fields&post&->&Hpre&H). exists (line :: pre), l, fields, post.
    unfold keeps. rewrite filter_cons_False by congruence. split_and!; naive_solver.
  - destruct (rewrite_lines isIPv4 port None lines) as [[out' f]|e]; [|done]. cbn. intros [= <- ->].
    destruct (IH _ eq_refl) as (pre&l&fields&post&->&Hpre&Hl&Hf&H4&H5&->). exists (line :: pre), l, fields, post.
    assert (is_candidate line = true -> host_fields isIPv4 line = None) as Hx by congruence.
    unfold keeps. rewrite filter_cons_True by done. split_and!; try done. constructor; [exact Hx|done].
Qed.

(** The requests a page makes, in the order they are served. *)
Definition serve_all (rs : list (string * string * string * option json)) (s : benchServer) : benchServer :=
  foldl (fun s r => (serve_bench r.1.1.1 r.1.1.2 r.1.2 r.2 s).2) s rs.
Definition in_range_answers (n : nat) (l : list answerMsg) : Prop := Forall (fun a => 0 <= Index a < Z.of_nat n) l.
Lemma serve_bench_offers path method i body s : offers (serve_bench path method i body s).2 = offers s.
Proof. unfold serve_bench. repeat case_match; done. Qed.
Lemma serve_bench_range path method i body s :
  in_range_answers (length (offers s)) (answerCh s) -> in_range_answers (length (offers s)) (answerCh (serve_bench path method i body s).2).
Proof.
  intros H. unfold serve_bench. do 2 (case_bool_decide; [repeat case_match; done|]).
  case_bool_decide; [|done]. destruct (negb _); [done|]. destruct (answer_body body) as [a|]; [|done].
  destruct (in_offers s (Index a)) eqn:Ha; [|done]. cbn [negb snd]. destruct (length (answerCh s) <? answerCap s)%nat; [|done]. apply Forall_app_2; [exact H|].
  apply Forall_singleton. unfold in_offers in Ha. lia.
Qed.
Lemma await_total isIPv4 port_of accepts l got :
  in_range_answers (length got) l -> await_answers isIPv4 port_of accepts l got <> None.
Proof.
  revert got. induction l as [|a l IH]; intros got Hl; cbn [await_answers]; destruct (forallb _ got); try done.
  apply Forall_cons in Hl as [Ha Hl]. unfold take_answer. destruct (Index a <? 0) eqn:H0; [lia|].
  destruct (got !! Z.to_nat (Index a)) as [g|] eqn:Hg; [|apply lookup_ge_None in Hg; lia]. cbn. destruct g; [by apply IH|].
  repeat case_match; simplify_eq; try done. apply IH. by rewrite length_insert.
Qed.
(** The indices of a page's answers are checked by the server, so the run that
    waits for them does not panic on one, whatever the page sends. *)
Lemma answers_never_panic isIPv4 port_of accepts os cap rs :
  await_answers isIPv4 port_of accepts (answerCh (serve_all rs (newBenchServer os cap))) (replicate (length os) false) <> None.
Proof.
  apply await_total. rewrite length_replicate.
  assert (forall s, in_range_answers (length (offers s)) (answerCh s) -> in_range_answers (length (offers s)) (answerCh (serve_all rs s))) as H.
  { unfold serve_all. induction rs as [|r rs IH]; intros s Hs; cbn; [done|]. rewrite <- (serve_bench_offers r.1.1.1 r.1.1.2 r.1.2 r.2 s).
    apply IH. rewrite serve_bench_offers. by apply serve_bench_range. }
  apply (H (newBenchServer os cap)). constructor.
Qed.

(** * Callbacks and storage *)

Inductive channel_event := Opened | Closed | Hook (f : option (list nat)) | HookClose (f : option (list nat)) | AddClose (f : nat).
Definition channel_step (e : channel_event) (c : benchChannelSet) : list nat * list nat * benchChannelSet :=
  match e with
  | Opened => let '(fs, c) := noteOpen c in (fs, [], c)
  | Closed => let '(fs, c) := noteClose c in ([], fs, c)
  | Hook f => ([], [], SetOnOpen f c) | HookClose f => ([], [], SetOnClose f c) | AddClose f => ([], [], AddOnClose f c)
  end.
(** How often the callbacks of opening, and of closing, were run. *)
Fixpoint fired (es : list channel_event) (c : benchChannelSet) : nat * nat :=
  match es with
  | [] => (0, 0)%nat
  | e :: es => let '(o, d, c) := channel_step e c in let '(n, m) := fired es c in
               ((if bool_decide (o = []) then n else Datatypes.S n), (if bool_decide (d = []) then m else Datatypes.S m))
  end.
Lemma channel_step_marks e c o d c' : channel_step e c = (o, d, c') ->
  (openFired c = true -> o = [] /\ openFired c' = true) /\ (o <> [] -> openFired c' = true) /\
  (bs_closed c = true -> d = [] /\ bs_closed c' = true) /\ (d <> [] -> bs_closed c' = true).
Proof.
  destruct e; cbn; unfold noteOpen, noteClose; [| |by intros [= <- <- <-]..].
  - destruct (openFired c) eqn:Ho; cbn [negb]; rewrite ?andb_false_r; [by intros [= <- <- <-]|]. destruct (_ && _); by intros [= <- <- <-].
  - destruct (bs_closed c) eqn:Hc; by intros [= <- <- <-].
Qed.
(** The callbacks of opening run at most once, and so do those of closing,
    however often the channels open and close and whatever is hooked. *)
Lemma fired_once es c : ((fired es c).1 <= if openFired c then 0 else 1)%nat /\ ((fired es c).2 <= if bs_closed c then 0 else 1)%nat.
Proof.
  revert c. induction es as [|e es IH]; intros c; cbn [fired]; [cbn; split; lia|].
  destruct (channel_step e c) as [[o d] c'] eqn:Hs. apply channel_step_marks in Hs as (Ho1&Ho2&Hd1&Hd2).
  specialize (IH c'). destruct (fired es c') as [n m]. cbn [fst snd] in *. destruct IH as [Hn Hm]. split; case_bool_decide as Hb.
  - destruct (openFired c); [destruct Ho1 as [_ Hc]; [done|]; by rewrite Hc in Hn|destruct (openFired c'); lia].
  - destruct (openFired c); [by destruct Ho1|]. rewrite Ho2 in Hn by done. lia.
  - destruct (bs_closed c); [destruct Hd1 as [_ Hc]; [done|]; by rewrite Hc in Hm|destruct (bs_closed c'); lia].
  - destruct (bs_closed c); [by destruct Hd1|]. rewrite Hd2 in Hm by done. lia.
Qed.

(** Each size of what the writer took. *)
Definition record (n : Z) (l : list Z) : option (list Z) := Some (l ++ [n]).
Lemma write_file_all size fuel written l : 0 <= written <= size -> (Z.to_nat (size - written) <= fuel)%nat ->
  exists new, write_file record size fuel written l = (size, true, l ++ new) /\ sum new = size - written /\ Forall (fun n => 0 < n <= 65536) new.
Proof.
  revert written l. induction fuel as [|fuel IH]; intros written l Hw Hf; cbn [write_file].
  - destruct (size <=? written) eqn:Hd; [|lia]. exists []. rewrite app_nil_r. split_and!; [f_equal; f_equal; lia|cbn; lia|done].
  - destruct (size <=? written) eqn:Hd; [exists []; rewrite app_nil_r; split_and!; [f_equal; f_equal; lia|cbn; lia|done]|].
    apply Z.leb_gt in Hd. destruct (IH (written + Z.min 65536 (size - written)) (l ++ [Z.min 65536 (size - written)])) as (new&Hn&Hs&Hall); [lia|lia|].
    exists (Z.min 65536 (size - written) :: new).
    assert (record (Z.min 65536 (size - written)) l = Some (l ++ [Z.min 65536 (size - written)])) as -> by done. rewrite Hn, <- app_assoc. split_and!; [done|cbn; unfold sum in Hs; lia|constructor; [lia|done]].
Qed.
(** The file is as long as it says, in blocks of 64 KiB. *)
Lemma GetFile_all size : 0 <= size ->
  exists blocks, GetFile record size "bench.bin" [] = (size, true, blocks) /\ sum blocks = size /\ Forall (fun n => 0 < n <= 65536) blocks.
Proof.
  intros H. unfold GetFile. rewrite bool_decide_true by done. cbn [negb].
  destruct (write_file_all size (Z.to_nat size) 0 []) as (new&Hn&Hs&Hall); [lia|lia|]. exists new. split_and!; [done|lia|done].
Qed.
