(* ===== verification/AgentMain.v ===== *)
(** The agent's program (agent/cmd/agent/main.go): what [sharebridge share] does
    with a running agent and without one, and which password the agent's web
    interface gets.  A body of text is what the server answers with; the store
    and the configuration are read before.  Then the client and the web
    interface together. *)

From Stdlib Require Import Ascii Floats.SpecFloat.
From stdpp Require Import pretty.
From S2P Require Import Prelude GoText Float64 GoUrl Base64 Http Conc Json Config Store Backoff SignalingClient DaemonState Daemon DaemonShares DaemonSpec WebDav Web WebSafe.
#[local] Open Scope Z_scope.

(** * The command line *)

(** [agent/cmd/agent/main.go:35-41] password *)
Record Flags := mkFlags { f_password : string; f_maxDownloads : Z; f_expiryHours : Z; f_relayOnly : bool; f_shareType : string }.

(** [agent/cmd/agent/main.go:100-103] runDaemon *)
Definition key_missing (cfg : Config) : option string :=
  if bool_decide (APIKey cfg = ""%string)
  then Some "API key required — set in config.json or SHAREBRIDGE_API_KEY env var"%string else None.
(** The web interface's address, port and password.
    [agent/cmd/agent/main.go:117-123] runDaemon *)
Definition daemon_ui (cfg : Config) (flags : Flags) : string * Z * string :=
  (UIAddr cfg, UIPort cfg, if bool_decide (UIPassword cfg = ""%string) then f_password flags else UIPassword cfg).

(** * A share through the running agent *)

(** What is after, and what is before, the first occurrence. *)
Fixpoint after_first (p s : string) : option string :=
  if has_prefix p s then Some (str_drop (String.length p) s)
  else match s with EmptyString => None | String _ t => after_first p t end.
Fixpoint before_first (p s : string) : option string :=
  if has_prefix p s then Some ""%string
  else match s with EmptyString => None | String c t => String c <$> before_first p t end.

(** [agent/cmd/agent/main.go:255-273] extractCodeFromHTML *)
Definition extractCodeFromHTML (html : string) : string :=
  default ""%string (
    rest ← after_first "<h3" html; content ← after_first ">" rest; code ← before_first "</h3>" content; Some (TrimSpace code)).

Definition status_url : string := "http://127.0.0.1:7878/api/status".
Definition shares_url : string := "http://127.0.0.1:7878/api/shares".

(** [agent/cmd/agent/main.go:192-202] runShareClient *)
Definition share_form (flags : Flags) (shareURL : string) : list (string * string) :=
  [("share_url", shareURL); ("share_type", f_shareType flags)]%string
  ++ (if bool_decide (f_password flags = ""%string) then [] else [("password"%string, f_password flags)])
  ++ [("expiry_hours", pretty (f_expiryHours flags)); ("max_downloads", pretty (f_maxDownloads flags))]%string
  ++ (if f_relayOnly flags then [("relay_only", "true")]%string else []).
(** [Request.SetBasicAuth]. *)
Definition basic_auth (user pw : string) : string * string :=
  ("Authorization", "Basic " +:+ std_encode (String.list_byte_of_string (user +:+ ":" +:+ pw)))%string.
(** [agent/cmd/agent/main.go:204-220] runShareClient *)
Definition share_request (env : environment) (flags : Flags) (shareURL : string) : result http_request string :=
  NewRequest "POST" shares_url
    ([("Content-Type", "application/x-www-form-urlencoded"); ("X-Requested-With", "XMLHttpRequest")]%string
     ++ (if bool_decide (env "UI_PASSWORD"%string = ""%string) then [] else [basic_auth "" (env "UI_PASSWORD"%string)]))
    (FormBody (share_form flags shareURL)).

Section share.
Context (server : requests -> http_request -> result (http_response string) string) (env : environment) (flags : Flags).

(** The code found in the answer, [Some] of no text when none is.
    [agent/cmd/agent/main.go:191-253] runShareClient *)
Definition runShareClient (shareURL : string) : net (result string string) :=
  match share_request env flags shareURL with
  | Err e => mret (Err ("create request: " +:+ e)%string)
  | Ok rq =>
      resp ← Do server 10 ten_redirects rq;
      mret (match resp with
            | Err e => Err ("daemon request: " +:+ e)%string
            | Ok resp => if negb (rs_status resp =? 200)
                         then Err ("daemon error (" +:+ pretty (rs_status resp) +:+ "): " +:+ TrimSpace (rs_doc resp))%string
                         else Ok (extractCodeFromHTML (rs_doc resp))
            end)
  end.

Inductive ran := Refused (e : string) | Delegated (r : result string string) | RunsAlone.

Definition status_request : result http_request string := NewRequest "GET" status_url [] NoBody.
(** [agent/cmd/agent/main.go:161-188] runShare *)
Definition runShare (shareURL : string) : net ran :=
  if bool_decide (f_shareType flags = ""%string) then mret (Refused "--share-type is required (opencloud or nextcloud)")
  else if negb (bool_decide (f_shareType flags ∈ ["opencloud"; "nextcloud"]%string))
  then mret (Refused ("--share-type must be 'opencloud' or 'nextcloud', got '" +:+ f_shareType flags +:+ "'")%string)
  else
    match status_request with
    | Err _ => mret RunsAlone
    | Ok rq =>
        resp ← Do server 10 ten_redirects rq;
        match resp with
        | Ok resp => if rs_status resp =? 200 then r ← runShareClient shareURL; mret (Delegated r) else mret RunsAlone
        | Err _ => mret RunsAlone
        end
    end.
End share.

(** * A share alone *)

Section alone.
Context (ctx : nat) (random : nat -> float64).
Abbreviation handler := (proc SignalingClient.World).

(** The code and whether there was an error: [Listen] only returns with one.
    [agent/cmd/agent/main.go:612-618] runSession *)
Definition one_session (shareURL preferredCode : string) (pub : result string string) (relayOnly : bool) : handler (string * bool) :=
  code ← runSession ctx shareURL preferredCode pub relayOnly;
  match code with
  | None => mret (""%string, true)
  | Some code => _ ← Listen ctx true; mret (code, true)
  end.

(** The code to ask for, the delays, and how many were taken. *)
Record retry := mkRetry { preferredCode : string; backoff : Backoff; tries : nat }.
(** [agent/cmd/agent/main.go:312-352] runShareSingle *)
Definition retry_loop (shareURL : string) (pub : result string string) (flags : Flags) (preferred : string) : handler unit :=
  Iter (mkRetry preferred NewBackoff 0) (fun s =>
    stopped ← reads (ctx_done ctx);
    if (stopped : bool) then mret (inr tt)
    else
      '(code, failed) ← one_session shareURL (preferredCode s) pub (f_relayOnly flags);
      let b := if (failed : bool) then backoff s else Reset (backoff s) in
      let preferred := if bool_decide (code = ""%string) then preferredCode s else code in
      stopped ← reads (ctx_done ctx);
      if (stopped : bool) then mret (inr tt)
      else
        let '(_, b) := Next (random (tries s)) b in
        stopped ← choices (fun w => (false, w) :: if ctx_done ctx w then [(true, w)] else []);
        mret (if (stopped : bool) then inr tt else inl (mkRetry preferred b (S (tries s))))) Done.

(** [agent/cmd/agent/main.go:276-306] runShareSingle *)
Definition runShareSingle (cfg : Config) (st : storeData) (flags : Flags) (shareURL : string) (pub : result string string)
    : result (handler unit) string :=
  if bool_decide (APIKey cfg = ""%string) then Err "SHAREBRIDGE_API_KEY environment variable required"%string
  else
    match WebDav.New (f_shareType flags) shareURL [AllowedHost cfg; NCAllowedHost cfg] (f_password flags) with
    | Err e => Err ("create WebDAV client: " +:+ e)%string
    | Ok _ =>
        let preferred := match GetByShareURL shareURL st with Some e => se_Code e | None => ""%string end in
        Ok (retry_loop shareURL pub flags preferred)
    end.
End alone.

(** * With the web interface *)

(** What the web server makes of a request: the path between its slashes, the
    headers, the Basic credentials and the form. *)
Definition first_of (l : list (string * string)) (k : string) : string := default ""%string (snd <$> find (fun kv => bool_decide (kv.1 = k)) l).
Definition credentials (rq : http_request) : option (string * string) :=
  let h := first_of (rq_headers rq) "Authorization" in
  if negb (has_prefix "Basic " h) then None
  else b ← std_decode (str_drop 6 h);
       match cut ":" (String.string_of_list_byte b) with (user, Some pw) => Some (user, pw) | _ => None end.
Definition as_request (rq : http_request) : request :=
  mkRequest (rq_method rq) (tail (split_slash (u_path (rq_url rq)))) (first_of (rq_headers rq)) (credentials rq)
    (match rq_body rq with FormBody l => Some (first_of l) | _ => Some (fun _ => ""%string) end) (first_of (u_params (rq_url rq)))
    (match rq_body rq with JSONBody j => Some j | _ => None end).

Section together.
Context `{QuotaServer} (ws : WebServer).

(** A request to the shares that a script sends reaches the handler. *)
Lemma mux_create headers basic form query rbody :
  headers "X-Requested-With"%string = "XMLHttpRequest"%string ->
  let r := mkRequest "POST" ["api"; "shares"]%string headers basic form query rbody in mux ws r = createShareHandler ws r.
Proof.
  intros Hx r. unfold mux. change (clean_path (r_path r)) with true. cbn [negb].
  change (registerRoutes (r_method r) (segments r)) with (Routed RCreateShare). cbn [dispatch]. unfold csrfMiddleware.
  cbn [r_method r_header r]. rewrite Hx. by rewrite (bool_decide_true ("XMLHttpRequest"%string = _)), andb_false_r by done.
Qed.

Lemma credentials_basic rq pw : first_of (rq_headers rq) "Authorization" = snd (basic_auth "" pw) -> credentials rq = Some (""%string, pw).
Proof.
  intros Hh. unfold credentials. rewrite Hh. unfold basic_auth. cbn [snd]. rewrite has_prefix_app. cbn [negb].
  change 6%nat with (String.length "Basic "). rewrite str_drop_app, std_decode_encode. cbn [mbind option_bind].
  rewrite String.string_of_list_byte_of_string. change ("" +:+ ":" +:+ pw) with (":" +:+ pw). cbn [cut]. done.
Qed.

Lemma form_int_pretty form key ok def n : form key = pretty n -> int_ok n -> form_int form key ok def = if ok n then n else def.
Proof. intros Hf Hn. unfold form_int. by rewrite Hf, Atoi_Itoa. Qed.

(** The form, read back. *)
Lemma share_form_values flags shareURL : let form := first_of (share_form flags shareURL) in
  form "share_url" = shareURL /\ form "share_type" = f_shareType flags /\ form "password" = f_password flags /\
  form "expiry_hours" = pretty (f_expiryHours flags) /\ form "max_downloads" = pretty (f_maxDownloads flags) /\
  bool_decide (form "relay_only" = "true") = f_relayOnly flags.
Proof.
  unfold share_form. case_bool_decide as Hpw; destruct (f_relayOnly flags); split_and!; try reflexivity; by rewrite Hpw.
Qed.

(** What a handler may answer, whatever the rest of the agent does to the world
    between its steps. *)
Definition outcome {W A} (p : proc W A) (a : A) : Prop := rtc (fun q q' => exists w w' sp, pstep q w q' w' sp) p (Done a).

Lemma outcome_done {W A} (x a : A) : outcome (Done (W := W) x) a -> a = x.
Proof. intros Hr. inversion Hr as [|? q ? (w&w'&sp&Hs)]; subst; [done|]. by cbn in Hs. Qed.
Lemma outcome_act {W A B} (f : W -> list (B * W)) (k : B -> proc W A) a : outcome (Act f k) a -> exists b, outcome (k b) a.
Proof.
  intros Hr. inversion Hr as [|? q ? (w&w'&sp&Hs) Hrest]; subst. cbn in Hs. destruct Hs as (b&_&->&_). by exists b.
Qed.

(** An agent that serves what the client sends: each answer is one its web
    interface may give to that request, as text, and no redirect. *)
Definition serves (render : response -> string) (server : requests -> http_request -> result (http_response string) string)
    (rq : http_request) : Prop :=
  forall l, exists resp a, server l rq = Ok resp /\ outcome (serve ws (as_request rq)) a
    /\ rs_status resp = status a /\ rs_doc resp = render a /\ rs_location resp = None.

Lemma do_answered (server : requests -> http_request -> result (http_response string) string) n rq resp l : server l rq = Ok resp -> rs_location resp = None ->
  Do server (S n) ten_redirects rq l = Some (Ok resp, l ++ [rq]).
Proof.
  intros Hs Hl. unfold Do. cbn [follow]. unfold mbind, net_bind, send_request. rewrite Hs, Hl.
  by destruct (redirect_of _ _) as [[]|].
Qed.

(** What the guards make of the client's two requests. *)
Lemma status_served rq : status_request = Ok rq ->
  serve ws (as_request rq) = if bool_decide (ws_password ws = ""%string) then statusHandler ws else mret (http_error "Unauthorized" 401).
Proof. intros [= <-]. unfold serve. by case_bool_decide. Qed.

Definition flags_share (flags : Flags) (shareURL : string) : proc World response :=
  create_share shareURL (f_shareType flags) (f_password flags)
    (if 0 <? f_expiryHours flags then f_expiryHours flags else 24) (if 0 <=? f_maxDownloads flags then f_maxDownloads flags else 10)
    (f_relayOnly flags).

Lemma share_served env flags shareURL rq : share_request env flags shareURL = Ok rq ->
  ws_ready ws = true -> ws_password ws = ""%string \/ env "UI_PASSWORD"%string = ws_password ws ->
  f_shareType flags <> ""%string -> int_ok (f_expiryHours flags) -> int_ok (f_maxDownloads flags) ->
  serve ws (as_request rq) = flags_share flags shareURL.
Proof.
  intros [= Hrq] Hready Hpw Htype He Hm.
  assert (mux ws (as_request rq) = createShareHandler ws (as_request rq)) as Hmux by (rewrite <- Hrq; apply mux_create; reflexivity).
  assert (serve ws (as_request rq) = createShareHandler ws (as_request rq)) as ->.
  { unfold serve. destruct (bool_decide_reflect (ws_password ws = ""%string)) as [Hnone|Hnone]; [exact Hmux|]. destruct Hpw as [|Hpw]; [done|].
    unfold authMiddleware. replace (has_prefix "/static/" (url_path (as_request rq))) with false by (by rewrite <- Hrq).
    cbn [as_request r_basic]. rewrite (credentials_basic rq (ws_password ws)); [by rewrite bool_decide_true|].
    rewrite <- Hrq, Hpw, bool_decide_false by done. reflexivity. }
  unfold createShareHandler. rewrite Hready. cbn [negb]. rewrite <- Hrq. cbn [as_request r_form request_to rq_body].
  destruct (share_form_values flags shareURL) as (-> & -> & -> & Hexpiry & Hmax & ->).
  rewrite bool_decide_false by done. by rewrite (form_int_pretty _ _ _ _ _ Hexpiry), (form_int_pretty _ _ _ _ _ Hmax).
Qed.

(** C24 (functional). [sharebridge share] with an agent that runs.  Without a
    password on its web interface, the command sends two requests, for the status
    and for the share, the second passes the guards and makes exactly the share of
    the flags (but an expiry that is not positive is 24 hours, and a negative limit
    10 downloads), and the command reports the agent's error or the code in its
    answer.  With a password, even one the command has, the agent refuses to tell
    its status, because the command asks without it: the command sends nothing
    more and runs the share alone, not in the agent, although the request it would
    have sent with the password is one the agent accepts. *)
Theorem cli_share_delegated render server env flags shareURL rq1 rq2 :
  ws_ready ws = true -> f_shareType flags ∈ ["opencloud"; "nextcloud"]%string ->
  int_ok (f_expiryHours flags) -> int_ok (f_maxDownloads flags) ->
  status_request = Ok rq1 -> share_request env flags shareURL = Ok rq2 -> serves render server rq1 -> serves render server rq2 ->
  (ws_password ws <> ""%string -> runShare server env flags shareURL [] = Some (RunsAlone, [rq1])) /\
  (ws_password ws = ""%string -> exists a, outcome (flags_share flags shareURL) a /\
    runShare server env flags shareURL [] = Some (Delegated
      (if status a =? 200 then Ok (extractCodeFromHTML (render a))
       else Err ("daemon error (" +:+ pretty (status a) +:+ "): " +:+ TrimSpace (render a))%string), [rq1; rq2])) /\
  (env "UI_PASSWORD"%string = ws_password ws -> serve ws (as_request rq2) = flags_share flags shareURL).
Proof.
  intros Hready Htype He Hm Hrq1 Hrq2 Hs1 Hs2.
  assert (f_shareType flags <> ""%string) as Hne by (intros Hx; rewrite Hx in Htype; by apply (bool_decide_unpack _) in Htype || set_solver).
  split_and!; [| |intros Henv; eapply share_served; eauto].
  all: intros Hpw; unfold runShare; rewrite bool_decide_false, (bool_decide_true (_ ∈ _)) by done; cbn [negb]; rewrite Hrq1;
    destruct (Hs1 []) as (resp1&a1&Hr1&Ho1&Hst1&_&Hl1); rewrite (status_served _ Hrq1) in Ho1; unfold mbind, net_bind;
    rewrite (do_answered _ 9 _ _ _ Hr1 Hl1), Hst1.
  - rewrite bool_decide_false in Ho1 by done. apply outcome_done in Ho1 as ->. done.
  - rewrite bool_decide_true in Ho1 by done. unfold statusHandler in Ho1. rewrite Hready in Ho1.
    apply outcome_act in Ho1 as (b&->%outcome_done). unfold runShareClient. rewrite Hrq2. unfold mbind, net_bind. cbn [app status answer Z.eqb Pos.eqb].
    destruct (Hs2 [rq1]) as (resp2&a2&Hr2&Ho2&Hst2&Hd2&Hl2). rewrite (do_answered _ 9 _ _ _ Hr2 Hl2).
    rewrite (share_served _ _ _ _ Hrq2) in Ho2 by auto. exists a2. split; [done|]. rewrite Hst2, Hd2. by destruct (_ =? 200).
Qed.
End together.

(** * An agent with a password *)

#[local] Existing Instance demo_backends.
#[local] Existing Instance demo_quota.
Definition demo_flags : Flags := mkFlags "secret" 0 24 false "opencloud".
Definition demo_env (k : string) : string := if bool_decide (k = "UI_PASSWORD"%string) then "pw"%string else ""%string.

(** An agent with the password [pw] refuses both requests of a command without. *)
Definition demo_answer (l : requests) (rq : http_request) : result (http_response string) string :=
  Ok (mkResp string 401 "401 Unauthorized" None (-1) "Unauthorized"%string ([], None)).
Definition demo_no_env (k : string) : string := ""%string.

Lemma cli_share_delegated_witness : exists rq, status_request = Ok rq /\
  runShare demo_answer demo_no_env demo_flags "https://cloud.example/s/x" [] = Some (RunsAlone, [rq]) /\
  exists rq2, share_request demo_env demo_flags "https://cloud.example/s/x" = Ok rq2 /\
    serve (demo_web "pw") (as_request rq2) = flags_share demo_flags "https://cloud.example/s/x".
Proof.
  assert (forall rq, serve (demo_web "pw") (as_request rq) = mret (http_error "Unauthorized" 401) ->
    serves (demo_web "pw") (fun _ => "Unauthorized"%string) demo_answer rq) as Hs.
  { intros rq Hrq l. eexists _, _. split; [reflexivity|]. rewrite Hrq. split; [apply rtc_refl|]. split_and!; reflexivity. }
  eexists. split; [reflexivity|]. split.
  - eapply (cli_share_delegated (demo_web "pw") (fun _ => "Unauthorized"%string) demo_answer demo_no_env demo_flags "https://cloud.example/s/x");
      [reflexivity|set_solver|unfold int_ok; simpl; lia|unfold int_ok; simpl; lia|reflexivity|reflexivity|apply Hs; reflexivity|apply Hs; reflexivity|discriminate].
  - eexists. split; [reflexivity|]. eapply (share_served (demo_web "pw")); [reflexivity|reflexivity|by right|discriminate|unfold int_ok; simpl; lia..].
Defined.
